(* ===== verification/_CoqProject ===== *)
-Q . S2P
Prelude.v
CString.v
Vars.v
Conf.v
Global.v
MPool.v
Plugin.v
ParseValue.v
Parser.v
Load.v
Regex.v
Lexer.v
Grammar.v
Accept.v
Print.v
Owner.v
Halting.v
Plain.v
Termination.v
Tap.v
Vm.v
Network.v
Descriptors.v
Grub.v
Inspect.v
NvList.v
SockBuf.v
Sockets.v
Daemon.v
ConfList.v
Reload.v
Upkeep.v
Command.v
Frontend.v
Console.v
Options.v
Direct.v
Control.v
Events.v
EventLoop.v
Access.v
Life.v
ErrLog.v
