(* ===== verification/Prelude.v ===== *)
(** * Verification of bmd, the Bhyve Management Daemon

    bmd reads configuration files, starts the virtual machines (VMs) they
    describe and obeys commands that arrive on a UNIX domain socket.  The files
    may belong to ordinary users, who describe their own VMs; the daemon runs
    as root.  The same binary is the control program bmdctl, which sends the
    commands, attaches consoles and runs a VM in the foreground.  This library models
    both programs: the way from the text of the files to the VM
    configurations, the processes, pipes and network devices of a VM, the daemon with
    its event loop, its reload and its commands from its start to its end, and the
    control program up to what it prints.

    ** Parts of the program and where they are modelled

    Foundations:
    - Prelude.v (this file): machine integers, the monad of C computations, its
      rules and tactics, functional record update.
    - CString.v: the functions of the C library that the sources compute with
      ([strcmp], [strcasecmp], [strtol], [bsearch], [%d], searching, classes of
      characters ...).

    Configuration:
    - Vars.v (src/conf.c): [struct variables] with [set_var], [get_var] and
      [del_var] on the scopes of a template, a VM and the process; the numbers
      of the VMs ([get_id]).
    - Conf.v (src/conf.c, src/conf.h): [struct vm_conf], its device queues, all
      setters and getters, [create_vm_conf], [finalize_vm_conf],
      [compare_vm_conf], [dump_vm_conf].
    - Global.v (src/global.c): the paths and options of the daemon.
    - MPool.v (src/parser.c): the pools of shared memory in which the children
      that parse the files build the syntax tree.
    - Plugin.v (src/bmd.c): loading plugins, their data for each VM, the parser
      call-back and the choice of a backend.
    - ParseValue.v (src/parser.c): one function per VM parameter, the sorted
      table [parser_list] of them, [check_conf].
    - Parser.v (src/parser.c, src/confparse.h): the syntax tree, arithmetic
      ([calc_expr]), the text of a value, the global section, templates
      ([parse_apply]) and [vm_conf_set_params].
    - Load.v (src/parser.c, src/confparse.y): the list of files, [add_section],
      the child that gives up its privileges and parses, [load_config_file].
    - Regex.v: regular expressions and the longest match.  Lexer.v
      (src/conflex.l): the rules of the scanner and their actions, [yylex] and
      [text2lval].  Grammar.v (src/confparse.y): the parser with its actions
      and its recovery from errors.
    - Accept.v: a logic for the functions of the grammar, and the tokens they
      accept.  Print.v: configurations written as text are read back.  Owner.v: what
      the parser may change of the context, and the way from texts to VMs ([conf_parser], [site_load]).
      Halting.v: the parser ends, and when it does not.
    - Plain.v: a syntactic class of configurations that is free of undefined
      behaviour.  Termination.v: the loops of [load_config_file] end.
    - NvList.v (src/conf.c, src/bmd.c): [compare_nvlist] and
      [compare_vm_conf_entry] over the library libnv.

    A VM and its processes:
    - Tap.v (src/tap.c): network devices, their names and flags.
    - Vm.v (src/vm.c, src/conf.c): [struct vm], the argument vectors of bhyve,
      bhyveload and grub-bhyve, [start_bhyve] and the other functions of
      [bhyve_method], [assign_taps] and its like.
    - Network.v: the taps of a VM.  Descriptors.v (src/vm.c): the pipes of the
      daemon and the descriptors of the child before it executes the program.
    - Grub.v (src/inspect_grub.c): the dialogue with grub-bhyve over a pipe, to
      find the kernel on a disk.  Inspect.v (src/inspect.c): attaching, mounting and
      inspecting disk images.
    - ErrLog.v (src/bmd.c): the two processes that open the log file of a VM.

    The daemon:
    - Daemon.v (src/bmd.c, src/server.c): [struct event] and [struct vm_entry],
      registering events, timers, [assign_comport], [start_virtual_machine],
      [stop_virtual_machine], [call_plugins], the call-backs of VM events,
      [start_virtual_machines] and [vm_down_command].
    - ConfList.v: the lists of configurations as linked memory (<sys/queue.h>).
      Reload.v (src/bmd.c): [reload_virtual_machines] on them.  Upkeep.v: the
      invariant of VMs and configurations, and that a reload keeps it.
    - SockBuf.v (src/server.c): receiving and sending length-prefixed messages,
      time-outs, [check_owner], [get_peer_comport].  Sockets.v (src/server.c): opening the
      command socket, on both sides.  Command.v (src/server.c):
      [recv_command] and all commands.  Frontend.v (src/server.c, src/bmd.c): the
      connections and their events.
    - Events.v: the invariant of the event list through every operation.
      EventLoop.v (src/bmd.c): [event_loop] with all call-backs, signals and plugins
      included.  Access.v: what every operation keeps of the configurations of the VMs.  Life.v (src/bmd.c): the start, the loop and
      the end of the daemon, and access control in between.

    The control program:
    - Options.v (src/bmd.c, src/control.c): [getopt] and both command lines.
    - Control.v (src/control.c): every sub-command, the exchange with the daemon,
      the output.  Console.v (src/console.c): the attached console.
      Direct.v (src/bmd.c, src/control.c): [direct_run].

    How they interact: the configurations that [load_config_file] returns are what
    [daemon_start] makes VMs of.  Load.v is written against any parser of type
    [yyparser]; what it needs of one are the classes [CarriesOwner] of Owner.v and [EndingParser] of Termination.v, and the parser of Grammar.v is
    an instance of both.  The daemon calls a backend through
    [vm_ops], and the class [BackendLaws] of Daemon.v is what it relies on: the
    theorems about the daemon are proved against the class, and the functions of
    Vm.v are an instance.  Commands and reloads change the same VMs and the same linked
    configurations; [Consistent] of Upkeep.v is the invariant they share, [FInv] of Frontend.v
    adds the connections and [LInv] of EventLoop.v the events.  Control.v runs
    [control] of the client against [recv_command] of the daemon.

    A definition has the name of the C function it translates.  Where a
    function is split, the parts carry names of their own (for example
    [load_vm] is the body of the loop over the VM sections in
    [load_config_file]) and the comment says so.

    ** How C is modelled

    A computation of type [C A] takes the outcomes of the allocations to come
    ([oracle]) and ends in a value ([Done]) or in a [fault]: undefined behaviour
    such as a NULL dereference, a use after free, an invalid [free] or a signed
    overflow, a read of what was never written, or the end of the daemon itself ([ProcessExit]).  A function that neither allocates nor can fault is a plain
    function.  A result and the object that the function changes through a
    pointer are returned together.  [wp c Q F] says that for every oracle [c]
    ends in a value with [Q] or a fault with [F]; [F] is [no_fault] where the
    theorem includes the absence of undefined behaviour.  [runs c a] says that
    [c] ends in [a] when no allocation fails.

    A [char *] is an [option string], an integer a [Z] with its width written
    out where it can wrap, a list of <sys/queue.h> a list, or linked nodes where
    elements move between lists; a [STAILQ] keeps the
    state of its tail pointer, because one queue is never initialised and
    because [realloc] moves the heads.  A red-black tree of variables is a
    finite map.  Entries, events, connections and configurations are objects of a store with
    addresses, so that an access after [free] is a fault; the pointer [pl_conf] of a VM into the data of its configuration is
    a reference ([pl_ref] of Plugin.v), which a reload can leave behind.  Objects that are only logged
    (the ERR and INFO messages) leave no trace in the model.

    What is outside of the sources is an argument: the user database ([sysdb]),
    the file system ([fsys]), the addresses [mmap] returns, the contents of the
    plugin directory and the functions of the plugins, the answers of [recv]
    and [sendmsg], the time, what [kevent] delivers, the processes, pipes, files, disks and network devices
    ([kernel], [if_sys], [disk_sys], [devices]), libnv ([libnv] and the packing of messages), [qsort] and the terminal.
    The programs lex and yacc are not sources either: Lexer.v and Grammar.v take their documented meaning,
    which is the longest match and the first rule for lex, and shifting in a conflict and the
    recovery by error tokens for yacc.  What the theorems need of the others are classes of laws ([BackendLaws] for the methods of plugins, [InspectLaws], [LibnvLaws],
    [IfLaws], [FdLaws], [SockLaws], [DiskSysLaws], [WireLaws], [SortLaws]), each with an instance.  Where a call that undoes something may be
    refused (destroying a tap, detaching a disk, unmounting), the laws say so.

    ** What the theorems show

    - Privilege separation (Load.v): whatever a user's file says, its VMs belong
      to that user and to one of the user's groups; only root's files configure
      the daemon.  Owner.v: this begins with the bytes of the file, since no text makes the parser build
      a section of another owner: a section has the owner of the file whose text it stands in.  ErrLog.v: a log file is opened with the user and the
      group of its owner (the supplementary groups of the daemon stay, here and in the children that parse), in every
      interleaving of the two processes, which never wait for each other for ever but in one case.
      SockBuf.v and Command.v: who may control a VM, and that a refused command
      changes nothing; Access.v and Life.v: this holds from the start to the end of the daemon, whatever
      events, requests and reloads there are, complete or not, with faults aside.
    - Texts (Print.v): the parser reads every printed configuration back to its syntax tree.
      Lexer.v: [text2lval] stays inside of its block and computes the meaning of the text, a call
      of the scanner ends, its stack never underflows.  Halting.v: [yyparse] ends on every text without double quotes,
      however little memory there is.
    - Loaded VMs are complete (Load.v), loading ends (Termination.v, Parser.v:
      templates that apply each other included), and plain configurations have
      no undefined behaviour (Plain.v).
    - The daemon is safe (Life.v): from its start on, in whatever order events arrive, no
      freed VM, configuration, connection or event is used, and an event that occurs once is removed once; it ends when
      it is told to and frees everything once.  Each theorem lists what it assumes and the three
      cases in which the code does use freed memory, which have theorems of their own: the end of a VM that is being
      removed ([removed_vm_double_free]), a reload meanwhile ([reload_while_removing_faults]), and a backend that follows
      [pl_conf] after a reload ([reload_dangles_pl_conf]).  The theorem rests on those of the
      parts: a reload keeps the invariant of the lists (Upkeep.v), commands do (Command.v), a VM that is not
      terminated is watched (Daemon.v).
    - Resources: taps (Network.v), descriptors (Descriptors.v), sockets (Sockets.v), mounted and attached disks (Inspect.v) and the VM
      of the foreground mode (Direct.v) are given back on every path, failures
      included, as far as the kernel takes them back; memory pools hand out disjoint blocks (MPool.v).
    - Functional correctness: the command line of bhyve and the process a start begins (Vm.v),
      flags of devices (Tap.v), wiring of standard output (Descriptors.v), arithmetic against the
      integers (Parser.v), comparison of configurations (Conf.v, NvList.v), the
      dialogue with grub-bhyve against its text and the list of disks (Grub.v), the
      message layer against the stream of bytes (SockBuf.v), what a console sends (Console.v).
    - End to end (Control.v): bmdctl list prints exactly the VMs that the user may see, sorted, and a command
      for a VM of somebody else is refused.
    - Where the code does not do what it means to, a theorem states exactly
      when: the theorems of kind "error" of the manifest.  Of the parser: differences group
      to the right (Print.v), a full pool inside of double quotes makes the recovery run for ever,
      and an error in the global section dereferences a NULL name (Halting.v).

    ** Bounds

    Where recursion is not structural a definition takes fuel, and a theorem says how much is
    enough.  [vm_conf_set_params] takes one unit of
    fuel per template not yet applied and one more; [load_vm] gives it
    [S (length templates)].  [parse_files] takes
    one unit per file and [parse] one answer of [mmap] per retry
    (Termination.v).  The scanner and the parser take [lex_fuel] and [parse_fuel], multiples of the length of the
    input; [yylex_terminates], [conf_roundtrip] and [yyparse_terminates] show that they do
    not run out where the program ends.  A child that runs for ever has no status ([Hung]), and the daemon waits for it for ever.  [compare_nvlist] takes the depth of the nested lists ([plugin_ok]);
    [free_all] the length of the list; [opt_loop] the size of the arguments.
    [pp_expect], [console_in], the event loop and [await_ends] consume a list of answers: they
    return when it ends, with a value that says that they still wait, so that a
    statement about a prefix of the answers is one about a run that goes on.  The two processes of ErrLog.v end after four turns
    of each.  No theorem about the result of a
    function relies on fuel running out.

    ** What is not modelled

    - The tables that lex and yacc generate, and the depth of the stack of yacc (10000).
    - A limit of the memory that a file can ask for: a file that no pool can hold is parsed again and again until
      [mmap] fails (Termination.v).
    - The overlap of the two ranges of [memcpy] in [pp_expect] (src/inspect_grub.c), which the C standard does not allow.
    - Of src/vm.c: the loop over [copy_file_range], one answer of the kernel.
    - What plugins do when they are called: they change the state of the world and may ask for timers and processes
      from their call-backs.
    - src/log.h, the tests, and [free_cfsection] and its like (src/parser.c), which nothing calls.  *)

From Stdlib Require Export ZArith Lia.
From stdpp Require Export base list strings gmap.

(** ** Machine integers *)

(** [wrap_s w z] is [z] converted to a signed two's complement integer of [w]
    bits, [wrap_u w z] to an unsigned one. *)
Definition wrap_s (w z : Z) : Z := (z + 2 ^ (w - 1)) mod 2 ^ w - 2 ^ (w - 1).

Definition wrap_u (w z : Z) : Z := z mod 2 ^ w.

(** Conversions to the C types [int], [unsigned int] ([uid_t], [gid_t]) on
    FreeBSD/amd64, and the bounds of [int] and [long]. *)
Definition to_int (z : Z) : Z := wrap_s 32 z.

Definition to_uint (z : Z) : Z := wrap_u 32 z.

Definition INT_MIN : Z := - 2 ^ 31.
Definition INT_MAX : Z := 2 ^ 31 - 1.
Definition LONG_MIN : Z := - 2 ^ 63.
Definition LONG_MAX : Z := 2 ^ 63 - 1.

Definition is_int (z : Z) : Prop := (INT_MIN <= z <= INT_MAX)%Z.

Definition is_uint (z : Z) : Prop := (0 <= z < 2 ^ 32)%Z.

Definition in_long (z : Z) : bool := (LONG_MIN <=? z)%Z && (z <=? LONG_MAX)%Z.

(** A C truth value. *)
Definition c_bool (b : bool) : Z := if b then 1%Z else 0%Z.

(** ** Computations that allocate and may fault *)

(** What a C program does when it leaves the defined part of the language, or
    when it ends itself, or when a model's recursion bound is exhausted.
    [NullTap] is a NULL pointer in the place of the name of a network device,
    which is told apart because one lack of memory leads to it; [Uninitialised] is a read of a local array
    that was never written. *)
Inductive fault :=
  | NullDeref
  | UseAfterFree
  | InvalidFree
  | WildAccess
  | Uninitialised
  | SignedOverflow
  | DivideByZero
  | ProcessExit
  | NullTap
  | OutOfFuel.

(** The outcomes of the allocations still to come: [true] for success.  When
    the list is exhausted every allocation succeeds. *)
Definition oracle := list bool.

Inductive outcome (A : Type) :=
  | Done (a : A) (o : oracle)
  | Crash (f : fault).
Arguments Done {A} a o.
Arguments Crash {A} f.

Definition C (A : Type) : Type := oracle -> outcome A.

#[export] Instance C_ret : MRet C := fun A a o => Done a o.

#[export] Instance C_bind : MBind C := fun A B k c o =>
  match c o with
  | Done a o' => k a o'
  | Crash f => Crash f
  end.

Definition crash {A} (f : fault) : C A := fun _ => Crash f.

(** [malloc], [calloc], [realloc] and every library call whose only failure is
    the lack of memory. *)
Definition malloc : C bool := fun o =>
  match o with
  | [] => Done true []
  | b :: o' => Done b o'
  end.

(** Dereference a pointer that may be NULL. *)
Definition deref {A} (p : option A) : C A :=
  match p with
  | Some a => mret a
  | None => crash NullDeref
  end.

Definition strdup (s : string) : C (option string) :=
  ok ← malloc; mret (if (ok : bool) then Some s else None).

(** A function that checks its pointer argument against NULL and answers 0
    then, and the call of such a function on an object that exists. *)
Definition null_guard {A} (p : option A) (f : A -> C (Z * A)) : C (Z * option A) :=
  match p with
  | None => mret (0%Z, None)
  | Some a => '(rc, a') ← f a; mret (rc, Some a')
  end.

Definition at_ptr {A} (a : A) (f : option A -> C (Z * option A)) : C (Z * A) :=
  '(rc, p) ← f (Some a); a' ← deref p; mret (rc, a').

(** The loop [FOREACH (x, l) s = f(s, x)]. *)
Fixpoint foreach {A S} (f : S -> A -> C S) (l : list A) (s : S) : C S :=
  match l with
  | [] => mret s
  | x :: l' => s' ← f s x; foreach f l' s'
  end.

(** [wp c Q F]: whatever the allocator answers, [c] ends in a value that
    satisfies [Q] or in a fault that satisfies [F]. *)
Definition wp {A} (c : C A) (Q : A -> Prop) (F : fault -> Prop) : Prop :=
  forall o, match c o with
            | Done a _ => Q a
            | Crash f => F f
            end.

(** No fault is possible. *)
Definition no_fault (f : fault) : Prop := False.

(** [runs c a]: when no allocation fails, [c] ends in [a]. *)
Definition runs {A} (c : C A) (a : A) : Prop := c [] = Done a [].

(** ** Functional record update *)

(** [eta r] is [r] written out field by field; [r <| f := v |>] replaces one
    field of it. *)
Class Eta (R : Type) := eta : R -> R.

Class Upd {R T : Type} (f : R -> T) := upd : T -> R -> R.
Arguments upd {R T} f {_} v r.

Ltac head_of e :=
  lazymatch e with
  | ?f _ => head_of f
  | _ => e
  end.

Ltac solve_upd f :=
  let v := fresh "v" in
  let r := fresh "r" in
  intros v r;
  let t := eval cbv beta delta [eta] in (eta r) in
  let t := lazymatch t with ?e r => let h := head_of e in eval cbv beta delta [h] in (e r) end in
  let p := eval pattern (f r) in t in
  lazymatch p with
  | ?g _ => let u := eval cbv beta in (g v) in exact u
  end.

#[export] Hint Extern 0 (Upd ?f) => solve_upd f : typeclass_instances.

Declare Scope record_scope.
Delimit Scope record_scope with record.
Notation "r <| f := v |>" := (upd f v r)
  (at level 12, left associativity, f at level 10, v at level 200,
   format "r  <| f  :=  v |>") : record_scope.
Open Scope record_scope.

(** ** Reasoning about computations *)

Section wp_rules.
Context {A B : Type}.
Implicit Types (c : C A) (k : A -> C B) (F : fault -> Prop).

Lemma wp_ret (a : A) (Q : A -> Prop) F : Q a -> wp (mret a) Q F.
Proof. intros H o. exact H. Qed.

Lemma wp_bind c k (Q : B -> Prop) F :
  wp c (fun a => wp (k a) Q F) F -> wp (c ≫= k) Q F.
Proof.
  intros H o. specialize (H o). unfold mbind, C_bind.
  destruct (c o) as [a o' | f]; [apply H | exact H].
Qed.

Lemma ret_bind (a : A) k : mret a ≫= k = k a.
Proof. reflexivity. Qed.

Lemma wp_mono c (Q Q' : A -> Prop) (F F' : fault -> Prop) :
  wp c Q F -> (forall a, Q a -> Q' a) -> (forall f, F f -> F' f) -> wp c Q' F'.
Proof. intros H HQ HF o. specialize (H o). destruct (c o); auto. Qed.

(** The result comes from a run. *)
Lemma wp_run c (Q : A -> Prop) F : wp c Q F -> wp c (fun a => Q a /\ exists o o', c o = Done a o') F.
Proof. intros H o. specialize (H o). destruct (c o) as [a o' | f] eqn:E; [| done]. split; [done | by exists o, o']. Qed.

Lemma wp_crash f (Q : A -> Prop) F : F f -> wp (crash f) Q F.
Proof. intros H o. exact H. Qed.

Lemma wp_and c (Q Q' : A -> Prop) F :
  wp c Q F -> wp c Q' F -> wp c (fun a => Q a /\ Q' a) F.
Proof. intros H H' o. specialize (H o). specialize (H' o). destruct (c o); auto. Qed.

Lemma wp_deref (p : option A) (a : A) (Q : A -> Prop) F :
  p = Some a -> Q a -> wp (deref p) Q F.
Proof. intros -> H o. exact H. Qed.

Lemma runs_ret (a : A) : runs (mret a) a.
Proof. reflexivity. Qed.

Lemma runs_bind c k a b : runs c a -> runs (k a) b -> runs (c ≫= k) b.
Proof. unfold runs, mbind, C_bind. intros -> H. exact H. Qed.

Lemma wp_runs c (Q : A -> Prop) F a : wp c Q F -> runs c a -> Q a.
Proof. intros H R. specialize (H []). unfold runs in R. rewrite R in H. exact H. Qed.

Lemma runs_det c a a' : runs c a -> runs c a' -> a = a'.
Proof. unfold runs. congruence. Qed.

End wp_rules.

Lemma wp_malloc (Q : bool -> Prop) F : (forall b, Q b) -> wp malloc Q F.
Proof. intros H [| b o]; apply H. Qed.

Lemma wp_strdup s (Q : option string -> Prop) F :
  Q (Some s) -> Q None -> wp (strdup s) Q F.
Proof. intros H1 H2. apply wp_bind, wp_malloc. intros []; by apply wp_ret. Qed.

Lemma runs_malloc : runs malloc true.
Proof. reflexivity. Qed.

Lemma runs_strdup s : runs (strdup s) (Some s).
Proof. reflexivity. Qed.

Lemma wp_at_ptr {A} (a : A) f (Q : Z * A -> Prop) F :
  wp (f (Some a)) (fun p => exists a', p.2 = Some a' /\ Q (p.1, a')) F ->
  wp (at_ptr a f) Q F.
Proof.
  intros H. unfold at_ptr. apply wp_bind. eapply wp_mono; [exact H | | done].
  intros [rc p] (a' & Hp & HQ). cbn in Hp. subst p. exact (fun o => HQ).
Qed.

Lemma wp_null_guard {A} (a : A) f (Q : Z * A -> Prop) F :
  wp (f a) Q F ->
  wp (null_guard (Some a) f) (fun p => exists a', p.2 = Some a' /\ Q (p.1, a')) F.
Proof.
  intros H. unfold null_guard. apply wp_bind. eapply wp_mono; [exact H | | done].
  intros [rc a'] HQ. apply wp_ret. by exists a'.
Qed.

(** The call of a setter that checks its pointer on an object that exists. *)
Lemma wp_at_setter {A} (a : A) g f (Q : Z * A -> Prop) F :
  g (Some a) = null_guard (Some a) f -> wp (f a) Q F -> wp (at_ptr a g) Q F.
Proof.
  intros E H. apply wp_at_ptr. rewrite E. by apply wp_null_guard.
Qed.

Lemma runs_null_guard {A} (a a' : A) f rc :
  runs (f a) (rc, a') -> runs (null_guard (Some a) f) (rc, Some a').
Proof. intros H. eapply runs_bind; [exact H | apply runs_ret]. Qed.

Lemma runs_at_ptr {A} (a a' : A) f rc :
  runs (f (Some a)) (rc, Some a') -> runs (at_ptr a f) (rc, a').
Proof. intros H. eapply runs_bind; [exact H | apply runs_ret]. Qed.

(** The loop rule: an invariant that every iteration keeps. *)
Lemma wp_foreach {A S} (f : S -> A -> C S) (l : list A) (I : S -> Prop) F s :
  I s ->
  (forall x s, In x l -> I s -> wp (f s x) I F) ->
  wp (foreach f l s) I F.
Proof.
  revert s. induction l as [| x l IH]; intros s Hs Hf; cbn.
  - by apply wp_ret.
  - apply wp_bind. eapply wp_mono; [apply Hf; [by left | exact Hs] | | done].
    intros s' Hs'. apply IH; [exact Hs' |]. intros y t Hy. apply Hf. by right.
Qed.

(** [step_wp] runs the rules above through the body of a definition. *)
Create HintDb wp_db.
#[export] Hint Resolve wp_ret wp_crash : wp_db.

Ltac step_wp :=
  lazymatch goal with
  | |- wp (mret _) _ _ => apply wp_ret
  | |- wp (_ ≫= _) _ _ => apply wp_bind
  | |- wp malloc _ _ => apply wp_malloc; intros []
  | |- wp (strdup _) _ _ => apply wp_strdup
  | |- wp (crash _) _ _ => apply wp_crash
  | |- wp (at_ptr _ _) _ _ => apply wp_at_ptr
  | |- wp (null_guard (Some _) _) _ _ => apply wp_null_guard
  | |- wp (if ?b then _ else _) _ _ => destruct b eqn:?
  | |- wp (match ?x with _ => _ end) _ _ => destruct x eqn:?
  end; cbn beta iota.

Ltac steps_wp := repeat step_wp.

(** The same for computations in which no allocation fails. *)
Ltac step_runs :=
  lazymatch goal with
  | |- runs (mret _) _ => apply runs_ret
  | |- runs (_ ≫= _) _ => eapply runs_bind
  | |- runs malloc _ => apply runs_malloc
  | |- runs (strdup _) _ => apply runs_strdup
  | |- runs (at_ptr _ _) _ => apply runs_at_ptr
  | |- runs (null_guard (Some _) _) _ => apply runs_null_guard
  | |- runs _ _ => progress cbn beta iota
  end; cbn beta iota.

Ltac steps_runs := repeat step_runs.

(** ** Restricted answers of the allocator *)

(** [wpo P c Q F]: as [wp], for the answers of the allocator that satisfy [P],
    which the answers that are left satisfy too.  [wpo healthy_oracle] speaks of
    the runs in which no allocation fails. *)
Definition wpo {A} (P : oracle -> Prop) (c : C A) (Q : A -> Prop) (F : fault -> Prop) : Prop :=
  forall o, P o -> match c o with
                   | Done a o' => P o' /\ Q a
                   | Crash f => F f
                   end.

Class OracleClosed (P : oracle -> Prop) := oracle_closed b o : P (b :: o) -> P o.

Definition any_oracle (o : oracle) : Prop := True.

Definition healthy_oracle (o : oracle) : Prop := o = [].

#[export] Instance any_oracle_closed : OracleClosed any_oracle.
Proof. done. Qed.

#[export] Instance healthy_oracle_closed : OracleClosed healthy_oracle.
Proof. by intros b o H. Qed.

Section wpo_rules.
Context (P : oracle -> Prop) {A B : Type}.
Implicit Types (c : C A) (k : A -> C B) (F : fault -> Prop).

Lemma wpo_ret (a : A) (Q : A -> Prop) F : Q a -> wpo P (mret a) Q F.
Proof. by intros H o Ho. Qed.

Lemma wpo_bind c k (Q : B -> Prop) F :
  wpo P c (fun a => wpo P (k a) Q F) F -> wpo P (c ≫= k) Q F.
Proof.
  intros H o Ho. specialize (H o Ho). unfold mbind, C_bind.
  destruct (c o) as [a o' | f]; [destruct H as [Ho' H]; by apply H | exact H].
Qed.

Lemma wpo_mono c (Q Q' : A -> Prop) (F F' : fault -> Prop) :
  wpo P c Q F -> (forall a, Q a -> Q' a) -> (forall f, F f -> F' f) -> wpo P c Q' F'.
Proof. intros H HQ HF o Ho. specialize (H o Ho). destruct (c o); [split; [| apply HQ]; apply H | auto]. Qed.

Lemma wpo_crash f (Q : A -> Prop) F : F f -> wpo P (crash f) Q F.
Proof. by intros H o Ho. Qed.

Lemma wpo_deref (p : option A) (a : A) (Q : A -> Prop) F : p = Some a -> Q a -> wpo P (deref p) Q F.
Proof. by intros -> H o Ho. Qed.

Lemma wpo_wp c (Q : A -> Prop) F : wpo any_oracle c Q F -> wp c Q F.
Proof. intros H o. specialize (H o I). destruct (c o); [apply H | done]. Qed.

Lemma wpo_runs c (Q : A -> Prop) F a : wpo healthy_oracle c Q F -> runs c a -> Q a.
Proof. intros H R. specialize (H [] eq_refl). unfold runs in R. rewrite R in H. apply H. Qed.

End wpo_rules.

Lemma wpo_malloc P `{!OracleClosed P} (Q : bool -> Prop) F : (forall b, Q b) -> wpo P malloc Q F.
Proof. intros H [| b o] Ho; (split; [| apply H]); [done | by apply (oracle_closed b)]. Qed.

Lemma wpo_strdup P `{!OracleClosed P} s (Q : option string -> Prop) F :
  Q (Some s) -> Q None -> wpo P (strdup s) Q F.
Proof. intros H1 H2. apply wpo_bind, wpo_malloc; [done |]. intros []; by apply wpo_ret. Qed.

Lemma healthy_malloc (Q : bool -> Prop) F : Q true -> wpo healthy_oracle malloc Q F.
Proof. by intros H o ->. Qed.

Lemma healthy_strdup s (Q : option string -> Prop) F : Q (Some s) -> wpo healthy_oracle (strdup s) Q F.
Proof. by intros H o ->. Qed.

Ltac step_wpo :=
  lazymatch goal with
  | |- wpo _ (mret _) _ _ => apply wpo_ret
  | |- wpo _ (_ ≫= _) _ _ => apply wpo_bind
  | |- wpo healthy_oracle malloc _ _ => apply healthy_malloc
  | |- wpo healthy_oracle (strdup _) _ _ => apply healthy_strdup
  | |- wpo _ malloc _ _ => apply wpo_malloc; [apply _ |]; intros []
  | |- wpo _ (strdup _) _ _ => apply wpo_strdup; [apply _ | |]
  | |- wpo _ (crash _) _ _ => apply wpo_crash
  | |- wpo _ (if ?b then _ else _) _ _ => destruct b eqn:?
  | |- wpo _ (match ?x with _ => _ end) _ _ => destruct x eqn:?
  end; cbn beta iota.

Ltac steps_wpo := repeat step_wpo.

(** ** Computations without a recursion bound *)

(** Whatever happens in [c], it is not the exhaustion of a bound. *)
Definition nofuel {A} (c : C A) : Prop := wp c (fun _ => True) (fun f => f <> OutOfFuel).

Section nofuel_rules.
Context {A B : Type}.

Lemma nofuel_ret (a : A) : nofuel (mret a).
Proof. done. Qed.

Lemma nofuel_crash f : f <> OutOfFuel -> nofuel (crash f : C A).
Proof. by intros H o. Qed.

Lemma nofuel_bind (c : C A) (k : A -> C B) :
  nofuel c -> (forall a, nofuel (k a)) -> nofuel (c ≫= k).
Proof. intros Hc Hk. apply wp_bind. eapply wp_mono; [exact Hc | intros a _; apply Hk | done]. Qed.

Lemma nofuel_deref (p : option A) : nofuel (deref p).
Proof. by destruct p. Qed.

Lemma nofuel_null_guard (p : option A) f : (forall a, nofuel (f a)) -> nofuel (null_guard p f).
Proof.
  intros H. destruct p; [| done]. apply wp_bind.
  eapply wp_mono; [apply H | intros [? ?] _; by apply wp_ret | done].
Qed.

Lemma nofuel_at_ptr (a : A) f : nofuel (f (Some a)) -> nofuel (at_ptr a f).
Proof.
  intros H. apply wp_bind. eapply wp_mono; [exact H | intros [? [a' |]] _ | done].
  - by apply wp_bind, wp_ret, wp_ret.
  - by apply wp_bind, wp_crash.
Qed.

Lemma nofuel_foreach (f : B -> A -> C B) l s :
  (forall s x, nofuel (f s x)) -> nofuel (foreach f l s).
Proof. intros H. apply wp_foreach; [done |]. intros x t _ _. apply H. Qed.

End nofuel_rules.

Lemma nofuel_malloc : nofuel malloc.
Proof. by intros [| ? ?]. Qed.

Lemma nofuel_strdup s : nofuel (strdup s).
Proof. by intros [| ? ?]. Qed.

Ltac step_nofuel :=
  lazymatch goal with
  | |- nofuel (mret _) => apply nofuel_ret
  | |- nofuel (crash _) => by apply nofuel_crash
  | |- nofuel (_ ≫= _) => apply nofuel_bind
  | |- nofuel malloc => apply nofuel_malloc
  | |- nofuel (strdup _) => apply nofuel_strdup
  | |- nofuel (deref _) => apply nofuel_deref
  | |- nofuel (at_ptr _ _) => apply nofuel_at_ptr
  | |- nofuel (null_guard _ _) => apply nofuel_null_guard
  | |- nofuel (foreach _ _ _) => apply nofuel_foreach
  | |- nofuel (if ?b then _ else _) => destruct b
  | |- nofuel (match ?x with _ => _ end) => destruct x
  | |- forall _, _ => intro
  | |- nofuel _ => first [assumption | apply nofuel_null_guard]
  end; cbn beta iota.

Ltac steps_nofuel := repeat step_nofuel.

(** ** Lemmas on lists *)

Lemma NoDup_fmap_inj {A B} (f : A -> B) (l : list A) x y :
  NoDup (f <$> l) -> x ∈ l -> y ∈ l -> f x = f y -> x = y.
Proof.
  induction l as [| z l IH]; cbn; intros Hnd Hx Hy Hf; [by apply not_elem_of_nil in Hx |].
  apply NoDup_cons in Hnd as [Hz Hnd].
  apply elem_of_cons in Hx as [-> | Hx], Hy as [-> | Hy]; [done | | | by apply IH].
  - rewrite Hf in Hz. by contradict Hz; apply list_elem_of_fmap_2.
  - rewrite <- Hf in Hz. by contradict Hz; apply list_elem_of_fmap_2.
Qed.

Lemma length_filter_fmap {A B} (f : A -> B) (P : B -> Prop) (Q : A -> Prop)
    `{!forall x, Decision (P x), !forall x, Decision (Q x)} (l : list A) :
  (forall x, P (f x) <-> Q x) -> length (filter P (f <$> l)) = length (filter Q l).
Proof.
  intros HPQ. induction l as [| x l IH]; [done |]. rewrite fmap_cons.
  destruct (decide (Q x)) as [E | E].
  - rewrite !filter_cons_True; [cbn; by rewrite IH | done | by apply HPQ].
  - rewrite !filter_cons_False; [exact IH | done | by rewrite HPQ].
Qed.

(** ** Lemmas on machine integers *)

Section integers.
Local Open Scope Z_scope.

Lemma wrap_s_range w z : 0 < w -> - 2 ^ (w - 1) <= wrap_s w z < 2 ^ (w - 1).
Proof.
  intros Hw. unfold wrap_s.
  assert (E : 2 ^ w = 2 * 2 ^ (w - 1)) by (rewrite <- Z.pow_succ_r by lia; f_equal; lia).
  pose proof (Z.mod_pos_bound (z + 2 ^ (w - 1)) (2 ^ w)) as B.
  assert (0 < 2 ^ (w - 1)) by (apply Z.pow_pos_nonneg; lia). lia.
Qed.

Lemma wrap_s_id w z : 0 < w -> - 2 ^ (w - 1) <= z < 2 ^ (w - 1) -> wrap_s w z = z.
Proof.
  intros Hw Hz. unfold wrap_s.
  assert (E : 2 ^ w = 2 * 2 ^ (w - 1)) by (rewrite <- Z.pow_succ_r by lia; f_equal; lia).
  rewrite Z.mod_small; lia.
Qed.

Lemma to_int_range z : is_int (to_int z).
Proof.
  unfold is_int, to_int, INT_MIN, INT_MAX.
  pose proof (wrap_s_range 32 z). cbn in *. lia.
Qed.

Lemma to_int_id z : is_int z -> to_int z = z.
Proof. unfold is_int, INT_MIN, INT_MAX. intros H. apply wrap_s_id; cbn; lia. Qed.

Lemma to_int_eq0 z : to_int z = 0 <-> z mod 2 ^ 32 = 0.
Proof.
  unfold to_int, wrap_s. cbn [Z.sub Z.pow_pos]. change (32 - 1) with 31.
  pose proof (Z.mod_pos_bound z (2 ^ 32)) as B.
  pose proof (Z.div_mod z (2 ^ 32)) as D.
  pose proof (Z.mod_pos_bound (z + 2 ^ 31) (2 ^ 32)) as B'.
  pose proof (Z.div_mod (z + 2 ^ 31) (2 ^ 32)) as D'.
  cbn in *. lia.
Qed.

(** The difference of two [int]s is 0 after truncation only when they are equal. *)
Lemma to_int_sub_eq0 a b : is_int a -> is_int b -> to_int (a - b) = 0 <-> a = b.
Proof.
  unfold is_int, INT_MIN, INT_MAX. intros Ha Hb. rewrite to_int_eq0. split.
  - intros H. apply Z.mod_divide in H as [k Hk]; [| lia].
    assert (k = 0) by lia. subst k. lia.
  - intros ->. by rewrite Z.sub_diag.
Qed.

Lemma to_int_sub_eq0_uint a b : is_uint a -> is_uint b -> to_int (a - b) = 0 <-> a = b.
Proof.
  unfold is_uint. intros Ha Hb. rewrite to_int_eq0. split.
  - intros H. apply Z.mod_divide in H as [k Hk]; [| lia].
    assert (k = 0) by lia. subst k. lia.
  - intros ->. by rewrite Z.sub_diag.
Qed.

Lemma in_long_spec z : in_long z = true <-> LONG_MIN <= z <= LONG_MAX.
Proof. unfold in_long. rewrite andb_true_iff, !Z.leb_le. reflexivity. Qed.

End integers.
