(* ===== verification/CString.v ===== *)
(** * The parts of the C library that bmd computes with

    Strings are NUL-terminated in the program and [string] here; [NULL] is
    [None].  This file gives the functions of [string.h], [strings.h],
    [stdlib.h] and [ctype.h] and the [%d] conversion that the sources call, as ISO C and
    POSIX define them, and the lemmas the other files use:
    - [strcmp], [strcasecmp] are total orders whose 0 is equality (up to case);
    - [bsearch] on a table sorted by name is a linear search;
    - [strtol] reads back what [%d]/[%ld] prints. *)

From S2P Require Import Prelude.
From Stdlib Require Import Ascii Sorted.

Local Open Scope Z_scope.

(** ** Characters *)

Definition byte_of (c : ascii) : Z := Z.of_N (N_of_ascii c).

Definition NUL : ascii := ascii_of_nat 0.

Definition LF : ascii := ascii_of_nat 10.

Definition in_range (lo hi c : ascii) : bool :=
  (byte_of lo <=? byte_of c) && (byte_of c <=? byte_of hi).

Definition is_digit (c : ascii) : bool := in_range "0" "9" c.

Definition is_upper (c : ascii) : bool := in_range "A" "Z" c.

Definition is_lower (c : ascii) : bool := in_range "a" "z" c.

(** [isspace] of the C locale. *)
Definition is_space (c : ascii) : bool :=
  Ascii.eqb c " " || in_range (ascii_of_nat 9) (ascii_of_nat 13) c.

(** [tolower] of the C locale. *)
Definition to_lower (c : ascii) : ascii :=
  if is_upper c then ascii_of_N (N_of_ascii c + 32) else c.

Fixpoint lower (s : string) : string :=
  match s with
  | EmptyString => EmptyString
  | String c s' => String (to_lower c) (lower s')
  end.

(** [s[n]]: the terminating NUL at the end of the string. *)
Definition char_at (s : string) (n : nat) : ascii :=
  match String.get n s with
  | Some c => c
  | None => NUL
  end.

(** [&s[n]] for [n <= strlen(s)]. *)
Fixpoint drop_str (n : nat) (s : string) : string :=
  match n, s with
  | S n', String _ s' => drop_str n' s'
  | _, _ => s
  end.

Fixpoint take_str (n : nat) (s : string) : string :=
  match n, s with
  | S n', String c s' => String c (take_str n' s')
  | _, _ => EmptyString
  end.

(** ** Comparison: ISO C fixes the sign of the result only *)

Definition sign_of (c : comparison) : Z :=
  match c with
  | Lt => -1
  | Eq => 0
  | Gt => 1
  end.

Definition strcmp (a b : string) : Z := sign_of (String.compare a b).

Definition strcasecmp (a b : string) : Z := strcmp (lower a) (lower b).

Definition strncmp (a b : string) (n : nat) : Z := strcmp (take_str n a) (take_str n b).

(** [strchr]: the suffix of [s] that starts at the first [c]. *)
Fixpoint strchr (s : string) (c : ascii) : option string :=
  match s with
  | EmptyString => None
  | String d s' => if Ascii.eqb d c then Some s else strchr s' c
  end.

(** The text before the first [c]. *)
Fixpoint before (s : string) (c : ascii) : string :=
  match s with
  | EmptyString => EmptyString
  | String d s' => if Ascii.eqb d c then EmptyString else String d (before s' c)
  end.

(** ** Searching *)

(** [strstr]: the position of the first [p] in [s]. *)
Fixpoint strstr (s p : string) : option nat :=
  if String.prefix p s then Some 0%nat
  else match s with
       | EmptyString => None
       | String _ s' => S <$> strstr s' p
       end.

(** The first [n] bytes at [s] as a C string: what stands before a NUL. *)
Definition c_str (n : nat) (s : string) : string := before (take_str n s) NUL.

(** [strnstr(s, p, n)]. *)
Definition strnstr (s p : string) (n : nat) : option nat := strstr (c_str n s) p.

(** [strsep(&s, c)]: the token, and the text behind the separator. *)
Fixpoint strsep (s : string) (c : ascii) : string * option string :=
  match s with
  | EmptyString => (EmptyString, None)
  | String d s' =>
      if Ascii.eqb d c then (EmptyString, Some s')
      else let '(t, r) := strsep s' c in (String d t, r)
  end.

(** ** Numbers *)

Definition digit_val (c : ascii) : option Z :=
  if is_digit c then Some (byte_of c - byte_of "0")
  else if is_upper c then Some (byte_of c - byte_of "A" + 10)
  else if is_lower c then Some (byte_of c - byte_of "a" + 10)
  else None.

Fixpoint skip_space (s : string) : string :=
  match s with
  | String c s' => if is_space c then skip_space s' else s
  | EmptyString => EmptyString
  end.

Definition read_sign (s : string) : bool * string :=
  match s with
  | String c s' =>
      if Ascii.eqb c "-" then (true, s')
      else if Ascii.eqb c "+" then (false, s')
      else (false, s)
  | EmptyString => (false, s)
  end.

Definition is_hex (c : ascii) : bool :=
  match digit_val c with
  | Some d => d <? 16
  | None => false
  end.

(** The radix prefix: [0x] is one only when a hexadecimal digit follows. *)
Definition read_prefix (base : Z) (s : string) : Z * string :=
  match s with
  | String z (String x (String d _ as s')) =>
      if ((base =? 0) || (base =? 16)) && Ascii.eqb z "0"
         && (Ascii.eqb x "x" || Ascii.eqb x "X") && is_hex d
      then (16, s')
      else if base =? 0 then (if Ascii.eqb z "0" then 8 else 10, s) else (base, s)
  | String z _ => if base =? 0 then (if Ascii.eqb z "0" then 8 else 10, s) else (base, s)
  | EmptyString => (if base =? 0 then 10 else base, s)
  end.

Fixpoint read_digits (base : Z) (s : string) (acc : Z) (any : bool) : Z * bool * string :=
  match s with
  | String c s' =>
      match digit_val c with
      | Some d => if d <? base then read_digits base s' (acc * base + d) true
                  else (acc, any, s)
      | None => (acc, any, s)
      end
  | EmptyString => (acc, any, s)
  end.

Definition clamp_long (z : Z) : Z := Z.max LONG_MIN (Z.min LONG_MAX z).

(** [strtol(s, &end, base)]: the value, saturated to [long], and [end]. *)
Definition strtol (s : string) (base : Z) : Z * string :=
  let '(neg, s2) := read_sign (skip_space s) in
  let '(b, s3) := read_prefix base s2 in
  let '(acc, any, rest) := read_digits b s3 0 false in
  if (any : bool) then (clamp_long (if (neg : bool) then - acc else acc), rest) else (0, s).

Definition digit_char (d : Z) : ascii := ascii_of_N (Z.to_N (d + byte_of "0")).

(** The decimal digits of [n >= 0] in front of [acc]. *)
Fixpoint print_digits (fuel : nat) (n : Z) (acc : string) : string :=
  match fuel with
  | O => acc
  | S fuel' =>
      let acc' := String (digit_char (n mod 10)) acc in
      if n / 10 =? 0 then acc' else print_digits fuel' (n / 10) acc'
  end.

(** The conversions [%d], [%u] and [%ld]. *)
Definition print_dec (z : Z) : string :=
  let n := Z.abs z in
  let ds := print_digits (S (Z.to_nat (Z.log2 n))) n EmptyString in
  if z <? 0 then String "-" ds else ds.

(** ** [bsearch] *)

(** The algorithm of the C library: [cmp x] is the result of the comparison of
    the key with the element [x]; [lim] elements from [base] on remain. *)
Fixpoint bsearch_loop {A} (cmp : A -> Z) (l : list A) (fuel base lim : nat) : option A :=
  match fuel with
  | O => None
  | S fuel' =>
      match lim with
      | O => None
      | S _ =>
          let i := (base + lim / 2)%nat in
          match l !! i with
          | None => None
          | Some x =>
              let c := cmp x in
              if c =? 0 then Some x
              else if 0 <? c then bsearch_loop cmp l fuel' (S i) ((lim - 1) / 2)%nat
              else bsearch_loop cmp l fuel' base (lim / 2)%nat
          end
      end
  end.

Definition bsearch {A} (cmp : A -> Z) (l : list A) : option A :=
  bsearch_loop cmp l (S (length l)) 0 (length l).

(** A table is sorted by name when every name is smaller than all later ones. *)
Definition sorted_by {A} (name : A -> string) (l : list A) : Prop :=
  StronglySorted (fun a b => strcasecmp (name a) (name b) < 0) l.

Fixpoint sorted_byb {A} (name : A -> string) (l : list A) : bool :=
  match l with
  | a :: ((b :: _) as l') => (strcasecmp (name a) (name b) <? 0) && sorted_byb name l'
  | _ => true
  end.

(** ** Comparison lemmas *)

Lemma ascii_compare_lt_trans a b c :
  Ascii.compare a b = Lt -> Ascii.compare b c = Lt -> Ascii.compare a c = Lt.
Proof. unfold Ascii.compare. rewrite !N.compare_lt_iff. lia. Qed.

Lemma ascii_compare_refl a : Ascii.compare a a = Eq.
Proof. apply N.compare_refl. Qed.

Lemma string_compare_refl s : String.compare s s = Eq.
Proof. induction s as [| c s IH]; cbn; [done |]. by rewrite ascii_compare_refl. Qed.

Lemma string_compare_lt_trans a b c :
  String.compare a b = Lt -> String.compare b c = Lt -> String.compare a c = Lt.
Proof.
  revert b c. induction a as [| x a IH]; intros [| y b] [| z c]; cbn; try done.
  destruct (Ascii.compare x y) eqn:E1, (Ascii.compare y z) eqn:E2; intros H1 H2; try done.
  - apply Ascii.compare_eq_iff in E1 as ->. rewrite E2. eauto.
  - apply Ascii.compare_eq_iff in E1 as ->. by rewrite E2.
  - apply Ascii.compare_eq_iff in E2 as ->. by rewrite E1.
  - by rewrite (ascii_compare_lt_trans _ _ _ E1 E2).
Qed.

Lemma strcmp_eq0 a b : strcmp a b = 0 <-> a = b.
Proof.
  unfold strcmp. split.
  - destruct (String.compare a b) eqn:E; cbn; try done. by apply String.compare_eq_iff in E.
  - intros ->. by rewrite string_compare_refl.
Qed.

Lemma strcmp_lt a b : strcmp a b < 0 <-> String.compare a b = Lt.
Proof. unfold strcmp. destruct (String.compare a b); cbn; split; done || lia. Qed.

Lemma strcmp_antisym a b : strcmp b a = - strcmp a b.
Proof.
  unfold strcmp. rewrite String.compare_antisym. by destruct (String.compare a b).
Qed.

Lemma strcmp_trans a b c : strcmp a b < 0 -> strcmp b c < 0 -> strcmp a c < 0.
Proof. rewrite !strcmp_lt. apply string_compare_lt_trans. Qed.

Lemma strcmp_le_lt_trans a b c : strcmp a b <= 0 -> strcmp b c < 0 -> strcmp a c < 0.
Proof.
  intros H1 H2. destruct (Z.eq_dec (strcmp a b) 0) as [E | E].
  - by apply strcmp_eq0 in E as ->.
  - eapply strcmp_trans; [| exact H2]. lia.
Qed.

Lemma strcasecmp_eq0 a b : strcasecmp a b = 0 <-> lower a = lower b.
Proof. apply strcmp_eq0. Qed.

Lemma strcmp_refl a : strcmp a a = 0.
Proof. by apply strcmp_eq0. Qed.

Lemma strcasecmp_refl a : strcasecmp a a = 0.
Proof. by apply strcmp_eq0. Qed.


(** ** [bsearch] is a linear search on a sorted table *)

Lemma sorted_byb_sound {A} (name : A -> string) l :
  sorted_byb name l = true -> sorted_by name l.
Proof.
  intros H. apply Sorted_StronglySorted.
  - intros a b c. apply strcmp_trans.
  - induction l as [| a [| b l] IH]; [constructor | by repeat constructor |].
    cbn in H. apply andb_true_iff in H as [H1 H2]. apply Z.ltb_lt in H1.
    constructor; [by apply IH |]. by constructor.
Qed.

Section bsearch_correct.
Context {A : Type} (cmp : A -> Z) (l : list A).

(** The comparison results go from positive to negative along the table. *)
Hypothesis mono : forall i j x y,
  l !! i = Some x -> l !! j = Some y -> (i < j)%nat -> cmp x <= 0 -> cmp y < 0.

(** Nothing outside [[base, base + lim)] compares equal. *)
Definition in_window (base lim : nat) : Prop :=
  (base + lim <= length l)%nat /\
  (forall i x, l !! i = Some x -> (i < base)%nat -> 0 < cmp x) /\
  (forall i x, l !! i = Some x -> (base + lim <= i)%nat -> cmp x < 0).

Lemma div2_lt n : (n <> 0 -> n / 2 < n)%nat.
Proof. intros H. apply Nat.div_lt; lia. Qed.

Lemma window_right base lim x :
  in_window base lim -> (lim <> 0)%nat -> l !! (base + lim / 2)%nat = Some x ->
  0 < cmp x -> in_window (S (base + lim / 2)) ((lim - 1) / 2).
Proof.
  intros (Hb & Hl & Hr) Hlim Hx Hc.
  assert (E : (S (base + lim / 2) + (lim - 1) / 2 = base + lim)%nat).
  { pose proof (Nat.div_mod_eq lim 2). pose proof (Nat.div_mod_eq (lim - 1) 2).
    pose proof (Nat.mod_upper_bound lim 2). pose proof (Nat.mod_upper_bound (lim - 1) 2). lia. }
  split; [lia | split].
  - intros i y Hy Hi. destruct (Z.le_gt_cases (cmp y) 0) as [Hle | Hgt]; [| lia].
    destruct (Nat.eq_dec i (base + lim / 2)%nat) as [-> | Hne]; [rewrite Hx in Hy; injection Hy as ->; lia |].
    assert (cmp x < 0) by (eapply (mono i (base + lim / 2)%nat); eauto; lia). lia.
  - intros i y Hy Hi. eapply Hr; [exact Hy | lia].
Qed.

Lemma window_left base lim x :
  in_window base lim -> (lim <> 0)%nat -> l !! (base + lim / 2)%nat = Some x ->
  cmp x < 0 -> in_window base (lim / 2).
Proof.
  intros (Hb & Hl & Hr) Hlim Hx Hc. pose proof (div2_lt lim Hlim).
  split; [lia | split; [done |]].
  intros i y Hy Hi. destruct (Nat.eq_dec i (base + lim / 2)%nat) as [-> | Hne]; [rewrite Hx in Hy; injection Hy as ->; lia |].
  eapply (mono (base + lim / 2)%nat i); eauto; lia.
Qed.

Lemma bsearch_loop_sound fuel : forall base lim x,
  bsearch_loop cmp l fuel base lim = Some x -> In x l /\ cmp x = 0.
Proof.
  induction fuel as [| fuel IH]; intros base lim x; cbn [bsearch_loop]; [done |].
  destruct lim as [| lim]; [done |].
  destruct (l !! (base + S lim / 2)%nat) as [y |] eqn:Hy; [| done].
  destruct (Z.eqb_spec (cmp y) 0) as [E | E].
  - intros [= ->]. split; [| done]. apply list_elem_of_In, list_elem_of_lookup. eauto.
  - destruct (0 <? cmp y); apply IH.
Qed.

Lemma bsearch_loop_complete fuel : forall base lim,
  (lim < fuel)%nat -> in_window base lim ->
  bsearch_loop cmp l fuel base lim = None -> forall x, In x l -> cmp x <> 0.
Proof.
  induction fuel as [| fuel IH]; intros base lim Hf Hw; [lia |].
  cbn [bsearch_loop]. destruct lim as [| lim].
  - intros _ x Hx. apply list_elem_of_In, list_elem_of_lookup in Hx as [i Hi].
    destruct Hw as (_ & Hl & Hr). destruct (decide (i < base)%nat) as [Hlt | Hge].
    + specialize (Hl _ _ Hi Hlt). lia.
    + assert (base + 0 <= i)%nat as Hle by lia. specialize (Hr _ _ Hi Hle). lia.
  - pose proof (div2_lt (S lim) ltac:(lia)) as Hdiv.
    destruct (l !! (base + S lim / 2)%nat) as [y |] eqn:Hy.
    2: { apply lookup_ge_None in Hy. destruct Hw as [Hb _]. lia. }
    destruct (Z.eqb_spec (cmp y) 0) as [E | E]; [done |].
    destruct (Z.ltb_spec 0 (cmp y)) as [Hp | Hp]; apply IH.
    + pose proof (Nat.Div0.div_le_upper_bound (S lim - 1) 2 lim). lia.
    + eapply window_right; eauto.
    + lia.
    + eapply window_left; eauto. lia.
Qed.

Lemma bsearch_complete : bsearch cmp l = None -> forall x, In x l -> cmp x <> 0.
Proof.
  apply bsearch_loop_complete; [lia |]. split; [lia |]. split; intros i x Hx Hi; [lia |].
  apply lookup_lt_Some in Hx. lia.
Qed.

End bsearch_correct.

(** On a table sorted by name, looking a key up by [strcasecmp] finds the entry
    of that name, whenever there is one. *)
Lemma bsearch_by_name {A} (name : A -> string) (l : list A) (key : string) (x : A) :
  sorted_by name l ->
  bsearch (fun e => strcasecmp key (name e)) l = Some x <->
  In x l /\ lower key = lower (name x).
Proof.
  intros Hs. set (cmp := fun e => strcasecmp key (name e)).
  assert (Hmono : forall i j y z, l !! i = Some y -> l !! j = Some z -> (i < j)%nat ->
                             cmp y <= 0 -> cmp z < 0).
  { intros i j y z Hi Hj Hij Hy. eapply strcmp_le_lt_trans; [exact Hy |].
    revert i j Hi Hj Hij. induction Hs as [| e l' Hs IH Hall]; intros i j Hi Hj Hij.
    - by rewrite lookup_nil in Hi.
    - destruct j as [| j]; [lia |]. destruct i as [| i]; cbn in Hi, Hj.
      + injection Hi as ->. eapply Forall_lookup_1 in Hall; [exact Hall | exact Hj].
      + apply (IH i j); auto; lia. }
  split.
  - intros H. apply bsearch_loop_sound in H as [Hin Hc]. split; [done |]. by apply strcasecmp_eq0.
  - intros [Hin Hk]. apply strcasecmp_eq0 in Hk. change (cmp x = 0) in Hk.
    destruct (bsearch cmp l) as [y |] eqn:E.
    + f_equal. apply bsearch_loop_sound in E as [Hiny Hcy].
      apply list_elem_of_In, list_elem_of_lookup in Hin as [i Hi].
      apply list_elem_of_In, list_elem_of_lookup in Hiny as [j Hj].
      destruct (Nat.lt_trichotomy i j) as [Hlt | [-> | Hlt]]; [| congruence |].
      * specialize (Hmono _ _ _ _ Hi Hj Hlt). lia.
      * specialize (Hmono _ _ _ _ Hj Hi Hlt). lia.
    + by apply (bsearch_complete cmp l Hmono E x) in Hin.
Qed.

(** ** [strtol] reads what [%d] prints *)

Ltac digit_cases d :=
  assert (d = 0 \/ d = 1 \/ d = 2 \/ d = 3 \/ d = 4 \/ d = 5 \/ d = 6 \/ d = 7 \/ d = 8 \/ d = 9)
    as Hdigit by lia;
  destruct_or! Hdigit; subst d.

Lemma digit_val_char d : 0 <= d < 10 -> digit_val (digit_char d) = Some d.
Proof. intros H. digit_cases d; reflexivity. Qed.

Lemma digit_char_plain d :
  0 <= d < 10 ->
  is_space (digit_char d) = false /\ Ascii.eqb (digit_char d) "-" = false /\
  Ascii.eqb (digit_char d) "+" = false /\ Ascii.eqb (digit_char d) "x" = false /\
  Ascii.eqb (digit_char d) "X" = false /\
  Ascii.eqb (digit_char d) "0" = (d =? 0).
Proof. intros H. digit_cases d; repeat split. Qed.

Lemma read_digits_print fuel : forall n acc,
  0 <= n < 2 ^ Z.of_nat fuel -> fuel <> O ->
  exists k, forall a b, read_digits 10 (print_digits fuel n acc) a b
                   = read_digits 10 acc (a * 10 ^ Z.of_nat k + n) true.
Proof.
  induction fuel as [| fuel IH]; intros n acc Hn Hf; [done |]. cbn [print_digits].
  assert (Hm : 0 <= n mod 10 < 10) by (apply Z.mod_pos_bound; lia).
  pose proof (Z.div_mod n 10 ltac:(lia)) as D.
  destruct (Z.eqb_spec (n / 10) 0) as [E | E].
  - exists 1%nat. intros a b. cbn [read_digits]. rewrite digit_val_char by done.
    destruct (Z.ltb_spec (n mod 10) 10); [| lia]. f_equal. lia.
  - assert (0 < n / 10) by (pose proof (Z.div_pos n 10); lia).
    rewrite Nat2Z.inj_succ, Z.pow_succ_r in Hn by lia.
    destruct (IH (n / 10) (String (digit_char (n mod 10)) acc)) as [k Hk].
    { lia. }
    { intros ->. cbn in Hn. lia. }
    exists (S k). intros a b. rewrite Hk. cbn [read_digits]. rewrite digit_val_char by done.
    destruct (Z.ltb_spec (n mod 10) 10); [| lia].
    rewrite Nat2Z.inj_succ, Z.pow_succ_r by lia. f_equal. lia.
Qed.

Lemma print_digits_head fuel : forall n acc,
  0 <= n < 2 ^ Z.of_nat fuel -> fuel <> O ->
  exists d s, 0 <= d < 10 /\ (d = 0 -> n = 0 /\ s = acc) /\
         print_digits fuel n acc = String (digit_char d) s.
Proof.
  induction fuel as [| fuel IH]; intros n acc Hn Hf; [done |]. cbn [print_digits].
  assert (Hm : 0 <= n mod 10 < 10) by (apply Z.mod_pos_bound; lia).
  pose proof (Z.div_mod n 10 ltac:(lia)) as D.
  destruct (Z.eqb_spec (n / 10) 0) as [E | E].
  - exists (n mod 10), acc. repeat split; lia.
  - assert (0 < n / 10) by (pose proof (Z.div_pos n 10); lia).
    rewrite Nat2Z.inj_succ, Z.pow_succ_r in Hn by lia.
    destruct (IH (n / 10) (String (digit_char (n mod 10)) acc)) as (d & s & Hd & H0 & Hs).
    { lia. }
    { intros ->. cbn in Hn. lia. }
    exists d, s. repeat split; try tauto; lia.
Qed.

Lemma log2_fuel n : 0 <= n -> 0 <= n < 2 ^ Z.of_nat (S (Z.to_nat (Z.log2 n))).
Proof.
  intros Hn. split; [done |]. rewrite Nat2Z.inj_succ, Z2Nat.id by apply Z.log2_nonneg.
  destruct (Z.eq_dec n 0) as [-> | Hz]; [cbn; lia |]. apply Z.log2_spec. lia.
Qed.

Lemma read_digits_abs n acc :
  0 <= n -> read_digits 10 (print_digits (S (Z.to_nat (Z.log2 n))) n acc) 0 false
          = read_digits 10 acc n true.
Proof.
  intros Hn. destruct (read_digits_print _ n acc (log2_fuel n Hn)) as [k Hk]; [done |].
  rewrite Hk. f_equal.
Qed.

Lemma read_prefix_print n base :
  0 < n -> base = 0 \/ base = 10 ->
  let s := print_digits (S (Z.to_nat (Z.log2 n))) n EmptyString in
  read_prefix base s = (10, s).
Proof.
  intros Hn Hb.
  destruct (print_digits_head (S (Z.to_nat (Z.log2 n))) n EmptyString (log2_fuel n ltac:(lia)))
    as (d & s & Hd & H0 & ->); [done |].
  destruct (digit_char_plain d Hd) as (_ & _ & _ & _ & _ & Hz).
  assert (Hnz : Ascii.eqb (digit_char d) "0" = false) by (rewrite Hz; apply Z.eqb_neq; lia).
  destruct s as [| x [| y s]]; cbn [read_prefix]; rewrite Hnz;
    destruct Hb as [-> | ->]; reflexivity.
Qed.

(** Reading a printed number back, in base 10 or with base detection. *)
Lemma strtol_print_dec z base :
  LONG_MIN <= z <= LONG_MAX -> base = 0 \/ base = 10 ->
  strtol (print_dec z) base = (z, EmptyString).
Proof.
  intros Hz Hb. destruct (Z.eq_dec z 0) as [-> | Hnz].
  { by destruct Hb as [-> | ->]. }
  unfold print_dec. set (n := Z.abs z). assert (Hn : 0 < n) by lia.
  destruct (print_digits_head (S (Z.to_nat (Z.log2 n))) n EmptyString (log2_fuel n ltac:(lia)))
    as (d & s & Hd & _ & Hs); [done |].
  destruct (digit_char_plain d Hd) as (Hsp & Hmi & Hpl & _).
  pose proof (read_prefix_print n base Hn Hb) as Hp. cbn zeta in Hp.
  pose proof (read_digits_abs n EmptyString ltac:(lia)) as Hr.
  rewrite Hs in Hp, Hr |- *. unfold strtol.
  destruct (Z.ltb_spec z 0) as [Hneg | Hpos].
  - cbn [skip_space read_sign]. change (is_space "-") with false. cbn [Ascii.eqb read_sign].
    cbn [Bool.eqb]. cbn iota. rewrite Hp, Hr. cbn. unfold clamp_long. f_equal. lia.
  - cbn [skip_space]. rewrite Hsp. cbn [read_sign]. rewrite Hmi, Hpl.
    rewrite Hp, Hr. cbn. unfold clamp_long. f_equal. lia.
Qed.

(** ** Concatenation and parts of strings *)

Lemma length_app_str a b : String.length (a +:+ b) = (String.length a + String.length b)%nat.
Proof. induction a as [| c a IH]; [done |]. change (S (String.length (a +:+ b)) = S (String.length a + String.length b)). by rewrite IH. Qed.

Lemma app_str_assoc a b c : (a +:+ b) +:+ c = a +:+ (b +:+ c).
Proof. induction a as [| x a IH]; [done |]. change (String x ((a +:+ b) +:+ c) = String x (a +:+ (b +:+ c))). by rewrite IH. Qed.

Lemma app_str_nil_r a : a +:+ EmptyString = a.
Proof. induction a as [| x a IH]; [done |]. change (String x (a +:+ EmptyString) = String x a). by rewrite IH. Qed.

Lemma app_str_cons c a b : String c a +:+ b = String c (a +:+ b).
Proof. done. Qed.

Lemma take_str_app a b : take_str (String.length a) (a +:+ b) = a.
Proof. induction a as [| c a IH]; [by destruct b |]. rewrite app_str_cons. cbn. by rewrite IH. Qed.

Lemma drop_str_app a b : drop_str (String.length a) (a +:+ b) = b.
Proof. induction a as [| c a IH]; [by destruct b |]. rewrite app_str_cons. cbn. exact IH. Qed.

Lemma take_drop_str n s : take_str n s +:+ drop_str n s = s.
Proof.
  revert n. induction s as [| c s IH]; intros [| n]; try done. cbn [take_str drop_str].
  by rewrite app_str_cons, IH.
Qed.

Lemma length_take_str n s : String.length (take_str n s) = Nat.min n (String.length s).
Proof. revert n. induction s as [| c s IH]; intros [| n]; try done. cbn. by rewrite IH. Qed.

Lemma length_drop_str n s : String.length (drop_str n s) = (String.length s - n)%nat.
Proof. revert n. induction s as [| c s IH]; intros [| n]; try done. cbn. apply IH. Qed.

Lemma take_str_all n s : (String.length s <= n)%nat -> take_str n s = s.
Proof.
  revert n. induction s as [| c s IH]; intros [| n] H; cbn in *; try done; [lia |].
  f_equal. apply IH. lia.
Qed.

Lemma drop_str_all n s : (String.length s <= n)%nat -> drop_str n s = EmptyString.
Proof.
  revert n. induction s as [| c s IH]; intros [| n] H; cbn in *; try done; [lia |]. apply IH. lia.
Qed.

Lemma app_str_inj_l a b c : a +:+ b = a +:+ c -> b = c.
Proof. induction a as [| x a IH]; [done |]. rewrite !app_str_cons. intros [= H]. by apply IH. Qed.

Lemma app_str_inj_len a b x y :
  a +:+ x = b +:+ y -> String.length a = String.length b -> a = b /\ x = y.
Proof.
  revert b. induction a as [| c a IH]; intros [| d b] H L; cbn in L; try lia; [done |].
  rewrite !app_str_cons in H. injection H as <- H. destruct (IH b H) as [-> ->]; [lia | done].
Qed.

Lemma app_str_eq_nil a b : a +:+ b = EmptyString -> a = EmptyString /\ b = EmptyString.
Proof. by destruct a. Qed.

(** ** [strstr] finds the first occurrence *)

Lemma prefix_app p s : String.prefix p (p +:+ s) = true.
Proof. induction p as [| c p IH]; [by destruct s |]. rewrite app_str_cons. cbn. by destruct (ascii_dec c c). Qed.

Lemma prefix_true p s : String.prefix p s = true -> exists r, s = p +:+ r.
Proof.
  revert s. induction p as [| c p IH]; intros s; [by exists s |]. destruct s as [| d s]; [done |].
  cbn. destruct (ascii_dec c d) as [-> |]; [| done]. intros H. destruct (IH s H) as [r ->]. by exists r.
Qed.

Lemma prefix_app_l p s t : String.prefix p s = true -> String.prefix p (s +:+ t) = true.
Proof. intros H. apply prefix_true in H as [r ->]. rewrite app_str_assoc. apply prefix_app. Qed.

Lemma prefix_app_inv p s t :
  (String.length p <= String.length s)%nat -> String.prefix p (s +:+ t) = String.prefix p s.
Proof.
  revert s. induction p as [| c p IH]; intros [| d s] H; cbn in H; try lia.
  - by destruct t.
  - done.
  - rewrite app_str_cons. cbn. destruct (ascii_dec c d); [| done]. apply IH. lia.
Qed.

Lemma strstr_Some s p n :
  strstr s p = Some n ->
  exists a b, s = a +:+ p +:+ b /\ String.length a = n.
Proof.
  revert n. induction s as [| c s IH]; intros n; cbn [strstr].
  - destruct (String.prefix p EmptyString) eqn:E; [| done]. intros [= <-].
    apply prefix_true in E as [r E]. by exists EmptyString, r.
  - destruct (String.prefix p (String c s)) eqn:E.
    + intros [= <-]. apply prefix_true in E as [r E]. by exists EmptyString, r.
    + destruct (strstr s p) as [m |] eqn:Em; [| done]. intros [= <-].
      destruct (IH m eq_refl) as (a & b & -> & <-). by exists (String c a), b.
Qed.

Lemma strstr_bound s p n : strstr s p = Some n -> (n + String.length p <= String.length s)%nat.
Proof. intros H. apply strstr_Some in H as (a & b & -> & <-). rewrite !length_app_str. lia. Qed.

(** Text that is appended does not hide an occurrence. *)
Lemma strstr_app s t p n : strstr s p = Some n -> strstr (s +:+ t) p = Some n.
Proof.
  revert n. induction s as [| c s IH]; intros n H; pose proof (strstr_bound _ _ _ H) as Hb; cbn [strstr] in H.
  - destruct (String.prefix p EmptyString) eqn:E; [| done]. injection H as <-.
    destruct p; [by destruct t | done].
  - rewrite app_str_cons. cbn [strstr]. rewrite <- app_str_cons, prefix_app_inv by (cbn in *; lia).
    destruct (String.prefix p (String c s)); [done |].
    destruct (strstr s p) as [m |]; [| done]. injection H as <-. by rewrite (IH m eq_refl).
Qed.

(** An occurrence is found, at its position or before it. *)
Lemma strstr_occurs a p b : exists n, strstr (a +:+ p +:+ b) p = Some n /\ (n <= String.length a)%nat.
Proof.
  induction a as [| c a IH].
  - exists 0%nat. split; [| done]. change (EmptyString +:+ p +:+ b) with (p +:+ b).
    pose proof (prefix_app p b) as E. destruct (p +:+ b); cbn [strstr]; by rewrite E.
  - rewrite app_str_cons. cbn [strstr]. destruct (String.prefix p _); [exists 0%nat; split; [done | cbn; lia] |].
    destruct IH as (n & -> & Hn). exists (S n). split; [done | cbn; lia].
Qed.

(** A piece of the text up to and with the first occurrence has none itself
    unless it is all of it. *)
Lemma strstr_prefix_None s t p a :
  s +:+ t = a +:+ p -> t <> EmptyString -> strstr (a +:+ p) p = Some (String.length a) -> strstr s p = None.
Proof.
  intros E Ht Hf. destruct (strstr s p) as [n |] eqn:En; [| done]. exfalso.
  pose proof (strstr_bound _ _ _ En) as Hb. apply (strstr_app _ t) in En. rewrite E, Hf in En.
  injection En as <-. apply (f_equal String.length) in E. rewrite !length_app_str in E.
  destruct t; [done |]. cbn in E. lia.
Qed.

(** ** Strings over a class of characters *)

Fixpoint str_all (P : ascii -> bool) (s : string) : bool :=
  match s with
  | EmptyString => true
  | String c s' => P c && str_all P s'
  end.

(** [lacks c s]: the character does not occur. *)
Definition lacks (c : ascii) (s : string) : bool := str_all (fun d => negb (Ascii.eqb d c)) s.

Definition no_digits (s : string) : bool := str_all (fun c => negb (is_digit c)) s.

Lemma str_all_app P a b : str_all P (a +:+ b) = str_all P a && str_all P b.
Proof. induction a as [| c a IH]; [done |]. rewrite app_str_cons. cbn. by rewrite IH, andb_assoc. Qed.

Lemma str_all_impl (P Q : ascii -> bool) s :
  (forall c, P c = true -> Q c = true) -> str_all P s = true -> str_all Q s = true.
Proof.
  intros H. induction s as [| c s IH]; [done |]. cbn. rewrite !andb_true_iff. intros [H1 H2]. auto.
Qed.

Lemma is_digit_char d : 0 <= d < 10 -> is_digit (digit_char d) = true.
Proof. intros H. digit_cases d; reflexivity. Qed.

Lemma all_digits_print fuel : forall n acc,
  0 <= n -> str_all is_digit acc = true -> str_all is_digit (print_digits fuel n acc) = true.
Proof.
  induction fuel as [| fuel IH]; intros n acc Hn Ha; [done |]. cbn [print_digits].
  assert (Hm : 0 <= n mod 10 < 10) by (apply Z.mod_pos_bound; lia).
  assert (Hs : str_all is_digit (String (digit_char (n mod 10)) acc) = true)
    by (cbn; by rewrite is_digit_char, Ha).
  destruct (n / 10 =? 0); [done |]. apply IH; [apply Z.div_pos; lia | done].
Qed.

(** A number that is not negative is printed as digits only, at least one. *)
Lemma print_dec_digits n : 0 <= n -> str_all is_digit (print_dec n) = true.
Proof.
  intros Hn. unfold print_dec. destruct (Z.ltb_spec n 0); [lia |]. apply all_digits_print; [lia | done].
Qed.

Lemma print_dec_cons n : 0 <= n -> exists c s, print_dec n = String c s /\ is_digit c = true.
Proof.
  intros Hn. unfold print_dec. destruct (Z.ltb_spec n 0); [lia |]. rewrite Z.abs_eq by done.
  destruct (print_digits_head (S (Z.to_nat (Z.log2 n))) n EmptyString (log2_fuel n Hn)) as (d & s & Hd & _ & E);
    [done |].
  exists (digit_char d), s. split; [done | by apply is_digit_char].
Qed.

Lemma print_dec_lacks n c : 0 <= n -> is_digit c = false -> lacks c (print_dec n) = true.
Proof.
  intros Hn Hc. eapply str_all_impl, print_dec_digits; [| done].
  intros d Hd. apply negb_true_iff, Ascii.eqb_neq. by intros ->; congruence.
Qed.

Lemma app_str_nil_l a : EmptyString +:+ a = a.
Proof. done. Qed.

(** Induction on the part in front of the character searched for. *)
Ltac skip_lacking a f :=
  let d := fresh "d" in let IH := fresh "IH" in let H := fresh "H" in let H1 := fresh "H" in
  induction a as [| d a IH]; intros H;
  [ try done; rewrite app_str_nil_l; cbn [f]; by rewrite Ascii.eqb_refl
  | cbn in H; apply andb_true_iff in H as [H1 H]; apply negb_true_iff in H1;
    rewrite ?app_str_cons; cbn [f]; by rewrite H1, IH ].

Lemma strsep_app a b c : lacks c a = true -> strsep (a +:+ String c b) c = (a, Some b).
Proof. skip_lacking a strsep. Qed.

Lemma strsep_last a c : lacks c a = true -> strsep a c = (a, None).
Proof. skip_lacking a strsep. Qed.

Lemma before_app a b c : lacks c a = true -> before (a +:+ String c b) c = a.
Proof. skip_lacking a before. Qed.

Lemma strchr_app a b c : lacks c a = true -> strchr (a +:+ String c b) c = Some (String c b).
Proof. skip_lacking a strchr. Qed.

Lemma strchr_lacks a c : lacks c a = true -> strchr a c = None.
Proof. skip_lacking a strchr. Qed.
