(* ===== verification/Vars.v ===== *)
(** * Variables and VM identifiers (src/conf.c)

    The configuration language has variables in three scopes: the arguments of
    the template being applied, the VM's local scope and the global scope.
    Each scope is a [struct vartree], a red-black tree of [sys/tree.h] ordered
    by [compare_variable_key]; since that order is [strcmp] on the keys, the
    tree is a finite map from strings to strings here.  A scope that does not
    exist is a NULL pointer, [None].

    [get_id] hands out the number that the variable [$ID] of a VM holds. *)

From S2P Require Import Prelude CString.

Local Open Scope Z_scope.

(** ** Data *)

Record conf_var := { cv_key : option string; cv_val : option string }.

Record variables := {
  v_global : option (gmap string string);
  v_local : option (gmap string string);
  v_args : option (gmap string string);
}.

#[export] Instance eta_variables : Eta variables :=
  fun v => {| v_global := v_global v; v_local := v_local v; v_args := v_args v |}.

(** ** Comparison of keys *)

Definition compare_string (a b : option string) : Z :=
  match a, b with
  | None, None => 0
  | None, Some _ => -1
  | Some _, None => 1
  | Some a, Some b => strcmp a b
  end.

Definition compare_variable_key (a b : option conf_var) : Z :=
  match a, b with
  | None, None => 0
  | None, Some _ => -1
  | Some _, None => 1
  | Some a, Some b => compare_string (cv_key a) (cv_key b)
  end.

(** ** Operations on one scope *)

(** The node handed to [RB_REMOVE] is the local variable [key], which is in no
    tree, and what [RB_REMOVE] returns, that same local variable, goes to
    [free]: neither is defined behaviour. *)
Definition del_var (vars : gmap string string) (k : option string)
    : C (Z * gmap string string) :=
  match k with
  | None => mret (-1, vars)
  | Some k =>
      kk ← strdup k;
      match kk with
      | None => mret (-1, vars)
      | Some _ => crash InvalidFree
      end
  end.

Definition set_var0 (vars : gmap string string) (k v : option string)
    : C (Z * gmap string string) :=
  match k, v with
  | Some k, Some v =>
      kk ← strdup k;
      match kk with
      | None => mret (-1, vars)
      | Some kk =>
          match vars !! kk with
          | Some _ =>
              nv ← strdup v;
              match nv with
              | None => mret (-1, vars)
              | Some nv => mret (0, <[kk := nv]> vars)
              end
          | None =>
              n ← malloc;
              kv ← strdup v;
              match (n : bool), kv with
              | true, Some kv => mret (0, <[kk := kv]> vars)
              | _, _ => mret (-1, vars)
              end
          end
      end
  | _, _ => mret (-1, vars)
  end.

Definition get_var0 (vars : option (gmap string string)) (k : string) : option string :=
  match vars with
  | None => None
  | Some t => t !! k
  end.

(** ** Operations on the scopes *)

Definition set_var (vars : variables) (k v : option string) : C (Z * variables) :=
  vars ← match v_args vars with
         | Some t => '(_, t') ← del_var t k; mret (vars <| v_args := Some t' |>)
         | None => mret vars
         end;
  match v_local vars with
  | Some t => '(rc, t') ← set_var0 t k v; mret (rc, vars <| v_local := Some t' |>)
  | None =>
      match v_global vars with
      | Some t => '(rc, t') ← set_var0 t k v; mret (rc, vars <| v_global := Some t' |>)
      | None => mret (-1, vars)
      end
  end.

Definition get_var (vars : variables) (k : string) : option string :=
  match get_var0 (v_args vars) k with
  | Some r => Some r
  | None =>
      match get_var0 (v_local vars) k with
      | Some r => Some r
      | None => get_var0 (v_global vars) k
      end
  end.

(** ** The global scope of the process *)

Definition LOCALBASE : string := "/usr/local".

(** [global_vars] before and after. *)
Definition init_global_vars (gv : option (gmap string string))
    : C (Z * option (gmap string string)) :=
  ok ← malloc;
  if (ok : bool) then
    '(_, t) ← set_var0 ∅ (Some "LOCALBASE") (Some LOCALBASE);
    mret (0, Some t)
  else mret (-1, gv).

Definition free_global_vars (gv : option (gmap string string)) : option (gmap string string) :=
  None.

Definition set_global_vars (gv new : option (gmap string string))
    : option (gmap string string) :=
  let gv := if gv is Some _ then free_global_vars gv else gv in
  new.

(** ** Identifiers *)

Record id_entry := { e_id : Z; e_name : string }.

(** The static list [id_list] and the static counter [lastid]. *)
Record ids := { id_list : list id_entry; lastid : Z }.

Definition init_ids : ids := {| id_list := []; lastid := 0 |}.

Definition free_id_list (st : ids) : ids := {| id_list := []; lastid := lastid st |}.

Fixpoint find_id (n : string) (l : list id_entry) : option Z :=
  match l with
  | [] => None
  | e :: l' => if strcmp (e_name e) n =? 0 then Some (e_id e) else find_id n l'
  end.

(** [Some i] is the result 0 with [*id = i], [None] the result -1. *)
Definition get_id (st : ids) (n : string) : C (option Z * ids) :=
  match find_id n (id_list st) with
  | Some i => mret (Some i, st)
  | None =>
      ok ← malloc;
      if (ok : bool) then
        let e := {| e_id := lastid st; e_name := n |} in
        mret (Some (e_id e), {| id_list := e :: id_list st; lastid := to_uint (lastid st + 1) |})
      else mret (None, st)
  end.

(** The names are distinct, so are their numbers, and the next number is free. *)
Definition ids_wf (st : ids) : Prop :=
  NoDup (e_name <$> id_list st) /\ NoDup (e_id <$> id_list st) /\
  Forall (fun e => 0 <= e_id e < lastid st) (id_list st) /\ 0 <= lastid st < 2 ^ 32.

(** ** One scope *)

Lemma wp_set_var0 t k v :
  wp (set_var0 t (Some k) (Some v))
     (fun p => p = (0, <[k := v]> t) \/ p = (-1, t)) no_fault.
Proof. unfold set_var0. steps_wp; auto. Qed.

Lemma runs_set_var0 t k v : runs (set_var0 t (Some k) (Some v)) (0, <[k := v]> t).
Proof. unfold set_var0. steps_runs. destruct (t !! k); steps_runs. Qed.

Lemma nofuel_set_var0 t k v : nofuel (set_var0 t k v).
Proof. unfold set_var0. steps_nofuel. Qed.

Lemma nofuel_set_var vars k v : nofuel (set_var vars k v).
Proof.
  unfold set_var, del_var. repeat first [apply nofuel_set_var0 | step_nofuel].
Qed.

(** The order of the tree identifies exactly the variables of equal names, so
    looking a name up in the tree is looking it up in the map. *)
Lemma compare_string_eq0 a b : compare_string a b = 0 <-> a = b.
Proof.
  destruct a, b; cbn; try (split; [lia | discriminate]); [| done].
  rewrite strcmp_eq0. split; [by intros -> | by intros [= ->]].
Qed.

Lemma compare_string_antisym a b : compare_string b a = - compare_string a b.
Proof. destruct a, b; cbn; try done. apply strcmp_antisym. Qed.

(** ** The scopes *)

Lemma get_var_local_shadow vars k :
  v_args vars = None ->
  get_var vars k = match get_var0 (v_local vars) k with
                   | Some r => Some r
                   | None => get_var0 (v_global vars) k
                   end.
Proof. unfold get_var. intros ->. reflexivity. Qed.

(** What a successful [set_var] does to every variable. *)
Definition updates (vars vars' : variables) (k v : string) : Prop :=
  forall k', get_var vars' k' = if decide (k = k') then Some v else get_var vars k'.

Lemma updates_local vars t k v :
  v_args vars = None -> v_local vars = Some t ->
  updates vars (vars <| v_local := Some (<[k := v]> t) |>) k v.
Proof.
  intros Ha Hl k'. rewrite !get_var_local_shadow by done. cbn. rewrite Hl. cbn.
  rewrite lookup_insert. by case_decide.
Qed.

Lemma updates_global vars t k v :
  v_args vars = None -> v_local vars = None -> v_global vars = Some t ->
  updates vars (vars <| v_global := Some (<[k := v]> t) |>) k v.
Proof.
  intros Ha Hl Hg k'. rewrite !get_var_local_shadow by done. cbn. rewrite Hl, Hg. cbn.
  rewrite lookup_insert. by case_decide.
Qed.

Lemma upd_local_id vars t : v_local vars = Some t -> vars <| v_local := Some t |> = vars.
Proof. destruct vars; cbn. by intros ->. Qed.

Lemma upd_global_id vars t : v_global vars = Some t -> vars <| v_global := Some t |> = vars.
Proof. destruct vars; cbn. by intros ->. Qed.

Lemma runs_set_var_local vars t k v :
  v_args vars = None -> v_local vars = Some t ->
  runs (set_var vars (Some k) (Some v)) (0, vars <| v_local := Some (<[k := v]> t) |>).
Proof.
  intros Ha Hl. unfold set_var. rewrite Ha. eapply runs_bind; [apply runs_ret |].
  rewrite Hl. eapply runs_bind; [apply runs_set_var0 | apply runs_ret].
Qed.

(** Outside of a template, setting a variable has no undefined behaviour
    whatever the allocator does; it either fails and changes nothing, or from
    then on the variable has the new value in every lookup and every other
    variable, in whatever scope, keeps its own; a VM's assignment never changes
    the global scope. *)
Theorem set_var_correct vars k v :
  v_args vars = None -> is_Some (v_local vars) \/ is_Some (v_global vars) ->
  wp (set_var vars (Some k) (Some v))
     (fun p => (p.1 = -1 /\ p.2 = vars) \/
               (p.1 = 0 /\ updates vars p.2 k v /\
                (is_Some (v_local vars) -> v_global p.2 = v_global vars)))
     no_fault.
Proof.
  intros Ha Hs. unfold set_var. rewrite Ha. apply wp_bind, wp_ret.
  destruct (v_local vars) as [t |] eqn:Hl.
  - apply wp_bind. eapply wp_mono; [apply wp_set_var0 | | done].
    intros [rc t'] [[= -> ->] | [= -> ->]]; apply wp_ret; cbn [fst snd].
    + right. split; [done |]. split; [by apply updates_local | done].
    + left. by rewrite upd_local_id.
  - destruct Hs as [[] | [t Hg]]; [done |]. rewrite Hg.
    apply wp_bind. eapply wp_mono; [apply wp_set_var0 | | done].
    intros [rc t'] [[= -> ->] | [= -> ->]]; apply wp_ret; cbn [fst snd].
    + right. split; [done |]. split; [by apply updates_global | by intros []].
    + left. by rewrite upd_global_id.
Qed.

Lemma set_var_correct_witness :
  runs (set_var {| v_global := Some {[ "x" := "1" ]}; v_local := Some ∅; v_args := None |}
          (Some "x") (Some "2"))
    (0, {| v_global := Some {[ "x" := "1" ]}; v_local := Some {[ "x" := "2" ]}; v_args := None |})
  /\ wp (set_var {| v_global := Some {[ "x" := "1" ]}; v_local := Some ∅; v_args := None |}
           (Some "x") (Some "2"))
        (fun p => (p.1 = -1 /\ p.2 = {| v_global := Some {[ "x" := "1" ]}; v_local := Some ∅;
                                        v_args := None |}) \/
                  (p.1 = 0 /\
                   updates {| v_global := Some {[ "x" := "1" ]}; v_local := Some ∅;
                              v_args := None |} p.2 "x" "2" /\
                   (is_Some (Some (∅ : gmap string string)) ->
                    v_global p.2 = Some {[ "x" := "1" ]}))) no_fault.
Proof.
  split; [vm_compute; reflexivity |].
  apply (set_var_correct {| v_global := Some {[ "x" := "1" ]}; v_local := Some ∅;
                            v_args := None |} "x" "2"); [reflexivity | left; by exists ∅].
Defined.

(** Inside a template every assignment to a variable that gets its first
    allocation is undefined behaviour: [del_var] hands a local variable to
    [RB_REMOVE] and then to [free].  The variables of a template therefore
    never reach the VM's scope, which the manual promises. *)
Theorem set_var_in_template_faults vars t k v o :
  v_args vars = Some t ->
  set_var vars (Some k) v [] = Crash InvalidFree /\
  set_var vars (Some k) v (true :: o) = Crash InvalidFree.
Proof. intros Ha. unfold set_var. by rewrite Ha. Qed.

Lemma set_var_in_template_faults_witness :
  set_var {| v_global := Some ∅; v_local := Some ∅; v_args := Some ∅ |}
    (Some "disk") (Some "a") [] = Crash InvalidFree /\
  set_var {| v_global := Some ∅; v_local := Some ∅; v_args := Some ∅ |}
    (Some "disk") (Some "a") [true] = Crash InvalidFree.
Proof.
  apply (set_var_in_template_faults {| v_global := Some ∅; v_local := Some ∅; v_args := Some ∅ |}
           ∅ "disk" (Some "a") []); reflexivity.
Defined.

(** ** Identifiers *)

Lemma find_id_Some n l i :
  NoDup (e_name <$> l) ->
  find_id n l = Some i <-> In {| e_id := i; e_name := n |} l.
Proof.
  induction l as [| [j m] l IH]; cbn; intros Hnd; [done |].
  apply NoDup_cons in Hnd as [Hm Hnd]. specialize (IH Hnd).
  destruct (Z.eqb_spec (strcmp m n) 0) as [E | E].
  - apply strcmp_eq0 in E as ->. split.
    + intros [= ->]. by left.
    + intros [[= ->] | Hin]; [done |]. exfalso. apply Hm.
      apply list_elem_of_In. apply (in_map e_name) in Hin. exact Hin.
  - rewrite IH. split; [by right |]. intros [[= -> ->] | Hin]; [| done].
    by rewrite strcmp_refl in E.
Qed.

Lemma find_id_None n l : find_id n l = None <-> n ∉ e_name <$> l.
Proof.
  induction l as [| [j m] l IH]; cbn; [split; [set_solver | done] |].
  destruct (Z.eqb_spec (strcmp m n) 0) as [E | E].
  - apply strcmp_eq0 in E as ->. split; [done |]. intros H. exfalso. set_solver.
  - rewrite IH, not_elem_of_cons. split; [| tauto]. intros H. split; [| done].
    intros ->. by rewrite strcmp_refl in E.
Qed.

Lemma init_ids_wf : ids_wf init_ids.
Proof. repeat split; cbn; try constructor; lia. Qed.

Lemma free_id_list_wf st : ids_wf st -> ids_wf (free_id_list st).
Proof. intros (_ & _ & _ & H). repeat split; cbn; try constructor; apply H. Qed.

Lemma add_id_wf st n :
  ids_wf st -> lastid st < 2 ^ 32 - 1 -> find_id n (id_list st) = None ->
  ids_wf {| id_list := {| e_id := lastid st; e_name := n |} :: id_list st;
            lastid := to_uint (lastid st + 1) |}.
Proof.
  intros (Hn & Hi & Hb & Hl) Hmax Hnew.
  assert (E : to_uint (lastid st + 1) = lastid st + 1) by (apply Z.mod_small; lia).
  repeat split; cbn [id_list lastid fmap list_fmap e_name e_id].
  - constructor; [by apply find_id_None | done].
  - constructor; [| done]. intros Hin. apply list_elem_of_fmap in Hin as (e & He & Hin).
    rewrite Forall_forall in Hb. apply Hb in Hin. lia.
  - rewrite E. constructor; [cbn; lia |]. eapply Forall_impl; [exact Hb |]. cbn. lia.
  - rewrite E. lia.
  - rewrite E. lia.
Qed.

(** While fewer than 2^32 numbers were given out, [get_id] keeps the
    numbers of different VM names different, gives a name it has seen its old
    number again, and never renumbers another name; on a failed allocation it
    changes nothing. *)
Theorem get_id_correct st n :
  ids_wf st -> lastid st < 2 ^ 32 - 1 ->
  wp (get_id st n)
     (fun '(r, st') =>
        ids_wf st' /\
        match r with
        | None => st' = st /\ find_id n (id_list st) = None
        | Some i =>
            find_id n (id_list st') = Some i /\
            (forall j, find_id n (id_list st) = Some j -> i = j) /\
            (forall m j, m <> n -> find_id m (id_list st') = Some j ->
                    j <> i /\ find_id m (id_list st) = Some j)
        end) no_fault.
Proof.
  intros Hwf Hmax. unfold get_id. destruct (find_id n (id_list st)) as [i |] eqn:Hf.
  - apply wp_ret. split; [done |]. rewrite Hf. split; [done |]. split; [congruence |].
    intros m j Hne Hj. split; [| done]. intros ->. apply Hne.
    destruct Hwf as (Hn & Hi & _). apply find_id_Some in Hf, Hj; try done.
    apply list_elem_of_In in Hf, Hj.
    by pose proof (NoDup_fmap_inj e_id _ _ _ Hi Hj Hf eq_refl) as [= ->].
  - apply wp_bind, wp_malloc. intros []; apply wp_ret; [| done].
    split; [by apply add_id_wf |]. cbn [id_list find_id e_name e_id].
    rewrite strcmp_refl. split; [done |]. split; [done |].
    intros m j Hne. destruct (Z.eqb_spec (strcmp n m) 0) as [E | E].
    + by apply strcmp_eq0 in E.
    + intros Hj. split; [| done]. destruct Hwf as (Hn & _ & Hb & _).
      apply find_id_Some, list_elem_of_In in Hj; [| done].
      rewrite Forall_forall in Hb. apply Hb in Hj. cbn in Hj. lia.
Qed.

Lemma get_id_correct_witness :
  ids_wf init_ids /\
  runs (get_id init_ids "freebsd")
    (Some 0, {| id_list := [{| e_id := 0; e_name := "freebsd" |}]; lastid := 1 |}) /\
  wp (get_id init_ids "freebsd")
     (fun '(r, st') =>
        ids_wf st' /\
        match r with
        | None => st' = init_ids /\ find_id "freebsd" (id_list init_ids) = None
        | Some i =>
            find_id "freebsd" (id_list st') = Some i /\
            (forall j, find_id "freebsd" (id_list init_ids) = Some j -> i = j) /\
            (forall m j, m <> "freebsd" -> find_id m (id_list st') = Some j ->
                    j <> i /\ find_id m (id_list init_ids) = Some j)
        end) no_fault.
Proof.
  split; [exact init_ids_wf |]. split; [reflexivity |].
  apply (get_id_correct init_ids "freebsd"); [exact init_ids_wf | vm_compute; reflexivity].
Defined.
