(* ===== verification/Conf.v ===== *)
(** * VM configurations (src/conf.c, src/conf.h, src/bmd_plugin.h)

    [struct vm_conf] with its lists of devices, its constructor, the setters
    and getters that the parser and the plugins use, the comparison that
    decides whether a reload changed a VM, and the dump of [bmdctl showconfig].

    A [char *] is an [option string], an [int] a [Z] that the code keeps in
    range, an [int64_t] a [Z].  A [STAILQ] is its list of elements together
    with the state of its tail pointer, because [create_vm_conf] leaves one
    queue without [STAILQ_INIT] and [load_config_file] moves the structure. *)

From S2P Require Import Prelude CString Vars.

Local Open Scope Z_scope.

(** ** Queues *)

(** The tail pointer [stqh_last]: it designates the last link of the queue, it
    is NULL (memory from [calloc] without [STAILQ_INIT]), or it points into
    memory that [realloc] has released. *)
Inductive tail_ptr := TailOk | TailNull | TailDangling.

Record stailq (A : Type) := { stq_items : list A; stq_last : tail_ptr }.
Arguments stq_items {A} s.
Arguments stq_last {A} s.
Arguments Build_stailq {A} stq_items stq_last.

Definition STAILQ_INIT {A} : stailq A := {| stq_items := []; stq_last := TailOk |}.

(** Zeroed memory. *)
Definition stailq_zero {A} : stailq A := {| stq_items := []; stq_last := TailNull |}.

Definition STAILQ_INSERT_TAIL {A} (q : stailq A) (x : A) : C (stailq A) :=
  match stq_last q with
  | TailOk => mret {| stq_items := stq_items q ++ [x]; stq_last := TailOk |}
  | TailNull => crash NullDeref
  | TailDangling => crash UseAfterFree
  end.

Definition STAILQ_FIRST {A} (q : stailq A) : option A := head (stq_items q).

(** The queue after the structure that holds its head moved: the tail pointer
    of an empty queue still points into the old head, that of another one into
    its last element. *)
Definition stailq_moved {A} (q : stailq A) : stailq A :=
  match stq_items q, stq_last q with
  | [], TailOk => {| stq_items := []; stq_last := TailDangling |}
  | _, _ => q
  end.

(** ** Data *)

Inductive BOOT := NO | YES | ONESHOT | ALWAYS.

Inductive HOSTBRIDGE_TYPE := NONE | INTEL | AMD.

#[export] Instance BOOT_eq_dec : EqDecision BOOT.
Proof. solve_decision. Defined.

#[export] Instance HOSTBRIDGE_eq_dec : EqDecision HOSTBRIDGE_TYPE.
Proof. solve_decision. Defined.

(** The values of the enumerations. *)
Definition boot_num (b : BOOT) : Z :=
  match b with NO => 0 | YES => 1 | ONESHOT => 2 | ALWAYS => 3 end.

Definition hostbridge_num (h : HOSTBRIDGE_TYPE) : Z :=
  match h with NONE => 0 | INTEL => 1 | AMD => 2 end.

Record passthru_conf := { p_devid : option string }.

Record disk_conf := { d_type : option string; d_path : option string }.

Record iso_conf := { i_type : option string; i_path : option string }.

Record net_conf := {
  n_type : option string;
  n_bridge : option string;
  n_tap : option string;
}.

Record fbuf := {
  fb_enable : Z;
  fb_port : Z;
  fb_ipaddr : option string;
  fb_vgaconf : option string;
  fb_password : option string;
  fb_width : Z;
  fb_height : Z;
  fb_wait : Z;
}.

#[export] Instance eta_fbuf : Eta fbuf := fun f =>
  {| fb_enable := fb_enable f; fb_port := fb_port f; fb_ipaddr := fb_ipaddr f;
     fb_vgaconf := fb_vgaconf f; fb_password := fb_password f; fb_width := fb_width f;
     fb_height := fb_height f; fb_wait := fb_wait f |}.
Record vm_conf := {
  vc_vars : variables;
  vc_fbuf : option fbuf;
  vc_disks : stailq disk_conf;
  vc_isoes : stailq iso_conf;
  vc_nets : stailq net_conf;
  vc_passthrues : stailq passthru_conf;
  vc_keymap : option string;
  vc_backend : option string;
  vc_debug_port : option string;
  vc_ncpu : option string;
  vc_memory : option string;
  vc_name : option string;
  vc_comport : option string;
  vc_loader : option string;
  vc_loadcmd : option string;
  vc_installcmd : option string;
  vc_err_logfile : option string;
  vc_grub_run_partition : option string;
  vc_owner : Z;
  vc_group : Z;
  vc_boot : BOOT;
  vc_hostbridge : HOSTBRIDGE_TYPE;
  vc_ndisks : Z;
  vc_nisoes : Z;
  vc_nnets : Z;
  vc_npassthrues : Z;
  vc_boot_delay : Z;
  vc_loader_timeout : Z;
  vc_stop_timeout : Z;
  vc_mouse : bool;
  vc_wired_memory : bool;
  vc_utctime : bool;
  vc_reboot_on_change : bool;
  vc_single_user : bool;
  vc_install : bool;
  vc_bhyveload_loader : option string;
  vc_nbhyveload_envs : Z;
  vc_bhyveload_envs : stailq string;
  vc_nbhyve_envs : Z;
  vc_bhyve_envs : stailq string;
}.

#[export] Instance eta_vm_conf : Eta vm_conf := fun c => {|
  vc_vars := vc_vars c;
  vc_fbuf := vc_fbuf c;
  vc_disks := vc_disks c;
  vc_isoes := vc_isoes c;
  vc_nets := vc_nets c;
  vc_passthrues := vc_passthrues c;
  vc_keymap := vc_keymap c;
  vc_backend := vc_backend c;
  vc_debug_port := vc_debug_port c;
  vc_ncpu := vc_ncpu c;
  vc_memory := vc_memory c;
  vc_name := vc_name c;
  vc_comport := vc_comport c;
  vc_loader := vc_loader c;
  vc_loadcmd := vc_loadcmd c;
  vc_installcmd := vc_installcmd c;
  vc_err_logfile := vc_err_logfile c;
  vc_grub_run_partition := vc_grub_run_partition c;
  vc_owner := vc_owner c;
  vc_group := vc_group c;
  vc_boot := vc_boot c;
  vc_hostbridge := vc_hostbridge c;
  vc_ndisks := vc_ndisks c;
  vc_nisoes := vc_nisoes c;
  vc_nnets := vc_nnets c;
  vc_npassthrues := vc_npassthrues c;
  vc_boot_delay := vc_boot_delay c;
  vc_loader_timeout := vc_loader_timeout c;
  vc_stop_timeout := vc_stop_timeout c;
  vc_mouse := vc_mouse c;
  vc_wired_memory := vc_wired_memory c;
  vc_utctime := vc_utctime c;
  vc_reboot_on_change := vc_reboot_on_change c;
  vc_single_user := vc_single_user c;
  vc_install := vc_install c;
  vc_bhyveload_loader := vc_bhyveload_loader c;
  vc_nbhyveload_envs := vc_nbhyveload_envs c;
  vc_bhyveload_envs := vc_bhyveload_envs c;
  vc_nbhyve_envs := vc_nbhyve_envs c;
  vc_bhyve_envs := vc_bhyve_envs c
|}.

(** ** Device lists *)

Definition clear_passthru_conf (vc : vm_conf) : vm_conf := vc <| vc_passthrues := STAILQ_INIT |>.

Definition clear_disk_conf (vc : vm_conf) : vm_conf := vc <| vc_disks := STAILQ_INIT |>.

Definition clear_iso_conf (vc : vm_conf) : vm_conf := vc <| vc_isoes := STAILQ_INIT |>.

Definition clear_net_conf (vc : vm_conf) : vm_conf := vc <| vc_nets := STAILQ_INIT |>.

Definition clear_bhyveload_env (vc : vm_conf) : vm_conf :=
  vc <| vc_bhyveload_envs := STAILQ_INIT |>.

Definition clear_bhyve_env (vc : vm_conf) : vm_conf := vc <| vc_bhyve_envs := STAILQ_INIT |>.

Definition add_passthru_conf (conf : option vm_conf) (devid : string)
    : C (Z * option vm_conf) :=
  null_guard conf (fun c =>
    p ← malloc;
    d ← strdup devid;
    match (p : bool), d with
    | true, Some d =>
        q ← STAILQ_INSERT_TAIL (vc_passthrues c) {| p_devid := Some d |};
        mret (0, c <| vc_passthrues := q |> <| vc_npassthrues := vc_npassthrues c + 1 |>)
    | _, _ => mret (-1, c)
    end).

Definition add_disk_conf (conf : option vm_conf) (type path : string)
    : C (Z * option vm_conf) :=
  null_guard conf (fun c =>
    t ← malloc;
    y ← strdup type;
    p ← strdup path;
    match (t : bool), y, p with
    | true, Some y, Some p =>
        q ← STAILQ_INSERT_TAIL (vc_disks c) {| d_type := Some y; d_path := Some p |};
        mret (0, c <| vc_disks := q |> <| vc_ndisks := vc_ndisks c + 1 |>)
    | _, _, _ => mret (-1, c)
    end).

(** Only the structure is checked, not the copies of its strings. *)
Definition add_iso_conf (conf : option vm_conf) (type path : string)
    : C (Z * option vm_conf) :=
  null_guard conf (fun c =>
    t ← malloc;
    y ← strdup type;
    p ← strdup path;
    if (t : bool) then
      q ← STAILQ_INSERT_TAIL (vc_isoes c) {| i_type := y; i_path := p |};
      mret (0, c <| vc_isoes := q |> <| vc_nisoes := vc_nisoes c + 1 |>)
    else mret (-1, c)).

Definition add_net_conf (conf : option vm_conf) (type bridge : string)
    : C (Z * option vm_conf) :=
  null_guard conf (fun c =>
    t ← malloc;
    y ← strdup type;
    b ← strdup bridge;
    match (t : bool), y, b with
    | true, Some y, Some b =>
        q ← STAILQ_INSERT_TAIL (vc_nets c)
              {| n_type := Some y; n_bridge := Some b; n_tap := None |};
        mret (0, c <| vc_nets := q |> <| vc_nnets := vc_nnets c + 1 |>)
    | _, _, _ => mret (-1, c)
    end).

Definition add_bhyveload_env (conf : option vm_conf) (env : option string)
    : C (Z * option vm_conf) :=
  null_guard conf (fun c =>
    match env with
    | None => mret (-1, c)
    | Some env =>
        be ← malloc;
        if (be : bool) then
          q ← STAILQ_INSERT_TAIL (vc_bhyveload_envs c) env;
          mret (0, c <| vc_bhyveload_envs := q |>
                     <| vc_nbhyveload_envs := vc_nbhyveload_envs c + 1 |>)
        else mret (-1, c)
    end).

Definition add_bhyve_env (conf : option vm_conf) (env : option string)
    : C (Z * option vm_conf) :=
  null_guard conf (fun c =>
    match env with
    | None => mret (-1, c)
    | Some env =>
        be ← malloc;
        if (be : bool) then
          q ← STAILQ_INSERT_TAIL (vc_bhyve_envs c) env;
          mret (0, c <| vc_bhyve_envs := q |> <| vc_nbhyve_envs := vc_nbhyve_envs c + 1 |>)
        else mret (-1, c)
    end).

Definition get_passthru_conf (c : vm_conf) : option passthru_conf := STAILQ_FIRST (vc_passthrues c).

Definition get_disk_conf (c : vm_conf) : option disk_conf := STAILQ_FIRST (vc_disks c).

Definition get_iso_conf (c : vm_conf) : option iso_conf := STAILQ_FIRST (vc_isoes c).

Definition get_net_conf (c : vm_conf) : option net_conf := STAILQ_FIRST (vc_nets c).

Definition get_bhyveload_env (c : vm_conf) : option string := STAILQ_FIRST (vc_bhyveload_envs c).

Definition get_passthru_conf_devid (p : passthru_conf) : option string := p_devid p.

Definition get_disk_conf_type (d : disk_conf) : option string := d_type d.

Definition get_disk_conf_path (d : disk_conf) : option string := d_path d.

Definition get_iso_conf_type (i : iso_conf) : option string := i_type i.

Definition get_iso_conf_path (i : iso_conf) : option string := i_path i.

Definition get_net_conf_type (n : net_conf) : option string := n_type n.

Definition get_net_conf_bridge (n : net_conf) : option string := n_bridge n.

Definition get_net_conf_tap (n : net_conf) : option string := n_tap n.

(** [strdup] of a string that must not be NULL. *)
Definition strdup_ptr (s : option string) : C (option string) := s ← deref s; strdup s.

Definition copy_net_conf (nc : net_conf) : C (option net_conf) :=
  ret ← malloc;
  y ← strdup_ptr (n_type nc);
  b ← strdup_ptr (n_bridge nc);
  t ← match n_tap nc with Some tap => strdup tap | None => mret None end;
  match (ret : bool), y, b, n_tap nc, t with
  | true, Some y, Some b, None, _ => mret (Some {| n_type := Some y; n_bridge := Some b; n_tap := None |})
  | true, Some y, Some b, Some _, Some t =>
      mret (Some {| n_type := Some y; n_bridge := Some b; n_tap := Some t |})
  | _, _, _, _, _ => mret None
  end.

(** ** Setters and getters *)

(** [*var] before and after. *)
Definition set_string (var : option string) (value : string) : C (Z * option string) :=
  new ← strdup value;
  match new with
  | None => mret (-1, var)
  | Some new => mret (0, Some new)
  end.

Definition set_name (conf : option vm_conf) (v : string) : C (Z * option vm_conf) :=
  null_guard conf (fun c =>
    '(rc, s) ← set_string (vc_name c) v; mret (rc, c <| vc_name := s |>)).

Definition set_loadcmd (conf : option vm_conf) (v : string) : C (Z * option vm_conf) :=
  null_guard conf (fun c =>
    '(rc, s) ← set_string (vc_loadcmd c) v; mret (rc, c <| vc_loadcmd := s |>)).

Definition set_installcmd (conf : option vm_conf) (v : string) : C (Z * option vm_conf) :=
  null_guard conf (fun c =>
    '(rc, s) ← set_string (vc_installcmd c) v; mret (rc, c <| vc_installcmd := s |>)).

Definition set_err_logfile (conf : option vm_conf) (v : string) : C (Z * option vm_conf) :=
  null_guard conf (fun c =>
    '(rc, s) ← set_string (vc_err_logfile c) v; mret (rc, c <| vc_err_logfile := s |>)).

Definition set_loader (conf : option vm_conf) (v : string) : C (Z * option vm_conf) :=
  null_guard conf (fun c =>
    '(rc, s) ← set_string (vc_loader c) v; mret (rc, c <| vc_loader := s |>)).

Definition set_bhyveload_loader (conf : option vm_conf) (v : string) : C (Z * option vm_conf) :=
  null_guard conf (fun c =>
    '(rc, s) ← set_string (vc_bhyveload_loader c) v; mret (rc, c <| vc_bhyveload_loader := s |>)).

Definition set_grub_run_partition (conf : option vm_conf) (v : string) : C (Z * option vm_conf) :=
  null_guard conf (fun c =>
    '(rc, s) ← set_string (vc_grub_run_partition c) v; mret (rc, c <| vc_grub_run_partition := s |>)).

Definition set_debug_port (conf : option vm_conf) (v : string) : C (Z * option vm_conf) :=
  null_guard conf (fun c =>
    '(rc, s) ← set_string (vc_debug_port c) v; mret (rc, c <| vc_debug_port := s |>)).

Definition set_memory_size (conf : option vm_conf) (v : string) : C (Z * option vm_conf) :=
  null_guard conf (fun c =>
    '(rc, s) ← set_string (vc_memory c) v; mret (rc, c <| vc_memory := s |>)).

Definition set_comport (conf : option vm_conf) (v : string) : C (Z * option vm_conf) :=
  null_guard conf (fun c =>
    '(rc, s) ← set_string (vc_comport c) v; mret (rc, c <| vc_comport := s |>)).

Definition set_backend (conf : option vm_conf) (v : string) : C (Z * option vm_conf) :=
  null_guard conf (fun c =>
    '(rc, s) ← set_string (vc_backend c) v; mret (rc, c <| vc_backend := s |>)).

Definition set_keymap (conf : option vm_conf) (v : string) : C (Z * option vm_conf) :=
  null_guard conf (fun c =>
    '(rc, s) ← set_string (vc_keymap c) v; mret (rc, c <| vc_keymap := s |>)).

Definition set_ncpu (conf : option vm_conf) (ncpu : Z) : C (Z * option vm_conf) :=
  null_guard conf (fun c =>
    ok ← malloc;
    if (ok : bool) then mret (0, c <| vc_ncpu := Some (print_dec ncpu) |>) else mret (-1, c)).

Definition set_loader_timeout (conf : option vm_conf) (v : Z) : C (Z * option vm_conf) :=
  null_guard conf (fun c => mret (0, c <| vc_loader_timeout := v |>)).

Definition set_stop_timeout (conf : option vm_conf) (v : Z) : C (Z * option vm_conf) :=
  null_guard conf (fun c => mret (0, c <| vc_stop_timeout := v |>)).

Definition set_boot_delay (conf : option vm_conf) (v : Z) : C (Z * option vm_conf) :=
  null_guard conf (fun c => mret (0, c <| vc_boot_delay := v |>)).

Definition set_owner (conf : option vm_conf) (v : Z) : C (Z * option vm_conf) :=
  null_guard conf (fun c => mret (0, c <| vc_owner := v |>)).

Definition set_group (conf : option vm_conf) (v : Z) : C (Z * option vm_conf) :=
  null_guard conf (fun c => mret (0, c <| vc_group := v |>)).

Definition set_boot (conf : option vm_conf) (v : BOOT) : C (Z * option vm_conf) :=
  null_guard conf (fun c => mret (0, c <| vc_boot := v |>)).

Definition set_hostbridge (conf : option vm_conf) (v : HOSTBRIDGE_TYPE) : C (Z * option vm_conf) :=
  null_guard conf (fun c => mret (0, c <| vc_hostbridge := v |>)).

Definition set_reboot_on_change (conf : option vm_conf) (v : bool) : C (Z * option vm_conf) :=
  null_guard conf (fun c => mret (0, c <| vc_reboot_on_change := v |>)).

Definition set_single_user (conf : option vm_conf) (v : bool) : C (Z * option vm_conf) :=
  null_guard conf (fun c => mret (0, c <| vc_single_user := v |>)).

Definition set_install (conf : option vm_conf) (v : bool) : C (Z * option vm_conf) :=
  null_guard conf (fun c => mret (0, c <| vc_install := v |>)).

Definition set_wired_memory (conf : option vm_conf) (v : bool) : C (Z * option vm_conf) :=
  null_guard conf (fun c => mret (0, c <| vc_wired_memory := v |>)).

Definition set_utctime (conf : option vm_conf) (v : bool) : C (Z * option vm_conf) :=
  null_guard conf (fun c => mret (0, c <| vc_utctime := v |>)).

(** [set_mouse] does not check its pointer. *)
Definition set_mouse (conf : option vm_conf) (v : bool) : C (Z * option vm_conf) :=
  c ← deref conf; mret (0, Some (c <| vc_mouse := v |>)).

Definition get_name (c : vm_conf) : option string := vc_name c.

Definition get_loadcmd (c : vm_conf) : option string := vc_loadcmd c.

Definition get_installcmd (c : vm_conf) : option string := vc_installcmd c.

Definition get_err_logfile (c : vm_conf) : option string := vc_err_logfile c.

Definition get_loader (c : vm_conf) : option string := vc_loader c.

Definition get_bhyveload_loader (c : vm_conf) : option string := vc_bhyveload_loader c.

Definition get_grub_run_partition (c : vm_conf) : option string := vc_grub_run_partition c.

Definition get_debug_port (c : vm_conf) : option string := vc_debug_port c.

Definition get_memory (c : vm_conf) : option string := vc_memory c.

Definition get_comport (c : vm_conf) : option string := vc_comport c.

Definition get_backend (c : vm_conf) : option string := vc_backend c.

Definition get_keymap (c : vm_conf) : option string := vc_keymap c.

Definition get_ncpu (c : vm_conf) : option string := vc_ncpu c.

Definition get_loader_timeout (c : vm_conf) : Z := vc_loader_timeout c.

Definition get_stop_timeout (c : vm_conf) : Z := vc_stop_timeout c.

Definition get_boot_delay (c : vm_conf) : Z := vc_boot_delay c.

Definition get_boot (c : vm_conf) : BOOT := vc_boot c.

Definition get_hostbridge (c : vm_conf) : HOSTBRIDGE_TYPE := vc_hostbridge c.

Definition is_reboot_on_change (c : vm_conf) : bool := vc_reboot_on_change c.

Definition is_single_user (c : vm_conf) : bool := vc_single_user c.

Definition is_install (c : vm_conf) : bool := vc_install c.

Definition is_mouse (c : vm_conf) : bool := vc_mouse c.

Definition is_wired_memory (c : vm_conf) : bool := vc_wired_memory c.

Definition is_utctime (c : vm_conf) : bool := vc_utctime c.

(** The conversion of the 64-bit field to [uid_t] and [gid_t]. *)
Definition get_owner (c : vm_conf) : Z := to_uint (vc_owner c).

Definition get_group (c : vm_conf) : Z := to_uint (vc_group c).

(** ** The frame buffer *)

Definition set_fbuf_enable (fb : option fbuf) (enable : bool) : C (Z * option fbuf) :=
  null_guard fb (fun f => mret (0, f <| fb_enable := c_bool enable |>)).

(** Setting a parameter enables a frame buffer that nothing has enabled or
    disabled yet. *)
Definition auto_enable (f : fbuf) : fbuf := if fb_enable f <? 0 then f <| fb_enable := 1 |> else f.

Definition set_fbuf_ipaddr (fb : option fbuf) (ipaddr : string) : C (Z * option fbuf) :=
  null_guard fb (fun f =>
    '(ret, s) ← set_string (fb_ipaddr f) ipaddr;
    let f := f <| fb_ipaddr := s |> in
    mret (ret, if ret =? 0 then auto_enable f else f)).

Definition set_fbuf_port (fb : option fbuf) (port : Z) : C (Z * option fbuf) :=
  null_guard fb (fun f => mret (0, auto_enable (f <| fb_port := port |>))).

Definition set_fbuf_res (fb : option fbuf) (width height : Z) : C (Z * option fbuf) :=
  null_guard fb (fun f =>
    mret (0, auto_enable (f <| fb_width := width |> <| fb_height := height |>))).

Definition set_fbuf_vgaconf (fb : option fbuf) (vga : string) : C (Z * option fbuf) :=
  null_guard fb (fun f =>
    '(ret, s) ← set_string (fb_vgaconf f) vga;
    let f := f <| fb_vgaconf := s |> in
    mret (ret, if ret =? 0 then auto_enable f else f)).

(** [set_fbuf_wait] does not check its pointer. *)
Definition set_fbuf_wait (fb : option fbuf) (wait : Z) : C (Z * option fbuf) :=
  f ← deref fb; mret (0, Some (f <| fb_wait := wait |>)).

Definition set_fbuf_password (fb : option fbuf) (pass : string) : C (Z * option fbuf) :=
  null_guard fb (fun f =>
    '(ret, s) ← set_string (fb_password f) pass;
    let f := f <| fb_password := s |> in
    mret (ret, if ret =? 0 then auto_enable f else f)).

Definition is_fbuf_enable (c : vm_conf) : C bool :=
  f ← deref (vc_fbuf c); mret (negb (fb_enable f =? 0)).

Definition get_fbuf_ipaddr (c : vm_conf) : C (option string) :=
  f ← deref (vc_fbuf c); mret (fb_ipaddr f).

Definition get_fbuf_port (c : vm_conf) : C Z := f ← deref (vc_fbuf c); mret (fb_port f).

Definition get_fbuf_res (c : vm_conf) : C (Z * Z) :=
  f ← deref (vc_fbuf c); mret (fb_width f, fb_height f).

Definition get_fbuf_vgaconf (c : vm_conf) : C (option string) :=
  f ← deref (vc_fbuf c); mret (fb_vgaconf f).

Definition get_fbuf_wait (c : vm_conf) : C Z := f ← deref (vc_fbuf c); mret (fb_wait f).

Definition get_fbuf_password (c : vm_conf) : C (option string) :=
  f ← deref (vc_fbuf c); mret (fb_password f).

Definition create_fbuf : C (option fbuf) :=
  ret ← malloc;
  addr ← strdup "0.0.0.0";
  vga ← strdup "io";
  match (ret : bool), addr, vga with
  | true, Some addr, Some vga =>
      mret (Some {| fb_enable := -1; fb_port := 5900; fb_ipaddr := Some addr;
                    fb_vgaconf := Some vga; fb_password := None; fb_width := 1024;
                    fb_height := 768; fb_wait := 0 |})
  | _, _, _ => mret None
  end.

(** ** Creation *)

(** The structure as [calloc] returns it. *)
Definition zero_vm_conf : vm_conf := {|
  vc_vars := {| v_global := None; v_local := None; v_args := None |};
  vc_fbuf := None;
  vc_disks := stailq_zero;
  vc_isoes := stailq_zero;
  vc_nets := stailq_zero;
  vc_passthrues := stailq_zero;
  vc_keymap := None;
  vc_backend := None;
  vc_debug_port := None;
  vc_ncpu := None;
  vc_memory := None;
  vc_name := None;
  vc_comport := None;
  vc_loader := None;
  vc_loadcmd := None;
  vc_installcmd := None;
  vc_err_logfile := None;
  vc_grub_run_partition := None;
  vc_owner := 0;
  vc_group := 0;
  vc_boot := NO;
  vc_hostbridge := NONE;
  vc_ndisks := 0;
  vc_nisoes := 0;
  vc_nnets := 0;
  vc_npassthrues := 0;
  vc_boot_delay := 0;
  vc_loader_timeout := 0;
  vc_stop_timeout := 0;
  vc_mouse := false;
  vc_wired_memory := false;
  vc_utctime := false;
  vc_reboot_on_change := false;
  vc_single_user := false;
  vc_install := false;
  vc_bhyveload_loader := None;
  vc_nbhyveload_envs := 0;
  vc_bhyveload_envs := stailq_zero;
  vc_nbhyve_envs := 0;
  vc_bhyve_envs := stailq_zero
|}.

(** [create_vm_conf] initialises every queue but [passthrues]. *)
Definition create_vm_conf (st : ids) (vm_name : string) : C (option vm_conf * ids) :=
  ret ← malloc;
  fb ← create_fbuf;
  name ← strdup vm_name;
  backend ← strdup "bhyve";
  loc ← malloc;
  match (ret : bool), fb, name, backend, (loc : bool) with
  | true, Some fb, Some name, Some backend, true =>
      '(_, local) ← set_var0 ∅ (Some "NAME") (Some name);
      '(i, st) ← get_id st name;
      '(_, local) ← match i with
                    | Some i => set_var0 local (Some "ID") (Some (print_dec i))
                    | None => mret (-1, local)
                    end;
      mret (Some (zero_vm_conf
        <| vc_vars := {| v_global := None; v_local := Some local; v_args := None |} |>
        <| vc_hostbridge := INTEL |>
        <| vc_fbuf := Some fb |>
        <| vc_name := Some name |>
        <| vc_loader_timeout := 15 |>
        <| vc_stop_timeout := 300 |>
        <| vc_utctime := true |>
        <| vc_backend := Some backend |>
        <| vc_group := -1 |>
        <| vc_disks := STAILQ_INIT |>
        <| vc_isoes := STAILQ_INIT |>
        <| vc_nets := STAILQ_INIT |>
        <| vc_bhyveload_envs := STAILQ_INIT |>
        <| vc_bhyve_envs := STAILQ_INIT |>), st)
  | _, _, _, _, _ => mret (None, st)
  end.

Definition finalize_vm_conf (conf : option vm_conf) : Z * option vm_conf :=
  match conf with
  | None => (-1, None)
  | Some c =>
      match vc_fbuf c with
      | None => (-1, Some c)
      | Some f =>
          let f := if fb_enable f <? 0 then f <| fb_enable := 0 |> else f in
          (0, Some (c <| vc_fbuf := Some f |>))
      end
  end.

(** ** Comparison *)

(** [if ((rc = a - b) != 0) return rc;] with [int rc], followed by [rest]: for members of type
    [int] and [bool], whose difference is an [int] and must fit. *)
Definition CMP_NUM (a b : Z) (rest : C Z) : C Z :=
  if bool_decide (is_int (a - b)) then (if a - b =? 0 then rest else mret (a - b)) else crash SignedOverflow.

(** For [owner] and [group], of type [int64_t], and for the enumerations, of type [unsigned int]: the
    difference is converted to [int]. *)
Definition CMP_WIDE (a b : Z) (rest : C Z) : C Z :=
  let rc := to_int (a - b) in if rc =? 0 then rest else mret rc.

Definition CMP_STR (a b : option string) (rest : C Z) : C Z :=
  let rc := compare_string a b in if rc =? 0 then rest else mret rc.

Definition CMP_BOOL (a b : bool) (rest : C Z) : C Z := CMP_NUM (c_bool a) (c_bool b) rest.

Definition compare_fbuf (a b : fbuf) : C Z :=
  CMP_NUM (fb_enable a) (fb_enable b) (
  CMP_STR (fb_ipaddr a) (fb_ipaddr b) (
  CMP_NUM (fb_port a) (fb_port b) (
  CMP_NUM (fb_width a) (fb_width b) (
  CMP_NUM (fb_height a) (fb_height b) (
  CMP_STR (fb_vgaconf a) (fb_vgaconf b) (
  CMP_NUM (fb_wait a) (fb_wait b) (
  CMP_STR (fb_password a) (fb_password b) (mret 0)))))))).

Definition compare_passthru_conf (a b : passthru_conf) : C Z :=
  CMP_STR (p_devid a) (p_devid b) (mret 0).

Definition compare_disk_conf (a b : disk_conf) : C Z :=
  CMP_STR (d_type a) (d_type b) (CMP_STR (d_path a) (d_path b) (mret 0)).

Definition compare_iso_conf (a b : iso_conf) : C Z :=
  CMP_STR (i_type a) (i_type b) (CMP_STR (i_path a) (i_path b) (mret 0)).

(** The tap device is not compared. *)
Definition compare_net_conf (a b : net_conf) : C Z :=
  CMP_STR (n_type a) (n_type b) (CMP_STR (n_bridge a) (n_bridge b) (mret 0)).

Definition compare_env (a b : string) : C Z := CMP_STR (Some a) (Some b) (mret 0).

(** The loop over two queues, the two tests of what is left, then [rest]. *)
Fixpoint CMP_LIST {A} (cmp : A -> A -> C Z) (a b : list A) (rest : C Z) : C Z :=
  match a, b with
  | x :: a', y :: b' => rc ← cmp x y; if rc =? 0 then CMP_LIST cmp a' b' rest else mret rc
  | _ :: _, [] => mret 1
  | [], _ :: _ => mret (-1)
  | [], [] => rest
  end.

Definition CMP_STAILQ {A} (cmp : A -> A -> C Z) (a b : stailq A) (rest : C Z) : C Z :=
  CMP_LIST cmp (stq_items a) (stq_items b) rest.

(** The tests after the frame buffer's. *)
Definition compare_vm_conf_tail (a b : vm_conf) : C Z :=
  CMP_BOOL (vc_mouse a) (vc_mouse b) (
  CMP_BOOL (vc_wired_memory a) (vc_wired_memory b) (
  CMP_BOOL (vc_utctime a) (vc_utctime b) (
  CMP_BOOL (vc_reboot_on_change a) (vc_reboot_on_change b) (
  CMP_BOOL (vc_single_user a) (vc_single_user b) (
  CMP_BOOL (vc_install a) (vc_install b) (
  CMP_NUM (vc_ndisks a) (vc_ndisks b) (
  CMP_NUM (vc_nisoes a) (vc_nisoes b) (
  CMP_NUM (vc_nnets a) (vc_nnets b) (
  CMP_STAILQ compare_passthru_conf (vc_passthrues a) (vc_passthrues b) (
  CMP_STAILQ compare_disk_conf (vc_disks a) (vc_disks b) (
  CMP_STAILQ compare_iso_conf (vc_isoes a) (vc_isoes b) (
  CMP_STAILQ compare_net_conf (vc_nets a) (vc_nets b) (
  CMP_STAILQ compare_env (vc_bhyveload_envs a) (vc_bhyveload_envs b) (
  CMP_STAILQ compare_env (vc_bhyve_envs a) (vc_bhyve_envs b) (mret 0))))))))))))))).

(** The tests up to the frame buffer's. *)
Definition compare_vm_conf_head (a b : vm_conf) : C Z :=
  CMP_NUM (vc_boot_delay a) (vc_boot_delay b) (
  CMP_NUM (vc_loader_timeout a) (vc_loader_timeout b) (
  CMP_NUM (vc_stop_timeout a) (vc_stop_timeout b) (
  CMP_WIDE (hostbridge_num (vc_hostbridge a)) (hostbridge_num (vc_hostbridge b)) (
  CMP_WIDE (vc_owner a) (vc_owner b) (
  CMP_WIDE (vc_group a) (vc_group b) (
  CMP_STR (vc_debug_port a) (vc_debug_port b) (
  CMP_STR (vc_ncpu a) (vc_ncpu b) (
  CMP_STR (vc_memory a) (vc_memory b) (
  CMP_STR (vc_name a) (vc_name b) (
  CMP_STR (vc_comport a) (vc_comport b) (
  CMP_WIDE (boot_num (vc_boot a)) (boot_num (vc_boot b)) (
  CMP_STR (vc_loader a) (vc_loader b) (
  CMP_STR (vc_loadcmd a) (vc_loadcmd b) (
  CMP_STR (vc_installcmd a) (vc_installcmd b) (
  CMP_STR (vc_err_logfile a) (vc_err_logfile b) (
  CMP_STR (vc_grub_run_partition a) (vc_grub_run_partition b) (
  CMP_STR (vc_bhyveload_loader a) (vc_bhyveload_loader b) (
  CMP_STR (vc_keymap a) (vc_keymap b) (mret 0))))))))))))))))))).

(** The frame buffers are dereferenced in between. *)
Definition compare_vm_conf (a b : vm_conf) : C Z :=
  rc ← compare_vm_conf_head a b;
  if rc =? 0 then
    fa ← deref (vc_fbuf a);
    fb ← deref (vc_fbuf b);
    rc ← compare_fbuf fa fb;
    if rc =? 0 then compare_vm_conf_tail a b else mret rc
  else mret rc.

(** ** The dump of [bmdctl showconfig] *)

Definition nl : string := String LF EmptyString.

(** [%s] of a pointer. *)
Definition pct_s (s : option string) : string :=
  match s with Some s => s | None => "(null)" end.

Fixpoint spaces (n : nat) : string :=
  match n with O => EmptyString | S n' => " " +:+ spaces n' end.

(** [%18s]. *)
Definition pct_18s (s : string) : string := spaces (18 - String.length s) +:+ s.

Definition fmt (k : string) (v : option string) : string :=
  pct_18s k +:+ " = " +:+ pct_s v +:+ nl.

Definition dfmt (k : string) (v : Z) : string :=
  pct_18s k +:+ " = " +:+ print_dec (to_int v) +:+ nl.

Definition lfmt (k : string) (v w : option string) : string :=
  pct_18s k +:+ " = " +:+ pct_s v +:+ "," +:+ pct_s w +:+ nl.

(** The tables of the function. *)
Definition btype : list string := ["no"; "yes"; "oneshot"; "install"; "always"; "reboot"].

Definition hostbridge_str : list string := ["none"; "intel"; "amd"].

Definition bool_str : list string := ["false"; "true"].

Definition tbl (t : list string) (i : Z) : option string := t !! Z.to_nat i.

(** The numbered lines of a queue: the counter starts at 0. *)
Fixpoint dump_items {A} (line : string -> A -> string) (k : string) (i : Z) (l : list A) : string :=
  match l with
  | [] => EmptyString
  | x :: l' => line (k +:+ print_dec i) x +:+ dump_items line k (i + 1) l'
  end.

(** The lines before the boot mode, those after it up to the networks, and
    those of the frame buffer. *)
Definition dump_head (c : vm_conf) : string :=
  fmt "name" (vc_name c) +:+
  dfmt "owner" (vc_owner c) +:+
  dfmt "group" (vc_group c) +:+
  fmt "ncpu" (vc_ncpu c) +:+
  fmt "memory" (vc_memory c) +:+
  fmt "wired_memory" (tbl bool_str (c_bool (vc_wired_memory c))) +:+
  fmt "utctime" (tbl bool_str (c_bool (vc_utctime c))) +:+
  fmt "reboot_on_change" (tbl bool_str (c_bool (vc_reboot_on_change c))) +:+
  fmt "single_user" (tbl bool_str (c_bool (vc_single_user c))) +:+
  fmt "install" (tbl bool_str (c_bool (vc_install c))) +:+
  fmt "comport" (vc_comport c) +:+
  fmt "debug_port" (vc_debug_port c).

Definition dump_tail (c : vm_conf) : string :=
  dfmt "boot_delay" (vc_boot_delay c) +:+
  dfmt "loader_timeout" (vc_loader_timeout c) +:+
  dfmt "stop_timeout" (vc_stop_timeout c) +:+
  fmt "loader" (vc_loader c) +:+
  fmt "bhyveload_loader" (vc_bhyveload_loader c) +:+
  dump_items (fun k e => fmt k (Some e)) "bhyveload_env" 0 (stq_items (vc_bhyveload_envs c)) +:+
  dump_items (fun k e => fmt k (Some e)) "bhyve_env" 0 (stq_items (vc_bhyve_envs c)) +:+
  fmt "loadcmd" (vc_loadcmd c) +:+
  fmt "installcmd" (vc_installcmd c) +:+
  fmt "err_logfile" (vc_err_logfile c) +:+
  fmt "hostbrigde" (tbl hostbridge_str (hostbridge_num (vc_hostbridge c))) +:+
  match stq_items (vc_passthrues c) with
  | [] => EmptyString
  | ps => pct_18s "passthru" +:+ " =" +:+
          foldr (fun p s => " " +:+ pct_s (p_devid p) +:+ s) nl ps
  end +:+
  dump_items (fun k d => lfmt k (d_type d) (d_path d)) "disk" 0 (stq_items (vc_disks c)) +:+
  dump_items (fun k i => lfmt k (i_type i) (i_path i)) "iso" 0 (stq_items (vc_isoes c)) +:+
  dump_items (fun k n => lfmt k (n_type n) (n_bridge n)) "net" 0 (stq_items (vc_nets c)).

Definition dump_fbuf (c : vm_conf) (fb : fbuf) : string :=
  if fb_enable fb =? 0 then EmptyString else
    pct_18s "graphics" +:+ " = " +:+ pct_s (fb_ipaddr fb) +:+ ":" +:+ print_dec (fb_port fb)
    +:+ ", " +:+ print_dec (fb_width fb) +:+ "x" +:+ print_dec (fb_height fb)
    +:+ ", " +:+ pct_s (fb_vgaconf fb) +:+ ", "
    +:+ (if fb_wait fb =? 0 then "nowait" else "wait") +:+ nl
    +:+ fmt "xhci_mouse" (tbl bool_str (c_bool (vc_mouse c)))
    +:+ fmt "keymap" (vc_keymap c).

Definition dump_vm_conf (c : vm_conf) : C string :=
  let out := dump_head c +:+ fmt "boot" (tbl btype (boot_num (vc_boot c))) +:+ dump_tail c in
  fb ← deref (vc_fbuf c);
  mret (out +:+ dump_fbuf c fb).

(** ** Specifications *)

(** Everything [compare_vm_conf] looks at.  Not in it: [backend], [vars], the
    counters [npassthrues], [nbhyveload_envs], [nbhyve_envs], the tap names of
    the networks and the tail pointers. *)
Definition view (c : vm_conf) :=
  ([vc_boot_delay c; vc_loader_timeout c; vc_stop_timeout c;
    hostbridge_num (vc_hostbridge c); vc_owner c; vc_group c; boot_num (vc_boot c)],
   [vc_debug_port c; vc_ncpu c; vc_memory c; vc_name c; vc_comport c; vc_loader c;
    vc_loadcmd c; vc_installcmd c; vc_err_logfile c; vc_grub_run_partition c;
    vc_bhyveload_loader c; vc_keymap c],
   vc_fbuf c,
   [vc_mouse c; vc_wired_memory c; vc_utctime c; vc_reboot_on_change c; vc_single_user c;
    vc_install c],
   [vc_ndisks c; vc_nisoes c; vc_nnets c],
   (stq_items (vc_passthrues c), stq_items (vc_disks c), stq_items (vc_isoes c)),
   (fun n => (n_type n, n_bridge n)) <$> stq_items (vc_nets c),
   stq_items (vc_bhyveload_envs c), stq_items (vc_bhyve_envs c)).

(** The machine types of the numeric fields.  [(gid_t)-1] is no group. *)
Definition fbuf_ranges (f : fbuf) : Prop :=
  is_int (fb_enable f) /\ is_int (fb_port f) /\ is_int (fb_width f) /\
  is_int (fb_height f) /\ is_int (fb_wait f).

Definition conf_ranges (c : vm_conf) : Prop :=
  is_int (vc_boot_delay c) /\ is_int (vc_loader_timeout c) /\ is_int (vc_stop_timeout c) /\
  is_uint (vc_owner c) /\ -1 <= vc_group c < 2 ^ 32 - 1 /\
  is_int (vc_ndisks c) /\ is_int (vc_nisoes c) /\ is_int (vc_nnets c) /\
  exists f, vc_fbuf c = Some f /\ fbuf_ranges f.

(** The attributes that are plain strings. *)
Record attr := {
  a_set : option vm_conf -> string -> C (Z * option vm_conf);
  a_get : vm_conf -> option string;
}.

Definition string_attrs : list attr := [
  {| a_set := set_name; a_get := get_name |};
  {| a_set := set_loadcmd; a_get := get_loadcmd |};
  {| a_set := set_installcmd; a_get := get_installcmd |};
  {| a_set := set_err_logfile; a_get := get_err_logfile |};
  {| a_set := set_loader; a_get := get_loader |};
  {| a_set := set_bhyveload_loader; a_get := get_bhyveload_loader |};
  {| a_set := set_grub_run_partition; a_get := get_grub_run_partition |};
  {| a_set := set_debug_port; a_get := get_debug_port |};
  {| a_set := set_memory_size; a_get := get_memory |};
  {| a_set := set_comport; a_get := get_comport |};
  {| a_set := set_backend; a_get := get_backend |};
  {| a_set := set_keymap; a_get := get_keymap |}
].

(** The counters agree with the queues they count. *)
Definition counts_ok (c : vm_conf) : Prop :=
  vc_ndisks c = Z.of_nat (length (stq_items (vc_disks c))) /\
  vc_nisoes c = Z.of_nat (length (stq_items (vc_isoes c))) /\
  vc_nnets c = Z.of_nat (length (stq_items (vc_nets c))) /\
  vc_npassthrues c = Z.of_nat (length (stq_items (vc_passthrues c))) /\
  vc_nbhyveload_envs c = Z.of_nat (length (stq_items (vc_bhyveload_envs c))) /\
  vc_nbhyve_envs c = Z.of_nat (length (stq_items (vc_bhyve_envs c))).

(** The graphics parameters of a configuration file, in order. *)
Inductive fb_op :=
  | OpEnable (b : bool)
  | OpPort (p : Z)
  | OpRes (w h : Z)
  | OpIpaddr (s : string)
  | OpVga (s : string)
  | OpWait (z : Z)
  | OpPassword (s : string).

Definition fb_apply (f : fbuf) (op : fb_op) : C fbuf :=
  '(_, f') ← at_ptr f (fun p =>
    match op with
    | OpEnable b => set_fbuf_enable p b
    | OpPort v => set_fbuf_port p v
    | OpRes w h => set_fbuf_res p w h
    | OpIpaddr s => set_fbuf_ipaddr p s
    | OpVga s => set_fbuf_vgaconf p s
    | OpWait v => set_fbuf_wait p v
    | OpPassword s => set_fbuf_password p s
    end);
  mret f'.

(** Whether the frame buffer ends up enabled: the last [graphics] parameter
    decides; without one, any other parameter but [graphics_wait] enables it. *)
Fixpoint fb_enabled (ops : list fb_op) (explicit : option bool) (touched : bool) : bool :=
  match ops with
  | [] => match explicit with Some b => b | None => touched end
  | OpEnable b :: ops' => fb_enabled ops' (Some b) touched
  | OpWait _ :: ops' => fb_enabled ops' explicit touched
  | _ :: ops' => fb_enabled ops' explicit true
  end.

(** The configuration of a VM that the file says nothing about. *)
Definition default_conf (name : string) (i : Z) : vm_conf := zero_vm_conf
  <| vc_vars := {| v_global := None;
                   v_local := Some (<["ID" := print_dec i]> {["NAME" := name]});
                   v_args := None |} |>
  <| vc_hostbridge := INTEL |>
  <| vc_fbuf := Some {| fb_enable := -1; fb_port := 5900; fb_ipaddr := Some "0.0.0.0";
                        fb_vgaconf := Some "io"; fb_password := None; fb_width := 1024;
                        fb_height := 768; fb_wait := 0 |} |>
  <| vc_name := Some name |>
  <| vc_loader_timeout := 15 |>
  <| vc_stop_timeout := 300 |>
  <| vc_utctime := true |>
  <| vc_backend := Some "bhyve" |>
  <| vc_group := -1 |>
  <| vc_disks := STAILQ_INIT |>
  <| vc_isoes := STAILQ_INIT |>
  <| vc_nets := STAILQ_INIT |>
  <| vc_bhyveload_envs := STAILQ_INIT |>
  <| vc_bhyve_envs := STAILQ_INIT |>.

(** The additions to the device lists. *)
Inductive dev_op :=
  | AddPassthru (devid : string)
  | AddDisk (type path : string)
  | AddIso (type path : string)
  | AddNet (type bridge : string)
  | AddLoadEnv (env : string)
  | AddBhyveEnv (env : string).

Definition dev_apply (c : vm_conf) (op : dev_op) : C vm_conf :=
  '(_, c') ← at_ptr c (fun p =>
    match op with
    | AddPassthru d => add_passthru_conf p d
    | AddDisk t d => add_disk_conf p t d
    | AddIso t d => add_iso_conf p t d
    | AddNet t b => add_net_conf p t b
    | AddLoadEnv e => add_bhyveload_env p (Some e)
    | AddBhyveEnv e => add_bhyve_env p (Some e)
    end);
  mret c'.

(** The elements an addition puts at the end of each list. *)
Definition dev_lists (c : vm_conf) :=
  (stq_items (vc_passthrues c), stq_items (vc_disks c), stq_items (vc_isoes c),
   stq_items (vc_nets c), stq_items (vc_bhyveload_envs c), stq_items (vc_bhyve_envs c)).

Definition dev_add op '(ps, ds, iss, ns, ls, bs) :=
  match op with
  | AddPassthru d => (ps ++ [{| p_devid := Some d |}], ds, iss, ns, ls, bs)
  | AddDisk t d => (ps, ds ++ [{| d_type := Some t; d_path := Some d |}], iss, ns, ls, bs)
  | AddIso t d => (ps, ds, iss ++ [{| i_type := Some t; i_path := Some d |}], ns, ls, bs)
  | AddNet t b =>
      (ps, ds, iss, ns ++ [{| n_type := Some t; n_bridge := Some b; n_tap := None |}], ls, bs)
  | AddLoadEnv e => (ps, ds, iss, ns, ls ++ [e], bs)
  | AddBhyveEnv e => (ps, ds, iss, ns, ls, bs ++ [e])
  end.

(** Every queue accepts an insertion at its tail. *)
Definition tails_ok (c : vm_conf) : Prop :=
  stq_last (vc_passthrues c) = TailOk /\ stq_last (vc_disks c) = TailOk /\
  stq_last (vc_isoes c) = TailOk /\ stq_last (vc_nets c) = TailOk /\
  stq_last (vc_bhyveload_envs c) = TailOk /\ stq_last (vc_bhyve_envs c) = TailOk.

(** The word that stands for a boot mode in the dump. *)
Definition boot_word (b : BOOT) : string :=
  match b with NO => "no" | YES => "yes" | ONESHOT => "oneshot" | ALWAYS => "install" end.


(** ** Comparison *)

(** The answer does not depend on the allocator and is 0 exactly when [P] holds. *)
Definition decides (c : C Z) (P : Prop) : Prop := exists rc, (forall o, c o = Done rc o) /\ (rc = 0 <-> P).

(** The same, or a difference overflows because of [V]. *)
Definition decides_or (V : Prop) (c : C Z) (P : Prop) : Prop := V /\ (forall o, c o = Crash SignedOverflow) \/ decides c P.

Lemma decides_ret rc P : (rc = 0 <-> P) -> decides (mret rc) P.
Proof. intros H. by exists rc. Qed.

Lemma decides_iff c P Q : (P <-> Q) -> decides c P -> decides c Q.
Proof. intros H (rc & H1 & H2). exists rc. by rewrite H2. Qed.

Lemma decides_then c (d : C Z) (P Q : Prop) :
  decides c P -> (P -> decides d Q) -> decides (rc ← c; if rc =? 0 then d else mret rc) (P /\ Q).
Proof.
  intros (rc & H1 & H2) Hd. destruct (Z.eqb_spec rc 0) as [E | E].
  - destruct Hd as (rd & H3 & H4); [by apply H2 |]. exists rd. split; [| tauto].
    intros o. unfold mbind, C_bind. rewrite H1. apply Z.eqb_eq in E. by rewrite E.
  - exists rc. split; [| tauto]. intros o. unfold mbind, C_bind. rewrite H1. by apply Z.eqb_neq in E as ->.
Qed.

Section decides_or.
Context (V : Prop).

Lemma decides_or_iff c P Q : (P <-> Q) -> decides_or V c P -> decides_or V c Q.
Proof. intros H [Hc | Hc]; [by left | right; by eapply decides_iff]. Qed.

Lemma decides_or_ret : decides_or V (mret 0) True.
Proof. right. by apply decides_ret. Qed.

Lemma decides_or_then c (d : C Z) (P Q : Prop) :
  decides_or V c P -> (P -> decides_or V d Q) -> decides_or V (rc ← c; if rc =? 0 then d else mret rc) (P /\ Q).
Proof.
  intros [[Hv H] | (rc & H1 & H2)] Hd.
  { left. split; [done |]. intros o. unfold mbind, C_bind. by rewrite H. }
  destruct (Z.eqb_spec rc 0) as [E | E].
  - destruct Hd as [[Hv H] | H]; [by apply H2 | left; split; [done |]; intros o; unfold mbind, C_bind; rewrite H1, E; apply H |].
    right. apply (decides_then c d P Q); [by exists rc | done].
  - right. apply (decides_then c d P Q); [by exists rc | tauto].
Qed.

Lemma decides_or_test (rc : Z) rest (E P : Prop) :
  (rc = 0 <-> E) -> decides_or V rest P -> decides_or V (if rc =? 0 then rest else mret rc) (E /\ P).
Proof.
  intros H Hr. destruct (Z.eqb_spec rc 0) as [Hz | Hz]; [eapply decides_or_iff; [| exact Hr]; tauto |].
  right. exists rc. split; [done | tauto].
Qed.

Lemma CMP_NUM_decides a b rest P :
  (~ is_int (a - b) -> V) -> decides_or V rest P -> decides_or V (CMP_NUM a b rest) (a = b /\ P).
Proof.
  intros Hv Hr. unfold CMP_NUM. destruct (bool_decide_reflect (is_int (a - b))) as [Hi | Hi]; [| left; by split; [apply Hv |]].
  apply decides_or_test; [lia | done].
Qed.

Lemma CMP_WIDE_decides a b rest P :
  (to_int (a - b) = 0 <-> a = b) -> decides_or V rest P -> decides_or V (CMP_WIDE a b rest) (a = b /\ P).
Proof. intros H Hr. by apply decides_or_test. Qed.

Lemma CMP_STR_decides a b rest P : decides_or V rest P -> decides_or V (CMP_STR a b rest) (a = b /\ P).
Proof. intros Hr. apply decides_or_test; [apply compare_string_eq0 | done]. Qed.

Lemma CMP_BOOL_decides a b rest P : decides_or V rest P -> decides_or V (CMP_BOOL a b rest) (a = b /\ P).
Proof.
  intros Hr. eapply decides_or_iff; [| apply CMP_NUM_decides; [| exact Hr]].
  - destruct a, b; cbn; intuition congruence.
  - intros H. destruct H. unfold is_int, INT_MIN, INT_MAX. destruct a, b; cbn; lia.
Qed.

Lemma CMP_LIST_decides {A B} (cmp : A -> A -> C Z) (f : A -> B) a b rest P :
  (forall x y, decides_or V (cmp x y) (f x = f y)) -> decides_or V rest P ->
  decides_or V (CMP_LIST cmp a b rest) (f <$> a = f <$> b /\ P).
Proof.
  intros Hf Hr. revert b. induction a as [| x a IH]; intros [| y b]; cbn [CMP_LIST fmap list_fmap].
  - eapply decides_or_iff; [| exact Hr]. tauto.
  - right. apply decides_ret. split; [lia | intros [? _]; discriminate].
  - right. apply decides_ret. split; [lia | intros [? _]; discriminate].
  - eapply decides_or_iff; [| apply decides_or_then; [apply Hf | intros _; apply (IH b)]].
    split; [intros (-> & -> & ?); done | intros ([= ? ?] & ?); done].
Qed.

Lemma CMP_STAILQ_decides {A} (cmp : A -> A -> C Z) (a b : stailq A) rest P :
  (forall x y, decides_or V (cmp x y) (x = y)) -> decides_or V rest P ->
  decides_or V (CMP_STAILQ cmp a b rest) (stq_items a = stq_items b /\ P).
Proof.
  intros H Hr. eapply decides_or_iff; [| apply (CMP_LIST_decides cmp id); done]. by rewrite !list_fmap_id.
Qed.

Lemma compare_disk_conf_decides a b : decides_or V (compare_disk_conf a b) (a = b).
Proof.
  eapply decides_or_iff; [| do 2 apply CMP_STR_decides; apply decides_or_ret]. destruct a, b; cbn. intuition congruence.
Qed.

Lemma compare_iso_conf_decides a b : decides_or V (compare_iso_conf a b) (a = b).
Proof.
  eapply decides_or_iff; [| do 2 apply CMP_STR_decides; apply decides_or_ret]. destruct a, b; cbn. intuition congruence.
Qed.

Lemma compare_passthru_conf_decides a b : decides_or V (compare_passthru_conf a b) (a = b).
Proof.
  eapply decides_or_iff; [| apply CMP_STR_decides, decides_or_ret]. destruct a, b; cbn. intuition congruence.
Qed.

Lemma compare_net_conf_decides a b : decides_or V (compare_net_conf a b) ((n_type a, n_bridge a) = (n_type b, n_bridge b)).
Proof. eapply decides_or_iff; [| do 2 apply CMP_STR_decides; apply decides_or_ret]. intuition congruence. Qed.

Lemma compare_env_decides a b : decides_or V (compare_env a b) (a = b).
Proof. eapply decides_or_iff; [| apply CMP_STR_decides, decides_or_ret]. intuition congruence. Qed.

End decides_or.

Lemma group_eq0 a b : -1 <= a < 2 ^ 32 - 1 -> -1 <= b < 2 ^ 32 - 1 -> to_int (a - b) = 0 <-> a = b.
Proof.
  intros Ha Hb. replace (a - b) with ((a + 1) - (b + 1)) by lia.
  rewrite (to_int_sub_eq0_uint (a + 1) (b + 1)) by (unfold is_uint; lia). lia.
Qed.

Lemma hostbridge_eq0 a b : to_int (hostbridge_num a - hostbridge_num b) = 0 <-> hostbridge_num a = hostbridge_num b.
Proof. by destruct a, b. Qed.

Lemma boot_eq0 a b : to_int (boot_num a - boot_num b) = 0 <-> boot_num a = boot_num b.
Proof. by destruct a, b. Qed.

(** The members of type [int], and that their differences fit into an [int], as they do when every one is at least -1, the mark of an option that is not
    set, and not the largest of all. *)
Definition fbuf_ints (f : fbuf) : list Z := [fb_enable f; fb_port f; fb_width f; fb_height f; fb_wait f].

Definition conf_ints (c : vm_conf) : list Z :=
  [vc_boot_delay c; vc_loader_timeout c; vc_stop_timeout c; vc_ndisks c; vc_nisoes c; vc_nnets c] ++ from_option fbuf_ints [] (vc_fbuf c).

Definition comparable (a b : vm_conf) : Prop := Forall2 (fun x y => is_int (x - y)) (conf_ints a) (conf_ints b).

Lemma comparable_usual a b :
  conf_ranges a -> conf_ranges b -> Forall (fun x => -1 <= x < INT_MAX) (conf_ints a) -> Forall (fun x => -1 <= x < INT_MAX) (conf_ints b) ->
  comparable a b.
Proof.
  intros (A1 & A2 & A3 & _ & _ & A4 & A5 & A6 & fa & Hfa & A7) (B1 & B2 & B3 & _ & _ & B4 & B5 & B6 & fb & Hfb & B7).
  unfold comparable, conf_ints, fbuf_ranges, is_int, INT_MIN, INT_MAX in *. rewrite Hfa, Hfb.
  unfold fbuf_ints. cbn [from_option app]. rewrite !Forall_cons. intros. destruct_and!.
  repeat (apply Forall2_cons; split; [lia |]). constructor.
Qed.

(** A difference that does not fit. *)
Lemma not_comparable a b i x y : conf_ints a !! i = Some x -> conf_ints b !! i = Some y -> ~ is_int (x - y) -> ~ comparable a b.
Proof. intros Hx Hy Hn Hc. by apply Hn, (Forall2_lookup_lr _ _ _ i x y Hc). Qed.

Lemma compare_fbuf_decides V a b :
  (forall i x y, fbuf_ints a !! i = Some x -> fbuf_ints b !! i = Some y -> ~ is_int (x - y) -> V) ->
  decides_or V (compare_fbuf a b) (a = b).
Proof.
  intros Hv. unfold compare_fbuf. eapply decides_or_iff;
    [| repeat first [apply CMP_STR_decides | apply CMP_NUM_decides | apply decides_or_ret]].
  - destruct a, b; cbn. intuition congruence.
  - by apply (Hv 0%nat).
  - by apply (Hv 1%nat).
  - by apply (Hv 2%nat).
  - by apply (Hv 3%nat).
  - by apply (Hv 4%nat).
Qed.

Lemma compare_vm_conf_tail_decides a b :
  decides_or (~ comparable a b) (compare_vm_conf_tail a b)
  ([vc_mouse a; vc_wired_memory a; vc_utctime a; vc_reboot_on_change a; vc_single_user a;
   vc_install a] =
  [vc_mouse b; vc_wired_memory b; vc_utctime b; vc_reboot_on_change b; vc_single_user b;
   vc_install b] /\
  [vc_ndisks a; vc_nisoes a; vc_nnets a] = [vc_ndisks b; vc_nisoes b; vc_nnets b] /\
  (stq_items (vc_passthrues a), stq_items (vc_disks a), stq_items (vc_isoes a)) =
  (stq_items (vc_passthrues b), stq_items (vc_disks b), stq_items (vc_isoes b)) /\
  ((fun n => (n_type n, n_bridge n)) <$> stq_items (vc_nets a)) =
  ((fun n => (n_type n, n_bridge n)) <$> stq_items (vc_nets b)) /\
  stq_items (vc_bhyveload_envs a) = stq_items (vc_bhyveload_envs b) /\
  stq_items (vc_bhyve_envs a) = stq_items (vc_bhyve_envs b)).
Proof.
  eapply decides_or_iff; [| unfold compare_vm_conf_tail; do 6 apply CMP_BOOL_decides;
    apply CMP_NUM_decides; [| apply CMP_NUM_decides; [| apply CMP_NUM_decides; [|
      apply CMP_STAILQ_decides; [apply compare_passthru_conf_decides |];
      apply CMP_STAILQ_decides; [apply compare_disk_conf_decides |];
      apply CMP_STAILQ_decides; [apply compare_iso_conf_decides |];
      apply (CMP_LIST_decides _ compare_net_conf (fun n => (n_type n, n_bridge n))); [apply compare_net_conf_decides |];
      apply CMP_STAILQ_decides; [apply compare_env_decides |];
      apply CMP_STAILQ_decides; [apply compare_env_decides |]; apply decides_or_ret]]]].
  - split; intros Hx; repeat split; try congruence; intuition congruence.
  - by apply (not_comparable _ _ 3).
  - by apply (not_comparable _ _ 4).
  - by apply (not_comparable _ _ 5).
Qed.

Lemma compare_vm_conf_head_decides a b :
  conf_ranges a -> conf_ranges b ->
  decides_or (~ comparable a b) (compare_vm_conf_head a b)
  ([vc_boot_delay a; vc_loader_timeout a; vc_stop_timeout a;
   hostbridge_num (vc_hostbridge a); vc_owner a; vc_group a; boot_num (vc_boot a)] =
  [vc_boot_delay b; vc_loader_timeout b; vc_stop_timeout b;
   hostbridge_num (vc_hostbridge b); vc_owner b; vc_group b; boot_num (vc_boot b)] /\
  [vc_debug_port a; vc_ncpu a; vc_memory a; vc_name a; vc_comport a; vc_loader a;
   vc_loadcmd a; vc_installcmd a; vc_err_logfile a; vc_grub_run_partition a;
   vc_bhyveload_loader a; vc_keymap a] =
  [vc_debug_port b; vc_ncpu b; vc_memory b; vc_name b; vc_comport b; vc_loader b;
   vc_loadcmd b; vc_installcmd b; vc_err_logfile b; vc_grub_run_partition b;
   vc_bhyveload_loader b; vc_keymap b]).
Proof.
  intros (_ & _ & _ & ? & ? & _) (_ & _ & _ & ? & ? & _). eapply decides_or_iff;
    [| unfold compare_vm_conf_head; apply CMP_NUM_decides; [| apply CMP_NUM_decides; [| apply CMP_NUM_decides; [|
       apply CMP_WIDE_decides; [apply hostbridge_eq0 |]; apply CMP_WIDE_decides; [by apply to_int_sub_eq0_uint |];
       apply CMP_WIDE_decides; [by apply group_eq0 |]; do 5 apply CMP_STR_decides;
       apply CMP_WIDE_decides; [apply boot_eq0 |]; do 7 apply CMP_STR_decides; apply decides_or_ret]]]].
  - split.
    + intros Hx. decompose [and] Hx. split; congruence.
    + intros [Hx Hy]. injection Hx as; injection Hy as. repeat split; done.
  - by apply (not_comparable _ _ 0).
  - by apply (not_comparable _ _ 1).
  - by apply (not_comparable _ _ 2).
Qed.

Lemma compare_vm_conf_spec a b :
  conf_ranges a -> conf_ranges b -> decides_or (~ comparable a b) (compare_vm_conf a b) (view a = view b).
Proof.
  intros Ra Rb. pose proof (compare_vm_conf_head_decides a b Ra Rb) as Hh.
  destruct Ra as (_ & _ & _ & _ & _ & _ & _ & _ & fa & Hfa & _), Rb as (_ & _ & _ & _ & _ & _ & _ & _ & fb & Hfb & _).
  assert (Hf : decides_or (~ comparable a b) (compare_fbuf fa fb) (fa = fb)).
  { apply compare_fbuf_decides. intros i x y Hx Hy. apply (not_comparable _ _ (6 + i)); unfold conf_ints; by rewrite ?Hfa, ?Hfb. }
  unfold compare_vm_conf. rewrite Hfa, Hfb.
  eapply decides_or_iff; [| apply decides_or_then; [exact Hh | intros _]; apply decides_or_then; [exact Hf | intros _];
    apply compare_vm_conf_tail_decides].
  unfold view. rewrite Hfa, Hfb. split; [intros Hx; decompose [and] Hx; congruence |].
  intros [= ? ? ? ? ? ? ? ? ? ? ? ? ?]. repeat split; congruence.
Qed.

(** The comparison that decides whether a reload changed a VM answers 0
    exactly when the two configurations agree on everything it is meant to look
    at ([view]); it reads no invalid memory and does not depend on the
    allocator.  The difference of two numbers may overflow when one of them is negative. *)
Theorem compare_vm_conf_eq0 a b :
  conf_ranges a -> conf_ranges b -> decides_or (~ comparable a b) (compare_vm_conf a b) (view a = view b).
Proof. apply compare_vm_conf_spec. Qed.

Ltac solve_ranges :=
  unfold conf_ranges, fbuf_ranges, is_int, is_uint, INT_MIN, INT_MAX;
  split_and!; cbn; try lia; eexists; split; [reflexivity |]; cbn; lia.

Lemma compare_vm_conf_eq0_witness :
  let c := zero_vm_conf <| vc_fbuf := Some {| fb_enable := 0; fb_port := 5900;
             fb_ipaddr := None; fb_vgaconf := None; fb_password := None; fb_width := 1024;
             fb_height := 768; fb_wait := 0 |} |> in
  let c' := c <| vc_group := -1 |> in
  decides_or (~ comparable c c') (compare_vm_conf c c') (view c = view c') /\
  (forall o, compare_vm_conf c c' o = Done 1 o).
Proof.
  intros c c'. split; [| by intros].
  apply (compare_vm_conf_eq0 c c'); solve_ranges.
Defined.

(** ** Creation *)

Lemma default_conf_ranges name i : conf_ranges (default_conf name i).
Proof. solve_ranges. Qed.

Lemma runs_get_id st n : exists i st', runs (get_id st n) (Some i, st').
Proof.
  unfold get_id. destruct (find_id n (id_list st)) as [i |].
  - eexists _, _. apply runs_ret.
  - eexists _, _. steps_runs.
Qed.

Lemma wp_get_id_total st n : wp (get_id st n) (fun _ => True) no_fault.
Proof. unfold get_id. steps_wp; done. Qed.

Lemma wp_create_vm_conf st n :
  wp (create_vm_conf st n)
     (fun p => match p.1 with
               | None => p.2 = st
               | Some c => exists t, c = default_conf n 0 <| vc_vars := {| v_global := None;
                                            v_local := Some t; v_args := None |} |>
               end) no_fault.
Proof.
  unfold create_vm_conf, create_fbuf. steps_wp; try done.
  eapply wp_mono; [apply wp_set_var0 | intros [rc t] _ | done].
  cbn beta iota. apply wp_bind.
  eapply wp_mono; [apply wp_get_id_total | intros [i st'] _ | done].
  cbn beta iota. apply wp_bind.
  eapply (wp_mono _ (fun _ => True)); [| intros [rc' t'] _ | done].
  - destruct i; [eapply wp_mono; [apply wp_set_var0 | done | done] | by apply wp_ret].
  - apply wp_ret. cbn [fst]. by exists t'.
Qed.

Lemma runs_create_vm_conf st n i st' :
  runs (get_id st n) (Some i, st') ->
  runs (create_vm_conf st n) (Some (default_conf n i), st').
Proof.
  intros Hi. unfold create_vm_conf, create_fbuf. steps_runs; [apply runs_set_var0 |].
  cbn beta iota. eapply runs_bind; [exact Hi |]. cbn beta iota.
  eapply runs_bind; [apply runs_set_var0 |]. by apply runs_ret.
Qed.

(** A new VM configuration: with enough memory it is the documented
    default one, with the VM's name and number as the variables [NAME] and
    [ID]; when an allocation fails, either there is no configuration and no
    number is used up, or it is complete but for its variables.  Its numbers
    are in the range of their types and its counters are right. *)
Theorem create_vm_conf_correct st n :
  (exists i st', runs (get_id st n) (Some i, st') /\
     runs (create_vm_conf st n) (Some (default_conf n i), st')) /\
  wp (create_vm_conf st n)
     (fun p => match p.1 with
               | None => p.2 = st
               | Some c => conf_ranges c /\ counts_ok c /\
                           exists t, c = default_conf n 0 <| vc_vars := {| v_global := None;
                                            v_local := Some t; v_args := None |} |>
               end) no_fault.
Proof.
  split.
  - destruct (runs_get_id st n) as (i & st' & Hi). exists i, st'.
    split; [done | by apply runs_create_vm_conf].
  - eapply wp_mono; [apply wp_create_vm_conf | | done]. intros [[c |] st'] H; [| done].
    cbn [fst] in *. destruct H as [t ->]. split; [solve_ranges | split; [done | by exists t]].
Qed.

(** ** String attributes *)

Lemma wp_string_setter (get : vm_conf -> option string)
    (put : option string -> vm_conf -> vm_conf) c v (P : vm_conf -> Prop) :
  put (get c) c = c -> P (put (Some v) c) ->
  wp (null_guard (Some c) (fun c => '(rc, s) ← set_string (get c) v; mret (rc, put s c)))
     (fun p => exists c', p.2 = Some c' /\ ((p.1 = -1 /\ c' = c) \/ (p.1 = 0 /\ P c')))
     no_fault.
Proof.
  intros Hp H0. apply (wp_null_guard c _ (fun q => (q.1 = -1 /\ q.2 = c) \/ (q.1 = 0 /\ P q.2))).
  unfold set_string. steps_wp; [by right | left; by rewrite Hp].
Qed.

(** Every string attribute of a VM is a field of its own: setting one
    either fails and changes nothing, or afterwards this attribute, and only
    this one, reads as the new value.  No setter faults. *)
Theorem string_attrs_laws i j a b c v :
  string_attrs !! i = Some a -> string_attrs !! j = Some b ->
  wp (a_set a (Some c) v)
     (fun p => exists c', p.2 = Some c' /\
        ((p.1 = -1 /\ c' = c) \/
         (p.1 = 0 /\ a_get b c' = if decide (i = j) then Some v else a_get b c)))
     no_fault.
Proof.
  intros Ha Hb.
  assert (Hi : (i < 12)%nat) by (apply lookup_lt_Some in Ha; exact Ha).
  assert (Hj : (j < 12)%nat) by (apply lookup_lt_Some in Hb; exact Hb).
  do 12 (destruct i as [| i];
    [injection Ha as <-; apply wp_string_setter; [by destruct c |]; clear Hi; do 12 (destruct j as [| j]; [by injection Hb as <- |]); lia |]);
  lia.
Qed.

Lemma string_attrs_laws_witness :
  wp (set_loader (Some zero_vm_conf) "grub")
     (fun p => exists c', p.2 = Some c' /\
        ((p.1 = -1 /\ c' = zero_vm_conf) \/ (p.1 = 0 /\ get_loader c' = Some "grub"))) no_fault.
Proof.
  apply (string_attrs_laws 4 4 {| a_set := set_loader; a_get := get_loader |}
           {| a_set := set_loader; a_get := get_loader |} zero_vm_conf "grub"); reflexivity.
Defined.

(** ** Device lists *)

Lemma wp_insert_tail {A} (q : stailq A) x (Q : stailq A -> Prop) F :
  stq_last q = TailOk -> Q {| stq_items := stq_items q ++ [x]; stq_last := TailOk |} ->
  wp (STAILQ_INSERT_TAIL q x) Q F.
Proof. intros Hq H. unfold STAILQ_INSERT_TAIL. rewrite Hq. by apply wp_ret. Qed.

Lemma runs_insert_tail {A} (q : stailq A) x :
  stq_last q = TailOk ->
  runs (STAILQ_INSERT_TAIL q x) {| stq_items := stq_items q ++ [x]; stq_last := TailOk |}.
Proof. intros Hq. unfold STAILQ_INSERT_TAIL. by rewrite Hq. Qed.

Lemma count_snoc {A} n (l : list A) x :
  n = Z.of_nat (length l) -> n + 1 = Z.of_nat (length (l ++ [x])).
Proof. intros ->. rewrite length_app. cbn. lia. Qed.

#[local] Hint Resolve count_snoc : core.

Lemma dev_apply_wf c op :
  tails_ok c -> counts_ok c ->
  wp (dev_apply c op) (fun c' => tails_ok c' /\ counts_ok c') no_fault.
Proof.
  intros Ht Hc. pose proof Ht as (? & ? & ? & ? & ? & ?). pose proof Hc as (? & ? & ? & ? & ? & ?).
  unfold dev_apply. apply wp_bind, wp_at_ptr.
  destruct op; apply (wp_null_guard c _ (fun q => wp (mret q.2) _ no_fault)); steps_wp;
    first [by split | apply wp_insert_tail; [done |]; do 2 apply wp_ret; cbn [snd]; split;
     unfold tails_ok, counts_ok; cbn; split_and!; auto].
Qed.

Lemma dev_apply_lists c op :
  tails_ok c -> counts_ok c ->
  exists c', runs (dev_apply c op) c' /\ dev_lists c' = dev_add op (dev_lists c).
Proof.
  intros (? & ? & ? & ? & ? & ?) _.
  destruct op; eexists; (split;
    [ unfold dev_apply; eapply runs_bind;
      [ apply runs_at_ptr, runs_null_guard; steps_runs; by apply runs_insert_tail
      | apply runs_ret ]
    | reflexivity ]).
Qed.

(** Once the queues are initialised, any sequence of additions to the
    device lists is free of undefined behaviour and keeps the counters equal to
    the lengths of the lists, whatever the allocator does; when no allocation
    fails, every list is the old one followed by what was added to it, in the
    order of the additions. *)
Theorem dev_ops_correct ops c :
  tails_ok c -> counts_ok c ->
  wp (foreach dev_apply ops c) (fun c' => tails_ok c' /\ counts_ok c') no_fault /\
  exists c', runs (foreach dev_apply ops c) c' /\
    dev_lists c' = foldl (fun ls op => dev_add op ls) (dev_lists c) ops.
Proof.
  intros Ht Hc. split.
  - apply wp_foreach; [done |]. intros op c' _ [Ht' Hc']. by apply dev_apply_wf.
  - revert c Ht Hc. induction ops as [| op ops IH]; intros c Ht Hc; cbn [foreach foldl].
    + by exists c.
    + destruct (dev_apply_lists c op Ht Hc) as (c1 & H1 & E1).
      destruct (wp_runs _ _ _ _ (dev_apply_wf c op Ht Hc) H1) as [Ht1 Hc1].
      destruct (IH c1 Ht1 Hc1) as (c2 & H2 & E2). exists c2.
      split; [by eapply runs_bind | by rewrite E2, E1].
Qed.

Lemma dev_ops_correct_witness :
  let c := clear_passthru_conf (default_conf "vm" 0) in
  let ops := [AddDisk "virtio-blk" "/dev/zvol/a"; AddNet "virtio-net" "bridge0";
              AddDisk "nvme" "/dev/zvol/b"; AddPassthru "1/0/0"] in
  wp (foreach dev_apply ops c) (fun c' => tails_ok c' /\ counts_ok c') no_fault /\
  exists c', runs (foreach dev_apply ops c) c' /\
    dev_lists c' = foldl (fun ls op => dev_add op ls) (dev_lists c) ops.
Proof. intros c ops. apply (dev_ops_correct ops c); repeat split. Defined.

(** [create_vm_conf] does not initialise the queue [passthrues]: on
    every configuration that it returns, the first addition to that list
    dereferences NULL. *)
Theorem add_passthru_conf_faults st n o c st' o' devid :
  create_vm_conf st n o = Done (Some c, st') o' ->
  add_passthru_conf (Some c) devid [] = Crash NullDeref.
Proof.
  intros H. pose proof (wp_create_vm_conf st n o) as Hc. rewrite H in Hc. cbn [fst] in Hc.
  destruct Hc as [t ->]. reflexivity.
Qed.

Lemma add_passthru_conf_faults_witness :
  exists c st', create_vm_conf init_ids "vm" [] = Done (Some c, st') [] /\
    add_passthru_conf (Some c) "1/0/0" [] = Crash NullDeref.
Proof.
  eexists _, _. split; [vm_compute; reflexivity |].
  eapply (add_passthru_conf_faults init_ids "vm" []). vm_compute; reflexivity.
Defined.

(** The counters of the devices survive [clear_disk_conf]: a file that
    assigns the only disk a second time gives the same list of disks, but a
    configuration that [compare_vm_conf] tells apart from the first one. *)
Theorem reassigned_disk_differs c type path :
  conf_ranges c -> counts_ok c ->
  stq_items (vc_disks c) = [{| d_type := Some type; d_path := Some path |}] ->
  exists c' rc,
    runs (add_disk_conf (Some (clear_disk_conf c)) type path) (0, Some c') /\
    dev_lists c' = dev_lists c /\
    runs (compare_vm_conf c c') rc /\ rc <> 0.
Proof.
  intros Hr (Hn & _) Hd.
  set (c' := c <| vc_disks := {| stq_items := stq_items (vc_disks c); stq_last := TailOk |} |>
               <| vc_ndisks := vc_ndisks c + 1 |>).
  assert (Hr' : conf_ranges c').
  { destruct Hr as (? & ? & ? & ? & ? & ? & ? & ? & ?). rewrite Hd in Hn. cbn in Hn.
    unfold conf_ranges, is_int, INT_MIN, INT_MAX in *. cbn. split_and!; try tauto; lia. }
  assert (Hc : comparable c c').
  { unfold comparable, conf_ints, c', is_int, INT_MIN, INT_MAX. cbn.
    repeat (apply Forall2_cons; split; [lia |]). apply Forall2_same_length_lookup. split; [done |].
    intros i x y Hx Hy. rewrite Hx in Hy. injection Hy as ->. lia. }
  destruct (compare_vm_conf_spec c c' Hr Hr') as [[[] _] | (rc & Hrc & Hv)]; [done |].
  exists c', rc. split; [| split; [reflexivity | split; [apply Hrc |]]].
  - unfold c'. rewrite Hd. reflexivity.
  - intros E. apply Hv in E. unfold view in E. injection E. cbn. lia.
Qed.

Lemma reassigned_disk_differs_witness :
  let c := default_conf "vm" 0
             <| vc_disks := {| stq_items := [{| d_type := Some "nvme"; d_path := Some "/a" |}];
                               stq_last := TailOk |} |> <| vc_ndisks := 1 |> in
  exists c' rc,
    runs (add_disk_conf (Some (clear_disk_conf c)) "nvme" "/a") (0, Some c') /\
    dev_lists c' = dev_lists c /\
    runs (compare_vm_conf c c') rc /\ rc <> 0.
Proof.
  intros c. apply (reassigned_disk_differs c "nvme" "/a");
    [solve_ranges | repeat split | reflexivity].
Defined.

(** ** The dump *)

Lemma str_app_assoc a b c : (a +:+ b) +:+ c = a +:+ (b +:+ c).
Proof. induction a as [| x a IH]; [done |]. exact (f_equal (String x) IH). Qed.

Lemma btype_word b : tbl btype (boot_num b) = Some (boot_word b).
Proof. by destruct b. Qed.

(** In the output of [bmdctl showconfig] the boot mode appears on one
    line and nowhere else, and the modes appear as [no], [yes], [oneshot] and,
    for a VM that boots always, [install]: the table of the function does not
    follow the enumeration. *)
Theorem dump_vm_conf_boot c f :
  vc_fbuf c = Some f ->
  exists pre suf, forall b o,
    dump_vm_conf (c <| vc_boot := b |>) o
    = Done (pre +:+ fmt "boot" (Some (boot_word b)) +:+ suf) o.
Proof.
  intros Hf. exists (dump_head c), (dump_tail c +:+ dump_fbuf c f). intros b o.
  unfold dump_vm_conf. change (vc_fbuf (c <| vc_boot := b |>)) with (vc_fbuf c). rewrite Hf.
  change (vc_boot (c <| vc_boot := b |>)) with b. rewrite btype_word.
  change (dump_head (c <| vc_boot := b |>)) with (dump_head c).
  change (dump_tail (c <| vc_boot := b |>)) with (dump_tail c).
  change (dump_fbuf (c <| vc_boot := b |>) f) with (dump_fbuf c f).
  unfold mbind, C_bind, deref, mret, C_ret. by rewrite !str_app_assoc.
Qed.

Lemma dump_vm_conf_boot_witness :
  exists pre suf, forall b o,
    dump_vm_conf (default_conf "vm" 0 <| vc_boot := b |>) o
    = Done (pre +:+ fmt "boot" (Some (boot_word b)) +:+ suf) o.
Proof. eapply (dump_vm_conf_boot (default_conf "vm" 0)). reflexivity. Defined.

(** ** The frame buffer *)

(** The state of [enable] after some parameters. *)
Definition enable_state (explicit : option bool) (touched : bool) : Z :=
  match explicit with
  | Some b => c_bool b
  | None => if touched then 1 else -1
  end.

Lemma fb_apply_enable f op explicit touched :
  fb_enable f = enable_state explicit touched ->
  exists f', runs (fb_apply f op) f' /\
    fb_enable f' =
      match op with
      | OpEnable b => enable_state (Some b) touched
      | OpWait _ => enable_state explicit touched
      | _ => enable_state explicit true
      end.
Proof.
  intros Hf.
  assert (Ha : forall g, fb_enable g = fb_enable f ->
                    fb_enable (auto_enable g) = enable_state explicit true).
  { intros g Hg. unfold auto_enable. destruct (Z.ltb_spec (fb_enable g) 0) as [Hl | Hl];
      rewrite Hg, Hf in *; destruct explicit as [[] |], touched; cbn in *; try done; lia. }
  destruct op; eexists; (split; [reflexivity |]); cbn; auto.
Qed.

(** After any sequence of [graphics*] parameters and the final step of
    the parser, the frame buffer is enabled exactly when the last [graphics]
    parameter says so or, without one, when some parameter other than
    [graphics_wait] was given; it starts undecided. *)
Theorem fbuf_enable_correct ops f c :
  fb_enable f = -1 ->
  exists f' c', runs (foreach fb_apply ops f) f' /\
    finalize_vm_conf (Some (c <| vc_fbuf := Some f' |>)) = (0, Some c') /\
    runs (is_fbuf_enable c') (fb_enabled ops None false).
Proof.
  cut (forall explicit touched, fb_enable f = enable_state explicit touched ->
    exists f' c', runs (foreach fb_apply ops f) f' /\
      finalize_vm_conf (Some (c <| vc_fbuf := Some f' |>)) = (0, Some c') /\
      runs (is_fbuf_enable c') (fb_enabled ops explicit touched)); [by eauto |].
  revert f. induction ops as [| op ops IH]; intros f explicit touched Hf.
  - exists f. eexists. split; [apply runs_ret |]. split; [reflexivity |].
    unfold runs, is_fbuf_enable, mbind, C_bind, mret, C_ret. cbn. destruct (Z.ltb_spec (fb_enable f) 0) as [Hl | Hl]; cbn;
      rewrite Hf in *; destruct explicit as [[] |], touched; cbn [enable_state c_bool] in *; try done; try lia;
      by rewrite Hf.
  - destruct (fb_apply_enable f op explicit touched Hf) as (f1 & H1 & E1).
    assert (H : exists f' c', runs (foreach fb_apply ops f1) f' /\
              finalize_vm_conf (Some (c <| vc_fbuf := Some f' |>)) = (0, Some c') /\
              runs (is_fbuf_enable c') (fb_enabled (op :: ops) explicit touched)).
    { destruct op; apply IH; done. }
    destruct H as (f' & c' & H2 & H3). exists f', c'. split; [| exact H3].
    cbn [foreach]. by eapply runs_bind.
Qed.

Lemma fbuf_enable_correct_witness :
  let f := {| fb_enable := -1; fb_port := 5900; fb_ipaddr := None; fb_vgaconf := None;
              fb_password := None; fb_width := 1024; fb_height := 768; fb_wait := 0 |} in
  exists f' c', runs (foreach fb_apply [OpPort 5901; OpWait 1] f) f' /\
    finalize_vm_conf (Some (zero_vm_conf <| vc_fbuf := Some f' |>)) = (0, Some c') /\
    runs (is_fbuf_enable c') true.
Proof.
  intros f. apply (fbuf_enable_correct [OpPort 5901; OpWait 1] f zero_vm_conf). reflexivity.
Defined.
