(* ===== verification/Global.v ===== *)
(** * The global configuration (src/global.c)

    The record of paths and options that the whole daemon shares.  [gl_conf]
    points either to the static [gl_conf0], whose strings are arrays that must
    not be freed, or to a record from [init_gl_conf]; the model keeps that
    distinction in [gl_static]. *)

From S2P Require Import Prelude CString Vars.

Local Open Scope Z_scope.

(** ** Data *)

Record global_conf := {
  g_config_file : option string;
  g_plugin_dir : option string;
  g_vars_dir : option string;
  g_pid_path : option string;
  g_cmd_sock_path : option string;
  g_unix_domain_socket_mode : option string;
  g_nmdm_offset : Z;
  g_foreground : Z;
}.

#[export] Instance eta_global_conf : Eta global_conf := fun g => {|
  g_config_file := g_config_file g;
  g_plugin_dir := g_plugin_dir g;
  g_vars_dir := g_vars_dir g;
  g_pid_path := g_pid_path g;
  g_cmd_sock_path := g_cmd_sock_path g;
  g_unix_domain_socket_mode := g_unix_domain_socket_mode g;
  g_nmdm_offset := g_nmdm_offset g;
  g_foreground := g_foreground g
|}.

Definition DEFAULT_NMDM_OFFSET : Z := 200.

Definition gl_conf0 : global_conf := {|
  g_config_file := Some (LOCALBASE +:+ "/etc/bmd.conf");
  g_plugin_dir := Some (LOCALBASE +:+ "/libexec/bmd");
  g_vars_dir := Some (LOCALBASE +:+ "/var/cache/bmd");
  g_pid_path := Some "/var/run/bmd.pid";
  g_cmd_sock_path := Some "/var/run/bmd.sock";
  g_unix_domain_socket_mode := None;
  g_nmdm_offset := DEFAULT_NMDM_OFFSET;
  g_foreground := 0
|}.

(** [calloc]. *)
Definition zero_global_conf : global_conf := {|
  g_config_file := None;
  g_plugin_dir := None;
  g_vars_dir := None;
  g_pid_path := None;
  g_cmd_sock_path := None;
  g_unix_domain_socket_mode := None;
  g_nmdm_offset := 0;
  g_foreground := 0
|}.

(** The pointer [gl_conf]: what it points to and whether that is [gl_conf0]. *)
Record gl_ptr := { gl_static : bool; gl_val : global_conf }.

Definition gl_start : gl_ptr := {| gl_static := true; gl_val := gl_conf0 |}.

(** ** Operations *)

(** [free_global_conf] on a heap record is silent; on [gl_conf0] it frees
    static memory. *)
Definition free_gl_conf (p : gl_ptr) : C gl_ptr :=
  if gl_static p then crash InvalidFree else mret gl_start.

(** [COPY_ATTR_STRING]: [Some v] is the copy, [None] the jump to [err]. *)
Definition COPY_ATTR_STRING (attr : option string) : C (option (option string)) :=
  match attr with
  | None => mret (Some None)
  | Some s => c ← strdup s; mret (match c with Some c => Some (Some c) | None => None end)
  end.

Definition init_gl_conf (p : gl_ptr) : C (Z * gl_ptr) :=
  t ← malloc;
  if (t : bool) then
    a ← COPY_ATTR_STRING (g_config_file gl_conf0);
    match a with None => mret (-1, p) | Some config_file =>
    a ← COPY_ATTR_STRING (g_pid_path gl_conf0);
    match a with None => mret (-1, p) | Some pid_path =>
    a ← COPY_ATTR_STRING (g_plugin_dir gl_conf0);
    match a with None => mret (-1, p) | Some plugin_dir =>
    a ← COPY_ATTR_STRING (g_vars_dir gl_conf0);
    match a with None => mret (-1, p) | Some vars_dir =>
    a ← COPY_ATTR_STRING (g_cmd_sock_path gl_conf0);
    match a with None => mret (-1, p) | Some cmd_sock_path =>
    a ← COPY_ATTR_STRING (g_unix_domain_socket_mode gl_conf0);
    match a with None => mret (-1, p) | Some mode =>
    mret (0, {| gl_static := false;
                gl_val := {| g_config_file := config_file; g_plugin_dir := plugin_dir;
                             g_vars_dir := vars_dir; g_pid_path := pid_path;
                             g_cmd_sock_path := cmd_sock_path;
                             g_unix_domain_socket_mode := mode;
                             g_nmdm_offset := g_nmdm_offset gl_conf0;
                             g_foreground := g_foreground gl_conf0 |} |})
    end end end end end end
  else mret (-1, p).

(** [REPLACE_STR] and [REPLACE_INT]: the attribute of [*gl_conf] afterwards. *)
Definition REPLACE_STR (static : bool) (old new : option string) : C (option string) :=
  match new with
  | None => mret old
  | Some _ =>
      match old with
      | Some _ => if static then crash InvalidFree else mret new
      | None => mret new
      end
  end.

Definition REPLACE_INT (old new : Z) : Z := if new =? 0 then old else new.

Definition merge_global_conf (p : gl_ptr) (gc : global_conf) : C (Z * gl_ptr) :=
  let st := gl_static p in
  let g := gl_val p in
  config_file ← REPLACE_STR st (g_config_file g) (g_config_file gc);
  pid_path ← REPLACE_STR st (g_pid_path g) (g_pid_path gc);
  plugin_dir ← REPLACE_STR st (g_plugin_dir g) (g_plugin_dir gc);
  vars_dir ← REPLACE_STR st (g_vars_dir g) (g_vars_dir gc);
  cmd_sock_path ← REPLACE_STR st (g_cmd_sock_path g) (g_cmd_sock_path gc);
  mode ← REPLACE_STR st (g_unix_domain_socket_mode g) (g_unix_domain_socket_mode gc);
  mret (0, {| gl_static := st;
              gl_val := {| g_config_file := config_file; g_plugin_dir := plugin_dir;
                           g_vars_dir := vars_dir; g_pid_path := pid_path;
                           g_cmd_sock_path := cmd_sock_path;
                           g_unix_domain_socket_mode := mode;
                           g_nmdm_offset := REPLACE_INT (g_nmdm_offset g) (g_nmdm_offset gc);
                           g_foreground := g_foreground g |} |}).

(** ** Specification *)

(** The string attributes. *)
Definition gl_attrs : list (global_conf -> option string) :=
  [g_config_file; g_pid_path; g_plugin_dir; g_vars_dir; g_cmd_sock_path;
   g_unix_domain_socket_mode].

(** What is known of the daemon's configuration once it started. *)
Definition gl_ready (p : gl_ptr) : Prop :=
  gl_static p = false /\ is_Some (g_config_file (gl_val p)) /\ is_Some (g_pid_path (gl_val p)) /\
  is_Some (g_plugin_dir (gl_val p)) /\ is_Some (g_vars_dir (gl_val p)) /\
  is_Some (g_cmd_sock_path (gl_val p)) /\ g_nmdm_offset (gl_val p) <> 0.

(** ** Theorems *)

Lemma wp_COPY_ATTR_STRING a (Q : option (option string) -> Prop) F :
  Q (Some a) -> Q None -> wp (COPY_ATTR_STRING a) Q F.
Proof. intros H0 H1. unfold COPY_ATTR_STRING. steps_wp; done. Qed.

Lemma wp_init_gl_conf p :
  wp (init_gl_conf p)
     (fun r => (r.1 = 0 /\ r.2 = {| gl_static := false; gl_val := gl_conf0 |}) \/
               (r.1 = -1 /\ r.2 = p)) no_fault.
Proof.
  unfold init_gl_conf. apply wp_bind, wp_malloc. intros []; [| apply wp_ret; by right].
  repeat (apply wp_bind, wp_COPY_ATTR_STRING; [| apply wp_ret; by right]).
  apply wp_ret. by left.
Qed.

Lemma merge_heap p gc :
  gl_static p = false ->
  exists g, (forall o, merge_global_conf p gc o
                  = Done (0, {| gl_static := false; gl_val := g |}) o) /\
    (forall a, In a gl_attrs -> a g = match a gc with Some v => Some v | None => a (gl_val p) end) /\
    g_nmdm_offset g = REPLACE_INT (g_nmdm_offset (gl_val p)) (g_nmdm_offset gc) /\
    g_foreground g = g_foreground (gl_val p).
Proof.
  intros Hs. unfold merge_global_conf. rewrite Hs.
  assert (H : forall old new, REPLACE_STR false old new
                         = mret (match new with Some v => Some v | None => old end)).
  { intros [] []; reflexivity. }
  rewrite !H. eexists. split; [reflexivity |]. split; [| done].
  intros a Ha. repeat (destruct Ha as [<- | Ha]; [reflexivity |]). done.
Qed.

Lemma gl_ready_merge p gc g :
  gl_ready p ->
  (forall a, In a gl_attrs -> a g = match a gc with Some v => Some v | None => a (gl_val p) end) ->
  g_nmdm_offset g = REPLACE_INT (g_nmdm_offset (gl_val p)) (g_nmdm_offset gc) ->
  gl_ready {| gl_static := false; gl_val := g |}.
Proof.
  intros (_ & H1 & H2 & H3 & H4 & H5 & H6) Ha Hn. unfold gl_ready. cbn [gl_static gl_val].
  rewrite !Ha by (cbn; tauto). rewrite Hn. unfold REPLACE_INT.
  split_and!; try (by case_match); [done |]. destruct (Z.eqb_spec (g_nmdm_offset gc) 0); done.
Qed.

Lemma wp_merges gcs p :
  gl_ready p ->
  wp (foreach (fun q gc => '(_, q') ← merge_global_conf q gc; mret q') gcs p)
     (fun q => gl_ready q /\
        forall a, In a gl_attrs ->
          a (gl_val q) = foldl (fun v gc => match a gc with Some w => Some w | None => v end)
                               (a (gl_val p)) gcs)
     no_fault.
Proof.
  revert p. induction gcs as [| gc gcs IH]; intros p Hr; cbn [foreach foldl]; [by apply wp_ret |].
  destruct (merge_heap p gc (proj1 Hr)) as (g & Hm & Ha & Hn & _).
  apply wp_bind, wp_bind. intros o. rewrite Hm. apply wp_ret.
  eapply wp_mono; [apply IH; by eapply gl_ready_merge | | done].
  intros q [Hq E]. split; [done |]. intros a Hin. rewrite (E a Hin). cbn [gl_val].
  by rewrite (Ha a Hin).
Qed.

(** After [init_gl_conf] has succeeded, reading the configuration file
    any number of times is free of undefined behaviour; each time, an attribute
    the file sets gets its new value and the others keep the old one, and the
    paths that the daemon opens are never NULL. *)
Theorem gl_conf_merges p gcs :
  wp (init_gl_conf p)
     (fun r => (r.1 = -1 /\ r.2 = p) \/
        (r.1 = 0 /\
         wp (foreach (fun q gc => '(_, q') ← merge_global_conf q gc; mret q') gcs r.2)
            (fun q => gl_ready q /\
               forall a, In a gl_attrs ->
                 a (gl_val q) = foldl (fun v gc => match a gc with Some w => Some w | None => v end)
                                      (a gl_conf0) gcs)
            no_fault)) no_fault.
Proof.
  eapply wp_mono; [apply wp_init_gl_conf | | done]. intros [rc q] [[-> ->] | [-> ->]]; [| by left].
  right. split; [done |]. cbn [snd].
  apply wp_merges. repeat split; cbn; eauto.
Qed.
