(* ===== verification/MPool.v ===== *)
(** * The parser's memory pool (src/parser.c 26-129, src/confparse.h)

    The configuration files are parsed in child processes that drop their
    privileges; what they build has to survive in the parent, so it lives in
    pools mapped MAP_SHARED.  A pool is a region of [DEFAULT_MMAP_SIZE] bytes:
    a header, the bytes handed out ([data] up to [used]) and the free rest.
    When a child runs out of memory the parent undoes what it allocated,
    maps one more pool and starts the child again.

    Addresses are 64-bit integers; the bytes of the pools are a finite map.
    [mmap] is the argument [m] of [mpool_expand]: the address it returned. *)

From S2P Require Import Prelude CString.
From Stdlib Require Import Ascii.

Local Open Scope Z_scope.

(** ** Data *)

Inductive mpool_error := MPERR_NONE | MPERR_ALLOC | MPERR_FATAL.

Definition mperr_num (e : mpool_error) : Z :=
  match e with MPERR_NONE => 0 | MPERR_ALLOC => 1 | MPERR_FATAL => 2 end.

(** [m_addr] is the address of the structure itself. *)
Record mpool := {
  m_addr : Z;
  m_end : Z;
  m_used : Z;
  m_last_used : Z;
  m_error : mpool_error;
}.

#[export] Instance eta_mpool : Eta mpool := fun m =>
  {| m_addr := m_addr m; m_end := m_end m; m_used := m_used m; m_last_used := m_last_used m;
     m_error := m_error m |}.

Definition PAGE_SIZE : Z := 4096.

Definition DEFAULT_MMAP_SIZE : Z := PAGE_SIZE * 64.

(** [sizeof(struct mpool)], also the offset of [data]. *)
Definition sizeof_mpool : Z := 40.

(** The address that [mmap] returns on failure, [(void * )-1]. *)
Definition MAP_FAILED : Z := 2 ^ 64 - 1.

(** The static list [mpools] and the bytes in the pools. *)
Record pools := { mpools : list mpool; mem : gmap Z ascii }.

#[export] Instance eta_pools : Eta pools := fun p => {| mpools := mpools p; mem := mem p |}.

(** ** Operations *)

(** The result of [mmap] is compared with NULL only, and then written to. *)
Definition mpool_expand (st : pools) (m : Z) : C (Z * pools) :=
  if m =? 0 then mret (-1, st)
  else if m =? MAP_FAILED then crash WildAccess
  else
    let p := {| m_addr := m; m_end := wrap_u 64 (m + DEFAULT_MMAP_SIZE);
                m_used := m + sizeof_mpool; m_last_used := m + sizeof_mpool;
                m_error := MPERR_NONE |} in
    mret (0, st <| mpools := mpools st ++ [p] |>).

Definition mpool_init (st : pools) (m : Z) : C (Z * pools) :=
  mpool_expand (st <| mpools := [] |>) m.

(** [munmap] of every pool. *)
Definition mpool_destroy (st : pools) : pools := {| mpools := []; mem := ∅ |}.

Definition mpool_snapshot (st : pools) : pools :=
  st <| mpools := (fun m => m <| m_last_used := m_used m |> <| m_error := MPERR_NONE |>)
                  <$> mpools st |>.

Definition mpool_rollback (st : pools) : pools :=
  st <| mpools := (fun m => m <| m_used := m_last_used m |>) <$> mpools st |>.

(** The body of the loop of [mpool_get_error]. *)
Definition max_error (e : mpool_error) (m : mpool) : mpool_error :=
  if mperr_num e <? mperr_num (m_error m) then m_error m else e.

Definition mpool_get_error (st : pools) : mpool_error := foldl max_error MPERR_NONE (mpools st).

(** [roundup2(x, 8)] on [size_t]. *)
Definition roundup8 (sz : Z) : Z := Z.land (wrap_u 64 (sz + 7)) (Z.lnot 7).

(** [STAILQ_FIRST(&mpools)->error_number = e]. *)
Definition set_first_error (e : mpool_error) (l : list mpool) : C (list mpool) :=
  match l with
  | [] => crash NullDeref
  | m :: l' => mret (m <| m_error := e |> :: l')
  end.

(** The first pool with [sz] free bytes gives its address away: [None] when
    there is none. *)
Fixpoint take_first (sz : Z) (l : list mpool) : option (Z * list mpool) :=
  match l with
  | [] => None
  | m :: l' =>
      if wrap_u 64 (m_used m + sz) <=? m_end m then
        Some (m_used m, m <| m_used := wrap_u 64 (m_used m + sz) |> :: l')
      else match take_first sz l' with
           | Some (a, l'') => Some (a, m :: l'')
           | None => None
           end
  end.

Definition mpool_alloc (st : pools) (sz : Z) : C (option Z * pools) :=
  let sz := roundup8 sz in
  if DEFAULT_MMAP_SIZE - sizeof_mpool <? sz then
    l ← set_first_error MPERR_FATAL (mpools st); mret (None, st <| mpools := l |>)
  else
    match take_first sz (mpools st) with
    | None => l ← set_first_error MPERR_ALLOC (mpools st); mret (None, st <| mpools := l |>)
    | Some (ret, l) => mret (Some ret, st <| mpools := l |>)
    end.

(** [memcpy(a, s, strlen(s) + 1)]. *)
Fixpoint write_str (a : Z) (s : string) (mm : gmap Z ascii) : gmap Z ascii :=
  match s with
  | EmptyString => <[a := NUL]> mm
  | String c s' => write_str (a + 1) s' (<[a := c]> mm)
  end.

Definition mpool_strdup (st : pools) (p : string) : C (option Z * pools) :=
  let len := Z.of_nat (String.length p) + 1 in
  '(ret, st) ← mpool_alloc st len;
  match ret with
  | None => mret (None, st)
  | Some a => mret (Some a, st <| mem := write_str a p (mem st) |>)
  end.

(** ** Specification *)

(** The string at address [a]. *)
Fixpoint string_at (mm : gmap Z ascii) (a : Z) (s : string) : Prop :=
  match s with
  | EmptyString => mm !! a = Some NUL
  | String c s' => mm !! a = Some c /\ string_at mm (a + 1) s'
  end.

(** A pool lies in user space, is aligned and its pointers are in order. *)
Definition mpool_wf (m : mpool) : Prop :=
  0 < m_addr m /\ m_addr m + 2 * DEFAULT_MMAP_SIZE < 2 ^ 64 /\
  m_end m = m_addr m + DEFAULT_MMAP_SIZE /\
  m_addr m + sizeof_mpool <= m_last_used m <= m_used m /\ m_used m <= m_end m /\
  m_addr m mod 8 = 0 /\ m_used m mod 8 = 0 /\ m_last_used m mod 8 = 0.

Definition disjoint_regions (m m' : mpool) : Prop :=
  m_end m <= m_addr m' \/ m_end m' <= m_addr m.

Definition pools_wf (st : pools) : Prop :=
  Forall mpool_wf (mpools st) /\
  ForallOrdPairs disjoint_regions (mpools st).

(** Address [a] is in memory that was handed out. *)
Definition allocated (l : list mpool) (a : Z) : Prop :=
  exists m, m ∈ l /\ m_addr m + sizeof_mpool <= a < m_used m.

(** What [mmap] promises on success: a page-aligned region in user space that
    overlaps no other mapping. *)
Definition mmap_ok (st : pools) (m : Z) : Prop :=
  0 < m /\ m + 2 * DEFAULT_MMAP_SIZE < 2 ^ 64 /\ m mod PAGE_SIZE = 0 /\
  Forall (fun p => m + DEFAULT_MMAP_SIZE <= m_addr p \/ m_end p <= m) (mpools st).

(** The largest block a pool can hold. *)
Definition mpool_max : Z := DEFAULT_MMAP_SIZE - sizeof_mpool.

(** What one allocation does. *)
Definition alloc_spec (st : pools) (sz : Z) (r : option Z) (st' : pools) : Prop :=
  pools_wf st' /\ mem st' = mem st /\
  match r with
  | None => (forall b, allocated (mpools st') b <-> allocated (mpools st) b) /\
            mperr_num (if mpool_max <? roundup8 sz then MPERR_FATAL else MPERR_ALLOC)
              <= mperr_num (mpool_get_error st')
  | Some a =>
      a mod 8 = 0 /\ (forall b, a <= b < a + sz -> ~ allocated (mpools st) b) /\
      (forall b, allocated (mpools st') b <-> allocated (mpools st) b \/ a <= b < a + roundup8 sz)
  end.

(** ** Lemmas *)

Lemma roundup8_spec sz :
  0 <= sz -> sz + 7 < 2 ^ 64 ->
  sz <= roundup8 sz < sz + 8 /\ roundup8 sz mod 8 = 0.
Proof.
  intros H0 H1. unfold roundup8, wrap_u. rewrite Z.mod_small by lia.
  change (Z.lnot 7) with (Z.lnot (Z.ones 3)). rewrite <- Z.ldiff_land, Z.ldiff_ones_r by lia.
  rewrite Z.shiftl_mul_pow2, Z.shiftr_div_pow2 by lia. change (2 ^ 3) with 8.
  pose proof (Z.div_mod (sz + 7) 8 ltac:(lia)). pose proof (Z.mod_pos_bound (sz + 7) 8 ltac:(lia)).
  split; [lia |]. apply Z.mod_mul. lia.
Qed.

Lemma take_first_spec sz l a l' :
  0 <= sz <= DEFAULT_MMAP_SIZE -> sz mod 8 = 0 -> Forall mpool_wf l ->
  take_first sz l = Some (a, l') ->
  Forall mpool_wf l' /\
  exists l1 m l2, l = l1 ++ m :: l2 /\ l' = l1 ++ m <| m_used := a + sz |> :: l2 /\
    a = m_used m /\ a + sz <= m_end m.
Proof.
  intros Hsz H8 Hwf. revert a l'. induction Hwf as [| m l Hm Hwf IH]; intros a l'; cbn; [done |].
  assert (E : wrap_u 64 (m_used m + sz) = m_used m + sz).
  { apply Z.mod_small. unfold mpool_wf, sizeof_mpool in Hm. lia. }
  rewrite E. destruct (Z.leb_spec (m_used m + sz) (m_end m)) as [Hle | Hgt].
  - intros [= <- <-]. split.
    + constructor; [| done]. unfold mpool_wf in *. cbn.
      rewrite Z.add_mod, H8 by lia. destruct Hm as (? & ? & ? & ? & ? & ? & -> & ?).
      split_and!; try done; lia.
    + by exists [], m, l.
  - destruct (take_first sz l) as [[b l2] |] eqn:Et; [| done]. intros [= <- <-].
    destruct (IH b l2 eq_refl) as (Hw & l1 & n & l3 & -> & -> & H1 & H2).
    split; [by constructor |]. by exists (m :: l1), n, l3.
Qed.

Lemma allocated_take l1 m l2 a sz b :
  a = m_used m -> 0 <= sz -> m_addr m + sizeof_mpool <= m_used m ->
  allocated (l1 ++ m <| m_used := a + sz |> :: l2) b <->
  allocated (l1 ++ m :: l2) b \/ a <= b < a + sz.
Proof.
  intros -> Hsz Hm. unfold allocated. setoid_rewrite elem_of_app. setoid_rewrite elem_of_cons.
  split.
  - intros (n & [Hn | [-> | Hn]] & Hb); cbn in *.
    + left. exists n. tauto.
    + destruct (Z.lt_ge_cases b (m_used m)); [left; exists m; split; [tauto | lia] | right; lia].
    + left. exists n. tauto.
  - intros [(n & [Hn | [-> | Hn]] & Hb) | Hb].
    + exists n. tauto.
    + eexists. split; [right; left; reflexivity |]. cbn. lia.
    + exists n. tauto.
    + eexists. split; [right; left; reflexivity |]. cbn. lia.
Qed.

Lemma disjoint_upd l1 m l2 u :
  ForallOrdPairs disjoint_regions (l1 ++ m :: l2) ->
  ForallOrdPairs disjoint_regions (l1 ++ m <| m_used := u |> :: l2).
Proof.
  induction l1 as [| n l1 IH]; cbn; intros H; inversion H as [| ? ? H1 H2]; subst;
    constructor; auto.
  rewrite Forall_app, Forall_cons in H1 |- *. exact H1.
Qed.

(** A pool's unused part is not allocated memory of any pool. *)
Lemma unused_not_allocated l1 m l2 b :
  Forall mpool_wf (l1 ++ m :: l2) -> ForallOrdPairs disjoint_regions (l1 ++ m :: l2) ->
  m_used m <= b < m_end m -> ~ allocated (l1 ++ m :: l2) b.
Proof.
  intros Hwf Hd Hb (n & Hn & Hr).
  assert (Hm : mpool_wf m) by (rewrite Forall_app, Forall_cons in Hwf; tauto).
  rewrite Forall_forall in Hwf. pose proof (Hwf n Hn) as Hnw.
  assert (Hcase : n = m \/ disjoint_regions n m \/ disjoint_regions m n).
  { clear Hwf Hm Hnw Hb Hr. revert Hn Hd. induction l1 as [| k l1 IH]; cbn; intros Hn Hd;
      inversion Hd as [| ? ? H1 H2]; subst; rewrite Forall_forall in H1;
      apply elem_of_cons in Hn as [-> | Hn]; auto.
    right; left. apply H1. apply elem_of_app. right. apply elem_of_cons. by left. }
  unfold mpool_wf, disjoint_regions, sizeof_mpool in *.
  destruct Hcase as [-> | [[|] | [|]]]; lia.
Qed.


Lemma max_error_ge e m :
  mperr_num e <= mperr_num (max_error e m) /\ mperr_num (m_error m) <= mperr_num (max_error e m).
Proof.
  unfold max_error. destruct (Z.ltb_spec (mperr_num e) (mperr_num (m_error m))); lia.
Qed.

Lemma foldl_max_error_ge l e : mperr_num e <= mperr_num (foldl max_error e l).
Proof.
  revert e. induction l as [| m l IH]; intros e; cbn [foldl]; [lia |].
  pose proof (max_error_ge e m). specialize (IH (max_error e m)). lia.
Qed.

Lemma get_error_ge l mm m :
  m ∈ l -> mperr_num (m_error m) <= mperr_num (mpool_get_error {| mpools := l; mem := mm |}).
Proof.
  unfold mpool_get_error. cbn [mpools]. generalize MPERR_NONE.
  induction l as [| n l IH]; intros e Hm; [by apply not_elem_of_nil in Hm |]. cbn [foldl].
  apply elem_of_cons in Hm as [-> | Hm]; [| by apply IH].
  pose proof (max_error_ge e n). pose proof (foldl_max_error_ge l (max_error e n)). lia.
Qed.

Lemma set_first_error_wf e l mm :
  l <> [] -> Forall mpool_wf l -> ForallOrdPairs disjoint_regions l ->
  exists l', (forall o, set_first_error e l o = Done l' o) /\
    pools_wf {| mpools := l'; mem := mm |} /\
    (forall b, allocated l' b <-> allocated l b) /\
    mperr_num e <= mperr_num (mpool_get_error {| mpools := l'; mem := mm |}).
Proof.
  intros Hne Hwf Hd. destruct l as [| m l]; [done |]. eexists. split; [reflexivity |].
  split; [| split].
  - split; cbn [mpools].
    + by inversion Hwf; constructor.
    + inversion Hd as [| ? ? H1 H2]; subst. by constructor.
  - intros b. unfold allocated. setoid_rewrite elem_of_cons. split.
    + intros (n & [-> | Hn] & Hb); [exists m | exists n]; tauto.
    + intros (n & [-> | Hn] & Hb); [eexists; split; [left; reflexivity | done] | exists n; tauto].
  - change e with (m_error (m <| m_error := e |>)) at 1.
    apply (get_error_ge (m <| m_error := e |> :: l) mm (m <| m_error := e |>)).
    apply elem_of_cons. by left.
Qed.

Lemma mpool_alloc_spec st sz :
  pools_wf st -> mpools st <> [] -> 0 <= sz -> sz + 7 < 2 ^ 64 ->
  exists r st', (forall o, mpool_alloc st sz o = Done (r, st') o) /\ alloc_spec st sz r st'.
Proof.
  intros [Hwf Hd] Hne H0 H1. destruct (roundup8_spec sz H0 H1) as [Hr H8].
  unfold mpool_alloc, alloc_spec, mpool_max. cbn zeta.
  destruct (Z.ltb_spec (DEFAULT_MMAP_SIZE - sizeof_mpool) (roundup8 sz)) as [Hbig | Hok].
  - destruct (set_first_error_wf MPERR_FATAL (mpools st) (mem st) Hne Hwf Hd)
      as (l' & Hl & Hw & Ha & He).
    eexists None, _. split; [intros o; unfold mbind, C_bind; by rewrite Hl |]. done.
  - assert (Hsz : 0 <= roundup8 sz <= DEFAULT_MMAP_SIZE) by (unfold sizeof_mpool in Hok; lia).
    destruct (take_first (roundup8 sz) (mpools st)) as [[a l] |] eqn:Et.
    + destruct (take_first_spec _ _ _ _ Hsz H8 Hwf Et) as (Hw & l1 & m & l2 & E & -> & Ha & Hend).
      eexists (Some a), _. split; [reflexivity |]. cbn [mpools mem].
      rewrite E in *. assert (Hm : mpool_wf m) by (rewrite Forall_app, Forall_cons in Hwf; tauto).
      split; [split; [done | by apply disjoint_upd] |]. split; [done |].
      split; [subst a; apply Hm |]. split.
      * intros b Hb. apply unused_not_allocated; [done | done | lia].
      * intros b. apply allocated_take; [done | lia | unfold mpool_wf in Hm; lia].
    + destruct (set_first_error_wf MPERR_ALLOC (mpools st) (mem st) Hne Hwf Hd)
        as (l' & Hl & Hw & Ha & He).
      eexists None, _. split; [intros o; unfold mbind, C_bind; by rewrite Hl |]. done.
Qed.

(** ** Theorems *)

(** [C31] As long as a pool exists, [mpool_alloc] never faults.  It returns
    either NULL, with the reason recorded for the parent (a request that no
    pool could ever hold, or a lack of free memory), or the address of an
    8-aligned block of at least the requested size that overlaps nothing
    handed out before; the pools stay well-formed. *)
Theorem mpool_alloc_correct st sz :
  pools_wf st -> mpools st <> [] -> 0 <= sz -> sz + 7 < 2 ^ 64 ->
  exists r st', (forall o, mpool_alloc st sz o = Done (r, st') o) /\ alloc_spec st sz r st'.
Proof. apply mpool_alloc_spec. Qed.

(** ** Rollback *)

(** The allocations of a child, in order; the results are dropped. *)
Definition alloc_all (sizes : list Z) (st : pools) : C pools :=
  foreach (fun st sz => '(_, st') ← mpool_alloc st sz; mret st') sizes st.

(** Everything of the pools but the recorded errors and [used]. *)
Definition pool_bases (st : pools) : list (Z * Z * Z) :=
  (fun m => (m_addr m, m_end m, m_last_used m)) <$> mpools st.

Lemma take_first_bases sz l a l' :
  take_first sz l = Some (a, l') ->
  (fun m => (m_addr m, m_end m, m_last_used m)) <$> l'
  = (fun m => (m_addr m, m_end m, m_last_used m)) <$> l.
Proof.
  revert a l'. induction l as [| m l IH]; intros a l'; cbn [take_first]; [done |].
  destruct (wrap_u 64 (m_used m + sz) <=? m_end m); [by intros [= <- <-] |].
  destruct (take_first sz l) as [[b l2] |]; [| done]. intros [= <- <-].
  rewrite !fmap_cons. f_equal. by eapply IH.
Qed.

Lemma mpool_alloc_bases st sz :
  mpools st <> [] ->
  wp (mpool_alloc st sz)
     (fun p => pool_bases p.2 = pool_bases st /\ mpools p.2 <> [] /\ mem p.2 = mem st) no_fault.
Proof.
  intros Hne. unfold mpool_alloc. cbn zeta. destruct (mpools st) as [| m l] eqn:E; [done |].
  destruct (DEFAULT_MMAP_SIZE - sizeof_mpool <? roundup8 sz).
  - apply wp_bind, wp_ret, wp_ret. unfold pool_bases. by rewrite E.
  - destruct (take_first (roundup8 sz) (m :: l)) as [[a l'] |] eqn:Et.
    + apply wp_ret. pose proof (take_first_bases _ _ _ _ Et) as Hb. unfold pool_bases.
      rewrite E. split; [done |]. split; [by destruct l' | done].
    + apply wp_bind, wp_ret, wp_ret. unfold pool_bases. by rewrite E.
Qed.

(** Whatever a child allocates after [mpool_snapshot], [mpool_rollback]
    brings every pool back to what it was at the snapshot, but for the recorded
    errors. *)
Theorem mpool_rollback_correct st sizes :
  mpools st <> [] ->
  wp (alloc_all sizes (mpool_snapshot st))
     (fun st' => (fun m => m <| m_error := MPERR_NONE |>) <$> mpools (mpool_rollback st')
                 = mpools (mpool_snapshot st)) no_fault.
Proof.
  intros Hne. unfold alloc_all.
  eapply wp_mono; [apply (wp_foreach _ _ (fun st' => pool_bases st' = pool_bases (mpool_snapshot st)
                                            /\ mpools st' <> [])) | | done].
  - split; [done |]. cbn. by destruct (mpools st).
  - intros sz st' _ [Hb Hn]. apply wp_bind. eapply wp_mono; [by apply mpool_alloc_bases | | done].
    intros [r st''] (Hb' & Hn' & _). apply wp_ret. cbn in *. by rewrite Hb'.
  - intros st' [Hb _]. unfold pool_bases in Hb. cbn in Hb |- *.
    rewrite <- list_fmap_compose in Hb |- *. clear Hne.
    revert Hb. generalize (mpools st) as l. induction (mpools st') as [| m l' IH];
      intros [| n l] Hb; try done.
    destruct m, n. injection Hb as E1 E2 E3 Hb. cbn in E1, E2, E3. subst.
    cbn. f_equal. by apply IH.
Qed.

(** ** Expansion *)

Lemma mpool_expand_wf st m :
  pools_wf st -> mmap_ok st m ->
  exists st', (forall o, mpool_expand st m o = Done (0, st') o) /\ pools_wf st' /\
    (forall b, allocated (mpools st') b <-> allocated (mpools st) b) /\
    exists p, mpools st' = mpools st ++ [p] /\ m_used p = m_addr p + sizeof_mpool.
Proof.
  intros [Hwf Hd] (H0 & H1 & H2 & H3). unfold mpool_expand.
  assert (m mod 8 = 0).
  { apply Z.mod_divide; [lia |]. apply Z.mod_divide in H2 as [k ->]; [| done].
    exists (k * 512). unfold PAGE_SIZE. lia. }
  assert (E8 : (m + sizeof_mpool) mod 8 = 0) by (unfold sizeof_mpool; rewrite Z.add_mod by lia;
    replace (m mod 8) with 0 by lia; reflexivity).
  unfold DEFAULT_MMAP_SIZE, PAGE_SIZE in *.
  destruct (Z.eqb_spec m 0); [lia |]. destruct (Z.eqb_spec m MAP_FAILED); [unfold MAP_FAILED in *; lia |].
  assert (Ew : wrap_u 64 (m + 4096 * 64) = m + 4096 * 64) by (apply Z.mod_small; lia).
  eexists. split; [reflexivity |]. cbn [mpools]. split; [split; cbn [mpools] | split].
  - apply Forall_app. split; [done |]. constructor; [| constructor].
    unfold mpool_wf, DEFAULT_MMAP_SIZE, PAGE_SIZE, sizeof_mpool in *. cbn [m_addr m_end m_used m_last_used].
    rewrite Ew. split_and!; try done; lia.
  - clear H1 E8 H2. induction (mpools st) as [| q l IH]; cbn; [by repeat constructor |].
    inversion Hd as [| ? ? Hd1 Hd2]; subst. inversion H3 as [| ? ? Hq Hl]; subst.
    inversion Hwf as [| ? ? Hw Hws]; subst. constructor; [| by apply IH].
    apply Forall_app. split; [done |]. constructor; [| constructor].
    unfold disjoint_regions. cbn [m_addr m_end]. rewrite Ew. lia.
  - intros b. unfold allocated. setoid_rewrite elem_of_app. split.
    + intros (q & [Hq | Hq] & Hb); [by exists q |]. apply list_elem_of_singleton in Hq as ->.
      cbn in Hb. unfold sizeof_mpool in *. lia.
    + intros (q & Hq & Hb). exists q. tauto.
  - eexists. split; reflexivity.
Qed.

Lemma take_first_last sz l p :
  0 <= sz -> sz <= mpool_max -> m_used p = m_addr p + sizeof_mpool -> mpool_wf p ->
  exists a l', take_first sz (l ++ [p]) = Some (a, l').
Proof.
  intros H0 Hs Hu Hp. induction l as [| m l (a & l' & IH)]; cbn [app take_first].
  - assert (E : wrap_u 64 (m_used p + sz) = m_used p + sz).
    { apply Z.mod_small. unfold mpool_wf, mpool_max, sizeof_mpool in *. lia. }
    rewrite E. destruct (Z.leb_spec (m_used p + sz) (m_end p)); [by eauto |].
    unfold mpool_wf, mpool_max, sizeof_mpool in *. lia.
  - destruct (wrap_u 64 (m_used m + sz) <=? m_end m); [by eauto |]. rewrite IH. eauto.
Qed.

(** When [mmap] succeeds, [mpool_expand] adds a pool, disturbs nothing
    that was handed out, and the allocation that failed for lack of memory
    succeeds now: a request of up to 262104 bytes never fails right after it,
    so the child's second attempt gets further than its first. *)
Theorem mpool_expand_progress st m sz :
  pools_wf st -> mmap_ok st m -> 0 <= sz <= mpool_max ->
  exists st' a st'', (forall o, mpool_expand st m o = Done (0, st') o) /\ pools_wf st' /\
    (forall b, allocated (mpools st') b <-> allocated (mpools st) b) /\
    (forall o, mpool_alloc st' sz o = Done (Some a, st'') o).
Proof.
  intros Hwf Hm Hsz. destruct (mpool_expand_wf st m Hwf Hm) as (st' & He & Hw & Ha & p & Hp & Hu).
  unfold mpool_max, DEFAULT_MMAP_SIZE, PAGE_SIZE, sizeof_mpool in Hsz.
  destruct (roundup8_spec sz ltac:(lia) ltac:(lia)) as [Hr H8].
  assert (Hmax : roundup8 sz <= mpool_max).
  { unfold mpool_max, DEFAULT_MMAP_SIZE, PAGE_SIZE, sizeof_mpool.
    apply Z.mod_divide in H8 as [k Hk]; lia. }
  destruct (take_first_last (roundup8 sz) (mpools st) p) as (a & l & Ht); [lia | done | done | |].
  { destruct Hw as [Hw _]. rewrite Hp, Forall_app, Forall_cons in Hw. tauto. }
  exists st', a. eexists. split; [done |]. split; [done |]. split; [done |].
  intros o. unfold mpool_alloc. cbn zeta. rewrite Hp, Ht.
  destruct (Z.ltb_spec (DEFAULT_MMAP_SIZE - sizeof_mpool) (roundup8 sz)) as [Hb | Hb];
    [unfold mpool_max in Hmax; lia | reflexivity].
Qed.

(** ** Strings *)

Lemma write_str_out s : forall a mm b,
  ~ (a <= b <= a + Z.of_nat (String.length s)) -> write_str a s mm !! b = mm !! b.
Proof.
  induction s as [| c s IH]; intros a mm b Hb; cbn [write_str String.length] in *.
  - apply lookup_insert_ne. lia.
  - rewrite IH by lia. apply lookup_insert_ne. lia.
Qed.

Lemma write_str_at s : forall a mm, string_at (write_str a s mm) a s.
Proof.
  induction s as [| c s IH]; intros a mm; cbn [write_str string_at].
  - apply lookup_insert_eq.
  - split; [| apply IH]. rewrite write_str_out by lia. apply lookup_insert_eq.
Qed.

Lemma string_at_ext s : forall a mm mm',
  (forall b, a <= b <= a + Z.of_nat (String.length s) -> mm' !! b = mm !! b) ->
  string_at mm a s -> string_at mm' a s.
Proof.
  induction s as [| c s IH]; intros a mm mm' H; cbn [string_at String.length] in *.
  - rewrite H by lia. done.
  - intros [H1 H2]. split; [rewrite H by lia; done |]. eapply IH; [| exact H2].
    intros b Hb. apply H. lia.
Qed.

(** [mpool_strdup] returns NULL or the address of a copy of its argument
    in memory handed out by this call, and every string copied before is still
    there afterwards. *)
Theorem mpool_strdup_correct st p :
  pools_wf st -> mpools st <> [] -> Z.of_nat (String.length p) + 8 < 2 ^ 64 ->
  exists r st', (forall o, mpool_strdup st p o = Done (r, st') o) /\ pools_wf st' /\
    (forall a, r = Some a ->
       string_at (mem st') a p /\
       forall b, a <= b <= a + Z.of_nat (String.length p) ->
            allocated (mpools st') b /\ ~ allocated (mpools st) b) /\
    (forall a s, (forall b, a <= b <= a + Z.of_nat (String.length s) -> allocated (mpools st) b) ->
            string_at (mem st) a s ->
            string_at (mem st') a s /\
            forall b, a <= b <= a + Z.of_nat (String.length s) -> allocated (mpools st') b).
Proof.
  intros Hwf Hne Hlen. set (len := Z.of_nat (String.length p) + 1).
  destruct (mpool_alloc_spec st len Hwf Hne ltac:(lia) ltac:(lia)) as (r & st1 & Ha & Hs).
  destruct (roundup8_spec len ltac:(lia) ltac:(lia)) as [Hr _].
  destruct Hs as (Hw & Hm & Hs). destruct r as [a |].
  - destruct Hs as (_ & Hfresh & Hall). eexists (Some a), _.
    split; [intros o; unfold mpool_strdup, mbind, C_bind; fold len; by rewrite Ha |].
    split; [done |]. cbn [mem mpools]. split.
    + intros b [= <-]. split; [apply write_str_at |]. intros b Hb.
      split; [apply Hall; lia | apply Hfresh; lia].
    + intros b s Hb Hsat. split; [| intros x Hx; apply Hall; auto].
      eapply string_at_ext; [| exact Hsat]. intros x Hx. rewrite Hm.
      apply write_str_out. intros Hx'. apply (Hfresh x); [lia | auto].
  - destruct Hs as [Hall _]. exists None, st1.
    split; [intros o; unfold mpool_strdup, mbind, C_bind; fold len; by rewrite Ha |].
    split; [done |]. split; [done |]. intros b s Hb Hsat. rewrite Hm.
    split; [done |]. intros x Hx. apply Hall. auto.
Qed.

(** ** A run of the pool *)

(** One pool at address 0x10000. *)
Definition one_pool : pools :=
  {| mpools := [{| m_addr := 65536; m_end := 327680; m_used := 65576; m_last_used := 65576;
                   m_error := MPERR_NONE |}]; mem := ∅ |}.

Lemma one_pool_init o :
  mpool_init {| mpools := []; mem := ∅ |} 65536 o = Done (0, one_pool) o.
Proof. reflexivity. Qed.

Lemma one_pool_wf : pools_wf one_pool.
Proof.
  split; [| by repeat constructor]. constructor; [| constructor].
  unfold mpool_wf. split_and!; done.
Qed.

Lemma mpool_alloc_correct_witness :
  exists r st', (forall o, mpool_alloc one_pool 13 o = Done (r, st') o) /\
    alloc_spec one_pool 13 r st' /\ r = Some 65576.
Proof.
  destruct (mpool_alloc_correct one_pool 13 one_pool_wf) as (r & st' & H & Hs);
    [done | lia | lia |].
  exists r, st'. split; [done |]. split; [done |]. specialize (H []). cbv in H. congruence.
Defined.

Lemma mpool_rollback_correct_witness :
  wp (alloc_all [100; 300000; 24] (mpool_snapshot one_pool))
     (fun st' => (fun m => m <| m_error := MPERR_NONE |>) <$> mpools (mpool_rollback st')
                 = mpools (mpool_snapshot one_pool)) no_fault.
Proof. apply (mpool_rollback_correct one_pool [100; 300000; 24]). done. Defined.

Lemma mpool_expand_progress_witness :
  exists st' a st'', (forall o, mpool_expand one_pool 1048576 o = Done (0, st') o) /\
    pools_wf st' /\
    (forall b, allocated (mpools st') b <-> allocated (mpools one_pool) b) /\
    (forall o, mpool_alloc st' 262104 o = Done (Some a, st'') o).
Proof.
  apply (mpool_expand_progress one_pool 1048576 262104); [apply one_pool_wf | | done].
  split; [lia |]. split; [done |]. split; [done |]. constructor; [by right | constructor].
Defined.

Lemma mpool_strdup_correct_witness :
  exists r st', (forall o, mpool_strdup one_pool "/etc/bmd.conf" o = Done (r, st') o) /\
    pools_wf st' /\
    (forall a, r = Some a ->
       string_at (mem st') a "/etc/bmd.conf" /\
       forall b, a <= b <= a + Z.of_nat (String.length "/etc/bmd.conf") ->
            allocated (mpools st') b /\ ~ allocated (mpools one_pool) b) /\
    (forall a s, (forall b, a <= b <= a + Z.of_nat (String.length s) ->
                       allocated (mpools one_pool) b) ->
            string_at (mem one_pool) a s ->
            string_at (mem st') a s /\
            forall b, a <= b <= a + Z.of_nat (String.length s) -> allocated (mpools st') b).
Proof.
  apply (mpool_strdup_correct one_pool "/etc/bmd.conf"); [apply one_pool_wf | done | done].
Defined.

(** [mmap] reports a failure as [MAP_FAILED], which [mpool_expand] does
    not test for: it writes through that address. *)
Lemma mpool_expand_map_failed st o : mpool_expand st MAP_FAILED o = Crash WildAccess.
Proof. reflexivity. Qed.
