(* ===== verification/Plugin.v ===== *)
(** * Plugins (src/bmd.c 762-988, src/bmd.h, src/bmd_plugin.h)

    The list of loaded plugins and the data each VM configuration keeps for
    them.  A plugin is a shared object; its functions are not part of this
    program: [parse_config] is a function of the description record, and
    [initialize] the number it returned.  A plugin's configuration is an
    [nvlist_t] of libnv, the abstract type [NV] with the value [nv_empty] of
    [nvlist_create(0)]. *)

From S2P Require Import Prelude CString.
From Stdlib Require Import Ascii.

Local Open Scope Z_scope.

(** ** Data *)

Record vm_method := { m_name : string }.

Definition PLUGIN_VERSION : Z := 12.

(** The members that the operations below use. *)
Record plugin_desc (NV : Type) := {
  pl_version : Z;
  pl_name : string;
  pl_initialize : option Z;
  pl_parse_config : option (NV -> string -> string -> Z * NV);
  pl_method : option vm_method;
}.
Arguments pl_version {NV} p.
Arguments pl_name {NV} p.
Arguments pl_initialize {NV} p.
Arguments pl_parse_config {NV} p.
Arguments pl_method {NV} p.
Arguments Build_plugin_desc {NV} _ _ _ _ _.

Record plugin_data (NV : Type) := { pd_desc : plugin_desc NV; pd_conf : NV }.
Arguments pd_desc {NV} p.
Arguments pd_conf {NV} p.
Arguments Build_plugin_data {NV} _ _.

(** The pointer [pl_conf] of a [struct vm_entry], which points into the data of one plugin: the one at place
    [i] of the configuration that [vm.conf] points to, one of a configuration that the VM has no longer but
    that is allocated still, or one that was freed. *)
Inductive pl_ref (NV : Type) := PlData (i : nat) | PlOld (nv : NV) | PlFreed.
Arguments PlData {NV} i.
Arguments PlOld {NV} nv.
Arguments PlFreed {NV}.

(** What it points to, when the configuration of the VM has the data [pl_data]; [None] after it was freed. *)
Definition pl_target {NV} (pl_data : list (plugin_data NV)) (p : pl_ref NV) : option NV :=
  match p with
  | PlData i => pd_conf <$> pl_data !! i
  | PlOld nv => Some nv
  | PlFreed => None
  end.

(** The VM gets another configuration. *)
Definition pl_left {NV} (pl_data : list (plugin_data NV)) (p : pl_ref NV) : pl_ref NV :=
  match pl_target pl_data p with Some nv => PlOld nv | None => PlFreed end.

(** The configurations that VMs have no longer are freed. *)
Definition pl_freed {NV} (p : pl_ref NV) : pl_ref NV :=
  match p with PlOld _ => PlFreed | _ => p end.

(** The static list [plugin_list] and the static counter of [load_plugins]. *)
Record plugins (NV : Type) := { plugin_list : list (plugin_desc NV); loaded : Z }.
Arguments plugin_list {NV} p.
Arguments loaded {NV} p.
Arguments Build_plugins {NV} _ _.

(** An entry of the plugin directory: its name, and what opening it as a shared
    object and looking up [plugin_desc] gives. *)
Record dir_entry (NV : Type) := { de_name : string; de_desc : option (plugin_desc NV) }.
Arguments de_name {NV} d.
Arguments de_desc {NV} d.

Section plugin.
Context {NV : Type} (nv_empty : NV).

(** ** Loading *)

Definition add_plugin (st : plugins NV) (d : dir_entry NV) : C (Z * plugins NV) :=
  match de_desc d with
  | None => mret (-1, st)
  | Some desc =>
      if negb (pl_version desc =? PLUGIN_VERSION) then mret (-1, st)
      else
        ok ← malloc;
        if negb ok then mret (-1, st)
        else if match pl_initialize desc with Some rc => rc <? 0 | None => false end
        then mret (-1, st)
        else mret (0, {| plugin_list := desc :: plugin_list st; loaded := loaded st |})
  end.

(** The built-in backend. *)
Definition bhyve_desc : plugin_desc NV :=
  {| pl_version := 0; pl_name := "bhyve"; pl_initialize := None; pl_parse_config := None;
     pl_method := Some {| m_name := "bhyve" |} |}.

(** Which names of the directory are plugins. *)
Definition is_plugin_name (n : string) : bool :=
  negb ((Z.of_nat (String.length n) <? 4) || Ascii.eqb (char_at n 0) "."
        || negb (strcmp (drop_str (String.length n - 3) n) ".so" =? 0)).

(** [dir] is the contents of the directory, [None] when it cannot be opened. *)
Definition load_plugins (st : plugins NV) (dir : option (list (dir_entry NV)))
    : C (Z * plugins NV) :=
  if negb (loaded st =? 0) then mret (0, st)
  else
    ok ← malloc;
    if negb ok then mret (-1, st)
    else
      let st := {| plugin_list := bhyve_desc :: plugin_list st; loaded := loaded st |} in
      match dir with
      | None => mret (-1, st)
      | Some ents =>
          st ← foreach (fun st ent =>
                 if is_plugin_name (de_name ent) then
                   '(rc, st) ← add_plugin st ent;
                   mret (if 0 <=? rc then {| plugin_list := plugin_list st;
                                             loaded := loaded st + 1 |} else st)
                 else mret st) ents st;
          mret (0, st)
      end.

Definition remove_plugins (st : plugins NV) : Z * plugins NV :=
  (0, {| plugin_list := []; loaded := loaded st |}).

(** ** The data of a VM *)

Definition free_plugin_data (head : list (plugin_data NV)) : list (plugin_data NV) := [].

(** The loop over the remaining plugins with the data made so far. *)
Fixpoint create_plugin_data_loop (pls : list (plugin_desc NV)) (head : list (plugin_data NV))
    : C (Z * list (plugin_data NV)) :=
  match pls with
  | [] => mret (0, head)
  | pl :: pls' =>
      pld ← malloc;
      if negb pld then mret (-1, free_plugin_data head)
      else
        nv ← malloc;
        if negb nv then mret (-1, free_plugin_data head)
        else create_plugin_data_loop pls' ({| pd_desc := pl; pd_conf := nv_empty |} :: head)
  end.

Definition create_plugin_data (st : plugins NV) : C (Z * list (plugin_data NV)) :=
  create_plugin_data_loop (plugin_list st) [].

Fixpoint call_plugin_parser (head : list (plugin_data NV)) (key val : string)
    : Z * list (plugin_data NV) :=
  match head with
  | [] => (1, [])
  | pd :: head' =>
      match pl_parse_config (pd_desc pd) with
      | None => let '(rc, h) := call_plugin_parser head' key val in (rc, pd :: h)
      | Some f =>
          let '(rc, nv) := f (pd_conf pd) key val in
          let pd' := {| pd_desc := pd_desc pd; pd_conf := nv |} in
          if rc <=? 0 then (rc, pd' :: head')
          else let '(rc, h) := call_plugin_parser head' key val in (rc, pd' :: h)
      end
  end.

(** ** Backends *)

Fixpoint vm_method_exists_in (pls : list (plugin_desc NV)) (name : string) : Z :=
  match pls with
  | [] => -1
  | pl :: pls' =>
      match pl_method pl with
      | Some m => if strcmp (m_name m) name =? 0 then 0 else vm_method_exists_in pls' name
      | None => vm_method_exists_in pls' name
      end
  end.

Definition vm_method_exists (st : plugins NV) (name : string) : Z :=
  vm_method_exists_in (plugin_list st) name.

(** The loop of [set_vm_method]; [i] is the place of the first element. *)
Fixpoint set_vm_method_from (i : nat) (pl_data : list (plugin_data NV)) (backend : option string)
    : C (option (vm_method * pl_ref NV)) :=
  match pl_data with
  | [] => mret None
  | pd :: pds =>
      match pl_method (pd_desc pd) with
      | None => set_vm_method_from (S i) pds backend
      | Some m =>
          b ← deref backend;
          if strcmp (m_name m) b =? 0 then mret (Some (m, PlData i))
          else set_vm_method_from (S i) pds backend
      end
  end.

(** The method and the pointer [pl_conf] that a VM entry gets; [None] is
    the result -1. *)
Definition set_vm_method (pl_data : list (plugin_data NV)) (backend : option string)
    : C (option (vm_method * pl_ref NV)) := set_vm_method_from 0 pl_data backend.

(** ** Theorems *)

(** The answers of the plugins that have a parser, in order. *)
Definition answers (head : list (plugin_data NV)) (key val : string) : list Z :=
  omap (fun pd => (fun f => (f (pd_conf pd) key val).1) <$> pl_parse_config (pd_desc pd)) head.

(** A parameter that bmd does not know belongs to the first plugin that
    answers 0 or less to it, and to nobody when all answer 1 or more; the
    plugins behind that one keep their data, and the list of plugins stays the
    same. *)
Theorem call_plugin_parser_correct head key val :
  let '(rc, head') := call_plugin_parser head key val in
  rc = default 1 (List.find (fun rc => rc <=? 0) (answers head key val)) /\
  pd_desc <$> head' = pd_desc <$> head /\
  (rc <= 0 -> exists h1 pd pd' h1' h2, head = h1 ++ pd :: h2 /\ head' = h1' ++ pd' :: h2 /\
     length h1 = length h1' /\
     (fun f => (f (pd_conf pd) key val).1) <$> pl_parse_config (pd_desc pd) = Some rc).
Proof.
  induction head as [| pd head IH]; cbn; [split; [done |]; split; [done | lia] |].
  destruct (call_plugin_parser head key val) as [rc h]. destruct IH as (E1 & E2 & E3).
  destruct (pl_parse_config (pd_desc pd)) as [f |] eqn:Ef; cbn.
  - destruct (f (pd_conf pd) key val) as [rc' nv] eqn:Ea; cbn.
    destruct (Z.leb_spec rc' 0) as [Hle | Hgt].
    + split; [done |]. split; [done |]. intros _. exists [], pd. eexists _, [], head.
      rewrite Ef. cbn. by rewrite Ea.
    + split; [done |]. split; [exact (f_equal (cons (pd_desc pd)) E2) |]. intros Hrc.
      destruct (E3 Hrc) as (h1 & q & q' & h1' & h2 & -> & -> & Hl & Hq).
      exists (pd :: h1), q, q'. eexists (_ :: h1'), h2. cbn. eauto.
  - split; [done |]. split; [exact (f_equal (cons (pd_desc pd)) E2) |]. intros Hrc.
    destruct (E3 Hrc) as (h1 & q & q' & h1' & h2 & -> & -> & Hl & Hq).
    exists (pd :: h1), q, q'. eexists (_ :: h1'), h2. cbn. eauto.
Qed.

Lemma vm_method_exists_Some pls name :
  vm_method_exists_in pls name = 0 <->
  exists pl m, pl ∈ pls /\ pl_method pl = Some m /\ m_name m = name.
Proof.
  induction pls as [| pl pls IH]; cbn [vm_method_exists_in].
  - split; [done |]. intros (pl & m & Hin & _). by apply not_elem_of_nil in Hin.
  - setoid_rewrite elem_of_cons. destruct (pl_method pl) as [m |] eqn:Em.
    + destruct (Z.eqb_spec (strcmp (m_name m) name) 0) as [E | E].
      * apply strcmp_eq0 in E. split; [| done]. intros _. exists pl, m. auto.
      * rewrite IH. split; [intros (q & n & Hq); exists q, n; tauto |].
        intros (q & n & [-> | Hq] & Hn & Hm); [| exists q, n; tauto].
        exfalso. apply E, strcmp_eq0. congruence.
    + rewrite IH. split; [intros (q & n & Hq); exists q, n; tauto |].
      intros (q & n & [-> | Hq] & Hn & Hm); [congruence | exists q, n; tauto].
Qed.

Lemma vm_method_exists_range pls name :
  vm_method_exists_in pls name = 0 \/ vm_method_exists_in pls name = -1.
Proof.
  induction pls as [| pl pls IH]; cbn [vm_method_exists_in]; [by right |].
  destruct (pl_method pl) as [m |]; [| done]. destruct (strcmp (m_name m) name =? 0); auto.
Qed.

Lemma wp_create_plugin_data_loop pls head :
  wp (create_plugin_data_loop pls head)
     (fun p => (p.1 = -1 /\ p.2 = []) \/
               (p.1 = 0 /\ p.2 = reverse ((fun pl => {| pd_desc := pl; pd_conf := nv_empty |}) <$> pls)
                                 ++ head)) no_fault.
Proof.
  revert head. induction pls as [| pl pls IH]; intros head; cbn [create_plugin_data_loop].
  - apply wp_ret. by right.
  - apply wp_bind, wp_malloc. intros []; cbn [negb]; [| apply wp_ret; by left].
    apply wp_bind, wp_malloc. intros []; cbn [negb]; [| apply wp_ret; by left].
    eapply wp_mono; [apply IH | | done]. intros [rc h] [H | [H1 H2]]; [by left | right].
    split; [done |]. cbn [snd] in H2 |- *. by rewrite fmap_cons, reverse_cons, <- app_assoc, H2.
Qed.

Lemma wp_set_vm_method_from pl_data name : forall i,
  wp (set_vm_method_from i pl_data (Some name))
     (fun r => match r with
               | Some (m, p) => m_name m = name /\
                   exists j pd, p = PlData (i + j) /\ pl_data !! j = Some pd /\ pl_method (pd_desc pd) = Some m
               | None => forall pd m, pd ∈ pl_data -> pl_method (pd_desc pd) = Some m ->
                                 m_name m <> name
               end) no_fault.
Proof.
  induction pl_data as [| pd pl_data IH]; intros i; cbn [set_vm_method_from].
  - apply wp_ret. intros pd m Hin. by apply not_elem_of_nil in Hin.
  - assert (Hnext : forall r : option (vm_method * pl_ref NV),
      match r with
      | Some (m, p) => m_name m = name /\
          exists j q, p = PlData (S i + j) /\ pl_data !! j = Some q /\ pl_method (pd_desc q) = Some m
      | None => (forall m, pl_method (pd_desc pd) = Some m -> m_name m <> name) /\
          forall q m, q ∈ pl_data -> pl_method (pd_desc q) = Some m -> m_name m <> name
      end ->
      match r with
      | Some (m, p) => m_name m = name /\
          exists j q, p = PlData (i + j) /\ (pd :: pl_data) !! j = Some q /\ pl_method (pd_desc q) = Some m
      | None => forall q m, q ∈ pd :: pl_data -> pl_method (pd_desc q) = Some m -> m_name m <> name
      end).
    { intros [[m p] |]; [| intros [H1 H2] q m [-> | Hq]%elem_of_cons; [apply H1 | by apply H2]].
      intros (Hm & j & q & -> & Hj & Hq). split; [done |]. exists (S j), q. split; [| done]. f_equal. lia. }
    destruct (pl_method (pd_desc pd)) as [m |] eqn:Em.
    + apply wp_bind, wp_ret. destruct (Z.eqb_spec (strcmp (m_name m) name) 0) as [E | E].
      * apply wp_ret. apply strcmp_eq0 in E. split; [done |]. exists 0%nat, pd. rewrite Nat.add_0_r. done.
      * eapply wp_mono; [apply IH | | done]. intros [[m' p] |] H; [by apply (Hnext (Some (m', p))) |].
        apply (Hnext None). split; [| done]. intros n [= <-] Hname. by apply E, strcmp_eq0.
    + eapply wp_mono; [apply IH | | done]. intros [[m' p] |] H; [by apply (Hnext (Some (m', p))) | by apply (Hnext None)].
Qed.

Lemma wp_set_vm_method pl_data name :
  wp (set_vm_method pl_data (Some name))
     (fun r => match r with
               | Some (m, p) => m_name m = name /\
                   exists j pd, p = PlData j /\ pl_data !! j = Some pd /\ pl_method (pd_desc pd) = Some m
               | None => forall pd m, pd ∈ pl_data -> pl_method (pd_desc pd) = Some m ->
                                 m_name m <> name
               end) no_fault.
Proof. eapply wp_mono; [apply (wp_set_vm_method_from pl_data name 0) | done | done]. Qed.

(** A backend name that the parser accepts has a method when the VM entry
    is created, and only such a name: [set_vm_method] on the plugin data made
    for a VM succeeds exactly when [vm_method_exists] answers 0, and gives a
    method of that name. *)
Theorem vm_method_exists_correct st name :
  wp (create_plugin_data st)
     (fun p => p.1 = 0 ->
        wp (set_vm_method p.2 (Some name))
           (fun r => (is_Some r <-> vm_method_exists st name = 0) /\
                     forall m r', r = Some (m, r') -> m_name m = name /\ pl_target p.2 r' = Some nv_empty) no_fault)
     no_fault.
Proof.
  eapply wp_mono; [apply wp_create_plugin_data_loop | | done].
  intros [rc head] [[-> _] | [-> ->]]; [done |]. intros _. cbn [snd]. rewrite app_nil_r.
  eapply wp_mono; [apply wp_set_vm_method | | done]. unfold vm_method_exists.
  intros [[m nv] |].
  - intros (Hm & j & pd & -> & Hj & Hpl). pose proof (list_elem_of_lookup_2 _ _ _ Hj) as Hin.
    apply elem_of_reverse, list_elem_of_fmap in Hin as (pl & -> & Hpl').
    split; [| intros ? ? [= <- <-]; cbn [pl_target]; by rewrite Hj]. rewrite vm_method_exists_Some. split; [| by eauto].
    intros _. exists pl, m. eauto.
  - intros H. split; [| done]. split; [by intros [] |]. rewrite vm_method_exists_Some.
    intros (pl & m & Hin & Hm & Hname). exfalso.
    eapply (H {| pd_desc := pl; pd_conf := nv_empty |}); [| exact Hm | exact Hname].
    apply elem_of_reverse, list_elem_of_fmap. eauto.
Qed.

(** [load_plugins] counts the shared objects only: where there are none,
    every reading of the configuration registers the built-in backend once
    more. *)
Theorem load_plugins_grows st dir :
  loaded st = 0 -> Forall (fun d => is_plugin_name (de_name d) = false) dir ->
  runs (load_plugins st (Some dir))
    (0, {| plugin_list := bhyve_desc :: plugin_list st; loaded := 0 |}).
Proof.
  intros Hl Hd. unfold load_plugins. rewrite Hl. cbn [Z.eqb negb].
  eapply runs_bind; [apply runs_malloc |]. cbn beta iota delta [negb].
  eapply runs_bind; [| apply runs_ret].
  induction Hd as [| d dir Hn Hd IH]; cbn [foreach]; [apply runs_ret |].
  rewrite Hn. eapply runs_bind; [apply runs_ret | exact IH].
Qed.

End plugin.

Lemma load_plugins_grows_witness :
  runs (load_plugins {| plugin_list := [bhyve_desc]; loaded := 0 |}
          (Some [{| de_name := "README"; de_desc := None (A := plugin_desc unit) |}]))
    (0, {| plugin_list := [bhyve_desc; bhyve_desc]; loaded := 0 |}).
Proof.
  apply (load_plugins_grows {| plugin_list := [bhyve_desc]; loaded := 0 |}
           [{| de_name := "README"; de_desc := None (A := plugin_desc unit) |}]);
    [reflexivity | by repeat constructor].
Defined.
