(* ===== verification/ParseValue.v ===== *)
(** * The values of VM parameters (src/parser.c 131-142, 197-718)

    One function per parameter of a [vm] section: it checks the text of the
    value and calls the setter of src/conf.c.  [parser_list] is the table of
    these functions, which [vm_conf_set_params] searches with [bsearch].

    The user database of the system is the record [sysdb] of its lookup
    functions; the loaded plugins decide which backends exist. *)

From S2P Require Import Prelude CString Vars Conf Plugin.
From Stdlib Require Import Ascii.

Local Open Scope Z_scope.

(** ** The user database *)

Record passwd := { pw_name : string; pw_uid : Z; pw_gid : Z }.

Record group := { gr_gid : Z }.

(** [getgrouplist user base] is the list of the groups of [user]. *)
Record sysdb := {
  getpwnam : string -> option passwd;
  getpwuid : Z -> option passwd;
  getgrnam : string -> option group;
  getgrouplist : string -> Z -> option (list Z);
}.

(** The type [pfunc] of the table: the result and the configuration. *)
Definition pfunc : Type := vm_conf -> string -> C (Z * vm_conf).

(** [set_var(&conf->vars, k, v)], the result of which is only logged. *)
Definition conf_set_var (conf : vm_conf) (k v : string) : C vm_conf :=
  '(_, vars) ← set_var (vc_vars conf) (Some k) (Some v); mret (conf <| vc_vars := vars |>).

(** A setter called for its effect. *)
Definition ignore_rc (c : C (Z * vm_conf)) : C (Z * vm_conf) := '(_, conf) ← c; mret (0, conf).

(** A setter of the frame buffer. *)
Definition on_fbuf (conf : vm_conf) (f : option fbuf -> C (Z * option fbuf)) : C (Z * vm_conf) :=
  '(rc, fb) ← f (vc_fbuf conf); mret (rc, conf <| vc_fbuf := fb |>).

(** ** Numbers, strings, lists *)

(** [None] is the result -1.  The [long] is truncated to an [int]. *)
Definition parse_int (value : string) : option Z :=
  let '(n, p) := strtol value 10 in
  if Ascii.eqb (char_at p 0) NUL then Some (to_int n) else None.

Definition parse_name : pfunc := fun conf val =>
  conf ← conf_set_var conf "NAME" val;
  ignore_rc (at_ptr conf (fun p => set_name p val)).

Definition parse_ncpu : pfunc := fun conf val =>
  match parse_int val with
  | None => mret (-1, conf)
  | Some n => ignore_rc (at_ptr conf (fun p => set_ncpu p n))
  end.

Definition is_mem_suffix (c : ascii) : bool :=
  existsb (Ascii.eqb c) ["T"; "t"; "G"; "g"; "M"; "m"; "K"; "k"]%char.

Definition parse_memory : pfunc := fun conf val =>
  let '(_, p) := strtol val 10 in
  let ok := Ascii.eqb (char_at p 0) NUL
            || (is_mem_suffix (char_at p 0) && Ascii.eqb (char_at p 1) NUL) in
  if ok then ignore_rc (at_ptr conf (fun p => set_memory_size p val)) else mret (-1, conf).

Fixpoint all_chars (f : ascii -> bool) (s : string) : bool :=
  match s with
  | EmptyString => true
  | String c s' => f c && all_chars f s'
  end.

Definition parse_passthru : pfunc := fun conf val =>
  if all_chars (fun c => Ascii.eqb c "/" || is_digit c) val
  then at_ptr conf (fun p => add_passthru_conf p val) else mret (-1, conf).

(** The loop over the known types: [val] is [type:rest]. *)
Fixpoint split_type (types : list string) (val : string) : option (string * string) :=
  match types with
  | [] => None
  | p :: types' =>
      let n := String.length p in
      if (strncmp val p n =? 0) && Ascii.eqb (char_at val n) ":"
      then Some (p, drop_str (S n) val) else split_type types' val
  end.

Definition parse_disk : pfunc := fun conf val =>
  match split_type ["ahci-hd"; "virtio-blk"; "nvme"] val with
  | Some (t, path) => at_ptr conf (fun p => add_disk_conf p t path)
  | None => at_ptr conf (fun p => add_disk_conf p "virtio-blk" val)
  end.

Definition parse_iso : pfunc := fun conf val =>
  match split_type ["ahci-cd"] val with
  | Some (t, path) => at_ptr conf (fun p => add_iso_conf p t path)
  | None => at_ptr conf (fun p => add_iso_conf p "ahci-cd" val)
  end.

Definition parse_net : pfunc := fun conf val =>
  match split_type ["virtio-net"; "e1000"] val with
  | Some (t, bridge) => at_ptr conf (fun p => add_net_conf p t bridge)
  | None => at_ptr conf (fun p => add_net_conf p "virtio-net" val)
  end.

Definition parse_loadcmd : pfunc := fun conf val =>
  ignore_rc (at_ptr conf (fun p => set_loadcmd p val)).

Definition parse_installcmd : pfunc := fun conf val =>
  ignore_rc (at_ptr conf (fun p => set_installcmd p val)).

Definition parse_err_logfile : pfunc := fun conf val =>
  ignore_rc (at_ptr conf (fun p => set_err_logfile p val)).

Definition loaders : list string := ["uefi"; "csm"; "bhyveload"; "grub"].

Definition parse_loader : pfunc := fun conf val =>
  if existsb (fun p => strcasecmp val p =? 0) loaders
  then at_ptr conf (fun p => set_loader p val) else mret (-1, conf).

Definition parse_bhyveload_env : pfunc := fun conf val =>
  match strchr val "=" with
  | None => mret (-1, conf)
  | Some _ => at_ptr conf (fun p => add_bhyveload_env p (Some val))
  end.

Definition parse_bhyveload_loader : pfunc := fun conf val =>
  at_ptr conf (fun p => set_bhyveload_loader p val).

Definition parse_bhyve_env : pfunc := fun conf val =>
  match strchr val "=" with
  | None => mret (-1, conf)
  | Some _ => at_ptr conf (fun p => add_bhyve_env p (Some val))
  end.

Definition parse_loader_timeout : pfunc := fun conf val =>
  match parse_int val with
  | None => mret (-1, conf)
  | Some n => at_ptr conf (fun p => set_loader_timeout p n)
  end.

Definition parse_stop_timeout : pfunc := fun conf val =>
  match parse_int val with
  | None => mret (-1, conf)
  | Some n => at_ptr conf (fun p => set_stop_timeout p n)
  end.

Definition parse_grub_run_partition : pfunc := fun conf val =>
  at_ptr conf (fun p => set_grub_run_partition p val).

Definition parse_debug_port : pfunc := fun conf val =>
  at_ptr conf (fun p => set_debug_port p val).

(** The index of the first name that equals [val] up to case; the number of
    names when there is none. *)
Fixpoint index_of (values : list string) (val : string) : nat :=
  match values with
  | [] => 0
  | p :: values' => if strcasecmp val p =? 0 then 0%nat else S (index_of values' val)
  end.

Definition parse_boot : pfunc := fun conf val =>
  let r := [YES; YES; ONESHOT; ALWAYS; NO] in
  b ← deref (r !! index_of ["yes"; "true"; "oneshot"; "always"] val);
  at_ptr conf (fun p => set_boot p b).

Definition parse_hostbridge : pfunc := fun conf val =>
  let values := ["none"; "standard"; "intel"; "amd"] in
  let t := [NONE; INTEL; INTEL; AMD] in
  let i := index_of values val in
  if Nat.eqb i (length values) then mret (-1, conf)
  else
    h ← deref (t !! i);
    at_ptr conf (fun p => set_hostbridge p h).

Definition parse_keymap : pfunc := fun conf val => at_ptr conf (fun p => set_keymap p val).

Definition parse_boot_delay : pfunc := fun conf val =>
  match parse_int val with
  | None => mret (-1, conf)
  | Some n => at_ptr conf (fun p => set_boot_delay p n)
  end.

Definition parse_comport : pfunc := fun conf val => at_ptr conf (fun p => set_comport p val).

Definition parse_boolean (value : string) : bool :=
  (strcasecmp value "yes" =? 0) || (strcasecmp value "true" =? 0).

Definition parse_reboot_on_change : pfunc := fun conf val =>
  at_ptr conf (fun p => set_reboot_on_change p (parse_boolean val)).

Definition parse_install : pfunc := fun conf val =>
  at_ptr conf (fun p => set_install p (parse_boolean val)).

(** ** Graphics *)

Definition parse_graphics : pfunc := fun conf val =>
  on_fbuf conf (fun fb => set_fbuf_enable fb (parse_boolean val)).

Definition parse_graphics_port : pfunc := fun conf val =>
  match parse_int val with
  | None => mret (-1, conf)
  | Some port => on_fbuf conf (fun fb => set_fbuf_port fb port)
  end.

Definition parse_graphics_listen : pfunc := fun conf val =>
  on_fbuf conf (fun fb => set_fbuf_ipaddr fb val).

Definition parse_graphics_res : pfunc := fun conf val =>
  match strchr val "x" with
  | None => mret (-1, conf)
  | Some p =>
      match parse_int (before val "x") with
      | None => mret (-1, conf)
      | Some width =>
          match parse_int (drop_str 1 p) with
          | None => mret (-1, conf)
          | Some height => on_fbuf conf (fun fb => set_fbuf_res fb width height)
          end
      end
  end.

Definition parse_graphics_vga : pfunc := fun conf val =>
  on_fbuf conf (fun fb => set_fbuf_vgaconf fb val).

Definition parse_graphics_wait : pfunc := fun conf val =>
  on_fbuf conf (fun fb => set_fbuf_wait fb (c_bool (parse_boolean val))).

Definition parse_graphics_password : pfunc := fun conf val =>
  on_fbuf conf (fun fb => set_fbuf_password fb val).

Definition parse_xhci_mouse : pfunc := fun conf val =>
  at_ptr conf (fun p => set_mouse p (parse_boolean val)).

Definition parse_wired_memory : pfunc := fun conf val =>
  at_ptr conf (fun p => set_wired_memory p (parse_boolean val)).

Definition parse_utctime : pfunc := fun conf val =>
  at_ptr conf (fun p => set_utctime p (parse_boolean val)).

Section parsers.
Context {NV : Type} (db : sysdb) (pls : plugins NV).

(** ** The owner *)

(** Whether [target] is a group of [user]: 0 for yes, -1 for no. *)
Definition is_in_group (user : string) (base target : Z) : C Z :=
  ok ← malloc;
  mret (if (ok : bool) then
          match getgrouplist db user base with
          | Some grlist => if existsb (Z.eqb target) grlist then 0 else -1
          | None => -1
          end
        else -1).

(** [user] and [group] of the text [user] or [user:group]; [None] when the copy
    cannot be allocated. *)
Definition split_owner (val : string) : C (option (string * option string)) :=
  match strchr val ":" with
  | None => mret (Some (val, None))
  | Some p =>
      val2 ← strdup val;
      mret (match val2 with
            | Some v => Some (before v ":", Some (drop_str 1 p))
            | None => None
            end)
  end.

Definition parse_owner : pfunc := fun conf val =>
  ug ← split_owner val;
  match ug with
  | None => mret (-1, conf)
  | Some (user, group) =>
      match getpwnam db user with
      | None => mret (-1, conf)
      | Some pwd =>
          if negb (get_owner conf =? 0) && negb (get_owner conf =? pw_uid pwd)
          then mret (-1, conf)
          else
            (* the group: [None] for the jump to [err] *)
            grp ← match group with
                  | None => mret (Some None)
                  | Some g =>
                      match getgrnam db g with
                      | None => mret None
                      | Some grp =>
                          if negb (get_owner conf =? 0) then
                            rc ← is_in_group (pw_name pwd) (pw_gid pwd) (gr_gid grp);
                            mret (if rc <? 0 then None else Some (Some (g, grp)))
                          else mret (Some (Some (g, grp)))
                      end
                  end;
            match grp with
            | None => mret (-1, conf)
            | Some grp =>
                '(_, conf) ← at_ptr conf (fun p => set_owner p (pw_uid pwd));
                conf ← conf_set_var conf "OWNER" user;
                match grp with
                | None => mret (0, conf)
                | Some (g, grp) =>
                    '(_, conf) ← at_ptr conf (fun p => set_group p (gr_gid grp));
                    conf ← conf_set_var conf "GROUP" g;
                    mret (0, conf)
                end
            end
      end
  end.

Definition parse_backend : pfunc := fun conf val =>
  if vm_method_exists pls val <? 0 then mret (-1, conf)
  else at_ptr conf (fun p => set_backend p val).

(** ** The table *)

Record parser_entry := {
  pe_name : string;
  pe_parse : pfunc;
  pe_clear : option (vm_conf -> vm_conf);
}.

Definition entry (n : string) (f : pfunc) (c : option (vm_conf -> vm_conf)) : parser_entry :=
  {| pe_name := n; pe_parse := f; pe_clear := c |}.

Definition parser_list : list parser_entry := [
  entry "backend" parse_backend None;
  entry "bhyve_env" parse_bhyve_env (Some clear_bhyve_env);
  entry "bhyveload_env" parse_bhyveload_env (Some clear_bhyveload_env);
  entry "bhyveload_loader" parse_bhyveload_loader None;
  entry "boot" parse_boot None;
  entry "boot_delay" parse_boot_delay None;
  entry "comport" parse_comport None;
  entry "debug_port" parse_debug_port None;
  entry "disk" parse_disk (Some clear_disk_conf);
  entry "err_logfile" parse_err_logfile None;
  entry "graphics" parse_graphics None;
  entry "graphics_listen" parse_graphics_listen None;
  entry "graphics_password" parse_graphics_password None;
  entry "graphics_port" parse_graphics_port None;
  entry "graphics_res" parse_graphics_res None;
  entry "graphics_vga" parse_graphics_vga None;
  entry "graphics_wait" parse_graphics_wait None;
  entry "grub_run_partition" parse_grub_run_partition None;
  entry "hostbridge" parse_hostbridge None;
  entry "install" parse_install None;
  entry "installcmd" parse_installcmd None;
  entry "iso" parse_iso (Some clear_iso_conf);
  entry "keymap" parse_keymap None;
  entry "loadcmd" parse_loadcmd None;
  entry "loader" parse_loader None;
  entry "loader_timeout" parse_loader_timeout None;
  entry "memory" parse_memory None;
  entry "name" parse_name None;
  entry "ncpu" parse_ncpu None;
  entry "network" parse_net (Some clear_net_conf);
  entry "owner" parse_owner None;
  entry "passthru" parse_passthru (Some clear_passthru_conf);
  entry "reboot_on_change" parse_reboot_on_change None;
  entry "stop_timeout" parse_stop_timeout None;
  entry "utctime" parse_utctime None;
  entry "wired_memory" parse_wired_memory None;
  entry "xhci_mouse" parse_xhci_mouse None
].

Definition compare_parser_entry (name : string) (ent : parser_entry) : Z :=
  strcasecmp name (pe_name ent).

(** The call of [bsearch]. *)
Definition lookup_parser (key : string) : option parser_entry :=
  bsearch (compare_parser_entry key) parser_list.

(** ** The final check of a VM *)

Definition check_conf (conf : vm_conf) : C Z :=
  match vc_name conf, vc_ncpu conf, vc_memory conf with
  | None, _, _ => mret (-1)
  | _, None, _ => mret (-1)
  | _, _, None => mret (-1)
  | _, _, _ =>
      backend ← deref (vc_backend conf);
      mret (if (strcmp backend "bhyve" =? 0) && match vc_loader conf with None => true | _ => false end
            then -1 else 0)
  end.

End parsers.

(** ** The table is searched correctly *)

Section lookup.
Context {NV : Type} (db : sysdb) (pls : plugins NV).

Lemma parser_list_sorted : sorted_by pe_name (parser_list db pls).
Proof. apply sorted_byb_sound. vm_compute. reflexivity. Qed.

(** [bsearch] over [parser_list] finds a parameter exactly when the table
    has an entry of that name, up to the case of letters: the table is sorted
    in the order of [strcasecmp], as its comment demands. *)
Theorem lookup_parser_correct key e :
  lookup_parser db pls key = Some e <->
  In e (parser_list db pls) /\ lower key = lower (pe_name e).
Proof. apply (bsearch_by_name pe_name), parser_list_sorted. Qed.

Lemma lookup_parser_In key e : lookup_parser db pls key = Some e -> In e (parser_list db pls).
Proof. intros H. by apply (bsearch_by_name pe_name _ key e parser_list_sorted) in H as [? _]. Qed.

End lookup.

(** ** What a parameter can do to the owner *)

Create HintDb parse_db.
#[export] Hint Unfold parse_backend parse_bhyve_env parse_bhyveload_env parse_bhyveload_loader
  parse_boot parse_boot_delay parse_comport parse_debug_port parse_disk parse_err_logfile
  parse_graphics parse_graphics_listen parse_graphics_password parse_graphics_port
  parse_graphics_res parse_graphics_vga parse_graphics_wait parse_grub_run_partition
  parse_hostbridge parse_install parse_installcmd parse_iso parse_keymap parse_loadcmd
  parse_loader parse_loader_timeout parse_memory parse_name parse_ncpu parse_net
  parse_passthru parse_reboot_on_change parse_stop_timeout parse_utctime parse_wired_memory
  parse_xhci_mouse ignore_rc on_fbuf conf_set_var set_string set_mouse set_fbuf_wait : parse_db.

(** Everything of a configuration that decides who may control the VM. *)
Definition same_owner (c c' : vm_conf) : Prop :=
  vc_owner c' = vc_owner c /\ vc_group c' = vc_group c.

Lemma wp_any {A} (c : C A) : wp c (fun _ => True) (fun _ => True).
Proof. intros o. by destruct (c o). Qed.

Lemma wp_deref_any {A} (p : option A) (Q : A -> Prop) :
  (forall a, p = Some a -> Q a) -> wp (deref p) Q (fun _ => True).
Proof. intros H o. destruct p; cbn; auto. Qed.

(** One step through a parser when faults do not matter. *)
Ltac step_any :=
  lazymatch goal with
  | |- wp (deref _) _ _ => apply wp_deref_any; intros ? ?
  | |- wp (at_ptr _ _) _ _ => first [eapply wp_at_setter; [reflexivity |] | step_wp]
  | |- wp _ _ _ => first [step_wp | eapply wp_mono; [apply wp_any | first [intros [? ?] _ | intros ? _] | done]]
  end; cbn beta iota.

Section owner.
Context {NV : Type} (db : sysdb) (pls : plugins NV).

Lemma parse_keeps_owner e conf val :
  In e (parser_list db pls) -> pe_name e <> "owner" ->
  wp (pe_parse e conf val) (fun p => same_owner conf p.2) (fun _ => True).
Proof.
  intros Hin Hname. unfold parser_list in Hin. cbn [In] in Hin.
  repeat (destruct Hin as [<- | Hin]); try done;
    cbn [pe_parse entry pe_name] in *; autounfold with parse_db; clear Hname.
  all: by repeat step_any.
Qed.

(** Who a VM can belong to after its parameters: its owner, and as its group the
    old one or one of the groups of that owner in the user database. *)
Definition owner_kept (c c' : vm_conf) : Prop :=
  get_owner c' = get_owner c /\
  (vc_group c' = vc_group c \/
   exists user pwd l, getpwnam db user = Some pwd /\ get_owner c = pw_uid pwd /\
     getgrouplist db (pw_name pwd) (pw_gid pwd) = Some l /\ In (vc_group c') l).

Lemma same_owner_kept c c' : same_owner c c' -> owner_kept c c'.
Proof. unfold owner_kept, get_owner. intros [-> ->]. auto. Qed.

Lemma owner_kept_trans a b c : owner_kept a b -> owner_kept b c -> owner_kept a c.
Proof.
  intros [H1 H2] [H3 H4]. split; [congruence |]. rewrite <- H1. destruct H4 as [E | H4]; [| by right].
  rewrite E, H1. tauto.
Qed.

Lemma to_uint_idem z : to_uint (to_uint z) = to_uint z.
Proof. unfold to_uint, wrap_u. by rewrite Z.mod_mod. Qed.

Lemma wp_is_in_group user base target :
  wp (is_in_group db user base target)
     (fun rc => rc < 0 \/ exists l, getgrouplist db user base = Some l /\ In target l) no_fault.
Proof.
  unfold is_in_group. apply wp_bind, wp_malloc. intros []; apply wp_ret; [| by left].
  destruct (getgrouplist db user base) as [l |]; [| by left].
  destruct (existsb (Z.eqb target) l) eqn:E; [| by left]. right. exists l. split; [done |].
  apply existsb_exists in E as (x & Hx & E). apply Z.eqb_eq in E. by subst x.
Qed.

Lemma parse_owner_kept conf val :
  get_owner conf <> 0 ->
  wp (parse_owner db conf val) (fun p => owner_kept conf p.2) (fun _ => True).
Proof.
  intros Hroot. unfold parse_owner. apply wp_bind.
  eapply wp_mono; [apply wp_any | intros ug _ | done].
  assert (Hrefl : owner_kept conf conf) by (apply same_owner_kept; by split).
  destruct ug as [[user grp] |]; [| by apply wp_ret].
  destruct (getpwnam db user) as [pwd |] eqn:Hpw; [| by apply wp_ret].
  destruct (Z.eqb_spec (get_owner conf) 0) as [| _]; [done |].
  destruct (Z.eqb_spec (get_owner conf) (pw_uid pwd)) as [Hu |]; [| by apply wp_ret].
  cbn [negb andb].
  assert (Hown : forall vars, get_owner (conf <| vc_owner := pw_uid pwd |> <| vc_vars := vars |>)
                         = get_owner conf).
  { intros vars. unfold get_owner at 1. cbn. rewrite <- Hu. apply to_uint_idem. }
  destruct grp as [g |].
  - destruct (getgrnam db g) as [grp |]; [| by apply wp_bind, wp_ret, wp_ret].
    apply wp_bind, wp_bind. eapply wp_mono; [apply wp_is_in_group | intros rc Hg | done].
    apply wp_ret. destruct (Z.ltb_spec rc 0); [by apply wp_ret |].
    destruct Hg as [| (l & Hl & Hin)]; [lia |]. unfold conf_set_var.
    repeat step_any. cbn [snd]. split; [apply Hown |]. right. eauto 10.
  - apply wp_bind, wp_ret. unfold conf_set_var. repeat step_any. cbn [snd].
    split; [apply Hown | by left].
Qed.

(** No parameter gives a VM that belongs to an ordinary user to someone else:
    the owner stays and the group stays or becomes one of the groups of that
    owner. *)
Lemma parse_entry_owner_kept e conf val :
  In e (parser_list db pls) -> get_owner conf <> 0 ->
  wp (pe_parse e conf val) (fun p => owner_kept conf p.2) (fun _ => True).
Proof.
  intros Hin Hroot. destruct (decide (pe_name e = "owner")) as [E | E].
  - assert (pe_parse e = parse_owner db) as ->; [| by apply parse_owner_kept].
    unfold parser_list in Hin. cbn [In] in Hin.
    by repeat (destruct Hin as [<- | Hin]; [done |]).
  - eapply wp_mono; [by apply parse_keeps_owner | | done]. intros [rc c'] H.
    by apply same_owner_kept.
Qed.
End owner.

(** ** No parameter runs into a recursion bound *)

Lemma nofuel_insert_tail {A} (q : stailq A) x : nofuel (STAILQ_INSERT_TAIL q x).
Proof. unfold STAILQ_INSERT_TAIL. steps_nofuel. Qed.

Lemma nofuel_set_string v s : nofuel (set_string v s).
Proof. unfold set_string. steps_nofuel. Qed.

Ltac step_parser_nofuel :=
  first [apply nofuel_set_var | apply nofuel_insert_tail | apply nofuel_set_string
        | step_nofuel]; cbn zeta.

Lemma parse_entry_nofuel {NV} (db : sysdb) (pls : plugins NV) e conf val :
  In e (parser_list db pls) -> nofuel (pe_parse e conf val).
Proof.
  intros Hin. unfold parser_list in Hin. cbn [In] in Hin.
  repeat (destruct Hin as [<- | Hin]); try done;
    cbn [pe_parse entry]; autounfold with parse_db;
    unfold parse_owner, split_owner, is_in_group, conf_set_var;
    repeat step_parser_nofuel.
Qed.

(** ** Numbers *)

(** A decimal number in the range of [int] is read as itself.  A number
    outside of that range is not refused: it is read modulo 2^32. *)
Theorem parse_int_print_dec n :
  LONG_MIN <= n <= LONG_MAX ->
  parse_int (print_dec n) = Some (to_int n) /\ (is_int n -> parse_int (print_dec n) = Some n).
Proof.
  intros Hn. assert (E : parse_int (print_dec n) = Some (to_int n)).
  { unfold parse_int. rewrite strtol_print_dec by auto. reflexivity. }
  split; [done |]. intros Hi. by rewrite E, to_int_id.
Qed.

Lemma parse_int_print_dec_witness :
  parse_int (print_dec 4294967298) = Some 2 /\ print_dec 4294967298 = "4294967298".
Proof.
  split; [| reflexivity].
  apply (proj1 (parse_int_print_dec 4294967298 ltac:(unfold LONG_MIN, LONG_MAX; lia))).
Defined.

(** ** Devices *)

Lemma strchr_None s c n : strchr s c = None -> c <> NUL -> char_at s n <> c.
Proof.
  unfold char_at. intros H Hc. revert n. induction s as [| x s IH]; intros [| n]; cbn in *;
    try congruence; destruct (Ascii.eqb_spec x c); try done. by apply IH.
Qed.

Lemma split_type_plain types val : strchr val ":" = None -> split_type types val = None.
Proof.
  intros H. induction types as [| t types IH]; cbn [split_type]; [done |].
  destruct (Ascii.eqb_spec (char_at val (String.length t)) ":") as [E | _].
  - by apply (strchr_None val ":" (String.length t)) in H.
  - by rewrite andb_false_r.
Qed.

(** A disk given as [type:path] with one of the three types is added with
    that type and path; a disk given as a plain path is a [virtio-blk] disk.
    The path may itself contain colons. *)
Theorem parse_disk_correct conf path :
  (forall t, In t ["ahci-hd"; "virtio-blk"; "nvme"] ->
     parse_disk conf (t +:+ String ":" path) = at_ptr conf (fun p => add_disk_conf p t path)) /\
  (strchr path ":" = None ->
     parse_disk conf path = at_ptr conf (fun p => add_disk_conf p "virtio-blk" path)).
Proof.
  split.
  - intros t [<- | [<- | [<- | []]]]; reflexivity.
  - intros H. unfold parse_disk. by rewrite split_type_plain.
Qed.
