(* ===== verification/Parser.v ===== *)
(** * Sections, templates and expressions (src/parser.c 146-195, 720-1025, src/confparse.h)

    The tree that the grammar of src/confparse.y builds, and its evaluation:
    arithmetic expressions, the text of a value, the global section, and the
    parameters of a [vm] section with the templates they apply.

    The evaluation of a VM's section is mutually recursive with [parse_apply]:
    a template may apply other templates.  The recursion is bounded by [fuel];
    [applied], set on a template before it is evaluated and tested before,
    makes it end, and the theorems show that one unit of fuel per template
    that is not applied yet, and one more, is enough. *)

From S2P Require Import Prelude CString Vars Conf Global Plugin ParseValue.
From Stdlib Require Import Ascii.

Local Open Scope Z_scope.

(** ** The syntax tree *)

Inductive CF_TYPE := CF_STR | CF_VAR | CF_EXPR | CF_NUM.

#[warnings="-register-all"]
Inductive cfexpr := Build_cfexpr {
  ex_type : CF_TYPE;
  ex_op : ascii;
  ex_val : option string;
  ex_left : option cfexpr;
  ex_right : option cfexpr;
}.

Record cftoken := {
  t_type : CF_TYPE;
  t_s : option string;
  t_len : nat;
  t_expr : option cfexpr;
  t_filename : string;
  t_lineno : Z;
}.

Definition cftokens := list cftoken.

Record cfargdef := { ad_name : option string; ad_tokens : cftokens }.

Record cfarg := { ag_tokens : cftokens }.

Record cfvalue := { vl_tokens : cftokens; vl_args : list cfarg }.

Record cfparam := { pr_key : option cftoken; pr_vals : list cfvalue; pr_operator : Z }.

Record cfsection := {
  sc_name : option string;
  sc_params : list cfparam;
  sc_argdefs : list cfargdef;
  sc_applied : Z;
  sc_duplicate : Z;
  sc_owner : Z;
  sc_filename : string;
}.

#[export] Instance eta_cfsection : Eta cfsection := fun s => {|
  sc_name := sc_name s; sc_params := sc_params s; sc_argdefs := sc_argdefs s;
  sc_applied := sc_applied s; sc_duplicate := sc_duplicate s; sc_owner := sc_owner s;
  sc_filename := sc_filename s |}.

(** ** Expressions *)

(** A [long] result: overflow of a signed type is undefined. *)
Definition long_result (z : Z) : C (option Z) :=
  if in_long z then mret (Some z) else crash SignedOverflow.

(** A number, or the value of a variable: [None] when the text is no number. *)
Definition number (s : string) : option Z :=
  let '(n, p) := strtol s 0 in
  if Ascii.eqb (char_at p 0) NUL then Some n else None.

(** The operators of two operands. *)
Definition binop (op : ascii) (left right : Z) : C (option Z) :=
  if Ascii.eqb op "+" then long_result (left + right)
  else if Ascii.eqb op "-" then long_result (left - right)
  else if Ascii.eqb op "*" then long_result (left * right)
  else if Ascii.eqb op "/" then
    if right =? 0 then mret None else long_result (Z.quot left right)
  else if Ascii.eqb op "%" then
    if right =? 0 then crash DivideByZero
    else if in_long (Z.quot left right) then mret (Some (Z.rem left right))
    else crash SignedOverflow
  else mret None.

(** [Some v] is the result 0 with [*v], [None] the result -1. *)
Fixpoint calc_expr (vars : option variables) (ex : cfexpr) {struct ex} : C (option Z) :=
  match ex_type ex with
  | CF_NUM => val ← deref (ex_val ex); mret (number val)
  | CF_VAR =>
      match vars with
      | None => mret (Some 0)
      | Some vars =>
          k ← deref (ex_val ex);
          match get_var vars k with
          | None => mret None
          | Some val => mret (number val)
          end
      end
  | CF_EXPR =>
      match ex_left ex with
      | None => crash NullDeref
      | Some l =>
          lv ← calc_expr vars l;
          match lv with
          | None => mret None
          | Some lv =>
              if Ascii.eqb (ex_op ex) "~" then long_result (-1 * lv)
              else
                match ex_right ex with
                | None => crash NullDeref
                | Some r =>
                    rv ← calc_expr vars r;
                    match rv with
                    | None => mret None
                    | Some rv => binop (ex_op ex) lv rv
                    end
                end
          end
      end
  | CF_STR => mret None
  end.

(** ** The text of a value *)

(** The text of one token; [None] is the jump to [err]. *)
Definition token_text (vars : option variables) (tk : cftoken) : C (option string) :=
  match t_type tk with
  | CF_STR => s ← deref (t_s tk); mret (Some (take_str (t_len tk) s))
  | CF_VAR =>
      match vars with
      | None => mret (Some EmptyString)
      | Some vars => k ← deref (t_s tk); mret (get_var vars k)
      end
  | CF_EXPR =>
      ex ← deref (t_expr tk);
      num ← calc_expr vars ex;
      mret (print_dec <$> num)
  | CF_NUM => mret (Some EmptyString)
  end.

(** The loop with the text written so far. *)
Fixpoint tokens_text (vars : option variables) (tokens : cftokens) (out : string)
    : C (option string) :=
  match tokens with
  | [] => mret (Some out)
  | tk :: tokens' =>
      s ← token_text vars tk;
      match s with
      | None => mret None
      | Some s => tokens_text vars tokens' (out +:+ s)
      end
  end.

Definition token_to_string (vars : option variables) (tokens : cftokens) : C (option string) :=
  fp ← malloc;
  if (fp : bool) then tokens_text vars tokens EmptyString else mret None.

(** ** The global section *)

(** The assignment to a variable: [STAILQ_FIRST(&pr->vals)], its text and
    [set_var], the result of which is only logged. *)
Definition assign_var (vars : variables) (key : option string) (vals : list cfvalue)
    : C variables :=
  vl ← deref (head vals);
  val ← token_to_string (Some vars) (vl_tokens vl);
  match val with
  | None => mret vars
  | Some val => '(_, vars) ← set_var vars key (Some val); mret vars
  end.

Definition apply_global_vars (gv : option (gmap string string)) (sc : cfsection)
    : C (Z * option (gmap string string)) :=
  let vars := {| v_global := gv; v_local := None; v_args := None |} in
  vars ← foreach (fun vars pr =>
           key ← deref (pr_key pr);
           match t_type key with
           | CF_VAR => assign_var vars (t_s key) (pr_vals pr)
           | _ => mret vars
           end) (sc_params sc) vars;
  mret (0, v_global vars).

(** The pointer [t] of [gl_conf_set_params]: which attribute a key sets. *)
Inductive gl_target :=
  | GlMode | GlSock | GlVarsDir | GlOffset | GlPid | GlPluginDir.

Definition gl_key (key : string) : option gl_target :=
  let c := char_at key 0 in
  if Ascii.eqb c "c" then
    if strcmp key "cmd_socket_mode" =? 0 then Some GlMode
    else if strcmp key "cmd_socket_path" =? 0 then Some GlSock
    else None
  else if Ascii.eqb c "v" then
    if strcmp key "vars_directory" =? 0 then Some GlVarsDir else None
  else if Ascii.eqb c "n" then
    if strcmp key "nmdm_offset" =? 0 then Some GlOffset else None
  else if Ascii.eqb c "p" then
    if strcmp key "pid_file" =? 0 then Some GlPid
    else if strcmp key "plugin_directory" =? 0 then Some GlPluginDir
    else None
  else None.

(** The variables, the configuration and the local [nmdm_offset_s]. *)
Record gl_state := { gs_conf : global_conf; gs_vars : variables; gs_offset : option string }.

#[export] Instance eta_gl_state : Eta gl_state := fun s =>
  {| gs_conf := gs_conf s; gs_vars := gs_vars s; gs_offset := gs_offset s |}.

Definition gl_get (s : gl_state) (t : gl_target) : option string :=
  match t with
  | GlMode => g_unix_domain_socket_mode (gs_conf s)
  | GlSock => g_cmd_sock_path (gs_conf s)
  | GlVarsDir => g_vars_dir (gs_conf s)
  | GlOffset => gs_offset s
  | GlPid => g_pid_path (gs_conf s)
  | GlPluginDir => g_plugin_dir (gs_conf s)
  end.

Definition gl_put (s : gl_state) (t : gl_target) (v : string) : gl_state :=
  match t with
  | GlMode => s <| gs_conf := gs_conf s <| g_unix_domain_socket_mode := Some v |> |>
  | GlSock => s <| gs_conf := gs_conf s <| g_cmd_sock_path := Some v |> |>
  | GlVarsDir => s <| gs_conf := gs_conf s <| g_vars_dir := Some v |> |>
  | GlOffset => s <| gs_offset := Some v |>
  | GlPid => s <| gs_conf := gs_conf s <| g_pid_path := Some v |> |>
  | GlPluginDir => s <| gs_conf := gs_conf s <| g_plugin_dir := Some v |> |>
  end.

Definition gl_param (s : gl_state) (pr : cfparam) : C gl_state :=
  key ← deref (pr_key pr);
  match t_type key with
  | CF_VAR => vars ← assign_var (gs_vars s) (t_s key) (pr_vals pr); mret (s <| gs_vars := vars |>)
  | _ =>
      k ← deref (t_s key);
      match gl_key k with
      | None => mret s
      | Some t =>
          foreach (fun s vl =>
            val ← token_to_string (Some (gs_vars s)) (vl_tokens vl);
            mret (match val with
                  | None => s
                  | Some val => match gl_get s t with None => gl_put s t val | Some _ => s end
                  end)) (pr_vals pr) s
      end
  end.

Definition gl_conf_set_params (gc : global_conf) (vars : variables) (sc : cfsection)
    : C (Z * (global_conf * variables)) :=
  s ← foreach gl_param (sc_params sc) {| gs_conf := gc; gs_vars := vars; gs_offset := None |};
  let gc := match gs_offset s with
            | None => gs_conf s
            | Some o =>
                let '(n, p) := strtol o 0 in
                gs_conf s <| g_nmdm_offset :=
                  if Ascii.eqb (char_at p 0) NUL then to_int n else DEFAULT_NMDM_OFFSET |>
            end in
  mret (0, (gc, gs_vars s)).

(** ** Templates *)

(** The index of the first template of that name. *)
Fixpoint lookup_template (tmpls : list cfsection) (name : string) : C (option nat) :=
  match tmpls with
  | [] => mret None
  | tp :: tmpls' =>
      n ← deref (sc_name tp);
      if strcmp n name =? 0 then mret (Some 0%nat)
      else i ← lookup_template tmpls' name; mret (S <$> i)
  end.

Definition clear_applied (tmpls : list cfsection) : list cfsection :=
  (fun sc => sc <| sc_applied := 0 |>) <$> tmpls.

Definition check_duplicate (tmpls : list cfsection) : Z :=
  if existsb (fun sc => negb (sc_duplicate sc =? 0)) tmpls then -1 else 0.

(** The VM that is being configured: [struct vm_conf_entry] and the templates
    of the parser's context. *)
Record vm_state (NV : Type) := {
  vs_conf : vm_conf;
  vs_pl_data : list (plugin_data NV);
  vs_tmpls : list cfsection;
}.
Arguments vs_conf {NV} v.
Arguments vs_pl_data {NV} v.
Arguments vs_tmpls {NV} v.
Arguments Build_vm_state {NV} _ _ _.

Definition with_conf {NV} (st : vm_state NV) (conf : vm_conf) : vm_state NV :=
  {| vs_conf := conf; vs_pl_data := vs_pl_data st; vs_tmpls := vs_tmpls st |}.

Definition with_pl_data {NV} (st : vm_state NV) (pl : list (plugin_data NV)) : vm_state NV :=
  {| vs_conf := vs_conf st; vs_pl_data := pl; vs_tmpls := vs_tmpls st |}.

Definition with_tmpls {NV} (st : vm_state NV) (tmpls : list cfsection) : vm_state NV :=
  {| vs_conf := vs_conf st; vs_pl_data := vs_pl_data st; vs_tmpls := tmpls |}.

Section set_params.
Context {NV : Type} (db : sysdb) (pls : plugins NV).

(** The arguments of a template: the tree [args] built from the definitions
    [defs] and the arguments [as_] given. *)
Fixpoint bind_args (vars : variables) (defs : list cfargdef) (as_ : list cfarg)
    (args : gmap string string) : C (gmap string string) :=
  match defs with
  | [] => mret args
  | def :: defs' =>
      argval ← token_to_string (Some vars)
                 (match as_ with arg :: _ => ag_tokens arg | [] => ad_tokens def end);
      '(_, args) ← set_var0 args (ad_name def)
                     (Some (match argval with Some v => v | None => EmptyString end));
      bind_args vars defs' (tail as_) args
  end.

(** [set_params] stands for [vm_conf_set_params] on the template. *)
Definition parse_apply (set_params : vm_state NV -> cfsection -> C (Z * vm_state NV))
    (st : vm_state NV) (vl : cfvalue) : C (Z * vm_state NV) :=
  val ← token_to_string (Some (vc_vars (vs_conf st))) (vl_tokens vl);
  match val with
  | None => mret (-1, st)
  | Some val =>
      i ← lookup_template (vs_tmpls st) val;
      match i with
      | None => mret (-1, st)
      | Some i =>
          tp ← deref (vs_tmpls st !! i);
          if negb (sc_applied tp =? 0) then mret (0, st)
          else
            ok ← malloc;
            if negb ok then mret (-1, st)
            else
              args ← bind_args (vc_vars (vs_conf st)) (sc_argdefs tp) (vl_args vl) ∅;
              let tp' := tp <| sc_applied := sc_applied tp + 1 |> in
              let old_args := v_args (vc_vars (vs_conf st)) in
              let conf := vs_conf st <| vc_vars := vc_vars (vs_conf st) <| v_args := Some args |> |> in
              '(rc, st) ← set_params (with_conf (with_tmpls st (<[i := tp']> (vs_tmpls st))) conf) tp';
              mret (rc, with_conf st (vs_conf st
                          <| vc_vars := vc_vars (vs_conf st) <| v_args := old_args |> |>))
      end
  end.

(** A value of a parameter that is neither a variable nor [.apply]. *)
Definition set_value (parser : option parser_entry) (key : string) (st : vm_state NV) (vl : cfvalue)
    : C (vm_state NV) :=
  val ← token_to_string (Some (vc_vars (vs_conf st))) (vl_tokens vl);
  match val with
  | None => mret st
  | Some val =>
      match parser with
      | Some p => '(_, conf) ← pe_parse p (vs_conf st) val; mret (with_conf st conf)
      | None =>
          let '(_, pl) := call_plugin_parser (vs_pl_data st) key val in
          mret (with_pl_data st pl)
      end
  end.

Definition set_param (apply : vm_state NV -> cfvalue -> C (Z * vm_state NV))
    (st : vm_state NV) (pr : cfparam) : C (vm_state NV) :=
  tk ← deref (pr_key pr);
  match t_type tk with
  | CF_VAR =>
      vars ← assign_var (vc_vars (vs_conf st)) (t_s tk) (pr_vals pr);
      mret (with_conf st (vs_conf st <| vc_vars := vars |>))
  | _ =>
      key ← deref (t_s tk);
      if strcasecmp key ".apply" =? 0 then
        foreach (fun st vl => '(_, st) ← apply st vl; mret st) (pr_vals pr) st
      else
        let parser := lookup_parser db pls key in
        let st := match parser with
                  | Some p =>
                      match pe_clear p with
                      | Some clear =>
                          if pr_operator pr =? 0 then with_conf st (clear (vs_conf st)) else st
                      | None => st
                      end
                  | None => st
                  end in
        foreach (set_value parser key) (pr_vals pr) st
  end.

Fixpoint vm_conf_set_params (fuel : nat) (st : vm_state NV) (sc : cfsection) : C (Z * vm_state NV) :=
  match fuel with
  | O => crash OutOfFuel
  | S fuel' =>
      st ← foreach (set_param (parse_apply (vm_conf_set_params fuel'))) (sc_params sc) st;
      mret (0, st)
  end.

End set_params.

(** ** Arithmetic *)

(** The expressions of the grammar, and the trees its actions build. *)
Inductive aexp :=
  | ANum (s : string)
  | AVar (x : string)
  | ANeg (a : aexp)
  | ABin (op : ascii) (a b : aexp).

Fixpoint to_cfexpr (a : aexp) : cfexpr :=
  match a with
  | ANum s => Build_cfexpr CF_NUM NUL (Some s) None None
  | AVar x => Build_cfexpr CF_VAR NUL (Some x) None None
  | ANeg a => Build_cfexpr CF_EXPR "~" None (Some (to_cfexpr a)) None
  | ABin op a b => Build_cfexpr CF_EXPR op None (Some (to_cfexpr a)) (Some (to_cfexpr b))
  end.

Fixpoint ops_ok (a : aexp) : bool :=
  match a with
  | ANum _ | AVar _ => true
  | ANeg a => ops_ok a
  | ABin op a b => existsb (Ascii.eqb op) ["+"; "-"; "*"; "/"; "%"]%char && ops_ok a && ops_ok b
  end.

(** The value over the integers; [None] for a text that is no number, an
    undefined variable, or a division by zero. *)
Definition abin (op : ascii) (x y : Z) : option Z :=
  if Ascii.eqb op "+" then Some (x + y)
  else if Ascii.eqb op "-" then Some (x - y)
  else if Ascii.eqb op "*" then Some (x * y)
  else if y =? 0 then None
  else if Ascii.eqb op "/" then Some (Z.quot x y) else Some (Z.rem x y).

Fixpoint aeval (vars : variables) (a : aexp) : option Z :=
  match a with
  | ANum s => number s
  | AVar x => get_var vars x ≫= number
  | ANeg a => Z.opp <$> aeval vars a
  | ABin op a b => x ← aeval vars a; y ← aeval vars b; abin op x y
  end.

(** Whether a computation stays within [long] and takes no remainder by zero.
    An operand that has no value ends the evaluation. *)
Definition bin_fits (op : ascii) (x y : Z) : bool :=
  if Ascii.eqb op "%" then negb (y =? 0) && in_long (Z.quot x y)
  else match abin op x y with Some z => in_long z | None => true end.

Fixpoint fits (vars : variables) (a : aexp) : bool :=
  match a with
  | ANum _ | AVar _ => true
  | ANeg a => fits vars a && match aeval vars a with Some x => in_long (- x) | None => true end
  | ABin op a b =>
      fits vars a &&
      match aeval vars a with
      | None => true
      | Some x => fits vars b && match aeval vars b with Some y => bin_fits op x y | None => true end
      end
  end.

Lemma binop_spec op x y :
  existsb (Ascii.eqb op) ["+"; "-"; "*"; "/"; "%"]%char = true ->
  forall o, binop op x y o =
    if bin_fits op x y then Done (abin op x y) o
    else if Ascii.eqb op "%" && (y =? 0) then Crash DivideByZero else Crash SignedOverflow.
Proof.
  intros Hop o. apply existsb_exists in Hop as (c & Hc & E). apply Ascii.eqb_eq in E as ->.
  unfold binop, bin_fits, abin, long_result.
  destruct Hc as [<- | [<- | [<- | [<- | [<- | []]]]]]; cbn [Ascii.eqb Bool.eqb andb negb].
  - by destruct (in_long (x + y)).
  - by destruct (in_long (x - y)).
  - by destruct (in_long (x * y)).
  - destruct (y =? 0); [done |]. by destruct (in_long (Z.quot x y)).
  - destruct (y =? 0); [done |]. by destruct (in_long (Z.quot x y)).
Qed.

Lemma calc_expr_spec vars a :
  ops_ok a = true ->
  (fits vars a = true -> forall o, calc_expr (Some vars) (to_cfexpr a) o = Done (aeval vars a) o) /\
  (fits vars a = false ->
   exists f, (f = SignedOverflow \/ f = DivideByZero) /\
        forall o, calc_expr (Some vars) (to_cfexpr a) o = Crash f).
Proof.
  induction a as [s | x | a IH | op a IHa b IHb]; cbn [ops_ok fits].
  - split; [| done]. intros _ o. reflexivity.
  - split; [| done]. intros _ o. cbn [to_cfexpr calc_expr ex_type ex_val aeval].
    unfold mbind, option_bind, C_bind, deref, mret, C_ret. by destruct (get_var vars x).
  - intros Ho. destruct (IH Ho) as [H1 H2]. destruct (fits vars a); cbn [andb].
    + specialize (H1 eq_refl). cbn [to_cfexpr calc_expr ex_type ex_left ex_op aeval].
      unfold mbind, C_bind. setoid_rewrite H1. destruct (aeval vars a) as [x |]; [| by split].
      cbn [Ascii.eqb Bool.eqb fmap option_fmap option_map]. unfold long_result.
      replace (-1 * x) with (- x) by lia. destruct (in_long (- x)); split; try done.
      intros _. exists SignedOverflow. auto.
    + split; [done |]. intros _. destruct (H2 eq_refl) as (f & Hf & Hc). exists f. split; [done |].
      intros o. cbn [to_cfexpr calc_expr ex_type ex_left]. unfold mbind, C_bind. by rewrite Hc.
  - intros Ho. apply andb_true_iff in Ho as [Ho Hob]. apply andb_true_iff in Ho as [Hop Hoa].
    destruct (IHa Hoa) as [A1 A2], (IHb Hob) as [B1 B2].
    assert (Ht : Ascii.eqb op "~" = false).
    { apply existsb_exists in Hop as (c & Hc & E). apply Ascii.eqb_eq in E as ->.
      by destruct Hc as [<- | [<- | [<- | [<- | [<- | []]]]]]. }
    cbn [to_cfexpr calc_expr ex_type ex_left ex_right ex_op aeval]. rewrite Ht.
    destruct (fits vars a); cbn [andb].
    + specialize (A1 eq_refl). unfold mbind, C_bind, option_bind. setoid_rewrite A1.
      destruct (aeval vars a) as [x |]; [| by split]. destruct (fits vars b); cbn [andb].
      * specialize (B1 eq_refl). setoid_rewrite B1. destruct (aeval vars b) as [y |]; [| by split].
        setoid_rewrite (binop_spec op x y Hop). destruct (bin_fits op x y); [by split |].
        split; [done |]. intros _. destruct (Ascii.eqb op "%" && (y =? 0)); eauto.
      * split; [done |]. intros _. destruct (B2 eq_refl) as (f & Hf & Hc). exists f.
        split; [done |]. intros o. by rewrite Hc.
    + split; [done |]. intros _. destruct (A2 eq_refl) as (f & Hf & Hc). exists f.
      split; [done |]. intros o. unfold mbind, C_bind. by rewrite Hc.
Qed.

(** [C29] On the expressions of the grammar, [calc_expr] computes the value over
    the integers (or reports an error) whenever the computation stays within
    [long] and takes no remainder by zero; otherwise its behaviour is undefined:
    unlike a division, a remainder by zero is not caught. *)
Theorem calc_expr_correct vars a :
  ops_ok a = true ->
  (fits vars a = true -> forall o, calc_expr (Some vars) (to_cfexpr a) o = Done (aeval vars a) o) /\
  (fits vars a = false ->
   exists f, (f = SignedOverflow \/ f = DivideByZero) /\
        forall o, calc_expr (Some vars) (to_cfexpr a) o = Crash f).
Proof. apply calc_expr_spec. Qed.

Lemma calc_expr_correct_witness :
  let vars := {| v_global := Some {["n" := "0x10"]}; v_local := None; v_args := None |} in
  (forall o, calc_expr (Some vars)
          (to_cfexpr (ABin "*" (ABin "+" (AVar "n") (ANum "010")) (ANeg (ANum "2")))) o
        = Done (Some (-48)) o) /\
  exists f, (f = SignedOverflow \/ f = DivideByZero) /\
       forall o, calc_expr (Some vars) (to_cfexpr (ABin "%" (AVar "n") (ANum "0"))) o = Crash f.
Proof.
  intros vars. split.
  - apply (calc_expr_correct vars
             (ABin "*" (ABin "+" (AVar "n") (ANum "010")) (ANeg (ANum "2")))); reflexivity.
  - apply (calc_expr_correct vars (ABin "%" (AVar "n") (ANum "0"))); reflexivity.
Defined.

Lemma number_print_dec n : LONG_MIN <= n <= LONG_MAX -> number (print_dec n) = Some n.
Proof. intros Hn. unfold number. by rewrite strtol_print_dec by auto. Qed.

Lemma number_range s n : number s = Some n -> LONG_MIN <= n <= LONG_MAX.
Proof.
  unfold number, strtol. destruct (read_sign (skip_space s)) as [neg s2].
  destruct (read_prefix 0 s2) as [b s3]. destruct (read_digits b s3 0 false) as [[acc any] rest].
  destruct any; case_match; intros [= <-]; unfold clamp_long, LONG_MIN, LONG_MAX; lia.
Qed.

Lemma rem_range x y : LONG_MIN <= x <= LONG_MAX -> y <> 0 -> LONG_MIN <= Z.rem x y <= LONG_MAX.
Proof.
  intros Hx Hy. unfold LONG_MIN, LONG_MAX in *.
  pose proof (Z.rem_abs x y Hy) as Ha. pose proof (Z.rem_le (Z.abs x) (Z.abs y)) as Hle.
  destruct (Z.le_ge_cases 0 x) as [H | H].
  - pose proof (Z.rem_nonneg x y Hy H). lia.
  - pose proof (Z.rem_nonpos x y Hy H). lia.
Qed.

Lemma aeval_range vars a : forall n,
  ops_ok a = true -> fits vars a = true -> aeval vars a = Some n -> LONG_MIN <= n <= LONG_MAX.
Proof.
  induction a as [s | x | a IH | op a IHa b IHb]; intros n; cbn [ops_ok fits aeval].
  - intros _ _. apply number_range.
  - intros _ _. destruct (get_var vars x); [apply number_range | done].
  - intros _ Hf. apply andb_true_iff in Hf as [_ Hf]. destruct (aeval vars a) as [x |]; [| done].
    intros [= <-]. by apply in_long_spec.
  - intros Ho Hf. apply andb_true_iff in Ho as [Ho _]. apply andb_true_iff in Ho as [Hop Hoa].
    apply andb_true_iff in Hf as [Hfa Hf]. destruct (aeval vars a) as [x |]; [| done].
    apply andb_true_iff in Hf as [_ Hf]. cbn. destruct (aeval vars b) as [y |]; [| done].
    cbn. unfold bin_fits in Hf. destruct (Ascii.eqb_spec op "%") as [-> |].
    + unfold abin. cbn [Ascii.eqb Bool.eqb]. destruct (Z.eqb_spec y 0); [done |].
      intros [= <-]. apply rem_range; [by apply IHa | done].
    + intros E. rewrite E in Hf. by apply in_long_spec.
Qed.

Definition expr_token (a : aexp) : cftoken :=
  {| t_type := CF_EXPR; t_s := None; t_len := 0; t_expr := Some (to_cfexpr a);
     t_filename := EmptyString; t_lineno := 0 |}.

(** An arithmetic value survives its way through a variable: after
    [$x = $((a))] in a VM's section, the expression [$x] has the value of [a]. *)
Theorem assign_expr_roundtrip vars t x a n :
  v_args vars = None -> v_local vars = Some t ->
  ops_ok a = true -> fits vars a = true -> aeval vars a = Some n ->
  exists vars',
    runs (assign_var vars (Some x) [{| vl_tokens := [expr_token a]; vl_args := [] |}]) vars' /\
    forall o, calc_expr (Some vars') (to_cfexpr (AVar x)) o = Done (Some n) o.
Proof.
  intros Ha Hl Ho Hf Hn. eexists. split.
  - unfold assign_var. cbn [head]. eapply runs_bind; [apply runs_ret |].
    eapply runs_bind.
    + unfold token_to_string. eapply runs_bind; [apply runs_malloc |]. cbn [tokens_text vl_tokens].
      eapply (runs_bind _ _ (Some (print_dec n))); [| apply runs_ret].
      unfold token_text. cbn [t_type expr_token t_expr]. eapply runs_bind; [apply runs_ret |].
      eapply runs_bind; [by apply (calc_expr_spec vars a Ho) |]. rewrite Hn. apply runs_ret.
    + cbn beta iota. eapply runs_bind; [by apply runs_set_var_local | apply runs_ret].
  - intros o. pose proof (updates_local vars t x (print_dec n) Ha Hl x) as Hu.
    rewrite decide_True in Hu by done.
    cbn [to_cfexpr calc_expr ex_type ex_val]. unfold mbind, C_bind, deref, mret, C_ret.
    change (EmptyString +:+ print_dec n) with (print_dec n).
    rewrite Hu, number_print_dec; [done |]. by eapply aeval_range.
Qed.

Lemma assign_expr_roundtrip_witness :
  exists vars',
    runs (assign_var {| v_global := None; v_local := Some {["ID" := "7"]}; v_args := None |}
            (Some "port")
            [{| vl_tokens := [expr_token (ABin "+" (ANum "5900") (AVar "ID"))]; vl_args := [] |}])
         vars' /\
    forall o, calc_expr (Some vars') (to_cfexpr (AVar "port")) o = Done (Some 5907) o.
Proof.
  eapply (assign_expr_roundtrip
           {| v_global := None; v_local := Some {["ID" := "7"]}; v_args := None |}
           {["ID" := "7"]} "port" (ABin "+" (ANum "5900") (AVar "ID")) 5907);
    vm_compute; reflexivity.
Defined.

(** ** Templates: termination *)

Section termination.
Context {NV : Type} (db : sysdb) (pls : plugins NV).

(** How many templates can still be applied. *)
Definition unapplied (tmpls : list cfsection) : nat :=
  length (filter (fun sc => sc_applied sc = 0) tmpls).

Lemma unapplied_insert tmpls i tp tp' :
  tmpls !! i = Some tp -> sc_applied tp = 0 -> sc_applied tp' <> 0 ->
  S (unapplied (<[i := tp']> tmpls)) = unapplied tmpls.
Proof.
  unfold unapplied. revert i. induction tmpls as [| sc tmpls IH]; intros [| i] Hi H0 H1; try done.
  - injection Hi as ->. cbn [list_insert insert]. rewrite filter_cons_False by done.
    by rewrite filter_cons_True.
  - cbn in Hi. specialize (IH i Hi H0 H1). change (<[S i:=tp']> (sc :: tmpls)) with (sc :: <[i:=tp']> tmpls).
    destruct (decide (sc_applied sc = 0)).
    + rewrite !filter_cons_True by done. cbn. lia.
    + rewrite !filter_cons_False by done. done.
Qed.

(** Induction over an expression and its operands. *)
Lemma cfexpr_nested_ind (P : cfexpr -> Prop) :
  (forall ty op val l r, (forall x, l = Some x -> P x) -> (forall x, r = Some x -> P x) ->
                    P (Build_cfexpr ty op val l r)) ->
  forall ex, P ex.
Proof.
  intros H. fix IH 1. intros [ty op val l r]. apply H.
  - destruct l as [l |]; intros x E; [injection E as <-; apply IH | discriminate].
  - destruct r as [r |]; intros x E; [injection E as <-; apply IH | discriminate].
Qed.

Lemma nofuel_calc_expr vars ex : nofuel (calc_expr vars ex).
Proof.
  induction ex as [ty op val l r IHl IHr] using cfexpr_nested_ind.
  destruct ty; cbn [calc_expr ex_type ex_val ex_left ex_right ex_op]; try by steps_nofuel.
  destruct l as [l |]; [| steps_nofuel]. apply nofuel_bind; [by apply IHl |].
  intros [lv |]; [| steps_nofuel]. unfold long_result, binop.
  destruct (Ascii.eqb op "~"); [steps_nofuel |].
  destruct r as [r |]; [| steps_nofuel]. apply nofuel_bind; [by apply IHr |].
  unfold long_result. steps_nofuel.
Qed.

Lemma nofuel_token_to_string vars ts : nofuel (token_to_string vars ts).
Proof.
  unfold token_to_string. apply nofuel_bind; [apply nofuel_malloc |]. intros []; [| steps_nofuel].
  generalize EmptyString. induction ts as [| tk ts IH]; intros out; cbn [tokens_text]; [steps_nofuel |].
  apply nofuel_bind.
  - unfold token_text. repeat first [apply nofuel_calc_expr | step_nofuel].
  - intros []; [apply IH | steps_nofuel].
Qed.

Lemma nofuel_assign_var vars k vals : nofuel (assign_var vars k vals).
Proof.
  unfold assign_var. repeat first [apply nofuel_token_to_string | apply nofuel_set_var | step_nofuel].
Qed.

Lemma nofuel_lookup_template tmpls name : nofuel (lookup_template tmpls name).
Proof. induction tmpls; cbn [lookup_template]; steps_nofuel. Qed.

Lemma nofuel_bind_args vars defs : forall as_ args, nofuel (bind_args vars defs as_ args).
Proof.
  induction defs as [| def defs IH]; intros as_ args; cbn [bind_args]; [steps_nofuel |].
  apply nofuel_bind; [apply nofuel_token_to_string |]. intros v.
  apply nofuel_bind; [apply nofuel_set_var0 |]. intros [rc args']. apply IH.
Qed.

(** The invariant of the recursion: the number of templates left does not grow. *)
Definition keeps_fuel (n : nat) (p : Z * vm_state NV) : Prop :=
  (unapplied (vs_tmpls p.2) <= n)%nat.

Lemma parse_apply_fuel set_params (st : vm_state NV) vl n :
  (unapplied (vs_tmpls st) <= n)%nat ->
  (forall st' sc, (unapplied (vs_tmpls st') < n)%nat ->
     wp (set_params st' sc) (keeps_fuel n) (fun f => f <> OutOfFuel)) ->
  wp (parse_apply set_params st vl) (keeps_fuel n) (fun f => f <> OutOfFuel).
Proof.
  intros Hn Hset. unfold parse_apply. apply wp_bind.
  eapply wp_mono; [apply nofuel_token_to_string | intros [val |] _ | done]; [| by apply wp_ret].
  apply wp_bind. eapply wp_mono; [apply nofuel_lookup_template | intros [i |] _ | done]; [| by apply wp_ret].
  destruct (vs_tmpls st !! i) as [tp |] eqn:Hi; [| by apply wp_bind, wp_crash].
  apply wp_bind, wp_ret. destruct (Z.eqb_spec (sc_applied tp) 0) as [H0 | H0]; cbn [negb];
    [| by apply wp_ret].
  apply wp_bind, wp_malloc. intros []; cbn [negb]; [| by apply wp_ret].
  apply wp_bind. eapply wp_mono; [apply nofuel_bind_args | intros args _ | done].
  cbn zeta. apply wp_bind. eapply wp_mono; [apply Hset | | done].
  - assert (H1 : sc_applied tp + 1 <> 0) by lia.
    pose proof (unapplied_insert (vs_tmpls st) i tp (tp <| sc_applied := sc_applied tp + 1 |>)
                  Hi H0 H1) as E.
    rewrite <- E in Hn. exact Hn.
  - intros [rc st'] H. by apply wp_ret.
Qed.

Lemma wp_nofuel {A} (c : C A) (Q : A -> Prop) :
  nofuel c -> wp c Q (fun _ => True) -> wp c Q (fun f => f <> OutOfFuel).
Proof. intros H1 H2 o. specialize (H1 o). specialize (H2 o). by destruct (c o). Qed.

(** A value changes the configuration or the plugins' data, not the templates. *)
Lemma set_value_tmpls parser key (st : vm_state NV) vl :
  (forall p, parser = Some p -> In p (parser_list db pls)) ->
  wp (set_value parser key st vl) (fun st' => vs_tmpls st' = vs_tmpls st) (fun f => f <> OutOfFuel).
Proof.
  intros Hp. unfold set_value. apply wp_bind.
  eapply wp_mono; [apply nofuel_token_to_string | intros [val |] _ | done]; [| by apply wp_ret].
  destruct parser as [p |].
  - apply wp_bind. eapply wp_mono; [apply (parse_entry_nofuel db pls); auto | | done].
    intros [rc conf] _. by apply wp_ret.
  - destruct (call_plugin_parser (vs_pl_data st) key val). by apply wp_ret.
Qed.

Lemma set_param_fuel apply (st : vm_state NV) pr n :
  (unapplied (vs_tmpls st) <= n)%nat ->
  (forall st' vl, (unapplied (vs_tmpls st') <= n)%nat ->
     wp (apply st' vl) (keeps_fuel n) (fun f => f <> OutOfFuel)) ->
  wp (set_param db pls apply st pr) (fun st' => (unapplied (vs_tmpls st') <= n)%nat)
     (fun f => f <> OutOfFuel).
Proof.
  intros Hn Happly. unfold set_param. apply wp_bind.
  eapply wp_mono; [apply nofuel_deref | intros tk _ | done].
  assert (Hvar : wp (vars ← assign_var (vc_vars (vs_conf st)) (t_s tk) (pr_vals pr);
                     mret (with_conf st (vs_conf st <| vc_vars := vars |>)))
                   (fun st' => (unapplied (vs_tmpls st') <= n)%nat) (fun f => f <> OutOfFuel)).
  { apply wp_bind. eapply wp_mono; [apply nofuel_assign_var | intros vars _; by apply wp_ret | done]. }
  destruct (t_type tk); [| exact Hvar | |];
    (apply wp_bind; eapply wp_mono; [apply nofuel_deref | intros key _ | done];
     destruct (strcasecmp key ".apply" =? 0);
     [ apply wp_foreach; [exact Hn |]; intros vl st' _ Hst'; apply wp_bind;
       eapply wp_mono; [by apply Happly | intros [rc st''] H; by apply wp_ret | done]
     | apply wp_foreach;
       [ repeat case_match; exact Hn
       | intros vl st' _ Hst'; eapply wp_mono;
         [apply set_value_tmpls, lookup_parser_In | intros st'' ->; exact Hst' | done] ] ]).
Qed.

(** With fuel for every template left the recursion ends. *)
Lemma vm_conf_set_params_fuel fuel (st : vm_state NV) sc :
  (unapplied (vs_tmpls st) < fuel)%nat ->
  wp (vm_conf_set_params db pls fuel st sc)
     (fun p => (unapplied (vs_tmpls p.2) <= unapplied (vs_tmpls st))%nat)
     (fun f => f <> OutOfFuel).
Proof.
  intros Hf. eapply wp_mono with (Q := keeps_fuel (unapplied (vs_tmpls st))); [| done | done].
  assert (Hn : (unapplied (vs_tmpls st) <= unapplied (vs_tmpls st))%nat) by lia.
  revert Hf Hn. generalize (unapplied (vs_tmpls st)) at 1 3 4 as n. intros n.
  revert st sc n. induction fuel as [| fuel IH]; intros st sc n Hf Hn; [lia |].
  cbn [vm_conf_set_params]. apply wp_bind.
  eapply wp_mono; [apply (wp_foreach _ _ (fun st' => (unapplied (vs_tmpls st') <= n)%nat)
                            (fun f => f <> OutOfFuel)) | | done].
  - exact Hn.
  - intros pr st' _ Hst'. apply set_param_fuel; [done |]. intros st2 vl Hst2.
    apply parse_apply_fuel; [done |]. intros st3 sc3 Hst3.
    eapply wp_mono; [apply (IH st3 sc3 (unapplied (vs_tmpls st3))); lia | | done].
    unfold keeps_fuel. intros p Hp. lia.
  - intros st' H. by apply wp_ret.
Qed.

(** [C30] Applying templates terminates: with one unit of fuel for every
    template that is not applied yet, and one for the section itself, the
    evaluation of a section never runs out of fuel, whatever the section and
    the templates contain (templates that apply themselves or each other
    included).  The templates that can still be applied only become fewer. *)
Theorem vm_conf_set_params_terminates fuel (st : vm_state NV) sc :
  (unapplied (vs_tmpls st) < fuel)%nat ->
  wp (vm_conf_set_params db pls fuel st sc)
     (fun p => (unapplied (vs_tmpls p.2) <= unapplied (vs_tmpls st))%nat)
     (fun f => f <> OutOfFuel).
Proof. apply vm_conf_set_params_fuel. Qed.

End termination.

(** ** Templates: who owns the VM *)

Section ownership.
Context {NV : Type} (db : sysdb) (pls : plugins NV).

Lemma clear_keeps_owner e clear c :
  In e (parser_list db pls) -> pe_clear e = Some clear -> same_owner c (clear c).
Proof.
  intros Hin. unfold parser_list in Hin. cbn [In] in Hin.
  repeat (destruct Hin as [<- | Hin]); cbn [pe_clear entry]; intros E; try done;
    injection E as <-; by destruct c.
Qed.

(** The configuration belongs to whom [c0] belongs. *)
Definition kept (c0 : vm_conf) (st : vm_state NV) : Prop := owner_kept db c0 (vs_conf st).

Lemma kept_owner c0 st : kept c0 st -> get_owner (vs_conf st) = get_owner c0.
Proof. by intros [H _]. Qed.

Lemma kept_same c0 st c :
  kept c0 st -> same_owner (vs_conf st) c -> kept c0 (with_conf st c).
Proof. intros H Hs. eapply owner_kept_trans; [exact H | by apply same_owner_kept]. Qed.

Lemma set_value_kept c0 parser key st vl :
  get_owner c0 <> 0 -> (forall p, parser = Some p -> In p (parser_list db pls)) ->
  kept c0 st -> wp (set_value parser key st vl) (kept c0) (fun _ => True).
Proof.
  intros H0 Hp Hk. unfold set_value. apply wp_bind.
  eapply wp_mono; [apply wp_any | intros [val |] _ | done]; [| by apply wp_ret].
  destruct parser as [p |].
  - apply wp_bind. eapply wp_mono; [apply (parse_entry_owner_kept db pls); auto | | done].
    + by rewrite (kept_owner c0 st Hk).
    + intros [rc conf] Hc. apply wp_ret. by eapply owner_kept_trans.
  - destruct (call_plugin_parser (vs_pl_data st) key val). by apply wp_ret.
Qed.

Lemma set_param_kept c0 apply st pr :
  get_owner c0 <> 0 -> kept c0 st ->
  (forall st' vl, kept c0 st' -> wp (apply st' vl) (fun p => kept c0 p.2) (fun _ => True)) ->
  wp (set_param db pls apply st pr) (kept c0) (fun _ => True).
Proof.
  intros H0 Hk Happly. unfold set_param. apply wp_bind.
  eapply wp_mono; [apply wp_any | intros tk _ | done].
  assert (Hvar : wp (vars ← assign_var (vc_vars (vs_conf st)) (t_s tk) (pr_vals pr);
                     mret (with_conf st (vs_conf st <| vc_vars := vars |>)))
                   (kept c0) (fun _ => True)).
  { apply wp_bind. eapply wp_mono; [apply wp_any | intros vars _ | done].
    apply wp_ret. by apply kept_same. }
  destruct (t_type tk); [| exact Hvar | |];
    (apply wp_bind; eapply wp_mono; [apply wp_any | intros key _ | done];
     destruct (strcasecmp key ".apply" =? 0);
     [ apply wp_foreach; [exact Hk |]; intros vl st' _ Hst'; apply wp_bind;
       eapply wp_mono; [by apply Happly | intros [rc st''] H; by apply wp_ret | done]
     | apply wp_foreach;
       [ destruct (lookup_parser db pls key) as [p |] eqn:Hp; [| exact Hk];
         destruct (pe_clear p) as [clear |] eqn:Hc; [| exact Hk];
         destruct (pr_operator pr =? 0); [| exact Hk];
         apply kept_same; [exact Hk | by eapply clear_keeps_owner; [eapply lookup_parser_In |]]
       | intros vl st' _ Hst'; by apply set_value_kept; [| apply lookup_parser_In |] ] ]).
Qed.

Lemma parse_apply_kept c0 set_params st vl :
  kept c0 st ->
  (forall st' sc, kept c0 st' -> wp (set_params st' sc) (fun p => kept c0 p.2) (fun _ => True)) ->
  wp (parse_apply set_params st vl) (fun p => kept c0 p.2) (fun _ => True).
Proof.
  intros Hk Hset. unfold parse_apply. apply wp_bind.
  eapply wp_mono; [apply wp_any | intros [val |] _ | done]; [| by apply wp_ret].
  apply wp_bind. eapply wp_mono; [apply wp_any | intros [i |] _ | done]; [| by apply wp_ret].
  apply wp_bind. eapply wp_mono; [apply wp_any | intros tp _ | done].
  destruct (sc_applied tp =? 0); cbn [negb]; [| by apply wp_ret].
  apply wp_bind, wp_malloc. intros []; cbn [negb]; [| by apply wp_ret].
  apply wp_bind. eapply wp_mono; [apply wp_any | intros args _ | done].
  cbn zeta. apply wp_bind. eapply wp_mono; [apply Hset | | done].
  - by apply (kept_same c0 (with_tmpls st _)).
  - intros [rc st'] H. apply wp_ret. by apply kept_same.
Qed.

(** Whatever the parameters of a section and the templates it applies say, the
    owner stays and the group stays or becomes one of the groups of that owner
    in the user database. *)
Lemma vm_section_owner_kept fuel st sc :
  get_owner (vs_conf st) <> 0 ->
  wp (vm_conf_set_params db pls fuel st sc)
     (fun p => owner_kept db (vs_conf st) (vs_conf p.2)) (fun _ => True).
Proof.
  intros H0. set (c0 := vs_conf st) in *. change (wp (vm_conf_set_params db pls fuel st sc)
    (fun p => kept c0 p.2) (fun _ => True)).
  assert (Hk : kept c0 st) by (apply same_owner_kept; by split). clearbody c0.
  revert st sc Hk. induction fuel as [| fuel IH]; intros st sc Hk; cbn [vm_conf_set_params];
    [by apply wp_crash |].
  apply wp_bind. eapply wp_mono; [apply (wp_foreach _ _ (kept c0) (fun _ => True)) | | done].
  - exact Hk.
  - intros pr st' _ Hst'. apply set_param_kept; [done | done |]. intros st2 vl Hst2.
    by apply parse_apply_kept; [| intros st3 sc3; apply IH].
  - intros st' H. by apply wp_ret.
Qed.

End ownership.

(** ** A small configuration *)

Definition str_token (s : string) : cftoken :=
  {| t_type := CF_STR; t_s := Some s; t_len := String.length s; t_expr := None;
     t_filename := EmptyString; t_lineno := 0 |}.

Definition str_value (s : string) : cfvalue := {| vl_tokens := [str_token s]; vl_args := [] |}.

Definition str_param (k : string) (op : Z) (vals : list string) : cfparam :=
  {| pr_key := Some (str_token k); pr_vals := str_value <$> vals; pr_operator := op |}.

Definition section (name : string) (params : list cfparam) : cfsection :=
  {| sc_name := Some name; sc_params := params; sc_argdefs := []; sc_applied := 0;
     sc_duplicate := 0; sc_owner := 1001; sc_filename := EmptyString |}.

(** Alice (1001) is in the group 20; Bob is 1002. *)
Definition demo_db : sysdb := {|
  getpwnam := fun n => if String.eqb n "alice" then Some {| pw_name := n; pw_uid := 1001; pw_gid := 1001 |}
                       else if String.eqb n "bob" then Some {| pw_name := n; pw_uid := 1002; pw_gid := 1002 |}
                       else None;
  getpwuid := fun u => if u =? 1001 then Some {| pw_name := "alice"; pw_uid := 1001; pw_gid := 1001 |}
                       else None;
  getgrnam := fun n => if String.eqb n "staff" then Some {| gr_gid := 20 |} else None;
  getgrouplist := fun n g => if String.eqb n "alice" then Some [g; 20] else Some [g];
|}.

Definition demo_plugins : plugins unit := {| plugin_list := [bhyve_desc]; loaded := 0 |}.

(** Two templates that apply each other. *)
Definition demo_state : vm_state unit := {|
  vs_conf := default_conf "vm" 0 <| vc_owner := 1001 |>;
  vs_pl_data := [];
  vs_tmpls := [section "a" [str_param ".apply" 0 ["b"]; str_param "ncpu" 0 ["2"]];
               section "b" [str_param ".apply" 0 ["a"]; str_param "memory" 0 ["1G"]]]
|}.

Definition demo_section : cfsection :=
  section "vm" [str_param ".apply" 0 ["a"]; str_param "owner" 0 ["bob"; "alice:staff"]].

(** What becomes of it: both templates are applied once, Bob is refused, the
    group is accepted. *)
Example demo_run :
  match vm_conf_set_params demo_db demo_plugins 3 demo_state demo_section [] with
  | Done (rc, st) _ => (rc, vc_ncpu (vs_conf st), vc_memory (vs_conf st), vc_owner (vs_conf st),
                        vc_group (vs_conf st), unapplied (vs_tmpls st))
                       = (0, Some "2", Some "1G", 1001, 20, 0%nat)
  | Crash _ => False
  end.
Proof. vm_compute. reflexivity. Qed.

Lemma vm_conf_set_params_terminates_witness :
  wp (vm_conf_set_params demo_db demo_plugins 3 demo_state demo_section)
     (fun p => (unapplied (vs_tmpls p.2) <= unapplied (vs_tmpls demo_state))%nat)
     (fun f => f <> OutOfFuel).
Proof.
  apply (vm_conf_set_params_terminates demo_db demo_plugins 3 demo_state demo_section).
  vm_compute. lia.
Defined.
