(* ===== verification/Load.v ===== *)
(** * Reading the configuration (src/parser.c 1159-1456, src/confparse.y 503-541)

    The list of files, the child process that parses each of them, and
    [load_config_file], which builds the VM configurations from the sections.

    What is outside of the program is an argument: the file system ([fsys]),
    the parser that yacc and lex generate ([yyparse], which reads the contents
    of a file and extends the context in shared memory), the addresses that
    [mmap] returns, the user database and the plugins. *)

From S2P Require Import Prelude CString Vars Conf Global MPool Plugin ParseValue Parser.
From Stdlib Require Import Ascii.

Local Open Scope Z_scope.

(** ** Data *)

Record cffile := { f_name : string; f_line : Z }.

Record parser_context := {
  cfglobals : list cfsection;
  cftemplates : list cfsection;
  cfvms : list cfsection;
  cffiles : list cffile;
  cur_file : option cffile;
}.

#[export] Instance eta_parser_context : Eta parser_context := fun c => {|
  cfglobals := cfglobals c; cftemplates := cftemplates c; cfvms := cfvms c;
  cffiles := cffiles c; cur_file := cur_file c |}.

(** [stat]: owner, group, and whether it is a regular file. *)
Record file_stat := { st_uid : Z; st_gid : Z; st_isreg : bool }.

(** [open_as uid gid name] is the contents of the file when a process of that
    user and group may read it. *)
Record fsys := {
  realpath : string -> option string;
  access_r : string -> bool;
  stat : string -> option file_stat;
  open_as : Z -> Z -> string -> option string;
  dirname : string -> string;
  glob : string -> option (list string);
}.

(** How the child that parses a file ends: by [exit] with the shared memory it
    leaves behind, or by a signal; or it does not end, and the daemon waits for it for ever. *)
Inductive child_end :=
  | Exited (status : Z) (ctx : parser_context) (st : pools)
  | Signaled
  | Hung.

Definition yyparser : Type := string -> parser_context -> pools -> child_end.

Definition UID_NOBODY : Z := 65534.

Definition sizeof_cffile : Z := 24.

Definition sizeof_parser_context : Z := 72.

(** The process-wide state that reading the configuration uses and changes. *)
Record globals (NV : Type) := {
  G_gl_conf : gl_ptr;
  G_global_vars : option (gmap string string);
  G_ids : ids;
  G_plugins : plugins NV;
}.
Arguments G_gl_conf {NV} g.
Arguments G_global_vars {NV} g.
Arguments G_ids {NV} g.
Arguments G_plugins {NV} g.
Arguments Build_globals {NV} _ _ _ _.

(** [struct vm_conf_entry]. *)
Record vm_conf_entry (NV : Type) := { ce_conf : vm_conf; ce_pl_data : list (plugin_data NV) }.
Arguments ce_conf {NV} v.
Arguments ce_pl_data {NV} v.
Arguments Build_vm_conf_entry {NV} _ _.

(** ** Files *)

Section files.
Context (fs : fsys).

Definition push_file (ctx : parser_context) (st : pools) (fn : option string)
    : C (Z * parser_context * pools) :=
  match fn ≫= realpath fs with
  | None => mret (0, ctx, st)
  | Some path =>
      if (strncmp path "/dev" 4 =? 0) || negb (access_r fs path) then mret (-1, ctx, st)
      else if existsb (fun f => strcmp (f_name f) path =? 0) (cffiles ctx) then mret (-1, ctx, st)
      else
        '(rpath, st) ← mpool_strdup st path;
        '(file, st) ← mpool_alloc st sizeof_cffile;
        match rpath, file with
        | Some _, Some _ =>
            mret (0, ctx <| cffiles := cffiles ctx ++ [{| f_name := path; f_line := 0 |}] |>, st)
        | _, _ => mret (-1, ctx, st)
        end
  end.

Definition peek_filename (ctx : parser_context) : C string :=
  match cur_file ctx with
  | Some f => mret (f_name f)
  | None => f ← deref (last (cffiles ctx)); mret (f_name f)
  end.

Definition peek_fileowner (ctx : parser_context) : C Z :=
  fn ← peek_filename ctx;
  mret (match stat fs fn with None => UID_NOBODY | Some s => st_uid s end).

(** The [.include] macro. *)
Definition glob_path (gv : option (gmap string string)) (ctx : parser_context) (st : pools)
    (ts : cftokens) : C (parser_context * pools) :=
  let vars := {| v_global := gv; v_local := None; v_args := None |} in
  match head ts with
  | None => mret (ctx, st)
  | Some tk =>
      path ← token_to_string (Some vars) ts;
      match path with
      | None => mret (ctx, st)
      | Some path =>
          path ← (if Ascii.eqb (char_at path 0) "/" then mret path
                  else
                    conf ← strdup (t_filename tk);
                    match conf with
                    | None => mret path
                    | Some conf =>
                        ok ← malloc;
                        mret (if (ok : bool) then dirname fs conf +:+ "/" +:+ path else path)
                    end);
          match glob fs path with
          | None => mret (ctx, st)
          | Some l =>
              foreach (fun '(ctx, st) p =>
                         '(_, ctx, st) ← push_file ctx st (Some p); mret (ctx, st)) l (ctx, st)
          end
      end
  end.

(** ** Sections *)

Inductive SECTION := SECTION_GLOBAL | SECTION_TEMPLATE | SECTION_VM.

Definition sections (ctx : parser_context) (sec : SECTION) : list cfsection :=
  match sec with
  | SECTION_GLOBAL => cfglobals ctx
  | SECTION_TEMPLATE => cftemplates ctx
  | SECTION_VM => cfvms ctx
  end.

Definition with_sections (ctx : parser_context) (sec : SECTION) (l : list cfsection)
    : parser_context :=
  match sec with
  | SECTION_GLOBAL => ctx <| cfglobals := l |>
  | SECTION_TEMPLATE => ctx <| cftemplates := l |>
  | SECTION_VM => ctx <| cfvms := l |>
  end.

(** The first section of that name gets [duplicate++]. *)
Fixpoint mark_duplicate (name : string) (l : list cfsection) : C (list cfsection) :=
  match l with
  | [] => mret []
  | v :: l' =>
      n ← deref (sc_name v);
      if strcmp n name =? 0 then mret (v <| sc_duplicate := sc_duplicate v + 1 |> :: l')
      else l'' ← mark_duplicate name l'; mret (v :: l'')
  end.

Definition sizeof_cfsection : Z := 72.

(** [Some] context when the section was added, with the section at the end of
    its list; [None] is the result NULL. *)
Definition add_section (ctx : parser_context) (st : pools) (sec : SECTION) (name : option string)
    : C (bool * parser_context * pools) :=
  l ← match name, sec with
      | None, _ => mret (sections ctx sec)
      | _, SECTION_GLOBAL => mret (sections ctx sec)
      | Some n, _ => mark_duplicate n (sections ctx sec)
      end;
  let ctx := with_sections ctx sec l in
  '(v, st) ← mpool_alloc st sizeof_cfsection;
  match v with
  | None => mret (false, ctx, st)
  | Some _ =>
      owner ← peek_fileowner ctx;
      filename ← peek_filename ctx;
      let v := {| sc_name := name; sc_params := []; sc_argdefs := []; sc_applied := 0;
                  sc_duplicate := 0; sc_owner := owner; sc_filename := filename |} in
      mret (true, with_sections ctx sec (l ++ [v]), st)
  end.

(** ** The child process *)

Section child.
Context (yyparse : yyparser).

(** The child: it gives up the rights of the daemon before it opens the file.
    A file that is none, or that its owner may not read, is skipped. *)
Definition child (file : cffile) (ctx : parser_context) (st : pools) : child_end :=
  match stat fs (f_name file) with
  | None => Exited 0 ctx st
  | Some s =>
      if negb (st_isreg s) then Exited 0 ctx st
      else
        match open_as fs (st_uid s) (st_gid s) (f_name file) with
        | None => Exited 0 ctx st
        | Some contents => yyparse contents ctx st
        end
  end.

(** [END_UP(list)]: [STAILQ_LAST] of an empty list is NULL. *)
Definition END_UP {A} (l : list A) : C unit :=
  match l with
  | [] => crash NullDeref
  | _ :: _ => mret tt
  end.

(** [mms] are the answers of [mmap] to the expansions of the pool; the oracle says
    whether [fork] succeeds.  The result carries the answers that are left.  For another try the context is what it was
    before; the code cuts its lists where they ended and leaves the marks of duplicates, which the next try, on the same text,
    makes again. *)
Fixpoint parse (mms : list Z) (file : cffile) (ctx : parser_context) (st : pools)
    : C (Z * parser_context * pools * list Z) :=
  let st0 := mpool_snapshot st in
  let snapshot := ctx in
  let ctx := ctx <| cur_file := Some file |> in
  fork ← malloc;
  if negb fork then mret (-1, ctx, st0, mms)
  else
    match child file ctx st0 with
    | Signaled => mret (-1, ctx, st0, mms)
    | Hung => crash OutOfFuel
    | Exited status ctx st =>
        if status =? 0 then mret (0, ctx, st, mms)
        else
          match mpool_get_error st with
          | MPERR_NONE | MPERR_FATAL => mret (-1, ctx, st, mms)
          | MPERR_ALLOC =>
              let st := mpool_rollback st in
              _ ← END_UP (cfglobals snapshot);
              _ ← END_UP (cftemplates snapshot);
              _ ← END_UP (cfvms snapshot);
              _ ← END_UP (cffiles snapshot);
              match mms with
              | [] => crash OutOfFuel
              | m :: mms' =>
                  '(rc, st) ← mpool_expand st m;
                  if rc <? 0 then mret (-1, snapshot, st, mms') else parse mms' file snapshot st
              end
          end
    end.

End child.
End files.

(** ** The VMs *)

(** [realloc] of the configuration to the larger [struct vm_conf_entry]: the
    heads of its queues are in a new place afterwards.  The structures have 312
    and 336 bytes on amd64, which are of different size classes (320 and 384)
    of the C library's allocator, so the block does move. *)
Definition conf_moved (c : vm_conf) : vm_conf := c
  <| vc_disks := stailq_moved (vc_disks c) |>
  <| vc_isoes := stailq_moved (vc_isoes c) |>
  <| vc_nets := stailq_moved (vc_nets c) |>
  <| vc_passthrues := stailq_moved (vc_passthrues c) |>
  <| vc_bhyveload_envs := stailq_moved (vc_bhyveload_envs c) |>
  <| vc_bhyve_envs := stailq_moved (vc_bhyve_envs c) |>.

Section load.
Context {NV : Type} (nv_empty : NV) (db : sysdb) (pls : plugins NV).

(** The state of the loop over the [vm] sections. *)
Record load_state := {
  ls_list : list (vm_conf_entry NV);
  ls_tmpls : list cfsection;
  ls_ids : ids;
}.

(** The configuration before its parameters: from [create_vm_conf] to the
    [realloc]; [None] when the section is skipped. *)
Definition start_vm (gv : gmap string string) (st : ids) (sc : cfsection)
    : C (option vm_conf * ids) :=
  name ← deref (sc_name sc);
  '(conf, st) ← create_vm_conf st name;
  match conf with
  | None => mret (None, st)
  | Some conf =>
      let conf := conf <| vc_vars := vc_vars conf <| v_global := Some gv |> |>
                       <| vc_owner := sc_owner sc |> in
      conf ← match getpwuid db (vc_owner conf) with
             | None => mret conf
             | Some pw => conf_set_var conf "OWNER" (pw_name pw)
             end;
      conf ← conf_set_var conf "GROUP" EmptyString;
      ok ← malloc;
      mret (if (ok : bool) then Some (conf_moved conf) else None, st)
  end.

Definition load_vm (gv : gmap string string) (s : load_state) (sc : cfsection) : C load_state :=
  '(rc, head) ← create_plugin_data nv_empty pls;
  if rc <? 0 then mret s
  else
    '(conf, st) ← start_vm gv (ls_ids s) sc;
    let s := {| ls_list := ls_list s; ls_tmpls := ls_tmpls s; ls_ids := st |} in
    match conf with
    | None => mret s
    | Some conf =>
        let tmpls := clear_applied (ls_tmpls s) in
        '(rc, vs) ← vm_conf_set_params db pls (S (length tmpls))
                      {| vs_conf := conf; vs_pl_data := head; vs_tmpls := tmpls |} sc;
        let s := {| ls_list := ls_list s; ls_tmpls := vs_tmpls vs; ls_ids := ls_ids s |} in
        if rc <? 0 then mret s
        else
          let '(rc, conf) := finalize_vm_conf (Some (vs_conf vs)) in
          if rc <? 0 then mret s
          else
            conf ← deref conf;
            rc ← check_conf conf;
            if rc <? 0 then mret s
            else mret {| ls_list := {| ce_conf := conf; ce_pl_data := vs_pl_data vs |} :: ls_list s;
                         ls_tmpls := ls_tmpls s; ls_ids := ls_ids s |}
    end.

(** The global sections: those that root does not own are skipped. *)
Definition load_globals (scs : list cfsection) (gc : global_conf) (vars : variables)
    : C (global_conf * variables) :=
  foreach (fun '(gc, vars) sc =>
    if sc_owner sc =? 0 then '(_, r) ← gl_conf_set_params gc vars sc; mret r
    else mret (gc, vars)) scs (gc, vars).

End load.

(** ** [load_config_file] *)

Section load_config_file.
Context {NV : Type} (nv_empty : NV) (db : sysdb) (fs : fsys) (yyparse : yyparser)
        (plugin_dir : option string -> option (list (dir_entry NV))).

(** The loop over the files, which grows while it runs; [i] is the position. *)
Fixpoint parse_files (fuel : nat) (mms : list Z) (i : nat) (ctx : parser_context) (st : pools)
    : C (Z * parser_context * pools) :=
  match cffiles ctx !! i with
  | None => mret (0, ctx, st)
  | Some inf =>
      match fuel with
      | O => crash OutOfFuel
      | S fuel' =>
          '(rc, ctx, st, mms) ← parse fs yyparse mms inf ctx st;
          if rc <? 0 then mret (-1, ctx, st) else parse_files fuel' mms (S i) ctx st
      end
  end.

Definition empty_context : parser_context :=
  {| cfglobals := []; cftemplates := []; cfvms := []; cffiles := []; cur_file := None |}.

(** From the initialisation of the pool to the end of the parsing: [None] is
    the jump to [err] or the first two returns of -1. *)
Definition load_context (fuel : nat) (m0 : Z) (mms : list Z) (config_file : option string)
    : C (option (parser_context * gmap string string)) :=
  '(rc, st) ← mpool_init {| mpools := []; mem := ∅ |} m0;
  if rc <? 0 then mret None
  else
    '(pctxt, st) ← mpool_alloc st sizeof_parser_context;
    '(pctxt_snapshot, st) ← mpool_alloc st sizeof_parser_context;
    match pctxt, pctxt_snapshot with
    | Some _, Some _ =>
        gv ← malloc;
        gc ← malloc;
        if negb gc || negb gv then mret None
        else
          '(_, gv) ← set_var0 ∅ (Some "LOCALBASE") (Some LOCALBASE);
          '(rc, ctx, st) ← push_file fs empty_context st config_file;
          if rc <? 0 then mret None
          else
            '(rc, ctx, st) ← parse_files fuel mms 0 ctx st;
            if rc <? 0 then mret None
            else mret (if check_duplicate (cftemplates ctx) =? 0 then Some (ctx, gv) else None)
    | _, _ => mret None
    end.

(** [lst] is the list to which the VMs are added, [None] for NULL. *)
Definition load_config_file (fuel : nat) (m0 : Z) (mms : list Z) (g : globals NV)
    (lst : option (list (vm_conf_entry NV))) (update_gl_conf : bool)
    : C (Z * option (list (vm_conf_entry NV)) * globals NV) :=
  r ← load_context fuel m0 mms (g_config_file (gl_val (G_gl_conf g)));
  match r with
  | None => mret (-1, lst, g)
  | Some (ctx, gv) =>
      '(gc, vars) ← load_globals (cfglobals ctx) zero_global_conf
                      {| v_global := Some gv; v_local := None; v_args := None |};
      gv ← deref (v_global vars);
      '(lst, ids, pls) ←
        match lst with
        | None => mret (None, G_ids g, G_plugins g)
        | Some l =>
            let dir := match g_plugin_dir gc with
                       | Some d => Some d
                       | None => g_plugin_dir (gl_val (G_gl_conf g))
                       end in
            '(_, pls) ← load_plugins (G_plugins g) (plugin_dir dir);
            s ← foreach (load_vm nv_empty db pls gv) (cfvms ctx)
                  {| ls_list := l; ls_tmpls := cftemplates ctx; ls_ids := G_ids g |};
            mret (Some (ls_list s), ls_ids s, pls)
        end;
      let vars' := set_global_vars (G_global_vars g) (Some gv) in
      gl ← (if update_gl_conf : bool
            then '(_, gl) ← merge_global_conf (G_gl_conf g) gc; mret gl
            else mret (G_gl_conf g));
      mret (0, lst, {| G_gl_conf := gl; G_global_vars := vars'; G_ids := ids; G_plugins := pls |})
  end.

End load_config_file.

(** ** What a loaded VM satisfies *)

(** The VM has all that is needed to start it, and whether it has a frame
    buffer is decided. *)
Definition vm_ready (c : vm_conf) : Prop :=
  is_Some (vc_name c) /\ is_Some (vc_ncpu c) /\ is_Some (vc_memory c) /\
  (exists b, vc_backend c = Some b /\ (b = "bhyve" -> is_Some (vc_loader c))) /\
  exists f, vc_fbuf c = Some f /\ 0 <= fb_enable f.

Lemma check_conf_ready c :
  wp (check_conf c)
     (fun rc => 0 <= rc -> is_Some (vc_name c) /\ is_Some (vc_ncpu c) /\ is_Some (vc_memory c) /\
        exists b, vc_backend c = Some b /\ (b = "bhyve" -> is_Some (vc_loader c)))
     (fun _ => True).
Proof.
  unfold check_conf. destruct (vc_name c); [| apply wp_ret; lia].
  destruct (vc_ncpu c); [| apply wp_ret; lia]. destruct (vc_memory c); [| apply wp_ret; lia].
  apply wp_bind, wp_deref_any. intros b Hb. apply wp_ret. intros H.
  split_and!; eauto. exists b. split; [done |]. intros ->.
  destruct (vc_loader c); [by eauto |]. rewrite strcmp_refl in H. cbn in H. lia.
Qed.

Lemma finalize_enable c rc c' :
  finalize_vm_conf (Some c) = (rc, Some c') -> 0 <= rc ->
  exists f, vc_fbuf c' = Some f /\ 0 <= fb_enable f.
Proof.
  unfold finalize_vm_conf. destruct (vc_fbuf c) as [f |]; intros [= <- <-] H; [| lia].
  eexists. split; [reflexivity |]. destruct (Z.ltb_spec (fb_enable f) 0); cbn; lia.
Qed.

Lemma finalize_owner c rc c' :
  finalize_vm_conf (Some c) = (rc, Some c') -> same_owner c c'.
Proof. unfold finalize_vm_conf. destruct (vc_fbuf c); by intros [= <- <-]. Qed.

Section load_theorems.
Context {NV : Type} (nv_empty : NV) (db : sysdb) (pls : plugins NV).

(** Nothing or one entry is added. *)
Definition adds (P : vm_conf -> Prop) (s s' : load_state (NV := NV)) : Prop :=
  ls_list s' = ls_list s \/
  exists e, ls_list s' = e :: ls_list s /\ P (ce_conf e).

Lemma wp_start_vm gv st sc :
  wp (start_vm db gv st sc)
     (fun p => forall c, p.1 = Some c -> vc_owner c = sc_owner sc /\ vc_group c = -1) (fun _ => True).
Proof.
  unfold start_vm. apply wp_bind, wp_deref_any. intros n _. apply wp_bind.
  eapply wp_mono; [apply wp_create_vm_conf | intros [[c |] st'] Hc | done]; [| by apply wp_ret].
  cbn [fst] in Hc. destruct Hc as [t ->]. cbn beta iota zeta. unfold conf_set_var.
  repeat step_any; cbn [fst]; intros ? E; try done; by injection E as <-.
Qed.

Lemma load_vm_adds gv s sc (P : vm_conf -> Prop) :
  (forall c, vc_owner c = sc_owner sc -> vc_group c = -1 ->
     forall vs fuel, vs_conf vs = c ->
     wp (vm_conf_set_params db pls fuel vs sc)
        (fun p => forall rc c', finalize_vm_conf (Some (vs_conf p.2)) = (rc, Some c') -> 0 <= rc ->
                  vm_ready c' -> P c') (fun _ => True)) ->
  wp (load_vm nv_empty db pls gv s sc) (adds P s) (fun _ => True).
Proof.
  intros HP. unfold load_vm. apply wp_bind.
  eapply wp_mono; [apply wp_any | intros [rc head] _ | done].
  destruct (rc <? 0); [by apply wp_ret; left |]. apply wp_bind.
  eapply wp_mono; [apply wp_start_vm | intros [[c |] st'] Hc | done]; [| by apply wp_ret; left].
  destruct (Hc c eq_refl) as [Ho Hg]. cbn zeta. apply wp_bind.
  eapply wp_mono; [by eapply HP | intros [rc' vs] Hvs | done].
  destruct (rc' <? 0); [by apply wp_ret; left |].
  destruct (finalize_vm_conf (Some (vs_conf vs))) as [rc2 c2] eqn:Ef.
  destruct (Z.ltb_spec rc2 0) as [| H2]; [by apply wp_ret; left |].
  apply wp_bind, wp_deref_any. intros c3 ->. apply wp_bind.
  eapply wp_mono; [apply check_conf_ready | intros rc3 Hr | done].
  destruct (Z.ltb_spec rc3 0) as [| H3]; [by apply wp_ret; left |].
  apply wp_ret. right. eexists. split; [reflexivity |]. cbn [ce_conf].
  eapply (Hvs rc2); [done | done |]. destruct (Hr H3) as (? & ? & ? & ?).
  repeat split; try done. by eapply finalize_enable.
Qed.

Lemma load_vm_ready gv s sc :
  wp (load_vm nv_empty db pls gv s sc) (adds vm_ready s) (fun _ => True).
Proof.
  apply load_vm_adds. intros c _ _ vs fuel _.
  eapply wp_mono; [apply wp_any | by intros p _ rc c' | done].
Qed.

(** ** The recursion bound is enough *)

Lemma no_fault_nofuel {A} (c : C A) Q : wp c Q no_fault -> nofuel c.
Proof. intros H. eapply wp_mono; [exact H | done | done]. Qed.

Lemma nofuel_create_plugin_data : nofuel (create_plugin_data nv_empty pls).
Proof.
  unfold create_plugin_data. generalize (@nil (plugin_data NV)).
  induction (plugin_list pls) as [| pl l IH]; intros h; cbn [create_plugin_data_loop];
    repeat first [apply IH | step_nofuel].
Qed.

Lemma nofuel_start_vm gv st sc : nofuel (start_vm db gv st sc).
Proof.
  unfold start_vm, conf_set_var.
  repeat first [apply (no_fault_nofuel _ _ (wp_create_vm_conf _ _)) | apply nofuel_set_var | step_nofuel].
Qed.

Lemma unapplied_le tmpls : (unapplied tmpls <= length tmpls)%nat.
Proof. apply length_filter. Qed.

(** The fuel of [load_vm], one more than the number of templates, is enough. *)
Lemma nofuel_load_vm gv s sc : nofuel (load_vm nv_empty db pls gv s sc).
Proof.
  unfold load_vm. apply nofuel_bind; [apply nofuel_create_plugin_data |]. intros [rc head].
  destruct (rc <? 0); [apply nofuel_ret |].
  apply nofuel_bind; [apply nofuel_start_vm |]. intros [[c |] st']; [| apply nofuel_ret].
  cbn zeta. apply nofuel_bind.
  - eapply wp_mono; [apply vm_conf_set_params_fuel | done | done]. apply Nat.lt_succ_r, unapplied_le.
  - unfold check_conf. intros [rc' vs]. steps_nofuel.
Qed.

(** The VM of a section belongs to the owner of the section. *)
Lemma load_vm_owned gv s sc :
  0 < sc_owner sc < 2 ^ 32 ->
  wp (load_vm nv_empty db pls gv s sc)
     (adds (fun c => get_owner c = sc_owner sc /\
              (vc_group c = -1 \/
               exists user pwd l, getpwnam db user = Some pwd /\ pw_uid pwd = sc_owner sc /\
                 getgrouplist db (pw_name pwd) (pw_gid pwd) = Some l /\ In (vc_group c) l)) s)
     (fun f => f <> OutOfFuel).
Proof.
  intros Hu. apply wp_nofuel; [apply nofuel_load_vm |]. apply load_vm_adds. intros c Ho Hg vs fuel <-.
  assert (E : get_owner (vs_conf vs) = sc_owner sc)
    by (unfold get_owner; rewrite Ho; apply Z.mod_small; lia).
  eapply wp_mono; [apply (vm_section_owner_kept db pls fuel vs sc); lia | | done].
  intros [rc' vs'] [H1 H2] rc c' Hf _ _. cbn [snd] in *. apply finalize_owner in Hf as [F1 F2].
  unfold get_owner in *. rewrite F1, F2, H1, E. split; [done |].
  destruct H2 as [-> | (user & pwd & l & Hp & Hw & Hl & Hin)]; [by left | right].
  exists user, pwd, l. rewrite E in Hw. auto.
Qed.

(** [C1] A [vm] section in the file of an ordinary user cannot make a VM of
    someone else's: whatever its parameters and the templates it applies say,
    and whatever the allocator does, the VM that is added belongs to the owner
    of the file, and its group is none or one of the groups that the user
    database gives to that owner.  The evaluation always ends. *)
Theorem load_vm_owner gv s sc :
  0 < sc_owner sc < 2 ^ 32 ->
  wp (load_vm nv_empty db pls gv s sc)
     (adds (fun c => get_owner c = sc_owner sc /\
              (vc_group c = -1 \/
               exists user pwd l, getpwnam db user = Some pwd /\ pw_uid pwd = sc_owner sc /\
                 getgrouplist db (pw_name pwd) (pw_gid pwd) = Some l /\ In (vc_group c) l)) s)
     (fun f => f <> OutOfFuel).
Proof. apply load_vm_owned. Qed.

(** Only root's files configure the daemon: the global sections of other
    owners have no effect at all. *)
Theorem load_globals_root_only scs gc vars o :
  load_globals scs gc vars o
  = load_globals (filter (fun sc => sc_owner sc = 0) scs) gc vars o.
Proof.
  unfold load_globals. generalize (gc, vars). intros s. revert s o.
  induction scs as [| sc scs IH]; intros [gc' vars'] o; [done |].
  destruct (decide (sc_owner sc = 0)) as [E | E].
  - rewrite filter_cons_True by done. cbn [foreach]. unfold mbind, C_bind.
    match goal with |- context [match ?x with Done _ _ => _ | Crash _ => _ end] => destruct x end;
      [apply IH | done].
  - rewrite filter_cons_False by done. cbn [foreach].
    destruct (Z.eqb_spec (sc_owner sc) 0); [done |]. unfold mbind at 1, C_bind at 1.
    unfold mret, C_ret. apply IH.
Qed.

End load_theorems.

(** ** [load_config_file] *)

Section load_file.
Context {NV : Type} (nv_empty : NV) (db : sysdb) (fs : fsys) (yyparse : yyparser)
        (plugin_dir : option string -> option (list (dir_entry NV))).

Lemma load_vms_ready pls gv scs (s : load_state (NV := NV)) :
  wp (foreach (load_vm nv_empty db pls gv) scs s)
     (fun s' => exists new, ls_list s' = new ++ ls_list s /\
                  Forall (fun e => vm_ready (ce_conf e)) new) (fun _ => True).
Proof.
  apply wp_foreach; [by exists [] |]. intros sc s' _ (new & E & Hnew).
  eapply wp_mono; [apply load_vm_ready | | done]. intros s'' [Hs | (e & He & Hr)].
  - exists new. by rewrite Hs.
  - exists (e :: new). rewrite He, E. split; [done | by constructor].
Qed.

(** [C15] Whatever the files contain and whatever goes wrong on the way, every
    VM that [load_config_file] adds to the list can be started as far as the
    configuration goes: it has a name, a number of CPUs, a memory size, a
    backend and, for bhyve, a loader, and its frame buffer is on or off.  When
    the files cannot be parsed nothing is added and nothing else changes. *)
Theorem load_config_file_ready fuel m0 mms g l b :
  wp (load_config_file nv_empty db fs yyparse plugin_dir fuel m0 mms g (Some l) b)
     (fun '(rc, lst, g') =>
        (rc = -1 /\ lst = Some l /\ g' = g) \/
        (rc = 0 /\ exists new, lst = Some (new ++ l) /\
                   Forall (fun e => vm_ready (ce_conf e)) new))
     (fun _ => True).
Proof.
  unfold load_config_file. apply wp_bind.
  eapply wp_mono; [apply wp_any | intros [[ctx gv] |] _ | done]; [| apply wp_ret; by left].
  apply wp_bind. eapply wp_mono; [apply wp_any | intros [gc vars] _ | done].
  apply wp_bind, wp_deref_any. intros gv' _. apply wp_bind. cbn zeta. apply wp_bind.
  eapply wp_mono; [apply wp_any | intros [rc' pls] _ | done].
  apply wp_bind. eapply wp_mono; [apply load_vms_ready | intros s' (new & E & Hnew) | done].
  apply wp_ret. apply wp_bind. eapply wp_mono; [apply wp_any | intros gl _ | done].
  apply wp_ret. right. split; [done |]. exists new. rewrite E. done.
Qed.

(** ** Files *)

(** The files are distinct, readable, each under its real path, and none is below [/dev]. *)
Definition files_ok (ctx : parser_context) : Prop :=
  NoDup (f_name <$> cffiles ctx) /\
  Forall (fun f => access_r fs (f_name f) = true /\ strncmp (f_name f) "/dev" 4 <> 0 /\ exists fn, realpath fs fn = Some (f_name f))
    (cffiles ctx).

#[local] Ltac same_files := apply wp_ret; cbn beta iota; split; [done | split; [done | by left]].

Lemma push_file_spec ctx st fn :
  files_ok ctx ->
  wp (push_file fs ctx st fn)
     (fun '(rc, ctx', _) =>
        files_ok ctx' /\ cfvms ctx' = cfvms ctx /\
        (ctx' = ctx \/
         (rc = 0 /\ exists path, fn ≫= realpath fs = Some path /\
            cffiles ctx' = cffiles ctx ++ [{| f_name := path; f_line := 0 |}])))
     (fun _ => True).
Proof.
  intros Hok. pose proof Hok as [Hn Hf]. unfold push_file. destruct (fn ≫= realpath fs) as [path |] eqn:Hp0; [| same_files].
  destruct (Z.eqb_spec (strncmp path "/dev" 4) 0) as [| Hdev]; [same_files |].
  destruct (access_r fs path) eqn:Ha; [| same_files]. cbn [negb orb].
  destruct (existsb _ (cffiles ctx)) eqn:He; [same_files |].
  apply wp_bind. eapply wp_mono; [apply wp_any | intros [rpath st'] _ | done].
  apply wp_bind. eapply wp_mono; [apply wp_any | intros [file st''] _ | done].
  destruct rpath; [| same_files]. destruct file; [| same_files].
  apply wp_ret. split; [| split; [done | right; eauto]].
  set (new := {| f_name := path; f_line := 0 |}).
  assert (E : cffiles (ctx <| cffiles := cffiles ctx ++ [new] |>) = cffiles ctx ++ [new]) by done.
  split; rewrite E.
  - rewrite fmap_app. apply NoDup_app. split; [done |]. split; [| apply NoDup_singleton].
    intros p Hp Hin. apply list_elem_of_singleton in Hin as ->.
    apply list_elem_of_fmap in Hp as (f & Hp & Hin). cbn in Hp.
    apply not_true_iff_false in He. apply He, existsb_exists. exists f.
    split; [by apply list_elem_of_In |]. apply Z.eqb_eq, strcmp_eq0. done.
  - apply Forall_app. split; [done |]. apply Forall_singleton. split; [done | split; [done |]].
    destruct fn as [fn |]; [by exists fn | done].
Qed.

(** A file is never parsed twice, so files that include each other do no
    harm, and devices are never opened: [push_file] keeps the list of files
    free of duplicates, of unreadable files and of paths in /dev, and only ever
    adds to its end. *)
Theorem push_file_ok ctx st fn :
  files_ok ctx ->
  wp (push_file fs ctx st fn)
     (fun '(rc, ctx', _) =>
        files_ok ctx' /\ cfvms ctx' = cfvms ctx /\
        (ctx' = ctx \/
         (rc = 0 /\ exists path, fn ≫= realpath fs = Some path /\
            cffiles ctx' = cffiles ctx ++ [{| f_name := path; f_line := 0 |}])))
     (fun _ => True).
Proof. apply push_file_spec. Qed.

(** When the parser of the first file runs out of pool memory, the retry
    that the pool was designed for never happens: [parse] first takes the last
    section of lists that are still empty and dereferences NULL. *)
Theorem parse_retry_faults mms file contents s st ctx' st' :
  stat fs (f_name file) = Some s -> st_isreg s = true ->
  open_as fs (st_uid s) (st_gid s) (f_name file) = Some contents ->
  yyparse contents (empty_context <| cffiles := [file] |> <| cur_file := Some file |>)
    (mpool_snapshot st) = Exited 1 ctx' st' ->
  mpool_get_error st' = MPERR_ALLOC ->
  parse fs yyparse mms file (empty_context <| cffiles := [file] |>) st [] = Crash NullDeref.
Proof.
  intros Hs Hr Ho Hy He. destruct mms as [| m mms]; cbn [parse]; unfold mbind at 1, C_bind at 1;
    cbn [malloc negb]; unfold child; rewrite Hs, Hr, Ho; cbn [negb]; rewrite Hy;
    cbn [Z.eqb]; rewrite He; reflexivity.
Qed.

End load_file.

(** ** Appending to a list *)

Lemma runs_create_plugin_data {NV} (nv_empty : NV) pls :
  exists head, runs (create_plugin_data nv_empty pls) (0, head).
Proof.
  unfold create_plugin_data. generalize (@nil (plugin_data NV)).
  induction (plugin_list pls) as [| pl l IH]; intros h; [by exists h |].
  destruct (IH ({| pd_desc := pl; pd_conf := nv_empty |} :: h)) as [h' H]. by exists h'.
Qed.

Lemma runs_conf_set_var c t k v :
  v_args (vc_vars c) = None -> v_local (vc_vars c) = Some t ->
  runs (conf_set_var c k v) (c <| vc_vars := vc_vars c <| v_local := Some (<[k := v]> t) |> |>).
Proof.
  intros Ha Hl. unfold conf_set_var.
  eapply runs_bind; [by apply runs_set_var_local | apply runs_ret].
Qed.

(** With enough memory a section always gets its configuration, and the queues
    of that configuration are empty with a tail pointer into the old one. *)
Lemma runs_start_vm db gv st sc name :
  sc_name sc = Some name ->
  exists c st', runs (start_vm db gv st sc) (Some c, st') /\
    vc_disks c = {| stq_items := []; stq_last := TailDangling |}.
Proof.
  intros Hn. destruct (runs_get_id st name) as (i & st' & Hi).
  assert (Hown : exists c t, v_args (vc_vars c) = None /\ v_local (vc_vars c) = Some t /\
            vc_disks c = STAILQ_INIT /\
            runs (match getpwuid db (sc_owner sc) with
                  | None => mret (default_conf name i
                              <| vc_vars := vc_vars (default_conf name i) <| v_global := Some gv |> |>
                              <| vc_owner := sc_owner sc |>)
                  | Some pw => conf_set_var (default_conf name i
                              <| vc_vars := vc_vars (default_conf name i) <| v_global := Some gv |> |>
                              <| vc_owner := sc_owner sc |>) "OWNER" (pw_name pw)
                  end) c).
  { destruct (getpwuid db (sc_owner sc)) as [pw |].
    - eexists _, _. split; [| split; [| split]]; [| | | by apply runs_conf_set_var]; reflexivity.
    - eexists _, _. split; [| split; [| split]]; [| | | apply runs_ret]; reflexivity. }
  destruct Hown as (c & t & Ha & Hl & Hd & Hr).
  eexists _, st'. split.
  - unfold start_vm. rewrite Hn. eapply runs_bind; [apply runs_ret |].
    eapply runs_bind; [by apply runs_create_vm_conf |]. cbn beta iota zeta.
    eapply runs_bind; [exact Hr |]. eapply runs_bind; [by apply runs_conf_set_var |].
    eapply runs_bind; [apply runs_malloc |]. apply runs_ret.
  - change (vc_disks (conf_moved (c <| vc_vars := vc_vars c <| v_local :=
      Some (<["GROUP" := EmptyString]> t) |> |>))) with (stailq_moved (vc_disks c)).
    by rewrite Hd.
Qed.

Lemma runs_str_value vars s : runs (token_to_string vars (vl_tokens (str_value s))) (Some s).
Proof.
  unfold token_to_string. eapply runs_bind; [apply runs_malloc |]. cbn [tokens_text str_value vl_tokens].
  eapply (runs_bind _ _ (Some s)); [| apply runs_ret]. unfold token_text. cbn [t_type str_token t_s t_len].
  eapply runs_bind; [apply runs_ret |]. rewrite take_str_all by done. apply runs_ret.
Qed.

(** A computation whose first part is known. *)
Lemma bind_done {A B} (c : C A) (k : A -> C B) a : runs c a -> (c ≫= k) [] = k a [].
Proof. unfold runs, mbind, C_bind. by intros ->. Qed.

Lemma bind_crash {A B} (c : C A) (k : A -> C B) f o : c o = Crash f -> (c ≫= k) o = Crash f.
Proof. unfold mbind, C_bind. by intros ->. Qed.

Lemma lookup_disk {NV} db (pls : plugins NV) :
  lookup_parser db pls "disk" = Some (entry "disk" parse_disk (Some clear_disk_conf)).
Proof.
  apply (bsearch_by_name pe_name), conj; [apply parser_list_sorted | | done].
  unfold parser_list. do 8 right. by left.
Qed.

Lemma parse_disk_dangling c v :
  vc_disks c = {| stq_items := []; stq_last := TailDangling |} ->
  parse_disk c v [] = Crash UseAfterFree.
Proof.
  intros Hd. unfold parse_disk.
  destruct (split_type ["ahci-hd"; "virtio-blk"; "nvme"] v) as [[t p] |];
    unfold at_ptr, add_disk_conf, null_guard, STAILQ_INSERT_TAIL; cbn; by rewrite Hd.
Qed.

(** A VM section that starts with [disk += ...] writes through a pointer
    into memory that [realloc] has released: the tail pointer of the empty
    queue still points into the old structure. *)
Theorem append_first_faults {NV} (nv_empty : NV) db pls gv s sc v vs rest name :
  sc_name sc = Some name -> sc_params sc = str_param "disk" 1 (v :: vs) :: rest ->
  load_vm nv_empty db pls gv s sc [] = Crash UseAfterFree.
Proof.
  intros Hn Hp. unfold load_vm. destruct (runs_create_plugin_data nv_empty pls) as [h Hh].
  rewrite (bind_done _ _ _ Hh). cbn beta iota delta [Z.ltb Z.compare].
  destruct (runs_start_vm db gv (ls_ids s) sc name Hn) as (c & st' & Hs & Hd).
  rewrite (bind_done _ _ _ Hs). cbn beta iota zeta.
  apply bind_crash. cbn [vm_conf_set_params]. apply bind_crash. rewrite Hp. cbn [foreach].
  apply bind_crash. unfold set_param. cbn [str_param pr_key pr_vals pr_operator].
  rewrite (bind_done (deref (Some _)) _ _ (runs_ret _)). cbn [t_type str_token t_s].
  rewrite (bind_done (deref (Some _)) _ _ (runs_ret _)). rewrite lookup_disk.
  change (strcasecmp "disk" ".apply" =? 0) with false. cbn [entry pe_clear Z.eqb].
  rewrite fmap_cons. cbn [foreach]. apply bind_crash. unfold set_value.
  rewrite (bind_done _ _ _ (runs_str_value _ v)). apply bind_crash. by apply parse_disk_dangling.
Qed.

(** ** A configuration on disk *)

(** [/etc/bmd.conf] of root and [/home/alice/vm.conf] of Alice. *)
Definition demo_fs : fsys := {|
  realpath := fun p => if String.eqb p "/usr/local/etc/bmd.conf" then Some "/etc/bmd.conf"
                       else Some p;
  access_r := fun _ => true;
  stat := fun p => if String.eqb p "/etc/bmd.conf"
                   then Some {| st_uid := 0; st_gid := 0; st_isreg := true |}
                   else Some {| st_uid := 1001; st_gid := 1001; st_isreg := true |};
  open_as := fun uid gid p => Some p;
  dirname := fun p => "/etc";
  glob := fun p => Some [p];
|}.

Definition demo_vm : cfsection :=
  section "vm" [str_param "owner" 0 ["bob"; "alice:staff"]; str_param "ncpu" 0 ["2"];
                str_param "memory" 0 ["1G"]; str_param "loader" 0 ["uefi"];
                str_param "disk" 0 ["nvme:/dev/zvol/a"]; str_param "disk" 1 ["/b"]].

(** A parser that finds [.include] in the first file and a VM in the second. *)
Definition demo_yyparse : yyparser := fun contents ctx st =>
  if String.eqb contents "/etc/bmd.conf" then
    match glob_path demo_fs (Some ∅) ctx st [str_token "/home/alice/vm.conf"] [] with
    | Done (ctx, st) _ => Exited 0 ctx st
    | Crash _ => Signaled
    end
  else
    match add_section demo_fs ctx st SECTION_VM (Some "vm") [] with
    | Done (true, ctx, st) _ =>
        Exited 0 (ctx <| cfvms := [demo_vm <| sc_owner := 1001 |>] |>) st
    | Done (false, ctx, st) _ => Exited 1 ctx st
    | Crash _ => Signaled
    end.

Definition demo_globals : globals unit := {|
  G_gl_conf := {| gl_static := false; gl_val := gl_conf0 |};
  G_global_vars := None;
  G_ids := init_ids;
  G_plugins := {| plugin_list := []; loaded := 0 |}
|}.

(** The whole way from the files to the list of VMs. *)
Example demo_load :
  match load_config_file tt demo_db demo_fs demo_yyparse (fun _ => Some []) 3 65536 []
          demo_globals (Some []) true [] with
  | Done (rc, Some [e], g) _ =>
      (rc, vc_name (ce_conf e), get_owner (ce_conf e), vc_group (ce_conf e),
       stq_items (vc_disks (ce_conf e)), G_global_vars g, lastid (G_ids g))
      = (0, Some "vm", 1001, 20,
         [{| d_type := Some "nvme"; d_path := Some "/dev/zvol/a" |};
          {| d_type := Some "virtio-blk"; d_path := Some "/b" |}],
         Some {["LOCALBASE" := "/usr/local"]}, 1)
  | _ => False
  end.
Proof. vm_compute. reflexivity. Qed.

Lemma load_vm_owner_witness :
  wp (load_vm tt demo_db demo_plugins ∅ {| ls_list := []; ls_tmpls := []; ls_ids := init_ids |} demo_vm)
     (adds (fun c => get_owner c = 1001 /\
              (vc_group c = -1 \/
               exists user pwd l, getpwnam demo_db user = Some pwd /\ pw_uid pwd = 1001 /\
                 getgrouplist demo_db (pw_name pwd) (pw_gid pwd) = Some l /\ In (vc_group c) l))
           {| ls_list := []; ls_tmpls := []; ls_ids := init_ids |})
     (fun f => f <> OutOfFuel).
Proof.
  apply (load_vm_owner tt demo_db demo_plugins ∅
           {| ls_list := []; ls_tmpls := []; ls_ids := init_ids |} demo_vm). done.
Defined.

Lemma push_file_ok_witness :
  wp (push_file demo_fs empty_context one_pool (Some "/home/alice/vm.conf"))
     (fun '(rc, ctx', _) =>
        files_ok demo_fs ctx' /\ cfvms ctx' = [] /\
        (ctx' = empty_context \/
         (rc = 0 /\ exists path, Some "/home/alice/vm.conf" ≫= realpath demo_fs = Some path /\
            cffiles ctx' = [] ++ [{| f_name := path; f_line := 0 |}])))
     (fun _ => True).
Proof.
  apply (push_file_ok demo_fs empty_context one_pool (Some "/home/alice/vm.conf")).
  split; constructor.
Defined.

(** A parser that needs more memory than there is. *)
Lemma parse_retry_faults_witness :
  parse demo_fs (fun _ ctx st => match mpool_alloc st 262100 [] with
                            | Done (_, st) _ =>
                                match mpool_alloc st 8 [] with
                                | Done (_, st) _ => Exited 1 ctx st
                                | Crash _ => Signaled
                                end
                            | Crash _ => Signaled
                            end)
    [] {| f_name := "/etc/bmd.conf"; f_line := 0 |}
    (empty_context <| cffiles := [{| f_name := "/etc/bmd.conf"; f_line := 0 |}] |>) one_pool []
  = Crash NullDeref.
Proof.
  eapply (parse_retry_faults demo_fs _ [] {| f_name := "/etc/bmd.conf"; f_line := 0 |});
    [reflexivity | reflexivity | reflexivity | vm_compute; reflexivity | reflexivity].
Defined.

Lemma append_first_faults_witness :
  load_vm tt demo_db demo_plugins ∅ {| ls_list := []; ls_tmpls := []; ls_ids := init_ids |}
    (section "vm" [str_param "disk" 1 ["/a"]]) [] = Crash UseAfterFree.
Proof.
  apply (append_first_faults tt demo_db demo_plugins ∅
           {| ls_list := []; ls_tmpls := []; ls_ids := init_ids |}
           (section "vm" [str_param "disk" 1 ["/a"]]) "/a" [] [] "vm"); reflexivity.
Defined.
