(* ===== verification/Regex.v ===== *)
(** * Regular expressions and the longest match (src/conflex.l)

    The rules of the scanner are regular expressions, and [lex] takes for each
    token the rule that matches the longest piece of the input, the first one
    of them if there are several.  This file has the expressions, a
    matcher by derivatives, and the theorem that the matcher finds the longest match. *)

From S2P Require Import Prelude CString.
From Stdlib Require Import Ascii.

Local Open Scope nat_scope.

(** [Cls p] is a set of characters. *)
Inductive re :=
  | Void
  | Eps
  | Cls (p : ascii -> bool)
  | Alt (r1 r2 : re)
  | Cat (r1 r2 : re)
  | Star (r : re).

(** ** Meaning *)

Inductive matches : re -> list ascii -> Prop :=
  | MEps : matches Eps []
  | MCls p c : p c = true -> matches (Cls p) [c]
  | MAltL r1 r2 s : matches r1 s -> matches (Alt r1 r2) s
  | MAltR r1 r2 s : matches r2 s -> matches (Alt r1 r2) s
  | MCat r1 r2 s1 s2 : matches r1 s1 -> matches r2 s2 -> matches (Cat r1 r2) (s1 ++ s2)
  | MStar0 r : matches (Star r) []
  | MStar r s1 s2 : matches r s1 -> matches (Star r) s2 -> matches (Star r) (s1 ++ s2).

(** ** The matcher *)

Fixpoint nullable (r : re) : bool :=
  match r with
  | Void | Cls _ => false
  | Eps | Star _ => true
  | Alt r1 r2 => nullable r1 || nullable r2
  | Cat r1 r2 => nullable r1 && nullable r2
  end.

(** Constructors that keep the derivatives small. *)
Definition alt (r1 r2 : re) : re :=
  match r1, r2 with
  | Void, _ => r2
  | _, Void => r1
  | _, _ => Alt r1 r2
  end.

Definition cat (r1 r2 : re) : re :=
  match r1 with
  | Void => Void
  | Eps => r2
  | _ => Cat r1 r2
  end.

(** What is left to match after [c]. *)
Fixpoint der (c : ascii) (r : re) : re :=
  match r with
  | Void | Eps => Void
  | Cls p => if p c then Eps else Void
  | Alt r1 r2 => alt (der c r1) (der c r2)
  | Cat r1 r2 => if nullable r1 then alt (cat (der c r1) r2) (der c r2) else cat (der c r1) r2
  | Star r1 => cat (der c r1) (Star r1)
  end.

(** The length of the longest prefix that matches. *)
Fixpoint longest (r : re) (s : list ascii) : option nat :=
  let stop := if nullable r then Some 0 else None in
  match s with
  | [] => stop
  | c :: s' =>
      match der c r with
      | Void => stop
      | r' => match longest r' s' with Some n => Some (S n) | None => stop end
      end
  end.

(** ** Correctness *)

Lemma matches_cat_inv r1 r2 s : matches (Cat r1 r2) s -> exists s1 s2, s = s1 ++ s2 /\ matches r1 s1 /\ matches r2 s2.
Proof. intros H. inversion H; subst. eauto. Qed.

Lemma matches_alt r1 r2 s : matches (alt r1 r2) s <-> matches r1 s \/ matches r2 s.
Proof.
  assert (HV : matches Void s -> False) by (intros H; inversion H).
  assert (HA : matches (Alt r1 r2) s <-> matches r1 s \/ matches r2 s).
  { split; [intros H; inversion H; auto | intros [H | H]; [by apply MAltL | by apply MAltR]]. }
  destruct r1, r2; cbn [alt]; try exact HA; tauto.
Qed.

Lemma matches_cat r1 r2 s : matches (cat r1 r2) s <-> exists s1 s2, s = s1 ++ s2 /\ matches r1 s1 /\ matches r2 s2.
Proof.
  assert (HC : matches (Cat r1 r2) s <-> exists s1 s2, s = s1 ++ s2 /\ matches r1 s1 /\ matches r2 s2).
  { split; [apply matches_cat_inv | intros (s1 & s2 & -> & H1 & H2); by apply MCat]. }
  destruct r1; cbn [cat]; try exact HC.
  - split; [intros H; inversion H | intros (s1 & s2 & _ & H & _); inversion H].
  - split; [intros H; exists [], s; split; [done | split; [constructor | done]] |].
    intros (s1 & s2 & -> & H & H2). by inversion H.
Qed.

Lemma nullable_spec r : nullable r = true <-> matches r [].
Proof.
  induction r as [| | p | r1 IH1 r2 IH2 | r1 IH1 r2 IH2 | r IH]; cbn.
  - split; [done | intros H; inversion H].
  - split; [constructor | done].
  - split; [done | intros H; inversion H].
  - rewrite orb_true_iff, IH1, IH2. split; [intros [H | H]; [by apply MAltL | by apply MAltR] | intros H; inversion H; auto].
  - rewrite andb_true_iff, IH1, IH2. split; [intros [H1 H2]; by apply (MCat _ _ [] []) |].
    intros (s1 & s2 & E & H1 & H2)%matches_cat_inv. symmetry in E. by apply app_nil in E as [-> ->].
  - split; [constructor | done].
Qed.

(** A match of [Star r] that is not empty begins with one of [r] that is not empty. *)
Lemma star_cons r c s : matches (Star r) (c :: s) -> exists s1 s2, s = s1 ++ s2 /\ matches r (c :: s1) /\ matches (Star r) s2.
Proof.
  intros H. remember (Star r) as r0 eqn:E0. remember (c :: s) as s0 eqn:E1. revert c s E1.
  induction H as [| | | | | r' | r' s1 s2 H1 _ H2 IH2]; try discriminate; injection E0 as ->; intros c s E1; try done.
  destruct s1 as [| x s1]; [by apply IH2 |]. injection E1 as -> <-. by exists s1, s2.
Qed.

Lemma der_spec c r : forall s, matches (der c r) s <-> matches r (c :: s).
Proof.
  induction r as [| | p | r1 IH1 r2 IH2 | r1 IH1 r2 IH2 | r IH]; intros s; cbn [der].
  - split; intros H; inversion H.
  - split; intros H; inversion H.
  - destruct (p c) eqn:E; (split; intros H; inversion H; subst); [by constructor | constructor | congruence].
  - rewrite matches_alt, IH1, IH2. split; [intros [H | H]; [by apply MAltL | by apply MAltR] | intros H; inversion H; auto].
  - assert (HC : matches (cat (der c r1) r2) s <-> exists s1 s2, s = s1 ++ s2 /\ matches r1 (c :: s1) /\ matches r2 s2).
    { rewrite matches_cat. split; intros (s1 & s2 & E & H1 & H2); exists s1, s2; by rewrite IH1 in *. }
    assert (HR : matches (Cat r1 r2) (c :: s) <->
                 (exists s1 s2, s = s1 ++ s2 /\ matches r1 (c :: s1) /\ matches r2 s2) \/ matches r1 [] /\ matches r2 (c :: s)).
    { split.
      - intros ([| x s1] & s2 & E & H1 & H2)%matches_cat_inv; cbn in E; [subst s2; by right |].
        injection E as -> ->. left. by exists s1, s2.
      - intros [(s1 & s2 & -> & H1 & H2) | [H1 H2]]; [by apply (MCat _ _ (c :: s1)) | by apply (MCat _ _ [])]. }
    rewrite HR, <- nullable_spec. destruct (nullable r1).
    + rewrite matches_alt, HC, IH2. tauto.
    + rewrite HC. split; [by left | by intros [H | [H _]]].
  - rewrite matches_cat. split.
    + intros (s1 & s2 & -> & H1 & H2). apply IH in H1. by apply (MStar _ (c :: s1)).
    + intros (s1 & s2 & -> & H1 & H2)%star_cons. exists s1, s2. by rewrite IH.
Qed.

(** What [longest] answers: no prefix matches, or [n] is the length of the longest that does. *)
Definition longest_match (r : re) (s : list ascii) (x : option nat) : Prop :=
  match x with
  | None => forall m, m <= length s -> ~ matches r (take m s)
  | Some n => n <= length s /\ matches r (take n s) /\ forall m, m <= length s -> matches r (take m s) -> m <= n
  end.

Lemma longest_cons r c s x :
  longest_match (der c r) s x ->
  longest_match r (c :: s) (match x with Some n => Some (S n) | None => if nullable r then Some 0 else None end).
Proof.
  pose proof (nullable_spec r) as HN. destruct x as [n |]; cbn [longest_match].
  - intros (H1 & H2 & H3). split; [cbn; lia | split; [cbn; by apply der_spec |]].
    intros [| m] Hm; [lia |]. cbn. intros H%der_spec. specialize (H3 m). cbn in Hm. pose proof (H3 ltac:(lia) H). lia.
  - intros H. destruct (nullable r).
    + split; [lia | split; [cbn; by apply HN |]]. intros [| m] Hm; [lia |]. cbn. intros Hd%der_spec. cbn in Hm.
      by destruct (H m ltac:(lia) Hd).
    + intros [| m] Hm; [by intros ?%HN |]. cbn. intros Hd%der_spec. cbn in Hm. by destruct (H m ltac:(lia) Hd).
Qed.

Lemma longest_nil r : longest_match r [] (if nullable r then Some 0 else None).
Proof.
  pose proof (nullable_spec r) as HN. destruct (nullable r).
  - split; [done | split; [by apply HN |]]. cbn. lia.
  - intros m _. rewrite take_nil. by intros ?%HN.
Qed.

(** The matcher finds the longest match. *)
Theorem longest_correct r s : longest_match r s (longest r s).
Proof.
  revert r. induction s as [| c s IH]; intros r; [apply longest_nil |].
  cbn [longest]. pose proof (longest_cons r c s _ (IH (der c r))) as H.
  destruct (der c r) eqn:E; try exact H.
  apply (longest_cons r c s None). rewrite E. intros m _ Hm. inversion Hm.
Qed.

Lemma longest_le r s n : longest r s = Some n -> n <= length s.
Proof. intros H. pose proof (longest_correct r s) as Hl. rewrite H in Hl. apply Hl. Qed.

(** An expression that does not match the empty text takes at least one character. *)
Lemma longest_pos r s n : nullable r = false -> longest r s = Some n -> 0 < n.
Proof.
  intros Hr H. pose proof (longest_correct r s) as Hl. rewrite H in Hl. destruct Hl as (_ & Hm & _).
  destruct n; [| lia]. apply nullable_spec in Hm. congruence.
Qed.

(** ** Notation of the rules *)

Definition chr (c : ascii) : re := Cls (Ascii.eqb c).

Fixpoint lit (s : string) : re :=
  match s with
  | EmptyString => Eps
  | String c EmptyString => chr c
  | String c s' => Cat (chr c) (lit s')
  end.

Definition is_one_of (l : string) (c : ascii) : bool := existsb (Ascii.eqb c) (String.list_ascii_of_string l).

Definition none_of (p : ascii -> bool) : re := Cls (fun c => negb (p c)).

(** The dot of [lex]. *)
Definition dot : re := none_of (Ascii.eqb LF).

Definition plus (r : re) : re := Cat r (Star r).

Definition optional (r : re) : re := Alt r Eps.
