(* ===== verification/Lexer.v ===== *)
(** * The scanner of the configuration files (src/conflex.l)

    [rules] is the table of rules of the file, in its order: the start conditions in which a
    rule is active, its regular expression and its action.  [yylex] takes
    the longest match and runs the action until one of them returns a token; the
    state is the start condition with its stack, the rest of the input, the
    number of the line and the number of errors.  [text2lval] copies the
    text of a token into the memory pool and resolves the escapes; it is modelled with its
    pointers, so that an access outside of the text or of the block is a fault.

    The theorems: [text2lval] stays inside of its block and computes the meaning of
    the text; a call of [yylex] ends and the stack of start conditions never
    underflows; every string can be written between single quotes; and two
    defects, the words that begin with "apply" or "include", and a scanner that stands still
    when a pool is full. *)

From S2P Require Import Prelude CString MPool Regex.
From Stdlib Require Import Ascii.

Local Open Scope Z_scope.

(** ** Data *)

Inductive token :=
  | GLOBAL | VM | TEMPLATE | PLEQ | BEGIN_AR | END_AR | INCLUDE
  | STR | VAR | NUMBER | APPLY
  | Char (c : ascii)
  | YYEOF.

#[export] Instance token_eq_dec : EqDecision token.
Proof. solve_decision. Defined.

(** The start conditions; [INITIAL] is the one that [lex] begins with, [BASE] is the one called [_]. *)
Inductive start := INITIAL | BASE | DQ | AR | PR.

#[export] Instance start_eq_dec : EqDecision start.
Proof. solve_decision. Defined.

(** [yylval.cs] is [None] after an allocation that failed. *)
Record lexer := {
  lx_start : start;
  lx_stack : list start;
  lx_input : list ascii;
  lx_lineno : Z;
  lx_nerrs : Z;
  lx_lval : option string;
}.

#[export] Instance eta_lexer : Eta lexer := fun lx =>
  {| lx_start := lx_start lx; lx_stack := lx_stack lx; lx_input := lx_input lx; lx_lineno := lx_lineno lx;
     lx_nerrs := lx_nerrs lx; lx_lval := lx_lval lx |}.

(** ** Text of a token *)

Section text2lval.
Context (yytext : list ascii) (size : Z).

Abbreviation yyleng := (Z.of_nat (length yytext)).

(** [*s]; the text is followed by a NUL. *)
Definition text_at (s : Z) : C ascii :=
  if s =? yyleng then mret NUL
  else if (0 <=? s) && (s <? yyleng) then deref (yytext !! Z.to_nat s) else crash WildAccess.

(** [*d = c]; the block has [size] bytes. *)
Definition store (buf : gmap Z ascii) (d : Z) (c : ascii) : C (gmap Z ascii) :=
  if (0 <=? d) && (d <? size) then mret (<[d := c]> buf) else crash WildAccess.

Definition is_octal (c : ascii) : bool := in_range "0" "7" c.

(** The value of a hexadecimal digit. *)
Definition hex_digit (c : ascii) : option Z :=
  if is_digit c then Some (byte_of c - byte_of "0")
  else if in_range "A" "F" c then Some (byte_of c + (10 - byte_of "A"))
  else if in_range "a" "f" c then Some (byte_of c + (10 - byte_of "a"))
  else None.

(** A value that is stored into a [char]. *)
Definition to_char (z : Z) : ascii := ascii_of_N (Z.to_N (z mod 256)).

(** [n] more octal digits after [*s], as far as there are any. *)
Fixpoint octal_digits (n : nat) (se s acc : Z) : C (Z * Z) :=
  match n with
  | O => mret (s, acc)
  | S n =>
      if s + 1 <? se then
        c ← text_at (s + 1);
        if is_octal c then octal_digits n se (s + 1) (8 * acc + (byte_of c - byte_of "0")) else mret (s, acc)
      else mret (s, acc)
  end.

(** At most two hexadecimal digits after [*s]. *)
Fixpoint hex_digits (n : nat) (se s acc : Z) : C (Z * Z) :=
  match n with
  | O => mret (s, acc)
  | S n =>
      if se <=? s + 1 then mret (s, acc)
      else
        c ← text_at (s + 1);
        match hex_digit c with
        | Some v => hex_digits n se (s + 1) (acc * 16 + v)
        | None => mret (s, acc)
        end
  end.

(** The characters after a backslash that have a meaning of their own. *)
Definition escape_char (c : ascii) : ascii :=
  if Ascii.eqb c "a" then "007"
  else if Ascii.eqb c "b" then "008"
  else if Ascii.eqb c "f" then "012"
  else if Ascii.eqb c "n" then "010"
  else if Ascii.eqb c "r" then "013"
  else if Ascii.eqb c "t" then "009"
  else if Ascii.eqb c "v" then "011"
  else c.

(** The loop; the result is the place of a variable or -1, the bytes, and the number of the line. *)
Fixpoint text_loop (fuel : nat) (tovar : bool) (se s d : Z) (buf : gmap Z ascii) (lineno : Z)
    : C (Z * gmap Z ascii * Z) :=
  if se <=? s then buf ← store buf d NUL; mret (-1, buf, lineno)
  else
    match fuel with
    | O => crash OutOfFuel
    | S fuel =>
        c ← text_at s;
        if negb (Ascii.eqb c "\") then
          if tovar && Ascii.eqb c "$" then buf ← store buf d NUL; mret (s, buf, lineno)
          else
            let lineno := if Ascii.eqb c LF then lineno + 1 else lineno in
            buf ← store buf d c; text_loop fuel tovar se (s + 1) (d + 1) buf lineno
        else
          let s := s + 1 in
          c ← text_at s;
          if is_octal c then
            '(s, v) ← octal_digits 2 se s (byte_of c - byte_of "0");
            buf ← store buf d (to_char v); text_loop fuel tovar se (s + 1) (d + 1) buf lineno
          else if Ascii.eqb c LF then text_loop fuel tovar se (s + 1) d buf (lineno + 1)
          else if Ascii.eqb c "x" then
            '(s, v) ← hex_digits 2 se s 0;
            buf ← store buf d (to_char v); text_loop fuel tovar se (s + 1) (d + 1) buf lineno
          else buf ← store buf d (escape_char c); text_loop fuel tovar se (s + 1) (d + 1) buf lineno
    end.

End text2lval.

(** The string at the beginning of a block of [n] bytes. *)
Fixpoint read_string (buf : gmap Z ascii) (d : Z) (n : nat) : string :=
  match n with
  | O => EmptyString
  | S n =>
      match buf !! d with
      | Some c => if Ascii.eqb c NUL then EmptyString else String c (read_string buf (d + 1) n)
      | None => EmptyString
      end
  end.

Definition text2lval (yytext : list ascii) (triml trimr : Z) (tovar : bool) (lx : lexer) (st : pools) : C (Z * lexer * pools) :=
  let yyleng := Z.of_nat (length yytext) in
  let size := yyleng - trimr - triml + 1 in
  '(p, st) ← mpool_alloc st size;
  match p with
  | None => mret (0, lx <| lx_lval := None |>, st)
  | Some _ =>
      '(r, buf, lineno) ← text_loop yytext size (length yytext) tovar (yyleng - trimr) triml 0 ∅ (lx_lineno lx);
      mret (r, lx <| lx_lval := Some (read_string buf 0 (Z.to_nat size)) |> <| lx_lineno := lineno |>, st)
  end.

(** ** The rules *)

Inductive lex_action :=
  | Skip                              (* nothing *)
  | Plain (t : token)                 (* return t; *)
  | TextChar                          (* return yytext[0]; *)
  | Text (t : token) (triml trimr : Z)  (* text2lval(triml, trimr, 0); return t; *)
  | Enter (s : start) (t : token)     (* yy_push_state(s); return t; *)
  | EnterChar (s : start)             (* yy_push_state(s); return yytext[0]; *)
  | Leave (t : token)                 (* yy_pop_state(); return t; *)
  | LeaveChar                         (* yy_pop_state(); return yytext[0]; *)
  | CountLines                        (* of a comment *)
  | NextLine                          (* lineno++; *)
  | Quoted                            (* a string in double quotes, or the rest of one *)
  | EndQuote                          (* BEGIN _; *)
  | Complain                          (* ERR(...); yynerrs++; *)
  | Restart.                          (* BEGIN _; yyless(0); *)

(** An empty list of start conditions stands for all of them. *)
Record rule := { ru_starts : list start; ru_re : re; ru_action : lex_action }.

Definition hex : ascii -> bool := fun c => is_digit c || in_range "a" "f" c || in_range "A" "F" c.
Definition octal : ascii -> bool := is_octal.
Definition name_letter : ascii -> bool := fun c => is_upper c || is_lower c || Ascii.eqb c "_".
Definition atomic : ascii -> bool := fun c => is_upper c || is_lower c || is_digit c || is_one_of "_!%&-.:<>?@[]^`|~" c.

Declare Scope re_scope.
Delimit Scope re_scope with re.
Bind Scope re_scope with re.
Infix "·" := Cat (at level 50, left associativity) : re_scope.
Infix "∥" := Alt (at level 55, right associativity) : re_scope.
Local Open Scope re_scope.

Definition dquote : ascii := "034".

(** A dot or a newline. *)
Definition any : re := dot ∥ chr LF.

(** A backslash and what follows it. *)
Definition escaped : re := chr "\" · any.

(** What stands inside of a comment, after a slash and a star. *)
Definition in_comment : re := Star (none_of (Ascii.eqb "*") ∥ (plus (chr "*") · none_of (is_one_of "*/"))).

(** What a string in double quotes consists of. *)
Definition in_quotes : re := Star (none_of (fun c => is_one_of "\" c || Ascii.eqb c dquote) ∥ escaped).

Definition rules : list rule := [
  {| ru_starts := [BASE; AR; PR]; ru_re := plus (Cls (fun c => Ascii.eqb c " " || Ascii.eqb c "009")); ru_action := Skip |};
  {| ru_starts := [BASE]; ru_re := chr "#" · Star dot; ru_action := Skip |};
  {| ru_starts := [BASE]; ru_re := lit "//" · Star dot; ru_action := Skip |};
  {| ru_starts := [BASE; DQ]; ru_re := lit "$(("; ru_action := Enter AR BEGIN_AR |};
  {| ru_starts := [AR; PR]; ru_re := lit "0x" · plus (Cls hex); ru_action := Text NUMBER 0 0 |};
  {| ru_starts := [AR; PR]; ru_re := chr "0" · plus (Cls octal); ru_action := Text NUMBER 0 0 |};
  {| ru_starts := [AR; PR]; ru_re := Cls is_digit · Star (Cls is_digit); ru_action := Text NUMBER 0 0 |};
  {| ru_starts := [AR; PR]; ru_re := Cls (is_one_of "+-*/%"); ru_action := TextChar |};
  {| ru_starts := [AR; PR]; ru_re := chr "("; ru_action := EnterChar PR |};
  {| ru_starts := [PR]; ru_re := chr ")"; ru_action := LeaveChar |};
  {| ru_starts := [AR]; ru_re := lit "))"; ru_action := Leave END_AR |};
  {| ru_starts := [BASE]; ru_re := lit "/*" · in_comment · plus (chr "*") · chr "/"; ru_action := CountLines |};
  {| ru_starts := [BASE]; ru_re := chr LF; ru_action := NextLine |};
  {| ru_starts := [BASE]; ru_re := lit "global"; ru_action := Plain GLOBAL |};
  {| ru_starts := [BASE]; ru_re := lit "vm"; ru_action := Plain VM |};
  {| ru_starts := [BASE]; ru_re := lit "template"; ru_action := Plain TEMPLATE |};
  {| ru_starts := [BASE]; ru_re := dot · lit "include"; ru_action := Plain INCLUDE |};
  {| ru_starts := [BASE]; ru_re := dot · lit "apply"; ru_action := Text APPLY 0 0 |};
  {| ru_starts := [BASE]; ru_re := lit "+="; ru_action := Plain PLEQ |};
  {| ru_starts := [BASE]; ru_re := Cls (is_one_of ",;={}()"); ru_action := TextChar |};
  {| ru_starts := [BASE; DQ]; ru_re := plus (Cls atomic); ru_action := Text STR 0 0 |};
  {| ru_starts := [BASE; DQ];
     ru_re := chr "\" · (any ∥ Cls octal · optional (Cls octal) · optional (Cls octal) ∥ chr "x" · Cls hex · optional (Cls hex));
     ru_action := Text STR 0 0 |};
  {| ru_starts := [BASE; DQ]; ru_re := Cls (is_one_of "$*+/\"); ru_action := Text STR 0 0 |};
  {| ru_starts := [BASE]; ru_re := chr "'" · Star (none_of (is_one_of "'\") ∥ escaped) · chr "'"; ru_action := Text STR 1 1 |};
  {| ru_starts := [BASE]; ru_re := chr dquote · in_quotes · chr dquote; ru_action := Quoted |};
  {| ru_starts := [DQ];
     ru_re := none_of (fun c => is_one_of "$\" c || Ascii.eqb c dquote) · in_quotes · chr dquote; ru_action := Quoted |};
  {| ru_starts := [DQ]; ru_re := chr dquote; ru_action := EndQuote |};
  {| ru_starts := [BASE; DQ; AR; PR]; ru_re := chr "$" · Cls name_letter · Star (Cls (fun c => name_letter c || is_digit c));
     ru_action := Text VAR 1 0 |};
  {| ru_starts := [BASE; AR; PR];
     ru_re := lit "${" · Star (none_of (fun c => is_one_of "{}" c || Ascii.eqb c LF) ∥ escaped) · chr "}";
     ru_action := Text VAR 2 1 |};
  {| ru_starts := [DQ];
     ru_re := lit "${" · Star (none_of (fun c => is_one_of "{}" c || Ascii.eqb c LF || Ascii.eqb c dquote) ∥ escaped) · chr "}";
     ru_action := Text VAR 2 1 |};
  {| ru_starts := [BASE]; ru_re := lit "/*" · in_comment · Star (chr "*"); ru_action := Complain |};
  {| ru_starts := [BASE]; ru_re := chr "'" · Star (none_of (fun c => is_one_of "'\" c || Ascii.eqb c LF) ∥ chr "\" · dot);
     ru_action := Complain |};
  {| ru_starts := [BASE];
     ru_re := chr dquote · Star (none_of (fun c => is_one_of "\" c || Ascii.eqb c LF || Ascii.eqb c dquote) ∥ chr "\" · dot);
     ru_action := Complain |};
  {| ru_starts := [BASE]; ru_re := lit "${" · Star (none_of (fun c => is_one_of "{}" c || Ascii.eqb c LF) ∥ chr "\" · dot);
     ru_action := Complain |};
  {| ru_starts := [DQ];
     ru_re := lit "${" · Star (none_of (fun c => is_one_of "{}" c || Ascii.eqb c LF || Ascii.eqb c dquote) ∥ chr "\" · dot);
     ru_action := Complain |};
  {| ru_starts := [BASE]; ru_re := dot; ru_action := TextChar |};
  {| ru_starts := []; ru_re := any; ru_action := Restart |} ].

(** ** The scanner *)

Definition active (s : start) (r : rule) : bool :=
  match ru_starts r with [] => true | l => bool_decide (s ∈ l) end.

(** The longest match of the active rules, the first of them if there are several. *)
Fixpoint scan_rules (s : start) (l : list rule) (input : list ascii) : option (nat * lex_action) :=
  match l with
  | [] => None
  | r :: l' =>
      let rest := scan_rules s l' input in
      match (if active s r then longest (ru_re r) input else None), rest with
      | None, _ => rest
      | Some n, None => Some (n, ru_action r)
      | Some n, Some (m, a) => if (m <=? n)%nat then Some (n, ru_action r) else rest
      end
  end.

Definition scan (s : start) (input : list ascii) : option (nat * lex_action) := scan_rules s rules input.

Definition yy_push_state (s : start) (lx : lexer) : lexer := lx <| lx_stack := lx_start lx :: lx_stack lx |> <| lx_start := s |>.

(** An empty stack is a fatal error of the scanner. *)
Definition yy_pop_state (lx : lexer) : C lexer :=
  match lx_stack lx with
  | [] => crash ProcessExit
  | s :: l => mret (lx <| lx_start := s |> <| lx_stack := l |>)
  end.

(** [return yytext[0]]: the character NUL is the number of the end of the file. *)
Definition char_token (c : ascii) : token := if Ascii.eqb c NUL then YYEOF else Char c.

(** The action [a] on the text [yytext], which was taken from the input; [None] when it returns no token. *)
Definition run_action (a : lex_action) (yytext : list ascii) (lx : lexer) (st : pools) : C (option token * lexer * pools) :=
  let yytext0 := default NUL (head yytext) in
  match a with
  | Skip => mret (None, lx, st)
  | Plain t => mret (Some t, lx, st)
  | TextChar => mret (Some (char_token yytext0), lx, st)
  | Text t triml trimr => '(_, lx, st) ← text2lval yytext triml trimr false lx st; mret (Some t, lx, st)
  | Enter s t => mret (Some t, yy_push_state s lx, st)
  | EnterChar s => mret (Some (char_token yytext0), yy_push_state s lx, st)
  | Leave t => lx ← yy_pop_state lx; mret (Some t, lx, st)
  | LeaveChar => lx ← yy_pop_state lx; mret (Some (char_token yytext0), lx, st)
  | CountLines => mret (None, lx <| lx_lineno := lx_lineno lx + Z.of_nat (length (filter (eq LF) yytext)) |>, st)
  | NextLine => mret (None, lx <| lx_lineno := lx_lineno lx + 1 |>, st)
  | Quoted =>
      let skip := if Ascii.eqb yytext0 dquote then 1 else 0 in
      '(atvar, lx, st) ← text2lval yytext skip 1 true lx st;
      mret (Some STR,
            if atvar <? 0 then lx <| lx_start := BASE |>
            else lx <| lx_start := DQ |> <| lx_input := drop (Z.to_nat atvar) yytext ++ lx_input lx |>, st)
  | EndQuote => mret (None, lx <| lx_start := BASE |>, st)
  | Complain => mret (None, lx <| lx_nerrs := lx_nerrs lx + 1 |>, st)
  | Restart => mret (None, lx <| lx_start := BASE |> <| lx_input := yytext ++ lx_input lx |>, st)
  end.

(** One call; a character that no rule matches would be copied to the output. *)
Fixpoint yylex (fuel : nat) (lx : lexer) (st : pools) : C (token * lexer * pools) :=
  match lx_input lx with
  | [] => mret (YYEOF, lx, st)
  | input =>
      match fuel with
      | O => crash OutOfFuel
      | S fuel =>
          match scan (lx_start lx) input with
          | None => yylex fuel (lx <| lx_input := tail input |>) st
          | Some (n, a) =>
              '(t, lx, st) ← run_action a (take n input) (lx <| lx_input := drop n input |>) st;
              match t with
              | Some t => mret (t, lx, st)
              | None => yylex fuel lx st
              end
          end
      end
  end.

(** ** The text of a token: safety *)

Section text_safe.
Context (yytext : list ascii) (triml trimr : Z).

Abbreviation yyleng := (Z.of_nat (length yytext)).
Abbreviation se := (yyleng - trimr).
Abbreviation size := (yyleng - trimr - triml + 1).

Hypothesis triml_ok : 0 <= triml.
Hypothesis trimr_ok : 0 <= trimr.
Hypothesis trim_ok : triml + trimr <= yyleng.

Lemma wp_text_at s (Q : ascii -> Prop) F :
  0 <= s <= yyleng -> (forall c, (s < yyleng -> yytext !! Z.to_nat s = Some c) -> Q c) -> wp (text_at yytext s) Q F.
Proof.
  intros Hs HQ. unfold text_at. destruct (Z.eqb_spec s yyleng) as [-> | N]; [apply wp_ret, HQ; lia |].
  replace ((0 <=? s) && (s <? yyleng)) with true by lia.
  destruct (lookup_lt_is_Some_2 yytext (Z.to_nat s)) as [c Hc]; [lia |]. rewrite Hc. apply wp_ret, HQ. by rewrite Hc.
Qed.

Lemma wp_store buf d c (Q : gmap Z ascii -> Prop) F : 0 <= d < size -> Q (<[d := c]> buf) -> wp (store size buf d c) Q F.
Proof. intros Hd HQ. unfold store. replace ((0 <=? d) && (d <? size)) with true by lia. by apply wp_ret. Qed.

(** Digits are taken as long as the text lasts. *)
Lemma octal_digits_safe n : forall s acc, 0 <= s <= se ->
  wp (octal_digits yytext n se s acc) (fun p => s <= p.1 /\ (p.1 = s \/ p.1 < se)) no_fault.
Proof.
  induction n as [| n IH]; intros s acc Hs; cbn [octal_digits]; [apply wp_ret; cbn; lia |].
  destruct (Z.ltb_spec (s + 1) se); [| apply wp_ret; cbn; lia]. apply wp_bind, wp_text_at; [lia | intros c _].
  destruct (is_octal c); [| apply wp_ret; cbn; lia]. eapply wp_mono; [apply IH; lia | cbn; lia | done].
Qed.

Lemma hex_digits_safe n : forall s acc, 0 <= s <= se ->
  wp (hex_digits yytext n se s acc) (fun p => s <= p.1 /\ (p.1 = s \/ p.1 < se)) no_fault.
Proof.
  induction n as [| n IH]; intros s acc Hs; cbn [hex_digits]; [apply wp_ret; cbn; lia |].
  destruct (Z.leb_spec se (s + 1)); [apply wp_ret; cbn; lia |]. apply wp_bind, wp_text_at; [lia | intros c _].
  destruct (hex_digit c); [| apply wp_ret; cbn; lia]. eapply wp_mono; [apply IH; lia | cbn; lia | done].
Qed.

(** What the loop returns: the end of the text, or the place of a dollar sign. *)
Definition text_end (p : Z * gmap Z ascii * Z) : Prop :=
  p.1.1 = -1 \/ triml <= p.1.1 < se /\ yytext !! Z.to_nat p.1.1 = Some "$"%char.

Lemma text_loop_safe tovar fuel : forall s d buf lineno,
  triml <= s <= se + 1 -> 0 <= d <= Z.min s se - triml -> se - s <= Z.of_nat fuel ->
  wp (text_loop yytext size fuel tovar se s d buf lineno) text_end no_fault.
Proof.
  induction fuel as [| fuel IH]; intros s d buf lineno Hs Hd Hf; cbn [text_loop];
    (destruct (Z.leb_spec se s); [apply wp_bind, wp_store; [lia |]; apply wp_ret; by left |]); [lia |].
  assert (Hgo : forall s' c, s + 1 <= s' <= se + 1 -> forall buf lineno,
    wp (buf ← store size buf d c; text_loop yytext size fuel tovar se s' (d + 1) buf lineno) text_end no_fault).
  { intros s' c Hs' buf' lineno'. apply wp_bind, wp_store; [lia |]. apply IH; lia. }
  apply wp_bind, wp_text_at; [lia | intros c Hc]. destruct (negb (Ascii.eqb c "\")).
  - destruct (tovar && Ascii.eqb c "$") eqn:E; [| apply Hgo; lia].
    apply andb_true_iff in E as [_ ->%Ascii.eqb_eq]. apply wp_bind, wp_store; [lia |]. apply wp_ret. right.
    split; [cbn; lia | apply Hc; lia].
  - apply wp_bind, wp_text_at; [lia | intros c' _]. destruct (is_octal c').
    + apply wp_bind. eapply wp_mono; [apply octal_digits_safe; lia | intros [s' v] Hv; cbn in Hv; apply Hgo; lia | done].
    + destruct (Ascii.eqb c' LF); [apply IH; lia |]. destruct (Ascii.eqb c' "x"); [| apply Hgo; lia].
      apply wp_bind. eapply wp_mono; [apply hex_digits_safe; lia | intros [s' v] Hv; cbn in Hv; apply Hgo; lia | done].
Qed.

(** What the scanner does with the pools. *)
Definition pools_kept (st st' : pools) : Prop := pool_bases st' = pool_bases st /\ mpools st' <> [] /\ mem st' = mem st.

Lemma text2lval_safe tovar lx st :
  mpools st <> [] ->
  wp (text2lval yytext triml trimr tovar lx st)
     (fun p => pools_kept st p.2 /\
        exists lval lineno, p.1.2 = lx <| lx_lval := lval |> <| lx_lineno := lineno |> /\
          (lval = None /\ p.1.1 = 0 \/ is_Some lval /\ text_end (p.1.1, ∅, 0))) no_fault.
Proof.
  intros Hst. unfold text2lval. cbn zeta. apply wp_bind. eapply wp_mono; [by apply mpool_alloc_bases | intros [p st'] Hb | done].
  cbn [snd] in Hb. destruct p as [p |].
  - apply wp_bind. eapply wp_mono; [apply text_loop_safe; lia | intros [[r buf] lineno] Hr | done]. apply wp_ret.
    split; [done |]. do 2 eexists. split; [done |]. right. split; [by eexists | done].
  - apply wp_ret. split; [done |]. exists None, (lx_lineno lx). split; [by destruct lx | by left].
Qed.

End text_safe.

(** ** The rule that is taken *)

(** Rule number [i] matches [n] characters: none before it matches as many, none after it more. *)
Definition best (s : start) (l : list rule) (input : list ascii) (i n : nat) (a : lex_action) : Prop :=
  (exists r, l !! i = Some r /\ active s r = true /\ longest (ru_re r) input = Some n /\ ru_action r = a) /\
  forall j r m, l !! j = Some r -> active s r = true -> longest (ru_re r) input = Some m -> (m <= n /\ (j < i -> m < n))%nat.

Lemma scan_rules_spec s l input :
  match scan_rules s l input with
  | Some (n, a) => exists i, best s l input i n a
  | None => forall r, r ∈ l -> active s r = true -> longest (ru_re r) input = None
  end.
Proof.
  induction l as [| r l IH]; cbn [scan_rules]; [intros r Hr; by apply elem_of_nil in Hr |].
  destruct (if active s r then longest (ru_re r) input else None) as [n |] eqn:E.
  - destruct (active s r) eqn:Ea; [| done].
    assert (Hr : exists r0, (r :: l) !! 0%nat = Some r0 /\ active s r0 = true /\ longest (ru_re r0) input = Some n /\
              ru_action r0 = ru_action r) by (by exists r).
    destruct (scan_rules s l input) as [[m a] |].
    + destruct IH as (i & (r' & H1 & H2 & H3 & H4) & Hmax). destruct (Nat.leb_spec m n).
      * exists 0%nat. split; [done |]. intros [| j] r0 k Hj Ha Hk; cbn in Hj; [injection Hj as <-; split; [| lia]; congruence || (assert (k = n) by congruence; lia) |].
        destruct (Hmax j r0 k Hj Ha Hk). lia.
      * exists (S i). split; [by exists r' |]. intros [| j] r0 k Hj Ha Hk; cbn in Hj.
        -- injection Hj as <-. assert (k = n) by congruence. lia.
        -- destruct (Hmax j r0 k Hj Ha Hk). lia.
    + exists 0%nat. split; [done |]. intros [| j] r0 k Hj Ha Hk; cbn in Hj.
      * injection Hj as <-. assert (k = n) by congruence. lia.
      * rewrite (IH r0) in Hk; [done | by eapply list_elem_of_lookup_2 | done].
  - destruct (scan_rules s l input) as [[m a] |].
    + destruct IH as (i & (r' & H1 & H2 & H3 & H4) & Hmax). exists (S i). split; [by exists r' |].
      intros [| j] r0 k Hj Ha Hk; cbn in Hj; [injection Hj as <-; by rewrite Ha, Hk in E |].
      destruct (Hmax j r0 k Hj Ha Hk). lia.
    + intros r0 [-> | H0]%elem_of_cons Ha; [by rewrite Ha in E | by apply IH].
Qed.

Lemma scan_eq s input : scan s input = scan_rules s rules input.
Proof. reflexivity. Qed.

(** The shortest text that an expression matches. *)
Fixpoint min_len (r : re) : nat :=
  match r with
  | Void | Eps | Star _ => 0
  | Cls _ => 1
  | Alt r1 r2 => Nat.min (min_len r1) (min_len r2)
  | Cat r1 r2 => min_len r1 + min_len r2
  end.

Lemma min_len_spec r s : matches r s -> (min_len r <= length s)%nat.
Proof. induction 1; cbn; rewrite ?length_app; lia. Qed.

(** A text of the expression does not begin with a NUL. *)
Definition no_nul (r : re) : bool := match der NUL r with Void => true | _ => false end.

Lemma no_nul_spec r s : no_nul r = true -> matches r s -> (1 <= length s)%nat -> char_token (default NUL (head s)) <> YYEOF.
Proof.
  intros Hr Hm Hl. destruct s as [| c s]; [cbn in Hl; lia |]. cbn. unfold char_token.
  destruct (Ascii.eqb_spec c NUL) as [-> |]; [| done]. apply der_spec in Hm. unfold no_nul in Hr.
  destruct (der NUL r); try done. inversion Hm.
Qed.

(** What the actions rely on: what they cut off is there, the end of the file is a token only where one NUL was taken, the stack is popped only where it was pushed, and the text of a
    string does not begin with a dollar sign. *)
Definition action_ok (s : start) (r : rule) : bool :=
  (1 <=? min_len (ru_re r))%nat &&
  match ru_action r with
  | Text t triml trimr => bool_decide (t <> YYEOF) && (0 <=? triml) && (0 <=? trimr) && (triml + trimr <=? Z.of_nat (min_len (ru_re r)))
  | Enter s' t => bool_decide (t <> YYEOF) && bool_decide (s ∈ [BASE; DQ]) && bool_decide (s' = AR)
  | TextChar => match ru_re r with Cls _ => true | _ => false end
  | EnterChar s' => bool_decide (s ∈ [AR; PR]) && bool_decide (s' = PR) && no_nul (ru_re r)
  | Plain t => bool_decide (t <> YYEOF)
  | Leave t => bool_decide (t <> YYEOF) && bool_decide (s ∈ [AR; PR])
  | LeaveChar => bool_decide (s ∈ [AR; PR]) && no_nul (ru_re r)
  | Quoted => (2 <=? min_len (ru_re r))%nat && match der "$" (ru_re r) with Void => true | _ => false end
  | _ => true
  end.

Lemma rules_ok s r : r ∈ rules -> active s r = true -> action_ok s r = true.
Proof.
  assert (H : forallb (fun s => forallb (fun r => implb (active s r) (action_ok s r)) rules) [INITIAL; BASE; DQ; AR; PR] = true)
    by (vm_compute; reflexivity).
  intros Hr Ha. rewrite forallb_forall in H. assert (Hs : In s [INITIAL; BASE; DQ; AR; PR]) by (destruct s; cbn; tauto).
  specialize (H s Hs). rewrite forallb_forall in H. specialize (H r ltac:(by apply list_elem_of_In)). by rewrite Ha in H.
Qed.

(** The last rule gives the input back, but never in the start condition that it begins. *)
Lemma restart_last i r : rules !! i = Some r -> ru_action r = Restart -> i = 36%nat /\ ru_re r = any.
Proof. do 37 (destruct i as [| i]; [cbn; by intros [= <-] |]). done. Qed.

Lemma longest_eps s : longest Eps s = Some 0%nat.
Proof. by destruct s. Qed.

Lemma longest_any c s : longest any (c :: s) = Some 1%nat.
Proof.
  unfold any, dot, none_of, chr. cbn. destruct (Ascii.eqb LF c); cbn; by rewrite longest_eps.
Qed.

(** One character is always matched by a rule before the last one. *)
Lemma one_character c l :
  exists j r, (j < 36)%nat /\ rules !! j = Some r /\ active BASE r = true /\ longest (ru_re r) (c :: l) = Some 1%nat.
Proof.
  destruct (Ascii.eqb LF c) eqn:Ec.
  - exists 12%nat, {| ru_starts := [BASE]; ru_re := chr LF; ru_action := NextLine |}. do 3 (split; [reflexivity || lia |]).
    unfold chr. cbn [ru_re longest der]. rewrite Ec. by rewrite longest_eps.
  - exists 35%nat, {| ru_starts := [BASE]; ru_re := dot; ru_action := TextChar |}. do 3 (split; [reflexivity || lia |]).
    unfold dot, none_of. cbn [ru_re longest der]. rewrite Ec. cbn [negb]. by rewrite longest_eps.
Qed.

Lemma no_restart c l n a : scan BASE (c :: l) = Some (n, a) -> a <> Restart.
Proof.
  intros Hs ->. pose proof (scan_rules_spec BASE rules (c :: l)) as H. rewrite scan_eq in Hs. rewrite Hs in H.
  destruct H as (i & (r & Hi & _ & Hn & Hact) & Hmax). destruct (restart_last i r Hi Hact) as [-> E].
  rewrite E, longest_any in Hn. injection Hn as <-. destruct (one_character c l) as (j & r' & Hlt & H1 & H2 & H3).
  destruct (Hmax j r' 1%nat H1 H2 H3) as [_ H]. specialize (H Hlt). lia.
Qed.

(** Every text begins with a match. *)
Lemma scan_some s c l : exists n a r, scan s (c :: l) = Some (n, a) /\ r ∈ rules /\ active s r = true /\
  ru_action r = a /\ (0 < n <= length (c :: l))%nat /\ matches (ru_re r) (take n (c :: l)).
Proof.
  pose proof (scan_rules_spec s rules (c :: l)) as H. rewrite scan_eq. destruct (scan_rules s rules (c :: l)) as [[n a] |] eqn:E.
  - destruct H as (i & (r & Hi & Ha & Hn & Hact) & _). pose proof (longest_correct (ru_re r) (c :: l)) as Hl. rewrite Hn in Hl.
    destruct Hl as (Hle & Hm & _). exists n, a, r. apply list_elem_of_lookup_2 in Hi. split; [done |]. do 3 (split; [done |]). split; [| done].
    split; [| done]. pose proof (rules_ok s r Hi Ha) as [Hmin%Nat.leb_le _]%andb_true_iff.
    pose proof (min_len_spec _ _ Hm) as H. rewrite length_take in H. lia.
  - exfalso. specialize (H {| ru_starts := []; ru_re := any; ru_action := Restart |}). rewrite longest_any in H.
    assert (Hr : {| ru_starts := []; ru_re := any; ru_action := Restart |} ∈ rules) by (apply (list_elem_of_lookup_2 _ 36%nat); reflexivity).
    by specialize (H Hr eq_refl).
Qed.

(** ** A call of the scanner *)

(** The stack was pushed in a string or outside of one, and arithmetic is only entered by pushing. *)
Record LexOK (lx : lexer) : Prop := {
  lo_pushed : lx_start lx ∈ [AR; PR] -> lx_stack lx <> [];
  lo_base : forall s, last (lx_stack lx) = Some s -> s ∈ [BASE; DQ];
}.

Lemma LexOK_same lx lx' : lx_start lx' = lx_start lx -> lx_stack lx' = lx_stack lx -> LexOK lx -> LexOK lx'.
Proof. intros E1 E2 []. split; rewrite ?E1, ?E2; done. Qed.

Lemma LexOK_begin s lx lx' : s ∈ [BASE; DQ] -> lx_start lx' = s -> lx_stack lx' = lx_stack lx -> LexOK lx -> LexOK lx'.
Proof.
  intros Hs E1 E2 []. split; rewrite ?E1, ?E2; [| done]. rewrite !elem_of_cons, elem_of_nil in *. intros [-> | [-> | []]].
  - by destruct Hs as [? | [? | ?]].
  - by destruct Hs as [? | [? | ?]].
Qed.

Lemma LexOK_push s lx :
  lx_start lx ∈ [BASE; DQ] /\ s = AR \/ lx_start lx ∈ [AR; PR] /\ s = PR -> LexOK lx -> LexOK (yy_push_state s lx).
Proof.
  intros H []. split; cbn; [done |]. intros x Hx. destruct (lx_stack lx) as [| y l] eqn:E.
  - injection Hx as <-. destruct H as [[H _] | [H _]]; [done |]. by destruct (lo_pushed0 H).
  - by apply lo_base0.
Qed.

Lemma pop_ok lx (Q : lexer -> Prop) F :
  LexOK lx -> lx_start lx ∈ [AR; PR] ->
  (forall s l, lx_stack lx = s :: l -> LexOK (lx <| lx_start := s |> <| lx_stack := l |>) ->
    Q (lx <| lx_start := s |> <| lx_stack := l |>)) ->
  wp (yy_pop_state lx) Q F.
Proof.
  intros [H1 H2] Hs HQ. unfold yy_pop_state. destruct (lx_stack lx) as [| s l] eqn:E; [by destruct (H1 Hs) |]. apply wp_ret, HQ; [done |].
  split; cbn.
  - intros Hs' ->. specialize (H2 s eq_refl). rewrite !elem_of_cons, elem_of_nil in *.
    destruct Hs' as [-> | [-> | []]]; by destruct H2 as [? | [? | ?]].
  - intros x Hx. apply H2. destruct l; [done | exact Hx].
Qed.

(** The scanner returned a string without its text, because there is no memory, and gave everything back. *)
Definition starved (t : token) (lx lx' : lexer) : Prop :=
  t = STR /\ lx_lval lx' = None /\ lx_start lx' = DQ /\ lx_input lx' = lx_input lx.

(** What an action does with the text [yytext] that was taken from the input of [lx]. *)
Definition acted (yytext : list ascii) (lx : lexer) (a : lex_action) (t : option token) (lx' : lexer) : Prop :=
  match t with
  | Some t =>
      t = YYEOF /\ yytext = [NUL] /\ lx_input lx' = lx_input lx \/
      t <> YYEOF /\ ((length (lx_input lx') < length yytext + length (lx_input lx))%nat \/
                     starved t (lx <| lx_input := yytext ++ lx_input lx |>) lx')
  | None =>
      lx_input lx' = lx_input lx /\ (lx_start lx' = lx_start lx \/ lx_start lx' = BASE) \/
      a = Restart /\ lx_input lx' = yytext ++ lx_input lx /\ lx_start lx' = BASE
  end.

Lemma quoted_safe r yytext lx st :
  matches (ru_re r) yytext -> (2 <= min_len (ru_re r))%nat -> der "$" (ru_re r) = Void -> LexOK lx -> mpools st <> [] ->
  wp (run_action Quoted yytext lx st) (fun p => LexOK p.1.2 /\ pools_kept st p.2 /\ acted yytext lx Quoted p.1.1 p.1.2) no_fault.
Proof.
  intros Hm Hmin Hd Hlx Hst. pose proof (min_len_spec _ _ Hm) as Hlen. destruct yytext as [| c0 text]; [cbn in Hlen; lia |].
  assert (Hc : c0 <> "$"%char) by (intros ->; apply der_spec in Hm; rewrite Hd in Hm; inversion Hm).
  cbn [run_action head default]. set (skip := if Ascii.eqb c0 dquote then 1 else 0). apply wp_bind.
  assert (Hskip : 0 <= skip <= 1) by (unfold skip; destruct (Ascii.eqb c0 dquote); lia).
  eapply wp_mono; [apply (text2lval_safe (c0 :: text) skip 1); lia || done | | done].
  intros [[atvar lx'] st'] (Hk & lval & lineno & E & Hr). cbn [fst snd] in *. subst lx'. apply wp_ret. cbn [fst snd].
  destruct (Z.ltb_spec atvar 0).
  - split; [| split; [done |]]; [apply (LexOK_begin BASE lx); [by left | done | done | done] |]. right. split; [done |]. left. cbn. lia.
  - split; [| split; [done |]]; [apply (LexOK_begin DQ lx); [by right; left | done | done | done] |]. right. split; [done |].
    destruct Hr as [[-> ->] | [_ [Hr | [Hr Hat]]]]; [right; by split_and! | cbn in Hr; lia |]. cbn in Hr, Hat. left. cbn [lx_input].
    assert (0 < atvar).
    { destruct (decide (atvar = 0)) as [-> |]; [| unfold skip in Hr; lia]. exfalso. apply Hc. by injection Hat. }
    cbn. rewrite length_app, length_drop. cbn [length] in *. lia.
Qed.

Lemma act_safe r yytext lx st :
  r ∈ rules -> active (lx_start lx) r = true -> matches (ru_re r) yytext -> LexOK lx -> mpools st <> [] ->
  wp (run_action (ru_action r) yytext lx st)
     (fun p => LexOK p.1.2 /\ pools_kept st p.2 /\ acted yytext lx (ru_action r) p.1.1 p.1.2) no_fault.
Proof.
  intros Hr Ha Hm Hlx Hst. pose proof (rules_ok _ r Hr Ha) as [Hpos%Nat.leb_le Hok]%andb_true_iff.
  pose proof (min_len_spec _ _ Hm) as Hlen. assert (Hk : pools_kept st st) by done.
  destruct (ru_action r) as [| t | | t triml trimr | s t | s | t | | | | | | |] eqn:Ea; cbn [run_action].
  - apply wp_ret. split; [done | split; [done |]]. left. auto.
  - apply bool_decide_eq_true in Hok. apply wp_ret. split; [done | split; [done |]]. right. split; [done | left; cbn; lia].
  - apply wp_ret. split; [done | split; [done |]]. destruct (ru_re r); try done. inversion Hm; subst. cbn. unfold char_token.
    destruct (Ascii.eqb_spec c NUL) as [-> |]; [by left | right]. split; [done |]. left. lia.
  - apply wp_bind. apply andb_true_iff in Hok as [[[H0%bool_decide_eq_true H1]%andb_true_iff H2]%andb_true_iff H3].
    eapply wp_mono; [apply (text2lval_safe yytext triml trimr); lia || done | | done].
    intros [[at_ lx'] st'] (Hkp & lval & lineno & E & _). cbn [fst snd] in *. subst lx'. apply wp_ret. split; [by apply (LexOK_same lx) | split; [done |]]. right. split; [done | left; cbn; lia].
  - apply andb_true_iff in Hok as [[H0%bool_decide_eq_true H1%bool_decide_eq_true]%andb_true_iff H2%bool_decide_eq_true]. apply wp_ret.
    split; [apply LexOK_push; auto | split; [done |]]. right. split; [done | left; cbn; lia].
  - apply andb_true_iff in Hok as [[H1%bool_decide_eq_true H2%bool_decide_eq_true]%andb_true_iff H3]. apply wp_ret.
    split; [apply LexOK_push; auto | split; [done |]]. right. split; [apply (no_nul_spec (ru_re r)); done || lia |]. left. cbn. lia.
  - apply andb_true_iff in Hok as [H0%bool_decide_eq_true Hok%bool_decide_eq_true]. apply wp_bind, pop_ok; [done | done |]. intros s l E H. apply wp_ret.
    split; [done | split; [done |]]. right. split; [done | left; cbn; lia].
  - apply andb_true_iff in Hok as [Hok%bool_decide_eq_true H0]. apply wp_bind, pop_ok; [done | done |]. intros s l E H. apply wp_ret.
    split; [done | split; [done |]]. right. split; [apply (no_nul_spec (ru_re r)); done || lia |]. left. cbn. lia.
  - apply wp_ret. split; [by apply (LexOK_same lx) | split; [done |]]. left. auto.
  - apply wp_ret. split; [by apply (LexOK_same lx) | split; [done |]]. left. auto.
  - apply andb_true_iff in Hok as [H1%Nat.leb_le H2]. apply (quoted_safe r); try done. by destruct (der "$" (ru_re r)).
  - apply wp_ret. split; [apply (LexOK_begin BASE lx); [by left | done | done | done] | split; [done |]]. left. auto.
  - apply wp_ret. split; [by apply (LexOK_same lx) | split; [done |]]. left. auto.
  - apply wp_ret. split; [apply (LexOK_begin BASE lx); [by left | done | done | done] | split; [done |]]. right. auto.
Qed.

(** Enough for one call: a character is taken, or the start condition is reset once. *)
Definition lex_fuel (lx : lexer) : nat := 2 * length (lx_input lx) + (if decide (lx_start lx = BASE) then 0 else 1).

Lemma pools_kept_trans st1 st2 st3 : pools_kept st1 st2 -> pools_kept st2 st3 -> pools_kept st1 st3.
Proof. intros (H1 & H2 & H3) (H4 & H5 & H6). split; [congruence | split; [done | congruence]]. Qed.

(** What a call of [yylex] did. *)
Definition lexed (lx : lexer) (st : pools) (p : token * lexer * pools) : Prop :=
  LexOK p.1.2 /\ pools_kept st p.2 /\
  (p.1.1 = YYEOF /\ (lx_input p.1.2 = [] \/ exists taken, lx_input lx = taken ++ NUL :: lx_input p.1.2) \/
   p.1.1 <> YYEOF /\ ((length (lx_input p.1.2) < length (lx_input lx))%nat \/
                      p.1.1 = STR /\ lx_lval p.1.2 = None /\ lx_start p.1.2 = DQ)).

Lemma yylex_safe fuel : forall lx st,
  LexOK lx -> mpools st <> [] -> (lex_fuel lx <= fuel)%nat -> wp (yylex fuel lx st) (lexed lx st) no_fault.
Proof.
  induction fuel as [| fuel IH]; intros lx st Hlx Hst Hf; cbn [yylex].
  - unfold lex_fuel in Hf. destruct (lx_input lx) as [| c l] eqn:E; [| cbn in Hf; lia]. apply wp_ret.
    split; [done | split; [done |]]. left. auto.
  - destruct (lx_input lx) as [| c l] eqn:E; [apply wp_ret; split; [done | split; [done | left; auto]] |].
    destruct (scan_some (lx_start lx) c l) as (n & a & r & Hs & Hr & Ha & Hact & Hn & Hm). rewrite Hs. apply wp_bind.
    set (lx1 := lx <| lx_input := drop n (c :: l) |>).
    assert (Hin : lx_input lx1 = drop n (c :: l)) by done. assert (Hst1 : lx_start lx1 = lx_start lx) by done.
    assert (Hlx1 : LexOK lx1) by (by apply (LexOK_same lx)). rewrite <- Hact.
    assert (Ha1 : active (lx_start lx1) r = true) by exact Ha.
    eapply wp_mono; [apply (act_safe r (take n (c :: l)) lx1 st Hr Ha1 Hm Hlx1 Hst) | intros [[t lx2] st2] (H1 & H2 & H3) | done].
    cbn [fst snd] in *. assert (Hlen : (length (take n (c :: l)) + length (drop n (c :: l)) = length (c :: l))%nat)
      by (rewrite length_take, length_drop; lia).
    destruct t as [t |].
    + apply wp_ret. split; [done | split; [done |]]. destruct H3 as [(-> & Et & H3) | [Ht H3]].
      { left. split; [done |]. right. exists []. cbn [fst snd app]. rewrite E, <- (take_drop n (c :: l)), Et, H3. by rewrite Hin. }
      right. split; [done |]. cbn [fst snd]. destruct H3 as [H3 | (-> & H4 & H5 & _)]; [left | by right]. rewrite E. rewrite Hin in H3. lia.
    + assert (Hlt : (lex_fuel lx2 < lex_fuel lx)%nat).
      { unfold lex_fuel. rewrite E. destruct H3 as [[H3 H4] | (Hre & H3 & H4)].
        - rewrite H3, Hin, length_drop. destruct H4 as [-> | ->]; [rewrite Hst1; case_decide; lia |].
          rewrite decide_True by done. case_decide; lia.
        - rewrite H3, H4, Hin, take_drop, decide_True by done.
          rewrite decide_False; [lia |]. intros Eb. rewrite Eb in Hs. rewrite <- Hact in Hs. by apply no_restart in Hs. }
      eapply wp_mono; [apply IH; [done | by apply H2 | lia] | | done].
      assert (Hle : (length (lx_input lx2) <= length (lx_input lx))%nat).
      { rewrite E. destruct H3 as [[-> _] | (_ & -> & _)]; rewrite Hin; [rewrite length_drop; lia | by rewrite take_drop]. }
      assert (Htk : exists taken, lx_input lx = taken ++ lx_input lx2).
      { rewrite E. destruct H3 as [[-> _] | (_ & -> & _)]; rewrite Hin;
          [exists (take n (c :: l)) | exists []]; by rewrite take_drop. }
      intros p (P1 & P2 & P3). split; [done | split; [by eapply pools_kept_trans |]].
      destruct P3 as [[? [? | [taken P3]]] | [? [? | ?]]]; [left; auto | left; split; [done |]; right; destruct Htk as [taken' ->]; exists (taken' ++ taken); by rewrite P3, app_assoc | right; split; [done | left; lia] | right; split; [done | by right]].
Qed.

(** [C19] A call of [yylex] ends, whatever the file contains: it returns a token, or the end of the file, without
    reading or writing outside of the text and its copy, and without popping a start condition that was not pushed; all that was handed out
    before stays.  The end of the file is returned when nothing is left, and also at a byte NUL, behind which the rest of the file is left unread: the
    rule for any other character returns the byte, and zero is the number of the end of the file.  The input gets shorter with every token, except for one case: a string for which there is no memory. *)
Theorem yylex_terminates lx st :
  LexOK lx -> mpools st <> [] -> wp (yylex (lex_fuel lx) lx st) (lexed lx st) no_fault.
Proof. intros. by apply yylex_safe. Qed.

(** In an expression inside of a string, with a pool that is full. *)
Lemma yylex_terminates_witness :
  let lx := {| lx_start := PR; lx_stack := [AR; DQ]; lx_input := String.list_ascii_of_string "0x1f ) ))\x4"; lx_lineno := 1; lx_nerrs := 0; lx_lval := None |} in
  let st := {| mpools := [{| m_addr := 65536; m_end := 65600; m_used := 65600; m_last_used := 65600; m_error := MPERR_NONE |}]; mem := ∅ |} in
  wp (yylex (lex_fuel lx) lx st) (lexed lx st) no_fault.
Proof.
  intros lx st. apply (yylex_terminates lx st); [| done].
  split; [done |]. intros s [= <-]. rewrite !elem_of_cons. auto.
Defined.

(** A NUL ends the file, although a machine stands behind it. *)
Example nul_ends_file :
  let rest := String.list_ascii_of_string "vm a { }" in
  let lx := {| lx_start := BASE; lx_stack := []; lx_input := NUL :: rest; lx_lineno := 1; lx_nerrs := 0; lx_lval := None |} in
  forall st o, yylex (lex_fuel lx) lx st o = Done (YYEOF, lx <| lx_input := rest |>, st) o.
Proof. intros. vm_compute. reflexivity. Qed.

(** ** Words that begin with apply or include *)

(** The dots of the rules for the macros stand for any character, so the blank before a word is taken for the dot. *)
Lemma scan_blank_apply rest : scan BASE (String.list_ascii_of_string " apply" ++ rest) = Some (6%nat, Text APPLY 0 0).
Proof. destruct rest; vm_compute; reflexivity. Qed.

Lemma scan_blank_include rest : scan BASE (String.list_ascii_of_string " include" ++ rest) = Some (8%nat, Plain INCLUDE).
Proof. destruct rest; vm_compute; reflexivity. Qed.

(** ** Strings in single quotes *)

(** How a string is written: a quote and a backslash get a backslash. *)
Definition quote_char (c : ascii) : list ascii := if is_one_of "'\" c then ["\"%char; c] else [c].

Definition quote (s : list ascii) : list ascii := concat (quote_char <$> s).

Definition quoted (s : list ascii) : list ascii := "'"%char :: quote s ++ ["'"%char].

Lemma quote_cons c s : quote (c :: s) = quote_char c ++ quote s.
Proof. reflexivity. Qed.

Lemma quote_cases c :
  quote_char c = ["\"%char; c] /\ (c = "'" \/ c = "\")%char \/
  quote_char c = [c] /\ Ascii.eqb c "'" = false /\ Ascii.eqb c "\" = false.
Proof.
  unfold quote_char, is_one_of. cbn. destruct (Ascii.eqb_spec c "'") as [-> | N1]; [left; auto |].
  destruct (Ascii.eqb_spec c "\") as [-> | N2]; [left; auto |]. right. auto.
Qed.

(** The rule for them, and the one for a string without an end, after the first quote. *)
Abbreviation quoted_body := (none_of (is_one_of "'\") ∥ escaped).
Abbreviation open_body := (none_of (fun c => is_one_of "'\" c || Ascii.eqb c LF) ∥ chr "\" · dot).

Lemma longest_S r c s n : der c r <> Void -> longest (der c r) s = Some n -> longest r (c :: s) = Some (S n).
Proof. intros Hd Hn. cbn [longest]. destruct (der c r); try done; by rewrite Hn. Qed.

Lemma der_quoted c :
  Ascii.eqb c "'" = false -> Ascii.eqb c "\" = false ->
  der c (Star quoted_body · chr "'") = Star quoted_body · chr "'".
Proof.
  intros H1 H2. unfold none_of, escaped, chr, is_one_of. cbn -[Ascii.eqb any]. rewrite (Ascii.eqb_sym "'"), (Ascii.eqb_sym "\"), H1, H2. reflexivity.
Qed.

Lemma der_any c : der c any = Eps.
Proof. unfold any, dot, none_of, chr. cbn. by destruct (Ascii.eqb LF c). Qed.

Lemma longest_quoted s rest : longest (Star quoted_body · chr "'") (quote s ++ "'"%char :: rest) = Some (S (length (quote s))).
Proof.
  induction s as [| c s IH].
  - apply (longest_S _ "'" rest 0); [done |]. change (der "'" (Star quoted_body · chr "'")) with Eps. apply longest_eps.
  - rewrite quote_cons. destruct (quote_cases c) as [[-> _] | (-> & H1 & H2)]; cbn [app length].
    + apply longest_S; [done |]. change (der "\" (Star quoted_body · chr "'")) with ((any · Star quoted_body) · chr "'").
      assert (Hd : der c ((any · Star quoted_body) · chr "'") = Star quoted_body · chr "'").
      { cbn [der nullable]. change (nullable any) with false. cbn [andb]. by rewrite der_any. }
      apply longest_S; rewrite Hd; [done |]. exact IH.
    + apply longest_S; rewrite der_quoted by done; [done |]. exact IH.
Qed.

Lemma der_open c :
  Ascii.eqb c "'" = false -> Ascii.eqb c "\" = false ->
  der c (Star open_body) = if Ascii.eqb c LF then Void else Star open_body.
Proof.
  intros H1 H2. unfold none_of, dot, chr, is_one_of. cbn -[Ascii.eqb]. rewrite (Ascii.eqb_sym "\"), H1, H2. cbn -[Ascii.eqb].
  by destruct (Ascii.eqb c LF).
Qed.

(** A string without an end does not go beyond the quote. *)
Lemma open_bound s rest : exists m, longest (Star open_body) (quote s ++ "'"%char :: rest) = Some m /\ (m <= length (quote s))%nat.
Proof.
  induction s as [| c s (m & IH & Hm)].
  - exists 0%nat. split; [reflexivity | lia].
  - rewrite quote_cons. destruct (quote_cases c) as [[-> Hc] | (-> & H1 & H2)]; cbn [app length].
    + exists (S (S m)). split; [| lia]. apply longest_S; [done |]. change (der "\" (Star open_body)) with (dot · Star open_body).
      assert (Hd : der c (dot · Star open_body) = Star open_body) by (destruct Hc as [-> | ->]; reflexivity).
      apply longest_S; rewrite Hd; done.
    + destruct (Ascii.eqb c LF) eqn:El.
      * exists 0%nat. split; [| lia]. cbn [longest]. rewrite der_open, El by done. reflexivity.
      * exists (S m). split; [| lia]. apply longest_S; rewrite der_open, El by done; done.
Qed.

Lemma lit_matches w x : matches (lit w) x -> x = String.list_ascii_of_string w.
Proof.
  revert x. induction w as [| c w IH]; intros x H; [by inversion H |]. destruct w as [| c' w].
  - unfold lit, chr in H. inversion H as [| p c0 Hc | | | | |]; subst. by apply Ascii.eqb_eq in Hc as ->.
  - change (matches (Cat (chr c) (lit (String c' w))) x) in H. apply matches_cat_inv in H as (s1 & s2 & -> & H1 & H2).
    unfold chr in H1. inversion H1 as [| p c0 Hc | | | | |]; subst. apply Ascii.eqb_eq in Hc as ->. by rewrite (IH s2 H2).
Qed.

(** A word without quotes ends before the quote. *)
Lemma lit_bound w l rest m :
  "'"%char ∉ String.list_ascii_of_string w -> longest (lit w) (l ++ "'"%char :: rest) = Some m -> (m <= length l)%nat.
Proof.
  intros Hw Hm. pose proof (longest_correct (lit w) (l ++ "'"%char :: rest)) as H. rewrite Hm in H. destruct H as (_ & H & _).
  apply lit_matches in H. destruct (decide (m <= length l)%nat) as [| N]; [done |]. exfalso. apply Hw. rewrite <- H.
  apply (list_elem_of_lookup_2 _ (length l)). rewrite lookup_take_lt by lia. rewrite lookup_app_r by lia. by rewrite Nat.sub_diag.
Qed.

Lemma best_unique s l input i n a i' n' a' : best s l input i n a -> best s l input i' n' a' -> n = n' /\ a = a'.
Proof.
  intros [(r & H1 & H2 & H3 & H4) Hm] [(r' & H1' & H2' & H3' & H4') Hm'].
  destruct (Hm i' r' n' H1' H2' H3') as [L1 L2]. destruct (Hm' i r n H1 H2 H3) as [L1' L2'].
  assert (n = n') by lia. subst n'. assert (i = i') by lia. subst i'. split; [done | congruence].
Qed.

Lemma scan_best s input i n a : best s rules input i n a -> scan s input = Some (n, a).
Proof.
  intros H. pose proof (scan_rules_spec s rules input) as Hs. rewrite scan_eq. destruct (scan_rules s rules input) as [[m b] |].
  - destruct Hs as [j Hj]. by destruct (best_unique _ _ _ _ _ _ _ _ _ H Hj) as [-> ->].
  - destruct H as [(r & Hi & Ha & Hn & _) _]. rewrite (Hs r) in Hn; [done | by eapply list_elem_of_lookup_2 | done].
Qed.

Lemma longest_dot_lit c w x m : longest (dot · lit w) (c :: x) = Some m -> w <> EmptyString -> exists k, m = S k /\ longest (lit w) x = Some k.
Proof.
  intros H Hw. unfold dot, none_of in H. cbn [longest der nullable] in H. destruct (negb (Ascii.eqb LF c)); cbn [cat andb] in H; [| done].
  destruct (lit w) eqn:E; [done | by destruct w as [| ? []] | ..]; (destruct (longest _ x) as [k |]; [| done]); injection H as <-; eauto.
Qed.

Lemma longest_lead c r r' x : der c r = r' -> r' <> Void -> nullable r = false -> longest r (c :: x) = S <$> longest r' x.
Proof. intros Hd Hv Hn. cbn [longest]. rewrite Hd, Hn. destruct r'; try done; by destruct (longest _ x). Qed.

(** The rules that match something that begins with a quote. *)
Lemma quote_rules j r x m :
  rules !! j = Some r -> active BASE r = true -> longest (ru_re r) ("'"%char :: x) = Some m ->
  exists k, m = S k /\
    (j = 16%nat /\ longest (lit "include") x = Some k \/ j = 17%nat /\ longest (lit "apply") x = Some k \/
     j = 23%nat /\ longest (Star quoted_body · chr "'") x = Some k \/
     j = 31%nat /\ longest (Star open_body) x = Some k \/ (24 <= j)%nat /\ k = 0%nat).
Proof.
  do 37 (destruct j as [| j];
    [intros [= <-] Ha H; cbn [ru_re] in H;
     first [vm_compute in Ha; discriminate Ha
       | apply (longest_dot_lit _ "include") in H as (k & -> & H); [exists k; split; [done | solve [auto 10]] | done]
       | apply (longest_dot_lit _ "apply") in H as (k & -> & H); [exists k; split; [done | solve [auto 10]] | done]
       | rewrite (longest_lead _ _ (Star quoted_body · chr "'")) in H by done;
         apply fmap_Some in H as (k & H & ->); exists k; split; [done | solve [auto 10]]
       | rewrite (longest_lead _ _ (Star open_body)) in H by done;
         apply fmap_Some in H as (k & H & ->); exists k; split; [done | solve [auto 10]]
       | cbn in H; discriminate H
       | cbn in H; rewrite ?longest_eps in H; injection H as <-; exists 0%nat; split; [done | lia]] |]); done.
Qed.

Lemma scan_quoted s rest : scan BASE (quoted s ++ rest) = Some (length (quoted s), Text STR 1 1).
Proof.
  unfold quoted. cbn [app length]. rewrite <- app_assoc, length_app. cbn [app length]. set (x := quote s ++ "'"%char :: rest).
  apply (scan_best _ _ 23). split.
  - eexists. split; [reflexivity | split; [reflexivity | split; [| reflexivity]]]. cbn [ru_re].
    rewrite (longest_lead _ _ (Star quoted_body · chr "'")) by done. unfold x. rewrite longest_quoted. cbn. f_equal. lia.
  - intros j r m Hj Ha Hm. destruct (quote_rules j r x m Hj Ha Hm) as (k & -> & H).
    assert (Hw : forall w, "'"%char ∉ String.list_ascii_of_string w -> longest (lit w) x = Some k -> (k <= length (quote s))%nat)
      by (intros w Hw1 Hw2; by eapply lit_bound).
    destruct H as [[-> H] | [[-> H] | [[-> H] | [[-> H] | [H1 ->]]]]].
    + specialize (Hw "include" ltac:(by apply (bool_decide_unpack _); vm_compute) H). lia.
    + specialize (Hw "apply" ltac:(by apply (bool_decide_unpack _); vm_compute) H). lia.
    + unfold x in H. rewrite longest_quoted in H. injection H as <-. lia.
    + destruct (open_bound s rest) as (m & Ho & Hle). fold x in Ho. rewrite H in Ho. injection Ho as ->. lia.
    + lia.
Qed.

(** The bytes of [l] stand at the beginning of the block. *)
Definition holds (buf : gmap Z ascii) (l : list ascii) : Prop := forall i c, l !! i = Some c -> buf !! Z.of_nat i = Some c.

Lemma holds_snoc buf l c : holds buf l -> holds (<[Z.of_nat (length l) := c]> buf) (l ++ [c]).
Proof.
  intros H i x Hx. destruct (decide (i = length l)) as [-> | N].
  - rewrite lookup_app_r, Nat.sub_diag in Hx by lia. injection Hx as <-. apply lookup_insert_eq.
  - rewrite lookup_insert_ne by lia. apply H. apply lookup_lt_Some in Hx as Hlt. rewrite length_app in Hlt. cbn in Hlt.
    by rewrite lookup_app_l in Hx by lia.
Qed.

Lemma read_holds l : forall buf d n,
  (forall i c, (l ++ [NUL]) !! i = Some c -> buf !! (d + Z.of_nat i) = Some c) -> NUL ∉ l -> (length l < n)%nat ->
  read_string buf d n = String.string_of_list_ascii l.
Proof.
  induction l as [| c l IH]; intros buf d n Hb Hnul Hn; (destruct n as [| n]; [cbn in Hn; lia |]); cbn [read_string].
  - specialize (Hb 0%nat NUL eq_refl). rewrite Z.add_0_r in Hb. by rewrite Hb.
  - pose proof (Hb 0%nat c eq_refl) as H0. rewrite Z.add_0_r in H0. rewrite H0. rewrite elem_of_cons in Hnul.
    destruct (Ascii.eqb_spec c NUL) as [-> | _]; [tauto |]. cbn. f_equal. apply IH; [| tauto | cbn in Hn; lia].
    intros i x Hx. replace (d + 1 + Z.of_nat i) with (d + Z.of_nat (S i)) by lia. by apply Hb.
Qed.

Definition newlines (l : list ascii) : Z := Z.of_nat (length (filter (eq LF) l)).

Lemma newlines_cons c l : newlines (c :: l) = (if Ascii.eqb c LF then 1 else 0) + newlines l.
Proof.
  unfold newlines. destruct (Ascii.eqb_spec c LF) as [-> | N]; [rewrite filter_cons_True by done; cbn; lia |].
  rewrite filter_cons_False by congruence. lia.
Qed.

(** *** Steps of the loop *)

Lemma text_at_app l1 c l2 o : text_at (l1 ++ c :: l2) (Z.of_nat (length l1)) o = Done c o.
Proof.
  unfold text_at. rewrite length_app. cbn [length].
  destruct (Z.eqb_spec (Z.of_nat (length l1)) (Z.of_nat (length l1 + S (length l2)))); [lia |].
  rewrite (proj2 (Z.leb_le _ _)), (proj2 (Z.ltb_lt _ _)) by lia. cbn [andb]. rewrite Nat2Z.id, lookup_app_r, Nat.sub_diag by lia. reflexivity.
Qed.

Lemma store_run size buf d c o : 0 <= d < size -> store size buf d c o = Done (<[d := c]> buf) o.
Proof. intros H. unfold store. by replace ((0 <=? d) && (d <? size)) with true by lia. Qed.

Section steps.
Context (text : list ascii) (size se : Z) (fuel : nat) (l1 : list ascii) (c : ascii) (l2 : list ascii) (d : Z) (buf : gmap Z ascii)
        (lineno : Z) (o : oracle).
Hypothesis before_end : Z.of_nat (length l1) < se.
Hypothesis in_block : 0 <= d < size.

Lemma text_loop_char :
  text = l1 ++ c :: l2 -> Ascii.eqb c "\" = false ->
  text_loop text size (S fuel) false se (Z.of_nat (length l1)) d buf lineno o =
  text_loop text size fuel false se (Z.of_nat (length (l1 ++ [c]))) (d + 1) (<[d := c]> buf) (lineno + if Ascii.eqb c LF then 1 else 0) o.
Proof.
  intros E Hc. cbn [text_loop]. replace (se <=? _) with false by lia. unfold mbind, C_bind. rewrite E at 1.
  rewrite text_at_app, Hc. cbn [negb andb]. rewrite store_run by lia. rewrite length_app, Nat2Z.inj_add.
  by destruct (Ascii.eqb c LF); rewrite ?Z.add_0_r.
Qed.

Lemma text_loop_escape :
  text = l1 ++ "\"%char :: c :: l2 -> is_octal c = false -> Ascii.eqb c LF = false -> Ascii.eqb c "x" = false ->
  text_loop text size (S fuel) false se (Z.of_nat (length l1)) d buf lineno o =
  text_loop text size fuel false se (Z.of_nat (length (l1 ++ ["\"%char; c]))) (d + 1) (<[d := escape_char c]> buf) lineno o.
Proof.
  intros E C1 C2 C3. cbn [text_loop]. replace (se <=? _) with false by lia. unfold mbind, C_bind. rewrite E at 1.
  rewrite text_at_app. cbn [negb Ascii.eqb Bool.eqb].
  replace (Z.of_nat (length l1) + 1) with (Z.of_nat (length (l1 ++ ["\"%char]))) by (rewrite length_app; cbn; lia).
  rewrite E at 1. rewrite cons_middle, app_assoc, text_at_app, C1, C2, C3, store_run by lia.
  replace (Z.of_nat (length (l1 ++ ["\"%char])) + 1) with (Z.of_nat (length (l1 ++ ["\"%char; c]))) by (rewrite !length_app; cbn; lia).
  done.
Qed.

End steps.

(** The loop on a string as it is written, when [copied] was copied. *)
Lemma text_loop_quote post size text o l : forall l1 copied buf fuel lineno,
  text = l1 ++ quote l ++ post -> holds buf copied -> (length (quote l) <= fuel)%nat ->
  Z.of_nat (length copied + length l) < size ->
  exists buf', text_loop text size fuel false (Z.of_nat (length l1 + length (quote l))) (Z.of_nat (length l1))
                 (Z.of_nat (length copied)) buf lineno o = Done (-1, buf', lineno + newlines l) o /\
               holds buf' ((copied ++ l) ++ [NUL]).
Proof.
  induction l as [| c l IH]; intros l1 copied buf fuel lineno E Hb Hf Hsz.
  - exists (<[Z.of_nat (length copied) := NUL]> buf). split; [| rewrite app_nil_r; by apply holds_snoc]. cbn in Hsz.
    rewrite Nat.add_0_r. destruct fuel; cbn [text_loop]; rewrite Z.leb_refl; unfold mbind, C_bind;
      rewrite store_run by lia; cbn; by rewrite Z.add_0_r.
  - rewrite quote_cons in *. rewrite <- app_assoc in E. rewrite newlines_cons. rewrite length_app in *. cbn [length] in *.
    assert (Hgo : forall l1' fuel' lineno', text = l1' ++ quote l ++ post -> (length (quote l) <= fuel')%nat ->
      exists buf', text_loop text size fuel' false (Z.of_nat (length l1' + length (quote l))) (Z.of_nat (length l1'))
        (Z.of_nat (length copied) + 1) (<[Z.of_nat (length copied) := c]> buf) lineno' o = Done (-1, buf', lineno' + newlines l) o /\
        holds buf' ((copied ++ c :: l) ++ [NUL])).
    { intros l1' fuel' lineno' E' Hf'.
      destruct (IH l1' (copied ++ [c]) (<[Z.of_nat (length copied) := c]> buf) fuel' lineno' E' (holds_snoc _ _ _ Hb) Hf') as (buf' & H1 & H2);
        [rewrite length_app; cbn; lia |].
      exists buf'. rewrite <- (app_assoc copied) in H2. rewrite length_app, (Nat2Z.inj_add (length copied)) in H1. split; [exact H1 | exact H2]. }
    destruct (quote_cases c) as [[Ec Hc] | (Ec & H1 & H2)]; rewrite Ec in *; cbn [length app] in *; (destruct fuel as [| fuel]; [lia |]).
    + assert (Hcc : is_octal c = false /\ Ascii.eqb c LF = false /\ Ascii.eqb c "x" = false /\ escape_char c = c)
        by (destruct Hc as [-> | ->]; done). destruct Hcc as (C1 & C2 & C3 & C4).
      rewrite (text_loop_escape _ _ _ _ l1 c (quote l ++ post)), C2, C4 by (lia || done).
      destruct (Hgo (l1 ++ ["\"%char; c]) fuel lineno) as (buf' & H1 & H2); [rewrite <- app_assoc; exact E | lia |].
      exists buf'. split; [| done]. rewrite Z.add_0_l, <- H1. do 2 f_equal. rewrite length_app. cbn. lia.
    + rewrite (text_loop_char _ _ _ _ l1 c (quote l ++ post)) by (lia || done).
      destruct (Hgo (l1 ++ [c]) fuel (lineno + if Ascii.eqb c LF then 1 else 0)) as (buf' & H3 & H4); [rewrite <- app_assoc; exact E | lia |].
      exists buf'. split; [| done]. rewrite Z.add_assoc, <- H3. do 2 f_equal. rewrite length_app. cbn. lia.
Qed.

(** Every text can be written as a string: it is read back between single quotes, whatever stands behind it, with
    its lines counted. *)
Lemma read_quoted lx st st' s rest p fuel o :
  lx_start lx = BASE -> lx_input lx = quoted s ++ rest -> NUL ∉ s ->
  mpool_alloc st (Z.of_nat (length (quote s)) + 1) o = Done (Some p, st') o ->
  yylex (S fuel) lx st o =
  Done (STR, lx <| lx_input := rest |> <| lx_lval := Some (String.string_of_list_ascii s) |>
                <| lx_lineno := lx_lineno lx + newlines s |>, st') o.
Proof.
  intros Hst Hin Hnul Hp. cbn [yylex]. rewrite Hin, Hst. destruct (quoted s ++ rest) eqn:Eq; [done |].
  rewrite <- Eq. rewrite scan_quoted, take_app_length, drop_app_length. unfold mbind, C_bind. cbn [run_action]. unfold text2lval, mbind, C_bind.
  assert (Hlen : Z.of_nat (length (quoted s)) = Z.of_nat (length (quote s)) + 2) by (unfold quoted; cbn; rewrite length_app; cbn; lia).
  rewrite Hlen. replace (Z.of_nat (length (quote s)) + 2 - 1 - 1 + 1) with (Z.of_nat (length (quote s)) + 1) by lia. rewrite Hp.
  assert (Hle : (length s <= length (quote s))%nat).
  { clear. induction s as [| c s IH]; [done |]. rewrite quote_cons, length_app. cbn. unfold quote_char. destruct (is_one_of _ _); cbn; lia. }
  destruct (text_loop_quote ["'"%char] (Z.of_nat (length (quote s)) + 1) (quoted s) o s ["'"%char] [] ∅ (length (quoted s)) (lx_lineno lx))
    as (buf & E & Hb); [done | by intros i c Hc | lia | cbn; lia |].
  replace (Z.of_nat (length ["'"%char] + length (quote s))) with (Z.of_nat (length (quote s)) + 2 - 1) in E by (cbn; lia).
  change (Z.of_nat (length ["'"%char])) with 1 in E. change (Z.of_nat (length [])) with 0 in E.
  change (lx_lineno (lx <| lx_input := rest |>)) with (lx_lineno lx). rewrite E.
  rewrite (read_holds s buf 0 _) by (done || lia). done.
Qed.
