(* ===== verification/Grammar.v ===== *)
(** * The grammar of the configuration files (src/confparse.y)

    [yyparse] as the parser that yacc makes of the grammar, with its actions: the
    sections are added to the context, the tree is built in the memory pool, and
    [.include] adds files to the list.  The tables of yacc are not modelled but what they compute: a token
    is read only where the next step depends on it, a conflict is resolved by
    shifting (the grammar gives the operators of expressions no
    precedence), and after an error inside of a section the parser goes back to the
    parameters, drops everything up to a semicolon and goes on, as the rule
    "param: error" says.  An error elsewhere and an allocation that fails end the parser.

    A function stands for one or more nonterminals; [fuel] bounds the
    recursion.  The depth of the parser's stack is not bounded in the model (yacc gives up at 10000). *)

From S2P Require Import Prelude CString Vars Conf Global MPool Plugin ParseValue Parser Load Regex Lexer.
From Stdlib Require Import Ascii.

Local Open Scope Z_scope.

(** ** The state of the parser *)

(** [ps_char] is the token that was read and not used yet; [ps_errflag] is 3 after an
    error and counts down with the tokens that are shifted. *)
Record pstate := {
  ps_lx : lexer;
  ps_char : option token;
  ps_errflag : Z;
  ps_ctx : parser_context;
  ps_st : pools;
  ps_gv : option (gmap string string);
}.

#[export] Instance eta_pstate : Eta pstate := fun ps =>
  {| ps_lx := ps_lx ps; ps_char := ps_char ps; ps_errflag := ps_errflag ps; ps_ctx := ps_ctx ps; ps_st := ps_st ps; ps_gv := ps_gv ps |}.

(** [Abort] is [goto yyabort], [SynErr] a token that does not fit. *)
Inductive presult (A : Type) :=
  | Ok (a : A)
  | Abort
  | SynErr.
Arguments Ok {A} a.
Arguments Abort {A}.
Arguments SynErr {A}.

Definition P (A : Type) : Type := pstate -> C (presult A * pstate).

#[export] Instance P_ret : MRet P := fun A a ps => mret (Ok a, ps).

#[export] Instance P_bind : MBind P := fun A B k m ps =>
  '(r, ps) ← m ps;
  match r with
  | Ok a => k a ps
  | Abort => mret (Abort, ps)
  | SynErr => mret (SynErr, ps)
  end.

Definition abort {A} : P A := fun ps => mret (Abort, ps).

Definition syntax_error {A} : P A := fun ps => mret (SynErr, ps).

Definition lift {A} (c : C A) : P A := fun ps => a ← c; mret (Ok a, ps).

(** A parser that fails on a token is told so. *)
Definition attempt {A} (m : P A) : P (option A) := fun ps =>
  '(r, ps) ← m ps;
  match r with
  | Ok a => mret (Ok (Some a), ps)
  | SynErr => mret (Ok None, ps)
  | Abort => mret (Abort, ps)
  end.

(** ** Tokens *)

(** A character that is negative as a [char] ends the input. *)
Definition token_value (t : token) : token :=
  match t with
  | Char c => if byte_of c <? 128 then Char c else YYEOF
  | _ => t
  end.

Definition peek : P token := fun ps =>
  match ps_char ps with
  | Some t => mret (Ok t, ps)
  | None =>
      '(t, lx, st) ← yylex (lex_fuel (ps_lx ps)) (ps_lx ps) (ps_st ps);
      let t := token_value t in
      mret (Ok t, ps <| ps_lx := lx |> <| ps_st := st |> <| ps_char := Some t |>)
  end.

(** The value of the token. *)
Definition shift_token : P (option string) := fun ps =>
  let flag := ps_errflag ps in
  mret (Ok (lx_lval (ps_lx ps)), ps <| ps_char := None |> <| ps_errflag := if 0 <? flag then flag - 1 else flag |>).

Definition expect (t : token) : P unit :=
  t' ← peek;
  if decide (t' = t) then _ ← shift_token; mret tt else syntax_error.

(** [objalloc]; the parser gives up without memory. *)
Definition objalloc (size : Z) : P unit := fun ps =>
  '(p, st) ← mpool_alloc (ps_st ps) size;
  mret (match p with Some _ => Ok tt | None => Abort end, ps <| ps_st := st |>).

Definition sizeof_cfexpr : Z := 32.
Definition sizeof_cftoken : Z := 56.
Definition sizeof_cfargdef : Z := 32.
Definition sizeof_cfarg : Z := 24.
Definition sizeof_cfvalue : Z := 40.
Definition sizeof_cfparam : Z := 40.

(** [sizeof(struct cftokens)] and the heads of the other lists. *)
Definition sizeof_head : Z := 16.

Definition create_token (t : CF_TYPE) (s : option string) (ex : option cfexpr) : P cftoken := fun ps =>
  '(r, ps) ← objalloc sizeof_cftoken ps;
  match r with
  | Ok _ =>
      fn ← peek_filename (ps_ctx ps);
      mret (Ok {| t_type := t; t_s := s; t_len := match s with Some s => String.length s | None => 0%nat end; t_expr := ex;
                  t_filename := fn; t_lineno := lx_lineno (ps_lx ps) |}, ps)
  | _ => mret (Abort, ps)
  end.

(** ** Expressions *)

Definition NODE (op : ascii) (l r : option cfexpr) : cfexpr := Build_cfexpr CF_EXPR op None l r.

Definition LEAF (t : CF_TYPE) (v : string) : cfexpr := Build_cfexpr t NUL (Some v) None None.

Definition operators : string := "+-*/%".

(** A number or a variable; the NULL of a token without memory ends the parser. *)
Definition p_leaf (t : CF_TYPE) : P cfexpr :=
  v ← shift_token;
  match v with
  | None => abort
  | Some v => _ ← objalloc sizeof_cfexpr; mret (LEAF t v)
  end.

(** The operand of a minus sign: both nodes are allocated before anything is looked at. *)
Definition p_negated_leaf (t : CF_TYPE) : P cfexpr :=
  v ← shift_token;
  _ ← objalloc sizeof_cfexpr;
  _ ← objalloc sizeof_cfexpr;
  match v with
  | None => abort
  | Some v => mret (NODE "~" (Some (LEAF t v)) None)
  end.

(** What stands before an operator: a number, a variable, one of them with a minus sign, or parentheses around an expression. *)
Definition p_operand (sub : P cfexpr) : P cfexpr :=
  t ← peek;
  match t with
  | NUMBER => p_leaf CF_NUM
  | VAR => p_leaf CF_VAR
  | Char "-" =>
      _ ← shift_token;
      t ← peek;
      match t with
      | NUMBER => p_negated_leaf CF_NUM
      | VAR => p_negated_leaf CF_VAR
      | Char "(" => _ ← shift_token; e ← sub; _ ← expect (Char ")"); _ ← objalloc sizeof_cfexpr; mret (NODE "~" (Some e) None)
      | _ => syntax_error
      end
  | Char "(" => _ ← shift_token; e ← sub; _ ← expect (Char ")"); mret e
  | _ => syntax_error
  end.

(** An operand and, when an operator follows, everything behind it as the right operand. *)
Fixpoint p_expr (fuel : nat) : P cfexpr :=
  match fuel with
  | O => lift (crash OutOfFuel)
  | S fuel =>
      left ← p_operand (p_expr fuel);
      t ← peek;
      match t with
      | Char c =>
          if is_one_of operators c then
            _ ← shift_token; right ← p_expr fuel; _ ← objalloc sizeof_cfexpr; mret (NODE c (Some left) (Some right))
          else if Ascii.eqb c ")" then mret left else syntax_error
      | END_AR => mret left
      | _ => syntax_error
      end
  end.

(** ** Strings *)

(** The pieces of a string, as far as there are any. *)
Fixpoint p_tokens_loop (fuel : nat) (acc : cftokens) : P cftokens :=
  match fuel with
  | O => lift (crash OutOfFuel)
  | S fuel =>
      t ← peek;
      match t with
      | BEGIN_AR =>
          _ ← shift_token; ex ← p_expr fuel; _ ← expect END_AR;
          tk ← create_token CF_EXPR None (Some ex); p_tokens_loop fuel (acc ++ [tk])
      | STR =>
          v ← shift_token;
          match v with
          | None => abort
          | Some _ => tk ← create_token CF_STR v None; p_tokens_loop fuel (acc ++ [tk])
          end
      | VAR =>
          v ← shift_token; tk ← create_token CF_VAR v None;
          match v with
          | None => abort
          | Some _ => p_tokens_loop fuel (acc ++ [tk])
          end
      | _ => mret acc
      end
  end.

Definition p_tokens (fuel : nat) : P cftokens := _ ← objalloc sizeof_head; p_tokens_loop fuel [].

(** The next token must be one of [l]. *)
Definition follows (l : list token) : P token :=
  t ← peek;
  if decide (t ∈ l) then mret t else syntax_error.

(** Items, separated by commas: the head of the list is allocated with the first item. *)
Fixpoint p_more {A} (fuel : nat) (item : P A) (close : token) (acc : list A) : P (list A) :=
  match fuel with
  | O => lift (crash OutOfFuel)
  | S fuel =>
      t ← follows [Char ","; close];
      if decide (t = Char ",") then _ ← shift_token; x ← item; p_more fuel item close (acc ++ [x]) else mret acc
  end.

Definition p_list {A} (fuel : nat) (item : P A) (close : token) : P (list A) :=
  x ← item; _ ← objalloc sizeof_head; p_more fuel item close [x].

(** ** Parameters *)

Definition p_value (fuel : nat) : P cfvalue :=
  ts ← p_tokens fuel; _ ← follows [Char ","; Char ";"]; _ ← objalloc sizeof_cfvalue; mret {| vl_tokens := ts; vl_args := [] |}.

Definition p_arg (fuel : nat) : P cfarg :=
  ts ← p_tokens fuel; _ ← follows [Char ","; Char ")"]; _ ← objalloc sizeof_cfarg; mret {| ag_tokens := ts |}.

Definition p_target (fuel : nat) : P cfvalue :=
  ts ← p_tokens fuel;
  t ← follows [Char ","; Char ";"; Char "("];
  if decide (t = Char "(") then
    _ ← shift_token; args ← p_list fuel (p_arg fuel) (Char ")"); _ ← expect (Char ")");
    _ ← objalloc sizeof_cfvalue; mret {| vl_tokens := ts; vl_args := args |}
  else _ ← objalloc sizeof_cfvalue; mret {| vl_tokens := ts; vl_args := [] |}.

(** [macro] and [name]. *)
Definition p_name (t : CF_TYPE) : P cftoken :=
  v ← shift_token;
  match v with
  | None => abort
  | Some _ => create_token t v None
  end.

Definition p_param (fuel : nat) : P cfparam :=
  t ← peek;
  match t with
  | APPLY =>
      key ← p_name CF_STR; vals ← p_list fuel (p_target fuel) (Char ";");
      _ ← objalloc sizeof_cfparam; mret {| pr_key := Some key; pr_vals := vals; pr_operator := 0 |}
  | STR | VAR =>
      key ← p_name (if decide (t = STR) then CF_STR else CF_VAR);
      op ← follows [Char "="; PLEQ];
      _ ← shift_token;
      vals ← p_list fuel (p_value fuel) (Char ";");
      _ ← objalloc sizeof_cfparam;
      mret {| pr_key := Some key; pr_vals := vals; pr_operator := if decide (op = PLEQ) then 1 else 0 |}
  | _ => syntax_error
  end.

(** *** Errors *)

(** An error is counted unless one was met shortly before. *)
Definition note_error : P unit := fun ps =>
  mret (Ok tt, (if ps_errflag ps =? 0 then ps <| ps_lx := ps_lx ps <| lx_nerrs := lx_nerrs (ps_lx ps) + 1 |> |> else ps)
               <| ps_errflag := 3 |>).

(** Everything up to a semicolon is dropped; the end of the file ends the parser. *)
Fixpoint discard (fuel : nat) : P unit :=
  match fuel with
  | O => lift (crash OutOfFuel)
  | S fuel =>
      t ← peek;
      if decide (t = Char ";") then _ ← shift_token; mret tt
      else if decide (t = YYEOF) then abort
      else (fun ps => discard fuel (ps <| ps_char := None |>))
  end.

Definition error_param : cfparam := {| pr_key := None; pr_vals := []; pr_operator := -1 |}.

Definition recover (fuel : nat) : P cfparam := _ ← note_error; _ ← objalloc sizeof_cfparam; _ ← discard fuel; mret error_param.

(** The parameters of a section and its closing brace. *)
Fixpoint p_params_loop (fuel : nat) (acc : list cfparam) : P (list cfparam) :=
  match fuel with
  | O => lift (crash OutOfFuel)
  | S fuel =>
      t ← peek;
      if decide (t = Char "}") then _ ← shift_token; mret acc
      else
        r ← attempt (pr ← p_param fuel; _ ← expect (Char ";"); mret pr);
        pr ← match r with Some pr => mret pr | None => recover fuel end;
        p_params_loop fuel (acc ++ [pr])
  end.

Definition p_params (fuel : nat) : P (list cfparam) := _ ← objalloc sizeof_head; p_params_loop fuel [].

(** ** Sections *)

Section sections.
Context (fs : fsys).

(** The section that was added last. *)
Fixpoint set_last (f : cfsection -> cfsection) (l : list cfsection) : list cfsection :=
  match l with
  | [] => []
  | [v] => [f v]
  | v :: l => v :: set_last f l
  end.

(** [add_section] with the parameters and the arguments that are then linked to the section. *)
Definition new_section (sec : SECTION) (name : option string) (ads : list cfargdef) (prs : list cfparam) : P unit := fun ps =>
  '(ok, ctx, st) ← add_section fs (ps_ctx ps) (ps_st ps) sec name;
  if (ok : bool) then
    mret (Ok tt, ps <| ps_st := st |>
      <| ps_ctx := with_sections ctx sec (set_last (fun v => v <| sc_argdefs := ads |> <| sc_params := prs |>) (sections ctx sec)) |>)
  else mret (Abort, ps <| ps_st := st |> <| ps_ctx := ctx |>).

Definition run_apply_global_vars : P unit := fun ps =>
  sc ← deref (last (cfglobals (ps_ctx ps)));
  '(_, gv) ← apply_global_vars (ps_gv ps) sc;
  mret (Ok tt, ps <| ps_gv := gv |>).

Definition run_glob_path (ts : cftokens) : P unit := fun ps =>
  '(ctx, st) ← glob_path fs (ps_gv ps) (ps_ctx ps) (ps_st ps) ts;
  mret (Ok tt, ps <| ps_ctx := ctx |> <| ps_st := st |>).

Definition p_global (fuel : nat) : P unit :=
  _ ← shift_token; _ ← expect (Char "{"); prs ← p_params fuel;
  _ ← new_section SECTION_GLOBAL None [] prs; run_apply_global_vars.

Definition p_argdef (fuel : nat) : P cfargdef :=
  t ← peek;
  if decide (t = STR) then
    name ← shift_token;
    t ← follows [Char "="; Char ","; Char ")"];
    if decide (t = Char "=") then
      _ ← shift_token; ts ← p_tokens fuel; _ ← follows [Char ","; Char ")"];
      _ ← objalloc sizeof_cfargdef; mret {| ad_name := name; ad_tokens := ts |}
    else _ ← objalloc sizeof_cfargdef; mret {| ad_name := name; ad_tokens := [] |}
  else syntax_error.

(** The word before the name of a section was read; the name may be missing for lack of memory. *)
Definition p_section_name : P (option string) :=
  _ ← shift_token; t ← peek; if decide (t = STR) then shift_token else syntax_error.

Definition p_tmpl (fuel : nat) : P unit :=
  name ← p_section_name;
  t ← follows [Char "{"; Char "("];
  ads ← (if decide (t = Char "(") then
           _ ← shift_token; ads ← p_list fuel (p_argdef fuel) (Char ")"); _ ← expect (Char ")"); mret ads
         else mret []);
  _ ← expect (Char "{"); prs ← p_params fuel;
  new_section SECTION_TEMPLATE name ads prs.

Definition p_vm (fuel : nat) : P unit :=
  name ← p_section_name; _ ← expect (Char "{"); prs ← p_params fuel; new_section SECTION_VM name [] prs.

Definition p_include (fuel : nat) : P unit :=
  _ ← shift_token; ts ← p_tokens fuel; _ ← expect (Char ";"); run_glob_path ts.

Fixpoint p_conf (fuel : nat) : P unit :=
  match fuel with
  | O => lift (crash OutOfFuel)
  | S fuel =>
      t ← peek;
      match t with
      | GLOBAL => _ ← p_global fuel; p_conf fuel
      | TEMPLATE => _ ← p_tmpl fuel; p_conf fuel
      | VM => _ ← p_vm fuel; p_conf fuel
      | INCLUDE => _ ← p_include fuel; p_conf fuel
      | YYEOF => mret tt
      | _ => syntax_error
      end
  end.

(** The result of [yyparse]: 0 or 1. *)
Definition yyparse0 (fuel : nat) (ps : pstate) : C (Z * pstate) :=
  '(r, ps) ← p_conf fuel ps;
  match r with
  | Ok _ => mret (0, ps)
  | Abort => mret (1, ps)
  | SynErr => '(_, ps) ← note_error ps; mret (1, ps)
  end.

(** ** The parser of a file *)

Definition parser_start (text : string) (ctx : parser_context) (st : pools) (gv : option (gmap string string)) : pstate :=
  {| ps_lx := {| lx_start := INITIAL; lx_stack := []; lx_input := String.list_ascii_of_string text; lx_lineno := 1; lx_nerrs := 0;
                 lx_lval := None |};
     ps_char := None; ps_errflag := 0; ps_ctx := ctx; ps_st := st; ps_gv := gv |}.

(** Enough for a text of that length. *)
Definition parse_fuel (text : string) : nat := 4 * String.length text + 8.

(** What the child does with the text; a fault ends it by a signal.  Where the fuel is not enough it does not end. *)
Definition yyparse (o : oracle) (gv : option (gmap string string)) (text : string) (ctx : parser_context) (st : pools) : child_end :=
  match yyparse0 (parse_fuel text) (parser_start text ctx st gv) o with
  | Done (rc, ps) _ => Exited (if (rc =? 0) && (lx_nerrs (ps_lx ps) =? 0) then 0 else 1) (ps_ctx ps) (ps_st ps)
  | Crash OutOfFuel => Hung
  | Crash _ => Signaled
  end.

End sections.
