(* ===== verification/Accept.v ===== *)
(** * What the parser accepts (src/confparse.y)

    A logic for the functions of Grammar.v: [parses p its c F Q] says that [p], on
    the tokens [its], followed by a token of [F], ends with a result of [Q] and has used
    these tokens and no other, provided that there are [c] bytes in a pool besides what the
    tokens take.  With its rules the functions are run on the tokens of an
    abstract syntax; the result is the tree of Parser.v for it. *)

From S2P Require Import Prelude CString Vars Conf Global MPool Plugin ParseValue Parser Load Regex Lexer Grammar.
From Stdlib Require Import Ascii.

Local Open Scope Z_scope.

(** ** Memory *)

(** Some pool has [n] free bytes. *)
Definition plenty (st : pools) (n : Z) : Prop :=
  exists m, m ∈ mpools st /\ 0 <= m_used m /\ m_used m + n <= m_end m /\ m_end m < 2 ^ 64 /\ m_end m <= m_used m + mpool_max.

Lemma plenty_less st n k : k <= n -> plenty st n -> plenty st k.
Proof. intros H (m & H1 & H2 & H3 & H4). exists m. split_and!; try done; lia. Qed.

Lemma take_first_plenty sz n l m :
  0 <= sz -> 0 <= n -> m ∈ l -> 0 <= m_used m -> m_used m + (sz + n) <= m_end m -> m_end m < 2 ^ 64 -> m_end m <= m_used m + mpool_max ->
  exists p l', take_first sz l = Some (p, l') /\ plenty {| mpools := l'; mem := ∅ |} n.
Proof.
  intros Hsz Hn Hm H1 H2 H3 H4. induction l as [| m0 l IH]; [by apply elem_of_nil in Hm |]. cbn [take_first].
  destruct (Z.leb_spec (wrap_u 64 (m_used m0 + sz)) (m_end m0)) as [Hle | Hgt].
  - eexists _, _. split; [done |]. apply elem_of_cons in Hm as [<- | Hm].
    + eexists. split; [by left |]. unfold wrap_u in *. cbn. rewrite Z.mod_small by lia. split_and!; lia.
    + exists m. split; [by right |]. split_and!; lia || done.
  - apply elem_of_cons in Hm as [<- | Hm]; [unfold wrap_u in Hgt; rewrite Z.mod_small in Hgt by lia; lia |].
    destruct (IH Hm) as (p & l' & -> & m' & Hm' & Hrest). eexists _, _. split; [done |]. exists m'. split; [by right | done].
Qed.

Lemma alloc_plenty st sz k o :
  0 <= sz -> 0 <= k -> plenty st (sz + 8 + k) -> exists p st', mpool_alloc st sz o = Done (Some p, st') o /\ plenty st' k.
Proof.
  intros Hsz Hk (m & Hm & H1 & H2 & H3 & H4). unfold mpool_max, DEFAULT_MMAP_SIZE, PAGE_SIZE, sizeof_mpool in *.
  destruct (roundup8_spec sz Hsz) as [Hr _]; [lia |].
  destruct (take_first_plenty (roundup8 sz) k (mpools st) m) as (p & l' & E & Hp); try lia || done.
  exists p, (st <| mpools := l' |>). split; [| exact Hp]. unfold mpool_alloc, DEFAULT_MMAP_SIZE, PAGE_SIZE, sizeof_mpool. cbn zeta.
  replace (_ <? roundup8 sz) with false by lia. by rewrite E.
Qed.

(** ** Tokens to come *)

(** A token with its value and the memory that it takes. *)
Record item := { it_tok : token; it_val : option string; it_cost : Z }.

Definition valued (t : token) : bool := match t with STR | VAR | NUMBER | APPLY => true | _ => false end.

Definition has_value (lx : lexer) (it : item) : Prop := valued (it_tok it) = true -> lx_lval lx = it_val it.

(** The scanner is about to return the tokens [its]. *)
Fixpoint feeds (lx : lexer) (its : list item) : Prop :=
  match its with
  | [] => True
  | it :: its' =>
      0 <= it_cost it /\ token_value (it_tok it) = it_tok it /\
      exists lx1,
        (forall st k o, 0 <= k -> plenty st (it_cost it + k) ->
           exists st', yylex (lex_fuel lx) lx st o = Done (it_tok it, lx1, st') o /\ plenty st' k) /\
        has_value lx1 it /\ lx_nerrs lx1 = lx_nerrs lx /\ feeds lx1 its'
  end.

Definition total (its : list item) : Z := foldr (fun it n => it_cost it + n) 0 its.

Lemma total_cons it its : total (it :: its) = it_cost it + total its.
Proof. reflexivity. Qed.

Lemma feeds_total lx its : feeds lx its -> 0 <= total its.
Proof. revert lx. induction its as [| it its IH]; intros lx; [done |]. intros (H & _ & lx1 & _ & _ & _ & Hf). rewrite total_cons. apply IH in Hf. lia. Qed.

Section accept.
Context (file : cffile).

(** The parser is at the tokens [its], with [k] bytes to spare; [ld] says that the first of them was read. *)
Definition ready (ld : bool) (ps : pstate) (its : list item) (k : Z) : Prop :=
  ps_errflag ps = 0 /\ cur_file (ps_ctx ps) = Some file /\
  ((ld = false /\ ps_char ps = None /\ feeds (ps_lx ps) its /\ plenty (ps_st ps) (total its + k)) \/
   exists it its', its = it :: its' /\ ps_char ps = Some (it_tok it) /\ has_value (ps_lx ps) it /\ feeds (ps_lx ps) its' /\
     plenty (ps_st ps) (total its' + k)).

Definition kept (ps ps' : pstate) : Prop :=
  ps_ctx ps' = ps_ctx ps /\ ps_gv ps' = ps_gv ps /\ lx_nerrs (ps_lx ps') = lx_nerrs (ps_lx ps).

Lemma parser_kept_trans ps1 ps2 ps3 : kept ps1 ps2 -> kept ps2 ps3 -> kept ps1 ps3.
Proof. intros (? & ? & ?) (? & ? & ?). split_and!; congruence. Qed.

Lemma ready_loaded ps its k ld : ready true ps its k -> ready ld ps its k.
Proof. intros (H1 & H2 & [[? _] | H3]); [done |]. split; [done | split; [done | by right]]. Qed.

Lemma ready_less ld ps its k k' : k' <= k -> ready ld ps its k -> ready ld ps its k'.
Proof.
  intros Hk (H1 & H2 & H3). split; [done | split; [done |]]. destruct H3 as [(? & ? & ? & ?) | (it & its' & ? & ? & ? & ? & ?)].
  - left. split_and!; try done. eapply plenty_less; [| done]. lia.
  - right. exists it, its'. split_and!; try done. eapply plenty_less; [| done]. lia.
Qed.

(** The next token is one of [F]. *)
Definition next_in (F : token -> Prop) (rest : list item) : Prop :=
  match rest with it :: _ => F (it_tok it) | [] => False end.

Definition parses {A} (ld : bool) (p : P A) (its : list item) (c : Z) (F : token -> Prop) (ld' : bool) (Q : A -> Prop) : Prop :=
  forall ps rest k o, next_in F rest -> 0 <= k -> ready ld ps (its ++ rest) (c + k) ->
  exists a ps', p ps o = Done (Ok a, ps') o /\ Q a /\ ready ld' ps' rest k /\ kept ps ps'.

(** ** Rules *)

Lemma parses_ret {A} ld (a : A) F (Q : A -> Prop) : Q a -> parses ld (mret a) [] 0 F ld Q.
Proof. intros HQ ps rest k o _ _ Hr. exists a, ps. by split_and!. Qed.

Lemma parses_bind {A B} ld ld1 ld2 (p : P A) (f : A -> P B) its1 its2 c1 c2 (F1 F : token -> Prop) Q1 Q :
  0 <= c2 -> parses ld p its1 c1 F1 ld1 Q1 -> (forall rest, next_in F rest -> next_in F1 (its2 ++ rest)) ->
  (forall a, Q1 a -> parses ld1 (f a) its2 c2 F ld2 Q) -> parses ld (p ≫= f) (its1 ++ its2) (c1 + c2) F ld2 Q.
Proof.
  intros Hc Hp HF Hf ps rest k o Hn Hk Hr. rewrite <- app_assoc, <- Z.add_assoc in Hr.
  destruct (Hp ps (its2 ++ rest) (c2 + k) o (HF rest Hn) ltac:(lia) Hr) as (a & ps1 & E1 & Ha & Hr1 & K1).
  destruct (Hf a Ha ps1 rest k o Hn Hk Hr1) as (b & ps2 & E2 & Hb & Hr2 & K2).
  exists b, ps2. split; [| split; [done | split; [done | by eapply parser_kept_trans]]].
  unfold mbind, P_bind, mbind, C_bind. rewrite E1. exact E2.
Qed.

Lemma parses_mono {A} ld ld' (p : P A) its c c' (F F' : token -> Prop) (Q Q' : A -> Prop) :
  parses ld p its c F ld' Q -> c <= c' -> (forall t, F' t -> F t) -> (forall a, Q a -> Q' a) -> parses ld p its c' F' ld' Q'.
Proof.
  intros Hp Hc HF HQ ps rest k o Hn Hk Hr. destruct (Hp ps rest k o) as (a & ps' & E & Ha & Hr' & K); [| done | |].
  - destruct rest; [done | by apply HF].
  - eapply ready_less; [| done]. lia.
  - exists a, ps'. split_and!; auto.
Qed.

(** What is loaded may be forgotten, before and after. *)
Lemma parses_forget {A} ld (p : P A) its c F ld' Q : parses ld p its c F true Q -> parses ld p its c F ld' Q.
Proof.
  intros Hp ps rest k o Hn Hk Hr. destruct (Hp ps rest k o Hn Hk Hr) as (a & ps' & E & Ha & Hr' & K).
  exists a, ps'. split_and!; auto. by apply ready_loaded.
Qed.

Lemma parses_loaded {A} ld (p : P A) its c F ld' Q : parses false p its c F ld' Q -> parses ld p its c F ld' Q.
Proof.
  intros Hp ps rest k o Hn Hk Hr. apply (Hp ps rest k o Hn Hk). destruct ld; [by apply ready_loaded | done].
Qed.

(** Reading the next token. *)
Lemma ready_peek ld ps it its k o :
  0 <= k -> ready ld ps (it :: its) k ->
  exists ps', peek ps o = Done (Ok (it_tok it), ps') o /\ ready true ps' (it :: its) k /\ kept ps ps'.
Proof.
  intros Hk (H1 & H2 & [(_ & Hc & Hf & Hp) | (it' & its' & E & Hc & Hv & Hf & Hp)]).
  - destruct Hf as (H0 & Ht & lx1 & Hlex & Hv & Hn & Hf). pose proof (feeds_total _ _ Hf) as Htot.
    rewrite total_cons, <- Z.add_assoc in Hp.
    destruct (Hlex (ps_st ps) (total its + k) o ltac:(lia) Hp) as (st' & E & Hp').
    eexists. split; [unfold peek; rewrite Hc; unfold mbind, C_bind; rewrite E, Ht; reflexivity |]. split; [| by split_and!].
    split; [done | split; [done |]]. right. by exists it, its.
  - injection E as <- <-. exists ps. unfold peek. rewrite Hc. split; [done | split; [| by split_and!]].
    split; [done | split; [done |]]. right. by exists it, its.
Qed.

Lemma parses_peek {B} ld ld' it its (f : token -> P B) c F Q :
  0 <= c -> parses true (f (it_tok it)) (it :: its) c F ld' Q -> parses ld (peek ≫= f) (it :: its) c F ld' Q.
Proof.
  intros Hc Hf ps rest k o Hn Hk Hr. destruct (ready_peek ld ps it (its ++ rest) (c + k) o ltac:(lia) Hr) as (ps1 & E & Hr1 & K1).
  destruct (Hf ps1 rest k o Hn Hk Hr1) as (b & ps2 & E2 & Hb & Hr2 & K2).
  exists b, ps2. split; [| split; [done | split; [done | by eapply parser_kept_trans]]]. unfold mbind, P_bind, mbind, C_bind. rewrite E. exact E2.
Qed.

(** Looking at what follows. *)
Lemma parses_peek_next {B} ld ld' (f : token -> P B) c F Q :
  0 <= c -> (forall t, F t -> parses true (f t) [] c (eq t) ld' Q) -> parses ld (peek ≫= f) [] c F ld' Q.
Proof.
  intros Hc Hf ps rest k o Hn Hk Hr. destruct rest as [| it its]; [done |]. cbn in Hn, Hr.
  destruct (ready_peek ld ps it its (c + k) o ltac:(lia) Hr) as (ps1 & E & Hr1 & K1).
  destruct (Hf (it_tok it) Hn ps1 (it :: its) k o eq_refl Hk Hr1) as (b & ps2 & E2 & Hb & Hr2 & K2).
  exists b, ps2. split; [| split; [done | split; [done | by eapply parser_kept_trans]]]. unfold mbind, P_bind, mbind, C_bind. rewrite E. exact E2.
Qed.

Lemma parses_shift {B} ld' it its (f : option string -> P B) c F Q :
  (forall v, (valued (it_tok it) = true -> v = it_val it) -> parses false (f v) its c F ld' Q) ->
  parses true (shift_token ≫= f) (it :: its) c F ld' Q.
Proof.
  intros Hf ps rest k o Hn Hk (H1 & H2 & [[? _] | (it' & its' & E & Hc & Hv & Hfd & Hp)]); [done |]. injection E as <- <-.
  set (ps1 := ps <| ps_char := None |> <| ps_errflag := 0 |>).
  destruct (Hf (lx_lval (ps_lx ps)) Hv ps1 rest k o Hn Hk) as (b & ps2 & E2 & Hb & Hr2 & K2).
  - split; [done | split; [done |]]. left. by split_and!.
  - exists b, ps2. split; [| split; [done | split; [done | exact K2]]]. unfold shift_token, mbind, P_bind, mbind, C_bind. rewrite H1. exact E2.
Qed.

Lemma parses_objalloc ld sz F : 0 <= sz -> parses ld (objalloc sz) [] (sz + 8) F ld (fun _ => True).
Proof.
  intros Hsz ps rest k o _ Hk Hr.
  assert (Ha : exists st', objalloc sz ps o = Done (Ok tt, ps <| ps_st := st' |>) o /\ ready ld (ps <| ps_st := st' |>) rest k).
  { destruct Hr as (H1 & H2 & H3). unfold objalloc, mbind, C_bind.
    assert (Hgo : forall n, 0 <= n -> plenty (ps_st ps) (n + (sz + 8 + k)) ->
      exists p st', mpool_alloc (ps_st ps) sz o = Done (Some p, st') o /\ plenty st' (n + k)).
    { intros n Hn0 Hp. apply alloc_plenty; [done | lia |]. eapply plenty_less; [| done]. lia. }
    destruct H3 as [(? & ? & Hfd & Hp) | (it & its' & ? & ? & ? & Hfd & Hp)]; pose proof (feeds_total _ _ Hfd) as Htot;
      destruct (Hgo _ Htot Hp) as (p & st' & E & Hp'); exists st'; rewrite E; (split; [done |]); split; try done; split; try done.
    - left. by split_and!.
    - right. exists it, its'. by split_and!. }
  destruct Ha as (st' & E & Hr'). by exists tt, (ps <| ps_st := st' |>).
Qed.

(** An allocation before the rest. *)
Lemma parses_alloc {B} ld ld' sz its (f : unit -> P B) c F Q :
  0 <= sz -> 0 <= c -> parses ld (f tt) its c F ld' Q -> parses ld (objalloc sz ≫= f) its (sz + 8 + c) F ld' Q.
Proof.
  intros Hsz Hc Hf. apply (parses_bind ld ld ld' _ _ [] its _ _ (fun _ => True) F (fun _ => True)); [done | by apply parses_objalloc | |].
  - intros rest H. destruct its; [by destruct rest | done].
  - by intros [] _.
Qed.

Definition anything (t : token) : Prop := True.

Lemma next_any its rest F : its <> [] \/ next_in F rest -> next_in anything (its ++ rest).
Proof. destruct its; [| done]. intros [H | H]; [done |]. by destruct rest. Qed.

Lemma parses_expect ld it : parses ld (expect (it_tok it)) [it] 0 anything false (fun _ => True).
Proof.
  apply parses_peek; [done |]. rewrite decide_True by done. apply (parses_shift _ it []). intros v _. by apply parses_ret.
Qed.

Lemma parses_follows ld l (F : token -> Prop) : (forall t, F t -> t ∈ l) -> parses ld (follows l) [] 0 F true F.
Proof.
  intros Hl. apply parses_peek_next; [done |]. intros t Ht. rewrite decide_True by auto.
  eapply parses_mono; [by apply (parses_ret _ t anything F) | lia | done | done].
Qed.

(** What [create_token] makes. *)
Definition token_is (ty : CF_TYPE) (v : option string) (ex : option cfexpr) (tk : cftoken) : Prop :=
  t_type tk = ty /\ t_s tk = v /\ t_len tk = match v with Some s => String.length s | None => 0%nat end /\ t_expr tk = ex /\
  t_filename tk = f_name file.

Lemma parses_create_token ld ty v ex : parses ld (create_token ty v ex) [] (sizeof_cftoken + 8) anything ld (token_is ty v ex).
Proof.
  intros ps rest k o Hn Hk Hr. unfold create_token.
  destruct (parses_objalloc ld sizeof_cftoken anything ltac:(done) ps rest k o Hn Hk Hr) as ([] & ps' & E & _ & Hr' & K). pose proof Hr' as (_ & Hcur & _).
  eexists _, ps'. split; [unfold mbind, C_bind; rewrite E; unfold peek_filename; rewrite Hcur; reflexivity |].
  split_and!; try done.
Qed.

(** ** Expressions *)

Definition plain_item (t : token) : item := {| it_tok := t; it_val := None; it_cost := 0 |}.
Definition char_item (c : ascii) : item := plain_item (Char c).
Definition text_item (t : token) (s : string) : item := {| it_tok := t; it_val := Some s; it_cost := Z.of_nat (String.length s) + 9 |}.

Definition leaf (a : aexp) : bool := match a with ANum _ | AVar _ => true | _ => false end.

Definition in_parens (its : list item) : list item := char_item "(" :: its ++ [char_item ")"].

(** An expression is written with parentheses around left operands but numbers and variables; everything behind an operator is its right operand. *)
Fixpoint expr_items (a : aexp) : list item :=
  match a with
  | ANum s => [text_item NUMBER s]
  | AVar x => [text_item VAR x]
  | ANeg a => char_item "-" :: in_parens (expr_items a)
  | ABin op a b =>
      (if leaf a then expr_items a else in_parens (expr_items a)) ++ char_item op :: expr_items b
  end.

Definition operand_items (a : aexp) : list item := if leaf a then expr_items a else in_parens (expr_items a).

(** The memory for the nodes, and the depth. *)
Fixpoint expr_cost (a : aexp) : Z :=
  match a with
  | ANum _ | AVar _ => 40
  | ANeg a => expr_cost a + 40
  | ABin _ a b => expr_cost a + expr_cost b + 40
  end.

Fixpoint depth (a : aexp) : nat :=
  match a with
  | ANum _ | AVar _ => 1
  | ANeg a => S (depth a)
  | ABin _ a b => S (S (Nat.max (depth a) (depth b)))
  end.

Lemma expr_cost_pos a : 0 <= expr_cost a.
Proof. induction a; cbn; lia. Qed.

Definition closing (t : token) : Prop := t = END_AR \/ t = Char ")".

Lemma parses_leaf t ty s :
  valued t = true -> parses true (p_leaf ty) [text_item t s] 40 anything false (eq (LEAF ty s)).
Proof.
  intros Ht. apply parses_shift. intros v Hv. rewrite (Hv Ht). cbn. apply (parses_alloc false false sizeof_cfexpr [] _ 0); [done | done |].
  by apply parses_ret.
Qed.

(** [p], then the token [it], then [f]. *)
Lemma parses_then {A B} ld ld1 ld2 (p : P A) it (f : A -> P B) its c c2 (F1 : token -> Prop) F Q1 Q :
  0 <= c2 -> F1 (it_tok it) -> parses ld p its c F1 ld1 Q1 -> (forall a, Q1 a -> parses false (f a) [] c2 F ld2 Q) ->
  parses ld (a ← p; _ ← expect (it_tok it); f a) (its ++ [it]) (c + c2) F ld2 Q.
Proof.
  intros Hc Ht Hp Hf. eapply (parses_bind _ ld1); [done | exact Hp | intros rest _; exact Ht |].
  intros a Ha. replace c2 with (0 + c2) by lia. change [it] with ([it] ++ []).
  eapply (parses_bind _ false); [done | apply parses_expect | intros rest H; by destruct rest |]. intros _ _. by apply Hf.
Qed.

Lemma parses_parens (sub : P cfexpr) its c e :
  0 <= c -> parses false sub its c closing true (eq e) ->
  parses true (_ ← shift_token; e ← sub; _ ← expect (Char ")"); mret e) (in_parens its) c anything false (eq e).
Proof.
  intros Hc Hs. apply parses_shift. intros v _. replace c with (c + 0) by lia.
  apply (parses_then false true false sub (char_item ")") _ its c 0 closing anything (eq e)); [done | by right | done |].
  intros e' <-. by apply parses_ret.
Qed.

Lemma operand_parses (sub : P cfexpr) a :
  (leaf a = false -> parses false sub (expr_items a) (expr_cost a) closing true (eq (to_cfexpr a))) ->
  parses false (p_operand sub) (operand_items a) (expr_cost a) anything false (eq (to_cfexpr a)).
Proof.
  intros Hs. pose proof (expr_cost_pos a). unfold operand_items.
  destruct a as [s | x | a | op a b]; cbn [leaf]; unfold p_operand; apply parses_peek; try done.
  - by apply parses_leaf.
  - by apply parses_leaf.
  - apply parses_parens; [done | by apply Hs].
  - apply parses_parens; [done | by apply Hs].
Qed.

Lemma negation_parses (sub : P cfexpr) a :
  parses false sub (expr_items a) (expr_cost a) closing true (eq (to_cfexpr a)) ->
  parses false (p_operand sub) (expr_items (ANeg a)) (expr_cost (ANeg a)) anything false (eq (to_cfexpr (ANeg a))).
Proof.
  intros Hs. pose proof (expr_cost_pos a). cbn [expr_items expr_cost]. unfold p_operand. apply parses_peek; [lia |]. apply parses_shift. intros v _.
  apply parses_peek; [lia |]. apply parses_shift. intros v' _.
  apply (parses_then false true false sub (char_item ")") _ (expr_items a) (expr_cost a) 40 closing anything (eq (to_cfexpr a)));
    [done | by right | done |].
  intros e <-. apply (parses_alloc false false sizeof_cfexpr [] _ 0); [done | done |]. by apply parses_ret.
Qed.

(** An expression is an operand, or an operand, an operator and an expression. *)
Lemma expr_operand fuel its c e :
  0 <= c -> parses false (p_operand (p_expr fuel)) its c anything false (eq e) ->
  parses false (p_expr (S fuel)) its c closing true (eq e).
Proof.
  intros Hc Hp. cbn [p_expr]. replace c with (c + 0) by lia. rewrite <- (app_nil_r its).
  eapply (parses_bind _ false); [done | exact Hp | intros rest H; by destruct rest |]. intros e' <-.
  apply parses_peek_next; [done |]. intros t [-> | ->]; by apply parses_ret.
Qed.

Lemma expr_binary fuel its1 its2 c1 c2 e1 e2 op :
  0 <= c1 -> 0 <= c2 -> is_one_of operators op = true ->
  parses false (p_operand (p_expr fuel)) its1 c1 anything false (eq e1) ->
  parses false (p_expr fuel) its2 c2 closing true (eq e2) ->
  parses false (p_expr (S fuel)) (its1 ++ char_item op :: its2) (c1 + (c2 + 40)) closing true (eq (NODE op (Some e1) (Some e2))).
Proof.
  intros H1 H2 Hop Hp Hq. cbn [p_expr]. eapply (parses_bind _ false); [lia | exact Hp | done |]. intros e <-.
  apply parses_peek; [lia |]. cbn [it_tok char_item plain_item]. rewrite Hop. apply parses_shift. intros v _.
  rewrite <- (app_nil_r its2). eapply (parses_bind _ true); [lia | exact Hq | intros rest H; by destruct rest |]. intros e <-.
  apply (parses_alloc true true sizeof_cfexpr [] _ 0); [done | done |]. by apply parses_ret.
Qed.

Lemma expr_parses a : forall fuel,
  ops_ok a = true -> (depth a <= fuel)%nat -> parses false (p_expr fuel) (expr_items a) (expr_cost a) closing true (eq (to_cfexpr a)).
Proof.
  induction a as [s | x | a IH | op a IHa b IHb]; intros fuel Hop Hd; cbn [depth] in Hd;
    (destruct fuel as [| fuel]; [lia |]).
  - apply expr_operand; [done |]. by apply (operand_parses _ (ANum s)).
  - apply expr_operand; [done |]. by apply (operand_parses _ (AVar x)).
  - pose proof (expr_cost_pos (ANeg a)). apply expr_operand; [done |]. apply negation_parses, IH; [done | lia].
  - cbn [ops_ok] in Hop. apply andb_true_iff in Hop as [[Ho Ha]%andb_true_iff Hb]. destruct fuel as [| fuel]; [lia |].
    cbn [expr_items expr_cost to_cfexpr]. fold (operand_items a).
    replace (expr_cost a + expr_cost b + 40) with (expr_cost a + (expr_cost b + 40)) by lia.
    apply expr_binary; [apply expr_cost_pos | apply expr_cost_pos | done | |].
    + apply operand_parses. intros _. apply IHa; [done | lia].
    + apply IHb; [done | lia].
Qed.

(** ** Strings *)

(** A piece of a string: text in quotes, a variable, or an expression. *)
Inductive piece :=
  | PStr (s : string)
  | PVar (x : string)
  | PExpr (a : aexp).

(** A string in quotes takes the memory of its text as it is written. *)
Definition str_item (s : string) : item :=
  {| it_tok := STR; it_val := Some s; it_cost := Z.of_nat (length (quote (String.list_ascii_of_string s))) + 9 |}.

Definition piece_items (p : piece) : list item :=
  match p with
  | PStr s => [str_item s]
  | PVar x => [text_item VAR x]
  | PExpr a => plain_item BEGIN_AR :: expr_items a ++ [plain_item END_AR]
  end.

Definition pieces_items (l : list piece) : list item := concat (piece_items <$> l).

Definition piece_ok (p : piece) : bool := match p with PExpr a => ops_ok a | _ => true end.

Definition piece_is (p : piece) (tk : cftoken) : Prop :=
  match p with
  | PStr s => token_is CF_STR (Some s) None tk
  | PVar x => token_is CF_VAR (Some x) None tk
  | PExpr a => token_is CF_EXPR None (Some (to_cfexpr a)) tk
  end.

Definition piece_cost (p : piece) : Z := 64 + match p with PExpr a => expr_cost a | _ => 0 end.

Definition sum_cost {X} (f : X -> Z) (l : list X) : Z := foldr (fun x n => f x + n) 0 l.

Lemma sum_cost_pos {X} (f : X -> Z) l : (forall x, 0 <= f x) -> 0 <= sum_cost f l.
Proof. intros Hf. unfold sum_cost. induction l as [| x l IH]; cbn; [lia |]. specialize (Hf x). lia. Qed.

Lemma piece_cost_pos p : 0 <= piece_cost p.
Proof. unfold piece_cost. destruct p as [| | a]; try lia. pose proof (expr_cost_pos a). lia. Qed.

Definition piece_fuel (p : piece) : nat := S match p with PExpr a => depth a | _ => 0 end.

Definition sum_fuel {X} (f : X -> nat) (l : list X) : nat := S (foldr (fun x n => (f x + n)%nat) 0%nat l).

Lemma sum_fuel_cons {X} (f : X -> nat) x l : sum_fuel f (x :: l) = (f x + sum_fuel f l)%nat.
Proof. unfold sum_fuel. cbn. lia. Qed.

Definition ends_string (t : token) : Prop := t <> STR /\ t <> VAR /\ t <> BEGIN_AR.

Lemma tokens_loop_end fuel acc : parses false (p_tokens_loop (S fuel) acc) [] 0 ends_string true (eq acc).
Proof.
  cbn [p_tokens_loop]. apply parses_peek_next; [done |]. intros t (H1 & H2 & H3). destruct t; try done; by apply parses_ret.
Qed.

Lemma tokens_loop_parses l : forall fuel acc,
  forallb piece_ok l = true -> (sum_fuel piece_fuel l <= fuel)%nat ->
  parses false (p_tokens_loop fuel acc) (pieces_items l) (sum_cost piece_cost l) ends_string true
    (fun ts => exists ts', ts = acc ++ ts' /\ Forall2 piece_is l ts').
Proof.
  induction l as [| p l IH]; intros fuel acc Hok Hf; (destruct fuel as [| fuel]; [unfold sum_fuel in Hf; lia |]).
  - eapply parses_mono; [apply tokens_loop_end | done | done |]. intros ts <-. exists []. by rewrite app_nil_r.
  - cbn in Hok. apply andb_true_iff in Hok as [Hp Hl].
    assert (Hgo : forall tk, piece_is p tk -> parses false (p_tokens_loop fuel (acc ++ [tk])) (pieces_items l) (sum_cost piece_cost l)
      ends_string true (fun ts => exists ts', ts = acc ++ ts' /\ Forall2 piece_is (p :: l) ts')).
    { intros tk Htk. eapply parses_mono; [apply IH; [done |] | done | done |].
      - rewrite sum_fuel_cons in Hf. unfold piece_fuel in Hf at 1. lia.
      - intros ts (ts' & -> & Hts). exists (tk :: ts'). rewrite <- app_assoc. split; [done | by constructor]. }
    assert (Htk : forall ty v ex, (forall tk, token_is ty v ex tk -> piece_is p tk) ->
      parses false (tk ← create_token ty v ex; p_tokens_loop fuel (acc ++ [tk])) (pieces_items l) (64 + sum_cost piece_cost l)
        ends_string true (fun ts => exists ts', ts = acc ++ ts' /\ Forall2 piece_is (p :: l) ts')).
    { intros ty v ex Hty. apply (parses_bind _ false _ _ _ [] (pieces_items l) 64 _ anything _ (token_is ty v ex)).
      - apply sum_cost_pos, piece_cost_pos.
      - apply parses_create_token.
      - intros rest H. by eapply next_any; right.
      - intros tk Ht. by apply Hgo, Hty. }
    assert (Hsum : 0 <= sum_cost piece_cost l) by apply sum_cost_pos, piece_cost_pos.
    change (pieces_items (p :: l)) with (piece_items p ++ pieces_items l).
    change (sum_cost piece_cost (p :: l)) with (piece_cost p + sum_cost piece_cost l).
    cbn [p_tokens_loop]. pose proof (piece_cost_pos p) as Hpp. destruct p as [s | x | a]; cbn [piece_items app].
    + apply parses_peek; [lia |]. apply parses_shift. intros v Hv. rewrite (Hv eq_refl). cbn [it_val str_item]. by apply Htk.
    + apply parses_peek; [lia |]. apply parses_shift. intros v Hv. rewrite (Hv eq_refl). cbn [it_val text_item]. by apply Htk.
    + pose proof (expr_cost_pos a). apply parses_peek; [lia |]. apply parses_shift. intros v _. rewrite <- app_assoc.
      change (piece_cost (PExpr a)) with (64 + expr_cost a).
      replace (64 + expr_cost a + sum_cost piece_cost l) with (expr_cost a + (0 + (64 + sum_cost piece_cost l))) by lia.
      eapply (parses_bind _ true); [lia | apply expr_parses; [done |] | intros rest _; by left |].
      { rewrite sum_fuel_cons in Hf. change (piece_fuel (PExpr a)) with (S (depth a)) in Hf. lia. }
      intros e <-. apply (parses_bind _ false _ _ _ [plain_item END_AR] (pieces_items l) _ _ anything _ (fun _ => True));
        [lia | apply (parses_expect _ (plain_item END_AR)) | intros rest Hr; by eapply next_any; right |].
      intros _ _. by apply Htk.
Qed.

Definition pieces_cost (l : list piece) : Z := 24 + sum_cost piece_cost l.

Definition pieces_ok (l : list piece) : bool := forallb piece_ok l.

Lemma pieces_cost_pos l : 0 <= pieces_cost l.
Proof. unfold pieces_cost. pose proof (sum_cost_pos piece_cost l piece_cost_pos). lia. Qed.

Lemma tokens_parses l fuel :
  pieces_ok l = true -> (sum_fuel piece_fuel l <= fuel)%nat ->
  parses false (p_tokens fuel) (pieces_items l) (pieces_cost l) ends_string true (Forall2 piece_is l).
Proof.
  intros Hok Hf. apply (parses_alloc false true sizeof_head); [done | apply sum_cost_pos, piece_cost_pos |].
  eapply parses_mono; [by apply tokens_loop_parses | done | done |]. by intros ts (ts' & -> & H).
Qed.

(** ** Lists *)

Definition sep_items {X} (f : X -> list item) (l : list X) : list item :=
  match l with
  | [] => []
  | x :: l => f x ++ concat ((fun y => char_item "," :: f y) <$> l)
  end.

Section lists.
Context {X A : Type} (f : X -> list item) (cost : X -> Z) (R : X -> A -> Prop) (p : P A) (close : token).
Hypothesis cost_pos : forall x, 0 <= cost x.
Hypothesis close_ok : close <> Char ",".

Abbreviation sep := (fun t => t = Char "," \/ t = close).

Lemma more_parses l : forall fuel acc,
  (length l < fuel)%nat -> (forall x, x ∈ l -> parses false p (f x) (cost x) sep false (R x)) ->
  parses false (p_more fuel p close acc) (concat ((fun y => char_item "," :: f y) <$> l)) (sum_cost cost l) (eq close) true
    (fun xs => exists xs', xs = acc ++ xs' /\ Forall2 R l xs').
Proof.
  induction l as [| x l IH]; intros fuel acc Hf Hp; (destruct fuel as [| fuel]; [cbn in Hf; lia |]); cbn [p_more].
  - apply (parses_bind _ true _ _ _ [] [] 0 0 (eq close) _ (eq close)); [done | | intros rest H; exact H |].
    + apply parses_follows. intros t <-. rewrite !elem_of_cons. auto.
    + intros t <-. rewrite decide_False by done. apply parses_ret. exists []. by rewrite app_nil_r.
  - assert (Hsum : 0 <= sum_cost cost l) by (by apply sum_cost_pos). pose proof (cost_pos x) as Hx.
    change (sum_cost cost (x :: l)) with (cost x + sum_cost cost l). rewrite fmap_cons. cbn [concat].
    change ((char_item "," :: f x) ++ ?l) with ([] ++ char_item "," :: f x ++ l). replace (cost x + _) with (0 + (cost x + sum_cost cost l)) by lia.
    apply (parses_bind _ true _ _ _ [] _ 0 _ (eq (Char ",")) _ (eq (Char ","))); [lia | | done |].
    + apply parses_follows. intros t <-. by left.
    + intros t <-. rewrite decide_True by done. apply parses_shift. intros v _.
      eapply (parses_bind _ false); [lia | apply Hp; by left | |].
      * intros rest H. destruct l as [| y l]; [| by left]. destruct rest; [done |]. right. by symmetry.
      * intros a Ha. eapply parses_mono; [apply IH; [cbn in Hf; lia | intros y Hy; apply Hp; by right] | done | done |].
        intros xs (xs' & -> & Hxs). exists (a :: xs'). rewrite <- app_assoc. split; [done | by constructor].
Qed.

Lemma list_parses l fuel :
  l <> [] -> (length l <= fuel)%nat -> (forall x, x ∈ l -> parses false p (f x) (cost x) sep false (R x)) ->
  parses false (p_list fuel p close) (sep_items f l) (sum_cost cost l + 24) (eq close) true (Forall2 R l).
Proof.
  intros Hl Hf Hp. destruct l as [| x l]; [done |]. unfold p_list. cbn [sep_items].
  change (sum_cost cost (x :: l)) with (cost x + sum_cost cost l).
  assert (Hsum : 0 <= sum_cost cost l) by (by apply sum_cost_pos).
  replace (cost x + sum_cost cost l + 24) with (cost x + (24 + sum_cost cost l)) by lia.
  eapply (parses_bind _ false); [lia | apply Hp; by left | |].
  - intros rest H. destruct l as [| y l]; [| by left]. destruct rest; [done |]. right. by symmetry.
  - intros a Ha. apply (parses_alloc false true sizeof_head); [done | done |].
    eapply parses_mono; [apply more_parses; [cbn in Hf; lia | intros y Hy; apply Hp; by right] | done | done |].
    intros xs (xs' & -> & Hxs). by constructor.
Qed.

End lists.

(** ** Parameters *)

Lemma sum_fuel_elem {X} (f : X -> nat) x l : x ∈ l -> (f x <= sum_fuel f l)%nat.
Proof. induction l as [| y l IH]; [by intros ?%elem_of_nil |]. rewrite sum_fuel_cons. intros [-> | H]%elem_of_cons; [lia |]. specialize (IH H). lia. Qed.

Lemma sum_fuel_length {X} (f : X -> nat) l : (forall x, 1 <= f x)%nat -> (length l <= sum_fuel f l)%nat.
Proof. intros Hf. induction l as [| y l IH]; [cbn; lia |]. rewrite sum_fuel_cons. specialize (Hf y). cbn. lia. Qed.

Definition pieces_fuel : list piece -> nat := sum_fuel piece_fuel.

Lemma pieces_fuel_pos l : (1 <= pieces_fuel l)%nat.
Proof. unfold pieces_fuel, sum_fuel. lia. Qed.

Lemma char_ends c : ends_string (Char c).
Proof. by split_and!. Qed.

Lemma sep_ends c t : t = Char "," \/ t = Char c -> ends_string t.
Proof. intros [-> | ->]; apply char_ends. Qed.

(** Each of the tokens that may follow. *)
Lemma parses_next {A} ld (p : P A) its c F ld' Q : (forall t, F t -> parses ld p its c (eq t) ld' Q) -> parses ld p its c F ld' Q.
Proof. intros H ps rest k o Hn. destruct rest as [| it rest]; [done |]. by apply (H (it_tok it) Hn ps (it :: rest) k o). Qed.

Lemma value_parses l fuel :
  pieces_ok l = true -> (pieces_fuel l <= fuel)%nat ->
  parses false (p_value fuel) (pieces_items l) (pieces_cost l + 48) (fun t => t = Char "," \/ t = Char ";") false
    (fun vl => Forall2 piece_is l (vl_tokens vl) /\ vl_args vl = []).
Proof.
  intros Hok Hf. apply (parses_forget _ _ _ _ _ false). unfold p_value. rewrite <- (app_nil_r (pieces_items l)).
  eapply (parses_bind _ true); [done | apply tokens_parses; [done | exact Hf] | |].
  - intros rest H. destruct rest; [done |]. by eapply sep_ends.
  - intros ts Hts. apply (parses_bind _ true _ _ _ [] [] 0 48 (fun t => t = Char "," \/ t = Char ";") _ (fun _ => True)); [done | | done |].
    + eapply parses_mono; [apply (parses_follows _ _ (fun t => t = Char "," \/ t = Char ";")) | done | done | done].
      intros t Ht. rewrite !elem_of_cons. tauto.
    + intros _ _. apply (parses_alloc true true sizeof_cfvalue [] _ 0); [done | done |]. by apply parses_ret.
Qed.

Lemma arg_parses l fuel :
  pieces_ok l = true -> (pieces_fuel l <= fuel)%nat ->
  parses false (p_arg fuel) (pieces_items l) (pieces_cost l + 32) (fun t => t = Char "," \/ t = Char ")") false
    (fun ag => Forall2 piece_is l (ag_tokens ag)).
Proof.
  intros Hok Hf. apply (parses_forget _ _ _ _ _ false). unfold p_arg. rewrite <- (app_nil_r (pieces_items l)).
  eapply (parses_bind _ true); [done | apply tokens_parses; [done | exact Hf] | |].
  - intros rest H. destruct rest; [done |]. by eapply sep_ends.
  - intros ts Hts. apply (parses_bind _ true _ _ _ [] [] 0 32 (fun t => t = Char "," \/ t = Char ")") _ (fun _ => True)); [done | | done |].
    + eapply parses_mono; [apply (parses_follows _ _ (fun t => t = Char "," \/ t = Char ")")) | done | done | done].
      intros t Ht. rewrite !elem_of_cons. tauto.
    + intros _ _. apply (parses_alloc true true sizeof_cfarg [] _ 0); [done | done |]. by apply parses_ret.
Qed.

(** A template with its arguments. *)
Record target := { ta_name : list piece; ta_args : list (list piece) }.

Definition target_items (ta : target) : list item :=
  pieces_items (ta_name ta) ++ match ta_args ta with [] => [] | args => in_parens (sep_items pieces_items args) end.

Definition target_ok (ta : target) : bool := pieces_ok (ta_name ta) && forallb pieces_ok (ta_args ta).

Definition target_fuel (ta : target) : nat := pieces_fuel (ta_name ta) + sum_fuel pieces_fuel (ta_args ta).

Definition arg_cost (l : list piece) : Z := pieces_cost l + 32.

Definition target_cost (ta : target) : Z := pieces_cost (ta_name ta) + (sum_cost arg_cost (ta_args ta) + 24 + 48).

Definition target_is (ta : target) (vl : cfvalue) : Prop :=
  Forall2 piece_is (ta_name ta) (vl_tokens vl) /\ Forall2 (fun l ag => Forall2 piece_is l (ag_tokens ag)) (ta_args ta) (vl_args vl).

Lemma arg_cost_pos l : 0 <= arg_cost l.
Proof. unfold arg_cost. pose proof (pieces_cost_pos l). lia. Qed.

Lemma args_parses args fuel :
  args <> [] -> forallb pieces_ok args = true -> (sum_fuel pieces_fuel args <= fuel)%nat ->
  parses false (p_list fuel (p_arg fuel) (Char ")")) (sep_items pieces_items args) (sum_cost arg_cost args + 24) (eq (Char ")")) true
    (Forall2 (fun l ag => Forall2 piece_is l (ag_tokens ag)) args).
Proof.
  intros Hne Hok Hf. apply (list_parses pieces_items arg_cost); [apply arg_cost_pos | done | done | |].
  - pose proof (sum_fuel_length pieces_fuel args pieces_fuel_pos). lia.
  - intros l Hl. apply arg_parses.
    + rewrite forallb_forall in Hok. by apply Hok, list_elem_of_In.
    + pose proof (sum_fuel_elem pieces_fuel l args Hl). lia.
Qed.

Lemma target_parses ta fuel :
  target_ok ta = true -> (target_fuel ta <= fuel)%nat ->
  parses false (p_target fuel) (target_items ta) (target_cost ta) (fun t => t = Char "," \/ t = Char ";") false (target_is ta).
Proof.
  intros [Ho Ha]%andb_true_iff Hf. unfold target_fuel, target_cost in *. destruct ta as [l args]; cbn [ta_name ta_args] in *.
  pose proof (sum_cost_pos arg_cost args arg_cost_pos) as Hs. unfold p_target, target_items. cbn [ta_name ta_args].
  destruct args as [| a args].
  - apply (parses_forget _ _ _ _ _ false), parses_next. intros t0 Ht0.
    eapply (parses_bind _ true); [lia | apply tokens_parses; [done | unfold pieces_fuel in Hf; lia] | |].
    { intros rest H. destruct rest; [done |]. cbn in H. subst t0. by eapply sep_ends. }
    intros ts Hts. apply (parses_bind _ true _ _ _ [] [] 0 72 (eq t0) _ (eq t0)); [done | | done |].
    { apply parses_follows. intros t <-. rewrite !elem_of_cons. tauto. }
    intros t <-. rewrite decide_False by (by destruct Ht0 as [-> | ->]).
    eapply (parses_mono true true _ [] 48 72 (eq t0) (eq t0) (target_is {| ta_name := l; ta_args := [] |})); [| done | done | done].
    apply (parses_alloc true true sizeof_cfvalue [] _ 0); [done | done | by apply parses_ret].
  - eapply (parses_bind _ true); [lia | apply tokens_parses; [done | unfold pieces_fuel in Hf; lia] | intros rest _; apply char_ends |]. intros ts Hts.
    replace (sum_cost arg_cost (a :: args) + 24 + 48) with (0 + (sum_cost arg_cost (a :: args) + 24 + 48)) by lia.
    apply (parses_bind _ true _ _ _ [] _ 0 _ (eq (Char "(")) _ (eq (Char "("))); [lia | | done |].
    { apply parses_follows. intros t <-. rewrite !elem_of_cons. tauto. }
    intros t <-. rewrite decide_True by done. apply parses_shift. intros v _.
    apply (parses_then false true false _ (char_item ")") _ _ _ 48 (eq (Char ")")) _
             (Forall2 (fun l ag => Forall2 piece_is l (ag_tokens ag)) (a :: args))); [done | done | |].
    + apply args_parses; [done | done | lia].
    + intros ags Hags. apply (parses_alloc false false sizeof_cfvalue [] _ 0); [done | done |]. by apply parses_ret.
Qed.

(** A parameter: a key with its values, or templates. *)
Inductive param :=
  | Assign (var : bool) (key : string) (append : bool) (vals : list (list piece))
  | Apply (targets : list target).

Definition key_item (var : bool) (key : string) : item := if var then text_item VAR key else str_item key.

Definition op_item (append : bool) : item := if append then plain_item PLEQ else char_item "=".

Definition apply_item : item := text_item APPLY ".apply".

Definition param_items (pr : param) : list item :=
  match pr with
  | Assign var key append vals => key_item var key :: op_item append :: sep_items pieces_items vals
  | Apply tas => apply_item :: sep_items target_items tas
  end.

Definition param_ok (pr : param) : bool :=
  match pr with
  | Assign _ _ _ vals => forallb pieces_ok vals && bool_decide (vals <> [])
  | Apply tas => forallb target_ok tas && bool_decide (tas <> [])
  end.

Definition param_fuel (pr : param) : nat :=
  match pr with
  | Assign _ _ _ vals => sum_fuel pieces_fuel vals
  | Apply tas => sum_fuel target_fuel tas
  end.

Definition value_cost (l : list piece) : Z := pieces_cost l + 48.

Definition param_cost (pr : param) : Z :=
  64 + (match pr with Assign _ _ _ vals => sum_cost value_cost vals | Apply tas => sum_cost target_cost tas end + 24 + 48).

Definition param_is (pr : param) (p : cfparam) : Prop :=
  match pr with
  | Assign var key append vals =>
      (exists tk, pr_key p = Some tk /\ token_is (if var then CF_VAR else CF_STR) (Some key) None tk) /\
      Forall2 (fun l vl => Forall2 piece_is l (vl_tokens vl) /\ vl_args vl = []) vals (pr_vals p) /\
      pr_operator p = if append then 1 else 0
  | Apply tas =>
      (exists tk, pr_key p = Some tk /\ token_is CF_STR (Some ".apply") None tk) /\
      Forall2 target_is tas (pr_vals p) /\ pr_operator p = 0
  end.

Lemma value_cost_pos l : 0 <= value_cost l.
Proof. unfold value_cost. pose proof (pieces_cost_pos l). lia. Qed.

Lemma target_cost_pos ta : 0 <= target_cost ta.
Proof. unfold target_cost. pose proof (pieces_cost_pos (ta_name ta)). pose proof (sum_cost_pos arg_cost (ta_args ta) arg_cost_pos). lia. Qed.

Lemma target_fuel_pos ta : (1 <= target_fuel ta)%nat.
Proof. unfold target_fuel. pose proof (pieces_fuel_pos (ta_name ta)). lia. Qed.

Lemma values_parses vals fuel :
  vals <> [] -> forallb pieces_ok vals = true -> (sum_fuel pieces_fuel vals <= fuel)%nat ->
  parses false (p_list fuel (p_value fuel) (Char ";")) (sep_items pieces_items vals) (sum_cost value_cost vals + 24) (eq (Char ";")) true
    (Forall2 (fun l vl => Forall2 piece_is l (vl_tokens vl) /\ vl_args vl = []) vals).
Proof.
  intros Hne Hok Hf. apply (list_parses pieces_items value_cost); [apply value_cost_pos | done | done | |].
  - pose proof (sum_fuel_length pieces_fuel vals pieces_fuel_pos). lia.
  - intros l Hl. apply value_parses.
    + rewrite forallb_forall in Hok. by apply Hok, list_elem_of_In.
    + pose proof (sum_fuel_elem pieces_fuel l vals Hl). lia.
Qed.

Lemma targets_parses tas fuel :
  tas <> [] -> forallb target_ok tas = true -> (sum_fuel target_fuel tas <= fuel)%nat ->
  parses false (p_list fuel (p_target fuel) (Char ";")) (sep_items target_items tas) (sum_cost target_cost tas + 24) (eq (Char ";")) true
    (Forall2 target_is tas).
Proof.
  intros Hne Hok Hf. apply (list_parses target_items target_cost); [apply target_cost_pos | done | done | |].
  - pose proof (sum_fuel_length target_fuel tas target_fuel_pos). lia.
  - intros ta Hta. apply target_parses.
    + rewrite forallb_forall in Hok. by apply Hok, list_elem_of_In.
    + pose proof (sum_fuel_elem target_fuel ta tas Hta). lia.
Qed.

(** The key of a parameter. *)
Lemma name_parses it ty s : valued (it_tok it) = true -> it_val it = Some s ->
  parses true (p_name ty) [it] 64 anything false (token_is ty (Some s) None).
Proof.
  intros Hv Hs. apply parses_shift. intros v Hval. rewrite (Hval Hv), Hs. apply parses_create_token.
Qed.

(** The values of a parameter and its allocation. *)
Lemma param_rest {X} (p : P (list cfvalue)) its c (R : list cfvalue -> Prop) (mk : list cfvalue -> X) (Q : X -> Prop) :
  0 <= c -> parses false p its c (eq (Char ";")) true R -> (forall vals, R vals -> Q (mk vals)) ->
  parses false (vals ← p; _ ← objalloc sizeof_cfparam; mret (mk vals)) its (c + 48) (eq (Char ";")) true Q.
Proof.
  intros Hc Hp HQ. rewrite <- (app_nil_r its). eapply (parses_bind _ true); [done | exact Hp | done |].
  intros vals Hv. apply (parses_alloc true true sizeof_cfparam [] _ 0); [done | done |]. apply parses_ret. by apply HQ.
Qed.

Lemma param_parses pr fuel :
  param_ok pr = true -> (param_fuel pr <= fuel)%nat ->
  parses false (p_param fuel) (param_items pr) (param_cost pr) (eq (Char ";")) true (param_is pr).
Proof.
  intros Hok Hf. destruct pr as [var key append vals | tas]; cbn [param_ok param_fuel param_items] in *;
    apply andb_true_iff in Hok as [Hok Hne%bool_decide_eq_true]; unfold param_cost.
  - pose proof (sum_cost_pos value_cost vals value_cost_pos) as Hc. apply parses_peek; [lia |].
    assert (Hkey : forall ty, ty = (if var then CF_VAR else CF_STR) -> parses true
      (key ← p_name ty; op ← follows [Char "="; PLEQ]; _ ← shift_token; vals ← p_list fuel (p_value fuel) (Char ";");
       _ ← objalloc sizeof_cfparam;
       mret {| pr_key := Some key; pr_vals := vals; pr_operator := if decide (op = PLEQ) then 1 else 0 |})
      (key_item var key :: op_item append :: sep_items pieces_items vals) (64 + (sum_cost value_cost vals + 24 + 48)) (eq (Char ";")) true
      (param_is (Assign var key append vals))).
    { intros ty ->. apply (parses_bind _ false _ _ _ [key_item var key] _ 64 _ anything _ (token_is (if var then CF_VAR else CF_STR) (Some key) None));
        [lia | apply name_parses; by destruct var | done |].
      intros tk Htk. replace (sum_cost value_cost vals + 24 + 48) with (0 + (sum_cost value_cost vals + 24 + 48)) by lia.
      apply (parses_bind _ true _ _ _ [] _ 0 _ (eq (it_tok (op_item append))) _ (eq (it_tok (op_item append)))); [lia | | done |].
      { apply parses_follows. intros t <-. destruct append; rewrite !elem_of_cons; auto. }
      intros t <-. apply parses_shift. intros v _. eapply param_rest; [lia | apply values_parses; [done | done | done] |].
      intros vs Hvs. split; [by exists tk | split; [exact Hvs |]]. by destruct append. }
    destruct var; by apply Hkey.
  - pose proof (sum_cost_pos target_cost tas target_cost_pos) as Hc. apply parses_peek; [lia |].
    apply (parses_bind _ false _ _ _ [apply_item] _ 64 _ anything _ (token_is CF_STR (Some ".apply") None));
      [lia | by apply name_parses | intros rest H; by eapply next_any; right |].
    intros tk Htk. eapply param_rest; [lia | apply targets_parses; [done | done | done] |].
    intros vs Hvs. split; [by exists tk | by split].
Qed.

(** ** Sections *)

Lemma parses_attempt {A} ld (p : P A) its c F ld' Q :
  parses ld p its c F ld' Q -> parses ld (attempt p) its c F ld' (fun r => exists a, r = Some a /\ Q a).
Proof.
  intros Hp ps rest k o Hn Hk Hr. destruct (Hp ps rest k o Hn Hk Hr) as (a & ps' & E & Ha & Hr' & K).
  exists (Some a), ps'. split; [unfold attempt, mbind, C_bind; by rewrite E |]. split; [by exists a | by split].
Qed.

Definition closed_items (pr : param) : list item := param_items pr ++ [char_item ";"].

Lemma param_head pr : exists it its, param_items pr = it :: its /\ it_tok it <> Char "}".
Proof. destruct pr as [[] key append vals | tas]; eexists _, _; split; done. Qed.

Lemma param_fuel_pos pr : (1 <= param_fuel pr)%nat.
Proof. destruct pr; cbn [param_fuel]; unfold sum_fuel; lia. Qed.

Lemma param_cost_pos pr : 0 <= param_cost pr.
Proof.
  unfold param_cost. destruct pr as [? ? ? vals | tas]; [pose proof (sum_cost_pos value_cost vals value_cost_pos) |
    pose proof (sum_cost_pos target_cost tas target_cost_pos)]; lia.
Qed.

Definition params_items (prs : list param) : list item := concat (closed_items <$> prs) ++ [char_item "}"].

Lemma params_loop_parses prs : forall fuel acc,
  forallb param_ok prs = true -> (sum_fuel param_fuel prs <= fuel)%nat ->
  parses false (p_params_loop fuel acc) (params_items prs) (sum_cost param_cost prs) anything false
    (fun xs => exists xs', xs = acc ++ xs' /\ Forall2 param_is prs xs').
Proof.
  induction prs as [| pr prs IH]; intros fuel acc Hok Hf; (destruct fuel as [| fuel]; [unfold sum_fuel in Hf; lia |]);
    cbn [p_params_loop].
  - apply parses_peek; [done |]. rewrite decide_True by done. apply parses_shift. intros v _. apply parses_ret. exists [].
    by rewrite app_nil_r.
  - cbn in Hok. apply andb_true_iff in Hok as [Hp Hl]. rewrite sum_fuel_cons in Hf. pose proof (param_fuel_pos pr) as Hpos.
    change (sum_cost param_cost (pr :: prs)) with (param_cost pr + sum_cost param_cost prs).
    assert (Hsum : 0 <= sum_cost param_cost prs) by apply sum_cost_pos, param_cost_pos. pose proof (param_cost_pos pr) as Hpc.
    unfold params_items. rewrite fmap_cons. cbn [concat]. rewrite <- app_assoc. fold (params_items prs).
    destruct (param_head pr) as (it & its & E & Hit). unfold closed_items at 1. rewrite E. cbn [app].
    apply parses_peek; [lia |]. rewrite decide_False by done. rewrite app_comm_cons, app_comm_cons, <- E. fold (closed_items pr).
    eapply (parses_bind _ false); [done | apply parses_loaded, parses_attempt | |].
    + rewrite <- (Z.add_0_r (param_cost pr)).
      apply (parses_then false true false _ (char_item ";") _ _ _ 0 (eq (Char ";")) anything (param_is pr)); [done | done | |].
      * apply param_parses; [done |]. assert (1 <= sum_fuel param_fuel prs)%nat by (unfold sum_fuel; lia). lia.
      * intros p Hpr. by apply parses_ret.
    + intros rest H. apply (next_any _ _ anything). left. unfold params_items. by destruct (concat _).
    + intros r (p & -> & Hpr). rewrite <- (Z.add_0_l (sum_cost param_cost prs)).
      apply (parses_bind _ false _ _ _ [] _ 0 _ anything _ (eq p)); [done | by apply parses_ret | |].
      { intros rest H. apply (next_any _ _ anything). left. unfold params_items. by destruct (concat _). }
      intros p' <-. eapply parses_mono; [apply IH; [done | lia] | done | done |].
      intros xs (xs' & -> & Hxs). exists (p :: xs'). rewrite <- app_assoc. split; [done | by constructor].
Qed.

Lemma params_parses prs fuel :
  forallb param_ok prs = true -> (sum_fuel param_fuel prs <= fuel)%nat ->
  parses false (p_params fuel) (params_items prs) (24 + sum_cost param_cost prs) anything false (Forall2 param_is prs).
Proof.
  intros Hok Hf. apply (parses_alloc false false sizeof_head); [done | apply sum_cost_pos, param_cost_pos |].
  eapply parses_mono; [by apply params_loop_parses | done | done |]. by intros ts (ts' & -> & H).
Qed.

(** The argument of a template with its default. *)
Record argdef := { ar_name : string; ar_default : option (list piece) }.

Definition argdef_items (ad : argdef) : list item :=
  str_item (ar_name ad) :: match ar_default ad with None => [] | Some l => char_item "=" :: pieces_items l end.

Definition argdef_ok (ad : argdef) : bool := match ar_default ad with None => true | Some l => pieces_ok l end.

Definition argdef_fuel (ad : argdef) : nat := match ar_default ad with None => 1 | Some l => pieces_fuel l end.

Definition argdef_cost (ad : argdef) : Z := match ar_default ad with None => 0 | Some l => pieces_cost l end + 40.

Definition argdef_is (ad : argdef) (d : cfargdef) : Prop :=
  ad_name d = Some (ar_name ad) /\ Forall2 piece_is (default [] (ar_default ad)) (ad_tokens d).

Lemma argdef_parses ad fuel :
  argdef_ok ad = true -> (argdef_fuel ad <= fuel)%nat ->
  parses false (p_argdef fuel) (argdef_items ad) (argdef_cost ad) (fun t => t = Char "," \/ t = Char ")") false (argdef_is ad).
Proof.
  intros Hok Hf. destruct ad as [name [l |]]; unfold argdef_ok, argdef_fuel, argdef_cost, argdef_items, argdef_is in *; cbn [ar_name ar_default default] in *;
    apply (parses_forget _ _ _ _ _ false); unfold p_argdef; [pose proof (pieces_cost_pos l) as Hl |]; (apply parses_peek; [lia |]);
    rewrite decide_True by done; apply parses_shift; intros v Hv; rewrite (Hv eq_refl); cbn [it_val str_item].
  - replace (pieces_cost l + 40) with (0 + (pieces_cost l + (0 + 40))) by lia.
    apply (parses_bind _ true _ _ _ [] _ 0 _ (eq (Char "=")) _ (eq (Char "="))); [lia | | done |].
    { apply parses_follows. intros t <-. rewrite !elem_of_cons. auto. }
    intros t <-. rewrite decide_True by done. apply parses_shift. intros v' _. rewrite <- (app_nil_r (pieces_items l)).
    eapply (parses_bind _ true); [done | by apply tokens_parses | |].
    { intros rest H. destruct rest; [done |]. by eapply sep_ends. }
    intros ts Hts. apply (parses_bind _ true _ _ _ [] [] 0 40 (fun t => t = Char "," \/ t = Char ")") _ (fun _ => True)); [done | | done |].
    + eapply parses_mono; [apply (parses_follows _ _ (fun t => t = Char "," \/ t = Char ")")) | done | done | done].
      intros t Ht. rewrite !elem_of_cons. tauto.
    + intros _ _. apply (parses_alloc true true sizeof_cfargdef [] _ 0); [done | done |]. by apply parses_ret.
  - apply parses_next. intros t0 Ht0. apply (parses_bind _ true _ _ _ [] [] 0 40 (eq t0) _ (eq t0)); [done | | done |].
    { apply parses_follows. intros t <-. rewrite !elem_of_cons. tauto. }
    intros t <-. rewrite decide_False by (by destruct Ht0 as [-> | ->]).
    apply (parses_alloc true true sizeof_cfargdef [] _ 0); [done | done |]. apply parses_ret. split; [done | constructor].
Qed.

Lemma argdef_cost_pos ad : 0 <= argdef_cost ad.
Proof. unfold argdef_cost. destruct (ar_default ad) as [l |]; [pose proof (pieces_cost_pos l) |]; lia. Qed.

Lemma argdef_fuel_pos ad : (1 <= argdef_fuel ad)%nat.
Proof. unfold argdef_fuel. destruct (ar_default ad); [apply pieces_fuel_pos | lia]. Qed.

Lemma argdefs_parses ads fuel :
  ads <> [] -> forallb argdef_ok ads = true -> (sum_fuel argdef_fuel ads <= fuel)%nat ->
  parses false (p_list fuel (p_argdef fuel) (Char ")")) (sep_items argdef_items ads) (sum_cost argdef_cost ads + 24) (eq (Char ")")) true
    (Forall2 argdef_is ads).
Proof.
  intros Hne Hok Hf. apply (list_parses argdef_items argdef_cost); [apply argdef_cost_pos | done | done | |].
  - pose proof (sum_fuel_length argdef_fuel ads argdef_fuel_pos). lia.
  - intros ad Had. apply argdef_parses.
    + rewrite forallb_forall in Hok. by apply Hok, list_elem_of_In.
    + pose proof (sum_fuel_elem argdef_fuel ad ads Had). lia.
Qed.

(** *** Functions that add to the context *)

Section whole.
Context (fs : fsys).

(** Like [parses], for a function that changes a context of [Pre] as [Post] says. *)
Definition adds (ld : bool) (p : P unit) (its : list item) (c : Z) (Pre : parser_context -> Prop)
    (Post : parser_context -> parser_context -> Prop) : Prop :=
  forall ps rest k o, next_in anything rest -> 0 <= k -> Pre (ps_ctx ps) -> ready ld ps (its ++ rest) (c + k) ->
  exists ps', p ps o = Done (Ok tt, ps') o /\ ready false ps' rest k /\ Post (ps_ctx ps) (ps_ctx ps') /\ ps_gv ps' = ps_gv ps /\
    lx_nerrs (ps_lx ps') = lx_nerrs (ps_lx ps).

Lemma adds_bind {A} ld ld1 (p : P A) (f : A -> P unit) its1 its2 c1 c2 (F1 : token -> Prop) Q1 Pre Post :
  0 <= c2 -> parses ld p its1 c1 F1 ld1 Q1 -> (forall rest, next_in anything rest -> next_in F1 (its2 ++ rest)) ->
  (forall a, Q1 a -> adds ld1 (f a) its2 c2 Pre Post) -> adds ld (p ≫= f) (its1 ++ its2) (c1 + c2) Pre Post.
Proof.
  intros Hc Hp HF Hf ps rest k o Hn Hk Hpre Hr. rewrite <- app_assoc, <- Z.add_assoc in Hr.
  destruct (Hp ps (its2 ++ rest) (c2 + k) o (HF rest Hn) ltac:(lia) Hr) as (a & ps1 & E1 & Ha & Hr1 & (K1 & K2 & K3)).
  rewrite <- K1 in Hpre. destruct (Hf a Ha ps1 rest k o Hn Hk Hpre Hr1) as (ps2 & E2 & Hr2 & Hp2 & Hg & He).
  exists ps2. rewrite K1 in Hp2. split_and!; try done; [| congruence | congruence].
  unfold mbind, P_bind, mbind, C_bind. rewrite E1. exact E2.
Qed.

Lemma adds_shift it its (f : option string -> P unit) c Pre Post :
  (forall v, (valued (it_tok it) = true -> v = it_val it) -> adds false (f v) its c Pre Post) ->
  adds true (shift_token ≫= f) (it :: its) c Pre Post.
Proof.
  intros Hf ps rest k o Hn Hk Hpre (H1 & H2 & [[? _] | (it' & its' & E & Hc & Hv & Hfd & Hp)]); [done |]. injection E as <- <-.
  set (ps1 := ps <| ps_char := None |> <| ps_errflag := 0 |>).
  destruct (Hf (lx_lval (ps_lx ps)) Hv ps1 rest k o Hn Hk Hpre) as (ps2 & E2 & Hr2 & Hrest).
  - split; [done | split; [done |]]. left. by split_and!.
  - exists ps2. split; [| by split]. unfold shift_token, mbind, P_bind, mbind, C_bind. rewrite H1. exact E2.
Qed.

(** A section of the files. *)
Inductive sect :=
  | SGlobal (prs : list param)
  | STemplate (name : string) (ads : list argdef) (prs : list param)
  | SVm (name : string) (prs : list param).

Definition sect_kind (s : sect) : SECTION :=
  match s with SGlobal _ => SECTION_GLOBAL | STemplate _ _ _ => SECTION_TEMPLATE | SVm _ _ => SECTION_VM end.

Definition sect_name (s : sect) : option string := match s with SGlobal _ => None | STemplate n _ _ | SVm n _ => Some n end.

Definition sect_params (s : sect) : list param := match s with SGlobal prs | STemplate _ _ prs | SVm _ prs => prs end.

Definition sect_args (s : sect) : list argdef := match s with STemplate _ ads _ => ads | _ => [] end.

Definition file_owner : Z := match stat fs (f_name file) with None => UID_NOBODY | Some s => st_uid s end.

Record section_is (s : sect) (v : cfsection) : Prop := {
  si_name : sc_name v = sect_name s;
  si_params : Forall2 param_is (sect_params s) (sc_params v);
  si_args : Forall2 argdef_is (sect_args s) (sc_argdefs v);
  si_owner : sc_owner v = file_owner;
  si_file : sc_filename v = f_name file;
  si_flags : sc_applied v = 0 /\ sc_duplicate v = 0;
}.

(** The context has no section of that name. *)
Definition new_name (sec : SECTION) (name : option string) (ctx : parser_context) : Prop :=
  forall n, name = Some n -> sec <> SECTION_GLOBAL -> Forall (fun v => exists m, sc_name v = Some m /\ m <> n) (sections ctx sec).

Definition appended (s : sect) (ctx ctx' : parser_context) : Prop :=
  exists v, section_is s v /\ ctx' = with_sections ctx (sect_kind s) (sections ctx (sect_kind s) ++ [v]).

Lemma mark_none name l o : Forall (fun v => exists m, sc_name v = Some m /\ m <> name) l -> mark_duplicate name l o = Done l o.
Proof.
  induction 1 as [| v l (m & Hm & Hne) _ IH]; [done |]. cbn. unfold mbind, C_bind. rewrite Hm. cbn.
  destruct (Z.eqb_spec (strcmp m name) 0) as [E%strcmp_eq0 |]; [done |]. by rewrite IH.
Qed.

Lemma set_last_app f l v : set_last f (l ++ [v]) = l ++ [f v].
Proof. induction l as [| x l IH]; [done |]. cbn. rewrite IH. by destruct l. Qed.

Lemma sections_with ctx sec l : sections (with_sections ctx sec l) sec = l.
Proof. by destruct sec. Qed.

Lemma with_with ctx sec l l' : with_sections (with_sections ctx sec l) sec l' = with_sections ctx sec l'.
Proof. by destruct sec. Qed.

Lemma with_same ctx sec : with_sections ctx sec (sections ctx sec) = ctx.
Proof. by destruct ctx, sec. Qed.

Lemma with_cur ctx sec l : cur_file (with_sections ctx sec l) = cur_file ctx.
Proof. by destruct sec. Qed.

Lemma new_section_adds ld s ads prs :
  Forall2 argdef_is (sect_args s) ads -> Forall2 param_is (sect_params s) prs ->
  adds ld (new_section fs (sect_kind s) (sect_name s) ads prs) [] (sizeof_cfsection + 8) (new_name (sect_kind s) (sect_name s)) (appended s).
Proof.
  intros Ha Hp ps rest k o Hn Hk Hpre Hr.
  destruct (parses_objalloc ld sizeof_cfsection anything ltac:(done) ps rest k o Hn Hk Hr) as ([] & ps1 & E & _ & Hr1 & _).
  unfold objalloc, mbind, C_bind in E. destruct (mpool_alloc (ps_st ps) sizeof_cfsection o) as [[[p |] st] o1 | f] eqn:Ep; try done.
  injection E as <- ->. destruct Hr1 as (H1 & Hcur & H3). cbn in Hcur.
  assert (Hm : (match sect_name s, sect_kind s with
                | None, _ => mret (sections (ps_ctx ps) (sect_kind s))
                | _, SECTION_GLOBAL => mret (sections (ps_ctx ps) (sect_kind s))
                | Some n, _ => mark_duplicate n (sections (ps_ctx ps) (sect_kind s))
                end) o = Done (sections (ps_ctx ps) (sect_kind s)) o).
  { destruct s as [prs0 | n ads0 prs0 | n prs0]; cbn [sect_name sect_kind]; [done | |]; apply mark_none; by apply (Hpre n). }
  set (ctx := with_sections (ps_ctx ps) (sect_kind s) (sections (ps_ctx ps) (sect_kind s) ++ [{|
    sc_name := sect_name s; sc_params := prs; sc_argdefs := ads; sc_applied := 0; sc_duplicate := 0; sc_owner := file_owner;
    sc_filename := f_name file |}])).
  exists (ps <| ps_st := st |> <| ps_ctx := ctx |>). split; [| split; [| split; [| done]]].
  - unfold new_section, add_section, mbind, C_bind. rewrite Hm, with_same, Ep. unfold peek_fileowner, peek_filename, mbind, C_bind.
    rewrite Hcur. cbn. rewrite sections_with, with_with, set_last_app. reflexivity.
  - split; [done | split; [by unfold ctx; cbn; rewrite with_cur |]].
    destruct H3 as [(? & ? & ? & ?) | (it & its & ? & ? & ? & ? & ?)].
    + left. by split_and!.
    + right. exists it, its. by split_and!.
  - eexists. split; [| reflexivity]. by split.
Qed.

(** *** The three kinds of sections *)

Definition args_items (ads : list argdef) : list item := match ads with [] => [] | _ => in_parens (sep_items argdef_items ads) end.

Definition sect_items (s : sect) : list item :=
  match s with
  | SGlobal prs => plain_item GLOBAL :: char_item "{" :: params_items prs
  | STemplate n ads prs => plain_item TEMPLATE :: str_item n :: args_items ads ++ char_item "{" :: params_items prs
  | SVm n prs => plain_item VM :: str_item n :: char_item "{" :: params_items prs
  end.

Definition assigns_variable (pr : param) : bool := match pr with Assign var _ _ _ => var | Apply _ => false end.

(** The variables of a global section are assigned at once; they are left out here. *)
Definition sect_ok (s : sect) : bool :=
  forallb param_ok (sect_params s) && forallb argdef_ok (sect_args s) &&
  match s with SGlobal prs => negb (existsb assigns_variable prs) | _ => true end.

Definition sect_fuel (s : sect) : nat := sum_fuel param_fuel (sect_params s) + sum_fuel argdef_fuel (sect_args s).

Definition sect_cost (s : sect) : Z :=
  sum_cost argdef_cost (sect_args s) + 24 + (24 + sum_cost param_cost (sect_params s) + 80).

Lemma sect_cost_pos s : 0 <= sect_cost s.
Proof.
  unfold sect_cost. pose proof (sum_cost_pos argdef_cost (sect_args s) argdef_cost_pos).
  pose proof (sum_cost_pos param_cost (sect_params s) param_cost_pos). lia.
Qed.

Lemma adds_mono ld p its c c' Pre Post : adds ld p its c Pre Post -> c <= c' -> adds ld p its c' Pre Post.
Proof. intros Hp Hc ps rest k o Hn Hk Hpre Hr. apply (Hp ps rest k o Hn Hk Hpre). eapply ready_less; [| done]. lia. Qed.

Lemma section_name_parses it n : parses true p_section_name [it; str_item n] 0 anything false (eq (Some n)).
Proof.
  apply parses_shift. intros v _. apply parses_peek; [done |]. rewrite decide_True by done.
  intros ps rest k o Hn Hk (H1 & H2 & [[? _] | (it' & its' & E & Hc & Hv & Hfd & Hp)]); [done |]. injection E as <- <-.
  exists (Some n), (ps <| ps_char := None |> <| ps_errflag := 0 |>). split; [| split; [done | split; [| by split_and!]]].
  - unfold shift_token. rewrite H1, (Hv eq_refl). reflexivity.
  - split; [done | split; [done |]]. left. by split_and!.
Qed.

(** A brace, the parameters and what is made of them. *)
Lemma body_adds fuel (prs : list param) (f : list cfparam -> P unit) c Pre Post :
  forallb param_ok prs = true -> (sum_fuel param_fuel prs <= fuel)%nat -> 0 <= c ->
  (forall xs, Forall2 param_is prs xs -> adds false (f xs) [] c Pre Post) ->
  adds false (_ ← expect (Char "{"); prs ← p_params fuel; f prs) (char_item "{" :: params_items prs)
    (24 + sum_cost param_cost prs + c) Pre Post.
Proof.
  intros Hok Hf Hc Hx. pose proof (sum_cost_pos param_cost prs param_cost_pos) as Hs.
  change (char_item "{" :: params_items prs) with ([char_item "{"] ++ params_items prs).
  rewrite <- (Z.add_0_l (24 + sum_cost param_cost prs + c)).
  eapply (adds_bind _ false); [lia | apply (parses_expect _ (char_item "{")) | intros rest H; apply (next_any _ _ anything); by right |].
  intros _ _. rewrite <- (app_nil_r (params_items prs)).
  eapply (adds_bind _ false); [lia | by apply params_parses | intros rest H; by destruct rest |]. exact Hx.
Qed.

Lemma vm_adds n prs fuel :
  let s := SVm n prs in
  sect_ok s = true -> (sect_fuel s <= fuel)%nat ->
  adds true (p_vm fs fuel) (sect_items s) (sect_cost s) (new_name SECTION_VM (Some n)) (appended s).
Proof.
  intros s [[Hok _]%andb_true_iff _]%andb_true_iff Hf. unfold sect_fuel in Hf. cbn [s sect_params sect_args] in *.
  eapply (adds_mono _ _ _ (0 + (24 + sum_cost param_cost prs + 80))); [| change (sect_cost s) with (0 + 24 + (24 + sum_cost param_cost prs + 80)); lia].
  change (sect_items s) with ([plain_item VM; str_item n] ++ char_item "{" :: params_items prs).
  pose proof (sum_cost_pos param_cost prs param_cost_pos). eapply (adds_bind _ false); [lia | apply section_name_parses | done |].
  intros name <-. apply body_adds; [done | lia | done |]. intros xs Hxs. by apply (new_section_adds false s).
Qed.

Lemma tmpl_adds n ads prs fuel :
  let s := STemplate n ads prs in
  sect_ok s = true -> (sect_fuel s <= fuel)%nat ->
  adds true (p_tmpl fs fuel) (sect_items s) (sect_cost s) (new_name SECTION_TEMPLATE (Some n)) (appended s).
Proof.
  intros s [[Hok Hao]%andb_true_iff _]%andb_true_iff Hf. unfold sect_fuel in Hf. cbn [s sect_params sect_args] in *.
  pose proof (sum_cost_pos param_cost prs param_cost_pos) as Hp. pose proof (sum_cost_pos argdef_cost ads argdef_cost_pos) as Ha.
  set (b := 24 + sum_cost param_cost prs + 80). set (t0 := match ads with [] => Char "{" | _ => Char "(" end).
  change (sect_items s) with ([plain_item TEMPLATE; str_item n] ++ args_items ads ++ char_item "{" :: params_items prs).
  change (sect_cost s) with (sum_cost argdef_cost ads + 24 + b).
  replace (sum_cost argdef_cost ads + 24 + b) with (0 + (0 + (sum_cost argdef_cost ads + 24 + b))) by lia.
  eapply (adds_bind _ false); [lia | apply section_name_parses | |]; [intros rest _; by destruct ads |].
  intros name <-.
  apply (adds_bind _ true _ _ [] _ 0 _ (eq t0) (eq t0)); [lia | apply parses_follows; intros t <-; rewrite !elem_of_cons; by destruct ads; auto | |].
  { intros rest _. by destruct ads. }
  intros t <-.
  apply (adds_bind true false _ _ (args_items ads) _ _ _ anything (Forall2 argdef_is ads)); [lia | | done |].
  - destruct ads as [| a ads]; cbn [t0].
    + rewrite decide_False by done. apply (parses_mono true false _ [] 0 _ anything anything (Forall2 argdef_is []));
        [| change (sum_cost argdef_cost []) with 0; lia | done | done].
      apply (parses_forget _ _ _ _ _ false). by apply parses_ret.
    + rewrite decide_True by done. apply parses_shift. intros v _. rewrite <- (Z.add_0_r (_ + 24)).
      apply (parses_then false true false _ (char_item ")") _ _ _ 0 (eq (Char ")")) anything (Forall2 argdef_is (a :: ads)));
        [done | done | |].
      * apply argdefs_parses; [done | done | lia].
      * intros xs Hxs. by apply parses_ret.
  - intros xs Hxs. apply body_adds; [done | lia | done |]. intros ys Hys. by apply (new_section_adds false s).
Qed.

(** Nothing is assigned when no key is a variable. *)
Lemma global_vars_kept prs : forall gv sc o,
  existsb assigns_variable prs = false -> Forall2 param_is prs (sc_params sc) -> apply_global_vars gv sc o = Done (0, gv) o.
Proof.
  intros gv sc o Hv Hp. unfold apply_global_vars, mbind at 1, C_bind at 1.
  enough (E : forall vars, foreach (fun vars pr => key ← deref (pr_key pr);
             match t_type key with CF_VAR => assign_var vars (t_s key) (pr_vals pr) | _ => mret vars end) (sc_params sc) vars o = Done vars o)
    by (rewrite E; reflexivity).
  induction Hp as [| pr p prs ps Hpr _ IH]; intros vars; [done |]. cbn in Hv. apply orb_false_iff in Hv as [Hv1 Hv2].
  assert (Hk : exists tk, pr_key p = Some tk /\ t_type tk = CF_STR).
  { destruct pr as [var key append vals | tas].
    - cbn in Hv1. subst var. destruct Hpr as [(tk & Hk & Ht & _) _]. by exists tk.
    - destruct Hpr as [(tk & Hk & Ht & _) _]. by exists tk. }
  destruct Hk as (tk & Hk & Ht). cbn [foreach]. unfold mbind, C_bind in *. rewrite Hk. cbn. rewrite Ht. cbn. by apply IH.
Qed.

Lemma global_adds prs fuel :
  let s := SGlobal prs in
  sect_ok s = true -> (sect_fuel s <= fuel)%nat ->
  adds true (p_global fs fuel) (sect_items s) (sect_cost s) (new_name SECTION_GLOBAL None) (appended s).
Proof.
  intros s [[Hok _]%andb_true_iff Hv%negb_true_iff]%andb_true_iff Hf. unfold sect_fuel in Hf. cbn [s sect_params sect_args] in *.
  eapply (adds_mono _ _ _ (24 + sum_cost param_cost prs + 80)); [| change (sect_cost s) with (0 + 24 + (24 + sum_cost param_cost prs + 80)); lia].
  apply (adds_shift (plain_item GLOBAL)). intros v _. apply body_adds; [done | lia | done |]. intros xs Hxs ps rest k o Hn Hk Hpre Hr.
  destruct (new_section_adds false s [] xs ltac:(constructor) Hxs ps rest k o Hn Hk Hpre Hr) as (ps' & E & Hr' & (w & Hw & Hctx) & Hg & He).
  exists ps'. split; [| split; [done | split; [by exists w | done]]]. unfold mbind, P_bind, mbind, C_bind.
  cbn [s sect_kind sect_name] in E. rewrite E. unfold run_apply_global_vars, mbind, C_bind. rewrite Hctx. cbn [with_sections cfglobals sect_kind s].
  change (cfglobals (ps_ctx ps <| cfglobals := ?l |>)) with l. rewrite last_snoc. cbn [deref]. unfold mret at 1, C_ret at 1.
  rewrite (global_vars_kept prs); [| done | apply (si_params s w Hw)]. cbn. by destruct ps'.
Qed.

(** ** The whole file *)

Inductive built : list sect -> parser_context -> parser_context -> Prop :=
  | built_nil ctx : built [] ctx ctx
  | built_cons s l ctx ctx1 ctx2 : appended s ctx ctx1 -> built l ctx1 ctx2 -> built (s :: l) ctx ctx2.

#[export] Instance SECTION_eq_dec : EqDecision SECTION.
Proof. solve_decision. Defined.

Definition of_kind (sec : SECTION) (l : list sect) : list sect := filter (fun s => sect_kind s = sec) l.

(** Templates and VMs have names of their own, which the context does not have. *)
Definition names_new (l : list sect) (ctx : parser_context) : Prop :=
  forall sec, sec <> SECTION_GLOBAL ->
  Forall (fun v => is_Some (sc_name v)) (sections ctx sec) /\ NoDup ((sc_name <$> sections ctx sec) ++ (sect_name <$> of_kind sec l)).

Lemma sections_other ctx sec sec' l : sec <> sec' -> sections (with_sections ctx sec l) sec' = sections ctx sec'.
Proof. by destruct sec, sec'. Qed.

Lemma names_new_head s l ctx : names_new (s :: l) ctx -> new_name (sect_kind s) (sect_name s) ctx.
Proof.
  intros H n Hn Hs. destruct (H (sect_kind s) Hs) as [Hsome Hnd]. unfold of_kind in Hnd. rewrite filter_cons_True in Hnd by done.
  rewrite fmap_cons in Hnd. apply NoDup_app in Hnd as (_ & Hd & _). rewrite Forall_forall in Hsome |- *. intros v Hv.
  destruct (Hsome v Hv) as [m Hm]. exists m. split; [done |]. intros ->. apply (Hd (sc_name v)); [by apply list_elem_of_fmap_2 |].
  rewrite Hm, Hn. by left.
Qed.

Lemma names_new_tail s l ctx ctx' : appended s ctx ctx' -> names_new (s :: l) ctx -> names_new l ctx'.
Proof.
  intros (v & Hv & ->) H sec Hsec. destruct (H sec Hsec) as [Hsome Hnd]. unfold of_kind in *.
  destruct (decide (sect_kind s = sec)) as [<- | Hne].
  - rewrite sections_with. rewrite filter_cons_True, fmap_cons in Hnd by done. split.
    + apply Forall_app. split; [done |]. apply Forall_singleton. rewrite (si_name s v Hv). by destruct s.
    + rewrite fmap_app, <- app_assoc. cbn. by rewrite (si_name s v Hv).
  - rewrite sections_other by done. rewrite filter_cons_False in Hnd by done. done.
Qed.

Lemma built_sections l ctx ctx' : built l ctx ctx' ->
  cffiles ctx' = cffiles ctx /\
  forall sec, exists vs, sections ctx' sec = sections ctx sec ++ vs /\ Forall2 section_is (of_kind sec l) vs.
Proof.
  induction 1 as [ctx | s l ctx ctx1 ctx2 (v & Hv & ->) _ [IHf IH]].
  - split; [done |]. intros sec. exists []. by rewrite app_nil_r.
  - split; [rewrite IHf; by destruct s |]. intros sec. destruct (IH sec) as (vs & E & Hvs). unfold of_kind in *.
    destruct (decide (sect_kind s = sec)) as [<- | Hne].
    + exists (v :: vs). rewrite filter_cons_True by done. split; [| by constructor]. rewrite E, sections_with, <- app_assoc. done.
    + exists vs. rewrite filter_cons_False by done. split; [| done]. by rewrite E, sections_other.
Qed.

Definition conf_items (l : list sect) : list item := concat (sect_items <$> l) ++ [plain_item YYEOF].

(** A section is read by its own function, before the others. *)
Lemma conf_step s fuel :
  sect_ok s = true -> (sect_fuel s <= fuel)%nat ->
  exists it its p, sect_items s = it :: its /\
    (forall ps0 ps1 o, peek ps0 o = Done (Ok (it_tok it), ps1) o -> p_conf fs (S fuel) ps0 o = (_ ← p; p_conf fs fuel) ps1 o) /\
    adds true p (sect_items s) (sect_cost s) (new_name (sect_kind s) (sect_name s)) (appended s).
Proof.
  intros Hok Hf.
  assert (Hst : forall ps0 ps1 o0 t p, peek ps0 o0 = Done (Ok t, ps1) o0 ->
    (t = GLOBAL /\ p = p_global fs fuel \/ t = TEMPLATE /\ p = p_tmpl fs fuel \/ t = VM /\ p = p_vm fs fuel) ->
    p_conf fs (S fuel) ps0 o0 = (_ ← p; p_conf fs fuel) ps1 o0).
  { intros ps0 ps1 o0 t p E Ht. cbn [p_conf]. unfold mbind at 1, P_bind at 1, mbind at 1, C_bind at 1. rewrite E.
    by destruct Ht as [[-> ->] | [[-> ->] | [-> ->]]]. }
  destruct s as [prs | n ads prs | n prs].
  - eexists _, _, (p_global fs fuel). split; [done | split; [intros; eapply Hst; [done | by left] | by apply global_adds]].
  - eexists _, _, (p_tmpl fs fuel). split; [done | split; [intros; eapply Hst; [done | by right; left] | by apply tmpl_adds]].
  - eexists _, _, (p_vm fs fuel). split; [done | split; [intros; eapply Hst; [done | by right; right] | by apply vm_adds]].
Qed.

Lemma conf_accepts l : forall fuel ps k o,
  forallb sect_ok l = true -> (sum_fuel sect_fuel l <= fuel)%nat -> names_new l (ps_ctx ps) -> 0 <= k ->
  ready false ps (conf_items l) (sum_cost sect_cost l + k) ->
  exists ps', p_conf fs fuel ps o = Done (Ok tt, ps') o /\ built l (ps_ctx ps) (ps_ctx ps') /\ lx_nerrs (ps_lx ps') = lx_nerrs (ps_lx ps) /\
    plenty (ps_st ps') k.
Proof.
  induction l as [| s l IH]; intros fuel ps k o Hok Hf Hnew Hk Hr; (destruct fuel as [| fuel]; [unfold sum_fuel in Hf; lia |]).
  - destruct (ready_peek false ps (plain_item YYEOF) [] (0 + k) o ltac:(lia) Hr) as (ps1 & E & Hr1 & (K1 & _ & K3)).
    exists ps1. split; [cbn [p_conf]; unfold mbind, P_bind, mbind, C_bind; rewrite E; reflexivity |].
    split; [rewrite K1; constructor | split; [done |]]. destruct Hr1 as (_ & _ & [[? _] | (it & its & Ei & _ & _ & _ & Hp)]); [done |].
    injection Ei as <- <-. exact Hp.
  - cbn in Hok. apply andb_true_iff in Hok as [Hs Hl]. rewrite sum_fuel_cons in Hf.
    assert (Hsf : (2 <= sect_fuel s)%nat) by (unfold sect_fuel, sum_fuel; lia).
    assert (Hlf : (1 <= sum_fuel sect_fuel l)%nat) by (unfold sum_fuel; lia).
    pose proof (sum_cost_pos sect_cost l sect_cost_pos) as Hcl. pose proof (sect_cost_pos s) as Hcs.
    change (sum_cost sect_cost (s :: l)) with (sect_cost s + sum_cost sect_cost l) in Hr. rewrite <- Z.add_assoc in Hr.
    unfold conf_items in Hr. rewrite fmap_cons in Hr. cbn [concat] in Hr. rewrite <- app_assoc in Hr. fold (conf_items l) in Hr.
    destruct (conf_step s fuel Hs ltac:(lia)) as (it & its & p & Ei & Hstep & Hadd).
    assert (Hr0 : ready false ps (it :: its ++ conf_items l) (sect_cost s + (sum_cost sect_cost l + k))) by (by rewrite Ei in Hr).
    destruct (ready_peek false ps it (its ++ conf_items l) (sect_cost s + (sum_cost sect_cost l + k)) o ltac:(lia) Hr0) as (ps1 & E & Hr1 & (K1 & K2 & K3)).
    rewrite (Hstep ps ps1 o E). rewrite app_comm_cons, <- Ei in Hr1.
    assert (Hnx : next_in anything (conf_items l)) by (unfold conf_items; by destruct (concat _)).
    assert (Hnm : new_name (sect_kind s) (sect_name s) (ps_ctx ps1)) by (rewrite K1; by eapply names_new_head).
    destruct (Hadd ps1 (conf_items l) (sum_cost sect_cost l + k) o Hnx ltac:(lia) Hnm Hr1) as (ps2 & E2 & Hr2 & Hap & Hg & He).
    rewrite K1 in Hap. destruct (IH fuel ps2 k o Hl ltac:(lia) (names_new_tail _ _ _ _ Hap Hnew) Hk Hr2) as (ps3 & E3 & Hb & He3 & Hp3).
    exists ps3. split; [unfold mbind, P_bind, mbind, C_bind; rewrite E2; exact E3 |]. split; [by eapply built_cons | split; [congruence | done]].
Qed.
End whole. End accept.

(** An empty pool. *)
Definition sample_pool : pools :=
  {| mpools := [{| m_addr := 65536; m_end := 65536 + DEFAULT_MMAP_SIZE; m_used := 65536 + sizeof_mpool; m_last_used := 65536 + sizeof_mpool;
                   m_error := MPERR_NONE |}]; mem := ∅ |}.
