(* ===== verification/Print.v ===== *)
(** * Configuration files are read back (src/conflex.l, src/confparse.y)

    A configuration is written with every token on a line of its own, and
    with blanks between the tokens of an expression.  The scanner returns
    these tokens, and by the theorem of Accept.v the parser builds the tree of the configuration:
    the round trip of printing and parsing. *)

From S2P Require Import Prelude CString Vars Conf Global MPool Plugin ParseValue Parser Load Regex Lexer Grammar Accept.
From Stdlib Require Import Ascii.

Local Open Scope Z_scope.

(** ** How a token is written *)

Abbreviation chars := String.list_ascii_of_string.

Definition item_text (it : item) : list ascii :=
  let v := chars (default EmptyString (it_val it)) in
  match it_tok it with
  | GLOBAL => chars "global"
  | VM => chars "vm"
  | TEMPLATE => chars "template"
  | INCLUDE => chars ".include"
  | APPLY => chars ".apply"
  | PLEQ => chars "+="
  | BEGIN_AR => chars "$(("
  | END_AR => chars "))"
  | STR => quoted v
  | VAR => "$"%char :: v
  | NUMBER => v
  | Char c => [c]
  | YYEOF => []
  end.

(** The start condition and its stack. *)
Definition mode : Type := start * list start.

Definition next_mode (m : mode) (t : token) : mode :=
  match t, m with
  | BEGIN_AR, (s, l) => (AR, s :: l)
  | END_AR, (_, s :: l) => (s, l)
  | Char "(", (AR, l) => (PR, AR :: l)
  | Char "(", (PR, l) => (PR, PR :: l)
  | Char ")", (PR, s :: l) => (s, l)
  | _, _ => m
  end.

(** In expressions a newline would end the expression. *)
Definition blank (m : mode) : ascii := if decide (m.1 = BASE) then LF else " "%char.

Fixpoint items_text (m : mode) (its : list item) : list ascii :=
  match its with
  | [] => [blank m]
  | it :: its' => blank m :: item_text it ++ items_text (next_mode m (it_tok it)) its'
  end.

Definition conf_text (l : list sect) : string := String.string_of_list_ascii (items_text (BASE, []) (conf_items l)).

(** ** What can be written *)

Definition name_char (c : ascii) : bool := name_letter c || is_digit c.

(** The name of a variable; "apply" and "include" are taken for macros. *)
Definition var_ok (x : string) : bool :=
  match chars x with
  | c :: l => name_letter c && forallb name_char l && negb (bool_decide (x ∈ ["apply"; "include"]))
  | [] => false
  end.

Definition num_ok (s : string) : bool := match chars s with [] => false | l => forallb is_digit l end.

(** No string has a NUL. *)
Definition str_ok (s : string) : bool := bool_decide (NUL ∉ chars s).

(** A token that can be written in a mode. *)
Definition item_fits (m : mode) (it : item) : bool :=
  match it_tok it, m with
  | (GLOBAL | VM | TEMPLATE | PLEQ | BEGIN_AR), (BASE, _) => true
  | APPLY, (BASE, _) => bool_decide (it_val it = Some ".apply")
  | STR, (BASE, _) => match it_val it with Some v => str_ok v | None => false end
  | VAR, ((BASE | AR | PR), _) => match it_val it with Some v => var_ok v | None => false end
  | NUMBER, ((AR | PR), _) => match it_val it with Some v => num_ok v | None => false end
  | Char c, (BASE, _) => is_one_of ",;={}()" c
  | Char c, (AR, _) => is_one_of operators c || Ascii.eqb c "("
  | Char c, (PR, _ :: _) => is_one_of operators c || is_one_of "()" c
  | END_AR, (AR, BASE :: _) => true
  | _, _ => false
  end.

(** ** The text of tokens without escapes *)

Definition plain_char (c : ascii) : bool := negb (is_one_of "\" c || Ascii.eqb c LF || Ascii.eqb c NUL).

Lemma text_loop_plain post size text o l : forall l1 copied buf fuel lineno,
  text = l1 ++ l ++ post -> forallb plain_char l = true -> holds buf copied -> (length l <= fuel)%nat ->
  Z.of_nat (length copied + length l) < size ->
  exists buf', text_loop text size fuel false (Z.of_nat (length l1 + length l)) (Z.of_nat (length l1))
                 (Z.of_nat (length copied)) buf lineno o = Done (-1, buf', lineno) o /\
               holds buf' ((copied ++ l) ++ [NUL]).
Proof.
  induction l as [| c l IH]; intros l1 copied buf fuel lineno E Hp Hb Hf Hsz.
  - exists (<[Z.of_nat (length copied) := NUL]> buf). split; [| rewrite app_nil_r; by apply holds_snoc]. cbn in Hsz.
    rewrite Nat.add_0_r. destruct fuel; cbn [text_loop]; rewrite Z.leb_refl; unfold mbind, C_bind;
      by rewrite store_run by lia.
  - cbn in Hp. apply andb_true_iff in Hp as [Hc Hp]. unfold plain_char, is_one_of in Hc. cbn -[Ascii.eqb] in Hc.
    apply negb_true_iff, orb_false_iff in Hc as [[[Hc _]%orb_false_iff Hlf]%orb_false_iff _].
    cbn [length] in *. destruct fuel as [| fuel]; [lia |].
    rewrite (text_loop_char _ _ _ _ l1 c (l ++ post)), Hlf, Z.add_0_r by (lia || done).
    destruct (IH (l1 ++ [c]) (copied ++ [c]) (<[Z.of_nat (length copied) := c]> buf) fuel lineno) as (buf' & H1 & H2);
      [rewrite <- app_assoc; exact E | done | by apply holds_snoc | lia | rewrite length_app; cbn; lia |].
    exists buf'. rewrite <- (app_assoc copied) in H2. split; [| exact H2]. rewrite <- H1. rewrite !length_app. cbn [length].
    f_equal; lia || (f_equal; lia).
Qed.

(** ** The rules that match *)

Lemma scan_newline x : scan BASE (LF :: x) = Some (1%nat, NextLine).
Proof. destruct x; vm_compute; reflexivity. Qed.

Definition is_blank (c : ascii) : bool := Ascii.eqb c " " || Ascii.eqb c "009".

Lemma scan_space s c x : (s = AR \/ s = PR) -> is_blank c = false -> scan s (" "%char :: c :: x) = Some (1%nat, Skip).
Proof.
  intros Hs Hc. destruct Hs as [-> | ->]; destruct c as [[] [] [] [] [] [] [] []]; try discriminate Hc; destruct x; vm_compute; reflexivity.
Qed.

(** A token that is always written in the same way. *)
Definition fixed_action (m : mode) (t : token) : lex_action :=
  match t, m.1 with
  | BEGIN_AR, _ => Enter AR BEGIN_AR
  | END_AR, _ => Leave END_AR
  | APPLY, _ => Text APPLY 0 0
  | Char "(", (AR | PR) => EnterChar PR
  | Char ")", PR => LeaveChar
  | Char _, _ => TextChar
  | _, _ => Plain t
  end.

Definition fixed (t : token) : bool := match t with STR | VAR | NUMBER => false | _ => true end.

Lemma is_one_of_elem l c : is_one_of l c = true -> c ∈ chars l.
Proof. intros (x & Hx & E%Ascii.eqb_eq)%existsb_exists. subst x. by apply list_elem_of_In. Qed.

Lemma scan_fixed m it rest :
  item_fits m it = true -> fixed (it_tok it) = true ->
  scan m.1 (item_text it ++ blank (next_mode m (it_tok it)) :: rest) = Some (length (item_text it), fixed_action m (it_tok it)) /\
  is_blank (default NUL (head (item_text it))) = false /\ item_text it <> [].
Proof.
  destruct m as [s l], it as [t v n]. unfold item_fits, item_text. cbn [it_tok it_val fst]. intros H Hf.
  assert (Hc : forall c w, is_one_of w c = true -> c ∈ chars w) by (intros c w; apply is_one_of_elem).
  destruct t; try discriminate Hf; destruct s; try discriminate H;
    lazymatch goal with
    | |- context [Char _] => idtac
    | |- context [END_AR] => idtac
    | |- _ => by (split; [destruct rest; vm_compute; reflexivity | split; [reflexivity | done]])
    end.
  - destruct l as [| [] l]; try discriminate H. split; [destruct rest; vm_compute; reflexivity | done].
  - apply Hc in H. cbn in H. repeat (apply elem_of_cons in H as [-> | H]; [split; [destruct rest; vm_compute; reflexivity | done] |]).
    by apply elem_of_nil in H.
  - apply orb_true_iff in H as [H%Hc | ->%Ascii.eqb_eq]; [| split; [destruct rest; vm_compute; reflexivity | done]].
    cbn in H. repeat (apply elem_of_cons in H as [-> | H]; [split; [destruct rest; vm_compute; reflexivity | done] |]).
    by apply elem_of_nil in H.
  - destruct l as [| s l]; [discriminate H |].
    assert (H' : c ∈ chars "+-*/%" ++ chars "()") by (apply elem_of_app; apply orb_true_iff in H as [H | H]; auto). cbn in H'.
    repeat (apply elem_of_cons in H' as [-> | H']; [destruct s; (split; [destruct rest; vm_compute; reflexivity | done]) |]).
    by apply elem_of_nil in H'.
Qed.

(** A run of characters of a class. *)
Lemma longest_run (p : ascii -> bool) l c rest :
  p c = false -> exists m, longest (Star (Cls p)) (l ++ c :: rest) = Some m /\ (m <= length l)%nat /\ (forallb p l = true -> m = length l).
Proof.
  intros Hc. induction l as [| x l (m & IH & Hle & Heq)]; cbn [app length longest der].
  - rewrite Hc. by exists 0%nat.
  - destruct (p x) eqn:Ex; cbn [cat forallb]; rewrite Ex.
    + rewrite IH. exists (S m). split; [done | split; [lia |]]. cbn. intros H. by rewrite (Heq H).
    + exists 0%nat. split; [done | split; [lia | done]].
Qed.

(** A macro after a dollar sign is shorter than a variable. *)
Lemma macro_bound w v rest k :
  w ∈ ["apply"; "include"] -> longest (lit w) (v ++ rest) = Some k -> (forall c, head rest = Some c -> c ∉ chars w) -> rest <> [] ->
  v <> chars w -> (k < length v)%nat.
Proof.
  intros Hw Hk Hr Hne Hv. pose proof (longest_correct (lit w) (v ++ rest)) as H. rewrite Hk in H. destruct H as (Hle & H & _).
  apply lit_matches in H. destruct (decide (k < length v)%nat) as [| N]; [done |]. exfalso. destruct rest as [| c rest]; [done |].
  destruct (decide (k = length v)) as [-> | N2]; [by rewrite take_app_length in H |].
  apply (Hr c eq_refl). rewrite <- H. apply (list_elem_of_lookup_2 _ (length v)). rewrite lookup_take_lt by lia.
  by rewrite lookup_app_r, Nat.sub_diag by lia.
Qed.

Abbreviation name_rest := (Star (Cls (fun c => name_letter c || is_digit c))).

(** The rules for something that begins with a dollar sign and a letter. *)
Lemma dollar_rules s j r c x m :
  s <> DQ -> name_letter c = true ->
  rules !! j = Some r -> active s r = true -> longest (ru_re r) ("$"%char :: c :: x) = Some m ->
  exists k, m = S k /\
    (j = 16%nat /\ longest (lit "include") (c :: x) = Some k \/ j = 17%nat /\ longest (lit "apply") (c :: x) = Some k \/
     j = 27%nat /\ (S <$> longest name_rest x) = Some k \/ k = 0%nat).
Proof.
  intros Hs Hc.
  assert (H1 : Ascii.eqb "(" c = false /\ Ascii.eqb "{" c = false)
    by (split; match goal with |- Ascii.eqb ?a c = _ => destruct (Ascii.eqb_spec a c) end; subst; done).
  destruct H1 as [H1 H2].
  do 37 (destruct j as [| j];
    [intros [= <-] Ha H; cbn [ru_re] in H;
     first [destruct s; first [by destruct Hs | vm_compute in Ha; discriminate Ha]
       | apply (longest_dot_lit _ "include") in H as (k & -> & H); [exists k; split; [done | solve [auto 10]] | done]
       | apply (longest_dot_lit _ "apply") in H as (k & -> & H); [exists k; split; [done | solve [auto 10]] | done]
       | rewrite (longest_lead "$" _ (Cls name_letter · name_rest)) in H by done;
         rewrite (longest_lead c _ name_rest) in H by (try done; cbn; by rewrite Hc);
         apply fmap_Some in H as (k & H & ->); exists k; split; [done | solve [auto 10]]
       | cbn in H; rewrite ?longest_eps in H; injection H as <-; exists 0%nat; split; [done | solve [auto 10]]
       | cbn in H; discriminate H
       | cbn -[Ascii.eqb] in H; change (Ascii.eqb "$" "$") with true in H; cbn -[Ascii.eqb] in H; rewrite ?H1, ?H2 in H; discriminate H] |]); done.
Qed.

Lemma var_ok_chars x : var_ok x = true ->
  exists c l, chars x = c :: l /\ name_letter c = true /\ forallb name_char l = true /\ chars x <> chars "apply" /\ chars x <> chars "include".
Proof.
  unfold var_ok. destruct (chars x) as [| c l] eqn:E; [done |]. intros [[H1 H2]%andb_true_iff H3%negb_true_iff]%andb_true_iff.
  apply bool_decide_eq_false in H3. rewrite !elem_of_cons in H3. exists c, l. rewrite <- E. split_and!; try done.
  - intros Ec. apply H3. left. by rewrite <- (String.string_of_list_ascii_of_string x), Ec.
  - intros Ec. apply H3. right. left. by rewrite <- (String.string_of_list_ascii_of_string x), Ec.
Qed.

Lemma blank_cases m : blank m = LF \/ blank m = " "%char.
Proof. unfold blank. destruct (decide _); auto. Qed.

Lemma chars_length x : length (chars x) = String.length x.
Proof. induction x as [| c x IH]; [done |]. cbn. by rewrite IH. Qed.

Lemma scan_variable s x m rest :
  s = BASE \/ s = AR \/ s = PR -> var_ok x = true ->
  scan s ("$"%char :: chars x ++ blank m :: rest) = Some (S (String.length x), Text VAR 1 0).
Proof.
  intros Hs (c & l & E & Hc & Hl & Ha & Hi)%var_ok_chars. rewrite <- chars_length, E.
  assert (Hb : name_letter (blank m) || is_digit (blank m) = false) by (by destruct (blank_cases m) as [-> | ->]).
  destruct (longest_run (fun c => name_letter c || is_digit c) l (blank m) rest Hb) as (n & Hn & _ & Heq). rewrite (Heq Hl) in Hn. clear n Heq.
  assert (Hm : forall w k, w ∈ ["apply"; "include"] -> longest (lit w) (c :: l ++ blank m :: rest) = Some k ->
    chars x <> chars w -> (k < S (length l))%nat).
  { intros w k Hw Hk Hne. change (S (length l)) with (length (c :: l)). rewrite <- E. rewrite app_comm_cons, <- E in Hk.
    apply (macro_bound w _ (blank m :: rest)); try done. intros b [= <-]. rewrite !elem_of_cons, elem_of_nil in Hw.
    destruct Hw as [-> | [-> | []]], (blank_cases m) as [-> | ->]; by apply (bool_decide_unpack _); vm_compute. }
  apply (scan_best _ _ 27). split.
  - eexists. split; [reflexivity | split; [by destruct Hs as [-> | [-> | ->]] | split; [| reflexivity]]]. cbn [ru_re app].
    rewrite (longest_lead "$" _ (Cls name_letter · name_rest)) by done.
    rewrite (longest_lead c _ name_rest), Hn by (try done; cbn; by rewrite Hc). done.
  - intros j r k Hj Hact Hk. cbn [app] in Hk.
    destruct (dollar_rules s j r c (l ++ blank m :: rest) k) as (k' & -> & H); [by destruct Hs as [-> | [-> | ->]] | done.. |].
    cbn [length]. destruct H as [[-> H] | [[-> H] | [[-> H] | ->]]].
    + apply Hm in H; [lia | rewrite !elem_of_cons; auto | done].
    + apply Hm in H; [lia | rewrite !elem_of_cons; auto | done].
    + rewrite Hn in H. injection H as <-. lia.
    + lia.
Qed.

(** The rules for something that begins with a digit. *)
Lemma digit_rules s j r c x m :
  s = AR \/ s = PR -> is_digit c = true -> head x <> Some "x"%char ->
  rules !! j = Some r -> active s r = true -> longest (ru_re r) (c :: x) = Some m ->
  exists k, m = S k /\
    (j = 5%nat /\ longest (plus (Cls octal)) x = Some k \/ j = 6%nat /\ longest (Star (Cls is_digit)) x = Some k \/ j = 36%nat /\ k = 0%nat).
Proof.
  intros Hs Hc Hx.
  assert (Hx' : forall re, longest (chr "x" · re) x = None) by (intros re; destruct x as [| y x]; [done |]; cbn -[Ascii.eqb];
    destruct (Ascii.eqb_spec "x" y) as [<- |]; [by destruct Hx | done]).
  destruct c as [[] [] [] [] [] [] [] []]; try discriminate Hc; clear Hc;
  do 37 (destruct j as [| j];
    [intros [= <-] Ha H; cbn [ru_re] in H;
     first [destruct Hs as [-> | ->]; vm_compute in Ha; discriminate Ha
       | cbn in H; discriminate H
       | cbn in H; rewrite longest_eps in H; injection H as <-; exists 0%nat; split; [done | solve [auto 10]]
       | erewrite longest_lead in H by done; apply fmap_Some in H as (k & H & ->); exists k; split; [done | solve [auto 10]]
       | erewrite longest_lead in H by done; cbn [der] in H; exfalso; specialize (Hx' (plus (Cls hex))); cbn in H, Hx'; rewrite Hx' in H; discriminate H] |]); done.
Qed.

Lemma scan_number s x rest :
  s = AR \/ s = PR -> num_ok x = true ->
  scan s (chars x ++ " "%char :: rest) = Some (String.length x, Text NUMBER 0 0).
Proof.
  unfold num_ok. intros Hs Hx. rewrite <- chars_length. destruct (chars x) as [| c l]; [done |]. cbn [forallb] in Hx.
  apply andb_true_iff in Hx as [Hc Hl]. cbn [app length]. set (y := l ++ " "%char :: rest).
  destruct (longest_run is_digit l " " rest eq_refl) as (n & Hn & _ & Heq). rewrite (Heq Hl) in Hn. clear n Heq.
  assert (H6 : longest (Cls is_digit · Star (Cls is_digit)) (c :: y) = Some (S (length l))).
  { rewrite (longest_lead c _ (Star (Cls is_digit))) by (try done; cbn; by rewrite Hc). unfold y. by rewrite Hn. }
  assert (Hy : head y <> Some "x"%char).
  { unfold y. destruct l as [| d l]; [done |]. cbn in Hl |- *. intros [= ->]. done. }
  pose proof (scan_rules_spec s rules (c :: y)) as H. rewrite scan_eq. destruct (scan_rules s rules (c :: y)) as [[n a] |].
  2: { specialize (H {| ru_starts := [AR; PR]; ru_re := Cls is_digit · Star (Cls is_digit); ru_action := Text NUMBER 0 0 |}).
       cbn [ru_re] in H. rewrite H in H6; [done | |]; [by apply (list_elem_of_lookup_2 _ 6%nat) | by destruct Hs as [-> | ->]]. }
  destruct H as (i & (r & Hi & Hact & Hm & <-) & Hbest).
  destruct (Hbest 6%nat _ _ eq_refl ltac:(by destruct Hs as [-> | ->]) H6) as [Hge Hlt].
  destruct (digit_rules s i r c y n Hs Hc Hy Hi Hact Hm) as (k & -> & Hk).
  assert (Hle : (k <= length l)%nat).
  { destruct Hk as [[_ Hk] | [[_ Hk] | [_ ->]]]; [| | lia].
    - destruct l as [| d l]; [done |]. unfold y in Hk. cbn -[octal] in Hk. destruct (octal d); [| done]. cbn [cat] in Hk.
      destruct (longest_run octal l " " rest eq_refl) as (m & Ho & Hle & _). rewrite Ho in Hk. injection Hk as <-. cbn. lia.
    - unfold y in Hk. rewrite Hn in Hk. injection Hk as <-. done. }
  assert (k = length l) as -> by lia. f_equal. f_equal.
  destruct Hk as [[-> _] | [[-> _] | [-> Hk]]]; [by injection Hi as <- | by injection Hi as <- | lia].
Qed.

(** ** The values of the tokens *)

Lemma text2lval_plain pre l lx st k o :
  forallb plain_char l = true -> 0 <= k -> plenty st (Z.of_nat (length l) + 9 + k) ->
  exists st', text2lval (pre ++ l) (Z.of_nat (length pre)) 0 false lx st o =
      Done (-1, lx <| lx_lval := Some (String.string_of_list_ascii l) |> <| lx_lineno := lx_lineno lx |>, st') o /\ plenty st' k.
Proof.
  intros Hl Hk Hp. unfold text2lval, mbind, C_bind. rewrite length_app. cbn zeta.
  replace (Z.of_nat (length pre + length l) - 0 - Z.of_nat (length pre) + 1) with (Z.of_nat (length l) + 1) by lia.
  destruct (alloc_plenty st (Z.of_nat (length l) + 1) k o) as (p & st' & E & Hp'); [lia | lia | eapply plenty_less; [| done]; lia |].
  rewrite E. destruct (text_loop_plain [] (Z.of_nat (length l) + 1) (pre ++ l) o l pre [] ∅ (length pre + length l) (lx_lineno lx))
    as (buf & El & Hb); [by rewrite app_nil_r | done | by intros i c Hc | lia | cbn; lia |].
  rewrite Z.sub_0_r. change (Z.of_nat (length [])) with 0 in El. rewrite El.
  exists st'. split; [| done]. rewrite (read_holds l buf 0); [done | exact Hb | | lia].
  intros Hn. rewrite forallb_forall in Hl. by specialize (Hl NUL (proj1 (list_elem_of_In _ _) Hn)).
Qed.

(** ** A call of the scanner *)

Definition mode_of (lx : lexer) : mode := (lx_start lx, lx_stack lx).

(** The blank before a token is skipped. *)
Lemma yylex_blank lx m c x :
  mode_of lx = m -> m.1 = BASE \/ m.1 = AR \/ m.1 = PR -> is_blank c = false -> lx_input lx = blank m :: c :: x ->
  exists lx0, mode_of lx0 = m /\ lx_input lx0 = c :: x /\ lx_nerrs lx0 = lx_nerrs lx /\
    forall fuel st o, yylex (S fuel) lx st o = yylex fuel lx0 st o.
Proof.
  intros Hm Hs Hc Hin. unfold mode_of in Hm. subst m. cbn [fst] in Hs. unfold blank in Hin. cbn [fst] in Hin. destruct (decide (lx_start lx = BASE)) as [E | N].
  - exists (lx <| lx_input := c :: x |> <| lx_lineno := lx_lineno lx + 1 |>). split_and!; try done. intros fuel st o.
    cbn [yylex]. rewrite Hin, E, scan_newline. reflexivity.
  - exists (lx <| lx_input := c :: x |>). split_and!; try done. intros fuel st o. cbn [yylex]. rewrite Hin, scan_space by tauto. reflexivity.
Qed.

Lemma yylex_token lx fuel text rest a st o :
  lx_input lx = text ++ rest -> text <> [] -> scan (lx_start lx) (text ++ rest) = Some (length text, a) ->
  yylex (S fuel) lx st o =
  ('(t, lx, st) ← run_action a text (lx <| lx_input := rest |>) st; match t with Some t => mret (t, lx, st) | None => yylex fuel lx st end) o.
Proof.
  intros Hin Hne Hs. cbn [yylex]. rewrite Hin. destruct (text ++ rest) eqn:E; [by apply app_nil in E as [-> _] |].
  rewrite <- E in *. by rewrite Hs, take_app_length, drop_app_length.
Qed.

(** The memory that a token takes. *)
Definition item_cost (it : item) : Z :=
  let v := default EmptyString (it_val it) in
  match it_tok it with
  | STR => Z.of_nat (length (quote (chars v))) + 9
  | VAR | NUMBER | APPLY => Z.of_nat (String.length v) + 9
  | _ => 0
  end.

(** The scanner at [lx] returns [it], and stands before [rest] in the next mode. *)
Definition returns (m : mode) (it : item) (rest : list ascii) (lx lx1 : lexer) : Prop :=
  (forall fuel st k o, 0 <= k -> plenty st (it_cost it + k) ->
     exists st', yylex (S fuel) lx st o = Done (it_tok it, lx1, st') o /\ plenty st' k) /\
  has_value lx1 it /\ lx_nerrs lx1 = lx_nerrs lx /\ mode_of lx1 = next_mode m (it_tok it) /\ lx_input lx1 = rest.

(** A token whose text is copied. *)
Lemma returns_text m it rest lx pre l :
  item_text it = pre ++ l -> item_text it <> [] -> it_val it = Some (String.string_of_list_ascii l) -> it_cost it = item_cost it ->
  it_tok it = VAR \/ it_tok it = NUMBER \/ it_tok it = APPLY ->
  mode_of lx = m -> lx_input lx = item_text it ++ rest -> forallb plain_char l = true ->
  scan (lx_start lx) (item_text it ++ rest) = Some (length (item_text it), Text (it_tok it) (Z.of_nat (length pre)) 0) ->
  exists lx1, returns m it rest lx lx1.
Proof.
  intros Et Hne Hv Hcost Ht Hm Hin Hp Hs. set (lx0 := lx <| lx_input := rest |>).
  exists (lx0 <| lx_lval := Some (String.string_of_list_ascii l) |> <| lx_lineno := lx_lineno lx0 |>). split_and!.
  - intros fuel st k o Hk Hpl. rewrite (yylex_token lx fuel _ rest _ st o Hin Hne Hs). cbn [run_action]. rewrite Et.
    assert (Hc : it_cost it = Z.of_nat (length l) + 9).
    { rewrite Hcost. unfold item_cost. rewrite Hv. cbn [from_option id]. rewrite <- chars_length, String.list_ascii_of_string_of_list_ascii.
      by destruct Ht as [-> | [-> | ->]]. }
    rewrite Hc in Hpl. destruct (text2lval_plain pre l lx0 st k o Hp Hk Hpl) as (st' & E & Hp').
    exists st'. split; [| done]. unfold mbind, C_bind. fold lx0. rewrite E. reflexivity.
  - intros _. by rewrite Hv.
  - done.
  - unfold next_mode. rewrite <- Hm. unfold mode_of. cbn. by destruct Ht as [-> | [-> | ->]].
  - done.
Qed.

(** What the scanner does for the other tokens. *)
Lemma act_fixed m it lx :
  item_fits m it = true -> fixed (it_tok it) = true -> it_tok it <> APPLY -> mode_of lx = m ->
  exists lx1, (forall st o, run_action (fixed_action m (it_tok it)) (item_text it) lx st o = Done (Some (it_tok it), lx1, st) o) /\
    lx_nerrs lx1 = lx_nerrs lx /\ mode_of lx1 = next_mode m (it_tok it) /\ lx_input lx1 = lx_input lx.
Proof.
  destruct m as [s l], it as [t v n], lx as [s' l' i ln ne lv]. unfold item_fits, item_text, mode_of, fixed_action.
  cbn [it_tok it_val lx_start lx_stack fst]. intros H Hf Ha [= -> ->].
  destruct t as [| | | | | | | | | | | c |]; try discriminate; try done; try (destruct s; try discriminate H; eexists; split; [intros; reflexivity | done]).
  - destruct s; try discriminate H. destruct l as [| [] l]; try discriminate H. eexists. split; [intros; reflexivity | done].
  - destruct s; try discriminate H.
    + exists {| lx_start := BASE; lx_stack := l; lx_input := i; lx_lineno := ln; lx_nerrs := ne; lx_lval := lv |}.
      apply is_one_of_elem in H. cbn in H. repeat (apply elem_of_cons in H as [-> | H]; [done |]). by apply elem_of_nil in H.
    + apply orb_true_iff in H as [H%is_one_of_elem | ->%Ascii.eqb_eq]; [| eexists; split; [intros; reflexivity | done]].
      exists {| lx_start := AR; lx_stack := l; lx_input := i; lx_lineno := ln; lx_nerrs := ne; lx_lval := lv |}.
      cbn in H. repeat (apply elem_of_cons in H as [-> | H]; [done |]). by apply elem_of_nil in H.
    + destruct l as [| s l]; [discriminate H |]. apply orb_true_iff in H as [H%is_one_of_elem | H%is_one_of_elem].
      * exists {| lx_start := PR; lx_stack := s :: l; lx_input := i; lx_lineno := ln; lx_nerrs := ne; lx_lval := lv |}.
        cbn in H. repeat (apply elem_of_cons in H as [-> | H]; [done |]). by apply elem_of_nil in H.
      * cbn in H. repeat (apply elem_of_cons in H as [-> | H]; [eexists; split; [intros; reflexivity | done] |]). by apply elem_of_nil in H.
Qed.

Lemma returns_fixed m it rest lx :
  item_fits m it = true -> fixed (it_tok it) = true -> it_tok it <> APPLY -> it_cost it = item_cost it -> mode_of lx = m ->
  lx_input lx = item_text it ++ blank (next_mode m (it_tok it)) :: rest ->
  exists lx1, returns m it (blank (next_mode m (it_tok it)) :: rest) lx lx1.
Proof.
  intros H Hf Ha Hcost <- Hin. destruct (scan_fixed (mode_of lx) it rest H Hf) as (Hs & _ & Hne).
  remember (blank (next_mode (mode_of lx) (it_tok it)) :: rest) as b eqn:Eb. clear Eb.
  set (lx0 := lx <| lx_input := b |>).
  destruct (act_fixed (mode_of lx) it lx0 H Hf Ha eq_refl) as (lx1 & E & H1 & H2 & H3).
  exists lx1. split_and!; try done.
  - intros fuel st k o Hk Hp. exists st. split.
    + rewrite (yylex_token lx fuel _ b _ st o Hin Hne Hs). unfold mbind, C_bind. fold lx0. rewrite E. reflexivity.
    + eapply plenty_less; [| done]. rewrite Hcost. unfold item_cost. destruct (it_tok it); try done; lia.
  - intros Hv. by destruct (it_tok it).
Qed.

Lemma returns_string m it rest lx v :
  it_tok it = STR -> it_val it = Some v -> str_ok v = true -> it_cost it = item_cost it -> mode_of lx = m -> m.1 = BASE ->
  lx_input lx = item_text it ++ rest -> exists lx1, returns m it rest lx lx1.
Proof.
  intros Ht Hv Hok Hcost Hm Hb Hin. apply bool_decide_eq_true in Hok. unfold item_text in Hin. rewrite Ht, Hv in Hin. cbn [from_option id] in Hin.
  exists (lx <| lx_input := rest |> <| lx_lval := Some (String.string_of_list_ascii (chars v)) |> <| lx_lineno := lx_lineno lx + newlines (chars v) |>).
  split_and!; try done.
  - intros fuel st k o Hk Hp.
    assert (Hc : it_cost it = Z.of_nat (length (quote (chars v))) + 9) by (rewrite Hcost; unfold item_cost; by rewrite Ht, Hv).
    rewrite Hc in Hp. destruct (alloc_plenty st (Z.of_nat (length (quote (chars v))) + 1) k o) as (p & st' & E & Hp');
      [lia | lia | eapply plenty_less; [| done]; lia |].
    exists st'. split; [| done]. rewrite Ht. apply (read_quoted lx st st' (chars v) rest p); try done. by rewrite <- Hm in Hb.
  - intros _. cbn. by rewrite String.string_of_list_ascii_of_string, Hv.
  - rewrite Ht. by rewrite <- Hm.
Qed.

Lemma plain_forall p l : (forall c, p c = true -> plain_char c = true) -> forallb p l = true -> forallb plain_char l = true.
Proof. intros H Hl. rewrite forallb_forall in *. auto. Qed.

Lemma name_plain c : name_char c = true -> plain_char c = true.
Proof. by destruct c as [[] [] [] [] [] [] [] []]. Qed.

Lemma digit_plain c : is_digit c = true -> plain_char c = true.
Proof. by destruct c as [[] [] [] [] [] [] [] []]. Qed.

Lemma item_returns m it rest lx :
  item_fits m it = true -> it_cost it = item_cost it -> mode_of lx = m ->
  lx_input lx = item_text it ++ blank (next_mode m (it_tok it)) :: rest ->
  exists lx1, returns m it (blank (next_mode m (it_tok it)) :: rest) lx lx1.
Proof.
  intros H Hcost Hm Hin. destruct (decide (it_tok it = APPLY)) as [Ht | Na].
  { destruct (scan_fixed m it rest H) as (Hs & _ & Hne); [by rewrite Ht |]. assert (Hv : it_val it = Some ".apply").
    { unfold item_fits in H. rewrite Ht in H. destruct m as [[] l]; try discriminate H. by apply bool_decide_eq_true in H. }
    apply (returns_text m it _ lx [] (chars ".apply")); try done; [unfold item_text; by rewrite Ht | auto |].
    rewrite <- Hm in Hs |- *. rewrite Ht in Hs |- *. exact Hs. }
  destruct (fixed (it_tok it)) eqn:Hf; [by apply returns_fixed |].
  unfold item_fits in H. destruct m as [s l]. pose proof Hm as [= Hs Hl].
  assert (Htok : it_tok it = STR \/ it_tok it = VAR \/ it_tok it = NUMBER) by (destruct (it_tok it); try discriminate Hf; auto).
  destruct Htok as [Ht | [Ht | Ht]].
  - rewrite Ht in H. destruct s; try discriminate H. destruct (it_val it) as [v |] eqn:Hv; [| done]. by eapply returns_string.
  - assert (Hb : s = BASE \/ s = AR \/ s = PR) by (rewrite Ht in H; destruct s; try discriminate H; auto).
    destruct (it_val it) as [v |] eqn:Hv; [| by rewrite Ht in H; destruct Hb as [-> | [-> | ->]]].
    assert (Hok : var_ok v = true) by (rewrite Ht in H; by destruct Hb as [-> | [-> | ->]]).
    assert (Et : item_text it = "$"%char :: chars v) by (unfold item_text; by rewrite Ht, Hv).
    apply (returns_text (s, l) it _ lx ["$"%char] (chars v)); try done; auto.
    + by rewrite Et.
    + by rewrite Hv, String.string_of_list_ascii_of_string.
    + apply var_ok_chars in Hok as (c & w & -> & Hc & Hw & _). cbn [forallb]. apply andb_true_iff. split.
      * apply name_plain. unfold name_char. by rewrite Hc.
      * by apply (plain_forall name_char), Hw; apply name_plain.
    + rewrite Et, Hs. cbn [app length]. rewrite chars_length, Ht. by apply scan_variable.
  - assert (Hb : s = AR \/ s = PR) by (rewrite Ht in H; destruct s; try discriminate H; auto).
    destruct (it_val it) as [v |] eqn:Hv; [| by rewrite Ht in H; destruct Hb as [-> | ->]].
    assert (Hok : num_ok v = true) by (rewrite Ht in H; by destruct Hb as [-> | ->]).
    assert (Et : item_text it = chars v) by (unfold item_text; by rewrite Ht, Hv).
    assert (Ebl : blank (next_mode (s, l) (it_tok it)) = " "%char) by (rewrite Ht; by destruct Hb as [-> | ->]).
    apply (returns_text (s, l) it _ lx [] (chars v)); try done; auto.
    + rewrite Et. unfold num_ok in Hok. by destruct (chars v).
    + by rewrite Hv, String.string_of_list_ascii_of_string.
    + unfold num_ok in Hok. destruct (chars v) as [| c w]; [done |]. by apply (plain_forall is_digit), Hok; apply digit_plain.
    + rewrite Et, Hs, Ebl, chars_length, Ht. by apply scan_number.
Qed.

Lemma item_head m it : item_fits m it = true -> exists c x, item_text it = c :: x /\ is_blank c = false.
Proof.
  intros H. destruct (fixed (it_tok it)) eqn:Hf.
  - destruct (scan_fixed m it [] H Hf) as (_ & Hc & Hne). destruct (item_text it) as [| c x]; [done |]. by exists c, x.
  - unfold item_fits in H. unfold item_text. destruct m as [s l], (it_tok it); try discriminate Hf; try by eexists _, _.
    destruct s; try discriminate H; (destruct (it_val it) as [v |]; [| done]); cbn [from_option id]; unfold num_ok in H;
      (destruct (chars v) as [| c x]; [done |]; exists c, x; split; [done |]); cbn in H; apply andb_true_iff in H as [H _];
      by destruct c as [[] [] [] [] [] [] [] []].
Qed.

Lemma item_token m it : item_fits m it = true -> token_value (it_tok it) = it_tok it.
Proof.
  unfold item_fits, token_value. destruct (it_tok it) as [| | | | | | | | | | | c |]; try done. destruct m as [[] l]; try done; intros H.
  - apply is_one_of_elem in H. cbn in H. repeat (apply elem_of_cons in H as [-> | H]; [done |]). by apply elem_of_nil in H.
  - apply orb_true_iff in H as [H%is_one_of_elem | ->%Ascii.eqb_eq]; [| done]. cbn in H.
    repeat (apply elem_of_cons in H as [-> | H]; [done |]). by apply elem_of_nil in H.
  - destruct l; [done |]. apply orb_true_iff in H as [H%is_one_of_elem | H%is_one_of_elem]; cbn in H;
      repeat (apply elem_of_cons in H as [-> | H]; [done |]); by apply elem_of_nil in H.
Qed.

(** ** The tokens of a text *)

(** The mode after some tokens, when they can all be written. *)
Fixpoint written (m : mode) (its : list item) (m' : mode) : Prop :=
  match its with
  | [] => m' = m
  | it :: its' => item_fits m it = true /\ it_cost it = item_cost it /\ written (next_mode m (it_tok it)) its' m'
  end.

Lemma written_app m its1 m1 its2 m2 : written m its1 m1 -> written m1 its2 m2 -> written m (its1 ++ its2) m2.
Proof. revert m. induction its1 as [| it its1 IH]; intros m; cbn; [by intros -> |]. intros (H1 & H2 & H3) H. auto. Qed.

Lemma item_mode m it : item_fits m it = true -> m.1 = BASE \/ m.1 = AR \/ m.1 = PR.
Proof. unfold item_fits. destruct m as [[] l], (it_tok it); try done; auto. Qed.

Lemma items_text_length m its : (1 <= length (items_text m its))%nat.
Proof. destruct its; cbn; lia. Qed.

(** The scanner returns the tokens that were written, and then the end of the file. *)
Lemma feeds_text its : forall m l lx,
  written m its (BASE, l) -> mode_of lx = m -> lx_input lx = items_text m (its ++ [plain_item YYEOF]) -> feeds lx (its ++ [plain_item YYEOF]).
Proof.
  induction its as [| it its IH]; intros m l lx Hf Hm Hin; cbn [app feeds].
  - cbn in Hf. subst m. destruct lx as [s l0 i ln ne lv]. injection Hm as -> ->. cbn in Hin. subst i. split; [done | split; [done |]].
    exists {| lx_start := BASE; lx_stack := l; lx_input := []; lx_lineno := ln + 1 + 1; lx_nerrs := ne; lx_lval := lv |}. split; [| done].
    intros st k o Hk Hp. exists st. split; [vm_compute; reflexivity | exact Hp].
  - cbn [app items_text] in Hin. destruct Hf as (Hfit & Hcost & Hf). destruct (item_head m it Hfit) as (c & x & Et & Hc).
    pose proof (item_mode m it Hfit) as Hmode. rewrite Et in Hin. cbn [app] in Hin.
    destruct (yylex_blank lx m c _ Hm Hmode Hc Hin) as (lx0 & Hm0 & Hin0 & He0 & Hstep).
    rewrite app_comm_cons, <- Et in Hin0.
    assert (Hbl : exists rest, items_text (next_mode m (it_tok it)) (its ++ [plain_item YYEOF]) = blank (next_mode m (it_tok it)) :: rest)
      by (destruct (its ++ [plain_item YYEOF]); by eexists).
    destruct Hbl as [rest Hbl]. rewrite Hbl in Hin0.
    destruct (item_returns m it rest lx0 Hfit Hcost Hm0 Hin0) as (lx1 & Hlex & Hv & He1 & Hm1 & Hin1).
    split; [| split; [by eapply item_token |]].
    { rewrite Hcost. unfold item_cost. destruct (it_tok it); lia. }
    exists lx1. split_and!; [| done | congruence |].
    + intros st k o Hk Hp. destruct (Hlex (lex_fuel lx - 2)%nat st k o Hk Hp) as (st' & E & Hp'). exists st'. split; [| done].
      rewrite <- E, <- Hstep. f_equal. unfold lex_fuel. rewrite Hin. cbn [length]. lia.
    + apply (IH (next_mode m (it_tok it)) l); [done | done |]. by rewrite Hin1, Hbl.
Qed.

(** ** The tokens of a configuration can be written *)

Fixpoint aexp_writable (a : aexp) : bool :=
  match a with
  | ANum s => num_ok s
  | AVar x => var_ok x
  | ANeg a => aexp_writable a
  | ABin _ a b => aexp_writable a && aexp_writable b
  end.

(** An expression leaves the mode as it was. *)
Lemma written_parens s l its :
  s = AR \/ s = PR -> (s = PR -> l <> []) -> (forall l, written (PR, s :: l) its (PR, s :: l)) -> written (s, l) (in_parens its) (s, l).
Proof.
  intros Hs Hl Hi. unfold in_parens. destruct Hs as [-> | ->]; [| destruct l; [by destruct Hl |]]; (split; [done | split; [done |]]);
    apply (written_app _ _ (PR, _ :: _) _ _ (Hi _)); by split_and!.
Qed.

Lemma written_expr a : forall s l, s = AR \/ s = PR -> (s = PR -> l <> []) -> aexp_writable a = true -> ops_ok a = true ->
  written (s, l) (expr_items a) (s, l).
Proof.
  assert (Ho : forall s l a, s = AR \/ s = PR -> (s = PR -> l <> []) ->
    (forall s l, s = AR \/ s = PR -> (s = PR -> l <> []) -> written (s, l) (expr_items a) (s, l)) ->
    written (s, l) (operand_items a) (s, l)).
  { intros s l b Hs Hl IH. unfold operand_items. destruct (leaf b); [by apply IH |]. apply written_parens; [done | done |]. intros l'. apply IH; auto. }
  induction a as [x | x | a IH | op a IHa b IHb]; intros s l Hs Hl; cbn [aexp_writable ops_ok expr_items].
  - intros Hx _. destruct Hs as [-> | ->]; by split_and!.
  - intros Hx _. destruct Hs as [-> | ->]; by split_and!.
  - intros Ha Hop. assert (Hin : written (s, l) (in_parens (expr_items a)) (s, l))
      by (apply written_parens; [done | done |]; intros l'; apply IH; auto).
    destruct Hs as [-> | ->]; [by split_and! |]. destruct l; [by destruct (Hl eq_refl) | by split_and!].
  - intros [Wa Wb]%andb_true_iff [[Hop Oa]%andb_true_iff Ob]%andb_true_iff. fold (operand_items a).
    eapply written_app; [apply Ho; [done | done | auto] |].
    assert (Hb : written (s, l) (expr_items b) (s, l)) by auto.
    assert (Hc : op ∈ chars operators) by (by apply is_one_of_elem).
    cbn in Hc. destruct Hs as [-> | ->]; [| destruct l; [by destruct (Hl eq_refl) |]];
      repeat (apply elem_of_cons in Hc as [-> | Hc]; [by split_and! |]); by apply elem_of_nil in Hc.
Qed.

(** Tokens outside of expressions. *)
Abbreviation base := (BASE, @nil start).

Definition writes (its : list item) : Prop := written base its base.

Lemma writes_app its1 its2 : writes its1 -> writes its2 -> writes (its1 ++ its2).
Proof. apply written_app. Qed.

Lemma writes_concat {X} (f : X -> list item) l : (forall x, x ∈ l -> writes (f x)) -> writes (concat (f <$> l)).
Proof.
  induction l as [| x l IH]; intros H; [done |]. rewrite fmap_cons. cbn [concat]. apply writes_app; [apply H; by left |].
  apply IH. intros y Hy. apply H. by right.
Qed.

Lemma writes_cons it its : item_fits base it = true -> it_cost it = item_cost it -> next_mode base (it_tok it) = base -> writes its -> writes (it :: its).
Proof. intros H1 H2 H3 H. split; [done | split; [done |]]. by rewrite H3. Qed.

Lemma writes_char c its : is_one_of ",;={}()" c = true -> writes its -> writes (char_item c :: its).
Proof.
  intros H Hw. apply writes_cons; [done | done | | done]. apply is_one_of_elem in H. cbn in H.
  repeat (apply elem_of_cons in H as [-> | H]; [done |]). by apply elem_of_nil in H.
Qed.

Lemma writes_str s its : str_ok s = true -> writes its -> writes (str_item s :: its).
Proof. by intros; apply writes_cons. Qed.

Lemma writes_nil : writes [].
Proof. done. Qed.

Definition piece_writable (p : piece) : bool :=
  match p with
  | PStr s => str_ok s
  | PVar x => var_ok x
  | PExpr a => aexp_writable a
  end.

Definition pieces_writable (l : list piece) : bool := forallb piece_writable l.

Lemma writes_piece p : piece_ok p = true -> piece_writable p = true -> writes (piece_items p).
Proof.
  destruct p as [s | x | a]; cbn [piece_ok piece_writable piece_items]; intros Ho Hw; [by apply writes_str | by apply writes_cons |].
  split; [done | split; [done |]]. apply (written_app _ _ (AR, [BASE])); [| by split_and!].
  by apply written_expr; auto.
Qed.

Lemma forallb_elem {X} (f : X -> bool) l x : forallb f l = true -> x ∈ l -> f x = true.
Proof. rewrite forallb_forall. intros H Hx. by apply H, list_elem_of_In. Qed.

Lemma writes_pieces l : pieces_ok l = true -> pieces_writable l = true -> writes (pieces_items l).
Proof. intros Ho Hw. apply writes_concat. intros p Hp. apply writes_piece; by eapply forallb_elem. Qed.

Lemma writes_sep {X} (f : X -> list item) l : (forall x, x ∈ l -> writes (f x)) -> writes (sep_items f l).
Proof.
  destruct l as [| x l]; intros H; [done |]. cbn. apply writes_app; [apply H; by left |].
  apply (writes_concat (fun y => char_item "," :: f y)). intros y Hy. apply writes_char; [done |]. apply H. by right.
Qed.

Lemma writes_parens its : writes its -> writes (in_parens its).
Proof. intros H. unfold in_parens. apply writes_char; [done |]. apply writes_app; [done |]. by apply writes_char. Qed.

Definition target_writable (ta : target) : bool := pieces_writable (ta_name ta) && forallb pieces_writable (ta_args ta).

Definition param_writable (pr : param) : bool :=
  match pr with
  | Assign var key _ vals => (if var then var_ok key else str_ok key) && forallb pieces_writable vals
  | Apply tas => forallb target_writable tas
  end.

Definition argdef_writable (ad : argdef) : bool :=
  str_ok (ar_name ad) && match ar_default ad with None => true | Some l => pieces_writable l end.

(** Every name, number and text in it can be written down. *)
Definition sect_writable (s : sect) : bool :=
  forallb param_writable (sect_params s) && forallb argdef_writable (sect_args s) && str_ok (default EmptyString (sect_name s)).

Lemma writes_all ls : forallb pieces_ok ls = true -> forallb pieces_writable ls = true -> writes (sep_items pieces_items ls).
Proof. intros Ho Hw. apply writes_sep. intros l Hl. apply writes_pieces; by eapply forallb_elem. Qed.

Lemma writes_target ta : target_ok ta = true -> target_writable ta = true -> writes (target_items ta).
Proof.
  intros [H1 H2]%andb_true_iff [W1 W2]%andb_true_iff. apply writes_app; [by apply writes_pieces |].
  destruct (ta_args ta) as [| x l] eqn:E; [done |]. rewrite <- E in *. by apply writes_parens, writes_all.
Qed.

Lemma writes_param pr : param_ok pr = true -> param_writable pr = true -> writes (param_items pr).
Proof.
  destruct pr as [var key append vals | tas]; cbn [param_ok param_writable param_items]; intros [Ho _]%andb_true_iff Hw.
  - apply andb_true_iff in Hw as [Hk Hw]. assert (Hv : writes (op_item append :: sep_items pieces_items vals)).
    { destruct append; [apply writes_cons | apply writes_char]; try done; by apply writes_all. }
    destruct var; [by apply writes_cons | by apply writes_str].
  - apply writes_cons; [done | done | done |]. apply writes_sep. intros ta Hta. apply writes_target; by eapply forallb_elem.
Qed.

Lemma writes_params prs : forallb param_ok prs = true -> forallb param_writable prs = true -> writes (params_items prs).
Proof.
  intros Ho Hw. apply writes_app; [| by apply writes_char]. apply writes_concat. intros pr Hpr.
  apply writes_app; [apply writes_param; by eapply forallb_elem | by apply writes_char].
Qed.

Lemma writes_argdef ad : argdef_ok ad = true -> argdef_writable ad = true -> writes (argdef_items ad).
Proof.
  unfold argdef_ok, argdef_writable, argdef_items. intros Ho [Hn Hw]%andb_true_iff. apply writes_str; [done |].
  destruct (ar_default ad); [| done]. apply writes_char; [done | by apply writes_pieces].
Qed.

Lemma writes_sect s : sect_ok s = true -> sect_writable s = true -> writes (sect_items s).
Proof.
  unfold sect_ok, sect_writable. intros [[Ho Ha]%andb_true_iff _]%andb_true_iff [[Wp Wa]%andb_true_iff Wn]%andb_true_iff.
  assert (Hp : writes (params_items (sect_params s))) by (by apply writes_params).
  destruct s as [prs | n ads prs | n prs]; cbn [sect_items sect_params sect_args sect_name from_option id] in *.
  - apply writes_cons; [done | done | done |]. by apply writes_char.
  - apply writes_cons; [done | done | done |]. apply writes_str; [done |]. apply writes_app; [| by apply writes_char].
    unfold args_items. destruct ads as [| ad ads]; [done |]. apply writes_parens, writes_sep. intros x Hx.
    apply writes_argdef; by eapply forallb_elem.
  - apply writes_cons; [done | done | done |]. apply writes_str; [done |]. by apply writes_char.
Qed.

(** ** Fuel *)

Lemma fuel_concat {X} (f : X -> nat) (g : X -> list item) l :
  (forall x, f x <= 2 * length (g x))%nat -> (sum_fuel f l <= 1 + 2 * length (concat (g <$> l)))%nat.
Proof.
  intros H. induction l as [| x l IH]; [done |]. rewrite sum_fuel_cons, fmap_cons. cbn [concat]. rewrite length_app. specialize (H x). lia.
Qed.

Lemma fuel_sep {X} (f : X -> nat) (g : X -> list item) l :
  (forall x, f x <= 2 * length (g x) + 2)%nat -> (sum_fuel f l <= 3 + 2 * length (sep_items g l))%nat.
Proof.
  intros H. destruct l as [| x l]; [unfold sum_fuel; cbn [foldr]; lia |]. rewrite sum_fuel_cons. cbn [sep_items]. rewrite length_app. pose proof (H x) as Hx.
  pose proof (fuel_concat f (fun y => char_item "," :: g y) l) as Hl. cbn [length] in Hl.
  assert (forall y, f y <= 2 * S (length (g y)))%nat by (intros y; specialize (H y); lia). specialize (Hl H0). lia.
Qed.

Lemma depth_items a : (depth a <= 2 * length (expr_items a))%nat.
Proof.
  induction a as [x | x | a IH | op a IHa b IHb]; cbn [depth expr_items]; [cbn; lia | cbn; lia | |].
  - unfold in_parens. cbn [length]. rewrite length_app. cbn. lia.
  - rewrite length_app. cbn [length]. unfold in_parens.
    destruct (leaf a); cbn [length]; rewrite ?length_app; cbn [length]; lia.
Qed.

Lemma pieces_items_fuel l : (pieces_fuel l <= 1 + 2 * length (pieces_items l))%nat.
Proof.
  apply fuel_concat. intros [s | x | a]; unfold piece_fuel; cbn [piece_items length]; [lia | lia |].
  rewrite length_app. cbn. pose proof (depth_items a). lia.
Qed.

Lemma all_items_fuel ls : (sum_fuel pieces_fuel ls <= 3 + 2 * length (sep_items pieces_items ls))%nat.
Proof. apply fuel_sep. intros l. pose proof (pieces_items_fuel l). lia. Qed.

Lemma target_items_fuel ta : (target_fuel ta <= 2 * length (target_items ta) + 2)%nat.
Proof.
  unfold target_fuel, target_items. rewrite length_app. pose proof (pieces_items_fuel (ta_name ta)). destruct (ta_args ta) as [| x l]; [unfold sum_fuel; cbn [foldr length]; lia |].
  pose proof (all_items_fuel (x :: l)). unfold in_parens. cbn [length]. rewrite length_app. cbn [length]. lia.
Qed.

Lemma closed_items_fuel pr : (param_fuel pr <= 2 * length (closed_items pr))%nat.
Proof.
  unfold closed_items. rewrite length_app. destruct pr as [var key append vals | tas]; cbn [param_fuel param_items length].
  - pose proof (all_items_fuel vals). lia.
  - pose proof (fuel_sep target_fuel target_items tas target_items_fuel). lia.
Qed.

Lemma sect_items_fuel s : (sect_fuel s <= 2 * length (sect_items s))%nat.
Proof.
  unfold sect_fuel. assert (Hp : (sum_fuel param_fuel (sect_params s) <= 1 + 2 * length (params_items (sect_params s)))%nat).
  { unfold params_items. rewrite length_app. pose proof (fuel_concat param_fuel closed_items (sect_params s) closed_items_fuel). lia. }
  assert (Ha : (sum_fuel argdef_fuel (sect_args s) <= 1 + 2 * length (args_items (sect_args s)))%nat).
  { unfold args_items. destruct (sect_args s) as [| ad ads]; [done |].
    pose proof (fuel_sep argdef_fuel argdef_items (ad :: ads)) as H. unfold in_parens. cbn [length]. rewrite length_app. cbn [length].
    enough (forall x, argdef_fuel x <= 2 * length (argdef_items x) + 2)%nat as Hx by (specialize (H Hx); lia).
    intros x. unfold argdef_fuel, argdef_items. cbn [length]. destruct (ar_default x) as [l |]; [| lia]. pose proof (pieces_items_fuel l). cbn [length]. lia. }
  destruct s as [prs | n ads prs | n prs]; cbn [sect_items sect_params sect_args length] in *; [cbn in Ha; lia | | cbn in Ha; lia].
  rewrite length_app. cbn [length]. lia.
Qed.

Lemma items_text_fuel its : forall m, (length its < length (items_text m its))%nat.
Proof. induction its as [| it its IH]; intros m; cbn; [lia |]. rewrite length_app. specialize (IH (next_mode m (it_tok it))). lia. Qed.

Lemma string_length_of l : String.length (String.string_of_list_ascii l) = length l.
Proof. by rewrite <- chars_length, String.list_ascii_of_string_of_list_ascii. Qed.

(** The recursion of the parser is deep enough for the text. *)
Lemma conf_fuel l : (sum_fuel sect_fuel l <= parse_fuel (conf_text l))%nat.
Proof.
  unfold parse_fuel, conf_text. rewrite string_length_of. pose proof (items_text_fuel (conf_items l) base) as H.
  unfold conf_items in H at 1. rewrite length_app in H. pose proof (fuel_concat sect_fuel sect_items l sect_items_fuel). lia.
Qed.

(** ** The round trip *)

Lemma initial_rules j r : rules !! j = Some r -> active INITIAL r = true -> j = 36%nat /\ ru_re r = any.
Proof. do 37 (destruct j as [| j]; [intros [= <-] Ha; first [discriminate Ha | done] |]). done. Qed.

(** The scanner begins outside of the start conditions, and gives its first character back. *)
Lemma initial_step lx c x fuel st o :
  lx_start lx = INITIAL -> lx_input lx = c :: x -> yylex (S fuel) lx st o = yylex fuel (lx <| lx_start := BASE |>) st o.
Proof.
  intros Hs Hin. destruct lx as [s stk i ln ne lv]. cbn in Hs, Hin. subst s i. cbn [yylex lx_input lx_start].
  assert (E : scan INITIAL (c :: x) = Some (1%nat, Restart)); [| by rewrite E].
  apply (scan_best _ _ 36). split; [eexists; split; [reflexivity | split; [done | split; [apply longest_any | done]]] |].
  intros j r m Hj Ha Hm. destruct (initial_rules j r Hj Ha) as [-> E]. rewrite E, longest_any in Hm. injection Hm as <-. lia.
Qed.

Lemma feeds_initial lx its : lx_start lx = INITIAL -> lx_input lx <> [] -> feeds (lx <| lx_start := BASE |>) its -> feeds lx its.
Proof.
  intros Hs Hin. destruct its as [| it its]; [done |]. intros (H1 & H2 & lx1 & H3 & H4). cbn [feeds].
  split; [done | split; [done |]]. exists lx1. split; [| done]. intros st k o Hk Hp. destruct (H3 st k o Hk Hp) as (st' & E & Hp').
  exists st'. split; [| done]. rewrite <- E. destruct (lx_input lx) as [| c x] eqn:Ei; [done |].
  rewrite <- (initial_step lx c x _ st o Hs Ei). f_equal. unfold lex_fuel. change (lx_input (lx <| lx_start := BASE |>)) with (lx_input lx).
  change (lx_start (lx <| lx_start := BASE |>)) with BASE. rewrite Hs, decide_False, decide_True by done. lia.
Qed.

Lemma conf_read fs file o gv l ctx st :
  forallb sect_ok l = true -> forallb sect_writable l = true ->
  names_new l ctx -> cur_file ctx = Some file ->
  plenty st (total (conf_items l) + sum_cost sect_cost l) ->
  exists ctx' st', yyparse fs o gv (conf_text l) ctx st = Exited 0 ctx' st' /\ cffiles ctx' = cffiles ctx /\
    forall sec, exists vs, sections ctx' sec = sections ctx sec ++ vs /\ Forall2 (section_is file fs) (of_kind sec l) vs.
Proof.
  intros Hok Hw Hnew Hfile Hp.
  assert (Hwr : writes (concat (sect_items <$> l))).
  { apply writes_concat. intros s Hs. apply writes_sect; by eapply forallb_elem. }
  assert (Hfeed : feeds (ps_lx (parser_start (conf_text l) ctx st gv)) (conf_items l)).
  { assert (Hin : lx_input (ps_lx (parser_start (conf_text l) ctx st gv)) = items_text base (conf_items l))
      by (cbn; unfold conf_text; by rewrite String.list_ascii_of_string_of_list_ascii).
    apply feeds_initial; [done | rewrite Hin; unfold conf_items; by destruct (concat _) |].
    by apply (feeds_text _ base []). }
  destruct (conf_accepts file fs l (parse_fuel (conf_text l)) (parser_start (conf_text l) ctx st gv) 0 o) as (ps' & E & Hb & He & _);
    [done | apply conf_fuel | done | done | split; [done | split; [done |]]; left; split_and!; try done; by rewrite Z.add_0_r |].
  destruct (built_sections file fs l _ _ Hb) as [Hc Hs]. exists (ps_ctx ps'), (ps_st ps').
  split; [| by split]. unfold yyparse.
  assert (E0 : yyparse0 fs (parse_fuel (conf_text l)) (parser_start (conf_text l) ctx st gv) o = Done (0, ps') o)
    by (unfold yyparse0, mbind, C_bind; rewrite E; reflexivity).
  rewrite E0, He. reflexivity.
Qed.

(** [C5] Printing and parsing: when the sections [l] are written to a file, with a token on each line, every text between single quotes,
    and blanks in expressions, and there is memory for them, the child ends well; its context then has, behind the
    sections that were there and in the order of the file, exactly the sections of [l], with their parameters, values, arguments and
    expressions, the file as their source and its owner as theirs, and no other file.  The names of the sections are new, and the
    variables of global sections are left out.  Texts that cannot be written so are excluded by [sect_writable]: names and variables
    called apply or include, and numbers other than decimal ones.  The stack of the parser is not bounded. *)
Theorem conf_roundtrip fs file o gv l ctx st :
  forallb sect_ok l = true -> forallb sect_writable l = true ->
  names_new l ctx -> cur_file ctx = Some file ->
  plenty st (total (conf_items l) + sum_cost sect_cost l) ->
  exists ctx' st', yyparse fs o gv (conf_text l) ctx st = Exited 0 ctx' st' /\ cffiles ctx' = cffiles ctx /\
    forall sec, exists vs, sections ctx' sec = sections ctx sec ++ vs /\ Forall2 (section_is file fs) (of_kind sec l) vs.
Proof. apply conf_read. Qed.

(** A file with all kinds of sections and of values. *)
Definition sample_conf : list sect := [
  SGlobal [Assign false "vars_directory" false [[PStr "/var/bmd"]]];
  STemplate "net" [{| ar_name := "bridge"; ar_default := Some [PStr "bridge0"] |}; {| ar_name := "tag"; ar_default := None |}]
    [Assign false "network" true [[PStr "virtio-net:"; PVar "bridge"]]];
  SVm "it's" [Assign true "n" false [[PStr "2"]];
              Assign false "ncpu" false [[PExpr (ABin "*" (AVar "n") (ABin "+" (ANum "1") (ANeg (ANum "0"))))]];
              Apply [{| ta_name := [PStr "net"]; ta_args := [[PStr "bridge1"]; [PVar "ID"]] |}];
              Assign false "disk" false [[PStr "/a"]; [PStr "/b"; PVar "NAME"]]]].

Lemma conf_roundtrip_witness :
  let file := {| f_name := "/etc/bmd.conf"; f_line := 0 |} in
  let ctx := empty_context <| cffiles := [file] |> <| cur_file := Some file |> in
  exists ctx' st', yyparse demo_fs [] (Some ∅) (conf_text sample_conf) ctx sample_pool = Exited 0 ctx' st' /\ cffiles ctx' = cffiles ctx /\
    forall sec, exists vs, sections ctx' sec = sections ctx sec ++ vs /\ Forall2 (section_is file demo_fs) (of_kind sec sample_conf) vs.
Proof.
  intros file ctx. apply conf_roundtrip.
  - vm_compute. reflexivity.
  - vm_compute. reflexivity.
  - intros sec Hs. destruct sec; [done | |]; (split; [constructor | apply (bool_decide_unpack _); vm_compute; reflexivity]).
  - reflexivity.
  - eexists. split; [by left |]. vm_compute. repeat split; discriminate.
Defined.

(** ** Operators *)

(** A file with one difference of three numbers. *)
Definition difference_conf (x y z : string) : list sect :=
  [SVm "v" [Assign false "ncpu" false [[PExpr (ABin "-" (ANum x) (ABin "-" (ANum y) (ANum z)))]]]].

Definition newline : string := String LF EmptyString.

Definition difference_text (x y z : string) : string :=
  newline +:+ "vm" +:+ newline +:+ "'v'" +:+ newline +:+ "{" +:+ newline +:+ "'ncpu'" +:+ newline +:+ "=" +:+ newline +:+
  "$(( " +:+ x +:+ " - " +:+ y +:+ " - " +:+ z +:+ " ))" +:+ newline +:+ ";" +:+ newline +:+ "}" +:+ newline +:+ newline.

Lemma of_chars_app l1 l2 : String.string_of_list_ascii (l1 ++ l2) = String.string_of_list_ascii l1 +:+ String.string_of_list_ascii l2.
Proof. induction l1 as [| c l1 IH]; [done |]. cbn. by rewrite IH. Qed.

Lemma difference_written x y z : difference_text x y z = conf_text (difference_conf x y z).
Proof.
  unfold difference_text, conf_text, newline. cbn. rewrite !of_chars_app, !String.string_of_list_ascii_of_string. cbn.
  rewrite !of_chars_app, !String.string_of_list_ascii_of_string. cbn.
  rewrite ?of_chars_app, ?String.string_of_list_ascii_of_string. reflexivity.
Qed.

(** [C38] A difference of three numbers is read from the right: [x - y - z] has the value x - (y - z).  The manual page says
    that expressions are as in sh(1), where it is (x - y) - z. *)
Theorem difference_groups_right fs file o gv x y z a b c ctx st vars :
  num_ok x = true -> num_ok y = true -> num_ok z = true ->
  number x = Some a -> number y = Some b -> number z = Some c -> in_long (b - c) = true -> in_long (a - (b - c)) = true ->
  names_new (difference_conf x y z) ctx -> cur_file ctx = Some file ->
  plenty st (total (conf_items (difference_conf x y z)) + sum_cost sect_cost (difference_conf x y z)) ->
  exists ctx' st' v p vl tk e,
    yyparse fs o gv (difference_text x y z) ctx st = Exited 0 ctx' st' /\
    cfvms ctx' = cfvms ctx ++ [v] /\ sc_params v = [p] /\ pr_vals p = [vl] /\ vl_tokens vl = [tk] /\ t_expr tk = Some e /\
    forall o, calc_expr (Some vars) e o = Done (Some (a - (b - c))) o.
Proof.
  intros Hx Hy Hz Nx Ny Nz L1 L2 Hn Hf Hp. rewrite difference_written.
  destruct (conf_read fs file o gv (difference_conf x y z) ctx st) as (ctx' & st' & E & _ & Hs); [done | | done | done | done |].
  { unfold difference_conf, sect_writable. cbn -[num_ok]. unfold pieces_writable. cbn -[num_ok]. by rewrite Hx, Hy, Hz. }
  destruct (Hs SECTION_VM) as (vs & Ev & Hvs). cbn in Ev. unfold of_kind in Hvs. cbn in Hvs.
  apply Forall2_cons_inv_l in Hvs as (v & vs' & Hv & Hvs & ->). apply Forall2_nil_inv_l in Hvs as ->.
  pose proof (si_params _ _ _ _ Hv) as Hps. cbn in Hps. apply Forall2_cons_inv_l in Hps as (p & ps & (_ & Hvals & _) & Hps & Ep).
  apply Forall2_nil_inv_l in Hps as ->. apply Forall2_cons_inv_l in Hvals as (vl & vls & [Hts _] & Hvls & El). apply Forall2_nil_inv_l in Hvls as ->.
  apply Forall2_cons_inv_l in Hts as (tk & tks & (_ & _ & _ & Hex & _) & Htks & Et). apply Forall2_nil_inv_l in Htks as ->.
  eexists ctx', st', v, p, vl, tk, _. split_and!; [exact E | done | done | done | done | exact Hex |].
  set (e := ABin "-" (ANum x) (ABin "-" (ANum y) (ANum z))).
  assert (Hfit : Parser.fits vars e = true) by (cbn; rewrite Nx, Ny, Nz; cbn; unfold bin_fits, abin; cbn; by rewrite L1, L2).
  intros o'. destruct (calc_expr_spec vars e eq_refl) as [Hc _]. fold e. rewrite (Hc Hfit o'). cbn. rewrite Nx, Ny, Nz. reflexivity.
Qed.

Lemma difference_groups_right_witness :
  let file := {| f_name := "/etc/bmd.conf"; f_line := 0 |} in
  let ctx := empty_context <| cffiles := [file] |> <| cur_file := Some file |> in
  exists ctx' st' v p vl tk e,
    yyparse demo_fs [] (Some ∅) (difference_text "10" "3" "2") ctx sample_pool = Exited 0 ctx' st' /\
    cfvms ctx' = [v] /\ sc_params v = [p] /\ pr_vals p = [vl] /\ vl_tokens vl = [tk] /\ t_expr tk = Some e /\
    forall o, calc_expr (Some {| v_global := None; v_local := None; v_args := None |}) e o = Done (Some 9) o.
Proof.
  intros file ctx.
  apply (difference_groups_right demo_fs file [] (Some ∅) "10" "3" "2" 10 3 2 ctx sample_pool); try reflexivity.
  - intros sec Hs. destruct sec; [done | |]; (split; [constructor | apply (bool_decide_unpack _); vm_compute; reflexivity]).
  - eexists. split; [by left |]. vm_compute. repeat split; discriminate.
Defined.
