(* ===== verification/Owner.v ===== *)
(** * What the parser may change (src/confparse.y, src/parser.c)

    The text of a file is written by its owner, who need not be trusted.  Whatever it
    contains, the parser changes the context only by adding: sections that carry the owner
    of the file, and files that can be read and were not there. *)

From S2P Require Import Prelude CString Vars Conf Global MPool Plugin ParseValue Parser Load Regex Lexer Grammar Accept.
From Stdlib Require Import Ascii.

Local Open Scope Z_scope.

Section owner.
Context (fs : fsys) (file : cffile).

(** The same section, up to the mark of a duplicate. *)
Definition same_section (v v' : cfsection) : Prop := v <| sc_duplicate := 0 |> = v' <| sc_duplicate := 0 |>.

(** A section of the file. *)
Definition from_file (v : cfsection) : Prop := sc_owner v = file_owner file fs /\ sc_filename v = f_name file.

Record grown (ctx ctx' : parser_context) : Prop := {
  gr_sections sec : exists old new, sections ctx' sec = old ++ new /\ Forall2 same_section (sections ctx sec) old /\ Forall from_file new;
  gr_files : exists new, cffiles ctx' = cffiles ctx ++ new /\ (files_ok fs ctx -> files_ok fs ctx');
  gr_cur : cur_file ctx' = cur_file ctx;
}.

#[export] Instance same_section_refl : Reflexive same_section.
Proof. done. Qed.

#[export] Instance same_section_trans : Transitive same_section.
Proof. intros a b c H1 H2. unfold same_section in *. congruence. Qed.

Lemma same_from_file v v' : same_section v v' -> from_file v -> from_file v'.
Proof. intros H [H1 H2]. injection H. intros. split; congruence. Qed.

#[export] Instance grown_refl : Reflexive grown.
Proof.
  intros ctx. split; [| by exists []; rewrite app_nil_r | done]. intros sec. exists (sections ctx sec), []. rewrite app_nil_r.
  split; [done | split; [| constructor]]. by induction (sections ctx sec); constructor.
Qed.

#[export] Instance grown_trans : Transitive grown.
Proof.
  intros a b c [S1 (f1 & F1 & O1) C1] [S2 (f2 & F2 & O2) C2]. split; [| | congruence].
  - intros sec. destruct (S1 sec) as (o1 & n1 & E1 & H1 & N1), (S2 sec) as (o2 & n2 & E2 & H2 & N2).
    rewrite E1 in H2. apply Forall2_app_inv_l in H2 as (o3 & n3 & H3 & H4 & ->). exists o3, (n3 ++ n2).
    split; [by rewrite E2, app_assoc | split].
    + clear -H1 H3. revert o3 H3. induction H1 as [| x y l k Hxy _ IH]; intros o3 H3; inversion H3; subst; constructor; [by etrans | by apply IH].
    + apply Forall_app. split; [| done]. clear -N1 H4. induction H4 as [| x y l k Hxy _ IH]; [constructor |].
      inversion N1; subst. constructor; [by eapply same_from_file | by apply IH].
  - exists (f1 ++ f2). split; [by rewrite F2, F1, app_assoc | auto].
Qed.

(** A function of the parser that only adds. *)
Definition keeps {A} (p : P A) : Prop :=
  forall ps, cur_file (ps_ctx ps) = Some file -> wp (p ps) (fun '(_, ps') => grown (ps_ctx ps) (ps_ctx ps')) (fun _ => True).

Lemma keeps_ret {A} (a : A) : keeps (mret a).
Proof. intros ps Hc. by apply wp_ret. Qed.

Lemma keeps_bind {A B} (p : P A) (f : A -> P B) : keeps p -> (forall a, keeps (f a)) -> keeps (p ≫= f).
Proof.
  intros Hp Hf ps Hc. apply wp_bind. eapply wp_mono; [by apply Hp | intros [r ps1] H1 | done].
  destruct r as [a | |]; [| by apply wp_ret | by apply wp_ret].
  eapply wp_mono; [apply Hf; by rewrite (gr_cur _ _ H1) | intros [r ps2] H2; by etrans | done].
Qed.

(** A function that leaves the context alone. *)
Lemma keeps_ctx {A} (p : P A) : (forall ps, wp (p ps) (fun '(_, ps') => ps_ctx ps' = ps_ctx ps) (fun _ => True)) -> keeps p.
Proof. intros H ps _. eapply wp_mono; [apply H | intros [r ps'] ->; done | done]. Qed.

Lemma keeps_attempt {A} (p : P A) : keeps p -> keeps (attempt p).
Proof. intros Hp ps Hc. apply wp_bind. eapply wp_mono; [by apply Hp | | done]. intros [[] ps1] H1; by apply wp_ret. Qed.

Lemma keeps_peek : keeps peek.
Proof.
  apply keeps_ctx. intros ps. unfold peek. destruct (ps_char ps); [by apply wp_ret |]. apply wp_bind.
  eapply wp_mono; [apply wp_any | intros [[t lx] st] _; by apply wp_ret | done].
Qed.

Lemma keeps_shift : keeps shift_token.
Proof. apply keeps_ctx. intros ps. by apply wp_ret. Qed.

Lemma keeps_objalloc sz : keeps (objalloc sz).
Proof.
  apply keeps_ctx. intros ps. unfold objalloc. apply wp_bind. eapply wp_mono; [apply wp_any | intros [p st] _; by apply wp_ret | done].
Qed.

Lemma keeps_create_token t s ex : keeps (create_token t s ex).
Proof.
  apply keeps_ctx. intros ps. unfold create_token, objalloc. apply wp_bind, wp_bind.
  eapply wp_mono; [apply wp_any | intros [p st] _; apply wp_ret | done]. destruct p; [| by apply wp_ret]. apply wp_bind.
  eapply wp_mono; [apply wp_any | intros fn _; by apply wp_ret | done].
Qed.

Lemma keeps_lift {A} (c : C A) : keeps (lift c).
Proof. apply keeps_ctx. intros ps. apply wp_bind. eapply wp_mono; [apply wp_any | intros a _; by apply wp_ret | done]. Qed.

Lemma keeps_abort {A} : keeps (abort : P A).
Proof. apply keeps_ctx. intros ps. by apply wp_ret. Qed.

Lemma keeps_syntax_error {A} : keeps (syntax_error : P A).
Proof. apply keeps_ctx. intros ps. by apply wp_ret. Qed.

Lemma keeps_note_error : keeps note_error.
Proof. apply keeps_ctx. intros ps. unfold note_error. apply wp_ret. by destruct (ps_errflag ps =? 0). Qed.

(** One step of a function of the grammar. *)
#[local] Ltac keeps_step :=
  lazymatch goal with
  | |- keeps (mret _) => apply keeps_ret
  | |- keeps (_ ≫= _) => apply keeps_bind; [| intros ?]
  | |- keeps (attempt _) => apply keeps_attempt
  | |- keeps peek => apply keeps_peek
  | |- keeps shift_token => apply keeps_shift
  | |- keeps (objalloc _) => apply keeps_objalloc
  | |- keeps (create_token _ _ _) => apply keeps_create_token
  | |- keeps (lift _) => apply keeps_lift
  | |- keeps abort => apply keeps_abort
  | |- keeps syntax_error => apply keeps_syntax_error
  | |- keeps note_error => apply keeps_note_error
  | |- keeps (if ?b then _ else _) => destruct b
  | |- keeps (match ?x with _ => _ end) => destruct x
  end.

(** A function that has a lemma of its own. *)
Create HintDb keeps discriminated.
#[local] Hint Opaque expect follows p_operand p_expr p_tokens_loop p_tokens p_more p_list p_value p_arg p_target p_name p_param discard
  p_params_loop p_params : keeps.
#[local] Hint Constants Opaque : keeps.

#[local] Ltac keeps_steps := repeat first [assumption | solve [auto 2 with keeps nocore] | keeps_step].

Lemma keeps_expect t : keeps (expect t).
Proof. unfold expect. keeps_steps. Qed.

Lemma keeps_follows l : keeps (follows l).
Proof. unfold follows. keeps_steps. Qed.

#[local] Hint Resolve keeps_expect keeps_follows : keeps.

Lemma keeps_operand sub : keeps sub -> keeps (p_operand sub).
Proof. intros Hs. unfold p_operand, p_leaf, p_negated_leaf. keeps_steps. Qed.

#[local] Hint Resolve keeps_operand : keeps.

Lemma keeps_expr fuel : keeps (p_expr fuel).
Proof. induction fuel as [| fuel IH]; cbn [p_expr]; [apply keeps_lift |]. keeps_steps. Qed.

#[local] Hint Resolve keeps_expr : keeps.

Lemma keeps_tokens fuel : keeps (p_tokens fuel).
Proof.
  assert (H : forall fuel acc, keeps (p_tokens_loop fuel acc)).
  { clear fuel. induction fuel as [| fuel IH]; intros acc; cbn [p_tokens_loop]; [apply keeps_lift |].
    keeps_steps. }
  unfold p_tokens. keeps_steps.
Qed.

#[local] Hint Resolve keeps_tokens : keeps.

Lemma keeps_list {A} fuel (item : P A) close : keeps item -> keeps (p_list fuel item close).
Proof.
  intros Hi. assert (H : forall acc, keeps (p_more fuel item close acc)).
  { induction fuel as [| fuel IH]; intros acc; cbn [p_more]; [apply keeps_lift |]. keeps_steps. }
  unfold p_list. keeps_steps.
Qed.

#[local] Hint Resolve keeps_list : keeps.

Lemma keeps_value fuel : keeps (p_value fuel).
Proof. unfold p_value. keeps_steps. Qed.

#[local] Hint Resolve keeps_value : keeps.

Lemma keeps_arg fuel : keeps (p_arg fuel).
Proof. unfold p_arg. keeps_steps. Qed.

#[local] Hint Resolve keeps_arg : keeps.

Lemma keeps_target fuel : keeps (p_target fuel).
Proof. unfold p_target. keeps_steps. Qed.

#[local] Hint Resolve keeps_target : keeps.

Lemma keeps_name t : keeps (p_name t).
Proof. unfold p_name. keeps_steps. Qed.

#[local] Hint Resolve keeps_name : keeps.

Lemma keeps_param fuel : keeps (p_param fuel).
Proof.
  unfold p_param. apply keeps_bind; [apply keeps_peek | intros t].
  destruct t; try apply keeps_syntax_error;
    keeps_steps.
Qed.

#[local] Hint Resolve keeps_param : keeps.

Lemma keeps_discard fuel : keeps (discard fuel).
Proof.
  induction fuel as [| fuel IH]; cbn [discard]; [apply keeps_lift |]. apply keeps_bind; [apply keeps_peek | intros t].
  keeps_steps. intros ps Hc. eapply wp_mono; [apply IH; exact Hc | intros [r ps'] H; exact H | done].
Qed.

#[local] Hint Resolve keeps_discard : keeps.

Lemma keeps_params fuel : keeps (p_params fuel).
Proof.
  assert (H : forall fuel acc, keeps (p_params_loop fuel acc)).
  { clear fuel. induction fuel as [| fuel IH]; intros acc; cbn [p_params_loop]; [apply keeps_lift |]. unfold recover.
    keeps_steps. }
  unfold p_params. keeps_steps.
Qed.

#[local] Hint Resolve keeps_params : keeps.

(** ** Functions that add to the context *)

Lemma wp_assuming {A} (c : C A) (H : Prop) (Q : A -> Prop) :
  (H -> wp c Q (fun _ => True)) -> wp c (fun a => H -> Q a) (fun _ => True).
Proof. intros Hw o. destruct (c o) as [a o' | f] eqn:E; [| done]. intros HH. specialize (Hw HH o). by rewrite E in Hw. Qed.

Lemma mark_duplicate_same name l : wp (mark_duplicate name l) (Forall2 same_section l) (fun _ => True).
Proof.
  assert (Hr : forall l, Forall2 same_section l l) by (intros k; by induction k; constructor).
  induction l as [| v l IH]; cbn [mark_duplicate]; [apply wp_ret; constructor |].
  apply wp_bind, wp_deref_any. intros n _. destruct (strcmp n name =? 0); [apply wp_ret; by constructor |].
  apply wp_bind. eapply wp_mono; [apply IH | intros l' Hl; apply wp_ret; by constructor | done].
Qed.

Lemma push_file_shape ctx st fn :
  wp (push_file fs ctx st fn) (fun p => exists new, p.1.2 = ctx <| cffiles := cffiles ctx ++ new |>) (fun _ => True).
Proof.
  assert (H0 : exists new, ctx = ctx <| cffiles := cffiles ctx ++ new |>) by (exists []; rewrite app_nil_r; by destruct ctx).
  unfold push_file. destruct (fn ≫= realpath fs) as [path |]; [| by apply wp_ret]. destruct (_ || _); [by apply wp_ret |].
  destruct (existsb _ _); [by apply wp_ret |]. apply wp_bind. eapply wp_mono; [apply wp_any | intros [r st1] _ | done].
  apply wp_bind. eapply wp_mono; [apply wp_any | intros [f st2] _ | done].
  destruct r, f; apply wp_ret; try done. by eexists.
Qed.

Lemma push_file_grown ctx st fn : wp (push_file fs ctx st fn) (fun '(_, ctx', _) => grown ctx ctx') (fun _ => True).
Proof.
  pose proof (push_file_shape ctx st fn) as Hs.
  pose proof (wp_assuming _ _ _ (push_file_spec fs ctx st fn)) as Ho.
  eapply wp_mono; [apply (wp_and _ _ _ _ Hs Ho) | | done]. intros [[rc ctx'] st'] [[new E] Hok]. cbn in E. subst ctx'. split; [| | done].
  - intros sec. exists (sections ctx sec), []. rewrite app_nil_r. split; [by destruct sec | split; [| constructor]].
    by induction (sections ctx sec); constructor.
  - exists new. split; [done |]. intros H. by apply Hok.
Qed.

Lemma keeps_glob_path ts : keeps (run_glob_path fs ts).
Proof.
  intros ps _. unfold run_glob_path. apply wp_bind.
  eapply (wp_mono _ (fun p => grown (ps_ctx ps) p.1)); [| intros [ctx st] H; by apply wp_ret | done].
  unfold glob_path. cbn zeta. destruct (head ts) as [tk |]; [| by apply wp_ret]. apply wp_bind.
  eapply wp_mono; [apply wp_any | intros [path |] _ | done]; [| by apply wp_ret]. apply wp_bind.
  eapply wp_mono; [apply wp_any | intros path' _ | done]. destruct (glob fs path') as [l |]; [| by apply wp_ret].
  apply (wp_foreach _ l (fun p => grown (ps_ctx ps) p.1)); [done |]. intros p [ctx st] _ H. apply wp_bind.
  eapply wp_mono; [apply push_file_grown | intros [[rc ctx'] st'] H'; apply wp_ret; by etrans | done].
Qed.

Lemma grown_section ctx sec l v :
  Forall2 same_section (sections ctx sec) l -> from_file v -> grown ctx (with_sections ctx sec (l ++ [v])).
Proof.
  intros Hl Hv. split; [| exists []; rewrite app_nil_r; by destruct sec | by destruct sec]. intros sec'.
  assert (Hr : forall k, Forall2 same_section k k) by (intros k; by induction k; constructor).
  destruct (decide (sec = sec')) as [<- | N].
  - exists l, [v]. rewrite sections_with. split; [done | split; [done | by constructor]].
  - exists (sections ctx sec'), []. rewrite app_nil_r, sections_other by done. split; [done | split; [apply Hr | constructor]].
Qed.

Lemma grown_marked ctx sec l : Forall2 same_section (sections ctx sec) l -> grown ctx (with_sections ctx sec l).
Proof.
  intros Hl. split; [| exists []; rewrite app_nil_r; by destruct sec | by destruct sec]. intros sec'.
  assert (Hr : forall k, Forall2 same_section k k) by (intros k; by induction k; constructor).
  destruct (decide (sec = sec')) as [<- | N].
  - exists l, []. rewrite sections_with, app_nil_r. split; [done | split; [done | constructor]].
  - exists (sections ctx sec'), []. rewrite app_nil_r, sections_other by done. split; [done | split; [apply Hr | constructor]].
Qed.

(** A new section carries the owner of the file that is read. *)
Lemma keeps_new_section sec name ads prs : keeps (new_section fs sec name ads prs).
Proof.
  intros ps Hcur. unfold new_section, add_section. apply wp_bind, wp_bind.
  eapply (wp_mono _ (Forall2 same_section (sections (ps_ctx ps) sec))); [| intros l Hl | done].
  { assert (Hr : Forall2 same_section (sections (ps_ctx ps) sec) (sections (ps_ctx ps) sec)) by (by induction (sections (ps_ctx ps) sec); constructor).
    destruct name as [n |]; [| by apply wp_ret]. destruct sec; [by apply wp_ret | apply mark_duplicate_same..]. }
  cbn zeta. apply wp_bind. eapply wp_mono; [apply wp_any | intros [[p |] st] _ | done]; [| apply wp_ret; apply wp_ret; by apply grown_marked].
  assert (Hc : cur_file (with_sections (ps_ctx ps) sec l) = Some file) by (by rewrite with_cur).
  unfold peek_fileowner, peek_filename. rewrite Hc. repeat apply wp_bind, wp_ret. apply wp_ret. apply wp_ret. cbn [ps_ctx].
  rewrite sections_with, with_with, set_last_app, with_with. by apply grown_section.
Qed.

Lemma keeps_global_vars : keeps run_apply_global_vars.
Proof.
  apply keeps_ctx. intros ps. unfold run_apply_global_vars. apply wp_bind. eapply wp_mono; [apply wp_any | intros sc _ | done].
  apply wp_bind. eapply wp_mono; [apply wp_any | intros [rc gv] _; by apply wp_ret | done].
Qed.

#[local] Hint Resolve keeps_glob_path keeps_new_section keeps_global_vars : keeps.
#[local] Hint Opaque run_glob_path new_section run_apply_global_vars p_argdef p_section_name p_global p_tmpl p_vm p_include p_conf : keeps.

Lemma keeps_argdef fuel : keeps (p_argdef fuel).
Proof. unfold p_argdef. keeps_steps. Qed.

Lemma keeps_section_name : keeps p_section_name.
Proof. unfold p_section_name. keeps_steps. Qed.

#[local] Hint Resolve keeps_argdef keeps_section_name : keeps.

Lemma keeps_global fuel : keeps (p_global fs fuel).
Proof. unfold p_global. keeps_steps. Qed.

Lemma keeps_tmpl fuel : keeps (p_tmpl fs fuel).
Proof. unfold p_tmpl. keeps_steps. Qed.

Lemma keeps_vm fuel : keeps (p_vm fs fuel).
Proof. unfold p_vm. keeps_steps. Qed.

Lemma keeps_include fuel : keeps (p_include fs fuel).
Proof. unfold p_include. keeps_steps. Qed.

#[local] Hint Resolve keeps_global keeps_tmpl keeps_vm keeps_include : keeps.

Lemma keeps_conf fuel : keeps (p_conf fs fuel).
Proof.
  induction fuel as [| fuel IH]; cbn [p_conf]; [apply keeps_lift |]. keeps_steps.
Qed.

End owner.

(** Whatever a file contains, the parser only adds to the context: every section that was there before stays as it is, up
    to the mark of a duplicate; every new section carries the owner and the name of the file that is read; and the files that
    are added can be read, are not below /dev, and none is there twice. *)
Lemma yyparse_grown fs file o gv text ctx st status ctx' st' :
  cur_file ctx = Some file -> yyparse fs o gv text ctx st = Exited status ctx' st' -> grown fs file ctx ctx'.
Proof.
  intros Hcur. unfold yyparse, yyparse0, mbind, C_bind.
  pose proof (keeps_conf fs file (parse_fuel text) (parser_start text ctx st gv) Hcur o) as H.
  destruct (p_conf fs (parse_fuel text) (parser_start text ctx st gv) o) as [[r ps] o' | f]; [| by destruct f]. cbn in H.
  destruct r; cbn; intros [= _ <- _]; try done. unfold note_error. by destruct (ps_errflag ps =? 0).
Qed.

(** ** Loading *)

(** What the loader relies on: a parser whose sections belong to the owner of the file. *)
Class CarriesOwner (fs : fsys) (yyparse : yyparser) : Prop :=
  carries_owner file text ctx st status ctx' st' :
    cur_file ctx = Some file -> yyparse text ctx st = Exited status ctx' st' -> grown fs file ctx ctx'.

(** The parser of the grammar, with the answers of the allocator in the child and the variables that it inherits. *)
Definition conf_parser (fs : fsys) (answers : string -> oracle) (gv : option (gmap string string)) : yyparser :=
  fun text ctx st => yyparse fs (answers text) gv text ctx st.

#[export] Instance conf_parser_owner fs answers gv : CarriesOwner fs (conf_parser fs answers gv).
Proof. intros file text ctx st status ctx' st'. apply yyparse_grown. Qed.

Section loading.
Context (fs : fsys) (yyparse : yyparser) `{!CarriesOwner fs yyparse}.

(** The section stands in the file: the parser adds it when it reads the text of the file. *)
Definition written_in (sec : SECTION) (f : cffile) (v : cfsection) : Prop :=
  exists s text ctx st status ctx' st' old new v0,
    stat fs (f_name f) = Some s /\ open_as fs (st_uid s) (st_gid s) (f_name f) = Some text /\
    yyparse text ctx st = Exited status ctx' st' /\ sections ctx' sec = old ++ new /\
    Forall2 same_section (sections ctx sec) old /\ v0 ∈ new /\ same_section v0 v.

Lemma same_written sec f v v' : same_section v v' -> written_in sec f v -> written_in sec f v'.
Proof.
  intros Hs (s & text & ctx & st & status & ctx' & st' & old & new & v0 & H).
  exists s, text, ctx, st, status, ctx', st', old, new, v0. destruct_and!. split_and!; try done. by etrans.
Qed.

(** Every section belongs to the owner of the file that it was written in. *)
Definition owned (ctx : parser_context) : Prop :=
  forall sec, Forall (fun v => exists f, f ∈ cffiles ctx /\ written_in sec f v /\ sc_owner v = file_owner f fs /\ sc_filename v = f_name f)
                (sections ctx sec).

Lemma grown_owned s file text ctx st status ctx' st' :
  file ∈ cffiles ctx -> stat fs (f_name file) = Some s -> open_as fs (st_uid s) (st_gid s) (f_name file) = Some text ->
  yyparse text ctx st = Exited status ctx' st' -> grown fs file ctx ctx' -> owned ctx -> owned ctx'.
Proof.
  intros Hf Hst Htext Hy [Hs (more & Hc & _) _] Ho sec. destruct (Hs sec) as (old & new & E & Hold & Hnew). rewrite E. apply Forall_app. split.
  - specialize (Ho sec). clear -Hold Ho Hc. induction Hold as [| v v' l l' Hv _ IH]; [constructor |].
    inversion Ho as [| ? ? (f & Hf & Hw & H1 & H2) Hl]; subst. constructor; [| by apply IH]. exists f. rewrite Hc.
    split; [apply elem_of_app; by left | split; [by eapply same_written |]]. injection Hv. intros. split; congruence.
  - apply Forall_forall. intros v Hv. pose proof (proj1 (Forall_forall _ _) Hnew v Hv) as [H1 H2]. exists file. rewrite Hc.
    split; [apply elem_of_app; by left | split; [| done]]. exists s, text, ctx, st, status, ctx', st', old, new, v. by split_and!.
Qed.

Lemma child_owned file ctx st status ctx' st' :
  cur_file ctx = Some file -> file ∈ cffiles ctx -> owned ctx -> child fs yyparse file ctx st = Exited status ctx' st' -> owned ctx'.
Proof.
  unfold child. intros Hc Hf Ho H. destruct (stat fs (f_name file)) as [s |] eqn:Es; [| by injection H as _ <- _].
  destruct (st_isreg s); cbn [negb] in H; [| by injection H as _ <- _].
  destruct (open_as fs (st_uid s) (st_gid s) (f_name file)) as [text |] eqn:Et; [| by injection H as _ <- _].
  eapply (grown_owned s file text); try done. by eapply carries_owner.
Qed.

Lemma parse_owned file : forall mms ctx st, file ∈ cffiles ctx -> owned ctx ->
  wp (parse fs yyparse mms file ctx st) (fun '(_, ctx', _, _) => owned ctx') (fun _ => True).
Proof.
  induction mms as [| m mms IH]; intros ctx st Hf Ho; cbn [parse];
    (apply wp_bind, wp_malloc; intros []; cbn [negb]; [| by apply wp_ret]);
    (destruct (child fs yyparse file (ctx <| cur_file := Some file |>) (mpool_snapshot st)) as [status ctx' st' | |] eqn:Ec;
       [| by apply wp_ret | by apply wp_crash]);
    (assert (Ho' : owned ctx') by (revert Ec; apply child_owned; done));
    (destruct (status =? 0); [by apply wp_ret |]); (destruct (mpool_get_error st'); [by apply wp_ret | | by apply wp_ret]);
    repeat (apply wp_bind; eapply wp_mono; [apply wp_any | intros _ _ | done]); [by apply wp_crash |].
  apply wp_bind. eapply wp_mono; [apply wp_any | intros [rc st2] _ | done]. destruct (rc <? 0); [by apply wp_ret | by apply IH].
Qed.

Lemma parse_files_owned fuel : forall mms i ctx st, owned ctx ->
  wp (parse_files fs yyparse fuel mms i ctx st) (fun '(_, ctx', _) => owned ctx') (fun _ => True).
Proof.
  induction fuel as [| fuel IH]; intros mms i ctx st Ho; cbn [parse_files];
    (destruct (cffiles ctx !! i) as [file |] eqn:Ei; [| by apply wp_ret]); [by apply wp_crash |].
  apply list_elem_of_lookup_2 in Ei. apply wp_bind. eapply wp_mono; [by apply parse_owned | intros [[[rc ctx'] st'] mms'] Ho' | done].
  destruct (rc <? 0); [by apply wp_ret | by apply IH].
Qed.

Lemma load_context_owned fuel m0 mms config :
  wp (load_context fs yyparse fuel m0 mms config) (fun r => forall ctx gv, r = Some (ctx, gv) -> owned ctx) (fun _ => True).
Proof.
  unfold load_context. apply wp_bind. eapply wp_mono; [apply wp_any | intros [rc st] _ | done].
  destruct (rc <? 0); [by apply wp_ret |]. do 2 (apply wp_bind; eapply wp_mono; [apply wp_any | intros [? ?] _ | done]).
  destruct o; [| by apply wp_ret]. destruct o0; [| by apply wp_ret].
  do 2 (apply wp_bind; eapply wp_mono; [apply wp_any | intros ? _ | done]). destruct (_ || _); [by apply wp_ret |].
  apply wp_bind. eapply wp_mono; [apply wp_any | intros [rc1 gv1] _ | done].
  apply wp_bind. eapply wp_mono; [apply push_file_shape | intros [[rc2 ctx] st3] [new Hg] | done].
  cbn in Hg. assert (Ho : owned ctx) by (subst ctx; intros []; constructor).
  destruct (rc2 <? 0); [by apply wp_ret |]. apply wp_bind.
  eapply wp_mono; [by apply parse_files_owned | intros [[rc3 ctx'] st4] Ho' | done]. destruct (rc3 <? 0); [by apply wp_ret |].
  apply wp_ret. intros ctx2 gv2. destruct (check_duplicate (cftemplates ctx') =? 0); [by intros [= <- _] | done].
Qed.

End loading.

(** [C6] Whatever the files contain, and however they include each other, each section that the daemon reads carries the
    owner of the file it was written in, which is one of the files that were read: it is the text of that very file, opened
    with the user and the group of its owner, from which the parser makes the section.  The scanner, the parser and the
    loader together let no text claim another owner. *)
Theorem loaded_sections_owned fs answers gv fuel m0 mms config :
  wp (load_context fs (conf_parser fs answers gv) fuel m0 mms config)
     (fun r => forall ctx gv', r = Some (ctx, gv') -> owned fs (conf_parser fs answers gv) ctx) (fun _ => True).
Proof. apply load_context_owned, _. Qed.

(** A file of Alice names root as the owner of its VM, and is not free of errors. *)
Example forged_owner :
  let file := {| f_name := "/home/alice/vm.conf"; f_line := 0 |} in
  let ctx := empty_context <| cffiles := [file] |> <| cur_file := Some file |> in
  match yyparse demo_fs [] (Some ∅) "vm a { owner = root; ncpu 2; } .include /home/bob/vm.conf; vm b { }" ctx sample_pool with
  | Exited status ctx' _ => (status, sc_owner <$> cfvms ctx', f_name <$> cffiles ctx')
  | Signaled | Hung => (0, [], [])
  end = (1, [1001; 1001], ["/home/alice/vm.conf"; "/home/bob/vm.conf"]).
Proof. vm_compute. reflexivity. Qed.

(** ** From the text to the VMs *)

Definition site_text (path : string) : string :=
  if String.eqb path "/etc/bmd.conf" then
    "template t(a = zzz, b) { disk = nvme:$a; err_logfile = /var/log/$NAME.log; }
     .include /home/alice/vm.conf;"
  else
    "# the machine of Alice
     vm test { $n = 3; ncpu = $((1 + $n)); memory = 2G; loader = 'uefi'; .apply t(/dev/$NAME), t; owner = bob, alice:staff; }".

Definition site_fs : fsys := {|
  realpath := realpath demo_fs; access_r := access_r demo_fs; stat := stat demo_fs;
  open_as := fun uid gid p => Some (site_text p); dirname := dirname demo_fs; glob := glob demo_fs;
|}.

(** The scanner, the parser and the evaluation together: the template of root's file is applied in the file of Alice. *)
Example site_load :
  match load_config_file tt demo_db site_fs (conf_parser site_fs (fun _ => []) (Some ∅)) (fun _ => Some []) 3 65536 []
          demo_globals (Some []) true [] with
  | Done (rc, Some [e], g) _ =>
      (rc, vc_name (ce_conf e), get_owner (ce_conf e), vc_group (ce_conf e), vc_ncpu (ce_conf e), vc_memory (ce_conf e), vc_loader (ce_conf e),
       stq_items (vc_disks (ce_conf e)), vc_err_logfile (ce_conf e))
      = (0, Some "test", 1001, 20, Some "4", Some "2G", Some "uefi",
         [{| d_type := Some "nvme"; d_path := Some "/dev/test" |}], Some "/var/log/test.log")
  | _ => False
  end.
Proof. vm_compute. reflexivity. Qed.
