(* ===== verification/Halting.v ===== *)
(** * The parser ends (src/conflex.l, src/confparse.y)

    A measure for the functions of the grammar: twice the length of the input, and one for a
    token that was read and not used.  Every call that goes around uses a token
    before, so the fuel of Grammar.v is enough.  The theorem is about texts without
    double quotes, whatever the memory; with them there is a way never to end, which is the second
    theorem. *)

From S2P Require Import Prelude CString Vars Conf Global MPool Plugin ParseValue Parser Load Regex Lexer Grammar.
From Stdlib Require Import Ascii.

Local Open Scope Z_scope.

(** ** The scanner outside of double quotes *)

Record quoteless (lx : lexer) : Prop := {
  ql_input : dquote ∉ lx_input lx;
  ql_start : lx_start lx <> DQ;
  ql_stack : DQ ∉ lx_stack lx;
}.

Lemma quoteless_same lx lx' :
  lx_input lx' = lx_input lx -> lx_start lx' = lx_start lx -> lx_stack lx' = lx_stack lx -> quoteless lx -> quoteless lx'.
Proof. intros E1 E2 E3 []. split; by rewrite ?E1, ?E2, ?E3. Qed.

(** A string in double quotes begins with one. *)
Lemma quoted_rule s r yytext :
  r ∈ rules -> active s r = true -> s <> DQ -> ru_action r = Quoted -> matches (ru_re r) yytext -> dquote ∈ yytext.
Proof.
  intros Hr Ha Hs Hq Hm. apply list_elem_of_lookup in Hr as [j Hj].
  assert (E : ru_re r = (Cat (Cat (chr dquote) in_quotes) (chr dquote))).
  { revert Hj. do 37 (destruct j as [| j]; [intros [= <-]; try discriminate Hq; try reflexivity; by destruct s |]). done. }
  rewrite E in Hm. apply matches_cat_inv in Hm as (s1 & s2 & -> & _ & H2). unfold chr in H2. inversion H2 as [| p c Hc | | | | |]; subst.
  apply Ascii.eqb_eq in Hc as <-. apply elem_of_app. right. by left.
Qed.

Lemma text2lval_lexer yytext triml trimr tovar lx st :
  wp (text2lval yytext triml trimr tovar lx st)
     (fun p => lx_input p.1.2 = lx_input lx /\ lx_start p.1.2 = lx_start lx /\ lx_stack p.1.2 = lx_stack lx) (fun _ => True).
Proof.
  unfold text2lval. cbn zeta. apply wp_bind. eapply wp_mono; [apply wp_any | intros [[p |] st'] _ | done]; [| by apply wp_ret].
  apply wp_bind. eapply wp_mono; [apply wp_any | intros [[r buf] lineno] _; by apply wp_ret | done].
Qed.

Lemma act_quoteless r yytext lx st :
  r ∈ rules -> active (lx_start lx) r = true -> matches (ru_re r) yytext -> dquote ∉ yytext -> quoteless lx ->
  wp (run_action (ru_action r) yytext lx st) (fun p => quoteless p.1.2) (fun _ => True).
Proof.
  intros Hr Ha Hm Hd Hq. pose proof Hq as [Hi Hs Hst]. pose proof (rules_ok _ r Hr Ha) as [_ Hok]%andb_true_iff.
  destruct (ru_action r) as [| t | | t triml trimr | s t | s | t | | | | | | |] eqn:Ea; cbn [run_action]; try (by apply wp_ret);
    try (by apply wp_ret; apply (quoteless_same lx)).
  - apply wp_bind. eapply wp_mono; [apply text2lval_lexer | intros [[x lx'] st'] (E1 & E2 & E3) | done]. apply wp_ret.
    by apply (quoteless_same lx).
  - apply wp_ret. apply andb_true_iff in Hok as [_ Hs'%bool_decide_eq_true]. subst s. split; cbn; [done | done |].
    rewrite elem_of_cons. intros [E | E]; [by destruct Hs | done].
  - apply wp_ret. apply andb_true_iff in Hok as [[_ Hs'%bool_decide_eq_true]%andb_true_iff _]. subst s. split; cbn; [done | done |].
    rewrite elem_of_cons. intros [E | E]; [by destruct Hs | done].
  - apply wp_bind. unfold yy_pop_state. destruct (lx_stack lx) as [| s l] eqn:El; [by apply wp_crash |]. apply wp_ret, wp_ret.
    rewrite elem_of_cons in Hst. split; cbn; [done | intros ->; tauto | tauto].
  - apply wp_bind. unfold yy_pop_state. destruct (lx_stack lx) as [| s l] eqn:El; [by apply wp_crash |]. apply wp_ret, wp_ret.
    rewrite elem_of_cons in Hst. split; cbn; [done | intros ->; tauto | tauto].
  - exfalso. apply Hd. by eapply quoted_rule.
  - apply wp_ret. split; cbn; [| done | done]. rewrite elem_of_app. tauto.
Qed.

Lemma yylex_quoteless fuel : forall lx st, quoteless lx -> wp (yylex fuel lx st) (fun p => quoteless p.1.2) (fun _ => True).
Proof.
  induction fuel as [| fuel IH]; intros lx st Hq; cbn [yylex]; (destruct (lx_input lx) as [| c l] eqn:E; [by apply wp_ret |]);
    [by apply wp_crash |].
  destruct (scan_some (lx_start lx) c l) as (n & a & r & Hs & Hr & Ha & Hact & Hn & Hm). rewrite Hs. apply wp_bind.
  destruct Hq as [Hi Hst Hstk]. rewrite E in Hi.
  assert (Hd : (dquote ∉ take n (c :: l)) /\ (dquote ∉ drop n (c :: l))).
  { rewrite <- (take_drop n (c :: l)), elem_of_app in Hi. tauto. }
  destruct Hd as [Hd1 Hd2]. rewrite <- Hact. set (lx1 := lx <| lx_input := drop n (c :: l) |>).
  assert (Hq1 : quoteless lx1) by (split; cbn; done).
  eapply wp_mono; [apply (act_quoteless r _ lx1 st Hr Ha Hm Hd1 Hq1) | intros [[[t |] lx2] st2] H2 | done];
    [by apply wp_ret | by apply IH].
Qed.

(** ** The measure *)

Definition pending (t : option token) : nat := match t with None | Some YYEOF => 0 | Some _ => 1 end.

Definition left_over (ps : pstate) : nat := 2 * length (lx_input (ps_lx ps)) + pending (ps_char ps).

Record sound (ps : pstate) : Prop := {
  so_lex : LexOK (ps_lx ps);
  so_quotes : quoteless (ps_lx ps);
  so_pools : mpools (ps_st ps) <> [];
}.

(** When less than [b] is left, [p] ends, and leaves less if [s]. *)
Definition outcome_ok {A} (ps : pstate) (s : bool) (x : presult A * pstate) : Prop :=
  sound x.2 /\
  match x.1 with
  | Ok _ => (left_over x.2 + Nat.b2n s <= left_over ps)%nat
  | SynErr => (left_over x.2 <= left_over ps)%nat
  | Abort => True
  end.

Definition ends {A} (b : nat) (s : bool) (p : P A) : Prop :=
  forall ps, sound ps -> (left_over ps < b)%nat -> wp (p ps) (outcome_ok ps s) (fun f => f <> OutOfFuel).

(** The same when [t] was read and not used. *)
Definition ends_at {A} (t : token) (b : nat) (s : bool) (p : P A) : Prop :=
  forall ps, sound ps -> ps_char ps = Some t -> (left_over ps < b)%nat -> wp (p ps) (outcome_ok ps s) (fun f => f <> OutOfFuel).

Lemma ends_mono {A} b b' s s' (p : P A) : ends b s p -> (b' <= b)%nat -> implb s' s = true -> ends b' s' p.
Proof.
  intros H Hb Hs ps Hps Hl. eapply wp_mono; [apply H; [done | lia] | | done]. intros [r ps'] [H1 H2]. split; [done |].
  destruct r; try done. destruct s, s'; try done; cbn [fst snd Nat.b2n] in *; lia.
Qed.

Lemma ends_weak {A} b s (p : P A) : ends b s p -> ends b false p.
Proof. intros H. by apply (ends_mono b b s false). Qed.

Lemma ends_any {A} t b s (p : P A) : ends b s p -> ends_at t b s p.
Proof. intros H ps Hps _ Hl. by apply H. Qed.

Lemma ends_at_weak {A} t b s (p : P A) : ends_at t b s p -> ends_at t b false p.
Proof.
  intros H ps Hps Hc Hl. eapply wp_mono; [by apply H | | done]. intros [r ps'] [H1 H2]. split; [done |].
  destruct r; try done. destruct s; cbn [fst snd Nat.b2n] in *; lia.
Qed.

Lemma ends_ret {A} b (a : A) : ends b false (mret a).
Proof. intros ps Hps Hl. apply wp_ret. split; [done |]. cbn [fst snd Nat.b2n]. lia. Qed.

Lemma ends_abort {A} b s : ends b s (abort : P A).
Proof. intros ps Hps Hl. apply wp_ret. by split. Qed.

Lemma ends_syntax_error {A} b s : ends b s (syntax_error : P A).
Proof. intros ps Hps Hl. apply wp_ret. split; [done |]. cbn [fst snd Nat.b2n]. lia. Qed.

(** A function, then another one. *)
Lemma ends_bind {A B} b s (p : P A) (f : A -> P B) : ends b false p -> (forall a, ends b s (f a)) -> ends b s (p ≫= f).
Proof.
  intros Hp Hf ps Hps Hl. apply wp_bind. eapply wp_mono; [by apply Hp | intros [r ps1] [H1 H2] | done]. cbn [fst snd Nat.b2n] in *.
  destruct r as [a | |]; [| by apply wp_ret; split | by apply wp_ret; split].
  eapply wp_mono; [apply (Hf a ps1 H1); lia | | done]. intros [r ps2] [H3 H4]. split; [done |]. destruct r; cbn [fst snd Nat.b2n] in *; try done; lia.
Qed.

(** What comes after a function that has used a token needs less. *)
Lemma ends_bind_used {A B} b s (p : P A) (f : A -> P B) : ends (S b) true p -> (forall a, ends b s (f a)) -> ends (S b) true (p ≫= f).
Proof.
  intros Hp Hf ps Hps Hl. apply wp_bind. eapply wp_mono; [by apply Hp | intros [r ps1] [H1 H2] | done]. cbn [fst snd Nat.b2n] in *.
  destruct r as [a | |]; [| by apply wp_ret; split | by apply wp_ret; split].
  eapply wp_mono; [apply (Hf a ps1 H1); lia | | done]. intros [r ps2] [H3 H4]. split; [done |]. destruct r; cbn [fst snd Nat.b2n] in *; try done; destruct s; cbn [fst snd Nat.b2n] in *; lia.
Qed.

Lemma ends_peek {B} b s (f : token -> P B) : (forall t, ends_at t b s (f t)) -> ends b s (peek ≫= f).
Proof.
  intros Hf ps Hps Hl. apply wp_bind. unfold peek. destruct (ps_char ps) as [t |] eqn:Ec; [apply wp_ret; by apply Hf |].
  apply wp_bind. destruct Hps as [H1 H2 H3].
  eapply wp_mono; [apply (wp_and _ (lexed (ps_lx ps) (ps_st ps)) (fun p => quoteless p.1.2) (fun f => f <> OutOfFuel)) | | done].
  - eapply wp_mono; [by apply yylex_safe | done | by intros ? []].
  - intros o. pose proof (yylex_safe _ (ps_lx ps) (ps_st ps) H1 H3 (le_n _) o) as Hs. pose proof (yylex_quoteless (lex_fuel (ps_lx ps)) _ (ps_st ps) H2 o) as Hq.
    destruct (yylex _ _ _ o); [exact Hq | by destruct Hs].
  - intros [[t lx] st] [(Hlx & Hk & Ht) Hq]. cbn [fst snd] in *. apply wp_ret.
    set (ps1 := ps <| ps_lx := lx |> <| ps_st := st |> <| ps_char := Some (token_value t) |>).
    assert (Hle : (left_over ps1 <= left_over ps)%nat).
    { unfold left_over. rewrite Ec. change (lx_input (ps_lx ps1)) with (lx_input lx). change (ps_char ps1) with (Some (token_value t)).
      destruct Ht as [[-> [-> | [taken ->]]] | [_ [Ht | (_ & _ & Hd)]]];
        [cbn; lia | rewrite length_app; cbn; lia | | by destruct (ql_start _ Hq)].
      destruct (token_value t); cbn; lia. }
    assert (Hs1 : sound ps1) by (split; [done | done | apply Hk]).
    eapply wp_mono; [apply (Hf _ ps1 Hs1 eq_refl); lia | | done]. intros [r ps2] [H4 H5]. split; [done |]. destruct r; cbn [fst snd Nat.b2n] in *; try done; lia.
Qed.

Lemma ends_shift {B} t b s (f : option string -> P B) : t <> YYEOF -> (forall v, ends b s (f v)) -> ends_at t (S b) true (shift_token ≫= f).
Proof.
  intros Ht Hf ps [H1 H2 H3] Hc Hl. apply wp_bind. unfold shift_token. apply wp_ret.
  set (ps1 := ps <| ps_char := None |> <| ps_errflag := if 0 <? ps_errflag ps then ps_errflag ps - 1 else ps_errflag ps |>).
  assert (Hlt : (left_over ps1 + 1 <= left_over ps)%nat).
  { unfold left_over. rewrite Hc. change (lx_input (ps_lx ps1)) with (lx_input (ps_lx ps)). change (ps_char ps1) with (@None token).
    destruct t; try done; cbn; lia. }
  assert (Hs1 : sound ps1) by (by split).
  eapply wp_mono; [apply (Hf _ ps1 Hs1); lia | | done]. intros [r ps2] [H4 H5]. split; [done |]. destruct r; cbn [fst snd Nat.b2n] in *; try done; destruct s; cbn [fst snd Nat.b2n] in *; lia.
Qed.

(** A function that leaves the scanner and the token alone, and whose pools stay. *)
Lemma ends_quiet {A} b (p : P A) :
  (forall ps, mpools (ps_st ps) <> [] ->
     wp (p ps) (fun x => lx_start (ps_lx x.2) = lx_start (ps_lx ps) /\ lx_stack (ps_lx x.2) = lx_stack (ps_lx ps) /\
                         lx_input (ps_lx x.2) = lx_input (ps_lx ps) /\ ps_char x.2 = ps_char ps /\ mpools (ps_st x.2) <> [])
        (fun f => f <> OutOfFuel)) -> ends b false p.
Proof.
  intros H ps [H1 H2 H3] Hl. eapply wp_mono; [by apply H | intros [r ps'] (E1 & E2 & E3 & E4 & E5) | done]. cbn [fst snd] in *.
  split; [split; [by apply (LexOK_same (ps_lx ps)) | by apply (quoteless_same (ps_lx ps)) | done] |].
  assert (left_over ps' = left_over ps) by (unfold left_over; by rewrite E3, E4). destruct r; cbn [fst snd Nat.b2n]; try done; lia.
Qed.

Lemma wp_alloc_pools st sz : mpools st <> [] -> wp (mpool_alloc st sz) (fun p => mpools p.2 <> []) (fun f => f <> OutOfFuel).
Proof. intros H. eapply wp_mono; [by apply mpool_alloc_bases | by intros p (_ & Hn & _) | by intros ? []]. Qed.

Lemma ends_objalloc b sz : ends b false (objalloc sz).
Proof.
  apply ends_quiet. intros ps H. unfold objalloc. apply wp_bind. eapply wp_mono; [by apply wp_alloc_pools | intros [p st] Hst | done].
  by apply wp_ret.
Qed.

Lemma ends_create_token b t s ex : ends b false (create_token t s ex).
Proof.
  apply ends_quiet. intros ps H. unfold create_token, objalloc. apply wp_bind, wp_bind.
  eapply wp_mono; [by apply wp_alloc_pools | intros [p st] Hst | done]. apply wp_ret. destruct p; [| by apply wp_ret]. apply wp_bind.
  unfold peek_filename. destruct (cur_file _); [apply wp_ret; by apply wp_ret |]. apply wp_bind.
  eapply wp_mono; [apply nofuel_deref | intros f _; apply wp_ret; by apply wp_ret | done].
Qed.

Lemma ends_note_error b : ends b false note_error.
Proof. apply ends_quiet. intros ps H. unfold note_error. apply wp_ret. by destruct (ps_errflag ps =? 0). Qed.

Lemma ends_expect b t : t <> YYEOF -> ends (S b) true (expect t).
Proof.
  intros Ht. apply ends_peek. intros t'. destruct (decide (t' = t)) as [-> | _].
  - apply (ends_shift t b false); [done |]. intros v. apply ends_ret.
  - apply ends_any, ends_syntax_error.
Qed.

Lemma ends_follows {B} b s l (f : token -> P B) : (forall t, t ∈ l -> ends_at t b s (f t)) -> ends b s (follows l ≫= f).
Proof.
  intros Hf. assert (E : forall ps o, (follows l ≫= f) ps o = (t ← peek; if decide (t ∈ l) then f t else syntax_error) ps o).
  { intros ps o. unfold follows, mbind, P_bind, mbind, C_bind. destruct (peek ps o) as [[[t | |] ps1] o1 |]; try done. by destruct (decide (t ∈ l)). }
  assert (H : ends b s (t ← peek; if decide (t ∈ l) then f t else syntax_error)).
  { apply ends_peek. intros t. destruct (decide (t ∈ l)); [by apply Hf | apply ends_any, ends_syntax_error]. }
  intros ps Hps Hl o. rewrite E. exact (H ps Hps Hl o).
Qed.

Lemma ends_follows_last b l : ends b false (follows l).
Proof. apply ends_peek. intros t. apply ends_any. destruct (decide (t ∈ l)); [apply ends_ret | apply ends_syntax_error]. Qed.

(** ** The functions of the grammar *)

Lemma ends_leaf t b ty : t <> YYEOF -> ends_at t (S b) true (p_leaf ty).
Proof.
  intros Ht. apply (ends_shift t b false); [done |]. intros [v |]; [| apply ends_abort]. apply ends_bind; [apply ends_objalloc | intros _; apply ends_ret].
Qed.

Lemma ends_negated_leaf t b ty : t <> YYEOF -> ends_at t (S b) true (p_negated_leaf ty).
Proof.
  intros Ht. apply (ends_shift t b false); [done |]. intros v. do 2 (apply ends_bind; [apply ends_objalloc | intros _]).
  destruct v; [apply ends_ret | apply ends_abort].
Qed.

(** An expression in parentheses. *)
Lemma ends_parens {A} b (sub : P cfexpr) (f : cfexpr -> P A) :
  ends b false sub -> (forall b e, ends b false (f e)) -> ends b false (e ← sub; _ ← expect (Char ")"); f e).
Proof.
  intros Hs Hf. apply ends_bind; [done |]. intros e. destruct b as [| b]; [intros ps _ Hl; lia |].
  apply (ends_weak _ true), (ends_bind_used _ false); [by apply ends_expect | intros _; apply Hf].
Qed.

Lemma ends_operand b (sub : P cfexpr) : ends b false sub -> ends (S b) true (p_operand sub).
Proof.
  intros Hs. apply ends_peek. intros t. destruct t as [| | | | | | | | | | | c |]; try apply ends_any, ends_syntax_error;
    try by apply ends_leaf.
  destruct (decide (c = "-"%char)) as [-> | N1].
  - apply (ends_shift _ b false); [done |]. intros _. apply ends_peek. intros t.
    destruct b as [| b]; [intros ps _ _ Hl; lia |].
    destruct t as [| | | | | | | | | | | c |]; try apply ends_any, ends_syntax_error; try by apply (ends_at_weak _ _ true), ends_negated_leaf.
    destruct (decide (c = "("%char)) as [-> | N2].
    + apply (ends_at_weak _ _ true), (ends_shift _ b false); [done |]. intros _. apply ends_parens; [apply (ends_mono (S b) b false false); [done | lia | done] |].
      intros b' e. apply ends_bind; [apply ends_objalloc | intros _; apply ends_ret].
    + destruct c as [[] [] [] [] [] [] [] []]; try apply ends_any, ends_syntax_error. by destruct N2.
  - destruct (decide (c = "("%char)) as [-> | N2].
    + apply (ends_shift _ b false); [done |]. intros _. apply ends_parens; [done | intros b' e; apply ends_ret].
    + destruct c as [[] [] [] [] [] [] [] []]; try apply ends_any, ends_syntax_error; [by destruct N2 | by destruct N1].
Qed.

Lemma ends_expr fuel : ends fuel true (p_expr fuel).
Proof.
  induction fuel as [| fuel IH]; [intros ps _ Hl; lia |]. cbn [p_expr].
  apply (ends_bind_used _ false); [by apply ends_operand, (ends_weak _ true) |]. intros left. apply ends_peek. intros t.
  destruct t as [| | | | | | | | | | | c |]; try apply ends_any, ends_syntax_error; try apply ends_any, ends_ret.
  destruct (is_one_of operators c).
  - destruct fuel as [| fuel]; [intros ps _ _ Hl; lia |]. apply (ends_at_weak _ _ true), (ends_shift _ fuel false); [done |]. intros _.
    apply ends_bind; [apply (ends_mono (S fuel) fuel true false); [exact IH | lia | done] | intros e].
    apply ends_bind; [apply ends_objalloc | intros _; apply ends_ret].
  - destruct (Ascii.eqb c ")"); apply ends_any; [apply ends_ret | apply ends_syntax_error].
Qed.

Lemma ends_tokens_loop fuel : forall acc, ends fuel false (p_tokens_loop fuel acc).
Proof.
  induction fuel as [| fuel IH]; intros acc; [intros ps _ Hl; lia |]. cbn [p_tokens_loop]. apply ends_peek. intros t.
  destruct t; try apply ends_any, ends_ret; apply (ends_at_weak _ _ true), (ends_shift _ fuel false); try done.
  - intros _. apply ends_bind; [apply (ends_weak _ true), ends_expr | intros ex].
    destruct fuel as [| fuel]; [intros ps _ Hl; lia |]. apply ends_bind; [by apply (ends_weak _ true), ends_expect | intros _].
    apply ends_bind; [apply ends_create_token | intros tk; apply IH].
  - intros [v |]; [| apply ends_abort]. apply ends_bind; [apply ends_create_token | intros tk; apply IH].
  - intros v. apply ends_bind; [apply ends_create_token | intros tk]. destruct v; [apply IH | apply ends_abort].
Qed.

Lemma ends_tokens fuel : ends fuel false (p_tokens fuel).
Proof. apply ends_bind; [apply ends_objalloc | intros _; apply ends_tokens_loop]. Qed.

Lemma ends_more {A} F (item : P A) close fuel : forall acc,
  ends F false item -> (fuel <= F)%nat -> ends fuel false (p_more fuel item close acc).
Proof.
  induction fuel as [| fuel IH]; intros acc Hi Hle; [intros ps _ Hl; lia |]. cbn [p_more]. apply ends_follows. intros t Ht.
  destruct (decide (t = Char ",")) as [-> | _]; [| apply ends_any, ends_ret].
  apply (ends_at_weak _ _ true), (ends_shift _ fuel false); [done |]. intros _.
  apply ends_bind; [apply (ends_mono F fuel false false); [done | lia | done] | intros x]. apply IH; [done | lia].
Qed.

Lemma ends_list {A} fuel (item : P A) close : ends fuel false item -> ends fuel false (p_list fuel item close).
Proof.
  intros Hi. apply ends_bind; [done | intros x]. apply ends_bind; [apply ends_objalloc | intros _]. by apply (ends_more fuel).
Qed.

Lemma ends_value fuel : ends fuel false (p_value fuel).
Proof.
  apply ends_bind; [apply ends_tokens | intros ts]. apply ends_bind; [apply ends_follows_last | intros _].
  apply ends_bind; [apply ends_objalloc | intros _; apply ends_ret].
Qed.

Lemma ends_arg fuel : ends fuel false (p_arg fuel).
Proof.
  apply ends_bind; [apply ends_tokens | intros ts]. apply ends_bind; [apply ends_follows_last | intros _].
  apply ends_bind; [apply ends_objalloc | intros _; apply ends_ret].
Qed.

Lemma ends_target fuel : ends fuel false (p_target fuel).
Proof.
  apply ends_bind; [apply ends_tokens | intros ts]. apply ends_follows. intros t Ht. destruct fuel as [| fuel]; [intros ps _ _ Hl; lia |].
  destruct (decide (t = Char "(")) as [-> | _].
  - apply (ends_at_weak _ _ true), (ends_shift _ fuel false); [done |]. intros _.
    apply ends_bind; [apply (ends_mono (S fuel) fuel false false); [apply ends_list, ends_arg | lia | done] | intros args].
    destruct fuel as [| fuel]; [intros ps _ Hl; lia |]. apply ends_bind; [by apply (ends_weak _ true), ends_expect | intros _].
    apply ends_bind; [apply ends_objalloc | intros _; apply ends_ret].
  - apply ends_any. apply ends_bind; [apply ends_objalloc | intros _; apply ends_ret].
Qed.

(** The name of a parameter, and what follows it. *)
Lemma ends_name {B} t b ty s (f : cftoken -> P B) : t <> YYEOF -> (forall k, ends b s (f k)) -> ends_at t (S b) true (p_name ty ≫= f).
Proof.
  intros Ht Hf. assert (H : ends_at t (S b) true (v ← shift_token; match v with None => abort | Some _ => create_token ty v None ≫= f end)).
  { apply (ends_shift _ b s); [done |]. intros [v |]; [| apply ends_abort]. by apply ends_bind; [apply ends_create_token |]. }
  intros ps Hps Hc Hl o. specialize (H ps Hps Hc Hl o). revert H. unfold p_name, mbind, P_bind, mbind, C_bind, shift_token, mret, C_ret.
  by destruct (lx_lval (ps_lx ps)).
Qed.

Lemma ends_param fuel : ends (S fuel) true (p_param fuel).
Proof.
  apply ends_peek. intros t. destruct t; try apply ends_any, ends_syntax_error; apply (ends_name _ _ _ false); try done; intros key.
  - apply ends_follows. intros op Hop. destruct fuel as [| fuel]; [intros ps _ _ Hl; lia |].
    apply (ends_at_weak _ _ true), (ends_shift _ fuel false); [intros ->; by rewrite !elem_of_cons, elem_of_nil in Hop; destruct Hop as [? | [? | ?]] |].
    intros _. apply ends_bind; [apply (ends_mono (S fuel) fuel false false); [apply ends_list, ends_value | lia | done] | intros vals].
    apply ends_bind; [apply ends_objalloc | intros _; apply ends_ret].
  - apply ends_follows. intros op Hop. destruct fuel as [| fuel]; [intros ps _ _ Hl; lia |].
    apply (ends_at_weak _ _ true), (ends_shift _ fuel false); [intros ->; by rewrite !elem_of_cons, elem_of_nil in Hop; destruct Hop as [? | [? | ?]] |].
    intros _. apply ends_bind; [apply (ends_mono (S fuel) fuel false false); [apply ends_list, ends_value | lia | done] | intros vals].
    apply ends_bind; [apply ends_objalloc | intros _; apply ends_ret].
  - apply ends_bind; [apply ends_list, ends_target | intros vals]. apply ends_bind; [apply ends_objalloc | intros _; apply ends_ret].
Qed.

Lemma ends_discard fuel : ends fuel true (discard fuel).
Proof.
  induction fuel as [| fuel IH]; [intros ps _ Hl; lia |]. cbn [discard]. apply ends_peek. intros t.
  destruct (decide (t = Char ";")) as [-> | _]; [apply (ends_shift _ fuel false); [done |]; intros _; apply ends_ret |].
  destruct (decide (t = YYEOF)) as [_ | Ht]; [apply ends_any, ends_abort |].
  intros ps [H1 H2 H3] Hc Hl. set (ps1 := ps <| ps_char := None |>).
  assert (Hlt : (left_over ps1 + 1 <= left_over ps)%nat).
  { unfold left_over. rewrite Hc. change (lx_input (ps_lx ps1)) with (lx_input (ps_lx ps)). change (ps_char ps1) with (@None token).
    destruct t; try done; cbn; lia. }
  assert (Hs1 : sound ps1) by (by split).
  eapply wp_mono; [apply (IH ps1 Hs1); lia | | done]. intros [r ps2] [H4 H5]. split; [done |].
  destruct r; cbn [fst snd Nat.b2n] in *; try done; lia.
Qed.

Lemma ends_recover fuel : ends fuel true (recover fuel).
Proof.
  apply ends_bind; [apply ends_note_error | intros _]. apply ends_bind; [apply ends_objalloc | intros _].
  destruct fuel as [| fuel]; [intros ps _ Hl; lia |]. apply (ends_bind_used _ false); [apply ends_discard | intros _; apply ends_ret].
Qed.

(** A parameter, or what is left of one after an error. *)
Lemma ends_attempt {B} b s (p q : P cfparam) (f : cfparam -> P B) :
  ends (S b) true p -> ends (S b) true q -> (forall pr, ends b s (f pr)) ->
  ends (S b) true (r ← attempt p; pr ← match r with Some pr => mret pr | None => q end; f pr).
Proof.
  intros Hp Hq Hf ps Hps Hl. apply wp_bind. unfold attempt. apply wp_bind.
  eapply wp_mono; [by apply Hp | intros [r ps1] [H1 H2] | done]. cbn [fst snd Nat.b2n] in *.
  destruct r as [pr | |]; apply wp_ret; [| by apply wp_ret; split |].
  - eapply wp_mono; [apply (ends_bind b s (mret pr) f (ends_ret b pr) Hf ps1 H1); lia | intros [r ps2] [H3 H4] | done]. split; [done |].
    destruct r; cbn [fst snd Nat.b2n] in *; try done; destruct s; cbn [Nat.b2n] in *; lia.
  - eapply wp_mono; [apply (ends_bind_used b s q f Hq Hf ps1 H1); lia | intros [r ps2] [H3 H4] | done]. split; [done |].
    destruct r; cbn [fst snd Nat.b2n] in *; try done; lia.
Qed.

Lemma ends_params_loop fuel : forall acc, ends fuel false (p_params_loop (S fuel) acc).
Proof.
  induction fuel as [| fuel IH]; intros acc; [intros ps _ Hl; lia |].
  change (p_params_loop (S (S fuel)) acc) with
    (t ← peek;
     if decide (t = Char "}") then _ ← shift_token; mret acc
     else
       r ← attempt (pr ← p_param (S fuel); _ ← expect (Char ";"); mret pr);
       pr ← match r with Some pr => mret pr | None => recover (S fuel) end;
       p_params_loop (S fuel) (acc ++ [pr])).
  apply ends_peek. intros t. destruct (decide (t = Char "}")) as [-> | _].
  - apply (ends_at_weak _ _ true), (ends_shift _ fuel false); [done |]. intros _. apply ends_ret.
  - apply ends_any, (ends_weak _ true), (ends_attempt fuel false); [| apply ends_recover | intros pr; apply IH].
    apply (ends_bind_used _ false); [apply (ends_mono (S (S fuel)) _ true true); [apply ends_param | lia | done] |].
    intros pr. destruct fuel as [| fuel]; [intros ps _ Hl; lia |].
    apply ends_bind; [by apply (ends_weak _ true), ends_expect | intros _; apply ends_ret].
Qed.

Lemma ends_params fuel : ends fuel false (p_params (S fuel)).
Proof. apply ends_bind; [apply ends_objalloc | intros _; apply ends_params_loop]. Qed.

(** A brace and the parameters. *)
Lemma ends_body {B} fuel (f : list cfparam -> P B) :
  (forall b prs, ends b false (f prs)) -> ends (S fuel) false (_ ← expect (Char "{"); prs ← p_params (S fuel); f prs).
Proof.
  intros Hf. apply (ends_weak _ true), (ends_bind_used _ false); [by apply ends_expect | intros _].
  apply ends_bind; [apply ends_params | intros prs; apply Hf].
Qed.

(** ** Sections *)

Section sections.
Context (fs : fsys).

Lemma nofuel_mark_duplicate name l : nofuel (mark_duplicate name l).
Proof. induction l as [| v l IH]; cbn [mark_duplicate]; steps_nofuel. Qed.

Lemma wp_pools {A} (c : C A) (Q : A -> Prop) : nofuel c -> wp c Q (fun _ => True) -> wp c Q (fun f => f <> OutOfFuel).
Proof. apply wp_nofuel. Qed.

Lemma nofuel_peek_filename ctx : nofuel (peek_filename ctx).
Proof. unfold peek_filename. steps_nofuel. Qed.

Lemma ends_new_section b sec name ads prs : ends b false (new_section fs sec name ads prs).
Proof.
  apply ends_quiet. intros ps H. unfold new_section, add_section. apply wp_bind, wp_bind.
  eapply (wp_mono _ (fun _ => True) _ (fun f => f <> OutOfFuel)); [| intros l _ | done].
  { destruct name as [n |]; [| by apply wp_ret]. destruct sec; [by apply wp_ret | apply nofuel_mark_duplicate..]. }
  cbn zeta. apply wp_bind. eapply wp_mono; [by apply wp_alloc_pools | intros [[p |] st] Hst | done]; [| apply wp_ret; by apply wp_ret].
  apply wp_bind. unfold peek_fileowner. apply wp_bind.
  eapply wp_mono; [apply nofuel_peek_filename | intros fn _ | done]. apply wp_ret, wp_bind.
  eapply wp_mono; [apply nofuel_peek_filename | intros fn' _ | done]. apply wp_ret. by apply wp_ret.
Qed.

Lemma ends_global_vars b : ends b false run_apply_global_vars.
Proof.
  apply ends_quiet. intros ps H. unfold run_apply_global_vars. apply wp_bind. eapply wp_mono; [apply nofuel_deref | intros sc _ | done].
  apply wp_bind. eapply (wp_mono _ (fun _ => True) _ (fun f => f <> OutOfFuel)); [| intros [rc gv] _; by apply wp_ret | done].
  unfold apply_global_vars. cbn zeta. apply nofuel_bind; [| intros vars; apply nofuel_ret]. apply nofuel_foreach. intros vars pr.
  apply nofuel_bind; [apply nofuel_deref | intros key]. destruct (t_type key); try apply nofuel_ret. apply nofuel_assign_var.
Qed.

Lemma push_file_pools ctx st fn :
  mpools st <> [] -> wp (push_file fs ctx st fn) (fun p => mpools p.2 <> []) (fun f => f <> OutOfFuel).
Proof.
  intros H. unfold push_file. destruct (fn ≫= realpath fs) as [path |]; [| by apply wp_ret]. destruct (_ || _); [by apply wp_ret |].
  destruct (existsb _ _); [by apply wp_ret |]. apply wp_bind. unfold mpool_strdup. cbn zeta. apply wp_bind.
  eapply wp_mono; [by apply wp_alloc_pools | intros [[p |] st1] H1 | done]; apply wp_ret; apply wp_bind;
    (eapply wp_mono; [by apply wp_alloc_pools | intros [[q |] st2] H2 | done]); by apply wp_ret.
Qed.

Lemma ends_glob_path b ts : ends b false (run_glob_path fs ts).
Proof.
  apply ends_quiet. intros ps H. unfold run_glob_path. apply wp_bind.
  eapply (wp_mono _ (fun p => mpools p.2 <> []) _ (fun f => f <> OutOfFuel)); [| intros [ctx st] Hst; by apply wp_ret | done].
  unfold glob_path. cbn zeta. destruct (head ts) as [tk |]; [| by apply wp_ret]. apply wp_bind.
  eapply wp_mono; [apply nofuel_token_to_string | intros [path |] _ | done]; [| by apply wp_ret]. apply wp_bind.
  eapply (wp_mono _ (fun _ => True) _ (fun f => f <> OutOfFuel)); [| intros path' _ | done].
  { change (nofuel (if Ascii.eqb (char_at path 0) "/" then mret path
                    else conf ← strdup (t_filename tk); match conf with None => mret path | Some conf =>
                         ok ← malloc; mret (if (ok : bool) then dirname fs conf +:+ "/" +:+ path else path) end)). steps_nofuel. }
  destruct (glob fs path') as [l |]; [| by apply wp_ret].
  apply (wp_foreach _ l (fun p => mpools p.2 <> [])); [done |]. intros p [ctx st] _ Hst. apply wp_bind.
  eapply wp_mono; [by apply push_file_pools | intros [[rc ctx'] st'] Hst'; by apply wp_ret | done].
Qed.

(** ** Sections and files *)

Lemma bind_assoc {A B D} (m : P A) (g : A -> P B) (f : B -> P D) ps o : ((m ≫= g) ≫= f) ps o = (m ≫= (fun a => g a ≫= f)) ps o.
Proof. unfold mbind, P_bind, mbind, C_bind. by destruct (m ps o) as [[[a | |] ps'] o' |]. Qed.

Lemma ends_at_ext {A} t b s (p q : P A) : (forall ps o, p ps o = q ps o) -> ends_at t b s q -> ends_at t b s p.
Proof. intros E H ps Hps Hc Hl o. rewrite E. by apply H. Qed.

Lemma ends_section_name {B} t b (f : option string -> P B) :
  t <> YYEOF -> (forall n, ends b false (f n)) -> ends_at t (S b) true (p_section_name ≫= f).
Proof.
  intros Ht Hf. eapply ends_at_ext; [intros ps o; apply bind_assoc |]. apply (ends_shift _ b false); [done |]. intros _.
  assert (H : ends b false (t ← peek; (if decide (t = STR) then shift_token else syntax_error) ≫= f)).
  { apply ends_peek. intros t'. destruct (decide (t' = STR)) as [-> | _].
    - destruct b as [| b]; [intros ps _ _ Hl; lia |]. apply (ends_at_weak _ _ true), (ends_shift _ b false); [done |].
      intros n. apply (ends_mono (S b) b false false); [apply Hf | lia | done].
    - apply ends_any. by apply (ends_bind b false syntax_error f); [apply ends_syntax_error |]. }
  intros ps Hps Hl o. rewrite bind_assoc. by apply H.
Qed.

Lemma ends_argdef fuel : ends fuel false (p_argdef fuel).
Proof.
  destruct fuel as [| fuel]; [intros ps _ Hl; lia |]. apply ends_peek. intros t. destruct (decide (t = STR)) as [-> | _]; [| apply ends_any, ends_syntax_error].
  apply (ends_at_weak _ _ true), (ends_shift _ fuel false); [done |]. intros name. apply ends_follows. intros t Ht.
  destruct (decide (t = Char "=")) as [-> | _].
  - destruct fuel as [| fuel]; [intros ps _ _ Hl; lia |]. apply (ends_at_weak _ _ true), (ends_shift _ fuel false); [done |]. intros _.
    apply ends_bind; [apply (ends_mono (S (S fuel)) fuel false false); [apply ends_tokens | lia | done] | intros ts].
    apply ends_bind; [apply ends_follows_last | intros _]. apply ends_bind; [apply ends_objalloc | intros _; apply ends_ret].
  - apply ends_any, ends_bind; [apply ends_objalloc | intros _; apply ends_ret].
Qed.

Lemma ends_global b : ends_at GLOBAL (S b) true (p_global fs b).
Proof.
  apply (ends_shift _ b false); [done |]. intros _. destruct b as [| b]; [intros ps _ Hl; lia |]. apply ends_body. intros b' prs.
  apply ends_bind; [apply ends_new_section | intros _; apply ends_global_vars].
Qed.

Lemma ends_vm b : ends_at VM (S b) true (p_vm fs b).
Proof.
  apply ends_section_name; [done |]. intros n. destruct b as [| b]; [intros ps _ Hl; lia |]. apply ends_body. intros b' prs. apply ends_new_section.
Qed.

Lemma ends_tmpl b : ends_at TEMPLATE (S b) true (p_tmpl fs b).
Proof.
  apply ends_section_name; [done |]. intros n. destruct b as [| b]; [intros ps _ Hl; lia |]. apply ends_follows. intros t Ht.
  assert (Hrest : forall ads, ends (S b) false (_ ← expect (Char "{"); prs ← p_params (S b); new_section fs SECTION_TEMPLATE n ads prs)).
  { intros ads. apply ends_body. intros b' prs. apply ends_new_section. }
  destruct (decide (t = Char "(")) as [-> | _].
  - eapply ends_at_ext; [intros ps o; apply bind_assoc |]. apply (ends_at_weak _ _ true), (ends_shift _ b false); [done |]. intros _.
    apply ends_bind; [| intros ads; apply (ends_mono (S b) b false false); [apply Hrest | lia | done]].
    apply ends_bind; [apply (ends_mono (S b) b false false); [apply ends_list, ends_argdef | lia | done] | intros ads].
    destruct b as [| b]; [intros ps _ Hl; lia |]. apply ends_bind; [by apply (ends_weak _ true), ends_expect | intros _; apply ends_ret].
  - apply ends_any. apply ends_bind; [apply ends_ret | intros ads; apply Hrest].
Qed.

Lemma ends_include b : ends_at INCLUDE (S b) true (p_include fs b).
Proof.
  apply (ends_shift _ b false); [done |]. intros _. apply ends_bind; [apply ends_tokens | intros ts].
  destruct b as [| b]; [intros ps _ Hl; lia |]. apply ends_bind; [by apply (ends_weak _ true), ends_expect | intros _; apply ends_glob_path].
Qed.

(** A section, then the rest of the file. *)
Lemma ends_at_bind_used {A B} t b s (p : P A) (f : A -> P B) : ends_at t (S b) true p -> (forall a, ends b s (f a)) -> ends_at t (S b) true (p ≫= f).
Proof.
  intros Hp Hf ps Hps Hc Hl. apply wp_bind. eapply wp_mono; [by apply Hp | intros [r ps1] [H1 H2] | done]. cbn [fst snd Nat.b2n] in *.
  destruct r as [a | |]; [| by apply wp_ret; split | by apply wp_ret; split].
  eapply wp_mono; [apply (Hf a ps1 H1); lia | | done]. intros [r ps2] [H3 H4]. split; [done |].
  destruct r; cbn [fst snd Nat.b2n] in *; try done; destruct s; cbn [Nat.b2n] in *; lia.
Qed.

Lemma ends_conf fuel : ends fuel false (p_conf fs fuel).
Proof.
  induction fuel as [| fuel IH]; [intros ps _ Hl; lia |]. cbn [p_conf]. apply ends_peek. intros t.
  destruct t; try apply ends_any, ends_syntax_error; try apply ends_any, ends_ret;
    apply (ends_at_weak _ _ true), (ends_at_bind_used _ _ false); try (intros _; apply IH).
  - apply ends_global.
  - apply ends_vm.
  - apply ends_tmpl.
  - apply ends_include.
Qed.

End sections.

(** The call of the parser, and what it leaves of the pools. *)
Lemma yyparse0_ends fs text ctx st gv :
  dquote ∉ String.list_ascii_of_string text -> mpools st <> [] ->
  wp (yyparse0 fs (parse_fuel text) (parser_start text ctx st gv))
     (fun '(rc, ps) => (rc = 0 \/ rc = 1) /\ mpools (ps_st ps) <> []) (fun f => f <> OutOfFuel).
Proof.
  intros Hd Hst. unfold yyparse0. apply wp_bind.
  assert (Hlen : length (String.list_ascii_of_string text) = String.length text).
  { clear. induction text as [| c text IH]; [done |]. cbn. by rewrite IH. }
  eapply wp_mono; [apply ends_conf | | done].
  - split; [split; [by rewrite !elem_of_cons, elem_of_nil; intros [? | [? | []]] | done] | split; [done | done | apply not_elem_of_nil] | done].
  - unfold left_over, parse_fuel. cbn. rewrite Hlen. lia.
  - intros [r ps] [[_ _ Hp] _]. cbn [snd] in Hp.
    destruct r; [apply wp_ret; split; [by left | exact Hp] | apply wp_ret; split; [by right | exact Hp] |].
    apply wp_bind. unfold note_error. apply wp_ret, wp_ret. split; [by right |]. destruct (ps_errflag ps =? 0); exact Hp.
Qed.

(** [C18] The parser of a file ends, whatever the file contains, as long as it has no double quotes, and whatever memory there is:
    it returns 0 or 1, or the child dies of a fault, as it does of an error in a global section ([global_error_file]); it never runs
    on for ever. *)
Theorem yyparse_terminates fs text ctx st gv :
  dquote ∉ String.list_ascii_of_string text -> mpools st <> [] ->
  wp (yyparse0 fs (parse_fuel text) (parser_start text ctx st gv)) (fun '(rc, _) => rc = 0 \/ rc = 1) (fun f => f <> OutOfFuel).
Proof. intros Hd Hst. eapply wp_mono; [by apply yyparse0_ends | by intros [rc ps] [H _] | done]. Qed.

Lemma yyparse_terminates_witness :
  wp (yyparse0 demo_fs (parse_fuel "vm a { ncpu = 1; ; x } }{") (parser_start "vm a { ncpu = 1; ; x } }{" empty_context
        {| mpools := [{| m_addr := 65536; m_end := 65700; m_used := 65600; m_last_used := 65600; m_error := MPERR_NONE |}]; mem := ∅ |} None))
     (fun '(rc, _) => rc = 0 \/ rc = 1) (fun f => f <> OutOfFuel).
Proof. apply yyparse_terminates; [by apply (bool_decide_unpack _); vm_compute | done]. Defined.

(** ** A parser that does not end *)

(** The rest of a string in double quotes does not begin with one. *)
Lemma rest_rule r yytext : r ∈ rules -> active DQ r = true -> ru_action r = Quoted -> matches (ru_re r) yytext ->
  exists c x, yytext = c :: x /\ Ascii.eqb c dquote = false.
Proof.
  intros Hr Ha Hq Hm. apply list_elem_of_lookup in Hr as [j Hj].
  assert (Hd : der dquote (ru_re r) = Void /\ nullable (ru_re r) = false).
  { revert Hj. do 37 (destruct j as [| j]; [intros [= <-]; first [discriminate Hq | by split | vm_compute in Ha; discriminate Ha] |]). done. }
  destruct Hd as [Hd Hn]. destruct yytext as [| c x]; [by apply nullable_spec in Hm; rewrite Hn in Hm |]. exists c, x. split; [done |].
  destruct (Ascii.eqb_spec c dquote) as [-> |]; [| done]. apply der_spec in Hm. rewrite Hd in Hm. inversion Hm.
Qed.

(** No pool has room for [n] bytes. *)
Definition no_room (st : pools) (n : nat) : Prop := mpools st <> [] /\ take_first (roundup8 (Z.of_nat n)) (mpools st) = None.

Lemma alloc_no_room st n o : no_room st n -> exists st', mpool_alloc st (Z.of_nat n) o = Done (None, st') o /\ no_room st' n.
Proof.
  intros [Hne Ht]. unfold mpool_alloc. cbn zeta. destruct (mpools st) as [| m l] eqn:E; [done |].
  assert (Hs : forall e, no_room (st <| mpools := m <| m_error := e |> :: l |>) n).
  { intros e. split; [done |]. change (mpools (st <| mpools := ?k |>)) with k. cbn [take_first] in Ht |- *.
    change (m_used (m <| m_error := e |>)) with (m_used m). change (m_end (m <| m_error := e |>)) with (m_end m).
    destruct (wrap_u 64 _ <=? m_end m); [done |]. by destruct (take_first _ l) as [[] |]. }
  rewrite Ht. unfold set_first_error. destruct (_ <? _); eexists; (split; [reflexivity | apply Hs]).
Qed.

(** [C37] Recovering from an error, the parser reads on to the next semicolon.  When it meets the rest of a string in double quotes, behind a
    variable, and has no memory for it, it gets the same token for ever: [discard] never ends. *)
Theorem recovery_hangs fuel ps n o :
  ps_char ps = None -> lx_start (ps_lx ps) = DQ -> scan DQ (lx_input (ps_lx ps)) = Some (n, Quoted) -> no_room (ps_st ps) n ->
  discard fuel ps o = Crash OutOfFuel.
Proof.
  revert ps. induction fuel as [| fuel IH]; intros ps Hc Hd Hs Hr; [done |]. cbn [discard].
  destruct (lx_input (ps_lx ps)) as [| c0 l] eqn:Ein; [vm_compute in Hs; discriminate |].
  destruct (scan_some DQ c0 l) as (n' & a & r & Hs' & Hin & Ha & Hact & Hn & Hm). rewrite Hs in Hs'. injection Hs' as <- <-.
  destruct (rest_rule r _ Hin Ha Hact Hm) as (c & x & Et & Ec).
  assert (Hlen : Z.of_nat (length (take n (c0 :: l))) - 1 - 0 + 1 = Z.of_nat n) by (rewrite length_take; lia).
  assert (Hh : default NUL (head (take n (c0 :: l))) = c) by (by rewrite Et).
  destruct (alloc_no_room (ps_st ps) n o Hr) as (st' & Ea & Hr').
  set (lx1 := ps_lx ps <| lx_input := drop n (c0 :: l) |> <| lx_lval := None |> <| lx_start := DQ |>
             <| lx_input := take n (c0 :: l) ++ drop n (c0 :: l) |>).
  assert (Ey : yylex (lex_fuel (ps_lx ps)) (ps_lx ps) (ps_st ps) o = Done (STR, lx1, st') o).
  { assert (Hf : lex_fuel (ps_lx ps) = S (2 * length (c0 :: l))) by (unfold lex_fuel; rewrite Ein, decide_False by (by rewrite Hd); lia).
    rewrite Hf. cbn [yylex]. rewrite Ein, Hd, Hs. unfold mbind, C_bind. cbn [run_action]. cbn zeta. rewrite Hh, Ec.
    unfold text2lval, mbind, C_bind. cbn zeta. rewrite Hlen, Ea. unfold mret, C_ret. cbn [Z.ltb Z.compare]. unfold lx1.
    reflexivity. }
  unfold mbind, P_bind, peek. rewrite Hc. unfold mbind, C_bind. rewrite Ey. unfold mret, C_ret. cbn [token_value].
  rewrite !decide_False by done. apply IH; [done | done | | done].
  change (scan DQ (take n (c0 :: l) ++ drop n (c0 :: l)) = Some (n, Quoted)). by rewrite take_drop.
Qed.

(** A file with an error in its section, and a string behind it. *)
Definition starving_text : string :=
  "vm a { b c " +:+ String dquote EmptyString +:+ "x$y zzzzzzzzzzzz" +:+ String dquote EmptyString +:+ "; }".

Definition small_pool (n : Z) : pools :=
  {| mpools := [{| m_addr := 65536; m_end := 65600 + n; m_used := 65600; m_last_used := 65600; m_error := MPERR_NONE |}]; mem := ∅ |}.

Definition parse_status (text : string) (st : pools) : fault + Z :=
  let file := {| f_name := "/etc/bmd.conf"; f_line := 0 |} in
  match yyparse0 demo_fs (parse_fuel text) (parser_start text (empty_context <| cffiles := [file] |> <| cur_file := Some file |>) st None) [] with
  | Done (rc, _) _ => inr rc
  | Crash f => inl f
  end.

(** With a little less or a little more memory the parser gives up on it, with 168 bytes it does not end. *)
Example starving_file :
  (parse_status starving_text (small_pool 144), parse_status starving_text (small_pool 168), parse_status starving_text (small_pool 200))
  = (inr 1, inl OutOfFuel, inr 1).
Proof. vm_compute. reflexivity. Qed.

Lemma recovery_hangs_witness :
  let lx := {| lx_start := DQ; lx_stack := []; lx_input := String.list_ascii_of_string (" zzzzzzzzzzzz" +:+ String dquote "; }"); lx_lineno := 1;
               lx_nerrs := 1; lx_lval := Some "y" |} in
  discard 1000 {| ps_lx := lx; ps_char := None; ps_errflag := 3; ps_ctx := empty_context; ps_st := small_pool 8; ps_gv := None |} []
  = Crash OutOfFuel.
Proof. intros lx. apply (recovery_hangs 1000 _ 14); [done | done | vm_compute; reflexivity | split; [done | vm_compute; reflexivity]]. Defined.

(** ** An error in a global section *)

(** The parameter that stands for an error has no key, which the evaluation of the variables of a global section follows: the
    child dies of it instead of reporting the error. *)
Theorem global_error_faults gv sc l rest o :
  sc_params sc = l ++ error_param :: rest ->
  Forall (fun pr => exists tk, pr_key pr = Some tk /\ t_type tk = CF_STR) l ->
  apply_global_vars gv sc o = Crash NullDeref.
Proof.
  intros E Hl. unfold apply_global_vars, mbind at 1, C_bind at 1. rewrite E. clear E.
  enough (H : forall vars, foreach (fun vars pr => key ← deref (pr_key pr);
             match t_type key with CF_VAR => assign_var vars (t_s key) (pr_vals pr) | _ => mret vars end)
             (l ++ error_param :: rest) vars o = Crash NullDeref) by (by rewrite H).
  induction Hl as [| pr l (tk & Hk & Ht) _ IH]; intros vars; [reflexivity |].
  cbn [app foreach]. unfold mbind, C_bind in *. rewrite Hk. cbn. rewrite Ht. cbn. by apply IH.
Qed.

Lemma global_error_faults_witness :
  apply_global_vars None
    {| sc_name := None; sc_params := [str_param "nmdm_offset" 0 ["200"]; error_param]; sc_argdefs := []; sc_applied := 0; sc_duplicate := 0;
       sc_owner := 0; sc_filename := "/etc/bmd.conf" |} [] = Crash NullDeref.
Proof. apply (global_error_faults _ _ [str_param "nmdm_offset" 0 ["200"]] []); [done |]. constructor; [by eexists | constructor]. Defined.

Example global_error_file : parse_status "global { nmdm_offset = 200; x y; }" (small_pool 100000) = inl NullDeref.
Proof. vm_compute. reflexivity. Qed.

(** ** A name without memory *)

(** What is read from a file: the status of the child and the names of the VMs. *)
Definition vm_names (text : string) (st : pools) : option (Z * list (option string)) :=
  let file := {| f_name := "/etc/bmd.conf"; f_line := 0 |} in
  match yyparse demo_fs [] None text (empty_context <| cffiles := [file] |> <| cur_file := Some file |>) st with
  | Exited status ctx _ => Some (status, sc_name <$> cfvms ctx)
  | Signaled | Hung => None
  end.

(** The name of a section is not looked at: when there is no memory for it and enough for the rest, the file is read well, and the
    section has no name, of which the daemon dies ([load_vm] follows the name). *)
Example unnamed_vm :
  vm_names ("vm " +:+ "a_name_that_is_longer_than_all_of_the_memory_that_is_left_when_the_parser_gets_to_it_and_the_rest_of_the_section_is_not" +:+ " { }")
    (small_pool 104) = Some (0, [None]) /\
  forall db pls gv s sc, sc_name sc = None -> load_vm tt db pls gv s sc [] = Crash NullDeref.
Proof.
  split; [vm_compute; reflexivity |]. intros db pls gv s sc Hn. unfold load_vm.
  destruct (runs_create_plugin_data tt pls) as [h Hh]. rewrite (bind_done _ _ _ Hh). cbn beta iota delta [Z.ltb Z.compare].
  unfold start_vm. rewrite Hn. reflexivity.
Qed.
