(* ===== verification/Plain.v ===== *)
(** * Plain configurations are safe (src/parser.c 146-195, 959-1025, 1401-1438)

    A section is plain when its values are text and variables, its first use of
    a device list is an assignment, and the templates it applies neither set
    variables nor the name and the owner of the VM.  This is a decidable
    condition on the syntax tree.  The theorem of this file says that loading
    plain sections has no undefined behaviour, whatever the allocator does and
    whatever the values are; the other conditions of the definition are those
    that the theorems of Vars.v, Conf.v and Load.v show to be needed. *)

From S2P Require Import Prelude CString Vars Conf Global MPool Plugin ParseValue Parser Load.
From Stdlib Require Import Ascii.

Local Open Scope Z_scope.

(** ** Plain sections *)

(** Which queue a parameter appends to. *)
Definition queue_index (key : string) : option nat :=
  if String.eqb key "disk" then Some 0%nat
  else if String.eqb key "iso" then Some 1%nat
  else if String.eqb key "network" then Some 2%nat
  else if String.eqb key "passthru" then Some 3%nat
  else if String.eqb key "bhyveload_env" then Some 4%nat
  else if String.eqb key "bhyve_env" then Some 5%nat
  else None.

Definition tails (c : vm_conf) : list tail_ptr :=
  [stq_last (vc_disks c); stq_last (vc_isoes c); stq_last (vc_nets c);
   stq_last (vc_passthrues c); stq_last (vc_bhyveload_envs c); stq_last (vc_bhyve_envs c)].

(** The parameters that set variables. *)
Definition sets_var (key : string) : bool := String.eqb key "name" || String.eqb key "owner".

Definition given {A} (p : option A) : bool := match p with Some _ => true | None => false end.

Definition token_plain (tk : cftoken) : bool :=
  match t_type tk with
  | CF_STR | CF_VAR => given (t_s tk)
  | CF_NUM => true
  | CF_EXPR => false
  end.

Definition value_plain (vl : cfvalue) : bool :=
  forallb token_plain (vl_tokens vl) &&
  forallb (fun a => forallb token_plain (ag_tokens a)) (vl_args vl).

Definition argdef_plain (d : cfargdef) : bool := forallb token_plain (ad_tokens d).

(** [seen] are the lists that were assigned already, in lower case. *)
Definition key_plain (tmpl : bool) (seen : list string) (op : Z) (key : string) : bool :=
  (negb tmpl || negb (sets_var key)) &&
  (negb (given (queue_index key)) || (op =? 0) || existsb (String.eqb key) seen).

Fixpoint params_plain (tmpl : bool) (seen : list string) (l : list cfparam) : bool :=
  match l with
  | [] => true
  | pr :: l' =>
      forallb value_plain (pr_vals pr) &&
      match pr_key pr with
      | None => false
      | Some tk =>
          match t_type tk, t_s tk with
          | _, None => false
          | CF_VAR, Some _ => negb tmpl && given (head (pr_vals pr)) && params_plain tmpl seen l'
          | _, Some k =>
              let key := lower k in
              key_plain tmpl seen (pr_operator pr) key &&
              params_plain tmpl (if pr_operator pr =? 0 then key :: seen else seen) l'
          end
      end
  end.

Definition template_plain (sc : cfsection) : bool :=
  given (sc_name sc) && forallb argdef_plain (sc_argdefs sc) && params_plain true [] (sc_params sc).

Definition section_plain (sc : cfsection) : bool :=
  given (sc_name sc) && params_plain false [] (sc_params sc).

(** ** The invariant *)

(** What the setters rely on: the scopes, the frame buffer and the backend.
    Outside of a template there are no arguments. *)
Definition safe (tmpl : bool) (c : vm_conf) : Prop :=
  (tmpl = false -> v_args (vc_vars c) = None) /\ is_Some (v_local (vc_vars c)) /\
  is_Some (vc_fbuf c) /\ is_Some (vc_backend c).

(** The queue of the parameter [key] can be appended to. *)
Definition queue_ok (key : string) (c : vm_conf) : Prop :=
  forall i, queue_index key = Some i -> tails c !! i = Some TailOk.

Lemma wp_set_var_local vars k v :
  v_args vars = None -> is_Some (v_local vars) ->
  wp (set_var vars (Some k) (Some v))
     (fun p => v_args p.2 = None /\ is_Some (v_local p.2)) no_fault.
Proof.
  intros Ha [t Hl]. unfold set_var. rewrite Ha. apply wp_bind, wp_ret. rewrite Hl.
  apply wp_bind. eapply wp_mono; [apply wp_set_var0 | intros [rc t'] _ | done].
  apply wp_ret. cbn. eauto.
Qed.

Lemma wp_set_string var v (Q : Z * option string -> Prop) F :
  Q (-1, var) -> Q (0, Some v) -> wp (set_string var v) Q F.
Proof. intros H1 H2. unfold set_string. apply wp_bind, wp_strdup; by apply wp_ret. Qed.

(** ** Parameters *)

(** One step through a parser. *)
Ltac step_safe :=
  lazymatch goal with
  | |- wp (STAILQ_INSERT_TAIL _ _) _ _ => apply wp_insert_tail
  | |- wp (set_string _ _) _ _ => apply wp_set_string
  | |- wp (deref (Some _)) _ _ => apply (wp_deref _ _ _ _ eq_refl)
  | |- wp (at_ptr _ _) _ _ => first [eapply wp_at_setter; [reflexivity |] | step_wp]
  | |- wp (null_guard (Some _) _) _ _ => unfold null_guard at 1
  | |- wp (set_var _ _ _) _ _ =>
      eapply wp_mono; [by apply wp_set_var_local; auto | intros [? ?] [? ?] | done]
  | |- wp (deref (_ !! index_of _ _)) _ _ =>
      cbn [index_of] in *; repeat case_match; first [done | apply (wp_deref _ _ _ _ eq_refl)]
  | |- wp _ _ _ => step_wp
  end; cbn beta iota.

Section plain.
Context {NV : Type} (db : sysdb) (pls : plugins NV).

Lemma parse_owner_safe c val :
  safe false c ->
  wp (parse_owner db c val) (fun p => safe false p.2 /\ tails p.2 = tails c) no_fault.
Proof.
  intros Hs. pose proof Hs as (Ha & Hl & Hf & Hb). specialize (Ha eq_refl).
  unfold parse_owner, split_owner, is_in_group, conf_set_var. repeat step_safe; try done.
Qed.

Lemma parse_entry_safe tmpl e c val :
  In e (parser_list db pls) -> tmpl && sets_var (pe_name e) = false ->
  safe tmpl c -> queue_ok (pe_name e) c ->
  wp (pe_parse e c val) (fun p => safe tmpl p.2 /\ tails p.2 = tails c) no_fault.
Proof.
  intros Hin Hm Hs Hq. pose proof Hs as (Ha & Hl & [f Hf] & Hb).
  unfold parser_list in Hin. cbn [In] in Hin.
  repeat (destruct Hin as [<- | Hin]); try done; cbn [pe_parse entry pe_name] in *.
  all: try (specialize (Hq _ eq_refl); cbn in Hq; injection Hq as Hq).
  all: try (destruct tmpl; [discriminate Hm |]); try by apply parse_owner_safe.
  all: autounfold with parse_db; unfold set_fbuf_ipaddr, set_fbuf_password, set_fbuf_vgaconf;
    rewrite ?Hf.
  all: repeat step_safe; try done.
  all: try (unfold safe, tails; cbn; rewrite ?Hq; by eauto 10).
Qed.

Lemma clear_safe tmpl e clear c :
  In e (parser_list db pls) -> pe_clear e = Some clear -> safe tmpl c ->
  safe tmpl (clear c) /\ queue_ok (pe_name e) (clear c) /\
  forall i, tails c !! i = Some TailOk -> tails (clear c) !! i = Some TailOk.
Proof.
  intros Hin Hc Hs. unfold parser_list in Hin. cbn [In] in Hin.
  repeat (destruct Hin as [<- | Hin]); try done;
    cbn [pe_clear entry pe_name] in *; try done; injection Hc as <-;
    (split; [exact Hs | split; [by intros i [= <-] |]]);
    intros i; do 6 (destruct i as [| i]; try done).
Qed.

Lemma entry_name e : In e (parser_list db pls) -> lower (pe_name e) = pe_name e.
Proof.
  intros Hin. unfold parser_list in Hin. cbn [In] in Hin.
  by repeat (destruct Hin as [<- | Hin]; [reflexivity |]).
Qed.

Lemma lookup_parser_key key e :
  lookup_parser db pls key = Some e -> In e (parser_list db pls) /\ pe_name e = lower key.
Proof.
  intros H. apply (bsearch_by_name pe_name _ key e (parser_list_sorted db pls)) in H as [Hin H].
  split; [done |]. by rewrite H, entry_name.
Qed.

(** An entry with a queue has a function that clears it. *)
Lemma entry_clear e :
  In e (parser_list db pls) -> given (queue_index (pe_name e)) = given (pe_clear e).
Proof.
  intros Hin. unfold parser_list in Hin. cbn [In] in Hin.
  by repeat (destruct Hin as [<- | Hin]; [reflexivity |]).
Qed.

(** ** Values *)

Lemma token_to_string_safe vars ts :
  forallb token_plain ts = true -> wp (token_to_string vars ts) (fun _ => True) no_fault.
Proof.
  intros H. unfold token_to_string. apply wp_bind, wp_malloc. intros []; [| by apply wp_ret].
  generalize EmptyString. induction ts as [| tk ts IH]; intros out; cbn [tokens_text]; [by apply wp_ret |].
  cbn in H. apply andb_true_iff in H as [Ht H]. apply wp_bind.
  eapply (wp_mono _ (fun _ => True)); [| intros [s |] _; [by apply IH | by apply wp_ret] | done].
  unfold token_plain in Ht. unfold token_text.
  destruct (t_type tk), (t_s tk); try done; by repeat step_safe.
Qed.

(** What holds while the parameters of a section are evaluated. *)
Definition st_ok (tmpl : bool) (seen : list string) (st : vm_state NV) : Prop :=
  safe tmpl (vs_conf st) /\ (forall k, In k seen -> queue_ok k (vs_conf st)) /\
  Forall (fun sc => template_plain sc = true) (vs_tmpls st).

Lemma set_value_safe tmpl seen parser key st vl :
  (forall e, parser = Some e -> In e (parser_list db pls) /\
     tmpl && sets_var (pe_name e) = false /\ queue_ok (pe_name e) (vs_conf st)) ->
  value_plain vl = true -> st_ok tmpl seen st ->
  wp (set_value parser key st vl)
     (fun st' => st_ok tmpl seen st' /\ tails (vs_conf st') = tails (vs_conf st)) no_fault.
Proof.
  intros Hp Hv Hst. apply andb_true_iff in Hv as [Hv _]. unfold set_value. apply wp_bind.
  eapply wp_mono; [by apply token_to_string_safe | intros [val |] _ | done]; [| by apply wp_ret].
  destruct parser as [e |].
  - destruct (Hp e eq_refl) as (Hin & Hm & Hq). destruct Hst as (Hs & Hseen & Ht).
    apply wp_bind. eapply wp_mono; [by apply (parse_entry_safe tmpl) | intros [rc c'] [Hs' Htl] | done].
    apply wp_ret. cbn [with_conf vs_conf]. split; [| done]. split; [done |]. split; [| done].
    intros k Hk i Hi. cbn [with_conf vs_conf snd] in *. rewrite Htl. by apply (Hseen k Hk).
  - destruct (call_plugin_parser (vs_pl_data st) key val). by apply wp_ret.
Qed.

Lemma queue_lookup key i :
  queue_index (lower key) = Some i -> exists e, lookup_parser db pls key = Some e.
Proof.
  intros H.
  assert (E : existsb (fun e => String.eqb (pe_name e) (lower key)) (parser_list db pls) = true).
  { unfold queue_index in H.
    repeat match type of H with
           | (if String.eqb ?a ?b then _ else _) = _ =>
               destruct (String.eqb_spec a b) as [-> | _]; [reflexivity |]
           end. done. }
  apply existsb_exists in E as (e & Hin & E). apply String.eqb_eq in E. exists e.
  apply (bsearch_by_name pe_name); [apply parser_list_sorted |]. split; [done |].
  by rewrite entry_name.
Qed.

Lemma assign_var_safe vars k vals :
  v_args vars = None -> is_Some (v_local vars) -> given (head vals) = true ->
  forallb value_plain vals = true ->
  wp (assign_var vars (Some k) vals)
     (fun vars' => v_args vars' = None /\ is_Some (v_local vars')) no_fault.
Proof.
  intros Ha Hl Hg Hv. destruct vals as [| vl vals]; [done |].
  cbn in Hv. apply andb_true_iff in Hv as [Hv _]. apply andb_true_iff in Hv as [Hv _].
  unfold assign_var. apply wp_bind, (wp_deref _ _ _ _ eq_refl), wp_bind.
  eapply wp_mono; [by apply token_to_string_safe | intros [val |] _ | done]; [| by apply wp_ret].
  by repeat step_safe.
Qed.

(** The values of a parameter of the table, or of a plugin. *)
Lemma set_values_safe tmpl seen parser key st vals :
  (forall e, parser = Some e -> In e (parser_list db pls) /\
     tmpl && sets_var (pe_name e) = false /\ queue_ok (pe_name e) (vs_conf st)) ->
  forallb value_plain vals = true -> st_ok tmpl seen st ->
  wp (foreach (set_value parser key) vals st) (st_ok tmpl seen) no_fault.
Proof.
  intros Hp Hv Hst.
  eapply wp_mono; [apply (wp_foreach _ _ (fun st' => st_ok tmpl seen st' /\
                            tails (vs_conf st') = tails (vs_conf st))) | by intros st' [? _] | done].
  - done.
  - intros vl st' Hin [Hst' Ht].
    eapply wp_mono; [apply (set_value_safe tmpl seen) | intros st'' [H1 H2] | done]; [| | done |].
    + intros e He. destruct (Hp e He) as (H1 & H2 & H3). split; [done |]. split; [done |].
      unfold queue_ok in *. by rewrite Ht.
    + rewrite forallb_forall in Hv. by apply Hv.
    + split; [done |]. by rewrite H2.
Qed.

(** The step before the values: an assignment clears the list. *)
Lemma clear_step tmpl seen op key (st : vm_state NV) :
  st_ok tmpl seen st -> key_plain tmpl seen op (lower key) = true ->
  let parser := lookup_parser db pls key in
  let st' := match parser with
             | Some p => match pe_clear p with
                         | Some clear => if op =? 0 then with_conf st (clear (vs_conf st)) else st
                         | None => st
                         end
             | None => st
             end in
  st_ok tmpl (if op =? 0 then lower key :: seen else seen) st' /\
  forall e, parser = Some e -> In e (parser_list db pls) /\
     tmpl && sets_var (pe_name e) = false /\ queue_ok (pe_name e) (vs_conf st').
Proof.
  intros Hst Hk. apply andb_true_iff in Hk as [Hk1 Hk2]. cbn zeta.
  assert (Hm : tmpl && sets_var (lower key) = false) by (by destruct tmpl, (sets_var (lower key))).
  destruct (lookup_parser db pls key) as [e |] eqn:He.
  2: { split; [| done]. destruct Hst as (Hs & Hseen & Ht). destruct (op =? 0); [| done].
       split; [done |]. split; [| done]. intros k [<- | Hk]; [| by apply Hseen].
       intros i Hi. apply queue_lookup in Hi as [e' He']. congruence. }
  apply lookup_parser_key in He as [Hin Hn]. destruct Hst as (Hs & Hseen & Ht).
  pose proof (entry_clear e Hin) as Hc. rewrite Hn in Hc. destruct (pe_clear e) as [clear |] eqn:Hcl.
  - destruct (op =? 0).
    + destruct (clear_safe tmpl e clear (vs_conf st) Hin Hcl Hs) as (H1 & H2 & H3).
      cbn [with_conf vs_conf]. rewrite Hn in H2. split.
      * split; [done |]. split; [| done]. intros k [<- | Hk]; [done |]. intros i Hi.
        by apply H3, (Hseen k Hk).
      * intros e' [= <-]. rewrite Hn. auto.
    + split; [by split |]. intros e' [= <-]. rewrite Hn. split; [done |]. split; [done |].
      rewrite Hc in Hk2. cbn in Hk2. apply existsb_exists in Hk2 as (k & Hk & E).
      apply String.eqb_eq in E as ->. by apply Hseen.
  - assert (Hq : queue_ok (lower key) (vs_conf st))
      by (intros i Hi; rewrite Hi in Hc; discriminate Hc).
    split.
    + split; [done |]. split; [| done]. destruct (op =? 0); [| done].
      intros k [<- | Hk]; [done | by apply Hseen].
    + intros e' [= <-]. rewrite Hn. auto.
Qed.

(** ** Templates *)

Lemma key_plain_mono tmpl seen seen' op key :
  (forall k, In k seen -> In k seen') -> key_plain tmpl seen op key = true ->
  key_plain tmpl seen' op key = true.
Proof.
  intros Hi. unfold key_plain. rewrite !andb_true_iff, !orb_true_iff, !existsb_exists.
  intros [H1 [H2 | (k & Hk & E)]]; eauto 10.
Qed.

Lemma params_plain_mono tmpl l : forall seen seen',
  (forall k, In k seen -> In k seen') -> params_plain tmpl seen l = true ->
  params_plain tmpl seen' l = true.
Proof.
  induction l as [| pr l IH]; intros seen seen' Hi H; [done |]. cbn [params_plain] in *.
  apply andb_true_iff in H as [-> H]. destruct (pr_key pr) as [tk |]; [| done].
  destruct (t_type tk), (t_s tk) as [k |]; try done.
  all: apply andb_true_iff in H as [Hk H]; rewrite ?Hk, ?(key_plain_mono _ _ seen' _ _ Hi Hk).
  all: cbn [andb]; eapply IH; [| exact H]; try done.
  all: destruct (pr_operator pr =? 0); [| done]; intros k' [<- | Hk']; [by left | by right; apply Hi].
Qed.

Lemma lookup_template_safe tmpls name :
  Forall (fun sc => template_plain sc = true) tmpls ->
  wp (lookup_template tmpls name) (fun i => forall j, i = Some j -> is_Some (tmpls !! j)) no_fault.
Proof.
  induction 1 as [| tp tmpls Ht _ IH]; cbn [lookup_template]; [by apply wp_ret |].
  unfold template_plain in Ht. destruct (sc_name tp) as [n |]; [| done].
  apply wp_bind, (wp_deref _ _ _ _ eq_refl).
  destruct (strcmp n name =? 0); [by apply wp_ret; intros j [= <-] |].
  apply wp_bind. eapply wp_mono; [exact IH | intros i Hi | done].
  apply wp_ret. intros j E. destruct i as [i |]; [| done]. injection E as <-. by apply Hi.
Qed.

Lemma bind_args_safe vars defs : forall as_ args,
  forallb argdef_plain defs = true ->
  forallb (fun a => forallb token_plain (ag_tokens a)) as_ = true ->
  wp (bind_args vars defs as_ args) (fun _ => True) no_fault.
Proof.
  induction defs as [| def defs IH]; intros as_ args Hd Ha; cbn [bind_args]; [by apply wp_ret |].
  cbn in Hd. apply andb_true_iff in Hd as [Hd Hds]. apply wp_bind.
  eapply wp_mono; [apply token_to_string_safe | intros v _ | done].
  - destruct as_; [done |]. cbn in Ha. by apply andb_true_iff in Ha as [? _].
  - apply wp_bind. eapply (wp_mono _ (fun _ => True)); [| intros [rc args'] _ | done].
    { destruct (ad_name def); [eapply wp_mono; [apply wp_set_var0 | done | done] | by apply wp_ret]. }
    apply IH; [done |]. destruct as_; [done |]. cbn in Ha. by apply andb_true_iff in Ha as [_ ?].
Qed.

(** The only fault left is the bound of the model, excluded in the end. *)
Definition only_fuel (f : fault) : Prop := f = OutOfFuel.

Lemma parse_apply_safe set_params tmpl seen (st : vm_state NV) vl :
  (forall st' sc, template_plain sc = true -> st_ok true seen st' ->
     wp (set_params st' sc) (fun p => st_ok true seen p.2) only_fuel) ->
  value_plain vl = true -> st_ok tmpl seen st ->
  wp (parse_apply set_params st vl) (fun p => st_ok tmpl seen p.2) only_fuel.
Proof.
  intros Hset Hv Hst. pose proof Hst as (Hs & Hseen & Ht). apply andb_true_iff in Hv as [Hv Hargs].
  unfold parse_apply. apply wp_bind.
  eapply wp_mono; [by apply token_to_string_safe | intros [val |] _ | done]; [| by apply wp_ret].
  apply wp_bind. eapply wp_mono; [by apply lookup_template_safe | intros [i |] Hi | done]; [| by apply wp_ret].
  destruct (Hi i eq_refl) as [tp Htp]. apply wp_bind, (wp_deref _ _ _ _ Htp).
  destruct (sc_applied tp =? 0); cbn [negb]; [| by apply wp_ret].
  apply wp_bind, wp_malloc. intros []; cbn [negb]; [| by apply wp_ret].
  pose proof (Forall_lookup_1 _ _ _ _ Ht Htp) as Hp. pose proof Hp as Hp'.
  apply andb_true_iff in Hp' as [Hd _]. apply andb_true_iff in Hd as [_ Hd].
  apply wp_bind. eapply wp_mono; [by apply bind_args_safe | intros args _ | done].
  cbn zeta. apply wp_bind. eapply wp_mono; [apply Hset; [exact Hp |] | | done].
  - destruct Hs as (_ & Hl & Hf & Hb). split; [by split |]. split; [exact Hseen |].
    by apply Forall_insert.
  - intros [rc st'] (Hs' & Hseen' & Ht'). apply wp_ret. cbn [snd].
    split; [| by split]. destruct Hs as (Ha & _), Hs' as (_ & Hl & Hf & Hb). by split.
Qed.

(** What a parameter adds to the lists that were assigned. *)
Definition seen_after (seen : list string) (pr : cfparam) : list string :=
  match pr_key pr with
  | Some tk =>
      match t_type tk, t_s tk with
      | CF_VAR, _ | _, None => seen
      | _, Some k => if pr_operator pr =? 0 then lower k :: seen else seen
      end
  | None => seen
  end.

Lemma set_param_safe apply tmpl seen (st : vm_state NV) pr rest :
  (forall st' vl, value_plain vl = true -> st_ok tmpl seen st' ->
     wp (apply st' vl) (fun p => st_ok tmpl seen p.2) only_fuel) ->
  params_plain tmpl seen (pr :: rest) = true -> st_ok tmpl seen st ->
  wp (set_param db pls apply st pr) (st_ok tmpl (seen_after seen pr)) only_fuel /\
  params_plain tmpl (seen_after seen pr) rest = true.
Proof.
  intros Happly Hp Hst. cbn [params_plain] in Hp. apply andb_true_iff in Hp as [Hv Hp].
  unfold seen_after, set_param. destruct (pr_key pr) as [tk |]; [| done].
  assert (Hkey : forall k, key_plain tmpl seen (pr_operator pr) (lower k) = true ->
    let seen' := if pr_operator pr =? 0 then lower k :: seen else seen in
    wp (if strcasecmp k ".apply" =? 0
        then foreach (fun st vl => '(_, st) ← apply st vl; mret st) (pr_vals pr) st
        else
          let parser := lookup_parser db pls k in
          let st := match parser with
                    | Some p => match pe_clear p with
                                | Some clear => if pr_operator pr =? 0
                                                then with_conf st (clear (vs_conf st)) else st
                                | None => st
                                end
                    | None => st
                    end in
          foreach (set_value parser k) (pr_vals pr) st) (st_ok tmpl seen') only_fuel).
  { intros k Hk. cbn zeta. destruct (Z.eqb_spec (strcasecmp k ".apply") 0) as [E | _].
    - eapply (wp_mono _ (st_ok tmpl seen)); [apply wp_foreach; [done |] | | done].
      + intros vl st' Hin Hst'. apply wp_bind. rewrite forallb_forall in Hv.
        eapply wp_mono; [apply Happly; [by apply Hv | done] | intros [rc st''] H; by apply wp_ret | done].
      + apply strcmp_eq0 in E. rewrite E. intros st' (Hs & Hseen & Ht). split; [done |].
        split; [| done]. destruct (pr_operator pr =? 0); [| done]. by intros k' [<- | Hk']; [| apply Hseen].
    - destruct (clear_step tmpl seen (pr_operator pr) k st Hst Hk) as [H1 H2].
      eapply wp_mono; [by apply set_values_safe | done | by intros f ?]. }
  destruct (t_type tk) eqn:Et, (t_s tk) as [k |] eqn:Es; try done;
    rewrite <- ?andb_assoc in Hp.
  1, 3, 4: apply andb_true_iff in Hp as [Hk Hp]; split; [| exact Hp];
    apply wp_bind, (wp_deref _ _ _ _ eq_refl); rewrite Et; rewrite Es;
    apply wp_bind, (wp_deref _ _ _ _ eq_refl); by apply Hkey.
  apply andb_true_iff in Hp as [Hm Hp]. apply andb_true_iff in Hp as [Hg Hp].
  split; [| exact Hp]. apply wp_bind, (wp_deref _ _ _ _ eq_refl). rewrite Et, Es.
  destruct tmpl; [done |]. pose proof Hst as (Hs & Hseen & Ht). destruct Hs as (Ha & Hl & Hf & Hb).
  apply wp_bind. eapply wp_mono; [apply assign_var_safe; auto | intros vars [H1 H2] | by intros f ?].
  apply wp_ret. split; [by split | by split].
Qed.

(** The parameters of a section in order. *)
Lemma set_params_loop_safe apply tmpl l : forall seen (st : vm_state NV),
  (forall seen' st' vl, value_plain vl = true -> st_ok tmpl seen' st' ->
     wp (apply st' vl) (fun p => st_ok tmpl seen' p.2) only_fuel) ->
  params_plain tmpl seen l = true -> st_ok tmpl seen st ->
  wp (foreach (set_param db pls apply) l st) (st_ok tmpl seen) only_fuel.
Proof.
  induction l as [| pr l IH]; intros seen st Happly Hp Hst; cbn [foreach]; [by apply wp_ret |].
  destruct (set_param_safe apply tmpl seen st pr l (Happly seen) Hp Hst) as [H1 H2].
  apply wp_bind. eapply wp_mono; [exact H1 | intros st' Hst' | done].
  eapply wp_mono; [by apply (IH (seen_after seen pr)) | | done].
  intros st'' (Hs & Hseen & Ht). split; [done |]. split; [| done]. intros k Hk. apply Hseen.
  unfold seen_after. repeat case_match; try done; by right.
Qed.

Lemma vm_conf_set_params_safe fuel : forall tmpl seen (st : vm_state NV) sc,
  params_plain tmpl seen (sc_params sc) = true -> st_ok tmpl seen st ->
  wp (vm_conf_set_params db pls fuel st sc)
     (fun p => p.1 = 0 /\ st_ok tmpl seen p.2) only_fuel.
Proof.
  induction fuel as [| fuel IH]; intros tmpl seen st sc Hp Hst; cbn [vm_conf_set_params];
    [by apply wp_crash |].
  apply wp_bind. eapply wp_mono; [apply (set_params_loop_safe _ tmpl _ seen) | | done]; try done.
  intros seen' st' vl Hv Hst'. apply parse_apply_safe; [| done | done].
  intros st2 sc2 Ht Hst2. eapply wp_mono; [apply (IH true seen') | by intros p [_ ?] | done]; [| done].
  apply andb_true_iff in Ht as [_ Ht]. eapply params_plain_mono; [| exact Ht]. done.
Qed.

End plain.

(** ** Loading *)

Section load_plain.
Context {NV : Type} (nv_empty : NV) (db : sysdb) (pls : plugins NV).

Lemma wp_only_fuel {A} (c : C A) Q : wp c Q only_fuel -> nofuel c -> wp c Q no_fault.
Proof. intros H1 H2 o. specialize (H1 o). specialize (H2 o). by destruct (c o). Qed.

Lemma create_plugin_data_safe : wp (create_plugin_data nv_empty pls) (fun _ => True) no_fault.
Proof.
  unfold create_plugin_data. generalize (@nil (plugin_data NV)).
  induction (plugin_list pls) as [| pl l IH]; intros h; cbn [create_plugin_data_loop];
    repeat first [apply IH | step_safe]; done.
Qed.

Lemma start_vm_safe gv st sc :
  given (sc_name sc) = true ->
  wp (start_vm db gv st sc)
     (fun p => forall c, p.1 = Some c -> safe false c) no_fault.
Proof.
  intros Hn. unfold start_vm. destruct (sc_name sc) as [name |]; [| done].
  apply wp_bind, (wp_deref _ _ _ _ eq_refl), wp_bind.
  eapply wp_mono; [apply wp_create_vm_conf | intros [[c |] st'] Hc | done]; [| by apply wp_ret].
  cbn [fst] in Hc. destruct Hc as [t ->]. cbn beta iota zeta. unfold conf_set_var.
  repeat step_safe; try done; cbn [fst]; intros c [= <-].
  all: split; [done |]; split; [done |]; split; cbn; eauto.
Qed.

Lemma load_vm_plain gv (s : load_state (NV := NV)) sc :
  section_plain sc = true -> Forall (fun t => template_plain t = true) (ls_tmpls s) ->
  wp (load_vm nv_empty db pls gv s sc)
     (fun s' => Forall (fun t => template_plain t = true) (ls_tmpls s')) no_fault.
Proof.
  intros Hsc Ht. apply wp_only_fuel; [| apply nofuel_load_vm].
  apply andb_true_iff in Hsc as [Hn Hp]. unfold load_vm. apply wp_bind.
  eapply wp_mono; [apply create_plugin_data_safe | intros [rc head] _ | done].
  destruct (rc <? 0); [by apply wp_ret |]. apply wp_bind.
  eapply wp_mono; [by apply start_vm_safe | intros [[c |] st'] Hc | done]; [| by apply wp_ret].
  cbn zeta. apply wp_bind. eapply wp_mono; [apply (vm_conf_set_params_safe db pls _ false []) | | done].
  - exact Hp.
  - split; [by apply Hc |]. split; [done |]. cbn [vs_tmpls ls_tmpls]. by apply Forall_fmap.
  - intros [rc' vs] (_ & Hs & _ & Ht'). cbn [snd] in *. destruct Hs as (_ & _ & [f Hf] & [b Hb]).
    destruct (rc' <? 0); [by apply wp_ret |].
    unfold finalize_vm_conf. rewrite Hf. cbn beta iota zeta delta [Z.ltb Z.compare].
    apply wp_bind, (wp_deref _ _ _ _ eq_refl), wp_bind. unfold check_conf.
    repeat step_safe; try exact Ht'.
    apply (wp_deref _ b _ _ Hb), wp_ret. by repeat step_safe.
Qed.

Lemma wp_and_any {A} (c : C A) (Q Q' : A -> Prop) F :
  wp c Q F -> wp c Q' (fun _ => True) -> wp c (fun a => Q a /\ Q' a) F.
Proof. intros H H' o. specialize (H o). specialize (H' o). destruct (c o); auto. Qed.

(** [C16] Plain configurations are safe: when the [vm] sections and the templates
    are plain, building the list of VMs has no undefined behaviour, whatever
    the values say, whatever the plugins answer and whatever the allocator
    does, and it always ends.  Every section adds at most one VM, and only one
    that has all that is needed to start it. *)
Theorem load_vms_plain gv scs (s : load_state (NV := NV)) :
  forallb section_plain scs = true -> forallb template_plain (ls_tmpls s) = true ->
  wp (foreach (load_vm nv_empty db pls gv) scs s)
     (fun s' => exists new, ls_list s' = new ++ ls_list s /\ (length new <= length scs)%nat /\
                  Forall (fun e => vm_ready (ce_conf e)) new) no_fault.
Proof.
  intros Hsc Ht. rewrite forallb_forall in Hsc, Ht. apply List.Forall_forall in Ht.
  revert s Ht. induction scs as [| sc scs IH]; intros s Ht; cbn [foreach].
  - apply wp_ret. exists []. split; [done |]. by split; [cbn; lia |].
  - apply wp_bind. eapply wp_mono; [apply wp_and_any; [apply load_vm_plain | apply load_vm_ready] | | done].
    + apply Hsc. by left.
    + exact Ht.
    + intros s' [Ht' Hadd]. cbn beta in *.
      eapply wp_mono; [apply IH; [| exact Ht'] | intros s'' (new & E & Hl & Hr) | done].
      * intros x Hx. apply Hsc. by right.
      * destruct Hadd as [Hs | (e & He & Hre)].
        -- exists new. rewrite E, Hs. split; [done |]. split; [cbn; lia | done].
        -- exists (new ++ [e]). rewrite E, He, <- app_assoc. split; [done |].
           split; [rewrite length_app; cbn; lia |]. apply Forall_app. split; [done |]. by apply Forall_singleton.
Qed.

End load_plain.

(** Two templates that apply each other and a VM that uses them, a variable and
    a list. *)
Definition plain_templates : list cfsection :=
  [section "a" [str_param ".apply" 0 ["b"]; str_param "ncpu" 0 ["2"]];
   section "b" [str_param ".apply" 0 ["a"]; str_param "memory" 0 ["1G"]]].

Definition plain_vm : cfsection :=
  section "vm" [str_param ".apply" 0 ["a"]; str_param "owner" 0 ["alice:staff"];
                {| pr_key := Some {| t_type := CF_VAR; t_s := Some "img"; t_len := 3; t_expr := None;
                                     t_filename := EmptyString; t_lineno := 0 |};
                   pr_vals := [str_value "/img"]; pr_operator := 0 |};
                str_param "disk" 0 ["nvme:/dev/zvol/a"]; str_param "disk" 1 ["/b"];
                str_param "loader" 0 ["uefi"]].

(** The VM is there in the end. *)
Example plain_run :
  match foreach (load_vm tt demo_db demo_plugins ∅) [plain_vm]
          {| ls_list := []; ls_tmpls := plain_templates; ls_ids := init_ids |} [] with
  | Done s _ => (fun e => vc_ncpu (ce_conf e)) <$> ls_list s = [Some "2"]
  | Crash _ => False
  end.
Proof. vm_compute. reflexivity. Qed.

Lemma load_vms_plain_witness :
  wp (foreach (load_vm tt demo_db demo_plugins ∅) [plain_vm]
        {| ls_list := []; ls_tmpls := plain_templates; ls_ids := init_ids |})
     (fun s' => exists new, ls_list s' = new ++ [] /\ (length new <= 1)%nat /\
                  Forall (fun e => vm_ready (ce_conf e)) new) no_fault.
Proof.
  apply (load_vms_plain tt demo_db demo_plugins ∅ [plain_vm]
           {| ls_list := []; ls_tmpls := plain_templates; ls_ids := init_ids |});
    vm_compute; reflexivity.
Defined.
