(* ===== verification/Termination.v ===== *)
(** * Reading the configuration ends (src/parser.c 1277-1336, 1339-1392)

    [load_config_file] has three loops whose end is not obvious: the parser of one file may run on, the list of files
    grows while it is worked off, and the parsing of one file starts again each
    time the memory pool is full.  The loops of the loader are shown to end for every parser
    that obeys [EndingParser]; the parser of Grammar.v does, when no file has a double quote. *)

From S2P Require Import Prelude CString Vars Conf Global MPool Plugin ParseValue Parser Load Regex Lexer Grammar Owner Halting.
From Stdlib Require Import Ascii.

Local Open Scope Z_scope.

(** What the loops of the loader need of the parser: it ends, it adds each file once and only under its real path, and
    it leaves the pools in place. *)
Class EndingParser (fs : fsys) (yyparse : yyparser) : Prop := {
  ep_ends text uid gid path ctx st :
    open_as fs uid gid path = Some text -> mpools st <> [] -> yyparse text ctx st <> Hung;
  ep_files file text ctx st status ctx' st' :
    cur_file ctx = Some file -> yyparse text ctx st = Exited status ctx' st' -> files_ok fs ctx -> files_ok fs ctx';
  ep_pools text uid gid path ctx st status ctx' st' :
    open_as fs uid gid path = Some text -> mpools st <> [] -> yyparse text ctx st = Exited status ctx' st' -> mpools st' <> [];
}.

(** No file has a double quote. *)
Definition quoteless_files (fs : fsys) : Prop :=
  forall uid gid path text, open_as fs uid gid path = Some text -> dquote ∉ String.list_ascii_of_string text.

#[export] Instance conf_parser_ends fs answers gv (Hq : quoteless_files fs) : EndingParser fs (conf_parser fs answers gv).
Proof.
  assert (He : forall text uid gid path ctx st, open_as fs uid gid path = Some text -> mpools st <> [] ->
    match conf_parser fs answers gv text ctx st with Exited _ _ st' => mpools st' <> [] | Signaled => True | Hung => False end).
  { intros text uid gid path ctx st Ho Hst. unfold conf_parser, yyparse.
    pose proof (yyparse0_ends fs text ctx st gv (Hq _ _ _ _ Ho) Hst (answers text)) as H.
    destruct (yyparse0 _ _ _ _) as [[rc ps] o | f]; [by destruct H | by destruct f]. }
  split.
  - intros text uid gid path ctx st Ho Hst E. specialize (He text uid gid path ctx st Ho Hst). by rewrite E in He.
  - intros file text ctx st status ctx' st' Hc Hy. by destruct (gr_files _ _ _ _ (yyparse_grown _ _ _ _ _ _ _ _ _ _ Hc Hy)) as (new & _ & H).
  - intros text uid gid path ctx st status ctx' st' Ho Hst E. specialize (He text uid gid path ctx st Ho Hst). by rewrite E in He.
Qed.

(** [mmap] refuses at last, as an address space is finite: with NULL, which the code tests for, or with [MAP_FAILED], of
    which it dies. *)
Definition refused (m : Z) : Prop := m = 0 \/ m = MAP_FAILED.

Lemma wp_mpool_expand st m :
  wp (mpool_expand st m) (fun p => 0 <= p.1 -> ~ refused m /\ mpools p.2 <> []) (fun f => f <> OutOfFuel).
Proof.
  unfold mpool_expand, refused. destruct (Z.eqb_spec m 0) as [| H0]; [by apply wp_ret |].
  destruct (Z.eqb_spec m MAP_FAILED) as [| H1]; [by apply wp_crash |]. apply wp_ret. intros _. split; [tauto |].
  cbn. by destruct (mpools st).
Qed.

Lemma snapshot_pools st : mpools st <> [] -> mpools (mpool_snapshot st) <> [].
Proof. unfold mpool_snapshot. cbn. by destruct (mpools st). Qed.

Lemma nofuel_END_UP {A} (l : list A) : nofuel (END_UP l).
Proof. unfold END_UP. steps_nofuel. Qed.

Lemma wp_mpool_alloc_pools st sz : mpools st <> [] -> wp (mpool_alloc st sz) (fun p => mpools p.2 <> []) (fun f => f <> OutOfFuel).
Proof. intros H. eapply wp_mono; [by apply mpool_alloc_bases | by intros p (_ & H' & _) | by intros ? []]. Qed.

(** ** The loops *)

Section termination.
Context (fs : fsys) (yyparse : yyparser) `{!EndingParser fs yyparse} (universe : list string).
Context (Hroot : forall fn path, realpath fs fn = Some path -> path ∈ universe).

Lemma files_ok_length ctx : files_ok fs ctx -> (length (cffiles ctx) <= length universe)%nat.
Proof.
  intros [Hn Hi]. rewrite <- (length_fmap f_name). apply submseteq_length, NoDup_submseteq; [done |].
  intros p (f & -> & Hf)%list_elem_of_fmap. by destruct (proj1 (Forall_forall _ _) Hi f Hf) as (_ & _ & fn & H%Hroot).
Qed.

(** The child ends, and what it leaves behind. *)
Lemma child_ends file ctx st :
  cur_file ctx = Some file -> mpools st <> [] -> files_ok fs ctx ->
  match child fs yyparse file ctx st with Exited _ ctx' st' => files_ok fs ctx' /\ mpools st' <> [] | Signaled => True | Hung => False end.
Proof.
  unfold child. intros Hc Hst Hf. destruct (stat fs (f_name file)) as [s |]; [| done]. destruct (st_isreg s); [| done]. cbn [negb].
  destruct (open_as fs (st_uid s) (st_gid s) (f_name file)) as [text |] eqn:Eo; [| done].
  destruct (yyparse text ctx st) as [status ctx' st' | |] eqn:Ey; [| done |].
  - split; [by eapply ep_files | by eapply ep_pools].
  - by eapply ep_ends in Ey.
Qed.

(** The retries of one file: each maps one more pool, until [mmap] refuses. *)
Lemma parse_fuel file : forall mms ctx st,
  files_ok fs ctx -> mpools st <> [] -> Exists refused mms ->
  wp (parse fs yyparse mms file ctx st)
     (fun '(rc, ctx', st', mms') => 0 <= rc -> files_ok fs ctx' /\ mpools st' <> [] /\ Exists refused mms')
     (fun f => f <> OutOfFuel).
Proof.
  induction mms as [| m mms IH]; intros ctx st Hf Hst Hr; [by apply Exists_nil in Hr |]. cbn [parse].
  apply wp_bind, wp_malloc; intros []; cbn [negb]; [| apply wp_ret; intros ?; lia].
  pose proof (child_ends file (ctx <| cur_file := Some file |>) (mpool_snapshot st) eq_refl (snapshot_pools _ Hst) Hf) as Hc.
  destruct (child _ _ _ _ _) as [status ctx' st' | |]; [| apply wp_ret; intros ?; lia | done]. destruct Hc as [Hf' Hst'].
  destruct (status =? 0); [by apply wp_ret |].
  destruct (mpool_get_error st'); [apply wp_ret; intros ?; lia | | apply wp_ret; intros ?; lia].
  do 4 (apply wp_bind; eapply wp_mono; [apply nofuel_END_UP | intros _ _ | done]).
  apply wp_bind. eapply wp_mono; [apply wp_mpool_expand | intros [rc st2] H2 | done]. cbn [fst snd] in H2.
  destruct (Z.ltb_spec rc 0); [apply wp_ret; intros ?; lia |]. destruct (H2 ltac:(done)) as [Hm Hst2].
  apply IH; [done | done |]. by apply Exists_cons in Hr as [Hr |].
Qed.

(** The files: there are at most as many as the file system has. *)
Lemma parse_files_fuel fuel : forall mms i ctx st,
  files_ok fs ctx -> mpools st <> [] -> Exists refused mms -> (length universe <= fuel + i)%nat ->
  nofuel (parse_files fs yyparse fuel mms i ctx st).
Proof.
  induction fuel as [| fuel IH]; intros mms i ctx st Hf Hst Hr Hi; cbn [parse_files]; pose proof (files_ok_length ctx Hf) as Hl;
    (destruct (cffiles ctx !! i) as [file |] eqn:Ei; [| apply nofuel_ret]); apply lookup_lt_Some in Ei; [lia |].
  apply wp_bind. eapply wp_mono; [by apply (parse_fuel file mms ctx st Hf) | | done].
  intros [[[rc ctx'] st'] mms'] H. destruct (Z.ltb_spec rc 0) as [| H0]; [by apply wp_ret |].
  destruct (H H0) as (Hf' & Hst' & Hr'). apply IH; [done | done | done | lia].
Qed.

Lemma push_first_file st fn :
  mpools st <> [] ->
  wp (push_file fs empty_context st fn) (fun '(rc, ctx, st') => files_ok fs ctx /\ mpools st' <> []) (fun f => f <> OutOfFuel).
Proof.
  intros Hst. assert (H0 : files_ok fs empty_context) by (split; constructor). intros o.
  pose proof (push_file_spec fs empty_context st fn H0 o) as H1. pose proof (push_file_pools fs empty_context st fn Hst o) as H2.
  destruct (push_file fs empty_context st fn o) as [[[rc ctx] st'] o' | f]; [| done]. by destruct H1.
Qed.

Lemma load_context_fuel fuel m0 mms config :
  (length universe <= fuel)%nat -> Exists refused mms -> nofuel (load_context fs yyparse fuel m0 mms config).
Proof.
  intros Hfuel Hr. unfold load_context. apply wp_bind.
  eapply wp_mono; [apply wp_mpool_expand | intros [rc st] H | done]. cbn [fst snd] in H.
  destruct (Z.ltb_spec rc 0); [by apply wp_ret |]. destruct (H ltac:(done)) as [_ Hst].
  apply wp_bind. eapply wp_mono; [by apply wp_mpool_alloc_pools | intros [p1 st1] Hst1 | done].
  apply wp_bind. eapply wp_mono; [by apply wp_mpool_alloc_pools | intros [p2 st2] Hst2 | done]. cbn [snd] in *.
  destruct p1; [| apply nofuel_ret]. destruct p2; [| apply nofuel_ret].
  apply nofuel_bind; [apply nofuel_malloc | intros gv].
  apply nofuel_bind; [apply nofuel_malloc | intros gc].
  destruct (negb gc || negb gv); [apply nofuel_ret |].
  apply nofuel_bind; [apply nofuel_set_var0 |]. intros [rc1 gv1].
  apply wp_bind. eapply wp_mono; [by apply push_first_file | intros [[rc2 ctx] st3] [Hf Hst3] | done].
  destruct (rc2 <? 0); [by apply wp_ret |].
  apply nofuel_bind; [apply parse_files_fuel; [done | done | done | lia] |].
  intros [[rc3 ctx'] st4]. destruct (rc3 <? 0); by apply wp_ret.
Qed.

Context {NV : Type} (nv_empty : NV) (db : sysdb)
        (plugin_dir : option string -> option (list (dir_entry NV))).

Lemma nofuel_load_globals scs gc vars : nofuel (load_globals scs gc vars).
Proof.
  unfold load_globals, gl_conf_set_params, gl_param. apply nofuel_foreach. intros [gc' vars'] sc.
  repeat first [apply nofuel_assign_var | apply nofuel_token_to_string | step_nofuel].
Qed.

Lemma nofuel_load_plugins (st : plugins NV) dir : nofuel (load_plugins st dir).
Proof. unfold load_plugins, add_plugin. steps_nofuel. Qed.

Lemma nofuel_merge p gc : nofuel (merge_global_conf p gc).
Proof. unfold merge_global_conf, REPLACE_STR. steps_nofuel. Qed.

#[local] Ltac fold_nofuel := match goal with |- wp ?c _ _ => change (nofuel c) end.

Lemma load_config_file_fuel fuel m0 mms g lst b :
  (length universe <= fuel)%nat -> Exists refused mms ->
  wp (load_config_file nv_empty db fs yyparse plugin_dir fuel m0 mms g lst b)
     (fun '(rc, _, _) => rc = 0 \/ rc = -1) (fun f => f <> OutOfFuel).
Proof.
  intros Hfuel Hr. unfold load_config_file. apply wp_bind.
  eapply wp_mono; [by apply load_context_fuel | intros [[ctx gv] |] _ | done]; [| by apply wp_ret; right].
  apply wp_bind. eapply wp_mono; [apply nofuel_load_globals | intros [gc vars] _ | done].
  apply wp_bind. eapply wp_mono; [apply nofuel_deref | intros gv' _ | done].
  apply wp_bind. eapply (wp_mono _ (fun _ => True) _ (fun f => f <> OutOfFuel)); [| intros [[lst' ids] pls] _ | done].
  - fold_nofuel. destruct lst; [| apply nofuel_ret]. cbn zeta.
    apply nofuel_bind; [apply nofuel_load_plugins |]. intros [rc pls].
    apply nofuel_bind; [| intros s; apply nofuel_ret].
    apply nofuel_foreach. intros s sc. apply nofuel_load_vm.
  - cbn zeta. apply wp_bind. eapply (wp_mono _ (fun _ => True) _ (fun f => f <> OutOfFuel)); [| intros gl _ | done].
    + fold_nofuel. destruct b; [| apply nofuel_ret].
      apply nofuel_bind; [apply nofuel_merge |]. intros [rc gl]. apply nofuel_ret.
    + apply wp_ret. by left.
Qed.

End termination.

(** [C17] Reading the configuration ends, however the files include each other, however the templates apply each
    other, whatever the files contain as long as it is no double quote, and whatever memory there is: with one round for
    every file that exists, [load_config_file] returns 0 or -1, or a fault ends the process, but no loop runs on for ever.
    Each attempt to parse a file maps one more pool; [mms] are the answers of [mmap], and all that is needed of
    them is that it refuses at last.  With a double quote the parser itself may not end ([recovery_hangs]), and the
    daemon would wait for it. *)
Theorem load_config_file_terminates {NV : Type} (nv_empty : NV) db fs answers gv plugin_dir universe fuel m0 mms g lst b :
  quoteless_files fs -> (forall fn path, realpath fs fn = Some path -> path ∈ universe) ->
  (length universe <= fuel)%nat -> Exists refused mms ->
  wp (load_config_file nv_empty db fs (conf_parser fs answers gv) plugin_dir fuel m0 mms g lst b)
     (fun '(rc, _, _) => rc = 0 \/ rc = -1) (fun f => f <> OutOfFuel).
Proof.
  intros Hq Hroot Hfuel Hr. by apply (load_config_file_fuel fs _ universe Hroot (EndingParser0 := conf_parser_ends fs answers gv Hq)).
Qed.

(** ** Two files that include each other *)

Definition cycle_fs : fsys := {|
  realpath := fun p => if String.eqb p "/etc/b.conf" then Some "/etc/b.conf" else Some "/etc/a.conf";
  access_r := fun _ => true;
  stat := fun p => Some {| st_uid := 0; st_gid := 0; st_isreg := true |};
  open_as := fun uid gid p => Some (if String.eqb p "/etc/a.conf" then "template t { ncpu = 2; } .include /etc/b.conf;"
                                    else ".include /etc/a.conf; vm a { .apply t; disk = '/dev/a'; loader = uefi; memory = 1G; }");
  dirname := fun p => "/etc";
  glob := fun p => Some [p];
|}.

Lemma cycle_quoteless : quoteless_files cycle_fs.
Proof. intros uid gid p text [= <-]. destruct (String.eqb p "/etc/a.conf"); by apply (bool_decide_unpack _); vm_compute. Qed.

Lemma load_config_file_terminates_witness :
  wp (load_config_file tt demo_db cycle_fs (conf_parser cycle_fs (fun _ => []) (Some ∅)) (fun _ => Some []) 2 65536 [1048576; 0]
        demo_globals (Some []) true)
     (fun '(rc, _, _) => rc = 0 \/ rc = -1) (fun f => f <> OutOfFuel).
Proof.
  apply (load_config_file_terminates tt demo_db cycle_fs _ _ _ ["/etc/a.conf"; "/etc/b.conf"]).
  - exact cycle_quoteless.
  - intros fn path. cbn. destruct (String.eqb fn "/etc/b.conf"); intros [= <-]; set_solver.
  - cbn. lia.
  - apply Exists_cons_tl, Exists_cons_hd. by left.
Defined.

(** With enough memory they are read. *)
Example cycle_loads :
  match load_config_file tt demo_db cycle_fs (conf_parser cycle_fs (fun _ => []) (Some ∅)) (fun _ => Some []) 2 65536 [0]
          demo_globals (Some []) true [] with
  | Done (rc, Some l, _) _ => (rc, (fun e => (vc_name (ce_conf e), vc_ncpu (ce_conf e))) <$> l)
  | _ => (-1, [])
  end = (0, [(Some "a", Some "2")]).
Proof. vm_compute. reflexivity. Qed.
