(* ===== verification/Tap.v ===== *)
(** * Tap devices (src/tap.c)

    The network devices of the VMs: creating and destroying a tap, giving it a description, adding it to a
    bridge and marking it up.  Every function fills in a structure with room for a name of
    [IFNAMSIZ] characters and passes it to [ioctl].  The answers of the kernel are the record
    [if_sys] over a state of the world; the class [IfLaws] states what is documented of them. *)

From S2P Require Import Prelude.
From Stdlib Require Import String.

Local Open Scope Z_scope.

(** ** Operations *)

Definition IFNAMSIZ : nat := 16.

Definition IFF_UP : Z := 1.

(** The kernel: SIOCGIFFLAGS, SIOCSIFFLAGS, SIOCIFCREATE2, SIOCIFDESTROY, SIOCSIFDESCR and BRDGADD.  The flags of a
    device are two numbers of 16 bits, [ifr_flags] and [ifr_flagshigh]. *)
Record if_sys (W : Type) := {
  if_get : string -> W -> option (Z * Z) * W;
  if_set : string -> Z * Z -> W -> Z * W;
  if_create : string -> W -> option string * W;
  if_destroy : string -> W -> Z * W;
  if_describe : string -> option string -> Z -> W -> Z * W;
  if_bridge : string -> string -> W -> Z * W;
}.
Arguments if_get {W} i _ _.
Arguments if_set {W} i _ _ _.
Arguments if_create {W} i _ _.
Arguments if_destroy {W} i _ _.
Arguments if_describe {W} i _ _ _ _.
Arguments if_bridge {W} i _ _ _.

(** The name that fits: [strlcpy] leaves room for the terminating zero, [strncpy] does not. *)
Definition strlcpy_name (s : string) : string := substring 0 (IFNAMSIZ - 1) s.

Definition strncpy_name (s : string) : string := substring 0 IFNAMSIZ s.

(** A device whose name could not be stored has none. *)
Definition tap_name (name : option string) : C string :=
  match name with
  | Some s => mret s
  | None => crash NullTap
  end.

(** One [int] from two numbers of 16 bits; a negative number is not shifted in C. *)
Definition join_flags (fl : Z * Z) : C Z :=
  if fl.2 <? 0 then crash SignedOverflow
  else mret (Z.lor (Z.land fl.1 65535) (Z.shiftl fl.2 16)).

Definition split_flags (flags : Z) : Z * Z := (wrap_s 16 (Z.land flags 65535), wrap_s 16 (Z.shiftr flags 16)).

Section tap.
Context {W : Type} (sys : if_sys W).

Definition getifflags (w : W) (ifname : option string) : C (Z * W) :=
  ifname ← tap_name ifname;
  match if_get sys (strlcpy_name ifname) w with
  | (None, w) => mret (-1, w)
  | (Some fl, w) => flags ← join_flags fl; mret (flags, w)
  end.

(** A failure of [getifflags] is not noticed: -1 has all flags. *)
Definition setifflags (w : W) (name : option string) (value : Z) : C (Z * W) :=
  '(flags, w) ← getifflags w name;
  flags ← (if value <? 0 then
             if value =? INT_MIN then crash SignedOverflow else mret (Z.land flags (Z.lnot (- value)))
           else mret (Z.lor flags value));
  name ← tap_name name;
  mret (if_set sys (strlcpy_name name) (split_flags flags) w).

Definition add_to_bridge (w : W) (bridge tap : option string) : C (Z * W) :=
  tap ← tap_name tap;
  bridge ← deref bridge;
  mret (if_bridge sys (strlcpy_name bridge) (strlcpy_name tap) w).

Definition activate_tap (w : W) (name : option string) : C (Z * W) := setifflags w name IFF_UP.

(** [name] is a pointer to the name, which is replaced. *)
Definition create_tap (w : W) (name : option (option string)) : C (Z * option (option string) * W) :=
  match name with
  | None => mret (-1, None, w)
  | Some old =>
      match if_create sys "tap" w with
      | (None, w) => mret (-1, Some old, w)
      | (Some ifr_name, w) => p ← strdup ifr_name; mret (0, Some p, w)
      end
  end.

Definition destroy_tap (w : W) (name : string) : Z * W := if_destroy sys (strncpy_name name) w.

(** An empty description is removed. *)
Definition set_tap_description (w : W) (tap : option string) (desc : string) : C (Z * W) :=
  tap ← tap_name tap;
  let length := Z.of_nat (String.length desc) + 1 in
  mret (if length =? 1 then if_describe sys (strncpy_name tap) None 0 w
        else if_describe sys (strncpy_name tap) (Some desc) length w).

End tap.

(** ** What is documented of the devices *)

(** [net_of] are the devices that exist, with their flags; [net_fixed] are the flags that only the kernel changes. *)
Class IfLaws {W : Type} (sys : if_sys W) := {
  net_of : W -> gmap string Z;
  net_fixed : Z;
  net_range : forall w n f, net_of w !! n = Some f -> 0 <= f < 2 ^ 31;
  net_names : forall w n f, net_of w !! n = Some f -> (String.length n < IFNAMSIZ)%nat;
  net_up : Z.testbit net_fixed 0 = false;
  if_get_law : forall n w, net_of (if_get sys n w).2 = net_of w;
  if_get_flags : forall n w f, net_of w !! n = Some f -> (if_get sys n w).1 = Some (split_flags f);
  if_set_fails : forall n fl w, (if_set sys n fl w).1 < 0 -> net_of (if_set sys n fl w).2 = net_of w;
  if_set_law : forall n w old new,
    net_of w !! n = Some old -> 0 <= new < 2 ^ 31 -> 0 <= (if_set sys n (split_flags new) w).1 ->
    net_of (if_set sys n (split_flags new) w).2 =
      <[n := Z.lor (Z.land old net_fixed) (Z.land new (Z.lnot net_fixed))]> (net_of w);
  if_create_law : forall n w w', if_create sys "tap" w = (Some n, w') ->
    net_of w !! n = None /\ exists f, net_of w' = <[n := f]> (net_of w);
  if_create_fails : forall w w', if_create sys "tap" w = (None, w') -> net_of w' = net_of w;
  if_destroy_law : forall n w, let r := if_destroy sys n w in
    r.1 = 0 /\ net_of r.2 = delete n (net_of w) \/ r.1 <> 0 /\ net_of r.2 = net_of w;
  if_describe_law : forall n d len w, dom (net_of (if_describe sys n d len w).2) = dom (net_of w);
  if_bridge_law : forall b n w, dom (net_of (if_bridge sys b n w).2) = dom (net_of w);
}.

(** ** Flags *)

Lemma wrap_s_bits w z i : 0 < w -> 0 <= i < w -> Z.testbit (wrap_s w z) i = Z.testbit z i.
Proof.
  intros Hw Hi. assert (H : wrap_s w z mod 2 ^ w = z mod 2 ^ w).
  { unfold wrap_s. rewrite Zminus_mod_idemp_l. f_equal. lia. }
  rewrite <- (Z.mod_pow2_bits_low (wrap_s w z) w i), <- (Z.mod_pow2_bits_low z w i) by lia. by rewrite H.
Qed.

Lemma shiftr_high f : 0 <= f < 2 ^ 31 -> 0 <= Z.shiftr f 16 < 2 ^ 15.
Proof. intros Hf. rewrite Z.shiftr_div_pow2 by lia. change (2 ^ 31) with (2 ^ 15 * 2 ^ 16) in Hf. split; [apply Z.div_pos | apply Z.div_lt_upper_bound]; lia. Qed.

(** Splitting and joining the flags of a device. *)
Lemma join_split f : 0 <= f < 2 ^ 31 -> join_flags (split_flags f) = mret f.
Proof.
  intros Hf. pose proof (shiftr_high f Hf) as Hs. unfold join_flags, split_flags. cbn [fst snd].
  rewrite (wrap_s_id 16 (Z.shiftr f 16)) by lia. destruct (Z.ltb_spec (Z.shiftr f 16) 0) as [H | _]; [lia |]. f_equal.
  apply Z.bits_inj'. intros i Hi. rewrite Z.lor_spec, Z.shiftl_spec by done. change 65535 with (Z.ones 16). rewrite Z.land_spec.
  destruct (decide (i < 16)).
  - rewrite Z.ones_spec_low, andb_true_r, wrap_s_bits, Z.land_spec, Z.ones_spec_low, andb_true_r, (Z.testbit_neg_r _ (i - 16)), orb_false_r by lia.
    done.
  - rewrite Z.ones_spec_high, andb_false_r, Z.shiftr_spec by lia. cbn. f_equal. lia.
Qed.

Lemma lor_range f g n : 0 <= n -> 0 <= f < 2 ^ n -> 0 <= g < 2 ^ n -> 0 <= Z.lor f g < 2 ^ n.
Proof.
  intros Hn Hf Hg. split; [apply Z.lor_nonneg; lia |]. destruct (decide (Z.lor f g = 0)) as [-> | Hz]; [lia |].
  assert (0 <= Z.lor f g) by (apply Z.lor_nonneg; lia). apply Z.log2_lt_pow2; [lia |]. rewrite Z.log2_lor by lia.
  assert (Hl : forall x, 0 <= x < 2 ^ n -> x = 0 \/ Z.log2 x < n) by (intros x Hx; destruct (decide (x = 0)); [by left | right; apply Z.log2_lt_pow2; lia]).
  pose proof (Z.log2_nonneg f). pose proof (Z.log2_nonneg g).
  destruct (Hl f Hf) as [-> | ], (Hl g Hg) as [-> | ]; [done | change (Z.log2 0) with 0 .. | ]; lia.
Qed.

(** Flags that only the kernel changes are read and written back, so they stay. *)
Lemma lor_up f fixed : Z.testbit fixed 0 = false -> Z.lor (Z.land f fixed) (Z.land (Z.lor f IFF_UP) (Z.lnot fixed)) = Z.lor f IFF_UP.
Proof.
  intros Hx. apply Z.bits_inj'. intros i Hi. rewrite !Z.lor_spec, !Z.land_spec, !Z.lor_spec, Z.lnot_spec by done.
  destruct (decide (i = 0)) as [-> | Hne]; [by rewrite Hx; destruct (Z.testbit f 0) |].
  assert (Hup : Z.testbit IFF_UP i = false) by (apply Z.bits_above_log2; unfold IFF_UP; cbn; lia).
  rewrite Hup. by destruct (Z.testbit f i), (Z.testbit fixed i).
Qed.

Lemma substring_whole n s : (String.length s <= n)%nat -> substring 0 n s = s.
Proof.
  revert n. induction s as [| c s IH]; intros [| n] Hn; cbn in *; try done; [lia |]. f_equal. apply IH. lia.
Qed.

Section laws.
Context {W : Type} (sys : if_sys W) {Hsys : IfLaws sys}.

Lemma strlcpy_net w n f : net_of w !! n = Some f -> strlcpy_name n = n.
Proof. intros H%net_names. apply substring_whole. unfold IFNAMSIZ in *. lia. Qed.

Lemma strncpy_net w n f : net_of w !! n = Some f -> strncpy_name n = n.
Proof. intros H%net_names. apply substring_whole. lia. Qed.

Lemma activate_tap_run w n f :
  net_of w !! n = Some f ->
  exists rc w', activate_tap sys w (Some n) = mret (rc, w') /\
    net_of w' = if rc <? 0 then net_of w else <[n := Z.lor f IFF_UP]> (net_of w).
Proof.
  intros Hn. pose proof (if_get_flags n w f Hn) as Hg. pose proof (if_get_law n w) as Hk. pose proof (net_range w n f Hn) as Hf.
  assert (Hup : 0 <= Z.lor f IFF_UP < 2 ^ 31) by (apply lor_range; unfold IFF_UP; lia).
  destruct (if_get sys n w) as [fl w1] eqn:Eg. cbn in Hg, Hk. subst fl.
  destruct (if_set sys n (split_flags (Z.lor f IFF_UP)) w1) as [rc w2] eqn:Es. exists rc, w2. split.
  - unfold activate_tap, setifflags, getifflags, tap_name. rewrite !ret_bind, (strlcpy_net w n f Hn), Eg, (join_split f Hf), !ret_bind.
    change (IFF_UP <? 0) with false. cbn iota. rewrite !ret_bind, (strlcpy_net w n f Hn). by rewrite Es.
  - pose proof (if_set_fails n (split_flags (Z.lor f IFF_UP)) w1) as H1.
    pose proof (if_set_law n w1 f (Z.lor f IFF_UP)) as H2. rewrite Es, Hk in *. cbn in H1, H2.
    destruct (Z.ltb_spec rc 0); [by apply H1 |]. rewrite H2 by done. by rewrite lor_up by apply net_up.
Qed.

(** [activate_tap] marks the device up and leaves everything else: the flags that are written are those that the device has, split
    into two halves and joined again without loss, with IFF_UP; no other device is touched, and when the kernel refuses nothing
    has changed. *)
Theorem activate_tap_sets_up w n f :
  net_of w !! n = Some f ->
  exists rc w', activate_tap sys w (Some n) = mret (rc, w') /\
    net_of w' = if rc <? 0 then net_of w else <[n := Z.lor f IFF_UP]> (net_of w).
Proof. apply activate_tap_run. Qed.

End laws.

(** ** A small network *)

(** At most two taps, named from a table; what is no device is filtered out. *)
Definition is_device (p : string * Z) : Prop := (String.length p.1 < IFNAMSIZ)%nat /\ 0 <= p.2 < 2 ^ 31.

#[export] Instance is_device_dec p : Decision (is_device p).
Proof. unfold is_device. apply _. Defined.

Definition demo_devs (w : gmap string Z) : gmap string Z := filter is_device w.

Definition demo_join (fl : Z * Z) : option Z :=
  match join_flags fl [] with
  | Done f _ => if (0 <=? f) && (f <? 2 ^ 31) then Some f else None
  | Crash _ => None
  end.

Definition demo_if : if_sys (gmap string Z) := {|
  if_get := fun n w => (split_flags <$> demo_devs w !! n, w);
  if_set := fun n fl w =>
    match demo_devs w !! n, demo_join fl with
    | Some _, Some f => (0, <[n := f]> w)
    | _, _ => (-1, w)
    end;
  if_create := fun _ w =>
    match demo_devs w !! "tap0"%string, demo_devs w !! "tap1"%string with
    | None, _ => (Some "tap0"%string, <["tap0"%string := 2]> w)
    | _, None => (Some "tap1"%string, <["tap1"%string := 2]> w)
    | _, _ => (None, w)
    end;
  if_destroy := fun n w => (0, delete n w);
  if_describe := fun _ _ _ w => (0, w);
  if_bridge := fun _ _ w => (0, w);
|}.

Lemma demo_devs_insert n f w : is_device (n, f) -> demo_devs (<[n := f]> w) = <[n := f]> (demo_devs w).
Proof. intros H. unfold demo_devs. by rewrite map_filter_insert_True. Qed.

Lemma demo_devs_lookup w n f : demo_devs w !! n = Some f -> is_device (n, f).
Proof. intros H. by apply map_lookup_filter_Some in H as [_ H]. Qed.

#[export] Instance demo_if_laws : IfLaws demo_if.
Proof.
  refine {| net_of := demo_devs; net_fixed := 0 |}; try done.
  - intros w n f H. apply (demo_devs_lookup w n f H).
  - intros w n f H. apply (demo_devs_lookup w n f H).
  - intros n w f H. cbn. by rewrite H.
  - intros n fl w. cbn. by repeat case_match.
  - intros n w old new H Hn. cbn. rewrite H. unfold demo_join. rewrite (join_split new Hn). cbn -[Z.pow].
    replace ((0 <=? new) && (new <? 2 ^ 31)) with true by lia. intros _. cbn [snd].
    rewrite demo_devs_insert by (split; [apply (demo_devs_lookup w n old H) | done]).
    by rewrite Z.land_0_r, Z.lor_0_l, Z.land_m1_r.
  - intros n w w'. cbn. repeat case_match; intros [= <- <-]; (split; [done |]); exists 2;
      by rewrite demo_devs_insert by (split; cbn; unfold IFNAMSIZ; lia).
  - intros w w'. cbn. by repeat case_match; intros [= <-].
  - intros n w. left. split; [done |]. cbn. unfold demo_devs. by rewrite map_filter_delete.
Defined.

(** A tap that is broadcast and multicast, and one more. *)
Definition demo_taps : gmap string Z := {["tap0"%string := 34818; "tap1"%string := 2]}.

Lemma activate_tap_sets_up_witness :
  exists rc w', activate_tap demo_if demo_taps (Some "tap0"%string) = mret (rc, w') /\
    demo_devs w' = (if rc <? 0 then demo_devs demo_taps else <["tap0"%string := 34819]> (demo_devs demo_taps)).
Proof. exact (activate_tap_sets_up demo_if demo_taps "tap0" 34818 eq_refl). Defined.
