(* ===== verification/Vm.v ===== *)
(** * The backend for bhyve (src/vm.c, src/conf.c 1062-1143, src/conf.h 131-144)

    How a VM is started: the network devices, the loader, the argument vectors
    of [bhyveload], [grub-bhyve] and [bhyve], and the clean-up.  The functions
    are the members of [bhyve_method].

    The kernel is the record [kernel] of the answers of its calls on an abstract
    state [W]; a call that only fails for lack of memory is in the oracle.  What
    the child does between [fork] and [execv] is here the computation of its
    argument vector, without failing allocations; what it does with its
    descriptors is in the file Descriptors. *)

From S2P Require Import Prelude CString Vars Conf Global MPool Plugin ParseValue Parser Load Tap.
From Stdlib Require Import Ascii.

Local Open Scope Z_scope.

(** ** Data *)

Inductive STATE := TERMINATE | LOAD | RUN | STOP | REMOVE | RESTART.

#[export] Instance STATE_eq_dec : EqDecision STATE.
Proof. solve_decision. Defined.

(** [vm_ent_conf] is the [struct vm_conf_entry] that begins with [*conf]. *)
Record vm (NV : Type) := {
  vm_ent_conf : vm_conf_entry NV;
  vm_state : STATE;
  vm_pid : Z;
  vm_taps : list net_conf;
  vm_mapfile : option string;
  vm_varsfile : option string;
  vm_assigned_comport : option string;
  vm_infd : Z;
  vm_outfd : Z;
  vm_errfd : Z;
  vm_logfd : Z;
}.
Arguments vm_ent_conf {NV} v.
Arguments vm_state {NV} v.
Arguments vm_pid {NV} v.
Arguments vm_taps {NV} v.
Arguments vm_mapfile {NV} v.
Arguments vm_varsfile {NV} v.
Arguments vm_assigned_comport {NV} v.
Arguments vm_infd {NV} v.
Arguments vm_outfd {NV} v.
Arguments vm_errfd {NV} v.
Arguments vm_logfd {NV} v.

#[export] Instance eta_vm {NV} : Eta (vm NV) := fun v => {|
  vm_ent_conf := vm_ent_conf v; vm_state := vm_state v; vm_pid := vm_pid v; vm_taps := vm_taps v;
  vm_mapfile := vm_mapfile v; vm_varsfile := vm_varsfile v;
  vm_assigned_comport := vm_assigned_comport v; vm_infd := vm_infd v; vm_outfd := vm_outfd v;
  vm_errfd := vm_errfd v; vm_logfd := vm_logfd v |}.

(** A VM as [create_vm_entry] makes it. *)
Definition new_vm {NV} (ce : vm_conf_entry NV) : vm NV := {|
  vm_ent_conf := ce; vm_state := TERMINATE; vm_pid := -1; vm_taps := []; vm_mapfile := None;
  vm_varsfile := None; vm_assigned_comport := None; vm_infd := -1; vm_outfd := -1; vm_errfd := -1;
  vm_logfd := -1 |}.

(** The pointer [conf]. *)
Definition vm_get_conf {NV} (v : vm NV) : vm_conf := ce_conf (vm_ent_conf v).

(** The functions through which a plugin reads and writes the VM. *)
Definition get_infd {NV} (v : vm NV) : Z := vm_infd v.
Definition get_outfd {NV} (v : vm NV) : Z := vm_outfd v.
Definition get_errfd {NV} (v : vm NV) : Z := vm_errfd v.
Definition get_logfd {NV} (v : vm NV) : Z := vm_logfd v.
Definition set_infd {NV} (v : vm NV) (fd : Z) : vm NV := v <| vm_infd := fd |>.
Definition set_outfd {NV} (v : vm NV) (fd : Z) : vm NV := v <| vm_outfd := fd |>.
Definition set_errfd {NV} (v : vm NV) (fd : Z) : vm NV := v <| vm_errfd := fd |>.
Definition set_logfd {NV} (v : vm NV) (fd : Z) : vm NV := v <| vm_logfd := fd |>.
Definition get_assigned_comport {NV} (v : vm NV) : option string := vm_assigned_comport v.
Definition set_pid {NV} (v : vm NV) (pid : Z) : vm NV := v <| vm_pid := pid |>.
Definition set_state {NV} (v : vm NV) (st : STATE) : vm NV := v <| vm_state := st |>.
Definition get_state {NV} (v : vm NV) : STATE := vm_state v.
Definition get_taps {NV} (v : vm NV) : option net_conf := head (vm_taps v).

(** Three of the ways to suspend a VM in <machine/vmm.h>. *)
Inductive vm_suspend_how := VM_SUSPEND_RESET | VM_SUSPEND_POWEROFF | VM_SUSPEND_HALT.

Definition SIGKILL : Z := 9.
Definition SIGTERM : Z := 15.

(** What the kernel answers.  [sys_vm_suspend] is [open] of a device under
    /dev/vmm and the [ioctl] on it. *)
Record kernel (W : Type) := {
  sys_fork : W -> option Z * W;
  sys_pipe : W -> option (Z * Z) * W;
  sys_close : Z -> W -> W;
  sys_write : Z -> string -> W -> W;
  sys_socket : W -> bool * W;
  sys_if : if_sys W;
  sys_mkstemp : string -> W -> option string * W;
  sys_write_file : string -> string -> W -> bool * W;
  sys_is_file : string -> W -> bool;
  sys_unlink : string -> W -> W;
  sys_copy_file : string -> string -> W -> bool * W;
  sys_kill : Z -> Z -> W -> Z * W;
  sys_vm_suspend : string -> vm_suspend_how -> W -> Z * W;
  sys_vmm_destroy : string -> W -> W;
}.
Arguments sys_fork {W} k _.
Arguments sys_pipe {W} k _.
Arguments sys_close {W} k _ _.
Arguments sys_write {W} k _ _ _.
Arguments sys_socket {W} k _.
Arguments sys_if {W} k.
Arguments sys_mkstemp {W} k _ _.
Arguments sys_write_file {W} k _ _ _.
Arguments sys_is_file {W} k _ _.
Arguments sys_unlink {W} k _ _.
Arguments sys_copy_file {W} k _ _ _.
Arguments sys_kill {W} k _ _ _.
Arguments sys_vm_suspend {W} k _ _ _.
Arguments sys_vmm_destroy {W} k _ _.

(** The functions of [struct vm_method], which get the VM and a pointer to the
    configuration that belongs to the plugin: what it points to, and [None] for a pointer to
    freed memory, which only a function that does not follow it survives.  Changes of that configuration by
    the backend are not modelled. *)
Record vm_ops (NV W : Type) := {
  vm_start : option NV -> W -> vm NV -> C (Z * vm NV * W);
  vm_reset : option NV -> W -> vm NV -> C (Z * W);
  vm_poweroff : option NV -> W -> vm NV -> C (Z * W);
  vm_acpi_poweroff : option NV -> W -> vm NV -> C (Z * W);
  vm_cleanup : option NV -> W -> vm NV -> C (vm NV * W);
}.
Arguments vm_start {NV W} v _ _ _.
Arguments vm_reset {NV W} v _ _ _.
Arguments vm_poweroff {NV W} v _ _ _.
Arguments vm_acpi_poweroff {NV W} v _ _ _.
Arguments vm_cleanup {NV W} v _ _ _.

Definition UEFI_CSM_FIRMWARE : string := LOCALBASE +:+ "/share/uefi-firmware/BHYVE_UEFI_CSM.fd".
Definition UEFI_FIRMWARE : string := LOCALBASE +:+ "/share/uefi-firmware/BHYVE_UEFI.fd".
Definition UEFI_FIRMWARE_VARS : string := LOCALBASE +:+ "/share/uefi-firmware/BHYVE_UEFI_VARS.fd".

(** ** Argument vectors *)

Definition get_fbuf_option (pcid : Z) (fb : fbuf) : string :=
  print_dec pcid +:+ ",fbuf,tcp=" +:+ pct_s (fb_ipaddr fb) +:+ ":" +:+ print_dec (fb_port fb)
  +:+ ",w=" +:+ print_dec (fb_width fb) +:+ ",h=" +:+ print_dec (fb_height fb)
  +:+ ",vga=" +:+ pct_s (fb_vgaconf fb) +:+ (if fb_wait fb =? 0 then EmptyString else ",wait")
  +:+ match fb_password fb with None => EmptyString | Some p => ",password=" +:+ p end.

(** A loop over devices: the arguments written and the next slot. *)
Fixpoint write_devs {A} (f : A -> string) (pcid : Z) (l : list A) : list string * Z :=
  match l with
  | [] => ([], pcid)
  | x :: l' =>
      let '(args, next) := write_devs f (pcid + 1) l' in
      ("-s" :: (print_dec pcid +:+ "," +:+ f x) :: args, next)
  end.

(** [WRITE_STR] of a pointer: NULL ends the vector that [execv] sees. *)
Definition arg_list (l : list (option string)) : list string :=
  (fix go l := match l with Some a :: l' => a :: go l' | _ => [] end) l.

Definition hostbridge_args (h : HOSTBRIDGE_TYPE) : list string :=
  match h with NONE => [] | INTEL => ["0,hostbridge"] | AMD => ["0,amd_hostbridge"] end.

(** The vector of [exec_bhyve]: the options, the devices, the name. *)
Definition bhyve_options {NV} (v : vm NV) (loader : string) : list (option string) :=
  let conf := vm_get_conf v in
  [Some "/usr/sbin/bhyve"; Some "-A"; Some "-H"; Some "-w"] ++
  (if vc_utctime conf then [Some "-u"] else []) ++
  (if vc_wired_memory conf then [Some "-S"] else []) ++
  match vc_debug_port conf with Some p => [Some "-G"; Some p] | None => [] end ++
  [Some "-c"; vc_ncpu conf; Some "-m"; vc_memory conf] ++
  match vm_assigned_comport v with Some c => [Some "-l"; Some ("com1," +:+ c)] | None => [] end ++
  match vc_keymap conf with Some k => [Some "-K"; Some k] | None => [] end ++
  (if strcasecmp loader "uefi" =? 0 then
     [Some "-l"; Some ("bootrom," +:+ UEFI_FIRMWARE +:+
                       match vm_varsfile v with Some f => "," +:+ f | None => EmptyString end)]
   else if strcasecmp loader "csm" =? 0 then
     [Some "-l"; Some ("bootrom," +:+ UEFI_CSM_FIRMWARE)]
   else []) ++
  [Some "-s"] ++ (Some <$> hostbridge_args (vc_hostbridge conf)) ++ [Some "-s"; Some "1,lpc"].

Definition bhyve_devices {NV} (v : vm NV) (fb : fbuf) : list string :=
  let conf := vm_get_conf v in
  let '(disks, pcid) := write_devs (fun d => pct_s (d_type d) +:+ "," +:+ pct_s (d_path d)) 2
                          (stq_items (vc_disks conf)) in
  let '(isoes, pcid) := write_devs (fun i => pct_s (i_type i) +:+ "," +:+ pct_s (i_path i)) pcid
                          (stq_items (vc_isoes conf)) in
  let '(nets, pcid) := write_devs (fun n => pct_s (n_type n) +:+ "," +:+ pct_s (n_tap n)) pcid
                         (vm_taps v) in
  let '(pass, pcid) := write_devs (fun p => "passthru," +:+ pct_s (p_devid p)) pcid
                         (stq_items (vc_passthrues conf)) in
  let '(fbuf, pcid) := if fb_enable fb =? 0 then ([], pcid)
                       else (["-s"; get_fbuf_option pcid fb], pcid + 1) in
  let mouse := if vc_mouse conf then ["-s"; print_dec pcid +:+ ",xhci,tablet"] else [] in
  disks ++ isoes ++ nets ++ pass ++ fbuf ++ mouse.

Definition bhyve_args {NV} (v : vm NV) : C (list string) :=
  loader ← deref (vc_loader (vm_get_conf v));
  fb ← deref (vc_fbuf (vm_get_conf v));
  mret (arg_list (bhyve_options v loader ++ (Some <$> bhyve_devices v fb) ++
                  [vc_name (vm_get_conf v); None])).

(** *** Vectors built from lines *)

(** The parts of a string between its newlines, as [strsep] finds them. *)
Fixpoint strsep_all (s : string) : list string :=
  match s with
  | EmptyString => [EmptyString]
  | String c s' =>
      if Ascii.eqb c LF then EmptyString :: strsep_all s'
      else match strsep_all s' with
           | t :: ts => String c t :: ts
           | [] => [String c EmptyString]
           end
  end.

Fixpoint count_lf (s : string) : nat :=
  match s with
  | EmptyString => 0
  | String c s' => if Ascii.eqb c LF then S (count_lf s') else count_lf s'
  end.

(** The loop over the parts: [arr] is the array, [ap] the position, [n] the
    number of newlines.  An empty part does not move [ap]; reaching [n] ends
    the loop; the end of the buffer stores NULL. *)
Fixpoint split_loop (n : nat) (ts : list string) (ap : nat) (arr : list (option string))
    : list (option string) :=
  match ts with
  | [] => <[ap := None]> arr
  | t :: ts' =>
      let arr := <[ap := Some t]> arr in
      match t with
      | EmptyString => split_loop n ts' ap arr
      | String _ _ => if Nat.leb n (S ap) then arr else split_loop n ts' (S ap) arr
      end
  end.

(** The array of [n + 1] pointers; [None] when it cannot be allocated. *)
Definition split_args (buf : string) : C (option (list (option string))) :=
  let n := count_lf buf in
  ok ← malloc;
  mret (if (ok : bool) then Some (split_loop n (strsep_all buf) 0 (replicate (S n) None)) else None).

(** The text that is written: one argument per line. *)
Definition lines (l : list string) : string := foldr (fun a s => a +:+ String LF s) EmptyString l.

Definition grub_lines {NV} (v : vm NV) : list string :=
  let conf := vm_get_conf v in
  [LOCALBASE +:+ "/sbin/grub-bhyve"] ++
  (if vc_wired_memory conf then ["-S"] else []) ++
  ["-r"; if vc_install conf then "cd0"
         else match vc_grub_run_partition conf with Some p => "hd0," +:+ p | None => "hd0,1" end;
   "-M"; pct_s (vc_memory conf); "-m"; pct_s (vm_mapfile v); pct_s (vc_name conf)].

Definition bhyveload_lines {NV} (v : vm NV) : C (list string) :=
  let conf := vm_get_conf v in
  path ← (if vc_install conf then i ← deref (STAILQ_FIRST (vc_isoes conf)); mret (i_path i)
          else d ← deref (STAILQ_FIRST (vc_disks conf)); mret (d_path d));
  mret (["/usr/sbin/bhyveload"] ++
        (if vc_wired_memory conf then ["-S"] else []) ++
        (if vc_single_user conf then ["-e"; "boot_single=YES"] else []) ++
        mjoin ((fun e => ["-e"; e]) <$> stq_items (vc_bhyveload_envs conf)) ++
        match vc_bhyveload_loader conf with Some l => ["-l"; l] | None => [] end ++
        ["-c"; match vm_assigned_comport v with Some c => c | None => "stdio" end;
         "-m"; pct_s (vc_memory conf); "-d"; pct_s path; pct_s (vc_name conf)]).

(** ** Starting *)

Section bhyve.
Context {NV W : Type} (k : kernel W) (inspect : vm_conf -> W -> C (option string * W)).

(** The text for the prompt of grub.  [inspect] is the function of
    src/inspect.c, which Inspect.v models. *)
Definition create_load_command (w : W) (conf : vm_conf) : C (option string * W) :=
  match (if vc_install conf then vc_installcmd conf else vc_loadcmd conf) with
  | None => mret (None, w)
  | Some t =>
      if strcasecmp t "auto" =? 0 then inspect conf w
      else
        let cmd :=
          let plain := t +:+ String LF ("boot" +:+ String LF EmptyString) in
          let single p := p +:+ "-s " +:+ drop_str (String.length p) t
                            +:+ String LF ("boot" +:+ String LF EmptyString) in
          if vc_single_user conf then
            if strncmp t "kopenbsd " 9 =? 0 then single "kopenbsd "
            else if strncmp t "knetbsd " 8 =? 0 then single "knetbsd "
            else plain
          else plain in
        cmd ← strdup cmd; mret (cmd, w)
  end.

Definition mapfile_text (conf : vm_conf) : string :=
  foldr (fun x s => x +:+ s) EmptyString
    (imap (fun i d => "(hd" +:+ print_dec (Z.of_nat i) +:+ ") " +:+ pct_s (d_path d) +:+ nl)
       (stq_items (vc_disks conf)) ++
     imap (fun i d => "(cd" +:+ print_dec (Z.of_nat i) +:+ ") " +:+ pct_s (i_path d) +:+ nl)
       (stq_items (vc_isoes conf))).

(** [sys_mkstemp] completes the template, with the number of the process and
    random letters; [sys_write_file] stands for [fdopen], the calls of [fprintf] and [fclose].  The old file is
    removed, and so is the new one when it cannot be written. *)
Definition write_mapfile (w : W) (conf : vm_conf) (mapfile : option string)
    : C (Z * option string * W) :=
  ok ← malloc;
  if negb ok then mret (-1, mapfile, w)
  else
    let '(fn, w) := sys_mkstemp k ("/tmp/bmd." +:+ pct_s (vc_name conf)) w in
    match fn with
    | None => mret (-1, mapfile, w)
    | Some fn =>
        let w := match mapfile with Some old => sys_unlink k old w | None => w end in
        let '(ok, w) := sys_write_file k fn (mapfile_text conf) w in
        mret (if ok then (0, Some fn, w) else (-1, None, sys_unlink k fn w))
    end.

Definition copy_uefi_vars (w : W) (v : vm NV) (vars_dir : option string) : C (Z * vm NV * W) :=
  let conf := vm_get_conf v in
  fn ← match vm_varsfile v with
       | Some fn => mret (Some fn)
       | None => strdup (pct_s vars_dir +:+ "/" +:+ pct_s (vc_name conf) +:+ ".vars")
       end;
  match fn with
  | None => mret (-1, v, w)
  | Some fn =>
      let v := v <| vm_varsfile := Some fn |> in
      if negb (vc_install conf) && sys_is_file k fn w then mret (0, v, w)
      else
        let '(ok, w) := sys_copy_file k UEFI_FIRMWARE_VARS fn w in
        mret (if ok then 0 else -1, v, w)
  end.

(** Whether the output goes to pipes. *)
Definition dopipe (v : vm NV) : bool :=
  match vm_assigned_comport v with
  | None => true
  | Some c => negb (strcasecmp c "stdio" =? 0)
  end.

(** The two pipes of the output: [None] when one cannot be made. *)
Definition output_pipes (w : W) (v : vm NV) : option (option ((Z * Z) * (Z * Z))) * W :=
  if dopipe v then
    match sys_pipe k w with
    | (Some outfd, w) =>
        match sys_pipe k w with
        | (Some errfd, w) => (Some (Some (outfd, errfd)), w)
        | (None, w) => (None, sys_close k outfd.2 (sys_close k outfd.1 w))
        end
    | (None, w) => (None, w)
    end
  else (Some None, w).

(** The parent keeps the ends to read from. *)
Definition with_pipes (w : W) (v : vm NV) (fds : option ((Z * Z) * (Z * Z))) : vm NV * W :=
  match fds with
  | Some (outfd, errfd) =>
      (v <| vm_outfd := outfd.1 |> <| vm_errfd := errfd.1 |>, sys_close k errfd.2 (sys_close k outfd.2 w))
  | None => (v, w)
  end.

Definition close_pipes (w : W) (fds : option ((Z * Z) * (Z * Z))) : W :=
  match fds with
  | Some (outfd, errfd) => foldl (fun w fd => sys_close k fd w) w [outfd.1; outfd.2; errfd.1; errfd.2]
  | None => w
  end.

Definition bhyve_load (w : W) (v : vm NV) : C (Z * vm NV * W) :=
  match output_pipes w v with
  | (None, w) => mret (-1, v, w)
  | (Some fds, w) =>
      match sys_fork k w with
      | (Some pid, w) => let '(v, w) := with_pipes w v fds in mret (0, v <| vm_pid := pid |> <| vm_state := LOAD |>, w)
      | (None, w) => mret (-1, v, close_pipes w fds)
      end
  end.

(** When [fork] fails the pipe stays open. *)
Definition grub_load (w : W) (v : vm NV) : C (Z * vm NV * W) :=
  '(cmd, w) ← create_load_command w (vm_get_conf v);
  let '(ifd, w) := match cmd with
                   | Some _ => sys_pipe k w
                   | None => (Some (-1, -1), w)
                   end in
  match ifd with
  | None => mret (-1, v, w)
  | Some ifd =>
      match sys_fork k w with
      | (Some pid, w) =>
          let w := match cmd with
                   | Some text => sys_write k ifd.1 (text +:+ String Ascii.zero EmptyString) (sys_close k ifd.2 w)
                   | None => w
                   end in
          mret (0, v <| vm_pid := pid |> <| vm_state := LOAD |> <| vm_infd := ifd.1 |>
                     <| vm_outfd := -1 |> <| vm_errfd := -1 |>, w)
      | (None, w) => mret (-1, v, w)
      end
  end.

(** When [fork] fails here the daemon itself exits. *)
Definition exec_bhyve (w : W) (v : vm NV) : C (Z * vm NV * W) :=
  match output_pipes w v with
  | (None, w) => mret (-1, v, w)
  | (Some fds, w) =>
      match sys_fork k w with
      | (Some pid, w) => let '(v, w) := with_pipes w v fds in mret (0, v <| vm_pid := pid |> <| vm_state := RUN |>, w)
      | (None, w) => crash ProcessExit
      end
  end.

Definition start_bhyve (vars_dir : option string) (w : W) (v : vm NV) : C (Z * vm NV * W) :=
  if decide (vm_state v = LOAD) then exec_bhyve w v
  else
    loader ← deref (vc_loader (vm_get_conf v));
    if strcasecmp loader "bhyveload" =? 0 then bhyve_load w v
    else if strcasecmp loader "grub" =? 0 then
      '(rc, mapfile, w) ← write_mapfile w (vm_get_conf v) (vm_mapfile v);
      let v := v <| vm_mapfile := mapfile |> in
      if rc <? 0 then mret (-1, v, w) else grub_load w v
    else if strcasecmp loader "uefi" =? 0 then
      '(rc, v, w) ← copy_uefi_vars w v vars_dir;
      if rc <? 0 then mret (-1, v, w) else exec_bhyve w v
    else if strcasecmp loader "csm" =? 0 then exec_bhyve w v
    else mret (-1, v, w).

(** ** Stopping *)

Definition suspend_bhyve (w : W) (v : vm NV) (how : vm_suspend_how) : C (Z * W) :=
  ok ← malloc;
  mret (if (ok : bool) then sys_vm_suspend k ("/dev/vmm/" +:+ pct_s (vc_name (vm_get_conf v))) how w
        else (-1, w)).

Definition reset_bhyve (w : W) (v : vm NV) : C (Z * W) := suspend_bhyve w v VM_SUSPEND_RESET.

Definition poweroff_bhyve (w : W) (v : vm NV) : C (Z * W) :=
  if decide (vm_state v = LOAD) then mret (sys_kill k (vm_pid v) SIGKILL w)
  else suspend_bhyve w v VM_SUSPEND_POWEROFF.

Definition acpi_poweroff_bhyve (w : W) (v : vm NV) : C (Z * W) :=
  mret (sys_kill k (vm_pid v) SIGTERM w).

Definition destroy_bhyve (w : W) (v : vm NV) : C W :=
  name ← deref (vc_name (vm_get_conf v)); mret (sys_vmm_destroy k name w).

(** [VM_CLOSE] and [VM_CLOSE_FD]. *)
Definition close_fd (w : W) (fd : Z) : W := if fd =? -1 then w else sys_close k fd w.

(** The descriptors are closed and the map file is removed. *)
Definition cleanup_bhyve (w : W) (v : vm NV) : C (vm NV * W) :=
  let w := foldl close_fd w [vm_infd v; vm_outfd v; vm_errfd v; vm_logfd v] in
  let v := v <| vm_infd := -1 |> <| vm_outfd := -1 |> <| vm_errfd := -1 |> <| vm_logfd := -1 |> in
  w ← destroy_bhyve w v;
  let w := match vm_mapfile v with Some fn => sys_unlink k fn w | None => w end in
  mret (v <| vm_mapfile := None |> <| vm_state := TERMINATE |>, w).

Definition bhyve_method (vars_dir : option string) : vm_ops NV W := {|
  vm_start := fun _ => start_bhyve vars_dir;
  vm_reset := fun _ => reset_bhyve;
  vm_poweroff := fun _ => poweroff_bhyve;
  vm_acpi_poweroff := fun _ => acpi_poweroff_bhyve;
  vm_cleanup := fun _ => cleanup_bhyve;
|}.

(** [size] is what [read] returned, [fatal] whether the [write] to the log
    failed.  The result of a [write] that succeeded is overwritten with 0. *)
Definition write_err_log (w : W) (fd size : Z) (fatal : bool) (v : vm NV) : Z * vm NV * W :=
  if size =? 0 then
    (0, v <| vm_outfd := if vm_outfd v =? fd then -1 else vm_outfd v |>
          <| vm_errfd := if vm_errfd v =? fd then -1 else vm_errfd v |>, sys_close k fd w)
  else if (0 <? size) && negb (vm_logfd v =? -1) && negb fatal then
    (size, v <| vm_logfd := -1 |>, sys_close k (vm_logfd v) w)
  else (size, v, w).

(** ** Network devices *)

(** The loop that destroys the devices that were made. *)
Definition destroy_taps (w : W) (l : list net_conf) : W :=
  foldl (fun w nc => match n_tap nc with Some tap => (destroy_tap (sys_if k) w tap).2 | None => w end) w l.

Definition remove_taps (w : W) (v : vm NV) : Z * vm NV * W :=
  match sys_socket k w with
  | (false, w) => (-1, v, w)
  | (true, w) => (0, v <| vm_taps := [] |>, destroy_taps w (vm_taps v))
  end.

(** A device that does not come up is only logged. *)
Definition activate_taps (w : W) (v : vm NV) : C (Z * vm NV * W) :=
  match sys_socket k w with
  | (false, w) => mret (-1, v, w)
  | (true, w) =>
      w ← foreach (fun w nc => '(_, w) ← activate_tap (sys_if k) w (n_tap nc); mret w) (vm_taps v) w;
      mret (0, v, w)
  end.

(** The copies of the networks; [None] when one cannot be allocated. *)
Fixpoint copy_nets (l : list net_conf) : C (option (list net_conf)) :=
  match l with
  | [] => mret (Some [])
  | nc :: l' =>
      nnc ← copy_net_conf nc;
      match nnc with
      | None => mret None
      | Some nnc => r ← copy_nets l'; mret (cons nnc <$> r)
      end
  end.

(** One network: a device with a description on the bridge, and whether this succeeded. *)
Definition make_tap (w : W) (nc : net_conf) (desc : string) : C (bool * net_conf * W) :=
  '(rc, tap, w) ← create_tap (sys_if k) w (Some (n_tap nc));
  let nc := {| n_type := n_type nc; n_bridge := n_bridge nc; n_tap := mjoin tap |} in
  if rc <? 0 then mret (false, nc, w)
  else
    '(rc, w) ← set_tap_description (sys_if k) w (n_tap nc) desc;
    if rc <? 0 then mret (false, nc, w)
    else '(rc, w) ← add_to_bridge (sys_if k) w (n_bridge nc) (n_tap nc); mret (negb (rc <? 0), nc, w).

(** The loop over all of them, [i] is the number in the description; a network whose description cannot be
    allocated is skipped. *)
Fixpoint create_taps (name : option string) (i : nat) (w : W) (l : list net_conf) : C (bool * list net_conf * W) :=
  match l with
  | [] => mret (true, [], w)
  | nc :: l' =>
      ok ← malloc;
      '(made, nc, w) ← (if (ok : bool) then make_tap w nc ("vm-" +:+ pct_s name +:+ "-" +:+ print_dec (Z.of_nat i))
                        else mret (true, nc, w));
      if (made : bool) then '(all, r, w) ← create_taps name (S i) w l'; mret (all, nc :: r, w)
      else mret (false, nc :: l', w)
  end.

Definition assign_taps (w : W) (v : vm NV) : C (Z * vm NV * W) :=
  let conf := vm_get_conf v in
  match vm_taps v with
  | _ :: _ => mret (0, v, w)
  | [] =>
      nets ← copy_nets (stq_items (vc_nets conf));
      match nets with
      | None => mret (-1, v <| vm_taps := [] |>, w)
      | Some nets =>
          match sys_socket k w with
          | (false, w) => mret (-1, v <| vm_taps := [] |>, w)
          | (true, w) =>
              '(ok, taps, w) ← create_taps (vc_name conf) 0 w nets;
              let v := v <| vm_taps := taps |> in
              if (ok : bool) then mret (0, v, w)
              else let '(_, v, w) := remove_taps w v in mret (-1, v, w)
          end
      end
  end.

End bhyve.

(** ** Argument vectors *)

Fixpoint no_lf (s : string) : bool :=
  match s with
  | EmptyString => true
  | String c s' => negb (Ascii.eqb c LF) && no_lf s'
  end.

(** What can be passed as one argument: a line that is not empty. *)
Definition is_arg (a : string) : bool := no_lf a && negb (String.eqb a EmptyString).

Lemma strsep_all_line a s : no_lf a = true -> strsep_all (a +:+ String LF s) = a :: strsep_all s.
Proof.
  induction a as [| c a IH]; intros H; [done |]. cbn in H. apply andb_true_iff in H as [Hc H].
  change (String c a +:+ String LF s) with (String c (a +:+ String LF s)). cbn [strsep_all].
  destruct (Ascii.eqb c LF); [done |]. by rewrite IH.
Qed.

Lemma count_lf_line a s : no_lf a = true -> count_lf (a +:+ String LF s) = S (count_lf s).
Proof.
  induction a as [| c a IH]; intros H; [done |]. cbn in H. apply andb_true_iff in H as [Hc H].
  change (String c a +:+ String LF s) with (String c (a +:+ String LF s)). cbn [count_lf].
  destruct (Ascii.eqb c LF); [done |]. by apply IH.
Qed.

Lemma lines_split l :
  forallb no_lf l = true ->
  strsep_all (lines l) = l ++ [EmptyString] /\ count_lf (lines l) = length l.
Proof.
  induction l as [| a l IH]; intros H; [done |]. cbn in H. apply andb_true_iff in H as [Ha H].
  destruct (IH H) as [IH1 IH2]. cbn [lines foldr].
  rewrite strsep_all_line, count_lf_line by done. fold (lines l). by rewrite IH1, IH2.
Qed.

Lemma split_loop_args ts : forall pre,
  ts <> [] -> forallb (fun a => negb (String.eqb a EmptyString)) ts = true ->
  split_loop (length pre + length ts) (ts ++ [EmptyString]) (length pre)
    (pre ++ replicate (S (length ts)) None)
  = pre ++ (Some <$> ts) ++ [None].
Proof.
  induction ts as [| t ts IH]; intros pre Hne H; [done |].
  cbn in H. apply andb_true_iff in H as [Ht H]. destruct t as [| c t]; [done |].
  cbn [app split_loop length replicate].
  assert (E : <[length pre := Some (String c t)]> (pre ++ None :: None :: replicate (length ts) None)
              = (pre ++ [Some (String c t)]) ++ replicate (S (length ts)) None).
  { rewrite <- app_assoc, <- (Nat.add_0_r (length pre)), insert_app_r. done. }
  rewrite E. destruct (Nat.leb_spec (length pre + S (length ts)) (S (length pre))) as [Hle | Hlt].
  - destruct ts; [| cbn in Hle; lia]. cbn. by rewrite <- app_assoc.
  - assert (Hts : ts <> []) by (intros ->; cbn in Hlt; lia).
    specialize (IH (pre ++ [Some (String c t)]) Hts H). rewrite length_app in IH. cbn [length] in IH.
    replace (length pre + 1)%nat with (S (length pre)) in IH by lia.
    replace (length pre + S (length ts))%nat with (S (length pre) + length ts)%nat by lia.
    rewrite IH, <- app_assoc. done.
Qed.

(** An argument vector survives its way through the buffer: when the
    arguments are written one per line, none of them empty or with a newline,
    [split_args] gives exactly these arguments, terminated by NULL, within the
    array it has allocated. *)
Theorem split_args_lines l :
  l <> [] -> forallb is_arg l = true ->
  runs (split_args (lines l)) (Some ((Some <$> l) ++ [None])).
Proof.
  intros Hne H. unfold is_arg in H.
  assert (H1 : forallb no_lf l = true /\
               forallb (fun a => negb (String.eqb a EmptyString)) l = true).
  { rewrite !forallb_forall in *. split; intros x Hx; specialize (H x Hx);
      by apply andb_true_iff in H as [? ?]. }
  destruct H1 as [H1 H2]. destruct (lines_split l H1) as [E1 E2].
  unfold split_args. eapply runs_bind; [apply runs_malloc |]. cbn zeta. rewrite E1, E2.
  pose proof (split_loop_args l [] Hne H2) as E. cbn [app length] in E. cbn [Nat.add] in E.
  rewrite E. apply runs_ret.
Qed.

(** The devices of a VM in the order of their slots. *)
Definition fbuf_dev (fb : fbuf) : string :=
  "fbuf,tcp=" +:+ pct_s (fb_ipaddr fb) +:+ ":" +:+ print_dec (fb_port fb)
  +:+ ",w=" +:+ print_dec (fb_width fb) +:+ ",h=" +:+ print_dec (fb_height fb)
  +:+ ",vga=" +:+ pct_s (fb_vgaconf fb) +:+ (if fb_wait fb =? 0 then EmptyString else ",wait")
  +:+ match fb_password fb with None => EmptyString | Some p => ",password=" +:+ p end.

Definition vm_devs {NV} (v : vm NV) (fb : fbuf) : list string :=
  let conf := vm_get_conf v in
  ((fun d => pct_s (d_type d) +:+ "," +:+ pct_s (d_path d)) <$> stq_items (vc_disks conf)) ++
  ((fun i => pct_s (i_type i) +:+ "," +:+ pct_s (i_path i)) <$> stq_items (vc_isoes conf)) ++
  ((fun n => pct_s (n_type n) +:+ "," +:+ pct_s (n_tap n)) <$> vm_taps v) ++
  ((fun p => "passthru," +:+ pct_s (p_devid p)) <$> stq_items (vc_passthrues conf)) ++
  (if fb_enable fb =? 0 then [] else [fbuf_dev fb]) ++
  (if vc_mouse conf then ["xhci,tablet"] else []).

(** The arguments of a list of devices from slot [pcid] on. *)
Fixpoint slot_args (pcid : Z) (devs : list string) : list string :=
  match devs with
  | [] => []
  | d :: devs' => "-s" :: (print_dec pcid +:+ "," +:+ d) :: slot_args (pcid + 1) devs'
  end.

Lemma slot_args_app pcid l1 l2 :
  slot_args pcid (l1 ++ l2) = slot_args pcid l1 ++ slot_args (pcid + Z.of_nat (length l1)) l2.
Proof.
  revert pcid. induction l1 as [| d l1 IH]; intros pcid; cbn [app slot_args length].
  - by rewrite Z.add_0_r.
  - rewrite IH. do 4 f_equal. lia.
Qed.

Lemma write_devs_slots {A} (f : A -> string) pcid l :
  write_devs f pcid l = (slot_args pcid (f <$> l), pcid + Z.of_nat (length l)).
Proof.
  revert pcid. induction l as [| x l IH]; intros pcid; cbn [write_devs fmap list_fmap slot_args length].
  - by rewrite Z.add_0_r.
  - rewrite IH. f_equal. lia.
Qed.

Lemma arg_list_app l1 l2 : arg_list ((Some <$> l1) ++ l2) = l1 ++ arg_list l2.
Proof. induction l1 as [| a l1 IH]; [done |]. cbn. f_equal. exact IH. Qed.

Lemma bhyve_devices_slots {NV} (v : vm NV) fb : bhyve_devices v fb = slot_args 2 (vm_devs v fb).
Proof.
  unfold bhyve_devices, vm_devs. rewrite !write_devs_slots. cbn beta iota zeta.
  rewrite !slot_args_app, !length_fmap.
  destruct (fb_enable fb =? 0), (vc_mouse (vm_get_conf v));
    cbn [length app slot_args]; rewrite ?Z.add_0_r; reflexivity.
Qed.

(** The options in front of the devices. *)
Definition bhyve_opts {NV} (v : vm NV) (loader ncpu memory : string) : list string :=
  let conf := vm_get_conf v in
  ["/usr/sbin/bhyve"; "-A"; "-H"; "-w"] ++
  (if vc_utctime conf then ["-u"] else []) ++ (if vc_wired_memory conf then ["-S"] else []) ++
  match vc_debug_port conf with Some p => ["-G"; p] | None => [] end ++
  ["-c"; ncpu; "-m"; memory] ++
  match vm_assigned_comport v with Some c => ["-l"; "com1," +:+ c] | None => [] end ++
  match vc_keymap conf with Some k => ["-K"; k] | None => [] end ++
  match index_of ["uefi"; "csm"] loader with
  | 0%nat => ["-l"; "bootrom," +:+ UEFI_FIRMWARE +:+
                    match vm_varsfile v with Some f => "," +:+ f | None => EmptyString end]
  | 1%nat => ["-l"; "bootrom," +:+ UEFI_CSM_FIRMWARE]
  | _ => []
  end ++
  ["-s"] ++ hostbridge_args (vc_hostbridge conf) ++ ["-s"; "1,lpc"].

Lemma bhyve_options_some {NV} (v : vm NV) loader ncpu memory :
  vc_ncpu (vm_get_conf v) = Some ncpu -> vc_memory (vm_get_conf v) = Some memory ->
  bhyve_options v loader = Some <$> bhyve_opts v loader ncpu memory.
Proof.
  intros Hc Hm. unfold bhyve_options, bhyve_opts. cbn [index_of]. rewrite Hc, Hm, !fmap_app.
  repeat apply (f_equal2 app); try done; repeat case_match; done.
Qed.

(** [C33] The command line of bhyve: the options of the VM, then every disk, CD,
    network, passed-through device, the frame buffer and the mouse, in this
    order and each in a slot of its own, numbered from 2 on without a gap, and
    the name of the VM at the end. *)
Theorem bhyve_args_slots {NV} (v : vm NV) loader ncpu memory name fb :
  vc_loader (vm_get_conf v) = Some loader -> vc_ncpu (vm_get_conf v) = Some ncpu ->
  vc_memory (vm_get_conf v) = Some memory -> vc_name (vm_get_conf v) = Some name ->
  vc_fbuf (vm_get_conf v) = Some fb ->
  forall o, bhyve_args v o
       = Done (bhyve_opts v loader ncpu memory ++ slot_args 2 (vm_devs v fb) ++ [name]) o.
Proof.
  intros Hl Hc Hm Hn Hf o. unfold bhyve_args. rewrite Hl, Hf, Hn.
  unfold mbind, C_bind, deref, mret, C_ret.
  by rewrite (bhyve_options_some v loader ncpu memory Hc Hm), bhyve_devices_slots, !arg_list_app.
Qed.

Definition demo_disks : list disk_conf :=
  [{| d_type := Some "nvme"; d_path := Some "/a" |}; {| d_type := Some "virtio-blk"; d_path := Some "/b" |}].

Definition demo_bhyve_conf : vm_conf := default_conf "vm" 0
  <| vc_disks := {| stq_items := demo_disks; stq_last := TailOk |} |>
  <| vc_ncpu := Some "2" |> <| vc_memory := Some "1G" |> <| vc_loader := Some "uefi" |>.

Definition demo_bhyve_vm : vm unit := new_vm {| ce_conf := demo_bhyve_conf; ce_pl_data := [] |}.

Lemma split_args_lines_witness :
  runs (split_args (lines (grub_lines demo_bhyve_vm)))
    (Some ((Some <$> ["/usr/local/sbin/grub-bhyve"; "-r"; "hd0,1"; "-M"; "1G"; "-m"; "(null)"; "vm"])
           ++ [None])).
Proof. apply (split_args_lines (grub_lines demo_bhyve_vm)); [done | reflexivity]. Defined.

Lemma bhyve_args_slots_witness :
  bhyve_args demo_bhyve_vm []
  = Done (["/usr/sbin/bhyve"; "-A"; "-H"; "-w"; "-u"; "-c"; "2"; "-m"; "1G"; "-l";
           "bootrom," +:+ UEFI_FIRMWARE; "-s"; "0,hostbridge"; "-s"; "1,lpc";
           "-s"; "2,nvme,/a"; "-s"; "3,virtio-blk,/b";
           "-s"; "4,fbuf,tcp=0.0.0.0:5900,w=1024,h=768,vga=io"] ++ ["vm"]) [].
Proof.
  etrans; [eapply (bhyve_args_slots demo_bhyve_vm "uefi" "2" "1G" "vm"); reflexivity |].
  vm_compute. reflexivity.
Defined.

(** ** The state after a start *)

(** What the backend does not touch. *)
Definition same_vm {NV} (v v' : vm NV) : Prop :=
  vm_ent_conf v' = vm_ent_conf v /\ vm_assigned_comport v' = vm_assigned_comport v.

(** bhyveload and grub run first, then bhyve; with a firmware bhyve runs at once. *)
Definition started_state (s : STATE) (loader : string) : STATE :=
  match s with
  | LOAD => RUN
  | _ => match index_of ["bhyveload"; "grub"; "uefi"; "csm"] loader with
         | 0%nat | 1%nat => LOAD
         | _ => RUN
         end
  end.

Section start.
Context {NV W : Type} (k : kernel W) (inspect : vm_conf -> W -> C (option string * W))
  (vars_dir : option string) (F : fault -> Prop).

(** The faults of the inspection of the disks. *)
Hypothesis inspect_faults : forall conf w, wp (inspect conf w) (fun _ => True) F.

(** At most the names of the device map and of the file of variables differ. *)
Definition only_files (v v' : vm NV) : Prop :=
  exists map vars, v' = v <| vm_mapfile := map |> <| vm_varsfile := vars |>.

Lemma only_files_refl v : only_files v v.
Proof. exists (vm_mapfile v), (vm_varsfile v). by destruct v. Qed.

(** The outcome of a start of [v] that should end in state [s]. *)
Definition started (v : vm NV) (s : STATE) (p : Z * vm NV * W) : Prop :=
  same_vm v p.1.2 /\
  ((p.1.1 = 0 /\ vm_state p.1.2 = s /\ exists w, (sys_fork k w).1 = Some (vm_pid p.1.2)) \/
   (p.1.1 = -1 /\ only_files v p.1.2)).

(** A start that fails. *)
Lemma not_started v v' w s : only_files v v' -> started v s (-1, v', w).
Proof. intros (m & f & ->). split; [done | right]. split; [done | by exists m, f]. Qed.

(** The end that both starts have in common. *)
Lemma child_started w1 w2 v fds pid st G :
  sys_fork k w1 = (Some pid, w2) ->
  wp (let '(v, w) := with_pipes k w2 v fds in mret (0, v <| vm_pid := pid |> <| vm_state := st |>, w)) (started v st) G.
Proof.
  intros E. destruct fds as [[out err] |]; apply wp_ret; (split; [done |]); left;
    (split; [done | split; [done |]]); exists w1; by rewrite E.
Qed.

Lemma exec_bhyve_started w v :
  wp (exec_bhyve k w v) (started v RUN) (fun f => f = ProcessExit).
Proof.
  unfold exec_bhyve. destruct (output_pipes k w v) as [[fds |] w1]; [| apply wp_ret, not_started, only_files_refl].
  destruct (sys_fork k w1) as [[pid |] w2] eqn:E; [| by apply wp_crash].
  by eapply child_started.
Qed.

Lemma exec_started w v : wp (exec_bhyve k w v) (started v RUN) (fun f => f = ProcessExit \/ F f).
Proof. eapply wp_mono; [apply exec_bhyve_started | done | by left]. Qed.

Lemma bhyve_load_started w v G : wp (bhyve_load k w v) (started v LOAD) G.
Proof.
  unfold bhyve_load. destruct (output_pipes k w v) as [[fds |] w1]; [| apply wp_ret, not_started, only_files_refl].
  destruct (sys_fork k w1) as [[pid |] w2] eqn:E; [| apply wp_ret, not_started, only_files_refl].
  by eapply child_started.
Qed.

Lemma grub_load_started w v : wp (grub_load k inspect w v) (started v LOAD) F.
Proof.
  unfold grub_load. apply wp_bind.
  eapply (wp_mono _ (fun _ => True) _ F); [| intros [cmd w0] _ | done].
  - unfold create_load_command. by repeat first [apply inspect_faults | step_wp | case_match].
  - match goal with |- context [let '(_, _) := ?x in _] => destruct x as [[ifd |] w1] end;
      [| apply wp_ret, not_started, only_files_refl].
    destruct (sys_fork k w1) as [[pid |] w2] eqn:E; [| apply wp_ret, not_started, only_files_refl].
    apply wp_ret. split; [done |]. left. split; [done | split; [done |]]. exists w1. by rewrite E.
Qed.

Lemma started_after v v' s p : only_files v v' -> started v' s p -> started v s p.
Proof.
  intros (m & f & ->) [[H1 H2] H]. split; [by split |]. destruct H as [H | (H & m' & f' & Hv)]; [by left | right].
  split; [done |]. exists m', f'. by rewrite Hv.
Qed.

Lemma write_mapfile_any w conf mapfile : wp (write_mapfile k w conf mapfile) (fun _ => True) no_fault.
Proof.
  unfold write_mapfile. apply wp_bind, wp_malloc. intros []; cbn [negb]; [| by apply wp_ret].
  match goal with |- context [let '(_, _) := ?x in _] => destruct x as [[fn |] w1] end;
    [| by apply wp_ret].
  match goal with |- context [let '(_, _) := ?x in _] => destruct x as [[] w2] end; by apply wp_ret.
Qed.

(** The file of variables changes its name only. *)
Lemma copy_uefi_vars_same w (v : vm NV) :
  wp (copy_uefi_vars k w v vars_dir) (fun p : Z * vm NV * W => only_files v p.1.2) no_fault.
Proof.
  assert (Hf : forall f, only_files v (v <| vm_varsfile := f |>)) by (intros f; exists (vm_mapfile v), f; by destruct v).
  pose proof (only_files_refl v) as H0.
  unfold copy_uefi_vars. apply wp_bind.
  eapply (wp_mono _ (fun _ => True) _ no_fault); [| intros [fn |] _ | done]; [| | apply wp_ret; exact H0].
  - destruct (vm_varsfile v); [by apply wp_ret | by apply wp_strdup].
  - cbn zeta. destruct (negb (vc_install (vm_get_conf v)) && sys_is_file k fn w); [apply wp_ret, Hf |].
    match goal with |- context [let '(_, _) := ?x in _] => destruct x as [[] w2] end; apply wp_ret, Hf.
Qed.

(** Whatever the loader; one that is unknown is an error. *)
Lemma start_bhyve_any w v loader :
  vc_loader (vm_get_conf v) = Some loader ->
  wp (start_bhyve k inspect vars_dir w v) (started v (started_state (vm_state v) loader))
     (fun f => f = ProcessExit \/ F f).
Proof.
  intros Hl. unfold start_bhyve. destruct (decide (vm_state v = LOAD)) as [E | E].
  { rewrite E. apply exec_started. }
  rewrite Hl. apply wp_bind, (wp_deref _ _ _ _ eq_refl).
  assert (Es : started_state (vm_state v) loader =
               match index_of ["bhyveload"; "grub"; "uefi"; "csm"] loader with
               | 0%nat | 1%nat => LOAD | _ => RUN end) by (by destruct (vm_state v)).
  rewrite Es. cbn [index_of].
  destruct (strcasecmp loader "bhyveload" =? 0); [apply bhyve_load_started |].
  destruct (strcasecmp loader "grub" =? 0).
  { apply wp_bind. eapply wp_mono; [apply write_mapfile_any | intros [[rc m] w'] _ | done]. cbn zeta.
    assert (Hm : only_files v (v <| vm_mapfile := m |>)) by (exists m, (vm_varsfile v); by destruct v).
    destruct (rc <? 0); [by apply wp_ret, not_started |].
    eapply wp_mono; [apply grub_load_started | | by right]. intros p. by apply started_after. }
  destruct (strcasecmp loader "uefi" =? 0).
  { apply wp_bind. eapply wp_mono; [apply copy_uefi_vars_same | intros [[rc v'] w'] Hv | done].
    destruct (rc <? 0); [by apply wp_ret, not_started |].
    eapply wp_mono; [apply exec_started | | done]. intros p. by apply started_after. }
  destruct (strcasecmp loader "csm" =? 0); [apply exec_started |].
  apply wp_ret, not_started, only_files_refl.
Qed.

(** When the system has descriptors, processes and memory and the loader is
    known, the start succeeds. *)
Definition healthy (kk : kernel W) : Prop :=
  (forall w, is_Some (sys_fork kk w).1) /\ (forall w, is_Some (sys_pipe kk w).1) /\
  (forall p w, is_Some (sys_mkstemp kk p w).1) /\ (forall p t w, (sys_write_file kk p t w).1 = true) /\
  (forall p q w, (sys_copy_file kk p q w).1 = true).

Section healthy.
Hypothesis Hk : healthy k.
Hypothesis Hins : forall conf w, exists r, runs (inspect conf w) r.

Lemma output_pipes_healthy w (v : vm NV) : is_Some (output_pipes k w v).1.
Proof.
  destruct Hk as (_ & Hp & _). unfold output_pipes. destruct (dopipe v); [| by eauto].
  pose proof (Hp w) as H1. destruct (sys_pipe k w) as [[[out o'] |] w1]; [| by destruct H1].
  pose proof (Hp w1) as H2. destruct (sys_pipe k w1) as [[[err e'] |] w2]; [by eauto | by destruct H2].
Qed.

Lemma fork_healthy w : exists pid w', sys_fork k w = (Some pid, w').
Proof.
  destruct Hk as (Hf & _). pose proof (Hf w) as H. destruct (sys_fork k w) as [[pid |] w'];
    [by eauto | by destruct H].
Qed.

Lemma exec_bhyve_healthy w (v : vm NV) : exists v' w', runs (exec_bhyve k w v) (0, v', w').
Proof.
  unfold exec_bhyve. pose proof (output_pipes_healthy w v) as H.
  destruct (output_pipes k w v) as [[fds |] w1]; [| by destruct H].
  destruct (fork_healthy w1) as (pid & w' & E). rewrite E.
  destruct (with_pipes k w' v fds) as [v' w2]. eexists _, _. apply runs_ret.
Qed.

Lemma bhyve_load_healthy w (v : vm NV) : exists v' w', runs (bhyve_load k w v) (0, v', w').
Proof.
  unfold bhyve_load. pose proof (output_pipes_healthy w v) as H.
  destruct (output_pipes k w v) as [[fds |] w1]; [| by destruct H].
  destruct (fork_healthy w1) as (pid & w' & E). rewrite E.
  destruct (with_pipes k w' v fds) as [v' w2]. eexists _, _. apply runs_ret.
Qed.

Lemma create_load_command_runs w conf : exists r, runs (create_load_command inspect w conf) r.
Proof. unfold create_load_command. repeat case_match; first [apply Hins | eexists; reflexivity]. Qed.

Lemma grub_load_healthy w (v : vm NV) : exists v' w', runs (grub_load k inspect w v) (0, v', w').
Proof.
  unfold grub_load. destruct (create_load_command_runs w (vm_get_conf v)) as [[cmd w0] Hc].
  assert (H : exists ifd w1, match cmd with
                   | Some _ => sys_pipe k w0
                   | None => (Some (-1, -1), w0)
                   end = (Some ifd, w1)).
  { destruct Hk as (_ & Hp & _). destruct cmd; [| by eauto].
    pose proof (Hp w0) as H1. destruct (sys_pipe k w0) as [[[rd r'] |] w1]; [by eauto | by destruct H1]. }
  destruct H as (ifd & w1 & E1).
  destruct (fork_healthy w1) as (pid & w' & E).
  eexists _, _. eapply runs_bind; [exact Hc |]. cbv beta iota. rewrite E1, E. apply runs_ret.
Qed.

Lemma write_mapfile_healthy w conf mapfile :
  exists fn w', runs (write_mapfile k w conf mapfile) (0, Some fn, w').
Proof.
  destruct Hk as (_ & _ & Hm & Hw & _). unfold write_mapfile.
  pose proof (Hm ("/tmp/bmd." +:+ pct_s (vc_name conf)) w) as H1.
  destruct (sys_mkstemp k _ w) as [[fn |] w1]; [| by destruct H1].
  assert (H : forall w2, exists w', runs (let '(ok, w) := sys_write_file k fn (mapfile_text conf) w2 in
      mret (if ok then (0, Some fn, w) else (-1, None, sys_unlink k fn w))) (0, Some fn, w')).
  { intros w2. pose proof (Hw fn (mapfile_text conf) w2) as H2. destruct (sys_write_file k fn _ w2) as [ok w3].
    cbn in H2. rewrite H2. eexists. apply runs_ret. }
  destruct (H (match mapfile with Some old => sys_unlink k old w1 | None => w1 end)) as [w' H'].
  exists fn, w'. eapply runs_bind; [apply runs_malloc | exact H'].
Qed.

Lemma copy_uefi_vars_healthy w (v : vm NV) :
  exists v' w', runs (copy_uefi_vars k w v vars_dir) (0, v', w').
Proof.
  destruct Hk as (_ & _ & _ & _ & Hc). unfold copy_uefi_vars.
  assert (H : exists fn, runs (match vm_varsfile v with
       | Some fn => mret (Some fn)
       | None => strdup (pct_s vars_dir +:+ "/" +:+ pct_s (vc_name (vm_get_conf v)) +:+ ".vars")
       end) (Some fn)) by (destruct (vm_varsfile v); eexists; reflexivity).
  destruct H as [fn H].
  destruct (negb (vc_install (vm_get_conf v)) && sys_is_file k fn w) eqn:E.
  - eexists _, _. eapply runs_bind; [exact H |]. cbn zeta iota. rewrite E. apply runs_ret.
  - pose proof (Hc UEFI_FIRMWARE_VARS fn w) as H2.
    destruct (sys_copy_file k _ fn w) as [ok w2] eqn:E2. cbn in H2.
    eexists _, _. eapply runs_bind; [exact H |]. cbn zeta iota. rewrite E, E2, H2. apply runs_ret.
Qed.

Lemma start_bhyve_healthy w (v : vm NV) loader :
  vc_loader (vm_get_conf v) = Some loader -> (index_of loaders loader < 4)%nat ->
  exists v' w', runs (start_bhyve k inspect vars_dir w v) (0, v', w').
Proof.
  intros Hl Hi. unfold start_bhyve. destruct (decide (vm_state v = LOAD)); [apply exec_bhyve_healthy |].
  rewrite Hl. cbn [index_of loaders] in Hi.
  assert (H : exists v' w', runs (if strcasecmp loader "bhyveload" =? 0 then bhyve_load k w v
    else if strcasecmp loader "grub" =? 0 then
      '(rc, mapfile, w) ← write_mapfile k w (vm_get_conf v) (vm_mapfile v);
      let v := v <| vm_mapfile := mapfile |> in
      if rc <? 0 then mret (-1, v, w) else grub_load k inspect w v
    else if strcasecmp loader "uefi" =? 0 then
      '(rc, v, w) ← copy_uefi_vars k w v vars_dir;
      if rc <? 0 then mret (-1, v, w) else exec_bhyve k w v
    else if strcasecmp loader "csm" =? 0 then exec_bhyve k w v
    else mret (-1, v, w)) (0, v', w')).
  { destruct (strcasecmp loader "bhyveload" =? 0); [apply bhyve_load_healthy |].
    destruct (strcasecmp loader "grub" =? 0).
    { destruct (write_mapfile_healthy w (vm_get_conf v) (vm_mapfile v)) as (fn & w1 & H1).
      destruct (grub_load_healthy w1 (v <| vm_mapfile := Some fn |>)) as (v2 & w2 & H2). exists v2, w2.
      eapply runs_bind; [exact H1 | exact H2]. }
    destruct (strcasecmp loader "uefi" =? 0).
    { destruct (copy_uefi_vars_healthy w v) as (v1 & w1 & H1).
      destruct (exec_bhyve_healthy w1 v1) as (v2 & w2 & H2). exists v2, w2.
      eapply runs_bind; [exact H1 | exact H2]. }
    destruct (strcasecmp loader "csm" =? 0); [apply exec_bhyve_healthy | lia]. }
  destruct H as (v' & w' & H). exists v', w'. eapply runs_bind; [reflexivity | exact H].
Qed.

End healthy.

(** [C32] Starting a VM with bhyve: with the loaders bhyveload and grub the VM is
    loading first and running after the loader has finished, with a firmware it
    is running at once; its process is the child that was forked.  The configuration and the com port stay.  When the
    start fails (-1), nothing of the record of the VM has changed but the names of the device map and of the file of
    UEFI variables (the state, the process, the devices and the descriptors are those of before), except that a failing [fork] of bhyve
    ends the daemon; the other faults are those of the inspection of the disks.
    With a known loader, a system that has processes, descriptors, files and
    memory and an inspection that ends, the start succeeds. *)
Theorem start_bhyve_correct w v loader :
  vc_loader (vm_get_conf v) = Some loader ->
  wp (start_bhyve k inspect vars_dir w v) (started v (started_state (vm_state v) loader))
     (fun f => f = ProcessExit \/ F f) /\
  (healthy k -> (forall conf w, exists r, runs (inspect conf w) r) -> (index_of loaders loader < 4)%nat ->
   exists v' w', runs (start_bhyve k inspect vars_dir w v) (0, v', w') /\
            vm_state v' = started_state (vm_state v) loader).
Proof.
  intros Hl. split; [by apply start_bhyve_any |]. intros Hk Hins Hi.
  destruct (start_bhyve_healthy Hk Hins w v loader Hl Hi) as (v' & w' & H). exists v', w'.
  split; [exact H |].
  pose proof (wp_runs _ _ _ _ (start_bhyve_any w v loader Hl) H) as [_ [(_ & Hs & _) | (? & _)]];
    [exact Hs | done].
Qed.

End start.

(** A kernel with an unlimited supply of processes and descriptors, numbered
    from the state on. *)
Definition demo_kernel : kernel Z := {|
  sys_fork := fun w => (Some w, w + 1);
  sys_pipe := fun w => (Some (w, w + 1), w + 2);
  sys_close := fun _ w => w;
  sys_write := fun _ _ w => w;
  sys_socket := fun w => (true, w + 1);
  sys_if := {|
    if_get := fun _ w => (Some (2, 0), w); if_set := fun _ _ w => (0, w);
    if_create := fun _ w => (Some ("tap" +:+ print_dec w), w + 1); if_destroy := fun _ w => (0, w);
    if_describe := fun _ _ _ w => (0, w); if_bridge := fun _ _ w => (0, w) |};
  sys_mkstemp := fun p w => (Some (p +:+ "." +:+ print_dec w), w + 1);
  sys_write_file := fun _ _ w => (true, w);
  sys_is_file := fun _ _ => false;
  sys_unlink := fun _ w => w;
  sys_copy_file := fun _ _ w => (true, w);
  sys_kill := fun _ _ w => (0, w);
  sys_vm_suspend := fun _ _ w => (0, w);
  sys_vmm_destroy := fun _ w => w;
|}.

Lemma start_bhyve_correct_witness :
  exists v' w', runs (start_bhyve demo_kernel (fun _ w => mret (None, w)) (Some "/var/cache/bmd") 100 demo_bhyve_vm)
                  (0, v', w') /\ vm_state v' = RUN.
Proof.
  apply (start_bhyve_correct demo_kernel (fun _ w => mret (None, w)) (Some "/var/cache/bmd") no_fault
           (fun _ _ => wp_ret _ _ _ I) 100 demo_bhyve_vm "uefi");
    [reflexivity | by repeat split; eauto | intros; eexists; apply runs_ret | vm_compute; lia].
Defined.
