(* ===== verification/Descriptors.v ===== *)
(** * The descriptors of the processes (src/vm.c 43-72, 284-471, 558-722, 806-831)

    The daemon talks to the processes of a VM through pipes.  In the parent each start opens pipes, keeps the ends
    to read from in the record of the VM and closes the others; [cleanup_bhyve] closes what
    the record holds.  The class [FdLaws] states what is documented of the calls that open and close; the theorems
    count descriptors: which are open after a start, after a failed start and after the end.

    In the child the ends to write to become the standard output and the standard error before the program is
    executed.  The child works on a copy of the table of descriptors. *)

From S2P Require Import Prelude CString Vars Conf Global MPool Plugin ParseValue Parser Load Tap Vm.

Local Open Scope Z_scope.

(** ** The child *)

(** A table of descriptors; [O] is what they refer to. *)
Section child.
Context {O : Type}.
Implicit Types (t : gmap Z O) (fd : Z).

Definition dup2 t (old new : Z) : gmap Z O :=
  match t !! old with
  | Some o => <[new := o]> t
  | None => t
  end.

(** The child of [bhyve_load] and [exec_bhyve]. *)
Definition child_pipes t (fds : option ((Z * Z) * (Z * Z))) : gmap Z O :=
  match fds with
  | Some (outfd, errfd) => dup2 (dup2 (delete errfd.1 (delete outfd.1 t)) outfd.2 1) errfd.2 2
  | None => t
  end.

(** [opened] is the answer of [open]: the descriptor and what it refers to.  The result is not used by the caller. *)
Definition redirect_to_com t (redirect_stdin : bool) (opened : option (Z * O)) : Z * gmap Z O :=
  match opened with
  | None => (-1, t)
  | Some (fd, o) =>
      let t := <[fd := o]> t in
      let t := if redirect_stdin then dup2 t fd 0 else t in
      (0, dup2 (dup2 t fd 1) fd 2)
  end.

(** The child of [grub_load]: commands come from the pipe, or from the com port when there are none. *)
Definition child_grub t (ifd : option (Z * Z)) (doredirect : bool) (opened : option (Z * O)) : gmap Z O :=
  let t := match ifd with Some fds => dup2 (delete fds.1 t) fds.2 0 | None => t end in
  if doredirect then (redirect_to_com t (bool_decide (ifd = None)) opened).2 else t.

(** The pipes as [pipe] makes them, each end with the lowest number that is free. *)
Definition fresh_pipes t (outfd errfd : Z * Z) : Prop :=
  0 <= outfd.1 < outfd.2 /\ outfd.2 < errfd.1 /\ errfd.1 < errfd.2 /\
  is_Some (t !! outfd.2) /\ is_Some (t !! errfd.2).

Lemma dup2_new t old new : is_Some (t !! old) -> dup2 t old new !! new = t !! old.
Proof. intros [o H]. unfold dup2. by rewrite H, lookup_insert_eq. Qed.

Lemma dup2_other t old new fd : fd <> new -> dup2 t old new !! fd = t !! fd.
Proof. intros H. unfold dup2. case_match; [by rewrite lookup_insert_ne | done]. Qed.

(** [C26] The standard output and the standard error of the program are the pipes that the daemon reads, also when some of the descriptors 0, 1 and 2
    were closed and a pipe has taken their place: no end is overwritten before it was copied.  The ends that the daemon reads are not
    left open in the child, unless a standard descriptor took their number. *)
Theorem child_output_wired t outfd errfd :
  fresh_pipes t outfd errfd ->
  let t' := child_pipes t (Some (outfd, errfd)) in
  t' !! 1 = t !! outfd.2 /\ t' !! 2 = t !! errfd.2 /\
  (forall fd, fd = outfd.1 \/ fd = errfd.1 -> fd <> 1 -> fd <> 2 -> t' !! fd = None) /\
  (forall fd, 2 < fd -> fd <> outfd.1 -> fd <> errfd.1 -> t' !! fd = t !! fd).
Proof.
  intros (H1 & H2 & H3 & Ho & He). cbn zeta. unfold child_pipes. set (t0 := delete errfd.1 (delete outfd.1 t)).
  assert (Hk : forall fd, fd <> outfd.1 -> fd <> errfd.1 -> t0 !! fd = t !! fd)
    by (intros fd Hf1 Hf2; unfold t0; by rewrite !lookup_delete_ne).
  assert (E1 : dup2 t0 outfd.2 1 !! errfd.2 = t !! errfd.2) by (rewrite dup2_other by lia; apply Hk; lia).
  split_and!.
  - rewrite dup2_other, dup2_new by (rewrite ?Hk; lia || done). apply Hk; lia.
  - rewrite dup2_new by (by rewrite E1). done.
  - intros fd Hfd N1 N2. rewrite !dup2_other by done. unfold t0. destruct Hfd as [-> | ->].
    + rewrite lookup_delete_ne by lia. apply lookup_delete_eq.
    + apply lookup_delete_eq.
  - intros fd Hfd N1 N2. rewrite !dup2_other by lia. by apply Hk.
Qed.

(** grub-bhyve reads its commands from the pipe and writes to the com port. *)
Lemma child_grub_wired t a b fd o :
  a <> b -> is_Some (t !! b) -> dup2 (delete a t) b 0 !! fd = None ->
  let t' := child_grub t (Some (a, b)) true (Some (fd, o)) in
  t' !! 0 = t !! b /\ t' !! 1 = Some o /\ t' !! 2 = Some o.
Proof.
  intros Hab Hb Hfd. cbn zeta. unfold child_grub, redirect_to_com. rewrite bool_decide_false by done. cbn [fst snd].
  assert (Hb0 : delete a t !! b = t !! b) by (by rewrite lookup_delete_ne). set (t0 := dup2 (delete a t) b 0) in *.
  assert (H0 : t0 !! 0 = t !! b) by (unfold t0; by rewrite dup2_new; rewrite Hb0).
  assert (Hne : fd <> 0) by (intros ->; rewrite H0 in Hfd; rewrite Hfd in Hb; by destruct Hb).
  assert (Hfo : dup2 (<[fd := o]> t0) fd 1 !! fd = Some o).
  { destruct (decide (fd = 1)) as [-> | N]; [rewrite dup2_new | rewrite dup2_other by done]; rewrite ?lookup_insert_eq; by eauto. }
  split_and!.
  - rewrite !dup2_other, lookup_insert_ne by done. done.
  - rewrite dup2_other, dup2_new by (rewrite ?lookup_insert_eq; by eauto). apply lookup_insert_eq.
  - rewrite dup2_new by (rewrite Hfo; by eauto). exact Hfo.
Qed.

End child.

(** ** The parent *)

(** What is documented: [pipe] opens two new descriptors, [close] closes one, and no other call leaves a descriptor open. *)
Class FdLaws {W : Type} (k : kernel W) := {
  fds_of : W -> gset Z;
  pipe_law : forall w a b w', sys_pipe k w = (Some (a, b), w') ->
    0 <= a /\ 0 <= b /\ a <> b /\ (a ∉ fds_of w) /\ (b ∉ fds_of w) /\ fds_of w' = {[a; b]} ∪ fds_of w;
  pipe_fails : forall w w', sys_pipe k w = (None, w') -> fds_of w' = fds_of w;
  close_law : forall fd w, fds_of (sys_close k fd w) = fds_of w ∖ {[fd]};
  fork_fds : forall w, fds_of (sys_fork k w).2 = fds_of w;
  write_fds : forall fd s w, fds_of (sys_write k fd s w) = fds_of w;
  mkstemp_fds : forall p w, fds_of (sys_mkstemp k p w).2 = fds_of w;
  write_file_fds : forall p s w, fds_of (sys_write_file k p s w).2 = fds_of w;
  copy_file_fds : forall p q w, fds_of (sys_copy_file k p q w).2 = fds_of w;
  destroy_fds : forall n w, fds_of (sys_vmm_destroy k n w) = fds_of w;
  unlink_fds : forall n w, fds_of (sys_unlink k n w) = fds_of w;
}.

Section parent.
Context {NV W : Type} (k : kernel W) {Hk : FdLaws k}.
Implicit Types (v : vm NV) (w : W).

(** The descriptors in the record of a VM; -1 is none. *)
Definition held_list v : list Z := List.filter (fun fd => negb (fd =? -1)) [vm_infd v; vm_outfd v; vm_errfd v; vm_logfd v].

Definition held v : gset Z := list_to_set (held_list v).

(** A VM that no process belongs to. *)
Definition unconnected v : Prop := vm_infd v = -1 /\ vm_outfd v = -1 /\ vm_errfd v = -1.

(** What a start that succeeded has opened. *)
Definition opened w v v' w' : Prop :=
  exists new, new ## fds_of w /\ fds_of w' = new ∪ fds_of w /\ held v' = new ∪ held v.

(** Both pipes, with all four ends open. *)
Lemma output_pipes_fds w v :
  match output_pipes k w v with
  | (None, w') => fds_of w' = fds_of w
  | (Some None, w') => fds_of w' = fds_of w
  | (Some (Some (o, e)), w') =>
      0 <= o.1 /\ 0 <= o.2 /\ 0 <= e.1 /\ 0 <= e.2 /\ NoDup [o.1; o.2; e.1; e.2] /\
      Forall (fun fd => fd ∉ fds_of w) [o.1; o.2; e.1; e.2] /\ fds_of w' = {[o.1; o.2; e.1; e.2]} ∪ fds_of w
  end.
Proof.
  unfold output_pipes. destruct (dopipe v); [| done].
  destruct (sys_pipe k w) as [[[a b] |] w1] eqn:E1; [| by apply pipe_fails].
  apply pipe_law in E1 as (H1 & H2 & H3 & H4 & H5 & H6).
  destruct (sys_pipe k w1) as [[[c d] |] w2] eqn:E2.
  - apply pipe_law in E2 as (G1 & G2 & G3 & G4 & G5 & G6). cbn. rewrite H6 in G4, G5, G6. split_and!; try done.
    + repeat (apply NoDup_cons; split; [set_solver |]). apply NoDup_nil_2.
    + repeat (apply Forall_cons; split; [set_solver |]). done.
    + rewrite G6. set_solver.
  - apply pipe_fails in E2. rewrite !close_law, E2, H6. cbn. set_solver.
Qed.

Lemma held_unconnected v : unconnected v -> held v = if vm_logfd v =? -1 then ∅ else {[vm_logfd v]}.
Proof.
  intros (H1 & H2 & H3). unfold held, held_list. rewrite H1, H2, H3. cbn.
  destruct (vm_logfd v =? -1); cbn; set_solver.
Qed.

(** The end that [bhyve_load] and [exec_bhyve] have in common, and their failures. *)
Lemma spawn_fds w v st (c : W -> option ((Z * Z) * (Z * Z)) -> C (Z * vm NV * W)) G :
  unconnected v ->
  (forall w1 fds, (exists f, G f /\ c w1 fds = crash f) \/ c w1 fds = mret (-1, v, close_pipes k w1 fds)) ->
  wp (match output_pipes k w v with
      | (None, w) => mret (-1, v, w)
      | (Some fds, w) =>
          match sys_fork k w with
          | (Some pid, w) => let '(v, w) := with_pipes k w v fds in mret (0, v <| vm_pid := pid |> <| vm_state := st |>, w)
          | (None, w) => c w fds
          end
      end)
     (fun '(rc, v', w') => if rc <? 0 then fds_of w' = fds_of w /\ v' = v else opened w v v' w') G.
Proof.
  intros Hv Hc. pose proof (output_pipes_fds w v) as Hp. destruct (output_pipes k w v) as [[fds |] w1]; [| by apply wp_ret].
  pose proof (fork_fds w1) as Hf. destruct (sys_fork k w1) as [[pid |] w2]; cbn in Hf.
  - destruct fds as [[o e] |].
    + destruct Hp as (P1 & P2 & P3 & P4 & Hnd & Hn & Hp). apply wp_ret. cbn.
      apply NoDup_cons in Hnd as [N1 Hnd]. apply NoDup_cons in Hnd as [N2 Hnd]. apply NoDup_cons in Hnd as [N3 _].
      repeat (apply Forall_cons in Hn as [? Hn]).
      exists {[o.1; e.1]}. split_and!; [set_solver | rewrite !close_law, Hf, Hp; set_solver |].
      rewrite (held_unconnected v Hv). unfold held, held_list. cbn. destruct Hv as (-> & _). cbn.
      replace (o.1 =? -1) with false by lia. replace (e.1 =? -1) with false by lia. cbn.
      destruct (vm_logfd v =? -1); cbn; set_solver.
    + apply wp_ret. cbn. exists ∅. split_and!; [set_solver | rewrite Hf, Hp; set_solver |].
      symmetry. apply (left_id_L ∅ (∪)).
  - destruct (Hc w2 fds) as [(f & HG & ->) | ->]; [by apply wp_crash |]. apply wp_ret. cbn. split; [| done].
    destruct fds as [[o e] |]; cbn; [| congruence].
    destruct Hp as (_ & _ & _ & _ & _ & Hn & Hp). repeat (apply Forall_cons in Hn as [? Hn]).
    rewrite !close_law, Hf, Hp. set_solver.
Qed.

(** Descriptors are lost between the loader and bhyve: when the loader has ended and the end of its output was not read before, [exec_bhyve]
    replaces the descriptors of the record without closing them; they stay open and nothing refers to them any more. *)
Theorem loader_output_leaks w v fd :
  dopipe v = true -> vm_outfd v = fd -> fd ∈ fds_of w -> vm_infd v = -1 -> vm_logfd v = -1 ->
  wp (exec_bhyve k w v) (fun '(rc, v', w') => rc = 0 -> fd ∈ fds_of w' /\ fd ∉ held v') (fun f => f = ProcessExit).
Proof.
  intros Hd Ho Hin Hi Hl. unfold exec_bhyve. pose proof (output_pipes_fds w v) as Hp. unfold output_pipes in *. rewrite Hd in *.
  destruct (sys_pipe k w) as [[o |] w1]; [| by apply wp_ret].
  destruct (sys_pipe k w1) as [[e |] w2]; [| by apply wp_ret].
  destruct Hp as (P1 & _ & P3 & _ & _ & Hn & Hp). repeat (apply Forall_cons in Hn as [? Hn]).
  pose proof (fork_fds w2) as Hf. destruct (sys_fork k w2) as [[pid |] w3]; [| by apply wp_crash]. cbn in Hf. apply wp_ret. intros _. cbn.
  assert (Hne : forall x, x ∉ fds_of w -> fd <> x) by (intros x Hx ->; done). split.
  - rewrite !close_law, Hf, Hp, !elem_of_difference, elem_of_union, !elem_of_singleton. auto.
  - unfold held, held_list. cbn. rewrite Hi, Hl. cbn. replace (o.1 =? -1) with false by lia. replace (e.1 =? -1) with false by lia. cbn.
    rewrite !elem_of_union, !elem_of_singleton, elem_of_empty. intros [E | [E | []]]; by eapply Hne; [| exact E].
Qed.

(** The inspection closes what it opens. *)
Context (inspect : vm_conf -> W -> C (option string * W)) (vars_dir : option string) (F : fault -> Prop).
Hypothesis inspect_fds : forall conf w, wp (inspect conf w) (fun p => fds_of p.2 = fds_of w) F.

Lemma exec_bhyve_fds w v :
  unconnected v ->
  wp (exec_bhyve k w v) (fun '(rc, v', w') => if rc <? 0 then fds_of w' = fds_of w /\ v' = v else opened w v v' w')
     (fun f => f = ProcessExit \/ F f).
Proof. intros Hv. apply spawn_fds; [done |]. intros w1 fds. left. exists ProcessExit. split; [by left | done]. Qed.

Lemma bhyve_load_fds w v :
  unconnected v ->
  wp (bhyve_load k w v) (fun '(rc, v', w') => if rc <? 0 then fds_of w' = fds_of w /\ v' = v else opened w v v' w')
     (fun f => f = ProcessExit \/ F f).
Proof. intros Hv. apply spawn_fds; [done |]. by right. Qed.

Lemma create_load_command_fds w conf : wp (create_load_command inspect w conf) (fun p => fds_of p.2 = fds_of w) F.
Proof. unfold create_load_command. by repeat first [apply inspect_fds | step_wp | case_match]. Qed.

(** A pipe that nobody holds. *)
Definition lost_pipe w w' : Prop := exists a b, fds_of w' = {[a; b]} ∪ fds_of w /\ a <> b /\ {[a; b]} ## fds_of w.

Lemma grub_load_fds w v :
  unconnected v ->
  wp (grub_load k inspect w v)
     (fun '(rc, v', w') => if rc <? 0 then (fds_of w' = fds_of w \/ lost_pipe w w') /\ v' = v else opened w v v' w') F.
Proof.
  intros Hv. unfold grub_load. apply wp_bind.
  eapply wp_mono; [apply create_load_command_fds | intros [cmd w0] H0 | done]. cbn in H0.
  destruct cmd as [text |].
  - destruct (sys_pipe k w0) as [[[a b] |] w1] eqn:E1.
    + apply pipe_law in E1 as (A1 & A2 & A3 & A4 & A5 & A6). rewrite H0 in *.
      pose proof (fork_fds w1) as Hf. destruct (sys_fork k w1) as [[pid |] w2]; cbn in Hf; apply wp_ret; cbn.
      * exists {[a]}. split_and!; [set_solver | rewrite write_fds, close_law, Hf, A6; set_solver |].
        rewrite (held_unconnected v Hv). unfold held, held_list. cbn. replace (a =? -1) with false by lia. cbn.
        destruct (vm_logfd v =? -1); cbn; set_solver.
      * split; [| done]. right. exists a, b. rewrite Hf, A6. split; [done | split; [done | set_solver]].
    + apply pipe_fails in E1. apply wp_ret. cbn. split; [left; congruence | done].
  - pose proof (fork_fds w0) as Hf. destruct (sys_fork k w0) as [[pid |] w2]; cbn in Hf; apply wp_ret; cbn.
    + exists ∅. split_and!; [set_solver | rewrite Hf, H0; set_solver |].
      rewrite (held_unconnected v Hv). unfold held, held_list. cbn. destruct (vm_logfd v =? -1); cbn; set_solver.
    + split; [left; congruence | done].
Qed.

Lemma write_mapfile_fds w conf m : wp (write_mapfile k w conf m) (fun p => fds_of p.2 = fds_of w) no_fault.
Proof.
  unfold write_mapfile. apply wp_bind, wp_malloc. intros []; cbn [negb]; [| by apply wp_ret].
  pose proof (mkstemp_fds ("/tmp/bmd." +:+ pct_s (vc_name conf)) w) as H1. destruct (sys_mkstemp k _ w) as [[fn |] w1]; [| by apply wp_ret].
  set (w2 := match m with Some old => sys_unlink k old w1 | None => w1 end).
  assert (Hw : fds_of w2 = fds_of w1) by (unfold w2; destruct m; [apply unlink_fds | done]).
  pose proof (write_file_fds fn (mapfile_text conf) w2) as H2. destruct (sys_write_file k _ _ w2) as [[] w3]; apply wp_ret; cbn in *; rewrite ?unlink_fds; congruence.
Qed.

(** The file of variables is copied and closed. *)
Lemma copy_uefi_vars_fds w v :
  wp (copy_uefi_vars k w v vars_dir)
     (fun '(_, v', w') => fds_of w' = fds_of w /\ held v' = held v /\ (unconnected v -> unconnected v')) no_fault.
Proof.
  unfold copy_uefi_vars. apply wp_bind.
  eapply (wp_mono _ (fun _ => True) _ no_fault); [| intros [fn |] _ | done]; [| | by apply wp_ret].
  - destruct (vm_varsfile v); [by apply wp_ret | by apply wp_strdup].
  - cbn zeta. case_match; [by apply wp_ret |].
    pose proof (copy_file_fds UEFI_FIRMWARE_VARS fn w) as H1. destruct (sys_copy_file k _ _ w) as [[] w2]; by apply wp_ret.
Qed.

(** What a start does to the descriptors. *)
Definition start_post (loader : string) w v (p : Z * vm NV * W) : Prop :=
  let '(rc, v', w') := p in
  if rc <? 0 then (fds_of w' = fds_of w \/ strcasecmp loader "grub" = 0 /\ lost_pipe w w') /\ held v' = held v
  else opened w v v' w'.

Lemma start_bhyve_fds w v loader :
  unconnected v -> vm_state v <> LOAD -> vc_loader (vm_get_conf v) = Some loader ->
  wp (start_bhyve k inspect vars_dir w v) (start_post loader w v) (fun f => f = ProcessExit \/ F f).
Proof.
  intros Hv Hs Hl. unfold start_bhyve. rewrite decide_False by done. rewrite Hl. apply wp_bind, (wp_deref _ _ _ _ eq_refl).
  assert (Hspawn : forall p, (let '(rc, v', w') := p in if rc <? 0 then fds_of w' = fds_of w /\ v' = v else opened w v v' w') ->
            start_post loader w v p).
  { intros [[rc v'] w']. cbn. destruct (rc <? 0); [intros [H ->]; auto | done]. }
  destruct (strcasecmp loader "bhyveload" =? 0); [eapply wp_mono; [by apply bhyve_load_fds | exact Hspawn | done] |].
  destruct (strcasecmp loader "grub" =? 0) eqn:Eg.
  { apply wp_bind. eapply wp_mono; [apply write_mapfile_fds | intros [[rc m] w1] H1 | done]. cbn in H1. cbn zeta.
    destruct (rc <? 0); [apply wp_ret; by cbn; auto |].
    eapply wp_mono; [by apply grub_load_fds | | by right]. intros [[rc2 v2] w2]. cbn. unfold opened, lost_pipe. rewrite H1.
    destruct (rc2 <? 0); [intros [[H | H] ->]; (split; [| done]); [by left | right; split; [lia | done]] | done]. }
  destruct (strcasecmp loader "uefi" =? 0).
  { apply wp_bind. eapply wp_mono; [apply copy_uefi_vars_fds | intros [[rc v1] w1] (H1 & H2 & H3) | done].
    destruct (rc <? 0); [apply wp_ret; by cbn; auto |].
    eapply wp_mono; [apply exec_bhyve_fds; by apply H3 | | done]. intros [[rc2 v2] w2]. cbn. unfold opened. rewrite H1, H2.
    destruct (rc2 <? 0); [intros [H ->]; auto | done]. }
  destruct (strcasecmp loader "csm" =? 0); [eapply wp_mono; [by apply exec_bhyve_fds | exact Hspawn | done] |].
  apply wp_ret. cbn. auto.
Qed.

(** [cleanup_bhyve] closes what the record holds. *)
Lemma close_fd_fds w fd : fds_of (close_fd k w fd) = fds_of w ∖ (if fd =? -1 then ∅ else {[fd]}).
Proof. unfold close_fd. destruct (fd =? -1); [set_solver | apply close_law]. Qed.

Lemma cleanup_bhyve_fds w v G :
  is_Some (vc_name (vm_get_conf v)) ->
  wp (cleanup_bhyve k w v) (fun '(v', w') => fds_of w' = fds_of w ∖ held v /\ held v' = ∅) G.
Proof.
  intros [n Hn]. unfold cleanup_bhyve, destroy_bhyve. cbn zeta. apply wp_bind, wp_bind, (wp_deref _ n); [exact Hn |]. apply wp_ret, wp_ret.
  split; [| done].
  assert (H : forall w0 fn, fds_of (match fn with Some fn => sys_unlink k fn w0 | None => w0 end) = fds_of w0) by (intros w0 []; [apply unlink_fds | done]).
  rewrite H, destroy_fds. cbn [foldl]. rewrite !close_fd_fds. unfold held, held_list. cbn [List.filter].
  destruct (vm_infd v =? -1), (vm_outfd v =? -1), (vm_errfd v =? -1), (vm_logfd v =? -1); cbn; set_solver.
Qed.

(** [C25] The descriptors of a VM that is started anew, that is, one in another state than LOAD whose record has no pipes ([unconnected]; an
    open log file may be in it).  A start that succeeds has opened exactly those that the record of the VM now holds, all of them new; one that
    fails has opened none, except that [grub_load] forgets its pipe when [fork] fails.  [cleanup_bhyve] closes every
    descriptor of the record and no other, so that after the start and the end of a VM those are open that were open before, without
    those that the VM held.  Assumed: the calls of the kernel open and close what is documented ([FdLaws]), and an inspection
    of the disks leaves no descriptor open and has no faults but those of [F].  The second start of a VM, when its loader has ended (LOAD), is
    left out, since there the claim is false: the pipes of the loader are lost ([loader_output_leaks]). *)
Theorem vm_descriptors_closed w v loader :
  unconnected v -> vm_state v <> LOAD -> vc_loader (vm_get_conf v) = Some loader -> is_Some (vc_name (vm_get_conf v)) ->
  wp (start_bhyve k inspect vars_dir w v)
     (fun '(rc, v1, w1) =>
        start_post loader w v (rc, v1, w1) /\
        wp (cleanup_bhyve k w1 v1)
           (fun '(v2, w2) => held v2 = ∅ /\ (strcasecmp loader "grub" <> 0 \/ 0 <= rc -> fds_of w2 = fds_of w ∖ held v))
           (fun _ => False))
     (fun f => f = ProcessExit \/ F f).
Proof.
  intros Hv Hs Hl Hn.
  assert (Hc : wp (start_bhyve k inspect vars_dir w v) (fun p => is_Some (vc_name (vm_get_conf p.1.2))) (fun f => f = ProcessExit \/ F f)).
  { eapply wp_mono; [apply (start_bhyve_any k inspect vars_dir F); [| exact Hl] | | done].
    - intros conf w0. by eapply wp_mono; [apply inspect_fds | |].
    - intros p [[Hp _] _]. unfold vm_get_conf. by rewrite Hp. }
  eapply wp_mono; [apply wp_and; [by apply start_bhyve_fds | exact Hc] | | done].
  intros [[rc v1] w1] [H1 Hn1]. split; [exact H1 |]. eapply wp_mono; [by apply (cleanup_bhyve_fds w1 v1 no_fault) | | done].
  intros [v2 w2] [H2 H3]. split; [done |]. intros Hg. rewrite H2. unfold start_post in H1. destruct (Z.ltb_spec rc 0) as [Hr | Hr].
  - destruct Hg as [Hg | Hg]; [| lia]. destruct H1 as [[-> | [? _]] ->]; done.
  - destruct H1 as (new & N1 & -> & ->). set_solver.
Qed.

End parent.

(** ** A kernel that counts *)

(** The open descriptors; a new one is greater than all of them. *)
Definition fresh_fd (s : gset Z) : Z := 1 + set_fold Z.max 2 s.

Definition demo_fd_kernel (forks : bool) : kernel (gset Z) := {|
  sys_fork := fun w => (if forks then Some 100 else None, w);
  sys_pipe := fun w => let a := fresh_fd w in (Some (a, a + 1), {[a; a + 1]} ∪ w);
  sys_close := fun fd w => w ∖ {[fd]}; sys_write := fun _ _ w => w; sys_unlink := fun _ w => w;
  sys_socket := fun w => (true, w);
  sys_if := {|
    if_get := fun _ w => (Some (2, 0), w); if_set := fun _ _ w => (0, w); if_create := fun _ w => (Some "tap0", w);
    if_destroy := fun _ w => (0, w); if_describe := fun _ _ _ w => (0, w); if_bridge := fun _ _ w => (0, w) |};
  sys_mkstemp := fun p w => (Some p, w); sys_write_file := fun _ _ w => (true, w); sys_is_file := fun _ _ => false;
  sys_copy_file := fun _ _ w => (true, w); sys_kill := fun _ _ w => (0, w); sys_vm_suspend := fun _ _ w => (0, w);
  sys_vmm_destroy := fun _ w => w |}.

Lemma fresh_fd_above (s : gset Z) x : x ∈ s -> x < fresh_fd s.
Proof.
  intros H. enough (x <= set_fold Z.max 2 s) by (unfold fresh_fd; lia). revert x H.
  apply (set_fold_ind_L (fun r s => forall x, x ∈ s -> x <= r)); [set_solver |].
  intros y X r Hy IH x [->%elem_of_singleton | H]%elem_of_union; [lia |]. specialize (IH x H). lia.
Qed.

Lemma fresh_fd_pos (s : gset Z) : 2 < fresh_fd s.
Proof.
  enough (2 <= set_fold Z.max 2 s) by (unfold fresh_fd; lia).
  apply (set_fold_ind_L (fun r _ => 2 <= r)); [lia | intros; lia].
Qed.

#[export] Instance demo_fd_laws forks : FdLaws (demo_fd_kernel forks).
Proof.
  refine {| fds_of := fun w : gset Z => w : gset Z |}; try done.
  intros w a b w' [= <- <- <-]. pose proof (fresh_fd_pos w). split_and!; try lia; try done.
  - intros H1%fresh_fd_above. lia.
  - intros H1%fresh_fd_above. lia.
Defined.

(** The VM of Vm.v is booted from a firmware. *)
Lemma vm_descriptors_closed_witness :
  wp (start_bhyve (demo_fd_kernel true) (fun _ w => mret (None, w)) (Some "/var/cache/bmd") {[0; 1; 2; 7]} demo_bhyve_vm)
     (fun '(rc, v1, w1) =>
        start_post (demo_fd_kernel true) "uefi" {[0; 1; 2; 7]} demo_bhyve_vm (rc, v1, w1) /\
        wp (cleanup_bhyve (demo_fd_kernel true) w1 v1)
           (fun '(v2, w2) => held v2 = ∅ /\ (strcasecmp "uefi" "grub" <> 0 \/ 0 <= rc ->
              w2 = {[0; 1; 2; 7]} ∖ held demo_bhyve_vm))
           (fun _ => False))
     (fun f => f = ProcessExit \/ no_fault f).
Proof.
  assert (Hins : forall (conf : vm_conf) (w : gset Z), wp (mret (@None string, w)) (fun p => p.2 = w) no_fault) by (by intros; apply wp_ret).
  exact (vm_descriptors_closed (demo_fd_kernel true) (fun _ w => mret (None, w)) (Some "/var/cache/bmd") no_fault Hins
           {[0; 1; 2; 7]} demo_bhyve_vm "uefi" (conj eq_refl (conj eq_refl eq_refl)) ltac:(done) eq_refl (ex_intro _ _ eq_refl)).
Defined.

(** A loader has run: 3 and 5 are the pipes of its output. *)
Definition demo_loaded_vm : vm unit := demo_bhyve_vm <| vm_state := LOAD |> <| vm_outfd := 3 |> <| vm_errfd := 5 |>.

Lemma loader_output_leaks_witness :
  exec_bhyve (demo_fd_kernel true) {[0; 1; 2; 3; 5]} demo_loaded_vm [] =
    Done (0, demo_loaded_vm <| vm_outfd := 6 |> <| vm_errfd := 8 |> <| vm_pid := 100 |> <| vm_state := RUN |>, {[0; 1; 2; 3; 5; 6; 8]}) [] /\
  wp (exec_bhyve (demo_fd_kernel true) {[0; 1; 2; 3; 5]} demo_loaded_vm)
     (fun '(rc, v', w') => rc = 0 -> 3 ∈ w' /\ 3 ∉ held v') (fun f => f = ProcessExit).
Proof.
  split; [vm_compute; reflexivity |].
  assert (Hin : 3 ∈ ({[0; 1; 2; 3; 5]} : gset Z)) by set_solver.
  exact (loader_output_leaks (demo_fd_kernel true) {[0; 1; 2; 3; 5]} demo_loaded_vm 3 eq_refl eq_refl Hin eq_refl eq_refl).
Defined.

(** The pipes have taken the places of 1 and 2. *)
Definition demo_table : gmap Z string :=
  {[0 := "tty"; 1 := "out reads"; 2 := "out writes"; 3 := "err reads"; 4 := "err writes"]}.

Lemma demo_table_fresh : fresh_pipes demo_table (1, 2) (3, 4).
Proof. split_and!; try (cbn; lia); eexists; reflexivity. Qed.

Lemma child_output_wired_witness :
  let t' := child_pipes demo_table (Some ((1, 2), (3, 4))) in
  t' !! 1 = Some "out writes" /\ t' !! 2 = Some "err writes" /\
  (forall fd, fd = 1 \/ fd = 3 -> fd <> 1 -> fd <> 2 -> t' !! fd = None) /\
  (forall fd, 2 < fd -> fd <> 1 -> fd <> 3 -> t' !! fd = demo_table !! fd).
Proof. exact (child_output_wired demo_table (1, 2) (3, 4) demo_table_fresh). Defined.
