(* ===== verification/Grub.v ===== *)
(** * Looking for a kernel with grub (src/inspect_grub.c)

    [inspect_with_grub] runs grub-bhyve on the disks of a VM and talks to its
    prompt: it asks for the partitions, then for the files on them, and makes
    the load command from the first kernel it knows.

    A [struct proc_pipe] has the bytes of its buffer, also the stale ones behind
    [nread], and what the process will still write: a list of pieces, each of
    which becomes visible as a whole; an empty list is the end of file.  The
    text sent to grub is collected in [pp_out], as far as the answers [pp_wok]
    let it be written.  [memcpy] within the buffer goes to lower addresses, possibly of the same bytes, which the C standard
    does not allow; it is taken to copy as [memmove] does, as that of FreeBSD does.  The loop of [pp_expect] takes fuel: it does not
    always end. *)

From S2P Require Import Prelude CString Vars Conf Global MPool Plugin ParseValue Parser Load Tap Vm.
From Stdlib Require Import Ascii Sorted.

Local Open Scope Z_scope.

(** ** Data *)

Record disk_info := {
  orig_name : option string;
  disk_name : option string;
  part_name : option string;
  slice_name : option string;
  part_index : Z;
  slice_index : Z;
}.

#[export] Instance eta_disk_info : Eta disk_info := fun d => {|
  orig_name := orig_name d; disk_name := disk_name d; part_name := part_name d;
  slice_name := slice_name d; part_index := part_index d; slice_index := slice_index d |}.

(** What the pipe has for the next [poll] and [read]. *)
Inductive pp_answer := PollFails | PollTimeout | ReadFails | Arrives (s : string).

Record proc_pipe := {
  pp_pid : Z;
  pp_vm_name : option string;
  pp_mapfile : option string;
  pp_fd : Z;
  pp_buf : string;
  pp_nread : nat;
  pp_in : list pp_answer;
  pp_wok : list bool;
  pp_out : list string;
}.

#[export] Instance eta_proc_pipe : Eta proc_pipe := fun p => {|
  pp_pid := pp_pid p; pp_vm_name := pp_vm_name p; pp_mapfile := pp_mapfile p; pp_fd := pp_fd p;
  pp_buf := pp_buf p; pp_nread := pp_nread p; pp_in := pp_in p; pp_wok := pp_wok p; pp_out := pp_out p |}.

(** The buffer has this size from [pp_create] on. *)
Definition pp_size (pp : proc_pipe) : nat := String.length (pp_buf pp).

Definition CR : ascii := ascii_of_nat 13.
Definition ESC : ascii := ascii_of_nat 27.

Definition NEWLINE : string := String CR EmptyString.
Definition PROMPT : string := "grub> ".

Definition create_disk_info : C (option disk_info) :=
  ok ← malloc;
  mret (if (ok : bool)
        then Some {| orig_name := None; disk_name := None; part_name := None; slice_name := None;
                     part_index := 0; slice_index := 0 |}
        else None).

(** ** Terminal sequences *)

Definition is_param (c : ascii) : bool := is_digit c || Ascii.eqb c ";".

(** The final characters of the [switch]. *)
Definition is_final (c : ascii) : bool :=
  existsb (Ascii.eqb c) (String.list_ascii_of_string "ABCDEFGHIJKMSTfhilmnsu").

(** The inner [for]: what stands behind the parameters. *)
Fixpoint skip_params (s : string) : string :=
  match s with
  | String c s' => if is_param c then skip_params s' else s
  | EmptyString => EmptyString
  end.

(** The loop over the [size] bytes; the fuel is their number.  A sequence that
    is not complete ends the loop. *)
Fixpoint strip_csi_loop (fuel : nat) (s : string) : string :=
  match fuel, s with
  | S fuel', String c s' =>
      let copy := String c (strip_csi_loop fuel' s') in
      match s' with
      | String d s'' =>
          if Ascii.eqb c ESC && Ascii.eqb d "[" then
            match skip_params s'' with
            | EmptyString => EmptyString
            | String f rest => if is_final f then strip_csi_loop fuel' rest else copy
            end
          else copy
      | EmptyString => copy
      end
  | _, _ => EmptyString
  end.

Definition strip_csi (s : string) : string := strip_csi_loop (String.length s) s.

(** [strip_csi(pp->buf, n)]: the bytes behind the result stay. *)
Definition strip_buf (pp : proc_pipe) (n : nat) : proc_pipe :=
  let r := strip_csi (take_str n (pp_buf pp)) in
  pp <| pp_buf := r +:+ drop_str (String.length r) (pp_buf pp) |> <| pp_nread := String.length r |>.

Fixpoint strip_newline (s : string) : string :=
  match s with
  | EmptyString => EmptyString
  | String c s' => if Ascii.eqb c CR || Ascii.eqb c LF then strip_newline s' else String c (strip_newline s')
  end.

(** ** The pipe *)

(** [poll] and [read]: at most what room_fits behind [nread]. *)
Definition pp_read (pp : proc_pipe) : Z * proc_pipe :=
  let room := (pp_size pp - pp_nread pp)%nat in
  if Nat.ltb 0 room then
    match pp_in pp with
    | [] => (Z.of_nat (pp_nread pp), pp)
    | PollFails :: l => (-1, pp <| pp_in := l |>)
    | PollTimeout :: l => (Z.of_nat (pp_nread pp), pp <| pp_in := l |>)
    | ReadFails :: l => (-1, pp <| pp_in := l |>)
    | Arrives s :: l =>
        let got := take_str room s in
        let pp := pp <| pp_in := match drop_str room s with
                                 | EmptyString => l
                                 | rest => Arrives rest :: l
                                 end |> in
        match got with
        | EmptyString => (Z.of_nat (pp_nread pp), pp)
        | _ =>
            let n := (pp_nread pp + String.length got)%nat in
            let buf := take_str (pp_nread pp) (pp_buf pp) +:+ got +:+ drop_str n (pp_buf pp) in
            let pp := strip_buf (pp <| pp_buf := buf |>) n in
            (Z.of_nat (pp_nread pp), pp)
        end
    end
  else (Z.of_nat (pp_nread pp), pp).

(** [memcpy(pp->buf, &pp->buf[p], n)] and [pp->nread = n]. *)
Definition pp_shift (pp : proc_pipe) (p n : nat) : C proc_pipe :=
  if Nat.leb (p + n) (pp_size pp) then
    mret (pp <| pp_buf := take_str n (drop_str p (pp_buf pp)) +:+ drop_str n (pp_buf pp) |>
             <| pp_nread := n |>)
  else crash WildAccess.

(** What is done when [expect] stands at [p]; [room] is [size - 1] for the
    caller's buffer.  The result has the text of that buffer when it is
    written. *)
Definition pp_found (pp : proc_pipe) (expect : string) (room : option nat) (p : nat)
    : C (Z * option string * proc_pipe) :=
  let skip := (p + String.length expect)%nat in
  match room with
  | Some max =>
      if Nat.ltb max p then
        let text := strip_newline (c_str max (pp_buf pp)) in
        pp ← pp_shift pp p (pp_nread pp - max);
        mret (Z.of_nat (String.length text), Some text, pp)
      else
        let text := strip_newline (c_str p (pp_buf pp)) in
        pp ← pp_shift pp skip (pp_nread pp - skip);
        mret (Z.of_nat (String.length text), Some text, pp)
  | None =>
      pp ← pp_shift pp skip (pp_nread pp - skip);
      mret (Z.of_nat skip, None, pp)
  end.

Fixpoint pp_expect (fuel : nat) (pp : proc_pipe) (expect : string) (room : option nat)
    : C (Z * option string * proc_pipe) :=
  match fuel with
  | O => crash OutOfFuel
  | S fuel' =>
      let '(rc, pp) := pp_read pp in
      if rc <? 0 then mret (-1, None, pp)
      else if rc =? 0 then mret (0, None, pp)
      else
        match strnstr (pp_buf pp) "Error" (pp_nread pp) with
        | Some _ => mret (-1, None, pp)
        | None =>
            match strnstr (pp_buf pp) expect (pp_nread pp) with
            | Some p => pp_found pp expect room p
            | None =>
                if Nat.ltb (pp_size pp) (pp_nread pp) then mret (-1, None, pp)
                else
                  pp ← (if Nat.eqb (pp_nread pp) (pp_size pp)
                        then pp_shift pp (pp_size pp / 2) (pp_size pp / 2) else mret pp);
                  pp_expect fuel' pp expect room
            end
        end
  end.

Fixpoint zeros (n : nat) : string :=
  match n with O => EmptyString | S n' => String NUL (zeros n') end.

Definition pp_create : C (option proc_pipe) :=
  ok ← malloc;
  if negb ok then mret None
  else
    ok ← malloc;
    mret (if (ok : bool)
          then Some {| pp_pid := 0; pp_vm_name := None; pp_mapfile := None; pp_fd := 0;
                       pp_buf := zeros (4 * 1024); pp_nread := 0; pp_in := []; pp_wok := []; pp_out := [] |}
          else None).

(** ** Disks *)

(** [rest] is what follows when the names are the same. *)
Definition compare_name (a b : option string) (rest : C Z) : C Z :=
  match a, b with
  | None, None => mret 0
  | None, Some _ => mret 1
  | Some _, None => mret (-1)
  | Some a, Some b => if strcmp a b =? 0 then rest else mret (strcmp a b)
  end.

(** The differences of the indices must fit into an [int] ([CMP_NUM] of Conf.v: a difference that is not 0 is the
    result). *)
Definition compare_disk_info (a b : disk_info) : C Z :=
  compare_name (disk_name a) (disk_name b) (
  compare_name (part_name a) (part_name b) (
  CMP_NUM (part_index a) (part_index b) (
  compare_name (slice_name a) (slice_name b) (
  CMP_NUM (slice_index a) (slice_index b) (mret 0))))).

(** [SLIST_MERGESORT] is a stable sort; so is insertion.  (With indices whose difference overflows the outcome is
    undefined in any case; which pairs are compared is that of insertion here.) *)
Fixpoint insert_disk (x : disk_info) (l : list disk_info) : C (list disk_info) :=
  match l with
  | [] => mret [x]
  | y :: l' => c ← compare_disk_info x y; if c <=? 0 then mret (x :: l) else l' ← insert_disk x l'; mret (y :: l')
  end.

Fixpoint sort_disk_info_list (l : list disk_info) : C (list disk_info) :=
  match l with
  | [] => mret []
  | x :: l => l ← sort_disk_info_list l; insert_disk x l
  end.

(** The name in front of the first digit, and the number there. *)
Fixpoint split_index (token : string) : string * string :=
  match token with
  | EmptyString => (EmptyString, EmptyString)
  | String c s =>
      if is_digit c then (EmptyString, token)
      else let '(a, b) := split_index s in (String c a, b)
  end.

Definition index_num (s : string) : Z := to_int (strtol s 10).1.

(** The text between the parentheses; [None] when memory runs out. *)
Definition parse_disk_info (s : string) : C (option disk_info) :=
  di ← create_disk_info;
  match di with
  | None => mret None
  | Some di =>
      orig ← strdup s;
      match orig with
      | None => mret None
      | Some orig =>
          let di := di <| orig_name := Some orig |> in
          let '(token, s) := strsep s "," in
          disk ← strdup token;
          match disk, s with
          | None, _ => mret None
          | Some disk, None => mret (Some (di <| disk_name := Some disk |>))
          | Some disk, Some s =>
              let di := di <| disk_name := Some disk |> in
              let '(token, s) := strsep s "," in
              let '(name, num) := split_index token in
              part ← strdup name;
              match part, s with
              | None, _ => mret None
              | Some part, None =>
                  mret (Some (di <| part_name := Some part |> <| part_index := index_num num |>))
              | Some part, Some s =>
                  let di := di <| part_name := Some part |> <| part_index := index_num num |> in
                  let '(token, _) := strsep s "," in
                  let '(name, num) := split_index token in
                  slice ← strdup name;
                  mret (match slice with
                        | None => None
                        | Some slice =>
                            Some (di <| slice_name := Some slice |> <| slice_index := index_num num |>)
                        end)
              end
          end
      end
  end.

(** The loop over the line: [l] has the disks found, the last one first.
    The fuel is the length of the line. *)
Fixpoint parse_disks_loop (fuel : nat) (e : string) (l : list disk_info)
    : C (Z * list disk_info) :=
  match fuel with
  | O => mret (0, l)
  | S fuel' =>
      match strchr e "(" with
      | None | Some EmptyString | Some (String _ EmptyString) => mret (0, l)
      | Some (String _ s) =>
          match strchr s ")" with
          | None => mret (0, l)
          | Some e =>
              di ← parse_disk_info (before s ")");
              match di with
              | None => mret (-1, l)
              | Some di => parse_disks_loop fuel' e (di :: l)
              end
          end
      end
  end.

Definition parse_disks (line : string) (l : list disk_info) : C (Z * list disk_info) :=
  '(rc, l) ← parse_disks_loop (S (String.length line)) line l;
  if rc <? 0 then mret (-1, l) else l ← sort_disk_info_list l; mret (0, l).

(** The byte in front of position [p], and the test of what stands around. *)
Definition look_for_filename (buf name : string) : bool :=
  match strstr buf name with
  | None => false
  | Some p =>
      let after := char_at buf (p + String.length name) in
      (Nat.eqb p 0 || Ascii.eqb (char_at buf (p - 1)) " ") &&
      (Ascii.eqb after NUL || Ascii.eqb after " " || Ascii.eqb after CR || Ascii.eqb after LF)
  end.

Definition NETBSD_KERNEL : string := "netbsd".
Definition OPENBSD_KERNEL : string := "bsd".
Definition OPENBSD_RAMDISK_KERNEL : string := "bsd.rd".
Definition OPENBSD_UPGRADE_KERNEL : string := "bsd.upgrade".

(** [%c] of ['a' + index - 1], a sum of [int]s. *)
Definition letter (index : Z) : C string :=
  if INT_MAX <? byte_of "a" + index then crash SignedOverflow
  else mret (String (ascii_of_N (Z.to_N ((byte_of "a" + index - 1) mod 256))) EmptyString).

(** [asprintf] of the prefix and the letter. *)
Definition disk_letter (prefix : string) (index : Z) : C (option string) := c ← letter index; strdup (prefix +:+ c).

Definition get_diskname (kernel : string) (di : disk_info) : C (option string) :=
  if strcmp kernel NETBSD_KERNEL =? 0 then disk_letter "dk0" (part_index di)
  else
    let openbsd := match part_name di with Some p => strcmp p "openbsd" =? 0 | None => false end in
    if openbsd then disk_letter "sd0" (part_index di)
    else match slice_name di with
         | None => strdup "sd0a"
         | Some _ => disk_letter "sd0" (slice_index di)
         end.

(** The table of kernels and the commands that load them. *)
Definition kernels : list (string * string) :=
  [(OPENBSD_UPGRADE_KERNEL, "kopenbsd"); (OPENBSD_KERNEL, "kopenbsd"); (NETBSD_KERNEL, "knetbsd")].

(** ** The dialogue *)

(** src/inspect.h *)
Record inspection := {
  ins_single_user : bool;
  ins_md_unit : Z;
  ins_conf : vm_conf;
  ins_mount_point : string;
  ins_iso_path : option string;
  ins_disk_path : option string;
  ins_block_dev : option string;
  ins_ufs_dev : option string;
  ins_install_cmd : option string;
  ins_load_cmd : option string;
  ins_grub_run_partition : option string;
}.

#[export] Instance eta_inspection : Eta inspection := fun i => {|
  ins_single_user := ins_single_user i; ins_md_unit := ins_md_unit i; ins_conf := ins_conf i;
  ins_mount_point := ins_mount_point i; ins_iso_path := ins_iso_path i;
  ins_disk_path := ins_disk_path i; ins_block_dev := ins_block_dev i; ins_ufs_dev := ins_ufs_dev i;
  ins_install_cmd := ins_install_cmd i; ins_load_cmd := ins_load_cmd i;
  ins_grub_run_partition := ins_grub_run_partition i |}.

(** [dprintf] on the pipe. *)
Definition pp_printf (pp : proc_pipe) (s : string) : Z * proc_pipe :=
  match pp_wok pp with
  | false :: l => (-1, pp <| pp_wok := l |>)
  | l => (Z.of_nat (String.length s), pp <| pp_wok := tail l |> <| pp_out := pp_out pp ++ [s] |>)
  end.

(** [char buf[1024]]: [None] while nothing has been written to it. *)
Definition read_buf (buf : option string) : C string :=
  match buf with
  | Some s => mret s
  | None => crash Uninitialised
  end.

(** A command, its echo, and the text up to the next prompt. *)
Definition ask (fuel : nat) (pp : proc_pipe) (cmd : string) (buf : option string)
    : C (bool * option string * proc_pipe) :=
  let '(rc, pp) := pp_printf pp cmd in
  if rc <? 0 then mret (false, buf, pp)
  else
    '(rc, _, pp) ← pp_expect fuel pp NEWLINE None;
    if rc <? 0 then mret (false, buf, pp)
    else
      '(rc, text, pp) ← pp_expect fuel pp PROMPT (Some 1023%nat);
      mret (0 <=? rc, match text with Some _ => text | None => buf end, pp).

Definition load_cmd_text (method : string) (single : bool) (dn orig kernel : string) : string :=
  method +:+ (if single then " -s" else EmptyString) +:+ " -h com0 -r " +:+ dn +:+ " (" +:+ orig +:+
  ")/" +:+ kernel +:+ nl +:+ "boot" +:+ nl.

(** The loop over the kernels: 1 when there is none, 0 when the load command is
    made, -1 when memory runs out. *)
Fixpoint find_kernel (ks : list (string * string)) (buf : option string) (di : disk_info)
    (ins : inspection) : C (Z * inspection) :=
  match ks with
  | [] => mret (1, ins)
  | (kernel, method) :: ks' =>
      text ← read_buf buf;
      if negb (look_for_filename text kernel) then find_kernel ks' buf di ins
      else
        dn ← get_diskname kernel di;
        match dn with
        | None => mret (-1, ins)
        | Some dn =>
            cmd ← strdup (load_cmd_text method (ins_single_user ins) dn (pct_s (orig_name di)) kernel);
            mret (match cmd with
                  | None => (-1, ins <| ins_load_cmd := None |>)
                  | Some cmd => (0, ins <| ins_load_cmd := Some cmd |>)
                  end)
        end
  end.

(** Which partitions are looked at. *)
Definition is_candidate (di : disk_info) : C bool :=
  disk ← deref (disk_name di);
  mret ((strcmp disk "hd0" =? 0) &&
        match part_name di with
        | None => true
        | Some p => (strcmp p "openbsd" =? 0) || (strcmp p "gpt" =? 0)
        end).

(** The loop over the disks; the answer is negative on an error. *)
Fixpoint search_disks (fuel : nat) (l : list disk_info) (buf : option string) (pp : proc_pipe)
    (ins : inspection) : C (Z * proc_pipe * inspection) :=
  match l with
  | [] => mret (0, pp, ins)
  | di :: l' =>
      c ← is_candidate di;
      if negb c then search_disks fuel l' buf pp ins
      else
        '(ok, buf, pp) ← ask fuel pp ("ls (" +:+ pct_s (orig_name di) +:+ ")/" +:+ nl) buf;
        if negb ok then mret (-1, pp, ins)
        else
          '(rc, ins) ← find_kernel kernels buf di ins;
          if rc =? 1 then search_disks fuel l' buf pp ins else mret (rc, pp, ins)
  end.

(** What follows on the start of grub. *)
Definition grub_dialogue (fuel : nat) (pp : proc_pipe) (ins : inspection)
    : C (Z * proc_pipe * inspection) :=
  let failed pp ins := let '(_, pp) := pp_printf pp ("exit" +:+ nl) in mret (-1, pp, ins) in
  '(rc, _, pp) ← pp_expect fuel pp PROMPT None;
  if rc <? 0 then failed pp ins
  else
    '(ok, buf, pp) ← ask fuel pp ("ls" +:+ nl) None;
    if negb ok then failed pp ins
    else
      line ← read_buf buf;
      '(rc, list) ← parse_disks line [];
      if rc <? 0 then failed pp ins
      else
        '(rc, pp, ins) ← search_disks fuel list buf pp ins;
        if rc <? 0 then failed pp ins
        else
          let '(rc, pp) := pp_printf pp ("exit" +:+ nl) in
          if rc <? 0 then failed pp ins
          else
            '(rc, _, pp) ← pp_expect fuel pp NEWLINE None;
            if rc <? 0 then failed pp ins else mret (0, pp, ins).

(** The arguments of grub-bhyve. *)
Definition spawn_lines (pp : proc_pipe) : list string :=
  ["grub-bhyve"; "-n"; "-e"; "-m"; pct_s (pp_mapfile pp); pct_s (pp_vm_name pp)].

Section inspect_with_grub.
Context {W : Type} (k : kernel W) (grub : list string -> W -> list pp_answer * list bool * W).

(** [grub] is what the process that is started will write and accept. *)
Definition spawn_grub (w : W) (pp : proc_pipe) : Z * proc_pipe * W :=
  match sys_pipe k w with
  | (None, w) => (-1, pp, w)
  | (Some (fd, fd'), w) =>
      match sys_fork k w with
      | (None, w) => (-1, pp, sys_close k fd' (sys_close k fd w))
      | (Some pid, w) =>
          let '(ins, oks, w) := grub (spawn_lines pp) w in
          (0, pp <| pp_pid := pid |> <| pp_fd := fd |> <| pp_in := ins |> <| pp_wok := oks |>, sys_close k fd' w)
      end
  end.

(** The process is waited for and the VM in the kernel destroyed; then the file is removed. *)
Definition pp_close (w : W) (pp : proc_pipe) : C W :=
  let w := sys_close k (pp_fd pp) w in
  name ← deref (pp_vm_name pp); mret (sys_vmm_destroy k name w).

Definition pp_free (w : W) (pp : proc_pipe) : W :=
  match pp_mapfile pp with Some fn => sys_unlink k fn w | None => w end.

Definition inspect_with_grub (fuel : nat) (w : W) (ins : inspection) : C (Z * inspection * W) :=
  pp ← pp_create;
  match pp with
  | None => mret (-1, ins, w)
  | Some pp =>
      '(rc, mapfile, w) ← write_mapfile k w (ins_conf ins) (pp_mapfile pp);
      let pp := pp <| pp_mapfile := mapfile |> in
      if rc <? 0 then mret (-1, ins, pp_free w pp)
      else
        name ← strdup ("ins-" +:+ pct_s (vc_name (ins_conf ins)));
        match name with
        | None => mret (-1, ins, pp_free w pp)
        | Some name =>
            let '(rc, pp, w) := spawn_grub w (pp <| pp_vm_name := Some name |>) in
            if rc <? 0 then mret (-1, ins, pp_free w pp)
            else
              '(rc, pp, ins) ← grub_dialogue fuel pp ins;
              w ← pp_close w pp;
              mret (rc, ins, pp_free w pp)
        end
  end.

End inspect_with_grub.

(** ** Terminal sequences are removed *)

(** What a terminal receives: characters and control sequences. *)
Inductive term_item := Chr (c : ascii) | Csi (params : string) (final : ascii).

Fixpoint all_params (s : string) : bool :=
  match s with
  | EmptyString => true
  | String c s' => is_param c && all_params s'
  end.

Definition item_ok (i : term_item) : bool :=
  match i with
  | Chr c => negb (Ascii.eqb c ESC)
  | Csi params final => all_params params && is_final final
  end.

Definition render_item (i : term_item) : string :=
  match i with
  | Chr c => String c EmptyString
  | Csi params final => String ESC (String "[" (params +:+ String final EmptyString))
  end.

Definition item_text (i : term_item) : string :=
  match i with Chr c => String c EmptyString | Csi _ _ => EmptyString end.

Definition render (l : list term_item) : string := foldr (fun i s => render_item i +:+ s) EmptyString l.

Definition text (l : list term_item) : string := foldr (fun i s => item_text i +:+ s) EmptyString l.

Lemma length_skip_params s : (String.length (skip_params s) <= String.length s)%nat.
Proof. induction s as [| c s IH]; [done |]. cbn. destruct (is_param c); cbn; lia. Qed.

(** More fuel than bytes makes no difference. *)
Lemma strip_csi_fuel f1 : forall f2 s,
  (String.length s <= f1)%nat -> (String.length s <= f2)%nat -> strip_csi_loop f1 s = strip_csi_loop f2 s.
Proof.
  induction f1 as [| f1 IH]; intros f2 s H1 H2.
  { destruct s; [| cbn in H1; lia]. by destruct f2. }
  destruct f2 as [| f2]; [destruct s; [done | cbn in H2; lia] |].
  destruct s as [| c s]; [done |]. cbn in H1, H2. cbn [strip_csi_loop].
  rewrite (IH f2 s) by lia. destruct s as [| d s]; [done |].
  destruct (Ascii.eqb c ESC && Ascii.eqb d "["); [| done].
  pose proof (length_skip_params s) as Hl. destruct (skip_params s) as [| f rest]; [done |].
  destruct (is_final f); [| done]. cbn in *. apply IH; lia.
Qed.

Lemma skip_params_app params f rest :
  all_params params = true -> is_param f = false ->
  skip_params (params +:+ String f rest) = String f rest.
Proof.
  induction params as [| c params IH]; intros H Hf.
  - change (skip_params (String f rest) = String f rest). cbn. by rewrite Hf.
  - cbn in H. apply andb_true_iff in H as [Hc H]. rewrite app_str_cons. cbn. rewrite Hc. by apply IH.
Qed.

Lemma final_not_param f : is_final f = true -> is_param f = false.
Proof.
  unfold is_final. intros H. apply existsb_exists in H as (c & Hin & E). apply Ascii.eqb_eq in E as ->.
  cbn in Hin. repeat (destruct Hin as [<- | Hin]; [reflexivity |]). done.
Qed.

Lemma strip_csi_chr c s : c <> ESC -> strip_csi (String c s) = String c (strip_csi s).
Proof.
  intros Hc. unfold strip_csi. cbn [String.length strip_csi_loop].
  destruct (Ascii.eqb_spec c ESC); [done |]. by destruct s.
Qed.

Lemma strip_csi_seq params f s :
  all_params params = true -> is_final f = true ->
  strip_csi (String ESC (String "[" (params +:+ String f s))) = strip_csi s.
Proof.
  intros Hp Hf. unfold strip_csi.
  change (String.length (String ESC (String "[" (params +:+ String f s))))
    with (S (S (String.length (params +:+ String f s)))).
  assert (Hn : (String.length s <= S (String.length (params +:+ String f s)))%nat)
    by (rewrite length_app_str; cbn; lia).
  revert Hn. generalize (S (String.length (params +:+ String f s))). intros n Hn. cbn [strip_csi_loop].
  rewrite !Ascii.eqb_refl, skip_params_app by (done || by apply final_not_param).
  cbn [andb]. rewrite Hf. by apply strip_csi_fuel.
Qed.

(** Control sequences vanish and the text stays: when characters other
    than ESC and control sequences with parameters of digits and semicolons and
    one of the known final characters arrive in any order, [strip_csi] leaves
    the characters, whatever follows. *)
Theorem strip_csi_render l rest :
  forallb item_ok l = true ->
  strip_csi (render l +:+ rest) = text l +:+ strip_csi rest.
Proof.
  induction l as [| i l IH]; intros H; [done |]. cbn in H. apply andb_true_iff in H as [Hi H].
  cbn [render text foldr]. fold (render l) (text l). rewrite !app_str_assoc.
  destruct i as [c | params f]; cbn [render_item item_text item_ok] in *.
  - apply negb_true_iff, Ascii.eqb_neq in Hi.
    change (strip_csi (String c (render l +:+ rest)) = String c (text l +:+ strip_csi rest)).
    rewrite strip_csi_chr by done. f_equal. by apply IH.
  - apply andb_true_iff in Hi as [Hp Hf]. rewrite !app_str_cons, app_str_assoc.
    change (strip_csi (String ESC (String "[" (params +:+ String f (render l +:+ rest))))
            = text l +:+ strip_csi rest).
    rewrite strip_csi_seq by done. by apply IH.
Qed.

Lemma strip_csi_render_witness :
  strip_csi (render [Csi "2" "J"; Chr "o"; Csi "1;1" "H"; Chr "k"] +:+ "!") = "ok!".
Proof. exact (strip_csi_render [Csi "2" "J"; Chr "o"; Csi "1;1" "H"; Chr "k"] "!" eq_refl). Defined.

(** ** Waiting for a text *)

(** The bytes read, and what is known of a buffer. *)
Definition content (pp : proc_pipe) : string := take_str (pp_nread pp) (pp_buf pp).

Fixpoint plain_text (s : string) : bool :=
  match s with
  | EmptyString => true
  | String c s' => negb (Ascii.eqb c ESC) && negb (Ascii.eqb c NUL) && plain_text s'
  end.

Record pp_wf (pp : proc_pipe) : Prop := {
  wf_nread : (pp_nread pp <= pp_size pp)%nat;
  wf_plain : plain_text (content pp) = true;
}.

Lemma plain_app a b : plain_text (a +:+ b) = plain_text a && plain_text b.
Proof.
  induction a as [| c a IH]; [done |]. rewrite app_str_cons. cbn. rewrite IH. by rewrite andb_assoc.
Qed.

Lemma strip_csi_plain s : plain_text s = true -> strip_csi s = s.
Proof.
  induction s as [| c s IH]; intros H; [done |]. cbn in H. rewrite !andb_true_iff in H.
  destruct H as [[H1 _] H]. apply negb_true_iff, Ascii.eqb_neq in H1.
  rewrite strip_csi_chr by done. f_equal. by apply IH.
Qed.

Lemma before_plain s : plain_text s = true -> before s NUL = s.
Proof.
  induction s as [| c s IH]; intros H; [done |]. cbn in H. rewrite !andb_true_iff in H.
  destruct H as [[_ H1] H]. apply negb_true_iff in H1. cbn. rewrite H1. f_equal. by apply IH.
Qed.

Lemma length_content pp : pp_wf pp -> String.length (content pp) = pp_nread pp.
Proof. intros [H _]. unfold content. rewrite length_take_str. unfold pp_size in H. lia. Qed.

Lemma strnstr_content pp e : pp_wf pp -> strnstr (pp_buf pp) e (pp_nread pp) = strstr (content pp) e.
Proof. intros [_ H]. unfold strnstr, c_str. fold (content pp). by rewrite before_plain. Qed.

(** Writing [s] and keeping the bytes behind it. *)
Lemma over_content s buf :
  (String.length s <= String.length buf)%nat ->
  let b := s +:+ drop_str (String.length s) buf in
  String.length b = String.length buf /\ take_str (String.length s) b = s.
Proof.
  intros H. cbn zeta. split; [| apply take_str_app]. rewrite length_app_str, length_drop_str. lia.
Qed.

Lemma strip_buf_plain pp n :
  (n <= pp_size pp)%nat -> plain_text (take_str n (pp_buf pp)) = true ->
  strip_buf pp n = pp <| pp_nread := n |>.
Proof.
  intros Hn Hp. unfold strip_buf. rewrite strip_csi_plain by done.
  assert (E : String.length (take_str n (pp_buf pp)) = n) by (rewrite length_take_str; unfold pp_size in Hn; lia).
  rewrite E, take_drop_str. by destruct pp.
Qed.

(** A piece that room_fits is appended. *)
Lemma pp_read_arrives pp s l :
  pp_wf pp -> pp_in pp = Arrives s :: l -> s <> EmptyString -> plain_text s = true ->
  (pp_nread pp + String.length s <= pp_size pp)%nat ->
  exists pp', pp_read pp = (Z.of_nat (pp_nread pp'), pp') /\ pp_wf pp' /\
         content pp' = content pp +:+ s /\ pp_in pp' = l /\ pp_size pp' = pp_size pp /\
         pp_wok pp' = pp_wok pp.
Proof.
  intros Hwf Hin Hs Hp Hlen. pose proof (length_content pp Hwf) as Hc. pose proof Hwf as [Hn Hpl].
  assert (Hs0 : (0 < String.length s)%nat) by (destruct s; [done | cbn; lia]).
  set (n := (pp_nread pp + String.length s)%nat) in *.
  set (buf := take_str (pp_nread pp) (pp_buf pp) +:+ s +:+ drop_str n (pp_buf pp)).
  assert (Hl : String.length (content pp +:+ s) = n) by (rewrite length_app_str, Hc; done).
  destruct (over_content (content pp +:+ s) (pp_buf pp)) as [L1 L2]; [by rewrite Hl |].
  rewrite Hl, app_str_assoc in L1, L2. fold (content pp) in buf.
  change (content pp +:+ s +:+ drop_str n (pp_buf pp)) with buf in L1, L2.
  exists (pp <| pp_in := l |> <| pp_buf := buf |> <| pp_nread := n |>).
  assert (Hc' : content (pp <| pp_in := l |> <| pp_buf := buf |> <| pp_nread := n |>) = content pp +:+ s)
    by exact L2.
  split; [| split; [split |]; [| by rewrite Hc', plain_app, Hpl, Hp |]].
  - unfold pp_read. destruct (Nat.ltb_spec 0 (pp_size pp - pp_nread pp)) as [_ |]; [| lia].
    rewrite Hin, take_str_all, drop_str_all by lia. destruct s as [| c s]; [done |].
    pose proof (strip_buf_plain (pp <| pp_in := l |> <| pp_buf := buf |>) n) as E.
    cbv zeta. change (strip_buf _ _) with (strip_buf (pp <| pp_in := l |> <| pp_buf := buf |>) n).
    rewrite E; [done | change (n <= String.length buf)%nat; rewrite L1; exact Hlen |]. change (plain_text (take_str n buf) = true).
    by rewrite L2, plain_app, Hpl, Hp.
  - change (n <= String.length buf)%nat. rewrite L1. exact Hlen.
  - split; [exact Hc' | split; [done | split; [exact L1 | done]]].
Qed.

(** Without output nothing changes. *)
Lemma pp_read_eof pp : pp_in pp = [] -> pp_read pp = (Z.of_nat (pp_nread pp), pp).
Proof. intros H. unfold pp_read. rewrite H. by destruct (Nat.ltb _ _). Qed.

Lemma pp_shift_ok pp p n o :
  (p + n <= pp_size pp)%nat ->
  pp_shift pp p n o = Done (pp <| pp_buf := take_str n (drop_str p (pp_buf pp)) +:+ drop_str n (pp_buf pp) |>
                               <| pp_nread := n |>) o.
Proof. intros H. unfold pp_shift. destruct (Nat.leb_spec (p + n) (pp_size pp)); [done | lia]. Qed.

Lemma content_app pp : pp_buf pp = content pp +:+ drop_str (pp_nread pp) (pp_buf pp).
Proof. unfold content. by rewrite take_drop_str. Qed.

(** The caller's buffer, when it is large enough. *)
Definition room_fits (room : option nat) (pre : string) : Prop :=
  match room with None => True | Some max => (String.length pre <= max)%nat end.

Definition expect_rc (room : option nat) (pre expect : string) : Z :=
  match room with
  | None => Z.of_nat (String.length pre + String.length expect)
  | Some _ => Z.of_nat (String.length (strip_newline pre))
  end.

Definition expect_text (room : option nat) (pre : string) : option string :=
  match room with None => None | Some _ => Some (strip_newline pre) end.

Lemma pp_found_content pp expect room pre post o :
  pp_wf pp -> content pp = pre +:+ expect +:+ post -> room_fits room pre ->
  exists pp', pp_found pp expect room (String.length pre) o
              = Done (expect_rc room pre expect, expect_text room pre, pp') o /\
         pp_wf pp' /\ content pp' = post /\ pp_in pp' = pp_in pp /\ pp_size pp' = pp_size pp /\
         pp_wok pp' = pp_wok pp.
Proof.
  intros Hwf Hc Hfit. pose proof (length_content pp Hwf) as Hlen. pose proof Hwf as [Hn Hp].
  pose proof (content_app pp) as Hbuf. rewrite Hc in Hlen, Hp, Hbuf. rewrite !length_app_str in Hlen.
  rewrite !plain_app, !andb_true_iff in Hp. destruct Hp as (Hp1 & _ & Hp2).
  rewrite !app_str_assoc in Hbuf. set (tl := drop_str (pp_nread pp) (pp_buf pp)) in *.
  assert (Ht : c_str (String.length pre) (pp_buf pp) = pre).
  { unfold c_str. rewrite Hbuf, take_str_app. by apply before_plain. }
  set (skip := (String.length pre + String.length expect)%nat).
  assert (Hd : drop_str skip (pp_buf pp) = post +:+ tl).
  { rewrite Hbuf, <- app_str_assoc. unfold skip. rewrite <- length_app_str. apply drop_str_app. }
  assert (Hk : (pp_nread pp - skip)%nat = String.length post) by (unfold skip; lia).
  set (pp' := pp <| pp_buf := take_str (String.length post) (drop_str skip (pp_buf pp)) +:+
                              drop_str (String.length post) (pp_buf pp) |>
                 <| pp_nread := String.length post |>).
  assert (Hsh : forall o, pp_shift pp skip (pp_nread pp - skip) o = Done pp' o).
  { intros o'. rewrite Hk. apply pp_shift_ok. unfold skip. lia. }
  assert (Hpl : (String.length post <= String.length (pp_buf pp))%nat) by (unfold pp_size in Hn; lia).
  destruct (over_content post (pp_buf pp) Hpl) as [L1 L2].
  assert (Hpp' : content pp' = post /\ pp_size pp' = pp_size pp).
  { unfold content, pp_size, pp'. rewrite Hd, take_str_app. split; [exact L2 | exact L1]. }
  destruct Hpp' as [Hc' Hs']. exists pp'. split.
  - unfold pp_found. fold skip. destruct room as [max |]; cbn [room_fits expect_rc expect_text] in *.
    + destruct (Nat.ltb_spec max (String.length pre)); [lia |]. rewrite Ht.
      unfold mbind, C_bind. by rewrite Hsh.
    + unfold mbind, C_bind. by rewrite Hsh.
  - split; [split; [rewrite Hs'; exact Hpl | by rewrite Hc'] |]. done.
Qed.

(** What arrives, and in which pieces: a second of silence may be between them. *)
Fixpoint text_of (l : list pp_answer) : string :=
  match l with
  | [] => EmptyString
  | Arrives s :: l => s +:+ text_of l
  | _ :: l => text_of l
  end.

Definition piece (a : pp_answer) : Prop :=
  match a with
  | Arrives s => s <> EmptyString /\ plain_text s = true
  | PollTimeout => True
  | _ => False
  end.

(** One round of the loop. *)
Lemma pp_expect_round fuel pp pp1 expect room o :
  pp_read pp = (Z.of_nat (pp_nread pp1), pp1) -> pp_wf pp1 -> content pp1 <> EmptyString ->
  strstr (content pp1) "Error" = None ->
  (strstr (content pp1) expect = None -> pp_nread pp1 <> pp_size pp1) ->
  pp_expect (S fuel) pp expect room o
  = match strstr (content pp1) expect with
    | Some p => pp_found pp1 expect room p o
    | None => pp_expect fuel pp1 expect room o
    end.
Proof.
  intros Hr Hwf Hne Herr Hfull. pose proof (length_content pp1 Hwf) as Hl. pose proof Hwf as [Hn _].
  assert (0 < pp_nread pp1)%nat by (destruct (content pp1); [done | cbn in Hl; lia]).
  cbn [pp_expect]. rewrite Hr. destruct (Z.ltb_spec (Z.of_nat (pp_nread pp1)) 0); [lia |].
  destruct (Z.eqb_spec (Z.of_nat (pp_nread pp1)) 0); [lia |].
  rewrite !strnstr_content, Herr by done. destruct (strstr (content pp1) expect) as [q |]; [done |].
  destruct (Nat.ltb_spec (pp_size pp1) (pp_nread pp1)); [lia |].
  destruct (Nat.eqb_spec (pp_nread pp1) (pp_size pp1)); [by destruct Hfull |]. done.
Qed.

(** The text is there: it is found at its first place. *)
Lemma first_place c rest pre expect post n :
  c +:+ rest = pre +:+ expect +:+ post -> strstr (pre +:+ expect) expect = Some (String.length pre) ->
  strstr c expect = Some n ->
  n = String.length pre /\ exists post1, c = pre +:+ expect +:+ post1 /\ post = post1 +:+ rest.
Proof.
  intros E Hf Hc. pose proof (strstr_Some _ _ _ Hc) as (x & y & -> & Hx).
  apply (strstr_app _ rest) in Hc. apply (strstr_app _ post) in Hf.
  rewrite E, <- app_str_assoc, Hf in Hc. injection Hc as <-. split; [done |].
  rewrite !app_str_assoc in E. apply app_str_inj_len in E as [-> E]; [| done].
  apply app_str_inj_l in E. exists y. by rewrite E.
Qed.

(** A silence changes nothing. *)
Lemma pp_read_timeout pp l :
  pp_in pp = PollTimeout :: l -> exists l', (l' = l \/ l' = PollTimeout :: l) /\ pp_read pp = (Z.of_nat (pp_nread pp), pp <| pp_in := l' |>) /\
    (l' = l \/ (pp_size pp <= pp_nread pp)%nat).
Proof.
  intros H. unfold pp_read. rewrite H. destruct (Nat.ltb_spec 0 (pp_size pp - pp_nread pp)).
  - exists l. auto.
  - exists (PollTimeout :: l). split; [by right |]. split; [| right; lia]. rewrite <- H. by destruct pp.
Qed.

(** The whole text is in the buffer. *)
Lemma pp_expect_complete expect room pre o fuel pp pp1 post :
  pp_read pp = (Z.of_nat (pp_nread pp1), pp1) -> pp_wf pp1 -> content pp1 = pre +:+ expect +:+ post -> expect <> EmptyString ->
  strstr (pre +:+ expect) expect = Some (String.length pre) ->
  strstr (content pp1) "Error" = None -> room_fits room pre ->
  exists pp', pp_expect (S fuel) pp expect room o = Done (expect_rc room pre expect, expect_text room pre, pp') o /\
         pp_wf pp' /\ pp_in pp' = pp_in pp1 /\ content pp' = post.
Proof.
  intros Hr Hwf Hc Hne Hfst Herr Hfit.
  assert (Hs : strstr (content pp1) expect = Some (String.length pre)).
  { rewrite Hc, <- app_str_assoc. by apply strstr_app. }
  rewrite (pp_expect_round fuel pp pp1); [| done | done | | done | by rewrite Hs].
  - rewrite Hs. destruct (pp_found_content pp1 expect room pre post o Hwf Hc Hfit) as (pp' & E & Hwf' & Hc' & Hin' & _).
    by exists pp'.
  - rewrite Hc. intros H. apply app_str_eq_nil in H as [_ H]. apply app_str_eq_nil in H as [H _]. done.
Qed.

Lemma no_Error_prefix c rest : strstr (c +:+ rest) "Error" = None -> strstr c "Error" = None.
Proof. intros H. destruct (strstr c "Error") as [n |] eqn:En; [| done]. apply (strstr_app _ rest) in En. congruence. Qed.

Lemma length_0_str (s : string) : String.length s = O -> s = EmptyString.
Proof. by destruct s. Qed.

(** The pieces arrive one by one until the text is complete. *)
Lemma pp_expect_pieces expect room pre o : forall l fuel pp post,
  pp_wf pp -> pp_in pp = l -> Forall piece l -> (content pp = EmptyString -> head l <> Some PollTimeout) ->
  content pp +:+ text_of l = pre +:+ expect +:+ post ->
  (String.length (pre +:+ expect +:+ post) <= pp_size pp)%nat ->
  expect <> EmptyString -> strstr (pre +:+ expect) expect = Some (String.length pre) ->
  strstr (pre +:+ expect +:+ post) "Error" = None -> room_fits room pre -> (length l < fuel)%nat ->
  exists pp', pp_expect fuel pp expect room o = Done (expect_rc room pre expect, expect_text room pre, pp') o /\
         pp_wf pp' /\ Forall piece (pp_in pp') /\ content pp' +:+ text_of (pp_in pp') = post.
Proof.
  induction l as [| a l IH]; intros [| fuel] pp post Hwf Hin Hch Hsil Htot Hsz Hne Hfst Herr Hfit Hfuel;
    try (cbn in Hfuel; lia).
  - (* everything has arrived *)
    cbn [text_of] in Htot. rewrite app_str_nil_r in Htot.
    destruct (pp_expect_complete expect room pre o fuel pp pp post) as (pp' & E & Hwf' & Hin' & Hc'); try done;
      [by apply pp_read_eof | by rewrite Htot |].
    exists pp'. rewrite Hin', Hin, Hc'. split; [exact E | split; [done | split; [done | apply app_str_nil_r]]].
  - pose proof Hch as [Ha Hch']%Forall_cons. pose proof (f_equal String.length Htot) as HL.
    rewrite !length_app_str, length_content in HL by done. rewrite !length_app_str in Hsz.
    destruct a as [| | | c]; try done.
    + (* silence *)
      cbn [text_of] in Htot, HL. assert (Hnn : content pp <> EmptyString) by (intros E; by apply (Hsil E)).
      destruct (pp_read_timeout pp l Hin) as (l' & Hl' & Hr & Hcase).
      set (pp1 := pp <| pp_in := l' |>) in *. assert (Hwf1 : pp_wf pp1) by (by destruct Hwf).
      change (content pp) with (content pp1) in *. change (pp_nread pp) with (pp_nread pp1) in *.
      assert (Hp1 : Forall piece l') by (by destruct Hl' as [-> | ->]).
      assert (Ht1 : text_of l' = text_of l) by (by destruct Hl' as [-> | ->]).
      pose proof (no_Error_prefix (content pp1) (text_of l)) as Herr1. rewrite Htot in Herr1. specialize (Herr1 Herr).
      destruct (strstr (content pp1) expect) as [n |] eqn:En.
      * destruct (first_place _ _ _ _ _ _ Htot Hfst En) as (-> & post1 & Hc1' & ->).
        destruct (pp_expect_complete expect room pre o fuel pp pp1 post1) as (pp' & E & Hwf' & Hin' & Hc'); try done.
        exists pp'. rewrite Hin', Hc'. change (pp_in pp1) with l'. rewrite Ht1. done.
      * rewrite (pp_expect_round fuel pp pp1), En; try done.
        { destruct Hcase as [-> | Hfull].
          - apply (IH fuel pp1 post); auto; [ rewrite !length_app_str; exact Hsz | cbn in Hfuel; lia].
          - exfalso. change (pp_size pp) with (pp_size pp1) in *.
            assert (E : text_of l = EmptyString) by (apply length_0_str; lia).
            rewrite E, app_str_nil_r in Htot. rewrite Htot, <- app_str_assoc in En.
            by rewrite (strstr_app _ post _ _ Hfst) in En. }
        intros _ Heq. change (pp_size pp) with (pp_size pp1) in *.
        assert (E : text_of l = EmptyString) by (apply length_0_str; lia).
        rewrite E, app_str_nil_r in Htot. rewrite Htot, <- app_str_assoc in En.
        by rewrite (strstr_app _ post _ _ Hfst) in En.
    + (* one more piece *)
      destruct Ha as [Hc Hpc]. cbn [text_of] in Htot, HL. rewrite length_app_str in HL.
      destruct (pp_read_arrives pp c _ Hwf Hin Hc Hpc) as (pp1 & Hr & Hwf1 & Hc1 & Hin1 & Hs1 & _); [lia |].
      rewrite <- app_str_assoc, <- Hc1 in Htot.
      pose proof (no_Error_prefix (content pp1) (text_of l)) as Herr1. rewrite Htot in Herr1. specialize (Herr1 Herr).
      assert (Hnn : content pp1 <> EmptyString) by (rewrite Hc1; intros H; by apply app_str_eq_nil in H as [_ H]).
      destruct (strstr (content pp1) expect) as [n |] eqn:En.
      * destruct (first_place _ _ _ _ _ _ Htot Hfst En) as (-> & post1 & Hc1' & ->).
        destruct (pp_expect_complete expect room pre o fuel pp pp1 post1) as (pp' & E & Hwf' & Hin' & Hc'); try done.
        exists pp'. rewrite Hin', Hin1, Hc'. done.
      * rewrite (pp_expect_round fuel pp pp1), En; try done.
        { apply (IH fuel pp1 post); auto; [ rewrite Hs1, !length_app_str; exact Hsz | cbn in Hfuel; lia]. }
        intros _ Heq. pose proof (f_equal String.length Htot) as HL1.
        rewrite !length_app_str, length_content in HL1 by done.
        assert (E : text_of l = EmptyString) by (apply length_0_str; lia).
        rewrite E, app_str_nil_r in Htot. rewrite Htot, <- app_str_assoc in En.
        by rewrite (strstr_app _ post _ _ Hfst) in En.
Qed.

(** [C23] However grub's output is cut into pieces, [pp_expect] finds the text it
    waits for at its first place and the caller's buffer gets exactly what
    stands in front of it, without the line ends; what stands behind it, read or
    not, is kept for the next call.  The conditions: the output has neither control sequences
    nor the word "Error", and all of it fits into the buffer of the pipe, and what stands in front fits into the caller's
    buffer; no call fails; and grub is not silent for a second while nothing is in the buffer
    (then [pp_expect] gives up with 0, [silent_grub_reads_uninitialised]; later silences, between the pieces, change
    nothing).  The [memcpy] of the code, whose two ranges may overlap, is taken to copy as [memmove]. *)
Theorem pp_expect_refines expect room pre post pp fuel o :
  pp_wf pp -> Forall piece (pp_in pp) -> (content pp = EmptyString -> head (pp_in pp) <> Some PollTimeout) ->
  content pp +:+ text_of (pp_in pp) = pre +:+ expect +:+ post ->
  (String.length (pre +:+ expect +:+ post) <= pp_size pp)%nat ->
  expect <> EmptyString -> strstr (pre +:+ expect) expect = Some (String.length pre) ->
  strstr (pre +:+ expect +:+ post) "Error" = None -> room_fits room pre -> (length (pp_in pp) < fuel)%nat ->
  exists pp', pp_expect fuel pp expect room o = Done (expect_rc room pre expect, expect_text room pre, pp') o /\
         pp_wf pp' /\ Forall piece (pp_in pp') /\ content pp' +:+ text_of (pp_in pp') = post.
Proof. intros. by eapply pp_expect_pieces. Qed.

(** A pipe with nothing read yet. *)
Definition pipe_of (size : nat) (l : list pp_answer) : proc_pipe :=
  {| pp_pid := 7; pp_vm_name := Some "ins-vm"; pp_mapfile := None; pp_fd := 5; pp_buf := zeros size;
     pp_nread := 0; pp_in := l; pp_wok := []; pp_out := [] |}.

Lemma pp_expect_refines_witness :
  exists pp',
    pp_expect 5 (pipe_of 32 [Arrives "(hd0) (h"; PollTimeout; Arrives "d1)gru"; Arrives "b> ls"]) PROMPT (Some 20%nat) []
    = Done (11, Some "(hd0) (hd1)", pp') [] /\
    pp_wf pp' /\ Forall piece (pp_in pp') /\ content pp' +:+ text_of (pp_in pp') = "ls".
Proof.
  refine (pp_expect_refines PROMPT (Some 20%nat) "(hd0) (hd1)" "ls"
            (pipe_of 32 [Arrives "(hd0) (h"; PollTimeout; Arrives "d1)gru"; Arrives "b> ls"]) 5 []
            _ _ _ eq_refl _ _ eq_refl eq_refl _ _); try (cbn; lia); try done.
  - split; [cbn; lia | done].
  - repeat constructor; done.
  - apply leb_complete. reflexivity.
Defined.

(** ** When grub is gone or silent *)

(** The loop of [pp_expect] does not end once the other side has closed
    the pipe while bytes without the awaited text are in the buffer: [read]
    gives 0 each time and the number of bytes, which is not 0, is returned.  No
    number of rounds is enough, so the daemon hangs. *)
Theorem pp_expect_hangs_at_eof pp expect room :
  pp_wf pp -> pp_in pp = [] -> (0 < pp_nread pp < pp_size pp)%nat ->
  strstr (content pp) "Error" = None -> strstr (content pp) expect = None ->
  forall fuel o, pp_expect fuel pp expect room o = Crash OutOfFuel.
Proof.
  intros Hwf Hin Hn Herr Hex fuel o. induction fuel as [| fuel IH]; [done |].
  rewrite (pp_expect_round fuel pp pp); [by rewrite Hex | by apply pp_read_eof | done | | done | lia].
  intros E. pose proof (length_content pp Hwf) as H. rewrite E in H. cbn in H. lia.
Qed.

(** The process dies after it has written half a line. *)
Definition dying_pipe : proc_pipe := (pp_read (pipe_of 16 [Arrives "gru"])).2.

Lemma pp_expect_hangs_at_eof_witness :
  content dying_pipe = "gru" /\
  forall fuel o, pp_expect fuel dying_pipe PROMPT None o = Crash OutOfFuel.
Proof.
  split; [reflexivity |].
  apply pp_expect_hangs_at_eof; try done; [split |]; [by apply leb_complete | done |].
  split; by apply leb_complete.
Defined.

(** An answer that ends with the awaited text leaves the pipe empty. *)
Lemma pp_expect_answer pp expect pre l fuel o :
  pp_wf pp -> pp_nread pp = O -> pp_in pp = Arrives (pre +:+ expect) :: l -> expect <> EmptyString ->
  plain_text (pre +:+ expect) = true -> (String.length (pre +:+ expect) <= pp_size pp)%nat ->
  strstr (pre +:+ expect) expect = Some (String.length pre) -> strstr (pre +:+ expect) "Error" = None ->
  exists pp', pp_expect (S fuel) pp expect None o = Done (expect_rc None pre expect, None, pp') o /\
    pp_wf pp' /\ pp_nread pp' = O /\ pp_in pp' = l /\ pp_size pp' = pp_size pp /\ pp_wok pp' = pp_wok pp.
Proof.
  intros Hwf Hn Hin He Hp Hl Hs Herr.
  assert (Hne : pre +:+ expect <> EmptyString) by (intros E; by apply app_str_eq_nil in E as [_ E]).
  destruct (pp_read_arrives pp _ l Hwf Hin Hne Hp) as (pp1 & Hr & Hwf1 & Hc1 & Hin1 & Hs1 & Hw1); [by rewrite Hn |].
  pose proof (length_content pp Hwf) as Hc0. rewrite Hn in Hc0.
  destruct (content pp) as [|] in Hc0, Hc1; [| done]. change (content pp1 = pre +:+ expect) in Hc1.
  rewrite (pp_expect_round fuel pp pp1); rewrite ?Hc1; try done; [| by rewrite Hs]. rewrite Hs.
  destruct (pp_found_content pp1 expect None pre EmptyString o Hwf1) as (pp2 & E & Hwf2 & Hc2 & Hin2 & Hs2 & Hw2);
    [by rewrite Hc1, app_str_nil_r | done |].
  exists pp2. split; [exact E |]. split; [done |]. rewrite <- (length_content pp2), Hc2, Hin2, Hs2, Hw2 by done.
  done.
Qed.

Lemma pp_printf_ok pp s :
  pp_wok pp = [] ->
  pp_printf pp s = (Z.of_nat (String.length s), pp <| pp_out := pp_out pp ++ [s] |>).
Proof. intros H. unfold pp_printf. rewrite H. destruct pp; cbn in *. by subst. Qed.

(** A second of silence from grub, at the moment the answer to "ls" is
    awaited, makes [inspect_with_grub] parse its uninitialised buffer:
    [pp_expect] returns 0 without writing, and only a negative answer is an
    error. *)
Theorem silent_grub_reads_uninitialised pp ins rest fuel o :
  pp_wf pp -> pp_nread pp = O -> (6 <= pp_size pp)%nat -> pp_wok pp = [] ->
  pp_in pp = Arrives PROMPT :: Arrives ("ls" +:+ NEWLINE) :: PollTimeout :: rest ->
  grub_dialogue (S fuel) pp ins o = Crash Uninitialised.
Proof.
  intros Hwf Hn Hsz Hok Hin. unfold grub_dialogue, ask.
  destruct (pp_expect_answer pp PROMPT "" _ fuel o Hwf Hn Hin) as (pp1 & E1 & Hwf1 & Hn1 & Hin1 & Hs1 & Hw1);
    try done.
  unfold mbind, C_bind at 1. rewrite E1. change (expect_rc None "" PROMPT <? 0) with false.
  cbn iota zeta beta. rewrite pp_printf_ok by congruence.
  set (pp1' := pp1 <| pp_out := _ |>).
  destruct (pp_expect_answer pp1' NEWLINE "ls" (PollTimeout :: rest) fuel o) as (pp2 & E2 & Hwf2 & Hn2 & Hin2 & Hs2 & Hw2);
    try done; [by destruct Hwf1; split | change (3 <= pp_size pp1)%nat; lia |].
  unfold mbind, C_bind. change (Z.of_nat (String.length ("ls" +:+ nl)) <? 0) with false. cbv beta iota. rewrite E2.
  change (expect_rc None "ls" NEWLINE <? 0) with false. cbv beta iota.
  assert (E3 : pp_expect (S fuel) pp2 PROMPT (Some 1023%nat) o = Done (0, None, pp2 <| pp_in := rest |>) o).
  { cbn [pp_expect]. unfold pp_read. change (pp_size pp1') with (pp_size pp1) in Hs2.
    destruct (Nat.ltb_spec 0 (pp_size pp2 - pp_nread pp2)); [| lia]. by rewrite Hin2, Hn2. }
  by rewrite E3.
Qed.

(** ** The list of disks *)

(** The names grub prints: a disk, a partition, a partition in a slice. *)
Inductive grub_disk :=
  | GDisk (d : string)
  | GPart (d p : string) (i : Z)
  | GSlice (d p : string) (i : Z) (s : string) (j : Z).

Definition show_disk (g : grub_disk) : string :=
  match g with
  | GDisk d => d
  | GPart d p i => d +:+ "," +:+ p +:+ print_dec i
  | GSlice d p i s j => d +:+ "," +:+ p +:+ print_dec i +:+ "," +:+ s +:+ print_dec j
  end.

Definition info_of (g : grub_disk) : disk_info :=
  let info d p s i j := {| orig_name := Some (show_disk g); disk_name := Some d; part_name := p;
                           slice_name := s; part_index := i; slice_index := j |} in
  match g with
  | GDisk d => info d None None 0 0
  | GPart d p i => info d (Some p) None i 0
  | GSlice d p i s j => info d (Some p) (Some s) i j
  end.

(** The line grub prints for "ls". *)
Definition listing (gs : list grub_disk) : string :=
  foldr (fun g s => "(" +:+ show_disk g +:+ ") " +:+ s) EmptyString gs.

Definition disk_ok (d : string) : Prop := lacks "," d = true /\ lacks ")" d = true.

Definition index_ok (i : Z) : Prop := 0 <= i <= INT_MAX.

Definition name_ok (p : string) : Prop := disk_ok p /\ no_digits p = true.

Definition grub_disk_ok (g : grub_disk) : Prop :=
  match g with
  | GDisk d => disk_ok d
  | GPart d p i => disk_ok d /\ name_ok p /\ index_ok i
  | GSlice d p i s j => disk_ok d /\ (name_ok p /\ index_ok i) /\ (name_ok s /\ index_ok j)
  end.

Lemma split_index_print p i : no_digits p = true -> 0 <= i -> split_index (p +:+ print_dec i) = (p, print_dec i).
Proof.
  intros Hp Hi. destruct (print_dec_cons i Hi) as (c & s & E & Hc). rewrite E. clear E.
  induction p as [| d p IH]; [rewrite app_str_nil_l; cbn [split_index]; by rewrite Hc |].
  unfold no_digits in Hp. cbn [str_all] in Hp. apply andb_true_iff in Hp as [Hd Hp]. apply negb_true_iff in Hd.
  rewrite app_str_cons. cbn [split_index]. by rewrite Hd, IH.
Qed.

Lemma index_num_print i : index_ok i -> index_num (print_dec i) = i.
Proof.
  intros [H1 H2]. unfold index_num. rewrite strtol_print_dec by (auto; unfold LONG_MIN, LONG_MAX, INT_MAX in *; lia).
  apply to_int_id. split; [unfold INT_MIN; cbn; lia | done].
Qed.

Lemma part_lacks p i c :
  lacks c p = true -> 0 <= i -> is_digit c = false -> lacks c (p +:+ print_dec i) = true.
Proof.
  intros Hp Hi Hc. unfold lacks at 1. rewrite str_all_app. apply andb_true_iff.
  split; [exact Hp | by apply print_dec_lacks].
Qed.

Lemma parse_disk_info_show g :
  grub_disk_ok g -> runs (parse_disk_info (show_disk g)) (Some (info_of g)).
Proof.
  unfold runs, parse_disk_info. cbn -[strsep show_disk].
  destruct g as [d | d p i | d p i s j]; cbn [grub_disk_ok show_disk info_of].
  - intros [Hd _]. by rewrite (strsep_last d).
  - intros ([Hd _] & [[Hp _] Hpd] & Hi). change ("," +:+ p +:+ print_dec i) with (String "," (p +:+ print_dec i)).
    rewrite (strsep_app d) by done. cbn -[strsep]. rewrite strsep_last by (apply part_lacks; by destruct Hi).
    rewrite split_index_print by (done || by destruct Hi). by rewrite index_num_print.
  - intros ([Hd _] & [[[Hp _] Hpd] Hi] & [[[Hs _] Hsd] Hj]).
    change ("," +:+ p +:+ print_dec i +:+ "," +:+ s +:+ print_dec j)
      with (String "," (p +:+ print_dec i +:+ String "," (s +:+ print_dec j))).
    rewrite (strsep_app d) by done. cbn -[strsep]. rewrite <- (app_str_assoc p).
    rewrite strsep_app by (apply part_lacks; by destruct Hi).
    rewrite split_index_print by (done || by destruct Hi). rewrite index_num_print by done. cbn -[strsep].
    rewrite strsep_last by (apply part_lacks; by destruct Hj).
    rewrite split_index_print by (done || by destruct Hj). by rewrite index_num_print.
Qed.

Lemma show_disk_lacks g : grub_disk_ok g -> lacks ")" (show_disk g) = true.
Proof.
  destruct g as [d | d p i | d p i s j]; cbn [grub_disk_ok show_disk]; unfold lacks; rewrite ?str_all_app.
  - by intros [_ H].
  - intros ([_ Hd] & [[_ Hp] _] & [Hi _]). rewrite !andb_true_iff. by repeat split; try apply print_dec_lacks.
  - intros ([_ Hd] & [[[_ Hp] _] [Hi _]] & [[[_ Hs] _] [Hj _]]).
    rewrite !andb_true_iff. by repeat split; try apply print_dec_lacks.
Qed.

Lemma parse_disks_loop_listing gs : forall fuel pre l,
  Forall grub_disk_ok gs -> lacks "(" pre = true -> (length gs < fuel)%nat ->
  runs (parse_disks_loop fuel (pre +:+ listing gs) l) (0, rev (info_of <$> gs) ++ l).
Proof.
  induction gs as [| g gs IH]; intros [| fuel] pre l Hok Hpre Hf; try (cbn in Hf; lia).
  - cbn [listing foldr]. rewrite app_str_nil_r. unfold runs. cbn [parse_disks_loop].
    by rewrite strchr_lacks.
  - apply Forall_cons in Hok as [Hg Hok]. cbn [listing foldr]. fold (listing gs).
    change ("(" +:+ show_disk g +:+ ") " +:+ listing gs)
      with (String "(" (show_disk g +:+ String ")" (" " +:+ listing gs))).
    unfold runs. cbn [parse_disks_loop]. rewrite strchr_app by done.
    set (x := show_disk g +:+ String ")" (" " +:+ listing gs)).
    assert (Hx : strchr x ")" = Some (") " +:+ listing gs)) by by apply strchr_app, show_disk_lacks.
    assert (Hb : before x ")" = show_disk g) by by apply before_app, show_disk_lacks.
    destruct x as [| c x]; [done |]. rewrite Hx, Hb.
    pose proof (parse_disk_info_show g Hg) as Hp. unfold runs in Hp. unfold mbind, C_bind. rewrite Hp.
    assert (IH' := IH fuel ") " (info_of g :: l) Hok eq_refl ltac:(cbn in Hf; lia)).
    cbn [fmap list_fmap rev]. rewrite <- app_assoc. exact IH'.
Qed.

(** Where no difference overflows the comparison is a total preorder. *)
Definition name_order (a b : option string) (k : Z) : Z :=
  match a, b with
  | None, None => 0
  | None, Some _ => 1
  | Some _, None => -1
  | Some a, Some b => if strcmp a b =? 0 then k else strcmp a b
  end.

Definition disk_order (a b : disk_info) : Z :=
  name_order (disk_name a) (disk_name b) (
  name_order (part_name a) (part_name b) (
  if part_index a - part_index b =? 0 then
    name_order (slice_name a) (slice_name b) (slice_index a - slice_index b)
  else part_index a - part_index b)).

Definition indices_ok (d : disk_info) : Prop := index_ok (part_index d) /\ index_ok (slice_index d).

Lemma compare_name_run a b (rest : C Z) k o :
  rest o = Done k o -> compare_name a b rest o = Done (name_order a b k) o.
Proof. intros H. destruct a, b; cbn; try done. by destruct (_ =? 0). Qed.

Lemma CMP_NUM_run a b (rest : C Z) k o :
  index_ok a -> index_ok b -> rest o = Done k o -> CMP_NUM a b rest o = Done (if a - b =? 0 then k else a - b) o.
Proof.
  intros [H1 H2] [H3 H4] Hr. unfold CMP_NUM. rewrite bool_decide_true by (unfold is_int, INT_MIN, INT_MAX in *; lia).
  by destruct (a - b =? 0).
Qed.

Lemma compare_disk_info_run a b o :
  indices_ok a -> indices_ok b -> compare_disk_info a b o = Done (disk_order a b) o.
Proof.
  intros [] []. unfold compare_disk_info, disk_order. do 2 apply compare_name_run. apply CMP_NUM_run; [done .. |].
  apply compare_name_run. rewrite (CMP_NUM_run _ _ _ 0) by done. by destruct (Z.eqb_spec (slice_index a - slice_index b) 0) as [-> |].
Qed.

Lemma name_order_trans a b c k1 k2 k3 :
  (k1 <= 0 -> k2 <= 0 -> k3 <= 0) ->
  name_order a b k1 <= 0 -> name_order b c k2 <= 0 -> name_order a c k3 <= 0.
Proof.
  intros Hk. destruct a as [a |], b as [b |], c as [c |]; cbn; try lia.
  destruct (Z.eqb_spec (strcmp a b) 0) as [E1 | N1], (Z.eqb_spec (strcmp b c) 0) as [E2 | N2]; intros H1 H2.
  - apply strcmp_eq0 in E1 as ->. apply strcmp_eq0 in E2 as ->. rewrite strcmp_refl. auto.
  - apply strcmp_eq0 in E1 as ->. apply Z.eqb_neq in N2. by rewrite N2.
  - apply strcmp_eq0 in E2 as ->. apply Z.eqb_neq in N1. by rewrite N1.
  - pose proof (strcmp_trans a b c ltac:(lia) ltac:(lia)). destruct (Z.eqb_spec (strcmp a c) 0); lia.
Qed.

Lemma name_order_total a b k1 k2 :
  k1 <= 0 \/ k2 <= 0 -> name_order a b k1 <= 0 \/ name_order b a k2 <= 0.
Proof.
  intros Hk. destruct a as [a |], b as [b |]; cbn; try lia.
  rewrite (strcmp_antisym a b). destruct (Z.eqb_spec (strcmp a b) 0) as [-> | N]; [by cbn |].
  destruct (Z.eqb_spec (- strcmp a b) 0); lia.
Qed.

Lemma disk_order_trans a b c : disk_order a b <= 0 -> disk_order b c <= 0 -> disk_order a c <= 0.
Proof.
  apply name_order_trans, name_order_trans.
  destruct (Z.eqb_spec (part_index a - part_index b) 0), (Z.eqb_spec (part_index b - part_index c) 0),
    (Z.eqb_spec (part_index a - part_index c) 0); try lia.
  apply name_order_trans. lia.
Qed.

Lemma disk_order_total a b : disk_order a b <= 0 \/ disk_order b a <= 0.
Proof.
  apply name_order_total, name_order_total.
  destruct (Z.eqb_spec (part_index a - part_index b) 0), (Z.eqb_spec (part_index b - part_index a) 0); try lia.
  apply name_order_total. lia.
Qed.

(** In the order of the comparison. *)
Definition disks_sorted (l : list disk_info) : Prop :=
  StronglySorted (fun a b => exists c, runs (compare_disk_info a b) c /\ c <= 0) l.

Lemma insert_disk_run x l o :
  indices_ok x -> Forall indices_ok l -> StronglySorted (fun a b => disk_order a b <= 0) l ->
  exists l', insert_disk x l o = Done l' o /\ l' ≡ₚ x :: l /\ StronglySorted (fun a b => disk_order a b <= 0) l'.
Proof.
  intros Hx Hl. induction 1 as [| y l Hl' IH Hy]; cbn [insert_disk]; [exists [x]; by repeat constructor |].
  apply Forall_cons in Hl as [Hiy Hl]. unfold mbind, C_bind. rewrite compare_disk_info_run by done.
  destruct (Z.leb_spec (disk_order x y) 0) as [H | H].
  - exists (x :: y :: l). split; [done | split; [done |]]. constructor; [by constructor |]. constructor; [done |].
    eapply Forall_impl; [exact Hy |]. intros z Hz. by eapply disk_order_trans.
  - destruct (IH Hl) as (l' & E & Hp & Hs). rewrite E. exists (y :: l'). split; [done | split; [rewrite Hp; apply perm_swap |]].
    constructor; [done |]. rewrite Hp. constructor; [| done]. destruct (disk_order_total x y); lia.
Qed.

Lemma sort_disk_info_list_run l o :
  Forall indices_ok l ->
  exists l', sort_disk_info_list l o = Done l' o /\ l' ≡ₚ l /\ StronglySorted (fun a b => disk_order a b <= 0) l'.
Proof.
  induction 1 as [| x l Hx Hl IH]; cbn [sort_disk_info_list]; [exists []; by repeat constructor |].
  destruct IH as (l1 & E1 & Hp1 & Hs1). unfold mbind, C_bind. rewrite E1.
  destruct (insert_disk_run x l1 o) as (l2 & E2 & Hp2 & Hs2); [done | by rewrite Hp1 | done |].
  exists l2. split; [done | split; [by rewrite Hp2, Hp1 | done]].
Qed.

Lemma order_sorted l : Forall indices_ok l -> StronglySorted (fun a b => disk_order a b <= 0) l -> disks_sorted l.
Proof.
  intros Hl. induction 1 as [| x l _ IH Hx]; [constructor |]. apply Forall_cons in Hl as [Hix Hl].
  constructor; [by apply IH |]. rewrite Forall_forall in Hx, Hl |- *. intros y Hy. exists (disk_order x y).
  split; [by apply compare_disk_info_run; auto | auto].
Qed.

Lemma insert_disk_any P `{!OracleClosed P} (F : fault -> Prop) x l :
  F SignedOverflow -> wpo P (insert_disk x l) (fun r => r ≡ₚ x :: l) F.
Proof.
  intros HF. induction l as [| y l IH]; cbn [insert_disk]; [by apply wpo_ret |].
  apply wpo_bind. eapply (wpo_mono _ _ (fun _ => True) _ F); [| intros c _ | done].
  - unfold compare_disk_info, compare_name, CMP_NUM. by steps_wpo.
  - destruct (c <=? 0); [by apply wpo_ret |]. apply wpo_bind. eapply wpo_mono; [exact IH | intros l' Hl'; apply wpo_ret | done].
    rewrite Hl'. apply perm_swap.
Qed.

Lemma sort_disk_info_list_any P `{!OracleClosed P} (F : fault -> Prop) l :
  F SignedOverflow -> wpo P (sort_disk_info_list l) (fun r => r ≡ₚ l) F.
Proof.
  intros HF. induction l as [| x l IH]; cbn [sort_disk_info_list]; [by apply wpo_ret |].
  apply wpo_bind. eapply wpo_mono; [exact IH | intros l1 H1 | done].
  eapply wpo_mono; [by apply insert_disk_any | intros l2 H2 | done]. by rewrite H2, H1.
Qed.

Lemma info_of_indices g : grub_disk_ok g -> indices_ok (info_of g).
Proof.
  assert (H0 : index_ok 0) by (split; unfold INT_MAX; lia).
  destruct g as [d | d p i | d p i s j]; cbn.
  - intros _. by split.
  - by intros (_ & _ & H).
  - by intros (_ & [_ H1] & [_ H2]).
Qed.

(** [C35] What grub prints for "ls" is read back: for every list of disks,
    partitions and slices whose names have no comma, parenthesis or (for
    partitions) digit and whose numbers fit into an [int], [parse_disks] builds exactly
    their descriptions, in the order of [compare_disk_info].  Memory is available. *)
Theorem parse_disks_listing gs :
  Forall grub_disk_ok gs ->
  exists l, runs (parse_disks (listing gs) []) (0, l) /\ disks_sorted l /\ l ≡ₚ (info_of <$> gs).
Proof.
  intros Hok. set (l0 := rev (info_of <$> gs)).
  assert (Hl0 : Forall indices_ok l0).
  { unfold l0. rewrite <- (Permutation_rev (info_of <$> gs)). apply Forall_fmap. eapply Forall_impl; [exact Hok | apply info_of_indices]. }
  destruct (sort_disk_info_list_run l0 [] Hl0) as (l & E & Hp & Hs). exists l.
  split; [| split; [apply order_sorted; [by rewrite Hp | done] | rewrite Hp; symmetry; apply Permutation_rev]].
  eapply runs_bind; [apply (parse_disks_loop_listing gs _ EmptyString []); [done | done |] |].
  - clear. induction gs as [| g gs IH]; [cbn; lia |]. cbn [listing foldr length]. fold (listing gs).
    rewrite !length_app_str. cbn [String.length]. lia.
  - rewrite app_nil_r. fold l0. eapply runs_bind; [exact E | done].
Qed.

Definition some_disks : list grub_disk :=
  [GDisk "hd0"; GSlice "hd0" "gpt" 2 "bsd" 1; GPart "hd0" "openbsd" 12; GPart "hd0" "gpt" 1].

Lemma parse_disks_listing_witness :
  exists l, runs (parse_disks "(hd0) (hd0,gpt2,bsd1) (hd0,openbsd12) (hd0,gpt1) " []) (0, l) /\
       disks_sorted l /\ l ≡ₚ (info_of <$> some_disks).
Proof.
  apply (parse_disks_listing some_disks).
  repeat constructor; done.
Defined.

(** ** Looking for a file name *)

Definition is_sep (c : ascii) : bool :=
  Ascii.eqb c NUL || Ascii.eqb c " " || Ascii.eqb c CR || Ascii.eqb c LF.

(** What stands behind the first part of a text. *)
Lemma char_at_app a s : char_at (a +:+ s) (String.length a) = char_at s 0.
Proof. induction a as [| c a IH]; [done |]. rewrite app_str_cons. exact IH. Qed.

Lemma look_for_filename_first pre name post :
  strstr (pre +:+ name) name = Some (String.length pre) ->
  look_for_filename (pre +:+ name +:+ post) name
  = (Nat.eqb (String.length pre) 0 || Ascii.eqb (char_at (pre +:+ name +:+ post) (String.length pre - 1)) " ")
    && is_sep (char_at post 0).
Proof.
  intros H. unfold look_for_filename. apply (strstr_app _ post) in H. rewrite app_str_assoc in H. rewrite H.
  rewrite <- length_app_str, <- (app_str_assoc pre), char_at_app. done.
Qed.

(** Only the first place where the name occurs is looked at: a directory
    that lists a longer name with the same beginning first (bsd.rd or
    bsd.booted before bsd) seems not to have the kernel, although it is there as
    a word of its own. *)
Theorem look_for_filename_misses pre name c ext post :
  strstr (pre +:+ name) name = Some (String.length pre) -> is_sep c = false ->
  look_for_filename (pre +:+ name +:+ String c (ext +:+ " " +:+ name +:+ " " +:+ post)) name = false.
Proof.
  intros H Hc. rewrite look_for_filename_first by done.
  change (char_at (String c (ext +:+ " " +:+ name +:+ " " +:+ post)) 0) with c. rewrite Hc. apply andb_false_r.
Qed.

Lemma look_for_filename_misses_witness :
  look_for_filename "etc/ bsd.rd bsd usr/" OPENBSD_KERNEL = false /\
  look_for_filename "etc/ bsd bsd.rd usr/" OPENBSD_KERNEL = true.
Proof. split; [exact (look_for_filename_misses "etc/ " "bsd" "." "rd" "usr/" eq_refl eq_refl) | done]. Defined.

(** ** The dialogue as a whole *)

Lemma length_strip_csi s : (String.length (strip_csi s) <= String.length s)%nat.
Proof.
  unfold strip_csi. generalize (String.length s) at 1. intros fuel. revert s.
  induction fuel as [| fuel IH]; intros [| c s]; cbn [strip_csi_loop]; try apply Nat.le_0_l.
  pose proof (IH s) as Hs. destruct s as [| d s]; [exact (le_n_S _ _ Hs) |].
  destruct (Ascii.eqb c ESC && Ascii.eqb d "["); [| exact (le_n_S _ _ Hs)].
  pose proof (length_skip_params s) as Hl. destruct (skip_params s) as [| x rest]; [apply Nat.le_0_l |].
  destruct (is_final x); [| exact (le_n_S _ _ Hs)]. pose proof (IH rest). cbn in *. lia.
Qed.

Lemma length_before s c : (String.length (before s c) <= String.length s)%nat.
Proof. induction s as [| d s IH]; [done |]. cbn. destruct (Ascii.eqb d c); cbn; lia. Qed.

(** The buffer is as long as it was, and at most [n] bytes are in it or will still come. *)
Definition fits (n : nat) (pp : proc_pipe) : Prop :=
  (pp_nread pp <= pp_size pp)%nat /\ (pp_nread pp + String.length (text_of (pp_in pp)) <= n)%nat.

Lemma fits_in n pp l : fits n pp -> (String.length (text_of l) <= String.length (text_of (pp_in pp)))%nat -> fits n (pp <| pp_in := l |>).
Proof. intros [H1 H2] H. split; [exact H1 | cbn; lia]. Qed.

Lemma pp_read_fits n pp : fits n pp -> fits n (pp_read pp).2.
Proof.
  intros Hp. pose proof Hp as [H1 H2]. unfold pp_read. destruct (Nat.ltb_spec 0 (pp_size pp - pp_nread pp)) as [Hr |]; [| done].
  set (room := (pp_size pp - pp_nread pp)%nat) in *.
  destruct (pp_in pp) as [| [| | | s] l] eqn:E; try done; try (by apply fits_in; rewrite ?E).
  assert (Hs : String.length (text_of (match drop_str room s with EmptyString => l | rest => Arrives rest :: l end)) =
               (String.length s - room + String.length (text_of l))%nat).
  { rewrite <- (length_drop_str room). destruct (drop_str room s) eqn:Ed; [done |]. cbn [text_of]. by rewrite length_app_str. }
  set (l' := match drop_str room s with EmptyString => l | rest => Arrives rest :: l end) in *.
  cbn [text_of] in H2. rewrite length_app_str in H2.
  pose proof (length_take_str room s) as Ht. destruct (take_str room s) as [| x y] eqn:Et.
  - apply fits_in; [done |]. rewrite E. cbn [text_of]. rewrite length_app_str. lia.
  - cbn [snd]. set (got := String x y) in *. set (m := (pp_nread pp + String.length got)%nat).
    assert (Hb : String.length (take_str (pp_nread pp) (pp_buf pp) +:+ got +:+ drop_str m (pp_buf pp)) = pp_size pp).
    { rewrite !length_app_str, length_take_str, length_drop_str. unfold pp_size in *. lia. }
    set (buf := take_str _ _ +:+ _) in *. unfold strip_buf. cbn [pp_buf].
    pose proof (length_strip_csi (take_str m buf)) as Hc. rewrite length_take_str, Hb in Hc.
    set (r := strip_csi _) in *. split.
    + unfold pp_size. cbn. rewrite length_app_str, length_drop_str. lia.
    + cbn. rewrite Hs. lia.
Qed.

Lemma pp_shift_fits n pp p m pp' o o' :
  fits n pp -> (m <= pp_nread pp)%nat -> pp_shift pp p m o = Done pp' o' -> fits n pp' /\ o' = o.
Proof.
  intros [H1 H2] Hm. unfold pp_shift. destruct (Nat.leb_spec (p + m) (pp_size pp)); [| done]. intros [= <- <-].
  split; [| done]. split; cbn; [| lia].
  unfold pp_size in *. cbn. rewrite length_app_str, length_take_str, !length_drop_str. lia.
Qed.

Section dialogue.
Context (P : oracle -> Prop) `{!OracleClosed P} (F : fault -> Prop) (HF : F OutOfFuel) (HU : F Uninitialised) (HO : F SignedOverflow)
        (n : nat) (HW : (1023 < n)%nat -> F WildAccess).

Definition has_disk (d : disk_info) : Prop := exists n, disk_name d = Some n.

Lemma wp_parse_disk_info s : wpo P (parse_disk_info s) (fun d => forall d', d = Some d' -> has_disk d') F.
Proof.
  unfold parse_disk_info, create_disk_info. steps_wpo; try done; intros d' [= <-]; eexists; reflexivity.
Qed.

Lemma wp_parse_disks_loop fuel : forall e l,
  Forall has_disk l -> wpo P (parse_disks_loop fuel e l) (fun r => Forall has_disk r.2) F.
Proof.
  induction fuel as [| fuel IH]; intros e l Hl; cbn [parse_disks_loop]; [by apply wpo_ret |].
  destruct (strchr e "(") as [[| c [| c' s]] |]; try by apply wpo_ret.
  destruct (strchr _ ")") as [e' |]; [| by apply wpo_ret].
  apply wpo_bind. eapply wpo_mono; [apply wp_parse_disk_info | | done].
  intros [di |] Hd; [| by apply wpo_ret]. apply IH. constructor; auto.
Qed.

Lemma wp_parse_disks line : wpo P (parse_disks line []) (fun r => Forall has_disk r.2) F.
Proof.
  apply wpo_bind. eapply wpo_mono; [by apply wp_parse_disks_loop | | done].
  intros [rc l] Hl. destruct (rc <? 0); [by apply wpo_ret |]. apply wpo_bind.
  eapply wpo_mono; [by apply sort_disk_info_list_any | | done]. intros l' Hl'. apply wpo_ret. cbn in *. by rewrite Hl'.
Qed.

Lemma wp_pp_shift pp p m Q :
  fits n pp -> (m <= pp_nread pp)%nat -> ((p + m <= pp_size pp)%nat \/ F WildAccess) -> (forall pp', fits n pp' -> Q pp') ->
  wpo P (pp_shift pp p m) Q F.
Proof.
  intros Hp Hm Hf H o Ho. destruct (pp_shift pp p m o) as [pp' o' | f] eqn:E.
  - destruct (pp_shift_fits _ _ _ _ _ _ _ Hp Hm E) as [H1 ->]. auto.
  - unfold pp_shift in E. destruct (Nat.leb_spec (p + m) (pp_size pp)); [done |]. injection E as <-. destruct Hf; [lia | done].
Qed.

(** The buffers of the callers. *)
Definition caller_room (room : option nat) : Prop := room = None \/ room = Some 1023%nat.

Lemma wp_pp_found pp expect room p :
  fits n pp -> caller_room room -> strnstr (pp_buf pp) expect (pp_nread pp) = Some p ->
  wpo P (pp_found pp expect room p) (fun r => fits n r.2) F.
Proof.
  intros Hp Hroom Hs. pose proof Hp as [H1 H2]. unfold strnstr in Hs. apply strstr_Some in Hs as (a & b & Hab & <-).
  pose proof (length_before (take_str (pp_nread pp) (pp_buf pp)) NUL) as Hl. fold (c_str (pp_nread pp) (pp_buf pp)) in Hl.
  rewrite Hab, !length_app_str, length_take_str in Hl. unfold pp_size in H1.
  assert (Hskip : forall Q : Z * option string * proc_pipe -> Prop, (forall r, fits n r.2 -> Q r) -> forall x y,
    wpo P (pp ← pp_shift pp (String.length a + String.length expect) (pp_nread pp - (String.length a + String.length expect));
           mret (x, y, pp)) Q F).
  { intros Q HQ x y. apply wpo_bind, wp_pp_shift; [done | lia | left; unfold pp_size; lia |]. intros pp' H'. by apply wpo_ret, HQ. }
  unfold pp_found. destruct Hroom as [-> | ->]; [by apply Hskip |].
  destruct (Nat.ltb_spec 1023 (String.length a)); [| by apply Hskip].
  apply wpo_bind, wp_pp_shift; [done | lia | right; apply HW; lia |]. intros pp' H'. by apply wpo_ret.
Qed.

Lemma wp_pp_expect fuel : forall pp expect room,
  fits n pp -> caller_room room -> wpo P (pp_expect fuel pp expect room) (fun r => fits n r.2) F.
Proof.
  induction fuel as [| fuel IH]; intros pp expect room Hp Hroom; cbn [pp_expect]; [by apply wpo_crash |].
  pose proof (pp_read_fits n pp Hp) as H1. destruct (pp_read pp) as [rc pp1]. cbn [snd] in H1.
  destruct (rc <? 0); [by apply wpo_ret |]. destruct (rc =? 0); [by apply wpo_ret |].
  destruct (strnstr _ "Error" _); [by apply wpo_ret |].
  destruct (strnstr (pp_buf pp1) expect (pp_nread pp1)) as [p |] eqn:E; [by apply wp_pp_found |].
  destruct (Nat.ltb _ _); [by apply wpo_ret |]. apply wpo_bind.
  destruct (Nat.eqb_spec (pp_nread pp1) (pp_size pp1)) as [Hn |]; [| by apply wpo_ret, IH].
  pose proof (Nat.div_mod_eq (pp_size pp1) 2). apply wp_pp_shift; [done | lia | left; lia | intros pp' H'; by apply IH].
Qed.

Lemma pp_printf_fits pp s : fits n pp -> fits n (pp_printf pp s).2.
Proof. unfold pp_printf. by destruct (pp_wok pp) as [| [] l]. Qed.

Lemma wp_ask fuel pp cmd buf : fits n pp -> wpo P (ask fuel pp cmd buf) (fun r => fits n r.2) F.
Proof.
  intros Hp. unfold ask. pose proof (pp_printf_fits pp cmd Hp) as H1. destruct (pp_printf pp cmd) as [rc pp1]. cbn [snd] in H1.
  destruct (rc <? 0); [by apply wpo_ret |].
  apply wpo_bind. eapply wpo_mono; [apply wp_pp_expect; [done | by left] | intros [[rc' t] pp2] H2 | done].
  destruct (rc' <? 0); [by apply wpo_ret |].
  apply wpo_bind. eapply wpo_mono; [apply wp_pp_expect; [exact H2 | by right] | intros [[rc'' t'] pp3] H3; by apply wpo_ret | done].
Qed.

(** The load command that the dialogue may leave: none, the old one, or one for
    a kernel of the table on a disk that is looked at. *)
Definition load_cmd_from (ins ins' : inspection) : Prop :=
  exists cmd, ins' = ins <| ins_load_cmd := cmd |> /\
    (cmd = ins_load_cmd ins \/ cmd = None \/
     exists kernel method dn orig, In (kernel, method) kernels /\
       cmd = Some (load_cmd_text method (ins_single_user ins) dn orig kernel)).

Lemma load_cmd_refl ins : load_cmd_from ins ins.
Proof. exists (ins_load_cmd ins). split; [by destruct ins | by left]. Qed.

Lemma wp_get_diskname kernel di Q : (forall r, Q r) -> wpo P (get_diskname kernel di) Q F.
Proof. intros H. unfold get_diskname, disk_letter, letter. by steps_wpo. Qed.

Lemma wp_find_kernel ks buf di ins :
  (forall x, In x ks -> In x kernels) ->
  wpo P (find_kernel ks buf di ins) (fun r => load_cmd_from ins r.2 /\ (r.1 = 1 -> r.2 = ins)) F.
Proof.
  induction ks as [| [kernel method] ks IH]; intros Hin; cbn [find_kernel].
  { apply wpo_ret. split; [apply load_cmd_refl | done]. }
  apply wpo_bind. destruct buf as [t |]; cbn [read_buf]; [apply wpo_ret | by apply wpo_crash].
  destruct (negb _); [apply IH; intros; apply Hin; by right |].
  apply wpo_bind, wp_get_diskname. intros dn. steps_wpo; (split; [| done]); cbn; [| | apply load_cmd_refl].
  - eexists. split; [reflexivity |]. right. right. exists kernel, method. eauto using in_eq.
  - eexists. split; [reflexivity |]. by right; left.
Qed.

Lemma wp_search_disks fuel l : forall buf pp ins,
  fits n pp -> Forall has_disk l ->
  wpo P (search_disks fuel l buf pp ins) (fun r => fits n r.1.2 /\ load_cmd_from ins r.2) F.
Proof.
  pose proof load_cmd_refl as Hrefl.
  induction l as [| di l IH]; intros buf pp ins Hp Hl; cbn [search_disks]; [by apply wpo_ret |].
  apply Forall_cons in Hl as [[x Hx] Hl]. unfold is_candidate. rewrite Hx. apply wpo_bind, wpo_bind, wpo_ret, wpo_ret.
  destruct (negb _); [by apply IH |]. apply wpo_bind. eapply wpo_mono; [by apply wp_ask | intros [[ok b] pp1] H1 | done]. cbn [snd] in H1.
  destruct ok; cbn [negb]; [| by apply wpo_ret].
  apply wpo_bind. eapply wpo_mono; [by apply wp_find_kernel | | done].
  intros [rc ins1] [H2 H3]. destruct (Z.eqb_spec rc 1) as [E | E]; [| by apply wpo_ret].
  cbn in H3. rewrite (H3 E). by apply IH.
Qed.

Lemma wp_failed (pp : proc_pipe) (ins ins' : inspection) :
  load_cmd_from ins ins' ->
  wpo P (let '(_, pp) := pp_printf pp ("exit" +:+ nl) in mret (-1, pp, ins'))
     (fun r => load_cmd_from ins r.2) F.
Proof. intros H. destruct (pp_printf _ _). by apply wpo_ret. Qed.

Lemma wp_grub_dialogue fuel pp ins :
  fits n pp -> wpo P (grub_dialogue fuel pp ins) (fun r => load_cmd_from ins r.2) F.
Proof.
  intros Hp. pose proof (load_cmd_refl ins) as Hrefl. unfold grub_dialogue.
  apply wpo_bind. eapply wpo_mono; [apply wp_pp_expect; [done | by left] | intros [[rc t] pp1] H1 | done].
  destruct (rc <? 0); [by apply wp_failed |].
  apply wpo_bind. eapply wpo_mono; [by apply wp_ask | intros [[ok buf] pp2] H2 | done].
  destruct ok; [| by apply wp_failed]. cbn [negb].
  apply wpo_bind. destruct buf as [line |]; cbn [read_buf]; [apply wpo_ret | by apply wpo_crash].
  apply wpo_bind. eapply wpo_mono; [by apply wp_parse_disks | | done]. intros [rc1 l] Hl.
  destruct (rc1 <? 0); [by apply wp_failed |].
  apply wpo_bind. eapply wpo_mono; [by apply wp_search_disks | | done]. intros [[rc2 pp3] ins1] [H3 H4]. cbn [fst snd] in H3, H4.
  destruct (rc2 <? 0); [by apply wp_failed |].
  pose proof (pp_printf_fits pp3 ("exit" +:+ nl) H3) as H5. destruct (pp_printf pp3 _) as [rc3 pp4]. cbn [snd] in H5.
  destruct (rc3 <? 0); [by apply wp_failed |].
  apply wpo_bind. eapply wpo_mono; [apply wp_pp_expect; [done | by left] | intros [[rc4 t4] pp5] _ | done].
  destruct (rc4 <? 0); [by apply wp_failed | by apply wpo_ret].
Qed.

End dialogue.

(** When every fault is allowed. *)
Lemma wp_grub_dialogue_any P `{!OracleClosed P} (F : fault -> Prop) fuel pp ins :
  (forall f, F f) -> (pp_nread pp <= pp_size pp)%nat ->
  wpo P (grub_dialogue fuel pp ins) (fun r => load_cmd_from ins r.2) F.
Proof. intros HF Hn. by eapply wp_grub_dialogue; [.. | split; [exact Hn | apply Nat.le_refl]]. Qed.

(** [C36] Whatever grub prints, and whatever the allocator answers, the dialogue
    changes nothing but the load command, and that is the old one, none, or one
    that loads a kernel of the table, and no pointer that is NULL is followed.  What else can happen: the
    loop that does not end ([pp_expect_hangs_at_eof]; it is the end of the fuel), a read of the buffer that was never
    written ([silent_grub_reads_uninitialised]), an index that makes a sum or a difference of [int]s overflow
    ([huge_index_overflows]), and, only when grub writes more than 1023 bytes, the size of the
    caller's buffer, a copy from behind the buffer of the pipe ([long_listing_overflows]). *)
Theorem grub_dialogue_safe fuel pp ins :
  (pp_nread pp <= pp_size pp)%nat ->
  wp (grub_dialogue fuel pp ins) (fun r => load_cmd_from ins r.2)
     (fun f => f = OutOfFuel \/ f = Uninitialised \/ f = SignedOverflow \/
               f = WildAccess /\ (1023 < pp_nread pp + String.length (text_of (pp_in pp)))%nat).
Proof.
  intros Hn. apply wpo_wp. eapply (wp_grub_dialogue any_oracle _) with (n := (pp_nread pp + String.length (text_of (pp_in pp)))%nat);
    auto. by split.
Qed.

(** Text of a length. *)
Fixpoint filler (k : nat) : string := match k with O => EmptyString | S k => String "x" (filler k) end.

(** With the prompt behind 2000 bytes and 1994 more behind the prompt, [nread - n] bytes from [p] on end behind the 4096 bytes of the
    buffer. *)
Example long_listing_overflows :
  pp_expect 2 (pipe_of 4096 [Arrives (filler 2000 +:+ PROMPT +:+ filler 1994)]) PROMPT (Some 1023%nat) [] = Crash WildAccess.
Proof. vm_compute. reflexivity. Qed.

(** The name of a disk with an index near the greatest [int]. *)
Example huge_index_overflows :
  get_diskname NETBSD_KERNEL {| orig_name := Some "hd0,gpt2147483647"; disk_name := Some "hd0"; part_name := Some "gpt";
    slice_name := None; part_index := index_num "2147483647"; slice_index := 0 |} [] = Crash SignedOverflow.
Proof. vm_compute. reflexivity. Qed.

(** An inspection as [create_inspection] makes it. *)
Definition new_inspection (conf : vm_conf) (mount_point : string) : inspection :=
  {| ins_single_user := vc_single_user conf; ins_md_unit := -1; ins_conf := conf;
     ins_mount_point := mount_point; ins_iso_path := None; ins_disk_path := None;
     ins_block_dev := None; ins_ufs_dev := None; ins_install_cmd := None; ins_load_cmd := None;
     ins_grub_run_partition := None |}.

(** A dialogue of a few lines finds the kernel. *)
Lemma grub_dialogue_safe_witness :
  wp (grub_dialogue 9 (pipe_of 64 [Arrives PROMPT; Arrives ("ls" +:+ NEWLINE); Arrives ("(hd0) " +:+ PROMPT)]) (new_inspection zero_vm_conf "/tmp/m"))
     (fun r => load_cmd_from (new_inspection zero_vm_conf "/tmp/m") r.2)
     (fun f => f = OutOfFuel \/ f = Uninitialised \/ f = SignedOverflow \/
               f = WildAccess /\ (1023 < 0 + String.length (PROMPT +:+ ("ls" +:+ NEWLINE) +:+ ("(hd0) " +:+ PROMPT) +:+ ""))%nat).
Proof.
  exact (grub_dialogue_safe 9 (pipe_of 64 [Arrives PROMPT; Arrives ("ls" +:+ NEWLINE); Arrives ("(hd0) " +:+ PROMPT)])
           (new_inspection zero_vm_conf "/tmp/m") (Nat.le_0_l _)).
Defined.

Lemma silent_grub_reads_uninitialised_witness :
  grub_dialogue 3 (pipe_of 64 [Arrives PROMPT; Arrives ("ls" +:+ NEWLINE); PollTimeout; Arrives "(hd0)"])
    (new_inspection zero_vm_conf "/tmp/m") [] = Crash Uninitialised.
Proof.
  apply (silent_grub_reads_uninitialised _ _ [Arrives "(hd0)"] 2); try done; [split; [| done] |]; by apply leb_complete.
Defined.
