(* ===== verification/Inspect.v ===== *)
(** * Looking for a kernel on the disks of a VM (src/inspect.c)

    [inspect] makes the commands for the prompt of grub when the configuration
    says "auto": it attaches the image as a memory disk, mounts it, looks for
    the kernels of NetBSD and OpenBSD, and cleans up; when that fails for a
    disk, grub is asked (Grub.v).

    What the kernel of the host answers is the record [disk_sys] on its state
    [W]; [DiskSysLaws] states, for the list of attached units and the stack of mounts,
    what these calls do.  A directory is read as a whole, in its order. *)

From S2P Require Import Prelude CString Vars Conf Global MPool Plugin ParseValue Parser Load Tap Vm Grub.
From Stdlib Require Import Ascii.

Local Open Scope Z_scope.

(** ** The host *)

(** [open] is repeated as long as it is interrupted: [sys_open_ro] is its last
    answer for a file, [sys_open_mdctl] for the control device; [sys_is_reg] is
    [fstat]; [sys_mdattach] and [sys_mddetach] are the [ioctl]s; [sys_nmount] gets the six values of the I/O vector, where a
    copy that could not be allocated is [None]; [sys_is_dir] is [openat] and
    [fstat]. *)
Record disk_sys (W : Type) := {
  sys_open_ro : string -> W -> bool;
  sys_is_reg : string -> W -> bool;
  sys_open_mdctl : W -> bool;
  sys_mdattach : string -> W -> option Z * W;
  sys_mddetach : Z -> W -> Z * W;
  sys_nmount : list (option string) -> W -> Z * W;
  sys_unmount : string -> W -> Z * W;
  sys_mkdtemp : string -> W -> option string * W;
  sys_rmdir : string -> W -> W;
  sys_opendir : string -> W -> option (list string);
  sys_is_dir : string -> W -> bool;
}.
Arguments sys_open_ro {W} d _ _.
Arguments sys_is_reg {W} d _ _.
Arguments sys_open_mdctl {W} d _.
Arguments sys_mdattach {W} d _ _.
Arguments sys_mddetach {W} d _ _.
Arguments sys_nmount {W} d _ _.
Arguments sys_unmount {W} d _ _.
Arguments sys_mkdtemp {W} d _ _.
Arguments sys_rmdir {W} d _ _.
Arguments sys_opendir {W} d _ _.
Arguments sys_is_dir {W} d _ _.

(** ** Names *)

(** [for (p = s; *p != '\0'; p++) if (!digit) break;]: what stands there. *)
Fixpoint skip_digits (s : string) : string :=
  match s with
  | String c s' => if is_digit c then skip_digits s' else s
  | EmptyString => EmptyString
  end.

Definition match_version_number (name : string) : bool :=
  match skip_digits name with
  | String dot q =>
      negb (Nat.eqb (String.length (String dot q)) (String.length name)) && Ascii.eqb dot "." &&
      negb (Nat.eqb (String.length (skip_digits q)) (String.length q)) &&
      match skip_digits q with EmptyString => true | String _ _ => false end
  | EmptyString => false
  end.

Definition match_diskname (name diskname : string) : bool :=
  let len := String.length diskname in
  (strncmp name diskname len =? 0) &&
  match drop_str len name with
  | String c p => (Ascii.eqb c "p" || Ascii.eqb c "s") && str_all is_digit p
  | EmptyString => false
  end.

(** The loops that go back from the end: the position of the last character
    with the property; [None] when the pointer runs in front of the string. *)
Fixpoint last_where (P : ascii -> bool) (s : string) : option nat :=
  match s with
  | EmptyString => None
  | String c s' =>
      match last_where P s' with
      | Some n => Some (S n)
      | None => if P c then Some O else None
      end
  end.

Definition hidden (name : string) : bool := Ascii.eqb (char_at name 0) ".".

(** [printf] of an [unsigned] with [%d]. *)
Definition md_path (unit : Z) : string := "/dev/md" +:+ print_dec (to_int unit).

Section inspect.
Context {W : Type} (k : kernel W) (ds : disk_sys W)
  (grub : list string -> W -> list pp_answer * list bool * W).

Definition is_file (path : string) (w : W) : bool := sys_is_file k path w.

Definition is_directory (dir name : string) (w : W) : bool := sys_is_dir ds (dir +:+ "/" +:+ name) w.

Definition create_inspection (w : W) (conf : vm_conf) : C (option inspection * W) :=
  ok ← malloc;
  if negb ok then mret (None, w)
  else
    ok ← malloc;
    if negb ok then mret (None, w)
    else
      let '(mp, w) := sys_mkdtemp ds "/tmp/bmd.ins" w in
      mret (match mp with
            | None => (None, w)
            | Some mp => (Some (new_inspection conf mp), w)
            end).

Definition free_inspection (w : W) (ins : inspection) : W := sys_rmdir ds (ins_mount_point ins) w.

(** The new unit. *)
Definition mdattach (w : W) (path : string) : Z * option Z * W :=
  if negb (sys_open_ro ds path w) then (-1, None, w)
  else if negb (sys_is_reg ds path w) then (-1, None, w)
  else if negb (sys_open_mdctl ds w) then (-1, None, w)
  else match sys_mdattach ds path w with
       | (None, w) => (-1, None, w)
       | (Some unit, w) => (0, Some unit, w)
       end.

Definition mddetach (w : W) (unit : Z) : Z * W :=
  if negb (sys_open_mdctl ds w) then (-1, w) else sys_mddetach ds (to_uint unit) w.

(** [strdup] for each entry of the vector. *)
Fixpoint dup_all (l : list string) : C (list (option string)) :=
  match l with
  | [] => mret []
  | s :: l' => a ← strdup s; r ← dup_all l'; mret (a :: r)
  end.

(** The name of the device is written over the last entry, of 18 bytes. *)
Definition mount_iso (w : W) (ins : inspection) : C (Z * W) :=
  iov ← dup_all ["fstype"; "cd9660"; "fspath"; ins_mount_point ins; "from"];
  last ← strdup "/dev/mdNNNNNNNNNN";
  _ ← deref last;
  mret (sys_nmount ds (iov ++ [Some (take_str 17 (md_path (ins_md_unit ins)))]) w).

Definition mount_ufs (w : W) (ins : inspection) (path : string) : C (Z * W) :=
  iov ← dup_all ["fstype"; "ufs"; "fspath"; ins_mount_point ins; "from"; path];
  mret (sys_nmount ds iov w).

(** *** Installation media *)

Definition inspect_netbsd_iso (w : W) (ins : inspection) : C (Z * inspection) :=
  path ← strdup (ins_mount_point ins +:+ "/" +:+ NETBSD_KERNEL);
  match path with
  | None => mret (-1, ins)
  | Some path =>
      if is_file path w then
        cmd ← strdup ("knetbsd -h com0 -r cd0a /" +:+ NETBSD_KERNEL +:+ nl +:+ "boot" +:+ nl);
        mret (match cmd with Some _ => 0 | None => -1 end, ins <| ins_install_cmd := cmd |>)
      else mret (-1, ins)
  end.

(** A loop over a directory: the first entry that will do. *)
Definition first_dir (ok : string -> bool) (dir : string) (w : W) (entries : list string) : option string :=
  head (base.filter (fun e => negb (hidden e) && is_directory dir e w && ok e = true) entries).

Definition inspect_openbsd_iso (w : W) (ins : inspection) : C (Z * inspection) :=
  path ← strdup (ins_mount_point ins);
  match path with
  | None => mret (-1, ins)
  | Some path =>
      let mplen := String.length (ins_mount_point ins) in
      match sys_opendir ds path w with
      | None => mret (-1, ins)
      | Some entries =>
          match first_dir match_version_number path w entries with
          | None => mret (-1, ins)
          | Some version =>
              npath ← strdup (path +:+ "/" +:+ version);
              match npath with
              | None => mret (-1, ins)
              | Some path =>
                  match sys_opendir ds path w with
                  | None => mret (-1, ins)
                  | Some entries =>
                      match first_dir (fun _ => true) path w entries with
                      | None => mret (-1, ins)
                      | Some arch =>
                          npath ← strdup (path +:+ "/" +:+ arch +:+ "/" +:+ OPENBSD_RAMDISK_KERNEL);
                          match npath with
                          | None => mret (-1, ins)
                          | Some path =>
                              if is_file path w then
                                cmd ← strdup ("kopenbsd -h com0 " +:+ drop_str mplen path +:+ nl +:+ "boot" +:+ nl);
                                mret (match cmd with Some _ => 0 | None => -1 end,
                                      ins <| ins_install_cmd := cmd |>)
                              else mret (-1, ins)
                          end
                      end
                  end
              end
          end
      end
  end.

Definition unmount (w : W) (ins : inspection) : W := (sys_unmount ds (ins_mount_point ins) w).2.

Definition inspect_iso_image (w : W) (ins : inspection) : C (Z * inspection * W) :=
  match STAILQ_FIRST (vc_isoes (ins_conf ins)) with
  | None => mret (-1, ins, w)
  | Some ic =>
      let ins := ins <| ins_iso_path := i_path ic |> in
      path ← deref (i_path ic);
      match mdattach w path with
      | (rc, None, w) => mret (rc, ins, w)
      | (_, Some unit, w) =>
          let ins := ins <| ins_md_unit := unit |> in
          '(rc, w) ← mount_iso w ins;
          if rc <? 0 then mret (-1, ins, (mddetach w (ins_md_unit ins)).2)
          else
            '(rc, ins) ← inspect_netbsd_iso w ins;
            '(rc, ins) ← (if rc <? 0 then inspect_openbsd_iso w ins else mret (rc, ins));
            let w := unmount w ins in
            mret (if rc <? 0 then -1 else 0, ins, (mddetach w (ins_md_unit ins)).2)
      end
  end.

(** *** Disks *)

(** The loop over the directory of the device. *)
Fixpoint mount_entries (w : W) (ins : inspection) (dirname diskname : string) (entries : list string)
    : C (Z * inspection * W) :=
  match entries with
  | [] => mret (-1, ins, w)
  | e :: entries' =>
      if hidden e || negb (match_diskname e diskname) then mount_entries w ins dirname diskname entries'
      else
        p ← strdup (dirname +:+ "/" +:+ e);
        match p with
        | None => mret (-1, ins, w)
        | Some p =>
            '(rc, w) ← mount_ufs w ins p;
            if rc =? 0 then
              dev ← strdup e;
              let ins := ins <| ins_ufs_dev := dev |> in
              match dev with
              | Some _ => mret (0, ins, w)
              | None => mount_entries w ins dirname diskname entries'
              end
            else mount_entries w ins dirname diskname entries'
        end
  end.

Definition mount_blockdev (w : W) (ins : inspection) : C (Z * inspection * W) :=
  dev ← deref (ins_block_dev ins);
  dirname ← strdup dev;
  match dirname with
  | None => mret (-1, ins, w)
  | Some dirname =>
      match last_where (fun c => Ascii.eqb c "/") dirname with
      | None => crash WildAccess
      | Some O => mret (-1, ins, w)
      | Some p =>
          let diskname := drop_str (S p) dirname in
          let dirname := take_str p dirname in
          match sys_opendir ds dirname w with
          | None => mret (-1, ins, w)
          | Some entries => mount_entries w ins dirname diskname entries
          end
      end
  end.

Definition inspect_openbsd_partition (ins : inspection) : C inspection :=
  '(_, part) ← set_string (ins_grub_run_partition ins) "1";
  let ins := ins <| ins_grub_run_partition := part |> in
  match ins_ufs_dev ins with
  | None => mret ins
  | Some dev =>
      match last_where (fun c => negb (is_digit c)) dev with
      | None => crash WildAccess
      | Some O => mret ins
      | Some p =>
          if Ascii.eqb (char_at dev p) "p" then
            '(_, part) ← set_string (ins_grub_run_partition ins) (drop_str (S p) dev);
            mret (ins <| ins_grub_run_partition := part |>)
          else mret ins
      end
  end.

(** One of the two kernels: 0 when the load command is made, 1 when the next
    one is to be tried. *)
Definition openbsd_kernel (w : W) (ins : inspection) (kernel cmd : string) : C (Z * inspection) :=
  path ← strdup (ins_mount_point ins +:+ "/" +:+ kernel);
  match path with
  | None => mret (-1, ins)
  | Some path =>
      if is_file path w then
        cmd ← strdup cmd;
        mret (match cmd with Some _ => 0 | None => 1 end, ins <| ins_load_cmd := cmd |>)
      else mret (1, ins)
  end.

Definition inspect_openbsd_disk (w : W) (ins : inspection) : C (Z * inspection) :=
  ins ← inspect_openbsd_partition ins;
  let root := " (hd0," +:+ pct_s (ins_grub_run_partition ins) +:+ ")/" in
  let tail := nl +:+ "boot" +:+ nl in
  '(rc, ins) ← openbsd_kernel w ins OPENBSD_UPGRADE_KERNEL
                 ("kopenbsd -h com0 -r sd0a" +:+ root +:+ OPENBSD_UPGRADE_KERNEL +:+ tail);
  if negb (rc =? 1) then mret (rc, ins)
  else
    '(rc, ins) ← openbsd_kernel w ins OPENBSD_KERNEL
                   ("kopenbsd " +:+ (if ins_single_user ins then "-s" else "") +:+ " -h com0 -r sd0a" +:+
                    root +:+ OPENBSD_KERNEL +:+ tail);
    mret (if rc =? 0 then 0 else -1, ins).

Definition inspect_netbsd_disk (w : W) (ins : inspection) : C (Z * inspection) :=
  path ← strdup (ins_mount_point ins +:+ "/" +:+ NETBSD_KERNEL);
  match path with
  | None => mret (-1, ins)
  | Some path =>
      if is_file path w then
        cmd ← strdup ("knetbsd" +:+ (if ins_single_user ins then " -s" else "") +:+
                      " -h com0 -r dk0a /" +:+ NETBSD_KERNEL +:+ nl +:+ "boot" +:+ nl);
        mret (match cmd with Some _ => 0 | None => -1 end, ins <| ins_load_cmd := cmd |>)
      else mret (-1, ins)
  end.

(** The part of [inspect_disk_image] that sets the device: [None] when the
    inspection ends there. *)
Definition attach_disk (w : W) (ins : inspection) (path : string) : C (bool * inspection * W) :=
  if strncmp path "/dev" 4 =? 0 then
    dev ← strdup path;
    mret (bool_decide (is_Some dev), ins <| ins_block_dev := dev |>, w)
  else
    match mdattach w path with
    | (_, None, w) => mret (false, ins, w)
    | (_, Some unit, w) =>
        dev ← strdup (md_path unit);
        mret (bool_decide (is_Some dev), ins <| ins_md_unit := unit |> <| ins_block_dev := dev |>, w)
    end.

Definition detach_disk (w : W) (ins : inspection) : W :=
  if ins_md_unit ins =? -1 then w else (mddetach w (ins_md_unit ins)).2.

Definition inspect_disk_image (w : W) (ins : inspection) : C (Z * inspection * W) :=
  match STAILQ_FIRST (vc_disks (ins_conf ins)) with
  | None => mret (-1, ins, w)
  | Some dc =>
      let ins := ins <| ins_disk_path := d_path dc |> in
      path ← deref (d_path dc);
      '(ok, ins, w) ← attach_disk w ins path;
      if negb ok then mret (-1, ins, w)
      else
        '(rc, ins, w) ← mount_blockdev w ins;
        if rc <? 0 then mret (-1, ins, detach_disk w ins)
        else
          '(rc, ins) ← inspect_netbsd_disk w ins;
          '(rc, ins) ← (if rc <? 0 then inspect_openbsd_disk w ins else mret (rc, ins));
          mret (if rc <? 0 then -1 else 0, ins, detach_disk (unmount w ins) ins)
  end.

Definition inspect (fuel : nat) (conf : vm_conf) (w : W) : C (option string * W) :=
  '(ins, w) ← create_inspection w conf;
  match ins with
  | None => mret (None, w)
  | Some ins =>
      '(cmd, w) ← (if vc_install conf then
                     '(rc, ins, w) ← inspect_iso_image w ins;
                     mret (if rc =? 0 then ins_install_cmd ins else None, w)
                   else
                     '(rc, ins, w) ← inspect_disk_image w ins;
                     '(rc, ins, w) ← (if rc =? 0 then mret (rc, ins, w)
                                      else inspect_with_grub k grub fuel w ins);
                     mret (if rc =? 0 then ins_load_cmd ins else None, w));
      mret (cmd, free_inspection w ins)
  end.

End inspect.

(** ** What the host promises *)

Definition unchanged {W} (attached : W -> list Z) (mounted : W -> list (string * string)) (w w' : W) : Prop :=
  attached w' = attached w /\ mounted w' = mounted w.

(** [attached] has the units, [mounted] the mount points with their devices, the
    last one first.  The control device may not be there, a unit may stay when it is to be detached (it is
    busy), and so may a mount: then the call answers so and nothing has changed.  The calls for other purposes
    change neither. *)
Class DiskSysLaws {W} (k : kernel W) (ds : disk_sys W)
    (grub : list string -> W -> list pp_answer * list bool * W) := {
  attached : W -> list Z;
  mounted : W -> list (string * string);
  attach_law path w :
    match sys_mdattach ds path w with
    | (Some unit, w') =>
        is_uint unit /\ attached w' = unit :: attached w /\ mounted w' = mounted w
    | (None, w') => unchanged attached mounted w w'
    end;
  detach_law unit l w :
    attached w = unit :: l ->
    let r := sys_mddetach ds unit w in
    mounted r.2 = mounted w /\ (r.1 = 0 /\ attached r.2 = l \/ r.1 <> 0 /\ attached r.2 = attached w);
  nmount_law iov w :
    let r := sys_nmount ds iov w in
    attached r.2 = attached w /\
    ((r.1 = 0 /\ exists fs mp from,
        iov = [Some "fstype"; Some fs; Some "fspath"; Some mp; Some "from"; Some from] /\
        mounted r.2 = (mp, from) :: mounted w) \/
     (r.1 = -1 /\ mounted r.2 = mounted w));
  unmount_law mp from l w :
    mounted w = (mp, from) :: l ->
    let r := sys_unmount ds mp w in
    attached r.2 = attached w /\ (r.1 = 0 /\ mounted r.2 = l \/ r.1 <> 0 /\ mounted r.2 = mounted w);
  mkdtemp_law t w : unchanged attached mounted w (sys_mkdtemp ds t w).2;
  rmdir_law d w : unchanged attached mounted w (sys_rmdir ds d w);
  mkstemp_law t w : unchanged attached mounted w (sys_mkstemp k t w).2;
  write_file_law f t w : unchanged attached mounted w (sys_write_file k f t w).2;
  pipe_law w : unchanged attached mounted w (sys_pipe k w).2;
  fork_law w : unchanged attached mounted w (sys_fork k w).2;
  close_law fd w : unchanged attached mounted w (sys_close k fd w);
  unlink_law fn w : unchanged attached mounted w (sys_unlink k fn w);
  destroy_law n w : unchanged attached mounted w (sys_vmm_destroy k n w);
  grub_law args w : unchanged attached mounted w (grub args w).2;
}.

(** ** The disks are left as they were *)

Section restores.
Context {W} (k : kernel W) (ds : disk_sys W) (grub : list string -> W -> list pp_answer * list bool * W)
  `{!DiskSysLaws k ds grub}.

Abbreviation healthy c Q := (wpo healthy_oracle c Q (fun _ : fault => True)).

Abbreviation same_disks := (unchanged attached mounted).

Lemma same_disks_refl w : same_disks w w.
Proof. done. Qed.

Lemma same_disks_trans w1 w2 w3 : same_disks w1 w2 -> same_disks w2 w3 -> same_disks w1 w3.
Proof. intros [H1 H2] [H3 H4]. split; congruence. Qed.

(** The units and the mounts after something was done: as before, or one more, which the host was asked to take back
    but refused to. *)
Definition units_left (w w' : W) : Prop :=
  attached w' = attached w \/
  exists unit w1, attached w1 = unit :: attached w /\ attached w' = attached w1 /\
             (sys_open_mdctl ds w1 = false \/ (sys_mddetach ds unit w1).1 <> 0).

Definition mounts_left (w w' : W) : Prop :=
  mounted w' = mounted w \/
  exists mp from w1, mounted w1 = (mp, from) :: mounted w /\ mounted w' = mounted w1 /\ (sys_unmount ds mp w1).1 <> 0.

Definition restored (w w' : W) : Prop := units_left w w' /\ mounts_left w w'.

Lemma units_left_same w1 w2 w3 w4 :
  attached w2 = attached w1 -> attached w4 = attached w3 -> units_left w2 w3 -> units_left w1 w4.
Proof. unfold units_left. intros E1 E2. by rewrite E1, E2. Qed.

Lemma mounts_left_same w1 w2 w3 w4 :
  mounted w2 = mounted w1 -> mounted w4 = mounted w3 -> mounts_left w2 w3 -> mounts_left w1 w4.
Proof. unfold mounts_left. intros E1 E2. by rewrite E1, E2. Qed.

Lemma restored_same w1 w2 w3 w4 : same_disks w1 w2 -> same_disks w3 w4 -> restored w2 w3 -> restored w1 w4.
Proof. intros [H1 H2] [H3 H4] [H5 H6]. split; [by eapply units_left_same | by eapply mounts_left_same]. Qed.

Lemma same_restored w w' : same_disks w w' -> restored w w'.
Proof. intros [H1 H2]. split; by left. Qed.

(** What the steps in between keep. *)
Definition same_ins (a b : inspection) : Prop :=
  ins_mount_point b = ins_mount_point a /\ ins_md_unit b = ins_md_unit a.

Lemma dup_all_healthy l Q : Q (Some <$> l) -> healthy (dup_all l) Q.
Proof.
  revert Q. induction l as [| s l IH]; intros Q H; cbn [dup_all]; [by apply wpo_ret |].
  step_wpo. step_wpo. apply wpo_bind, IH. by apply wpo_ret.
Qed.

Lemma mount_point_law mp fs from w :
  let r := sys_nmount ds [Some "fstype"; Some fs; Some "fspath"; Some mp; Some "from"; Some from] w in
  attached r.2 = attached w /\
  ((r.1 = 0 /\ mounted r.2 = (mp, from) :: mounted w) \/ (r.1 = -1 /\ mounted r.2 = mounted w)).
Proof.
  cbn zeta. destruct (nmount_law [Some "fstype"; Some fs; Some "fspath"; Some mp; Some "from"; Some from] w)
    as [Ha [(H0 & fs' & mp' & from' & E & Hm) | H]]; (split; [done |]); [left | by right].
  injection E as <- <- <-. done.
Qed.

(** The outcome of an attempt to mount. *)
Definition mount_outcome (ins : inspection) (w : W) (rc : Z) (w' : W) : Prop :=
  attached w' = attached w /\
  ((rc = 0 /\ exists from, mounted w' = (ins_mount_point ins, from) :: mounted w) \/
   (rc = -1 /\ mounted w' = mounted w)).

Lemma mount_iso_healthy w ins : healthy (mount_iso ds w ins) (fun r => mount_outcome ins w r.1 r.2).
Proof.
  unfold mount_iso. apply wpo_bind, dup_all_healthy. apply wpo_bind. step_wpo. apply wpo_bind, (wpo_deref _ _ _ _ _ eq_refl).
  apply wpo_ret. edestruct (mount_point_law (ins_mount_point ins) "cd9660") as [Ha [[H0 Hm] | H]];
    (split; [exact Ha |]); [left; split; [exact H0 |]; by eexists | by right].
Qed.

Lemma mount_ufs_healthy w ins path : healthy (mount_ufs ds w ins path) (fun r => mount_outcome ins w r.1 r.2).
Proof.
  unfold mount_ufs. apply wpo_bind, dup_all_healthy, wpo_ret.
  edestruct (mount_point_law (ins_mount_point ins) "ufs") as [Ha [[H0 Hm] | H]];
    (split; [exact Ha |]); [left; split; [exact H0 |]; by eexists | by right].
Qed.

Lemma mount_entries_healthy dir disk es : forall w ins,
  healthy (mount_entries ds w ins dir disk es)
    (fun r => same_ins ins r.1.2 /\ mount_outcome ins w r.1.1 r.2).
Proof.
  induction es as [| e es IH]; intros w ins; cbn [mount_entries].
  { apply wpo_ret. split; [done |]. split; [done | by right]. }
  destruct (hidden e || _); [apply IH |]. step_wpo. step_wpo.
  apply wpo_bind. eapply wpo_mono; [apply mount_ufs_healthy | | done]. intros [rc w1] [Ha Hm]. cbn in Ha, Hm.
  destruct (Z.eqb_spec rc 0) as [-> | Hrc].
  - steps_wpo. cbn. split; [done |]. by split.
  - destruct Hm as [[? _] | [_ Hm]]; [done |]. eapply wpo_mono; [apply IH | | done].
    intros [[rc' ins'] w'] [Hi [Ha' Hm']]. cbn in *. split; [done |]. unfold mount_outcome.
    by rewrite Ha', Ha, <- Hm.
Qed.

Lemma mount_blockdev_healthy w ins :
  healthy (mount_blockdev ds w ins) (fun r => same_ins ins r.1.2 /\ mount_outcome ins w r.1.1 r.2).
Proof.
  assert (Hf : same_ins ins ins /\ mount_outcome ins w (-1) w) by (split; [done |]; split; [done | by right]).
  unfold mount_blockdev. apply wpo_bind. destruct (ins_block_dev ins) as [dev |]; cbn; [apply wpo_ret | by apply wpo_crash].
  step_wpo. step_wpo. steps_wpo; try done. apply mount_entries_healthy.
Qed.

(** The functions that only read. *)
Lemma inspect_netbsd_iso_ins P `{!OracleClosed P} F w ins :
  wpo P (inspect_netbsd_iso k w ins) (fun r => same_ins ins r.2) F.
Proof. unfold inspect_netbsd_iso. by steps_wpo. Qed.

Lemma inspect_openbsd_iso_ins P `{!OracleClosed P} F w ins :
  wpo P (inspect_openbsd_iso k ds w ins) (fun r => same_ins ins r.2) F.
Proof. unfold inspect_openbsd_iso. by steps_wpo. Qed.

Lemma inspect_netbsd_disk_ins P `{!OracleClosed P} F w ins :
  wpo P (inspect_netbsd_disk k w ins) (fun r => same_ins ins r.2) F.
Proof. unfold inspect_netbsd_disk. by steps_wpo. Qed.

Lemma openbsd_kernel_ins P `{!OracleClosed P} F w ins kernel cmd :
  wpo P (openbsd_kernel k w ins kernel cmd) (fun r => same_ins ins r.2) F.
Proof. unfold openbsd_kernel. by steps_wpo. Qed.

(** A device name that is not made of digits only. *)
Definition named (dev : option string) : Prop :=
  forall s, dev = Some s -> is_Some (last_where (fun c => negb (is_digit c)) s).

Lemma wpo_set_string P `{!OracleClosed P} F v s Q :
  (forall r, Q r) -> wpo P (set_string v s) Q F.
Proof. intros H. unfold set_string. by steps_wpo. Qed.

Lemma inspect_openbsd_partition_ins P `{!OracleClosed P} F ins :
  (named (ins_ufs_dev ins) \/ F WildAccess) ->
  wpo P (inspect_openbsd_partition ins) (fun r => same_ins ins r) F.
Proof.
  intros Hn. unfold inspect_openbsd_partition. apply wpo_bind, wpo_set_string; [done |]. intros [rc part].
  change (ins_ufs_dev (ins <| ins_grub_run_partition := part |>)) with (ins_ufs_dev ins).
  destruct (ins_ufs_dev ins) as [dev |] eqn:E; [| by apply wpo_ret].
  destruct (last_where _ dev) as [[| p] |] eqn:El.
  - by apply wpo_ret.
  - destruct (Ascii.eqb _ "p"); [| by apply wpo_ret].
    apply wpo_bind, wpo_set_string; [done |]. intros [rc' part']. by apply wpo_ret.
  - apply wpo_crash. destruct Hn as [Hn | Hn]; [| done]. destruct (Hn _ eq_refl) as [p Hp]. congruence.
Qed.

Lemma inspect_openbsd_disk_ins P `{!OracleClosed P} F w ins :
  (named (ins_ufs_dev ins) \/ F WildAccess) ->
  wpo P (inspect_openbsd_disk k w ins) (fun r => same_ins ins r.2) F.
Proof.
  intros Hn. unfold inspect_openbsd_disk. apply wpo_bind.
  eapply wpo_mono; [by apply inspect_openbsd_partition_ins | | done]. intros ins1 [H1 H2].
  apply wpo_bind. eapply wpo_mono; [apply openbsd_kernel_ins; apply _ | | done].
  intros [rc ins2] [H3 H4]. cbn in H3, H4. destruct (negb _); [apply wpo_ret; split; cbn; congruence |].
  apply wpo_bind. eapply wpo_mono; [apply openbsd_kernel_ins; apply _ | | done].
  intros [rc' ins3] [H5 H6]. apply wpo_ret. split; cbn in *; congruence.
Qed.

(** The second look after the first. *)
Lemma second_look P F (c2 : inspection -> C (Z * inspection)) ins rc i :
  same_ins ins i -> (same_ins ins i -> wpo P (c2 i) (fun r => same_ins i r.2) F) ->
  wpo P (if rc <? 0 then c2 i else mret (rc, i)) (fun r => same_ins ins r.2) F.
Proof.
  intros Hi H. destruct (rc <? 0); [| by apply wpo_ret]. eapply wpo_mono; [by apply H | | done].
  intros [rc' i'] [E1 E2]. destruct Hi as [E3 E4]. split; cbn in *; congruence.
Qed.

(** *** Attaching and detaching *)

Lemma mdattach_spec w path :
  match mdattach ds w path with
  | (_, Some unit, w') => is_uint unit /\ attached w' = unit :: attached w /\ mounted w' = mounted w
  | (_, None, w') => same_disks w w'
  end.
Proof.
  unfold mdattach. do 3 (destruct (negb _); [done |]).
  pose proof (attach_law path w) as H. by destruct (sys_mdattach ds path w) as [[unit |] w1].
Qed.

Lemma detach_left w0 w unit :
  is_uint unit -> attached w = unit :: attached w0 ->
  units_left w0 (mddetach ds w unit).2 /\ mounted (mddetach ds w unit).2 = mounted w.
Proof.
  intros Hu Ha. unfold mddetach. assert (E : to_uint unit = unit) by (apply Z.mod_small, Hu).
  destruct (sys_open_mdctl ds w) eqn:Ed; cbn [negb]; [| split; [right; exists unit, w; auto | done]].
  rewrite E. destruct (detach_law unit (attached w0) w Ha) as [H1 [[_ H2] | [H2 H3]]]; (split; [| done]); [by left | right].
  exists unit, w. auto.
Qed.

Lemma unmount_left w w0 ins from :
  mounted w = (ins_mount_point ins, from) :: mounted w0 ->
  attached (unmount ds w ins) = attached w /\ mounts_left w0 (unmount ds w ins).
Proof.
  intros H. unfold unmount. destruct (unmount_law _ from _ w H) as [H1 [[_ H2] | [H2 H3]]]; (split; [done |]); [by left | right].
  by exists (ins_mount_point ins), from, w.
Qed.

Lemma inspect_iso_image_restores w ins :
  healthy (inspect_iso_image k ds w ins) (fun r => restored w r.2).
Proof.
  unfold inspect_iso_image. destruct (STAILQ_FIRST _) as [ic |]; [| apply wpo_ret; split; by left].
  apply wpo_bind. destruct (i_path ic) as [path |]; cbn [deref]; [apply wpo_ret | by apply wpo_crash].
  pose proof (mdattach_spec w path) as Ha.
  destruct (mdattach ds w path) as [[rc0 [unit |]] w1]; [| by apply wpo_ret, same_restored].
  destruct Ha as (Hu & Ha & Hm). cbv zeta.
  set (ins1 := ins <| ins_iso_path := _ |> <| ins_md_unit := unit |>).
  apply wpo_bind. eapply wpo_mono; [apply mount_iso_healthy | | done]. intros [rc w2] [Ha2 Hm2]. cbn in Ha2, Hm2.
  assert (Ha1 : attached w2 = unit :: attached w) by congruence.
  destruct (Z.ltb_spec rc 0) as [Hrc | Hrc].
  { apply wpo_ret. change (ins_md_unit ins1) with unit. destruct (detach_left w w2 unit Hu Ha1) as [H1 H2]. split; [exact H1 | left].
    destruct Hm2 as [[? _] | [_ ?]]; [lia | cbn; congruence]. }
  destruct Hm2 as [[_ [from Hm2]] | [? _]]; [| lia].
  apply wpo_bind. eapply (wpo_mono _ _ _ _ (fun _ => True)); [apply inspect_netbsd_iso_ins; apply _ | | done]. intros [rc1 ins2] Hi2.
  apply wpo_bind. eapply (wpo_mono _ _ _ _ (fun _ => True)); [apply (second_look _ _ _ ins1) | | done]; [done | |].
  { intros _. apply inspect_openbsd_iso_ins, _. }
  intros [rc2 ins3] [E1 E2]. apply wpo_ret. cbn in E1, E2. change (ins_md_unit ins1) with unit in E2. cbn [fst snd].
  rewrite E2. destruct (unmount_left w2 w ins3 from) as [H1 H2]; [rewrite E1, Hm2; congruence |].
  destruct (detach_left w (unmount ds w2 ins3) unit Hu) as [H3 H4]; [congruence |].
  split; [exact H3 |]. apply (mounts_left_same w w (unmount ds w2 ins3)); [done | exact H4 | exact H2].
Qed.

Lemma inspect_disk_image_restores w ins :
  ins_md_unit ins = -1 -> healthy (inspect_disk_image k ds w ins) (fun r => restored w r.2).
Proof.
  intros Hmd. unfold inspect_disk_image. destruct (STAILQ_FIRST _) as [dc |]; [| apply wpo_ret; split; by left].
  apply wpo_bind. destruct (d_path dc) as [path |]; cbn [deref]; [apply wpo_ret | by apply wpo_crash].
  set (ins0 := ins <| ins_disk_path := _ |>).
  (* the device, and what becomes of it *)
  apply wpo_bind. apply (wpo_mono _ _ (fun r => mounted r.2 = mounted w /\
    (r.1.1 = false -> same_disks w r.2) /\
    (forall w', attached w' = attached r.2 ->
       units_left w (detach_disk ds w' r.1.2) /\ mounted (detach_disk ds w' r.1.2) = mounted w')) _ (fun _ => True) _); [| | done].
  { unfold attach_disk, detach_disk. destruct (strncmp path "/dev" 4 =? 0).
    - steps_wpo. cbn. rewrite Hmd. cbn. split; [done | split; [done |]]. intros w' Hw. split; [by left | done].
    - pose proof (mdattach_spec w path) as Ha. destruct (mdattach ds w path) as [[rc0 [unit |]] w1].
      + destruct Ha as (Hu & Ha & Hm). steps_wpo. cbn. split; [done |]. split; [done |].
        intros w' Ha'. destruct (Z.eqb_spec unit (-1)) as [-> |]; [destruct Hu; lia |].
        apply detach_left; [done |]. by rewrite Ha'.
      + apply wpo_ret. cbn. rewrite Hmd. cbn. destruct Ha as [Ha Hm]. split; [done | split; [done |]].
        intros w' Hw. split; [left; congruence | done]. }
  intros [[ok ins1] w1] (Hm1 & Hno & Hdet). cbn in Hm1, Hno, Hdet. destruct ok; cbn [negb]; [| by apply wpo_ret, same_restored, Hno].
  apply wpo_bind. eapply wpo_mono; [apply mount_blockdev_healthy | | done].
  intros [[rc ins2] w2] [[E1 E2] [Ha2 Hm2]]. cbn in E1, E2, Ha2, Hm2.
  assert (Hd : forall i w', ins_md_unit i = ins_md_unit ins1 -> detach_disk ds w' i = detach_disk ds w' ins1)
    by (intros i w' E; unfold detach_disk; by rewrite E).
  destruct (Z.ltb_spec rc 0) as [Hrc | Hrc].
  { apply wpo_ret. cbn. rewrite Hd by done. destruct (Hdet w2 Ha2) as [H1 H2]. split; [exact H1 | left].
    destruct Hm2 as [[? _] | [_ ?]]; [lia | congruence]. }
  destruct Hm2 as [[_ [from Hm2]] | [? _]]; [| lia].
  apply wpo_bind. eapply (wpo_mono _ _ _ _ (fun _ => True)); [apply inspect_netbsd_disk_ins; apply _ | | done]. intros [rc1 ins3] Hi3.
  apply wpo_bind. eapply (wpo_mono _ _ _ _ (fun _ => True)); [apply (second_look _ _ _ ins2) | | done]; [done | |].
  { intros _. apply inspect_openbsd_disk_ins; [apply _ | by right]. }
  intros [rc2 ins4] [E3 E4]. apply wpo_ret. cbn in E3, E4. cbn [fst snd]. rewrite Hd by congruence.
  destruct (unmount_left w2 w ins4 from) as [H1 H2]; [rewrite E3, E1, Hm2; congruence |].
  destruct (Hdet (unmount ds w2 ins4)) as [H3 H4]; [congruence |]. split; [exact H3 |].
  apply (mounts_left_same w w (unmount ds w2 ins4)); [done | exact H4 | exact H2].
Qed.

Lemma write_mapfile_restores w conf mapfile :
  healthy (write_mapfile k w conf mapfile) (fun r => same_disks w r.2).
Proof.
  unfold write_mapfile. step_wpo. step_wpo. cbn [negb].
  pose proof (mkstemp_law ("/tmp/bmd." +:+ pct_s (vc_name conf)) w) as H1.
  destruct (sys_mkstemp k _ w) as [[fn |] w1]; [| by apply wpo_ret].
  set (w2 := match mapfile with Some old => sys_unlink k old w1 | None => w1 end).
  assert (H2 : same_disks w w2) by (eapply same_disks_trans; [exact H1 |]; unfold w2; destruct mapfile; [apply unlink_law | done]).
  pose proof (same_disks_trans _ _ _ H2 (write_file_law fn (mapfile_text conf) w2)) as H3.
  destruct (sys_write_file k fn _ w2) as [[] w3]; apply wpo_ret; [exact H3 |].
  eapply same_disks_trans; [exact H3 | apply unlink_law].
Qed.

Lemma spawn_grub_restores w pp :
  same_disks w (spawn_grub k grub w pp).2 /\
  (pp_nread (spawn_grub k grub w pp).1.2 = pp_nread pp /\ pp_buf (spawn_grub k grub w pp).1.2 = pp_buf pp).
Proof.
  unfold spawn_grub. pose proof (pipe_law w) as H1. destruct (sys_pipe k w) as [[[fd fd'] |] w1]; [| done].
  pose proof (same_disks_trans _ _ _ H1 (fork_law w1)) as H2. destruct (sys_fork k w1) as [[pid |] w2].
  - pose proof (grub_law (spawn_lines pp) w2) as H3. destruct (grub _ w2) as [[ins oks] w3]. split; [| done].
    eapply same_disks_trans; [exact H2 |]. eapply same_disks_trans; [exact H3 | apply close_law].
  - split; [| done]. eapply same_disks_trans; [exact H2 |]. eapply same_disks_trans; apply close_law.
Qed.

Lemma pp_free_restores w pp : same_disks w (pp_free k w pp).
Proof. unfold pp_free. destruct (pp_mapfile pp); [apply unlink_law | done]. Qed.

Lemma inspect_with_grub_restores fuel w ins :
  healthy (inspect_with_grub k grub fuel w ins) (fun r => same_disks w r.2).
Proof.
  assert (Hfree : forall w1 pp, same_disks w w1 -> same_disks w (pp_free k w1 pp))
    by (intros w1 pp H; eapply same_disks_trans; [exact H | apply pp_free_restores]).
  unfold inspect_with_grub, pp_create.
  apply wpo_bind, wpo_bind, healthy_malloc, wpo_bind, healthy_malloc, wpo_ret. cbn beta iota.
  apply wpo_bind. eapply wpo_mono; [apply write_mapfile_restores | | done]. intros [[rc m] w1] H1. cbn [snd] in H1. cbv zeta.
  destruct (rc <? 0); [by apply wpo_ret, Hfree |]. apply wpo_bind, healthy_strdup. cbn beta iota.
  match goal with |- context [spawn_grub k grub w1 ?p] => pose proof (spawn_grub_restores w1 p) as [H2 [Hn Hb]];
    destruct (spawn_grub k grub w1 p) as [[rc1 pp1] w2] end.
  cbn [fst snd] in H2, Hn, Hb. pose proof (same_disks_trans _ _ _ H1 H2) as H12. destruct (rc1 <? 0); [by apply wpo_ret, Hfree |].
  apply wpo_bind. eapply (wpo_mono _ _ _ _ (fun _ => True)); [apply wp_grub_dialogue_any; [apply _ | done |] | | done].
  { unfold pp_size. rewrite Hn. apply Nat.le_0_l. }
  intros [[rc2 pp2] ins2] _. unfold pp_close. apply wpo_bind, wpo_bind.
  destruct (pp_vm_name pp2) as [n |]; cbn [deref]; [| by apply wpo_crash]. apply wpo_ret, wpo_ret, wpo_ret, Hfree.
  eapply same_disks_trans; [exact H12 |]. eapply same_disks_trans; [apply close_law | apply destroy_law].
Qed.

Lemma inspect_restores_any fuel conf w :
  healthy (inspect k ds grub fuel conf w) (fun r => restored w r.2).
Proof.
  unfold inspect. apply wpo_bind. unfold create_inspection.
  apply wpo_bind, healthy_malloc, wpo_bind, healthy_malloc. cbn [negb].
  pose proof (mkdtemp_law "/tmp/bmd.ins" w) as H0. destruct (sys_mkdtemp ds _ w) as [[mp |] w0]; apply wpo_ret;
    [| by apply wpo_ret, same_restored]. cbn in H0. apply wpo_bind.
  eapply (wpo_mono _ _ (fun r => restored w0 r.2) _ (fun _ => True)); [| | done].
  - destruct (vc_install conf).
    + apply wpo_bind. eapply wpo_mono; [apply inspect_iso_image_restores | | done].
      intros [[rc ins] w1] H1. by apply wpo_ret.
    + apply wpo_bind. eapply wpo_mono; [by apply inspect_disk_image_restores | | done].
      intros [[rc ins] w1] H1. cbn in H1. apply wpo_bind.
      eapply (wpo_mono _ _ (fun r => restored w0 r.2) _ (fun _ => True)); [| | done].
      * destruct (rc =? 0); [by apply wpo_ret |]. eapply wpo_mono; [apply inspect_with_grub_restores | | done].
        intros [[rc' ins'] w'] H'. by apply (restored_same _ w0 w1).
      * intros [[rc' ins'] w'] H'. by apply wpo_ret.
  - intros [cmd w1] H1. apply wpo_ret. eapply restored_same; [exact H0 | apply rmdir_law | exact H1].
Qed.

(** [C22] When no allocation fails, an inspection that ends takes back what it did to the memory disks and the mounts of the host, on every path:
    media or disk, a kernel found or not, a mount or a command that failed, grub asked or not.  Afterwards the attached units are
    those of before, unless the host refused to detach the unit that the inspection attached (the control device could
    not be opened, or the unit was busy), which then stays; and the mounts are those of before, unless the host
    refused to take back the mount of the inspection.  The code ignores both refusals. *)
Theorem inspect_restores fuel conf w cmd w' :
  runs (inspect k ds grub fuel conf w) (cmd, w') ->
  (attached w' = attached w \/
   exists unit w1, attached w1 = unit :: attached w /\ attached w' = attached w1 /\
     (sys_open_mdctl ds w1 = false \/ (sys_mddetach ds unit w1).1 <> 0)) /\
  (mounted w' = mounted w \/
   exists mp from w1, mounted w1 = (mp, from) :: mounted w /\ mounted w' = mounted w1 /\ (sys_unmount ds mp w1).1 <> 0).
Proof. intros H. exact (wpo_runs _ _ _ _ (inspect_restores_any fuel conf w) H). Qed.

End restores.

(** ** Version numbers *)

Lemma skip_digits_split s :
  exists a, s = a +:+ skip_digits s /\ str_all is_digit a = true /\ is_digit (char_at (skip_digits s) 0) = false.
Proof.
  induction s as [| c s (a & E & Ha & Hc)]; [by exists EmptyString |]. cbn [skip_digits].
  destruct (is_digit c) eqn:Ed; [| by exists EmptyString].
  exists (String c a). rewrite app_str_cons, <- E. cbn [str_all]. by rewrite Ed, Ha.
Qed.

Lemma skip_digits_app a s :
  str_all is_digit a = true -> skip_digits (a +:+ s) = skip_digits s.
Proof.
  induction a as [| c a IH]; intros H; [done |]. cbn [str_all] in H. apply andb_true_iff in H as [Hc H].
  rewrite app_str_cons. cbn [skip_digits]. rewrite Hc. by apply IH.
Qed.

Lemma skip_digits_all a : str_all is_digit a = true -> skip_digits a = EmptyString.
Proof. intros H. rewrite <- (app_str_nil_r a). by apply skip_digits_app. Qed.

(** A directory name is taken for a version of OpenBSD exactly when it is
    a number, a full stop and a number, as the comment in the source says, and
    nothing else. *)
Theorem match_version_number_spec name :
  match_version_number name = true <->
  exists a b, name = a +:+ "." +:+ b /\ a <> EmptyString /\ b <> EmptyString /\
         str_all is_digit a = true /\ str_all is_digit b = true.
Proof.
  assert (Hlen : forall a s, Nat.eqb (String.length s) (String.length (a +:+ s)) = Nat.eqb (String.length a) 0).
  { intros a s. rewrite length_app_str. destruct (Nat.eqb_spec (String.length a) 0); apply Nat.eqb_eq || apply Nat.eqb_neq; lia. }
  assert (Hne : forall a, negb (Nat.eqb (String.length a) 0) = true <-> a <> EmptyString) by (by intros []).
  unfold match_version_number. split.
  - destruct (skip_digits_split name) as (a & E & Ha & _).
    destruct (skip_digits name) as [| dot q]; [done |]. rewrite E, Hlen, !andb_true_iff, Hne.
    destruct (skip_digits_split q) as (b & Eb & Hb & _). intros [[[H1 H2] H3] H4]. apply Ascii.eqb_eq in H2 as ->.
    destruct (skip_digits q) as [|]; [| done]. rewrite app_str_nil_r in Eb. subst q.
    exists a, b. split; [done |]. by destruct b.
  - intros (a & b & -> & Ha & Hb & Hda & Hdb). rewrite skip_digits_app by done.
    change (skip_digits ("." +:+ b)) with (String "." b). cbv iota beta.
    rewrite skip_digits_all by done. change (a +:+ "." +:+ b) with (a +:+ String "." b). rewrite Hlen.
    rewrite !andb_true_iff. repeat split; [by apply Hne |]. by destruct b.
Qed.

(** ** Memory safety of the inspection of disks *)

Lemma last_where_app P a c s : P c = true -> is_Some (last_where P (a +:+ String c s)).
Proof.
  intros Hc. induction a as [| d a IH]; rewrite ?app_str_cons, ?app_str_nil_l; cbn [last_where].
  - rewrite Hc. destruct (last_where P s); by eexists.
  - destruct IH as [n ->]. by eexists.
Qed.

(** A name that matches ends in a letter and digits. *)
Lemma match_diskname_named e disk : match_diskname e disk = true -> named (Some e).
Proof.
  unfold match_diskname. rewrite andb_true_iff. intros [_ H] s [= <-].
  rewrite <- (take_drop_str (String.length disk) e).
  destruct (drop_str _ e) as [| c p]; [done |]. apply last_where_app.
  apply andb_true_iff in H as [H _]. apply orb_true_iff in H as [H | H]; by apply Ascii.eqb_eq in H as ->.
Qed.

Section disk_safe.
Context {W} (k : kernel W) (ds : disk_sys W).

Lemma dup_all_safe l Q : (forall r, Q r) -> wpo any_oracle (dup_all l) Q no_fault.
Proof.
  revert Q. induction l as [| s l IH]; intros Q H; cbn [dup_all]; [by apply wpo_ret |].
  step_wpo. step_wpo; apply wpo_bind, IH; intros r; by apply wpo_ret.
Qed.

Lemma mount_entries_safe dir disk es : forall w ins,
  named (ins_ufs_dev ins) ->
  wpo any_oracle (mount_entries ds w ins dir disk es) (fun r => named (ins_ufs_dev r.1.2)) no_fault.
Proof.
  induction es as [| e es IH]; intros w ins Hn; cbn [mount_entries]; [by apply wpo_ret |].
  destruct (hidden e || negb (match_diskname e disk)) eqn:Em; [by apply IH |].
  apply orb_false_iff in Em as [_ Em]. apply negb_false_iff in Em.
  step_wpo. step_wpo; [| by apply wpo_ret]. apply wpo_bind. unfold mount_ufs. apply wpo_bind, dup_all_safe. intros iov.
  apply wpo_ret. destruct (sys_nmount ds iov w) as [rc w1]. destruct (rc =? 0); [| by apply IH].
  apply wpo_bind, wpo_strdup; [apply _ | |]; cbn beta iota zeta.
  - apply wpo_ret. by eapply match_diskname_named.
  - by apply IH.
Qed.

(** The name of the device has a slash. *)
Definition has_slash (dev : string) : Prop := is_Some (last_where (fun c => Ascii.eqb c "/") dev).

Lemma mount_blockdev_safe w ins dev :
  ins_block_dev ins = Some dev -> has_slash dev -> named (ins_ufs_dev ins) ->
  wpo any_oracle (mount_blockdev ds w ins) (fun r => named (ins_ufs_dev r.1.2)) no_fault.
Proof.
  intros Hd [p Hp] Hn. unfold mount_blockdev. apply wpo_bind, (wpo_deref _ _ dev); [done |].
  apply wpo_bind, wpo_strdup; [apply _ | | by apply wpo_ret]. rewrite Hp.
  destruct p as [| p]; [by apply wpo_ret |]. destruct (sys_opendir ds _ w); [| by apply wpo_ret].
  by apply mount_entries_safe.
Qed.

Lemma dev_has_slash path : strncmp path "/dev" 4 = 0 -> has_slash path.
Proof.
  unfold strncmp. rewrite strcmp_eq0. change (take_str 4 "/dev") with "/dev". intros H.
  rewrite <- (take_drop_str 4 path), H. by apply (last_where_app _ EmptyString).
Qed.

Lemma md_has_slash unit : has_slash (md_path unit).
Proof. by apply (last_where_app _ EmptyString). Qed.

Lemma attach_disk_safe w ins path :
  wpo any_oracle (attach_disk ds w ins path)
    (fun r => ins_ufs_dev r.1.2 = ins_ufs_dev ins /\
              (r.1.1 = true -> exists dev, ins_block_dev r.1.2 = Some dev /\ has_slash dev)) no_fault.
Proof.
  unfold attach_disk. destruct (Z.eqb_spec (strncmp path "/dev" 4) 0) as [E | E].
  - steps_wpo; (split; [done |]); cbn; [| done]. intros _. exists path. split; [done | by apply dev_has_slash].
  - destruct (mdattach ds w path) as [[rc [unit |]] w1]; [| by apply wpo_ret].
    steps_wpo; (split; [done |]); cbn; [| done]. intros _. exists (md_path unit). split; [done | apply md_has_slash].
Qed.

(** The searches that run backwards through a name never leave it: the
    inspection of a disk with a path has no undefined behaviour, whatever the
    host and the allocator answer.  The device always has a slash, and the name
    that was mounted always has a letter in front of its digits. *)
Theorem inspect_disk_image_safe w ins :
  ins_ufs_dev ins = None -> (forall d, STAILQ_FIRST (vc_disks (ins_conf ins)) = Some d -> is_Some (d_path d)) ->
  wp (inspect_disk_image k ds w ins) (fun _ => True) no_fault.
Proof.
  intros Hu Hp. apply wpo_wp. unfold inspect_disk_image.
  destruct (STAILQ_FIRST _) as [d |]; [| by apply wpo_ret]. destruct (Hp d eq_refl) as [path Hpath].
  apply wpo_bind, (wpo_deref _ _ path); [done |].
  apply wpo_bind. eapply wpo_mono; [apply attach_disk_safe | | done]. intros [[ok ins1] w1] [H1 H2]. cbn in H1, H2.
  destruct ok; cbn [negb]; [| by apply wpo_ret]. destruct (H2 eq_refl) as (dev & Hd & Hs).
  apply wpo_bind. eapply wpo_mono; [apply (mount_blockdev_safe _ _ dev) | | done]; [done | done | by rewrite H1, Hu |].
  intros [[rc ins2] w2] Hn. cbn in Hn. destruct (rc <? 0); [by apply wpo_ret |].
  apply wpo_bind. apply (wpo_mono _ _ (fun r => ins_ufs_dev r.2 = ins_ufs_dev ins2) _ no_fault _); [| | done].
  { unfold inspect_netbsd_disk. by steps_wpo. }
  intros [rc1 ins3] H3. cbn in H3. apply wpo_bind.
  apply (wpo_mono _ _ (fun _ => True) _ no_fault _); [| intros [rc2 ins4] _; by apply wpo_ret | done].
  destruct (rc1 <? 0); [| by apply wpo_ret].
  eapply wpo_mono; [apply inspect_openbsd_disk_ins | done | done]; [apply _ | left; by rewrite H3].
Qed.

End disk_safe.

(** ** A host with one memory disk *)

(** It refuses to unmount and to detach when it is busy. *)
Record host := { h_attached : list Z; h_mounted : list (string * string); h_busy : bool }.

Definition demo_dirs (path : string) : option (list string) :=
  if bool_decide (path = "/tmp/m") then Some [".."; "etc"; "7.0"]
  else if bool_decide (path = "/tmp/m/7.0") then Some ["amd64"]
  else if bool_decide (path = "/dev") then Some ["md0"; "md0p2"]
  else None.

Definition demo_disk_sys : disk_sys host := {|
  sys_open_ro := fun _ _ => true;
  sys_is_reg := fun _ _ => true;
  sys_open_mdctl := fun _ => true;
  sys_mdattach := fun _ h =>
    match h_attached h with
    | [] => (Some 0, {| h_attached := [0]; h_mounted := h_mounted h; h_busy := h_busy h |})
    | _ => (None, h)
    end;
  sys_mddetach := fun _ h =>
    if h_busy h then (-1, h) else (0, {| h_attached := tail (h_attached h); h_mounted := h_mounted h; h_busy := false |});
  sys_nmount := fun iov h =>
    match iov with
    | [a; Some fs; b; Some mp; c; Some from] =>
        if bool_decide (a = Some "fstype" /\ b = Some "fspath" /\ c = Some "from")
        then (0, {| h_attached := h_attached h; h_mounted := (mp, from) :: h_mounted h; h_busy := h_busy h |})
        else (-1, h)
    | _ => (-1, h)
    end;
  sys_unmount := fun _ h =>
    if h_busy h then (-1, h) else (0, {| h_attached := h_attached h; h_mounted := tail (h_mounted h); h_busy := false |});
  sys_mkdtemp := fun _ h => (Some "/tmp/m", h);
  sys_rmdir := fun _ h => h;
  sys_opendir := fun path _ => demo_dirs path;
  sys_is_dir := fun path _ => bool_decide (is_Some (demo_dirs path)) || bool_decide (path = "/tmp/m/7.0/amd64");
|}.

Definition demo_host_kernel : kernel host := {|
  sys_fork := fun h => (Some 7, h);
  sys_pipe := fun h => (Some (4, 5), h);
  sys_close := fun _ h => h;
  sys_write := fun _ _ h => h;
  sys_socket := fun h => (true, h);
  sys_if := {|
    if_get := fun _ h => (Some (2, 0), h); if_set := fun _ _ h => (0, h);
    if_create := fun _ h => (Some "tap0", h); if_destroy := fun _ h => (0, h);
    if_describe := fun _ _ _ h => (0, h); if_bridge := fun _ _ h => (0, h) |};
  sys_mkstemp := fun p h => (Some p, h);
  sys_write_file := fun _ _ h => (true, h);
  sys_is_file := fun path _ => bool_decide (path = "/tmp/m/7.0/amd64/bsd.rd") || bool_decide (path = "/tmp/m/bsd");
  sys_unlink := fun _ h => h;
  sys_copy_file := fun _ _ h => (true, h);
  sys_kill := fun _ _ h => (0, h);
  sys_vm_suspend := fun _ _ h => (0, h);
  sys_vmm_destroy := fun _ h => h;
|}.

Definition demo_grub (args : list string) (h : host) : list pp_answer * list bool * host := ([], [], h).

#[export] Instance demo_disk_laws : DiskSysLaws demo_host_kernel demo_disk_sys demo_grub.
Proof.
  refine {| attached := h_attached; mounted := h_mounted |}; try done.
  - intros path [[|] m b]; cbn; [| done]. by split; [split; lia |].
  - intros unit l [a m []] H; cbn in *; (split; [done |]); [by right | left]. by subst.
  - intros iov w. cbn. repeat case_match; cbn; (split; [done |]); try by right. left. split; [done |].
    case_bool_decide; [| done]. destruct_and!. subst. eauto.
  - intros mp from l [a m []] H; cbn in *; (split; [done |]); [by right | left]. by subst.
Defined.

Definition demo_install_conf : vm_conf :=
  zero_vm_conf <| vc_install := true |>
    <| vc_isoes := {| stq_items := [{| i_type := Some "ahci-cd"; i_path := Some "/iso/install70.iso" |}];
                      stq_last := TailOk |} |>.

Definition demo_disk_conf : vm_conf :=
  zero_vm_conf <| vc_disks := {| stq_items := [{| d_type := Some "virtio-blk"; d_path := Some "/vm/disk.img" |}];
                                 stq_last := TailOk |} |>.

Definition idle_host : host := {| h_attached := []; h_mounted := []; h_busy := false |}.

(** The commands that are found on this host. *)
Example demo_install_command :
  runs (inspect demo_host_kernel demo_disk_sys demo_grub 9 demo_install_conf idle_host)
    (Some ("kopenbsd -h com0 /7.0/amd64/bsd.rd" +:+ nl +:+ "boot" +:+ nl), idle_host).
Proof. reflexivity. Qed.

Example demo_load_command :
  runs (inspect demo_host_kernel demo_disk_sys demo_grub 9 demo_disk_conf idle_host)
    (Some ("kopenbsd  -h com0 -r sd0a (hd0,2)/bsd" +:+ nl +:+ "boot" +:+ nl), idle_host).
Proof. reflexivity. Qed.

(** A host on which something is mounted already, and which is busy: the memory disk and the mount of the inspection stay. *)
Definition busy_host : host := {| h_attached := []; h_mounted := [("/mnt", "/dev/da0p1")]; h_busy := true |}.

Definition left_host : host :=
  {| h_attached := [0]; h_mounted := [("/tmp/m", "/dev/md0"); ("/mnt", "/dev/da0p1")]; h_busy := true |}.

Lemma inspect_restores_witness :
  h_attached left_host <> h_attached busy_host /\ h_mounted left_host <> h_mounted busy_host /\
  (h_attached left_host = h_attached busy_host \/
   exists unit w1, h_attached w1 = unit :: h_attached busy_host /\ h_attached left_host = h_attached w1 /\
     (sys_open_mdctl demo_disk_sys w1 = false \/ (sys_mddetach demo_disk_sys unit w1).1 <> 0)) /\
  (h_mounted left_host = h_mounted busy_host \/
   exists mp from w1, h_mounted w1 = (mp, from) :: h_mounted busy_host /\ h_mounted left_host = h_mounted w1 /\
     (sys_unmount demo_disk_sys mp w1).1 <> 0).
Proof.
  split; [done | split; [done |]].
  exact (inspect_restores demo_host_kernel demo_disk_sys demo_grub 9 demo_install_conf busy_host
    (Some ("kopenbsd -h com0 /7.0/amd64/bsd.rd" +:+ nl +:+ "boot" +:+ nl)) left_host eq_refl).
Defined.

Lemma inspect_disk_image_safe_witness :
  wp (inspect_disk_image demo_host_kernel demo_disk_sys idle_host (new_inspection demo_disk_conf "/tmp/m"))
     (fun _ => True) no_fault.
Proof. apply inspect_disk_image_safe; [done |]. intros d [= <-]. by eexists. Defined.

(** A memory disk that was attached stays so when the name of its device cannot
    be allocated: the function returns without detaching it. *)
Lemma inspect_disk_image_leaks {W} (k : kernel W) (ds : disk_sys W) grub `{!DiskSysLaws k ds grub} w ins d path unit w1 o :
  STAILQ_FIRST (vc_disks (ins_conf ins)) = Some d -> d_path d = Some path -> strncmp path "/dev" 4 <> 0 ->
  mdattach ds w path = (0, Some unit, w1) ->
  exists ins', inspect_disk_image k ds w ins (false :: o) = Done (-1, ins', w1) o /\
          attached w1 = unit :: attached w.
Proof.
  intros Hd Hp Hn Ha. pose proof (mdattach_spec k ds grub w path) as H. rewrite Ha in H. destruct H as (_ & H & _).
  unfold inspect_disk_image. rewrite Hd. unfold mbind, C_bind at 1. rewrite Hp. cbn [deref mret C_ret].
  unfold attach_disk. apply Z.eqb_neq in Hn. rewrite Hn, Ha. eexists. split; [reflexivity | done].
Qed.
