(* ===== verification/NvList.v ===== *)
(** * Comparison of the configurations of plugins (src/conf.c 1665-1861, src/bmd.c 1719-1735)

    A plugin keeps its configuration in an [nvlist_t] of libnv.  The record
    [libnv] has the functions of that library that the code calls, on an
    abstract type [NV]; [LibnvLaws] states what is relied on: [nvlist_next] visits
    every entry once, [nvlist_exists_type] knows exactly the entries visited, the
    types are those of <sys/nv.h>, and lists are nested finitely.

    [compare_nvlist] calls itself for nested lists; its fuel is bounded by the
    depth of the first list. *)

From S2P Require Import Prelude CString Vars Conf Global MPool Plugin ParseValue Parser Load.
From Stdlib Require Import Ascii.

Local Open Scope Z_scope.

(** ** libnv *)

(** [nv_next] has the names and the types in the order of [nvlist_next];
    [nv_error] the result of [nvlist_error]. *)
Record libnv (NV : Type) := {
  nv_next : NV -> list (string * Z);
  nv_error : NV -> Z;
  nv_exists_type : NV -> string -> Z -> bool;
  nv_get_bool : NV -> string -> bool;
  nv_get_number : NV -> string -> Z;
  nv_get_string : NV -> string -> string;
  nv_get_nvlist : NV -> string -> NV;
  nv_get_descriptor : NV -> string -> Z;
  nv_get_binary : NV -> string -> string;
  nv_get_bool_array : NV -> string -> list bool;
  nv_get_number_array : NV -> string -> list Z;
  nv_get_string_array : NV -> string -> list string;
  nv_get_nvlist_array : NV -> string -> list NV;
  nv_get_descriptor_array : NV -> string -> list Z;
}.
Arguments nv_next {NV} l _.
Arguments nv_error {NV} l _.
Arguments nv_exists_type {NV} l _ _ _.
Arguments nv_get_bool {NV} l _ _.
Arguments nv_get_number {NV} l _ _.
Arguments nv_get_string {NV} l _ _.
Arguments nv_get_nvlist {NV} l _ _.
Arguments nv_get_descriptor {NV} l _ _.
Arguments nv_get_binary {NV} l _ _.
Arguments nv_get_bool_array {NV} l _ _.
Arguments nv_get_number_array {NV} l _ _.
Arguments nv_get_string_array {NV} l _ _.
Arguments nv_get_nvlist_array {NV} l _ _.
Arguments nv_get_descriptor_array {NV} l _ _.

(** ** The comparison *)

Definition CMP (a b : Z) : Z := if a <? b then -1 else if a =? b then 0 else 1.

Definition memcmp (a b : string) (n : nat) : Z := sign_of (String.compare (take_str n a) (take_str n b)).

(** The loop over the elements that both arrays have, then the sizes. *)
Fixpoint compare_arrays {A} (cmp : A -> A -> C Z) (a b : list A) (sizes : Z) : C Z :=
  match a, b with
  | x :: a', y :: b' =>
      rc ← cmp x y;
      if rc =? 0 then compare_arrays cmp a' b' sizes else mret rc
  | _, _ => mret sizes
  end.

Definition compare_array {A} (cmp : A -> A -> C Z) (a b : list A) : C Z :=
  compare_arrays cmp a b (CMP (Z.of_nat (length a)) (Z.of_nat (length b))).

Section compare.
Context {NV : Type} (nv : libnv NV).

Definition compare_nvlist_null (a : NV) (k : string) (b : NV) : C Z := mret 0.

Definition compare_nvlist_bool (a : NV) (k : string) (b : NV) : C Z :=
  mret (c_bool (nv_get_bool nv a k) - c_bool (nv_get_bool nv b k)).

Definition compare_nvlist_number (a : NV) (k : string) (b : NV) : C Z :=
  mret (CMP (nv_get_number nv a k) (nv_get_number nv b k)).

Definition compare_nvlist_string (a : NV) (k : string) (b : NV) : C Z :=
  mret (strcmp (nv_get_string nv a k) (nv_get_string nv b k)).

Definition compare_nvlist_descriptor (a : NV) (k : string) (b : NV) : C Z :=
  mret (CMP (nv_get_descriptor nv a k) (nv_get_descriptor nv b k)).

Definition compare_nvlist_binary (a : NV) (k : string) (b : NV) : C Z :=
  let da := nv_get_binary nv a k in
  let db := nv_get_binary nv b k in
  let rc := memcmp da db (Nat.min (String.length da) (String.length db)) in
  mret (if rc =? 0 then CMP (Z.of_nat (String.length da)) (Z.of_nat (String.length db)) else rc).

Definition compare_nvlist_bool_array (a : NV) (k : string) (b : NV) : C Z :=
  compare_array (fun x y => mret (CMP (c_bool x) (c_bool y)))
    (nv_get_bool_array nv a k) (nv_get_bool_array nv b k).

Definition compare_nvlist_number_array (a : NV) (k : string) (b : NV) : C Z :=
  compare_array (fun x y => mret (CMP x y)) (nv_get_number_array nv a k) (nv_get_number_array nv b k).

Definition compare_nvlist_string_array (a : NV) (k : string) (b : NV) : C Z :=
  compare_array (fun x y => mret (strcmp x y)) (nv_get_string_array nv a k) (nv_get_string_array nv b k).

Definition compare_nvlist_descriptor_array (a : NV) (k : string) (b : NV) : C Z :=
  compare_array (fun x y => mret (CMP x y)) (nv_get_descriptor_array nv a k) (nv_get_descriptor_array nv b k).

(** The functions for nested lists get the comparison of lists. *)
Definition compare_nvlist_nvlist (rec : NV -> NV -> C Z) (a : NV) (k : string) (b : NV) : C Z :=
  rec (nv_get_nvlist nv a k) (nv_get_nvlist nv b k).

Definition compare_nvlist_nvlist_array (rec : NV -> NV -> C Z) (a : NV) (k : string) (b : NV) : C Z :=
  compare_array rec (nv_get_nvlist_array nv a k) (nv_get_nvlist_array nv b k).

(** The table, by the number of the type. *)
Definition cfuncs (rec : NV -> NV -> C Z) : list (NV -> string -> NV -> C Z) :=
  [compare_nvlist_null; compare_nvlist_null; compare_nvlist_bool; compare_nvlist_number;
   compare_nvlist_string; compare_nvlist_nvlist rec; compare_nvlist_descriptor;
   compare_nvlist_binary; compare_nvlist_bool_array; compare_nvlist_number_array;
   compare_nvlist_string_array; compare_nvlist_nvlist_array rec; compare_nvlist_descriptor_array].

(** The test [t > nitems(cfuncs)] lets the first index behind the table pass. *)
Definition call_cfunc (rec : NV -> NV -> C Z) (t : Z) (a : NV) (k : string) (b : NV) : C Z :=
  if (t <? 0) || (Z.of_nat (length (cfuncs rec)) <? t) then mret 0
  else match cfuncs rec !! Z.to_nat t with
       | Some f => f a k b
       | None => crash WildAccess
       end.

(** The first loop; [rest] is what follows it. *)
Fixpoint compare_entries (rec : NV -> NV -> C Z) (a b : NV) (l : list (string * Z)) (rest : Z) : C Z :=
  match l with
  | [] => mret rest
  | (k, t) :: l' =>
      if negb (nv_exists_type nv b k t) then mret 1
      else
        rc ← call_cfunc rec t a k b;
        if rc =? 0 then compare_entries rec a b l' rest else mret rc
  end.

(** The second loop. *)
Fixpoint only_in (a : NV) (l : list (string * Z)) : Z :=
  match l with
  | [] => 0
  | (k, t) :: l' => if nv_exists_type nv a k t then only_in a l' else -1
  end.

Fixpoint compare_nvlist (fuel : nat) (a b : option NV) : C Z :=
  match fuel with
  | O => crash OutOfFuel
  | S fuel' =>
      match a, b with
      | None, None => mret 0
      | None, Some _ => mret (-1)
      | Some a, _ =>
          if negb (nv_error nv a =? 0) then mret (-1)
          else
            match b with
            | None => mret 1
            | Some b =>
                if negb (nv_error nv b =? 0) then mret 1
                else
                  compare_entries (fun x y => compare_nvlist fuel' (Some x) (Some y)) a b
                    (nv_next nv a) (only_in a (nv_next nv b))
            end
      end
  end.

(** The two lists of plugins side by side, as far as both go;
    [create_plugin_data] leaves no pointer NULL. *)
Fixpoint compare_pl_data (fuel : nat) (pa pb : list (plugin_data NV)) : C Z :=
  match pa, pb with
  | x :: pa', y :: pb' =>
      rc ← compare_nvlist fuel (Some (pd_conf x)) (Some (pd_conf y));
      if rc =? 0 then compare_pl_data fuel pa' pb' else mret rc
  | _, _ => mret 0
  end.

Definition compare_vm_conf_entry (fuel : nat) (a b : vm_conf_entry NV) : C Z :=
  rc ← compare_vm_conf (ce_conf a) (ce_conf b);
  if rc =? 0 then compare_pl_data fuel (ce_pl_data a) (ce_pl_data b) else mret rc.

End compare.

(** ** What the library promises *)

(** The value of an entry, by its type. *)
Inductive nv_value (NV : Type) :=
  | VNone
  | VBool (b : bool)
  | VNumber (n : Z)
  | VString (s : string)
  | VNvlist (a : NV)
  | VDescriptor (fd : Z)
  | VBinary (s : string)
  | VBools (l : list bool)
  | VNumbers (l : list Z)
  | VStrings (l : list string)
  | VNvlists (l : list NV)
  | VDescriptors (l : list Z).
Arguments VNone {NV}.
Arguments VBool {NV} b.
Arguments VNumber {NV} n.
Arguments VString {NV} s.
Arguments VNvlist {NV} a.
Arguments VDescriptor {NV} fd.
Arguments VBinary {NV} s.
Arguments VBools {NV} l.
Arguments VNumbers {NV} l.
Arguments VStrings {NV} l.
Arguments VNvlists {NV} l.
Arguments VDescriptors {NV} l.

Section spec.
Context {NV : Type} (nv : libnv NV).

Definition nv_value_at (a : NV) (k : string) (t : Z) : nv_value NV :=
  match t with
  | 2 => VBool (nv_get_bool nv a k)
  | 3 => VNumber (nv_get_number nv a k)
  | 4 => VString (nv_get_string nv a k)
  | 5 => VNvlist (nv_get_nvlist nv a k)
  | 6 => VDescriptor (nv_get_descriptor nv a k)
  | 7 => VBinary (nv_get_binary nv a k)
  | 8 => VBools (nv_get_bool_array nv a k)
  | 9 => VNumbers (nv_get_number_array nv a k)
  | 10 => VStrings (nv_get_string_array nv a k)
  | 11 => VNvlists (nv_get_nvlist_array nv a k)
  | 12 => VDescriptors (nv_get_descriptor_array nv a k)
  | _ => VNone
  end.

(** The lists inside of a value. *)
Definition children (v : nv_value NV) : list NV :=
  match v with
  | VNvlist x => [x]
  | VNvlists l => l
  | _ => []
  end.

(** [nv_depth] bounds the nesting. *)
Class LibnvLaws := {
  nv_depth : NV -> nat;
  exists_law a k t : nv_exists_type nv a k t = true <-> In (k, t) (nv_next nv a);
  types_law a k t : In (k, t) (nv_next nv a) -> 0 <= t <= 12;
  depth_law a k t x :
    In (k, t) (nv_next nv a) -> In x (children (nv_value_at a k t)) -> (nv_depth x < nv_depth a)%nat;
  error_law a : nv_error nv a = 0 ->
    forall k t x, In (k, t) (nv_next nv a) -> In x (children (nv_value_at a k t)) -> nv_error nv x = 0;
}.

(** Values are equal, lists inside of them up to [R]. *)
Definition value_equiv (R : NV -> NV -> Prop) (v w : nv_value NV) : Prop :=
  match v, w with
  | VNvlist x, VNvlist y => R x y
  | VNvlists l, VNvlists m => Forall2 R l m
  | _, _ => v = w
  end.

(** Two lists have the same entries, in any order, nested at most [n] deep. *)
Fixpoint nv_equiv (n : nat) (a b : NV) : Prop :=
  match n with
  | O => False
  | S n' =>
      (forall k t, In (k, t) (nv_next nv a) <-> In (k, t) (nv_next nv b)) /\
      (forall k t, In (k, t) (nv_next nv a) ->
         value_equiv (nv_equiv n') (nv_value_at a k t) (nv_value_at b k t))
  end.

(** *** Comparisons of values *)

Lemma CMP_eq0 a b : CMP a b = 0 <-> a = b.
Proof. unfold CMP. destruct (Z.ltb_spec a b), (Z.eqb_spec a b); split; intros; try done; lia. Qed.

Lemma c_bool_inj a b : c_bool a = c_bool b <-> a = b.
Proof. by destruct a, b. Qed.

Lemma binary_eq0 (a b : string) :
  (let rc := memcmp a b (Nat.min (String.length a) (String.length b)) in
   if rc =? 0 then CMP (Z.of_nat (String.length a)) (Z.of_nat (String.length b)) else rc) = 0 <-> a = b.
Proof.
  cbn zeta. unfold memcmp. fold (strcmp (take_str (Nat.min (String.length a) (String.length b)) a)
    (take_str (Nat.min (String.length a) (String.length b)) b)).
  set (n := Nat.min _ _). destruct (Z.eqb_spec (strcmp (take_str n a) (take_str n b)) 0) as [E | E].
  - apply strcmp_eq0 in E. rewrite CMP_eq0. split; [| by intros ->]. intros Hl.
    assert (n = String.length a /\ n = String.length b) as [H1 H2] by (unfold n; lia).
    rewrite H1 in E at 1. rewrite H2 in E. rewrite !take_str_all in E by lia. exact E.
  - split; [done |]. intros ->. by rewrite strcmp_refl in E.
Qed.

Lemma compare_arrays_spec {A} (cmp : A -> A -> C Z) (R : A -> A -> Prop) a b sizes :
  (forall x y, In x a -> In y b -> decides (cmp x y) (R x y)) ->
  (sizes = 0 <-> length a = length b) ->
  decides (compare_arrays cmp a b sizes) (Forall2 R a b).
Proof.
  revert b. induction a as [| x a IH]; intros [| y b] Hc Hs; cbn [compare_arrays length] in *.
  - apply decides_ret. split; [by constructor | by intros _; apply Hs].
  - apply decides_ret. rewrite Hs. split; [done |]. by inversion 1.
  - apply decides_ret. rewrite Hs. split; [done |]. by inversion 1.
  - eapply decides_iff; [| apply decides_then; [apply Hc; by left | intros _; apply IH]].
    + split; [intros [H1 H2]; by constructor | by inversion 1].
    + intros x' y' Hx Hy. apply Hc; by right.
    + rewrite Hs. lia.
Qed.

Lemma compare_array_spec {A} (cmp : A -> A -> C Z) (R : A -> A -> Prop) a b :
  (forall x y, In x a -> In y b -> decides (cmp x y) (R x y)) ->
  decides (compare_array cmp a b) (Forall2 R a b).
Proof. intros H. apply compare_arrays_spec; [done |]. rewrite CMP_eq0. lia. Qed.

Lemma Forall2_eq {A} (a b : list A) : Forall2 eq a b <-> a = b.
Proof. split; [by induction 1; subst | intros ->; by induction b; constructor]. Qed.

Lemma compare_plain_array {A} (f : A -> A -> Z) (a b : list A) :
  (forall x y, f x y = 0 <-> x = y) -> decides (compare_array (fun x y => mret (f x y)) a b) (a = b).
Proof.
  intros H. eapply decides_iff; [apply Forall2_eq |]. apply compare_array_spec.
  intros x y _ _. apply decides_ret, H.
Qed.

Lemma call_cfunc_spec (rec : NV -> NV -> C Z) (R : NV -> NV -> Prop) t a k b :
  0 <= t <= 12 ->
  (forall x y, In x (children (nv_value_at a k t)) -> In y (children (nv_value_at b k t)) -> decides (rec x y) (R x y)) ->
  decides (call_cfunc nv rec t a k b) (value_equiv R (nv_value_at a k t) (nv_value_at b k t)).
Proof.
  intros Ht Hrec.
  assert (H : t = 0 \/ t = 1 \/ t = 2 \/ t = 3 \/ t = 4 \/ t = 5 \/ t = 6 \/ t = 7 \/ t = 8 \/ t = 9 \/ t = 10 \/
              t = 11 \/ t = 12) by lia. clear Ht.
  destruct_or! H; subst t;
    match goal with |- decides (call_cfunc _ _ ?t _ _ _) _ =>
      let f := eval hnf in (cfuncs nv rec !! Z.to_nat t) in
      match f with Some ?g => change (decides (g a k b) (value_equiv R (nv_value_at a k t) (nv_value_at b k t))) end end;
    cbn [nv_value_at value_equiv children] in *.
  - by apply decides_ret.
  - by apply decides_ret.
  - apply decides_ret. split; [| intros [= ->]; lia]. intros H. f_equal. apply c_bool_inj. lia.
  - apply decides_ret. rewrite CMP_eq0. by split; [intros -> | intros [= ->]].
  - apply decides_ret. rewrite strcmp_eq0. by split; [intros -> | intros [= ->]].
  - apply Hrec; by left.
  - apply decides_ret. rewrite CMP_eq0. by split; [intros -> | intros [= ->]].
  - apply decides_ret. rewrite binary_eq0. by split; [intros -> | intros [= ->]].
  - eapply decides_iff; [| apply compare_plain_array]; [by split; [intros -> | intros [= ->]] |].
    intros x y. by rewrite CMP_eq0, c_bool_inj.
  - eapply decides_iff; [| apply compare_plain_array, CMP_eq0]. by split; [intros -> | intros [= ->]].
  - eapply decides_iff; [| apply compare_plain_array, strcmp_eq0]. by split; [intros -> | intros [= ->]].
  - by apply compare_array_spec.
  - eapply decides_iff; [| apply compare_plain_array, CMP_eq0]. by split; [intros -> | intros [= ->]].
Qed.

(** *** Comparison of lists *)

Context {Hnv : LibnvLaws}.

Lemma only_in_eq0 a l : only_in nv a l = 0 <-> forall k t, In (k, t) l -> In (k, t) (nv_next nv a).
Proof.
  induction l as [| [k t] l IH]; cbn [only_in]; [by split |].
  destruct (nv_exists_type nv a k t) eqn:E.
  - rewrite IH. apply exists_law in E. split; intros H k' t'; [| intros Hi; apply H; by right].
    intros [[= <- <-] | Hi]; auto.
  - split; [done |]. intros H. assert (nv_exists_type nv a k t = true); [| congruence].
    apply exists_law, H. by left.
Qed.

Lemma compare_entries_spec (rec : NV -> NV -> C Z) (R : NV -> NV -> Prop) a b rest l :
  (forall k t, In (k, t) l -> In (k, t) (nv_next nv a)) ->
  (forall k t x y, In (k, t) l -> In (k, t) (nv_next nv b) -> In x (children (nv_value_at a k t)) ->
     In y (children (nv_value_at b k t)) -> decides (rec x y) (R x y)) ->
  decides (compare_entries nv rec a b l rest)
    ((forall k t, In (k, t) l -> In (k, t) (nv_next nv b) /\ value_equiv R (nv_value_at a k t) (nv_value_at b k t))
     /\ rest = 0).
Proof.
  induction l as [| [k t] l IH]; intros Ha Hrec; cbn [compare_entries]; [apply decides_ret; by split; [| intros []] |].
  destruct (nv_exists_type nv b k t) eqn:E; cbn [negb].
  - apply exists_law in E. eapply decides_iff; [| apply decides_then; [apply (call_cfunc_spec rec R) | intros _; apply IH]].
    + split.
      * intros (H1 & H2 & H3). split; [| done]. intros k' t' [[= <- <-] | Hi]; [by split | by apply H2].
      * intros [H1 H2]. split; [apply (H1 k t); by left |]. split; [| done]. intros k' t' Hi. apply H1. by right.
    + apply (types_law a k). apply Ha. by left.
    + intros x y Hx Hy. apply (Hrec k t); [by left | done..].
    + intros k' t' Hi. apply Ha. by right.
    + intros k' t' x y Hi. apply Hrec. by right.
  - apply decides_ret. split; [done |]. intros [H _]. destruct (H k t) as [H1 _]; [by left |].
    apply exists_law in H1. congruence.
Qed.

Lemma compare_nvlist_spec n : forall a b,
  (nv_depth a < n)%nat -> nv_error nv a = 0 -> nv_error nv b = 0 ->
  decides (compare_nvlist nv n (Some a) (Some b)) (nv_equiv n a b).
Proof.
  induction n as [| n IH]; intros a b Hd Ea Eb; [lia |]. cbn [compare_nvlist nv_equiv]. rewrite Ea, Eb. cbn [Z.eqb negb].
  eapply decides_iff; [| apply (compare_entries_spec _ (nv_equiv n))].
  - rewrite only_in_eq0. split.
    + intros [H1 H2]. split; [| intros k t Hi; by apply H1]. intros k t. split; [intros Hi; by apply H1 | apply H2].
    + intros [H1 H2]. split; [| intros k t; apply H1]. intros k t Hi. split; [by apply H1 | by apply H2].
  - done.
  - intros k t x y Hi Hj Hx Hy. apply IH.
    + pose proof (depth_law a k t x Hi Hx). lia.
    + by apply (error_law a Ea k t).
    + by apply (error_law b Eb k t).
Qed.

(** The comparison of plugin configurations ends and answers 0 exactly when
    the two lists have the same names, types and values, in whatever order,
    lists inside of them included, once the fuel exceeds the depth of the first list;
    the index into the table of functions stays inside of it. *)
Theorem compare_nvlist_eq0 n a b :
  (nv_depth a < n)%nat -> nv_error nv a = 0 -> nv_error nv b = 0 ->
  exists rc, (forall o, compare_nvlist nv n (Some a) (Some b) o = Done rc o) /\ (rc = 0 <-> nv_equiv n a b).
Proof. apply compare_nvlist_spec. Qed.

Lemma compare_pl_data_spec n pa : forall pb,
  Forall (fun p => (nv_depth (pd_conf p) < n)%nat /\ nv_error nv (pd_conf p) = 0) pa ->
  Forall (fun p => nv_error nv (pd_conf p) = 0) pb -> length pa = length pb ->
  decides (compare_pl_data nv n pa pb) (Forall2 (fun p q => nv_equiv n (pd_conf p) (pd_conf q)) pa pb).
Proof.
  induction pa as [| p pa IH]; intros [| q pb] Ha Hb Hl; cbn in Hl; try lia; cbn [compare_pl_data].
  { apply decides_ret. split; [by constructor | done]. }
  apply Forall_cons in Ha as [[Hd He] Ha]. apply Forall_cons in Hb as [Hq Hb].
  eapply decides_iff; [| apply decides_then; [by apply compare_nvlist_spec | intros _; apply IH; [done | done | lia]]].
  split; [intros [H1 H2]; by constructor | by inversion 1].
Qed.

(** [C27] The test that decides whether a reload changed a VM: for entries with
    the same number of plugins, as [create_plugin_data] makes them, it answers 0
    exactly when the configurations agree on everything that is compared and
    each plugin's own configuration is the same.  The one exception are two numbers whose difference does
    not fit into an [int] ([comparable], which holds when the numbers are at least -1, the mark of an option that is not set, and less than the largest [int]): there the answer is the exact one, when an earlier difference decided, or the subtraction overflows. *)
Theorem compare_vm_conf_entry_eq0 n (a b : vm_conf_entry NV) :
  conf_ranges (ce_conf a) -> conf_ranges (ce_conf b) ->
  Forall (fun p => (nv_depth (pd_conf p) < n)%nat /\ nv_error nv (pd_conf p) = 0) (ce_pl_data a) ->
  Forall (fun p => nv_error nv (pd_conf p) = 0) (ce_pl_data b) ->
  length (ce_pl_data a) = length (ce_pl_data b) ->
  (~ comparable (ce_conf a) (ce_conf b) /\ (forall o, compare_vm_conf_entry nv n a b o = Crash SignedOverflow)) \/
  exists rc, (forall o, compare_vm_conf_entry nv n a b o = Done rc o) /\
    (rc = 0 <-> view (ce_conf a) = view (ce_conf b) /\
                Forall2 (fun p q => nv_equiv n (pd_conf p) (pd_conf q)) (ce_pl_data a) (ce_pl_data b)).
Proof.
  intros Ra Rb Ha Hb Hl. apply (decides_or_then _ _ _ _ _ (compare_vm_conf_spec _ _ Ra Rb)).
  intros _. right. by apply compare_pl_data_spec.
Qed.

End spec.

(** ** Concrete lists *)

(** Flat and nested lists of booleans, strings and lists. *)
#[warnings="-register-all"] Inductive nvt := Nvt (bools : list (string * bool)) (strs : list (string * string)) (subs : list (string * nvt)).

Definition assoc {A} (d : A) (k : string) (l : list (string * A)) : A :=
  match list_find (fun p => p.1 = k) l with Some (_, (_, x)) => x | None => d end.

Definition nvt_next (a : nvt) : list (string * Z) :=
  match a with Nvt bs ss ns =>
    ((fun p => (p.1, 2)) <$> bs) ++ ((fun p => (p.1, 4)) <$> ss) ++ ((fun p => (p.1, 5)) <$> ns) end.

Fixpoint nvt_depth (a : nvt) : nat :=
  match a with Nvt _ _ ns => S (foldr (fun p n => Nat.max (nvt_depth p.2) n) O ns) end.

Definition nvt_empty : nvt := Nvt [] [] [].

Definition demo_nv : libnv nvt := {|
  nv_next := nvt_next;
  nv_error := fun _ => 0;
  nv_exists_type := fun a k t => bool_decide ((k, t) ∈ nvt_next a);
  nv_get_bool := fun a k => match a with Nvt bs _ _ => assoc false k bs end;
  nv_get_number := fun _ _ => 0;
  nv_get_string := fun a k => match a with Nvt _ ss _ => assoc EmptyString k ss end;
  nv_get_nvlist := fun a k => match a with Nvt _ _ ns => assoc nvt_empty k ns end;
  nv_get_descriptor := fun _ _ => 0;
  nv_get_binary := fun _ _ => EmptyString;
  nv_get_bool_array := fun _ _ => [];
  nv_get_number_array := fun _ _ => [];
  nv_get_string_array := fun _ _ => [];
  nv_get_nvlist_array := fun _ _ => [];
  nv_get_descriptor_array := fun _ _ => [];
|}.

Lemma assoc_in {A} (d : A) k (l : list (string * A)) : In k (fst <$> l) -> In (k, assoc d k l) l.
Proof.
  induction l as [| [k' x] l IH]; [done |]. unfold assoc. cbn. destruct (decide (k' = k)) as [-> | N]; [by left |].
  intros [? | H]; [done |]. right. specialize (IH H). unfold assoc in IH. destruct (list_find _ l) as [[? [? ?]] |]; done.
Qed.

Lemma nvt_depth_sub k x ns (bs : list (string * bool)) (ss : list (string * string)) :
  In (k, x) ns -> (nvt_depth x < nvt_depth (Nvt bs ss ns))%nat.
Proof.
  cbn [nvt_depth]. induction ns as [| [k' y] ns IH]; [done |]. cbn [foldr].
  intros [[= -> ->] | H]; [cbn; lia |]. specialize (IH H). lia.
Qed.

Lemma nvt_next_sub bs ss ns k : In (k, 5) (nvt_next (Nvt bs ss ns)) -> In k (fst <$> ns).
Proof.
  cbn [nvt_next]. rewrite !in_app_iff, <- !list_elem_of_In, !list_elem_of_fmap.
  intros [(p & [= _ ?] & _) | [(p & [= _ ?] & _) | (p & [= -> ] & H)]]. eauto.
Qed.

#[export] Instance demo_nv_laws : LibnvLaws demo_nv.
Proof.
  refine {| nv_depth := nvt_depth : nvt -> nat |}.
  - intros a k t. cbn. rewrite bool_decide_eq_true, <- list_elem_of_In. done.
  - intros [bs ss ns] k t. cbn [nv_next demo_nv nvt_next]. rewrite !in_app_iff, <- !list_elem_of_In, !list_elem_of_fmap.
    intros [(p & [= _ ->] & _) | [(p & [= _ ->] & _) | (p & [= _ ->] & _)]]; lia.
  - intros [bs ss ns] k t x Hi Hx.
    destruct (decide (t = 5)) as [-> | N].
    + destruct Hx as [<- | []]. apply (nvt_depth_sub k), assoc_in, (nvt_next_sub bs ss), Hi.
    + exfalso. revert Hx. unfold nv_value_at. repeat case_match; cbn; try done.
  - done.
Defined.

Definition nv_of (s : string) : nvt := Nvt [("on", true)] [("path", s)] [("sub", Nvt [] [("x", "1")] [])].

Definition nv_swapped (s : string) : nvt := Nvt [("on", true)] [("path", s)] [("sub", Nvt [] [("x", "2")] [])].

(** A value deep inside differs. *)
Lemma compare_nvlist_eq0_witness :
  exists rc, (forall o, compare_nvlist demo_nv 3 (Some (nv_of "/a")) (Some (nv_swapped "/a")) o = Done rc o) /\
        (rc = 0 <-> nv_equiv demo_nv 3 (nv_of "/a") (nv_swapped "/a")).
Proof. apply (compare_nvlist_eq0 demo_nv (Hnv := demo_nv_laws)); [cbn; lia | done | done]. Defined.

Example compare_nvlist_deep :
  runs (compare_nvlist demo_nv 3 (Some (nv_of "/a")) (Some (nv_of "/a"))) 0 /\
  runs (compare_nvlist demo_nv 3 (Some (nv_of "/a")) (Some (nv_swapped "/a"))) (-1).
Proof. split; reflexivity. Qed.

Definition demo_desc : plugin_desc nvt :=
  {| pl_version := 11; pl_name := "demo"; pl_initialize := None; pl_parse_config := None; pl_method := None |}.

Definition nv_entry (s : string) : vm_conf_entry nvt :=
  {| ce_conf := default_conf "vm0" 1; ce_pl_data := [{| pd_desc := demo_desc; pd_conf := nv_of s |}] |}.

Lemma compare_vm_conf_entry_eq0_witness :
  exists rc, (forall o, compare_vm_conf_entry demo_nv 3 (nv_entry "/a") (nv_entry "/b") o = Done rc o) /\
    (rc = 0 <-> view (ce_conf (nv_entry "/a")) = view (ce_conf (nv_entry "/b")) /\
                Forall2 (fun p q => nv_equiv demo_nv 3 (pd_conf p) (pd_conf q))
                  (ce_pl_data (nv_entry "/a")) (ce_pl_data (nv_entry "/b"))).
Proof.
  assert (Hc : comparable (ce_conf (nv_entry "/a")) (ce_conf (nv_entry "/b"))).
  { apply comparable_usual; [apply default_conf_ranges | apply default_conf_ranges | |];
      unfold INT_MAX; cbn -[Z.pow]; unfold fbuf_ints; cbn -[Z.pow]; repeat (apply Forall_cons; split; [cbn -[Z.pow]; lia |]); constructor. }
  destruct (compare_vm_conf_entry_eq0 demo_nv (Hnv := demo_nv_laws) 3 (nv_entry "/a") (nv_entry "/b")) as [[H _] | H];
    [apply default_conf_ranges | apply default_conf_ranges | repeat constructor; cbn; lia | repeat constructor | done | by destruct H | exact H].
Defined.
