(* ===== verification/SockBuf.v ===== *)
(** * Socket buffers of the control protocol (src/server.c 28-272, 404-430, 480-498, src/bmd.h 113-132)

    A message between bmdctl and the daemon is a 4-byte length in network byte
    order followed by that many bytes.  The sockets do not block: every call
    moves as many bytes as the kernel is ready to, and the state of the message
    stays in a [struct sock_buf].

    What [recv] and [sendmsg] answer is an argument; EINTR repeats the call and
    is not visible here.  [time] is the argument [now].  Sizes are [size_t],
    integers that the operations keep small. *)

From S2P Require Import Prelude CString Vars Conf.
From Stdlib Require Import Ascii.

Local Open Scope Z_scope.

(** ** Data *)

(** The credentials of the peer; [cr_ngroups] is the length of the list. *)
Record xucred := { cr_uid : Z; cr_groups : list Z }.

(** [b_buf] is memory from [malloc]: a byte that was not written is [None]. *)
Record sock_buf := {
  b_fd : Z;
  b_read_state : Z;
  b_buf_size : Z;
  b_size : list ascii;
  b_read_size : Z;
  b_read_bytes : Z;
  b_buf : option (list (option ascii));
  b_sent_size : Z;
  b_res_fd : Z;
  b_res_size : Z;
  b_res_bytes : Z;
  b_res_buf : list ascii;
  b_event_time : Z;
  b_peer : xucred;
}.

#[export] Instance eta_sock_buf : Eta sock_buf := fun b => {|
  b_fd := b_fd b; b_read_state := b_read_state b; b_buf_size := b_buf_size b;
  b_size := b_size b; b_read_size := b_read_size b; b_read_bytes := b_read_bytes b;
  b_buf := b_buf b; b_sent_size := b_sent_size b; b_res_fd := b_res_fd b;
  b_res_size := b_res_size b; b_res_bytes := b_res_bytes b; b_res_buf := b_res_buf b;
  b_event_time := b_event_time b; b_peer := b_peer b |}.

Definition SERVER_UID_NOBODY : Z := 65534.

(** ** Creation and clearing *)

(** [cred] is the answer of [getsockopt(LOCAL_PEERCRED)]; the list is
    [sock_list], with the new buffer in front. *)
Definition create_sock_buf (sock_list : list sock_buf) (fd now : Z) (cred : option xucred)
    : C (option sock_buf * list sock_buf) :=
  ok ← malloc;
  if (ok : bool) then
    let r := {| b_fd := fd; b_read_state := 0; b_buf_size := 0; b_size := replicate 4 NUL;
                b_read_size := 0; b_read_bytes := 0; b_buf := None; b_sent_size := 0;
                b_res_fd := -1; b_res_size := 0; b_res_bytes := 0; b_res_buf := [];
                b_event_time := now;
                b_peer := match cred with
                          | Some c => c
                          | None => {| cr_uid := SERVER_UID_NOBODY; cr_groups := [] |}
                          end |} in
    mret (Some r, r :: sock_list)
  else mret (None, sock_list).

Definition clear_sock_buf (p : sock_buf) : sock_buf := p
  <| b_buf := None |> <| b_read_state := 0 |> <| b_buf_size := 0 |>
  <| b_read_size := 0 |> <| b_read_bytes := 0 |>.

Definition clear_send_sock_buf (p : sock_buf) : sock_buf := p
  <| b_sent_size := 0 |> <| b_res_fd := -1 |> <| b_res_buf := [] |>
  <| b_res_size := 0 |> <| b_res_bytes := 0 |>.

(** ** Timeouts *)

(** The earliest [event_time]. *)
Definition earliest (s : Z) (l : list sock_buf) : Z :=
  foldl (fun s p => if b_event_time p <? s then b_event_time p else s) s l.

(** [None] is NULL, for [kevent] an unlimited wait. *)
Definition calc_timeout (sock_list : list sock_buf) (timeout now : Z) : option Z :=
  match sock_list with
  | [] => None
  | p :: _ =>
      let t := earliest (b_event_time p) sock_list + timeout - now in
      if t <? 0 then None else Some t
  end.

(** The buffers that are left; the others are destroyed. *)
Definition close_timeout_sock_buf (sock_list : list sock_buf) (timeout now : Z) : list sock_buf :=
  List.filter (fun p => negb (b_event_time p + timeout <=? now)) sock_list.

(** ** Receiving *)

Inductive recv_event := RBytes (l : list ascii) | REof | RAgain | RError.

(** [memcpy(&arr[off], l)]. *)
Definition write_at {A} (off : Z) (l : list A) (arr : list A) : list A :=
  take (Z.to_nat off) arr ++ l ++ drop (Z.to_nat off + length l) arr.

(** [ntohl] of four bytes, as an unsigned number. *)
Definition ntohl (b : list ascii) : Z := foldl (fun n c => n * 256 + byte_of c) 0 b.

(** [nread] and [size] of the call. *)
Definition recv_window (sb : sock_buf) : Z * Z :=
  if b_read_state sb =? 0 then (b_read_size sb, 4) else (b_read_bytes sb, b_buf_size sb).

Definition MAX_MESSAGE : Z := 1024 * 1024.

(** -1 error, 0 closed, 1 continue, 2 finished. *)
Definition recv_sock_buf (now : Z) (sb : sock_buf) (ev : recv_event) : C (Z * sock_buf) :=
  let '(nread, size) := recv_window sb in
  match ev with
  | RAgain => mret (1, sb)
  | RError => mret (-1, sb)
  | REof => mret (0, sb)
  | RBytes l =>
      if size =? nread then mret (-1, sb)
      else
        let n := Z.of_nat (length l) in
        if b_read_state sb =? 0 then
          let sb := sb <| b_size := write_at nread l (b_size sb) |> <| b_event_time := now |>
                       <| b_read_size := nread + n |> in
          if nread + n =? size then
            let sb := sb <| b_read_state := 1 |> <| b_buf_size := ntohl (b_size sb) |> in
            if MAX_MESSAGE <? b_buf_size sb then mret (-1, sb)
            else
              ok ← malloc;
              if (ok : bool) then
                mret (1, sb <| b_buf := Some (replicate (Z.to_nat (b_buf_size sb)) None) |>)
              else mret (-1, sb <| b_buf := None |>)
          else mret (1, sb)
        else
          match b_buf sb with
          | None => mret (-1, sb)
          | Some buf =>
              let sb := sb <| b_buf := Some (write_at nread (Some <$> l) buf) |>
                           <| b_event_time := now |> <| b_read_bytes := nread + n |> in
              mret (if nread + n =? size then 2 else 1, sb)
          end
  end.

(** ** Sending *)

Inductive send_event := SSent (n : Z) | SAgain | SError.

(** [htonl] of a [size_t] stored to an [int]. *)
Definition htonl (z : Z) : list ascii :=
  let b k := ascii_of_N (Z.to_N (Z.land (Z.shiftr (wrap_u 32 z) k) 255)) in
  [b 24; b 16; b 8; b 0].

(** The bytes of the two or one parts of the message that is sent. *)
Definition send_iov (p : sock_buf) : list ascii :=
  if b_sent_size p <? 4 then drop (Z.to_nat (b_sent_size p)) (htonl (b_res_size p)) ++ b_res_buf p
  else drop (Z.to_nat (b_sent_size p - 4)) (b_res_buf p).

(** The result, the buffer, the bytes that went out and whether the descriptor
    went with them. *)
Definition send_sock_buf (now : Z) (p : sock_buf) (ev : send_event)
    : C (Z * sock_buf * list ascii * option Z) :=
  if (b_res_size p =? 0) || (b_sent_size p =? b_res_size p + 4) then mret (2, p, [], None)
  else
    let iov := send_iov p in
    ctl ← (if b_res_fd p =? -1 then mret true else malloc);
    if negb ctl then mret (-1, p, [], None)
    else
      let fd := if b_res_fd p =? -1 then None else Some (b_res_fd p) in
      let ret rc p out fd := mret (rc, p <| b_res_fd := -1 |>, out, fd) in
      match ev with
      | SAgain => ret 1 p [] None
      | SError => ret (-1) p [] None
      | SSent n =>
          if n =? 0 then ret 0 p [] None
          else
            let p := p <| b_event_time := now |> <| b_sent_size := b_sent_size p + n |> in
            ret (if b_sent_size p =? b_res_bytes p + 4 then 2 else 1) p
                (take (Z.to_nat n) iov) fd
      end.

(** ** Access control and the console *)

(** 0 when the peer may control the VM. *)
Definition check_owner (conf : vm_conf) (ucred : xucred) : Z :=
  if (cr_uid ucred =? 0) || (cr_uid ucred =? to_uint (vc_owner conf)) then 0
  else if vc_group conf =? -1 then -1
  else if existsb (fun g => g =? to_uint (vc_group conf)) (cr_groups ucred) then 0 else -1.

(** [s] with its character number [i] replaced. *)
Fixpoint set_char (s : string) (i : nat) (c : ascii) : string :=
  match s, i with
  | EmptyString, _ => EmptyString
  | String _ s', O => String c s'
  | String d s', S i' => String d (set_char s' i' c)
  end.

Definition get_peer_comport (comport : option string) : C (option string) :=
  match comport with
  | None => mret None
  | Some comport =>
      let i := Z.of_nat (String.length comport) - 1 in
      if i <? 10 then mret None
      else
        peer ← strdup comport;
        match peer with
        | None => mret None
        | Some peer =>
            let c := char_at peer (Z.to_nat i) in
            mret (Some (if Ascii.eqb c "A" then set_char peer (Z.to_nat i) "B"
                        else if Ascii.eqb c "B" then set_char peer (Z.to_nat i) "A"
                        else peer))
        end
  end.

(** ** Specification of the protocol *)

(** A message on the wire. *)
Definition wire (m : list ascii) : list ascii := htonl (Z.of_nat (length m)) ++ m.

(** The bytes of the current message that have arrived. *)
Definition got (sb : sock_buf) : list ascii :=
  if b_read_state sb =? 0 then take (Z.to_nat (b_read_size sb)) (b_size sb)
  else b_size sb ++ match b_buf sb with
                    | Some buf => omap id (take (Z.to_nat (b_read_bytes sb)) buf)
                    | None => []
                    end.

Definition recv_wf (sb : sock_buf) : Prop :=
  length (b_size sb) = 4%nat /\
  ((b_read_state sb = 0 /\ 0 <= b_read_size sb < 4 /\ b_read_bytes sb = 0) \/
   (b_read_state sb = 1 /\ 0 <= b_read_bytes sb <= b_buf_size sb /\
    b_buf_size sb = ntohl (b_size sb) /\ b_buf_size sb <= MAX_MESSAGE /\
    exists buf, b_buf sb = Some buf /\ length buf = Z.to_nat (b_buf_size sb) /\
           Forall is_Some (take (Z.to_nat (b_read_bytes sb)) buf))).

(** What the kernel may deliver: at least one byte, at most what was asked for. *)
Definition recv_ok (sb : sock_buf) (ev : recv_event) : Prop :=
  match ev with
  | RBytes l => let '(nread, size) := recv_window sb in 1 <= Z.of_nat (length l) <= size - nread
  | _ => True
  end.

Definition bytes_of (ev : recv_event) : list ascii :=
  match ev with RBytes l => l | _ => [] end.

(** The calls of an event loop until the message is finished or fails. *)
Fixpoint recv_loop (now : Z) (sb : sock_buf) (evs : list recv_event) : C (Z * sock_buf) :=
  match evs with
  | [] => mret (1, sb)
  | ev :: evs' =>
      '(rc, sb) ← recv_sock_buf now sb ev;
      if rc =? 1 then recv_loop now sb evs' else mret (rc, sb)
  end.

Fixpoint recvs_ok (now : Z) (sb : sock_buf) (evs : list recv_event) : Prop :=
  match evs with
  | [] => True
  | ev :: evs' =>
      recv_ok sb ev /\ ev <> REof /\ ev <> RError /\
      forall rc sb', runs (recv_sock_buf now sb ev) (rc, sb') -> rc = 1 -> recvs_ok now sb' evs'
  end.

(** ** Byte order *)

Lemma byte_of_range c : 0 <= byte_of c < 256.
Proof. unfold byte_of. pose proof (N_ascii_bounded c). lia. Qed.

Lemma byte_of_land n : 0 <= n -> byte_of (ascii_of_N (Z.to_N (Z.land n 255))) = Z.land n 255.
Proof.
  intros Hn. unfold byte_of. change 255 with (Z.ones 8). rewrite Z.land_ones by lia.
  pose proof (Z.mod_pos_bound n (2 ^ 8) ltac:(lia)). rewrite N_ascii_embedding by lia. lia.
Qed.

Lemma ntohl_htonl z : 0 <= z < 2 ^ 32 -> ntohl (htonl z) = z.
Proof.
  intros Hz. unfold ntohl, htonl. cbn [foldl]. unfold wrap_u. rewrite Z.mod_small by lia.
  rewrite !byte_of_land by (apply Z.shiftr_nonneg; lia).
  change 255 with (Z.ones 8). rewrite !Z.land_ones, !Z.shiftr_div_pow2 by lia.
  change (2 ^ 24) with 16777216. change (2 ^ 16) with 65536. change (2 ^ 8) with 256.
  change (2 ^ 0) with 1. rewrite Z.div_1_r. change (2 ^ 32) with 4294967296 in Hz.
  assert (z / 65536 = z / 256 / 256) as -> by (rewrite Z.div_div by lia; reflexivity).
  assert (z / 16777216 = z / 256 / 256 / 256) as -> by (rewrite !Z.div_div by lia; reflexivity).
  set (a := z / 256). set (b := a / 256). set (c := b / 256).
  pose proof (Z.div_mod z 256 ltac:(lia)) as E0. pose proof (Z.div_mod a 256 ltac:(lia)) as E1.
  pose proof (Z.div_mod b 256 ltac:(lia)) as E2. fold a in E0. fold b in E1. fold c in E2.
  assert (0 <= c < 256).
  { unfold c, b, a. rewrite !Z.div_div by lia. split; [apply Z.div_pos; lia |].
    apply Z.div_lt_upper_bound; lia. }
  rewrite (Z.mod_small c 256) by lia. lia.
Qed.

Lemma ntohl_range b : length b = 4%nat -> 0 <= ntohl b < 2 ^ 32.
Proof.
  destruct b as [| b0 [| b1 [| b2 [| b3 [|]]]]]; try done. intros _. unfold ntohl. cbn [foldl].
  pose proof (byte_of_range b0). pose proof (byte_of_range b1). pose proof (byte_of_range b2).
  pose proof (byte_of_range b3). lia.
Qed.

Lemma length_wire m : length (wire m) = (4 + length m)%nat.
Proof. reflexivity. Qed.

(** ** Receiving *)

Lemma write_at_take {A} off (l arr : list A) :
  0 <= off -> (Z.to_nat off + length l <= length arr)%nat ->
  take (Z.to_nat (off + Z.of_nat (length l))) (write_at off l arr) = take (Z.to_nat off) arr ++ l /\
  length (write_at off l arr) = length arr.
Proof.
  intros H0 H1. unfold write_at. split.
  - rewrite app_assoc. rewrite Z2Nat.inj_add, Nat2Z.id by lia.
    rewrite take_app_length' ; [done |]. rewrite length_app, length_take. lia.
  - rewrite !length_app, length_take, length_drop. lia.
Qed.

Lemma got_length sb :
  recv_wf sb ->
  Z.of_nat (length (got sb)) = if b_read_state sb =? 0 then b_read_size sb else 4 + b_read_bytes sb.
Proof.
  intros [Hl [(Hs & Hr & _) | (Hs & Hr & Hb & Hm & buf & Hbuf & Hlen & Hall)]]; unfold got; rewrite Hs; cbn [Z.eqb].
  - rewrite length_take. lia.
  - rewrite Hbuf, length_app, Hl.
    assert (E : length (omap id (take (Z.to_nat (b_read_bytes sb)) buf))
                = length (take (Z.to_nat (b_read_bytes sb)) buf)).
    { induction Hall as [| x l [y ->] Hall IH]; cbn; [done | by rewrite IH]. }
    rewrite E, length_take. lia.
Qed.

Lemma omap_id_app (a b : list (option ascii)) : omap id (a ++ b) = omap id a ++ omap id b.
Proof. apply omap_app. Qed.

Lemma omap_id_Some (l : list ascii) : omap id (Some <$> l) = l.
Proof. induction l as [| x l IH]; cbn; [done |]. f_equal. exact IH. Qed.

(** All the bytes of a message (with a body) have arrived. *)
Definition finished (g : list ascii) : Prop :=
  (4 < length g)%nat /\ Z.of_nat (length g) = 4 + ntohl (take 4 g).

(** What a call that gets bytes does: [m] says whether memory was available. *)
Definition recv_post (m : Prop) (g : list ascii) (p : Z * sock_buf) : Prop :=
  (p.1 = 1 /\ recv_wf p.2 /\ got p.2 = g /\ ~ finished g) \/
  (p.1 = 2 /\ recv_wf p.2 /\ got p.2 = g /\ finished g) \/
  (p.1 = -1 /\ length g = 4%nat /\ (MAX_MESSAGE < ntohl g \/ ~ m)).

Lemma recv_header now sb l o m :
  recv_wf sb -> recv_ok sb (RBytes l) -> b_read_state sb = 0 -> (m -> o = []) ->
  exists p o', recv_sock_buf now sb (RBytes l) o = Done p o' /\ recv_post m (got sb ++ l) p.
Proof.
  intros Hwf Hok Hs Hm. pose proof (got_length sb Hwf) as Hgl. rewrite Hs in Hgl. cbn [Z.eqb] in Hgl.
  unfold recv_ok, recv_window in Hok. rewrite Hs in Hok. cbn [Z.eqb] in Hok.
  destruct Hwf as [Hl [(_ & Hr & Hrb) | (Hs' & _)]]; [| congruence].
  destruct (write_at_take (b_read_size sb) l (b_size sb)) as [Ht Hlen]; [lia | lia |].
  assert (Hg : got sb = take (Z.to_nat (b_read_size sb)) (b_size sb)) by (unfold got; by rewrite Hs).
  assert (Hlg : Z.of_nat (length (got sb ++ l)) = b_read_size sb + Z.of_nat (length l))
    by (rewrite length_app; lia).
  assert (Hnf : ~ finished (got sb ++ l)) by (intros [Hf _]; lia).
  rewrite <- Hg in Ht. unfold recv_sock_buf, recv_window. rewrite Hs.
  change (0 =? 0) with true. cbn beta iota.
  destruct (Z.eqb_spec 4 (b_read_size sb)); [lia |].
  set (sb1 := sb <| b_size := _ |> <| b_event_time := now |> <| b_read_size := _ |>).
  destruct (Z.eqb_spec (b_read_size sb + Z.of_nat (length l)) 4) as [E4 | E4].
  - assert (Hfull : b_size sb1 = got sb ++ l).
    { rewrite <- Ht. symmetry. apply take_ge. change (b_size sb1) with (write_at (b_read_size sb) l (b_size sb)). lia. }
    change (b_buf_size (sb1 <| b_read_state := 1 |> <| b_buf_size := ntohl (b_size sb1) |>))
      with (ntohl (b_size sb1)).
    rewrite Hfull. set (g := got sb ++ l) in *. assert (H4 : length g = 4%nat) by lia.
    pose proof (ntohl_range g H4) as Hn.
    assert (Hw : write_at (b_read_size sb) l (b_size sb) = g) by exact Hfull.
    destruct (Z.ltb_spec MAX_MESSAGE (ntohl g)) as [Hbig | Hsmall].
    + eexists _, _. split; [reflexivity |]. right; right. cbn [fst]. auto.
    + assert (Hgood : recv_post m g (1, sb1 <| b_read_state := 1 |> <| b_buf_size := ntohl g |>
                        <| b_buf := Some (replicate (Z.to_nat (ntohl g)) None) |>)).
      { left. cbn [fst snd]. split; [done |]. split; [| split; [| done]].
        - split; [by rewrite <- Hfull in H4 |]. right. split; [done |].
          cbn. rewrite Hrb, Hw. split; [lia |]. split; [done |]. split; [done |].
          eexists. split; [reflexivity |]. split; [apply length_replicate | constructor].
        - unfold got. cbn. rewrite Hw, Hrb. by rewrite app_nil_r. }
      destruct o as [| [] o]; eexists _, _; (split; [reflexivity |]); try exact Hgood.
      right; right. cbn [fst]. split; [done |]. split; [done |]. right. intros Hm'. by apply Hm in Hm'.
  - eexists _, _. split; [reflexivity |]. left. cbn [fst snd]. split; [done |].
    split; [| split; [| done]].
    + split; [change (length (write_at (b_read_size sb) l (b_size sb)) = 4%nat); lia |]. left.
      split; [exact Hs |]. split; [| exact Hrb].
      change (0 <= b_read_size sb + Z.of_nat (length l) < 4). lia.
    + unfold got at 1. change (b_read_state sb1) with (b_read_state sb). rewrite Hs. exact Ht.
Qed.

Lemma recv_body now sb l o m :
  recv_wf sb -> recv_ok sb (RBytes l) -> b_read_state sb = 1 ->
  exists p o', recv_sock_buf now sb (RBytes l) o = Done p o' /\ recv_post m (got sb ++ l) p.
Proof.
  intros Hwf Hok Hs. pose proof (got_length sb Hwf) as Hgl. rewrite Hs in Hgl. cbn [Z.eqb] in Hgl.
  unfold recv_ok, recv_window in Hok. rewrite Hs in Hok. cbn [Z.eqb] in Hok.
  destruct Hwf as [Hl [[Hs' _] | (_ & Hr & Hb & Hmax & buf & Hbuf & Hlen & Hall)]]; [congruence |].
  destruct (write_at_take (b_read_bytes sb) (Some <$> l) buf) as [Ht Hlw];
    [lia | rewrite length_fmap; lia |]. rewrite length_fmap in Ht.
  assert (Hg : got sb = b_size sb ++ omap id (take (Z.to_nat (b_read_bytes sb)) buf))
    by (unfold got; by rewrite Hs, Hbuf).
  assert (Hlg : Z.of_nat (length (got sb ++ l)) = 4 + (b_read_bytes sb + Z.of_nat (length l)))
    by (rewrite length_app; lia).
  assert (H4 : take 4 (got sb ++ l) = b_size sb)
    by (rewrite Hg, <- app_assoc; by rewrite take_app_length').
  unfold recv_sock_buf, recv_window. rewrite Hs, Hbuf.
  change (1 =? 0) with false. cbn beta iota.
  destruct (Z.eqb_spec (b_buf_size sb) (b_read_bytes sb)); [lia |]. cbn zeta.
  set (sb1 := sb <| b_buf := _ |> <| b_event_time := now |> <| b_read_bytes := _ |>).
  assert (Hwf1 : recv_wf sb1).
  { split; [exact Hl |]. right. split; [exact Hs |].
    split; [change (0 <= b_read_bytes sb + Z.of_nat (length l) <= b_buf_size sb); lia |].
    split; [exact Hb |]. split; [exact Hmax |]. eexists. split; [reflexivity |].
    split; [by rewrite Hlw |].
    change (b_read_bytes sb1) with (b_read_bytes sb + Z.of_nat (length l)).
    rewrite Ht. apply Forall_app. split; [done |]. apply Forall_fmap, Forall_true. by eauto. }
  assert (Hg1 : got sb1 = got sb ++ l).
  { unfold got at 1. change (b_read_state sb1) with (b_read_state sb). rewrite Hs. cbn [Z.eqb].
    change (b_read_bytes sb1) with (b_read_bytes sb + Z.of_nat (length l)).
    change (b_buf sb1) with (Some (write_at (b_read_bytes sb) (Some <$> l) buf)). cbn beta iota.
    rewrite Ht, omap_id_app, omap_id_Some, app_assoc, Hg. reflexivity. }
  eexists _, _. split; [reflexivity |]. unfold recv_post, finished. cbn [fst snd]. rewrite H4.
  destruct (Z.eqb_spec (b_read_bytes sb + Z.of_nat (length l)) (b_buf_size sb)).
  - right; left. split_and!; try done; lia.
  - left. split_and!; try done. lia.
Qed.

Lemma recv_step now sb l o m :
  recv_wf sb -> recv_ok sb (RBytes l) -> (m -> o = []) ->
  exists p o', recv_sock_buf now sb (RBytes l) o = Done p o' /\ recv_post m (got sb ++ l) p.
Proof.
  intros Hwf Hok Hm. pose proof Hwf as [_ [(Hs & _) | (Hs & _)]];
    [by apply recv_header | by apply recv_body].
Qed.

Lemma recv_again now sb : runs (recv_sock_buf now sb RAgain) (1, sb).
Proof. unfold recv_sock_buf. by destruct (recv_window sb). Qed.

(** The bytes of a list of events. *)
Definition stream (evs : list recv_event) : list ascii := mjoin (bytes_of <$> evs).

Lemma finished_wire m : (1 <= length m)%nat -> Z.of_nat (length m) <= MAX_MESSAGE -> finished (wire m).
Proof.
  intros H1 H2. unfold finished. rewrite length_wire. split; [lia |].
  change (take 4 (wire m)) with (htonl (Z.of_nat (length m))).
  rewrite ntohl_htonl; [lia |]. unfold MAX_MESSAGE in H2. lia.
Qed.

(** A message that has arrived is in the buffer. *)
Lemma got_wire sb m :
  recv_wf sb -> got sb = wire m -> (1 <= length m)%nat -> Z.of_nat (length m) <= MAX_MESSAGE ->
  b_buf sb = Some (Some <$> m) /\ b_buf_size sb = Z.of_nat (length m).
Proof.
  intros Hwf Hg H1 Hmax. pose proof (got_length sb Hwf) as Hl. rewrite Hg, length_wire in Hl.
  destruct Hwf as [H4 [(Hs & Hr & _) | (Hs & Hr & Hb & _ & buf & Hbuf & Hlen & Hall)]];
    rewrite Hs in Hl; cbn [Z.eqb] in Hl; [lia |].
  unfold got in Hg. rewrite Hs, Hbuf in Hg. cbn [Z.eqb] in Hg.
  apply (app_inj_1 _ (htonl (Z.of_nat (length m)))) in Hg as [Hsz Hg]; [| by rewrite H4].
  rewrite Hsz, ntohl_htonl in Hb by (unfold MAX_MESSAGE in Hmax; lia).
  split; [| done]. rewrite Hbuf. f_equal. rewrite take_ge in Hg, Hall by lia. rewrite <- Hg.
  clear -Hall. induction Hall as [| x l [y ->] Hall IH]; cbn; [done |]. f_equal. exact IH.
Qed.

Lemma recv_loop_wire now m : forall evs sb,
  (1 <= length m)%nat -> Z.of_nat (length m) <= MAX_MESSAGE ->
  recv_wf sb -> recvs_ok now sb evs -> got sb ++ stream evs = wire m -> got sb <> wire m ->
  exists sb' evs1 evs2, evs = evs1 ++ evs2 /\ stream evs2 = [] /\
    runs (recv_loop now sb evs) (2, sb') /\ recv_wf sb' /\ got sb' = wire m.
Proof.
  induction evs as [| ev evs IH]; intros sb H1 Hmax Hwf Hok Hst Hne.
  - unfold stream in Hst. cbn in Hst. by rewrite app_nil_r in Hst.
  - destruct Hok as (Hev & He1 & He2 & Hrest). destruct ev as [l | | |]; try done.
    2: { destruct (IH sb H1 Hmax Hwf) as (sb' & e1 & e2 & -> & He & Hr & Hw); try done.
         { apply (Hrest 1 sb); [apply recv_again | done]. }
         exists sb', (RAgain :: e1), e2. split; [done |]. split; [done |]. split; [| exact Hw].
         eapply runs_bind; [apply recv_again | exact Hr]. }
    change (stream (RBytes l :: evs)) with (l ++ stream evs) in Hst. rewrite app_assoc in Hst.
    destruct (recv_step now sb l [] True Hwf Hev) as ([rc sb1] & o' & Hrun & Hpost); [done |].
    assert (o' = []) as ->.
    { clear -Hrun. unfold recv_sock_buf in Hrun. destruct (recv_window sb).
      repeat case_match; unfold mret, C_ret in Hrun; try congruence;
      unfold mbind, C_bind, malloc in Hrun; congruence. }
    destruct Hpost as [(E & Hwf1 & Hg1 & Hnf) | [(E & Hwf1 & Hg1 & Hf) | (E & H4 & [Hbig | []])]];
      cbn [fst snd] in *; subst rc; [| | | done].
    + destruct (IH sb1 H1 Hmax Hwf1) as (sb' & e1 & e2 & -> & He & Hr & Hw); try done.
      { by apply (Hrest 1 sb1). }
      { by rewrite Hg1. }
      { intros E. apply Hnf. rewrite <- Hg1, E. by apply finished_wire. }
      exists sb', (RBytes l :: e1), e2. split; [done |]. split; [done |]. split; [| exact Hw].
      cbn [recv_loop app]. eapply runs_bind; [exact Hrun |]. exact Hr.
    + assert (Heq : stream evs = []).
      { destruct Hf as [Hf4 Hf]. apply (f_equal length) in Hst as Hlen.
        rewrite length_app, length_wire in Hlen.
        assert (H4 : take 4 (got sb ++ l) = htonl (Z.of_nat (length m))).
        { apply (f_equal (take 4)) in Hst. rewrite take_app_le in Hst by lia. exact Hst. }
        rewrite H4, ntohl_htonl in Hf by (unfold MAX_MESSAGE in Hmax; lia).
        apply nil_length_inv. lia. }
      exists sb1, [RBytes l], evs. split; [done |]. split; [done |]. split.
      * cbn [recv_loop]. eapply runs_bind; [exact Hrun |]. apply runs_ret.
      * split; [done |]. rewrite Hg1. rewrite Heq, app_nil_r in Hst. exact Hst.
    + exfalso. assert (Hp : got sb ++ l = htonl (Z.of_nat (length m))).
      { apply (f_equal (take 4)) in Hst. rewrite take_app_le, take_ge in Hst by lia. exact Hst. }
      rewrite Hp, ntohl_htonl in Hbig by (unfold MAX_MESSAGE in Hmax; lia). lia.
Qed.

(** [C28] A message is reassembled whatever the pieces it arrives in: when the
    kernel delivers the four bytes of the length and the bytes of a message of
    1 byte to 1 MiB in any number of calls, none asking for more than is
    wanted, with calls that find nothing in between, then the calls answer
    "continue" until the last byte is there and "finished" then, and the buffer
    holds exactly the message.  The memory for the buffer can be allocated. *)
Theorem recv_reassembles now sb m evs :
  recv_wf sb -> got sb = [] -> (1 <= length m)%nat -> Z.of_nat (length m) <= MAX_MESSAGE ->
  recvs_ok now sb evs -> stream evs = wire m ->
  exists sb', runs (recv_loop now sb evs) (2, sb') /\
    b_buf sb' = Some (Some <$> m) /\ b_buf_size sb' = Z.of_nat (length m).
Proof.
  intros Hwf Hg H1 Hmax Hok Hst.
  destruct (recv_loop_wire now m evs sb H1 Hmax Hwf Hok) as (sb' & _ & _ & _ & _ & Hr & Hw & Hgw).
  - by rewrite Hg.
  - by rewrite Hg.
  - exists sb'. split; [done |]. by apply got_wire.
Qed.

(** A buffer as [create_sock_buf] makes it. *)
Definition fresh_sock_buf : sock_buf :=
  {| b_fd := 7; b_read_state := 0; b_buf_size := 0; b_size := replicate 4 NUL; b_read_size := 0;
     b_read_bytes := 0; b_buf := None; b_sent_size := 0; b_res_fd := -1; b_res_size := 0;
     b_res_bytes := 0; b_res_buf := []; b_event_time := 0;
     b_peer := {| cr_uid := 1001; cr_groups := [1001; 20] |} |}.

Lemma fresh_sock_buf_made o :
  create_sock_buf [] 7 0 (Some {| cr_uid := 1001; cr_groups := [1001; 20] |}) (true :: o)
  = Done (Some fresh_sock_buf, [fresh_sock_buf]) o.
Proof. reflexivity. Qed.

Lemma fresh_wf : recv_wf fresh_sock_buf.
Proof. split; [done |]. left. cbn. lia. Qed.

Lemma recv_reassembles_witness :
  let evs := [RBytes [NUL; NUL]; RAgain; RBytes [NUL; ascii_of_nat 3]; RBytes ["a"; "b"]%char;
              RBytes ["c"]%char] in
  exists sb', runs (recv_loop 5 fresh_sock_buf evs) (2, sb') /\
    b_buf sb' = Some (Some <$> ["a"; "b"; "c"]%char) /\ b_buf_size sb' = 3.
Proof.
  intros evs. apply (recv_reassembles 5 fresh_sock_buf ["a"; "b"; "c"]%char evs);
    [apply fresh_wf | reflexivity | cbn; lia | done | | reflexivity].
  repeat (split; [vm_compute; intuition congruence |]; split; [done |]; split; [done |];
          intros rc sb' H Hrc; vm_compute in H; injection H as <- <-; try discriminate Hrc; clear Hrc).
Defined.

(** After a message the buffer is ready for the next one. *)
Lemma clear_sock_buf_wf sb :
  length (b_size sb) = 4%nat -> recv_wf (clear_sock_buf sb) /\ got (clear_sock_buf sb) = [].
Proof. intros H. split; [| done]. split; [done |]. left. cbn. lia. Qed.

(** ** Sending *)

(** [res_buf] holds the response; [sent_size] bytes of it are gone. *)
Definition send_wf (m : list ascii) (p : sock_buf) : Prop :=
  b_res_buf p = m /\ b_res_size p = Z.of_nat (length m) /\ (0 < length m)%nat /\
  b_res_bytes p = 0 /\ 0 <= b_sent_size p <= 4 + Z.of_nat (length m).

(** What [sendmsg] may answer: no more than it was given. *)
Definition send_ok (p : sock_buf) (ev : send_event) : Prop :=
  match ev with
  | SSent n => 0 <= n <= Z.of_nat (length (send_iov p))
  | _ => True
  end.

Lemma send_iov_wire m p : send_wf m p -> send_iov p = drop (Z.to_nat (b_sent_size p)) (wire m).
Proof.
  intros (Hb & Hs & H0 & _ & Hr). unfold send_iov, wire. rewrite Hb, Hs.
  destruct (Z.ltb_spec (b_sent_size p) 4) as [Hl | Hl].
  - rewrite drop_app_le; [done |]. cbn. lia.
  - rewrite drop_app_ge by (cbn; lia). f_equal. cbn. lia.
Qed.

(** [C34] Whatever the kernel accepts in each call, what a connection has sent
    of a response is a prefix of the length and the message, of [sent_size]
    bytes: no byte is lost, repeated or out of order.  The answer "finished"
    means that all of it was sent, or that exactly the four bytes of the length
    were sent: the test compares with [res_bytes], which is always 0. *)
Theorem send_sock_buf_correct now m p ev :
  send_wf m p -> send_ok p ev ->
  wp (send_sock_buf now p ev)
     (fun '(rc, p', out, fd) =>
        send_wf m p' /\
        take (Z.to_nat (b_sent_size p)) (wire m) ++ out
          = take (Z.to_nat (b_sent_size p')) (wire m) /\
        (rc = 2 -> b_sent_size p' = 4 + Z.of_nat (length m) \/ b_sent_size p' = 4))
     no_fault.
Proof.
  intros Hwf Hok. pose proof (send_iov_wire m p Hwf) as Hiov. unfold send_ok in Hok.
  pose proof Hwf as (Hb & Hs & H0 & Hz & Hr). unfold send_sock_buf.
  destruct (Z.eqb_spec (b_res_size p) 0); [lia |].
  destruct (Z.eqb_spec (b_sent_size p) (b_res_size p + 4)) as [E | E]; cbn [orb].
  { apply wp_ret. split; [done |]. split; [by rewrite app_nil_r |]. lia. }
  apply wp_bind. eapply (wp_mono _ (fun _ => True)); [| intros ctl _ | done].
  { destruct (b_res_fd p =? -1); [by apply wp_ret | by apply wp_malloc]. }
  destruct ctl; cbn [negb].
  2: { apply wp_ret. split; [done |]. split; [by rewrite app_nil_r | done]. }
  destruct ev as [k | |]; cbn zeta.
  2-3: apply wp_ret; split; [exact Hwf |]; split; [by rewrite app_nil_r | done].
  destruct (Z.eqb_spec k 0) as [-> | Hk].
  { apply wp_ret. split; [exact Hwf |]. split; [by rewrite app_nil_r | done]. }
  apply wp_ret. rewrite Hiov in *. rewrite length_drop, length_wire in Hok.
  assert (Hn : b_sent_size (p <| b_event_time := now |> <| b_sent_size := b_sent_size p + k |>
                 <| b_res_fd := -1 |>) = b_sent_size p + k) by reflexivity.
  split; [| split].
  - split; [exact Hb |]. split; [exact Hs |]. split; [exact H0 |]. split; [exact Hz |]. rewrite Hn. lia.
  - rewrite Hn, Z2Nat.inj_add by lia. apply take_take_drop.
  - rewrite Hn. set (p1 := p <| b_event_time := now |> <| b_sent_size := b_sent_size p + k |>).
    assert (Hp1 : b_sent_size p1 = b_sent_size p + k /\ b_res_bytes p1 = 0) by (split; done).
    destruct Hp1 as [-> ->].
    destruct (Z.eqb_spec (b_sent_size p + k) (0 + 4)); [intros _; right; lia | done].
Qed.

Lemma send_sock_buf_correct_witness :
  let p := fresh_sock_buf <| b_res_buf := ["o"; "k"]%char |> <| b_res_size := 2 |> in
  wp (send_sock_buf 9 p (SSent 4))
     (fun '(rc, p', out, fd) =>
        send_wf ["o"; "k"]%char p' /\
        take (Z.to_nat (b_sent_size p)) (wire ["o"; "k"]%char) ++ out
          = take (Z.to_nat (b_sent_size p')) (wire ["o"; "k"]%char) /\
        (rc = 2 -> b_sent_size p' = 4 + Z.of_nat (length ["o"; "k"]%char) \/ b_sent_size p' = 4))
     no_fault /\
  exists p' out, send_sock_buf 9 p (SSent 4) [] = Done (2, p', out, None) [].
Proof.
  intros p. split.
  - apply (send_sock_buf_correct 9 ["o"; "k"]%char p (SSent 4)).
    + unfold send_wf. split_and!; done || (cbn; lia).
    + vm_compute. intuition congruence.
  - eexists _, _. vm_compute. reflexivity.
Defined.

(** A response with a descriptor (the console of a VM) loses it when the
    socket is not ready: the call answers "continue", but the descriptor is
    closed without having been sent. *)
Theorem send_again_loses_fd now p :
  b_res_size p <> 0 -> b_sent_size p <> b_res_size p + 4 -> b_res_fd p <> -1 ->
  exists p', runs (send_sock_buf now p SAgain) (1, p', [], None) /\ b_res_fd p' = -1.
Proof.
  intros H1 H2 H3. unfold send_sock_buf.
  destruct (Z.eqb_spec (b_res_size p) 0); [done |].
  destruct (Z.eqb_spec (b_sent_size p) (b_res_size p + 4)); [done |]. cbn [orb].
  destruct (Z.eqb_spec (b_res_fd p) (-1)); [done |].
  exists (p <| b_res_fd := -1 |>). split; [| reflexivity].
  eapply runs_bind; [apply runs_malloc |]. apply runs_ret.
Qed.

Lemma send_again_loses_fd_witness :
  let p := fresh_sock_buf <| b_res_buf := ["o"; "k"]%char |> <| b_res_size := 2 |>
                          <| b_res_fd := 12 |> in
  exists p', runs (send_sock_buf 9 p SAgain) (1, p', [], None) /\ b_res_fd p' = -1.
Proof. intros p. apply (send_again_loses_fd 9 p); done. Defined.

(** ** Timeouts *)

Lemma earliest_spec l : forall s,
  earliest s l <= s /\ Forall (fun p => earliest s l <= b_event_time p) l /\
  (earliest s l = s \/ Exists (fun p => earliest s l = b_event_time p) l).
Proof.
  unfold earliest. induction l as [| p l IH]; intros s; cbn [foldl]; [auto using Z.le_refl |].
  destruct (IH (if b_event_time p <? s then b_event_time p else s)) as (H1 & H2 & H3).
  destruct (Z.ltb_spec (b_event_time p) s) as [Hl | Hl].
  - split; [lia |]. split; [by constructor |]. right. destruct H3 as [H3 | H3]; [by left | by right].
  - split; [lia |]. split; [constructor; [lia | done] |].
    destruct H3 as [H3 | H3]; [by left | right; by right].
Qed.

(** The time until the event loop has to wake up: when [calc_timeout]
    gives a number of seconds, no connection expires before they are over, and
    one expires then; when a connection is already overdue, it gives NULL, and
    the event loop waits without a limit. *)
Theorem calc_timeout_correct l timeout now :
  match calc_timeout l timeout now with
  | Some t =>
      0 <= t /\
      (forall now', now' < now + t -> close_timeout_sock_buf l timeout now' = l) /\
      (length (close_timeout_sock_buf l timeout (now + t)) < length l)%nat
  | None => l = [] \/ Exists (fun p => b_event_time p + timeout < now) l
  end.
Proof.
  destruct l as [| p l]; [by left |]. unfold calc_timeout.
  destruct (earliest_spec (p :: l) (b_event_time p)) as (H1 & H2 & H3).
  set (e := earliest (b_event_time p) (p :: l)) in *.
  assert (He : Exists (fun q => e = b_event_time q) (p :: l)) by (destruct H3; [by left | done]).
  clearbody e. clear H1 H3. generalize dependent (p :: l). clear p l. intros l H2 He.
  destruct (Z.ltb_spec (e + timeout - now) 0) as [Hl | Hl].
  - right. eapply Exists_impl; [exact He |]. cbn. lia.
  - split; [lia |]. unfold close_timeout_sock_buf. split.
    + intros now' Hn. clear He. induction H2 as [| q l Hq H2 IH]; cbn [List.filter]; [done |].
      destruct (Z.leb_spec (b_event_time q + timeout) now'); [lia |]. cbn [negb]. by rewrite IH.
    + clear H2. replace (now + (e + timeout - now)) with (e + timeout) by lia.
      induction He as [q l Hq | q l He IH]; cbn [List.filter length].
      * destruct (Z.leb_spec (b_event_time q + timeout) (e + timeout)); [| lia]. cbn [negb].
        pose proof (filter_length_le (fun p => negb (b_event_time p + timeout <=? e + timeout)) l). lia.
      * destruct (negb (b_event_time q + timeout <=? e + timeout)); cbn [length]; lia.
Qed.

(** ** Access control *)

(** Who may control a VM: root, the user it belongs to, and the members
    of its group when it has one; nobody else. *)
Theorem check_owner_correct conf ucred :
  check_owner conf ucred = 0 <->
  cr_uid ucred = 0 \/ cr_uid ucred = get_owner conf \/
  (vc_group conf <> -1 /\ In (get_group conf) (cr_groups ucred)).
Proof.
  unfold check_owner, get_owner, get_group.
  destruct (Z.eqb_spec (cr_uid ucred) 0); [cbn; tauto |].
  destruct (Z.eqb_spec (cr_uid ucred) (to_uint (vc_owner conf))); [cbn; tauto |]. cbn [orb].
  destruct (Z.eqb_spec (vc_group conf) (-1)); [cbn; intuition lia |].
  destruct (existsb _ _) eqn:E.
  - apply existsb_exists in E as (g & Hg & E). apply Z.eqb_eq in E. subst g. tauto.
  - split; [lia |]. intros [? | [? | [_ Hin]]]; [done | done |].
    apply not_true_iff_false in E. exfalso. apply E, existsb_exists. eexists. split; [exact Hin |].
    apply Z.eqb_refl.
Qed.

(** ** The console *)

Lemma set_char_length s : forall i c, String.length (set_char s i c) = String.length s.
Proof. induction s as [| d s IH]; intros [| i] c; cbn; auto. Qed.

Lemma char_at_set s : forall i c, (i < String.length s)%nat -> char_at (set_char s i c) i = c.
Proof.
  unfold char_at. induction s as [| d s IH]; intros [| i] c Hi; cbn in *; try lia; [done |].
  apply IH. lia.
Qed.

Lemma set_char_set s : forall i c d, set_char (set_char s i c) i d = set_char s i d.
Proof. induction s as [| x s IH]; intros [| i] c d; cbn; [done | done | done |]. by rewrite IH. Qed.

Lemma set_char_id s : forall i, (i < String.length s)%nat -> set_char s i (char_at s i) = s.
Proof.
  unfold char_at. induction s as [| x s IH]; intros [| i] Hi; cbn in *; try lia; [done |].
  f_equal. apply IH. lia.
Qed.

(** The two ends of a null-modem device are each other's peer: the peer of
    the peer of a device name is that name, and a name that ends in A or B has
    a different peer of the same length. *)
Theorem get_peer_comport_involutive s :
  (11 <= String.length s)%nat ->
  exists t, runs (get_peer_comport (Some s)) (Some t) /\
    runs (get_peer_comport (Some t)) (Some s) /\ String.length t = String.length s /\
    (t = s <-> char_at s (String.length s - 1) <> "A"%char /\
               char_at s (String.length s - 1) <> "B"%char).
Proof.
  intros Hl. set (i := (String.length s - 1)%nat).
  assert (Hi : (i < String.length s)%nat) by lia.
  set (peer := fun s => if Ascii.eqb (char_at s i) "A" then set_char s i "B"
                   else if Ascii.eqb (char_at s i) "B" then set_char s i "A" else s).
  assert (Hrun : forall u, String.length u = String.length s ->
                      runs (get_peer_comport (Some u)) (Some (peer u))).
  { intros u Hu. unfold get_peer_comport. rewrite Hu.
    destruct (Z.ltb_spec (Z.of_nat (String.length s) - 1) 10); [lia |].
    eapply runs_bind; [apply runs_strdup |]. cbn beta iota zeta.
    replace (Z.to_nat (Z.of_nat (String.length s) - 1)) with i by lia. apply runs_ret. }
  assert (Hlen : String.length (peer s) = String.length s).
  { unfold peer. repeat case_match; by rewrite ?set_char_length. }
  exists (peer s). split; [by apply Hrun |]. split; [| split; [done |]].
  - assert (Hpp : peer (peer s) = s);
      [| pose proof (Hrun (peer s) Hlen) as H; rewrite Hpp in H; exact H].
    unfold peer. destruct (Ascii.eqb_spec (char_at s i) "A") as [E | E].
    + rewrite char_at_set by done. cbn [Ascii.eqb Bool.eqb]. rewrite set_char_set, <- E.
      by apply set_char_id.
    + destruct (Ascii.eqb_spec (char_at s i) "B") as [E' | E'].
      * rewrite char_at_set by done. cbn [Ascii.eqb Bool.eqb]. rewrite set_char_set, <- E'.
        by apply set_char_id.
      * destruct (Ascii.eqb_spec (char_at s i) "A"); [done |].
        by destruct (Ascii.eqb_spec (char_at s i) "B").
  - unfold peer. destruct (Ascii.eqb_spec (char_at s i) "A") as [E | E].
    + split; [| by intros []]. intros Hs. apply (f_equal (fun u => char_at u i)) in Hs.
      rewrite char_at_set in Hs by done. congruence.
    + destruct (Ascii.eqb_spec (char_at s i) "B") as [E' | E']; [| done].
      split; [| by intros []]. intros Hs. apply (f_equal (fun u => char_at u i)) in Hs.
      rewrite char_at_set in Hs by done. congruence.
Qed.

Lemma get_peer_comport_involutive_witness :
  exists t, runs (get_peer_comport (Some "/dev/nmdm7A")) (Some t) /\
    runs (get_peer_comport (Some t)) (Some "/dev/nmdm7A") /\
    String.length t = String.length "/dev/nmdm7A" /\
    (t = "/dev/nmdm7A" <-> char_at "/dev/nmdm7A" (String.length "/dev/nmdm7A" - 1) <> "A"%char /\
               char_at "/dev/nmdm7A" (String.length "/dev/nmdm7A" - 1) <> "B"%char).
Proof. apply (get_peer_comport_involutive "/dev/nmdm7A"). cbn. lia. Defined.
