(* ===== verification/Sockets.v ===== *)
(** * Opening the command socket (src/server.c 274-364)

    The daemon listens on a UNIX domain socket, bmdctl connects to it.  Each function is a sequence of system calls of which
    every one can fail; a failure closes what was opened.  The answers of the system are the
    record [sock_sys]; a call that is interrupted is repeated by the code and has one answer here.  The class [SockLaws] is what
    is documented of the calls. *)

From S2P Require Import Prelude CString Vars Conf Global.

Local Open Scope Z_scope.

(** ** Operations *)

Record sock_sys (W : Type) := {
  so_getaddrinfo : string -> bool;
  so_socket : W -> option Z * W;
  so_connect : Z -> string -> W -> bool * W;
  so_bind : Z -> string -> W -> bool * W;
  so_listen : Z -> Z -> W -> bool * W;
  so_accept : Z -> W -> option Z * W;
  so_stat : string -> W -> option Z;
  so_setmode : string -> option (Z -> Z);
  so_chmod : string -> Z -> W -> bool * W;
  so_close : Z -> W -> W;
}.
Arguments so_getaddrinfo {W} s _.
Arguments so_socket {W} s _.
Arguments so_connect {W} s _ _ _.
Arguments so_bind {W} s _ _ _.
Arguments so_listen {W} s _ _ _.
Arguments so_accept {W} s _ _.
Arguments so_stat {W} s _ _.
Arguments so_setmode {W} s _.
Arguments so_chmod {W} s _ _ _.
Arguments so_close {W} s _ _.

Section sockets.
Context {W : Type} (sys : sock_sys W).
Implicit Types (gc : global_conf) (w : W).

(** Without a path there is no address. *)
Definition sock_address gc : option string :=
  match g_cmd_sock_path gc with
  | Some path => if so_getaddrinfo sys path then Some path else None
  | None => None
  end.

Definition connect_to_server gc w : Z * W :=
  match sock_address gc with
  | None => (-1, w)
  | Some path =>
      match so_socket sys w with
      | (None, w) => (-1, w)
      | (Some s, w) =>
          match so_connect sys s path w with
          | (true, w) => (s, w)
          | (false, w) => (-1, so_close sys s w)
          end
      end
  end.

(** The mode that the configuration asks for; [None] when it asks for none, or the file or the mode cannot be read. *)
Definition socket_mode gc (path : string) w : option Z :=
  match g_unix_domain_socket_mode gc with
  | None => None
  | Some m => match so_stat sys path w, so_setmode sys m with
              | Some st_mode, Some getmode => Some (getmode st_mode)
              | _, _ => None
              end
  end.

Definition create_command_server gc w : Z * W :=
  match sock_address gc with
  | None => (-1, w)
  | Some path =>
      match so_socket sys w with
      | (None, w) => (-1, w)
      | (Some s, w) =>
          match so_bind sys s path w with
          | (false, w) => (-1, so_close sys s w)
          | (true, w) =>
              match so_listen sys s 5 w with
              | (false, w) => (-1, so_close sys s w)
              | (true, w) =>
                  match socket_mode gc path w with
                  | None => (s, w)
                  | Some mode =>
                      match so_chmod sys path mode w with
                      | (true, w) => (s, w)
                      | (false, w) => (-1, so_close sys s w)
                      end
                  end
              end
          end
      end
  end.

Definition accept_command_socket (s0 : Z) w : Z * W :=
  match so_accept sys s0 w with
  | (Some s, w) => (s, w)
  | (None, w) => (-1, w)
  end.

End sockets.

(** ** What is documented of the calls *)

Inductive sock_kind := Unbound | Bound (path : string) | Listening (path : string) | Connected (path : string).

(** [socks] are the open sockets. *)
Class SockLaws {W : Type} (sys : sock_sys W) := {
  socks : W -> gmap Z sock_kind;
  socket_law : forall w s w', so_socket sys w = (Some s, w') ->
    0 <= s /\ socks w !! s = None /\ socks w' = <[s := Unbound]> (socks w);
  socket_fails : forall w w', so_socket sys w = (None, w') -> socks w' = socks w;
  connect_law : forall s p w b w', so_connect sys s p w = (b, w') ->
    socks w' = if (b : bool) then <[s := Connected p]> (socks w) else socks w;
  bind_law : forall s p w b w', so_bind sys s p w = (b, w') ->
    socks w' = if (b : bool) then <[s := Bound p]> (socks w) else socks w;
  listen_law : forall s n p w b w', socks w !! s = Some (Bound p) -> so_listen sys s n w = (b, w') ->
    socks w' = if (b : bool) then <[s := Listening p]> (socks w) else socks w;
  chmod_law : forall p m w b w', so_chmod sys p m w = (b, w') ->
    socks w' = socks w /\ (b = true -> so_stat sys p w' = Some m);
  close_sock_law : forall s w, socks (so_close sys s w) = delete s (socks w);
}.

Section laws.
Context {W : Type} (sys : sock_sys W) {Hsys : SockLaws sys}.
Implicit Types (gc : global_conf) (w : W).

(** A socket that is closed again leaves nothing. *)
Lemma delete_sock (m : gmap Z sock_kind) s k : m !! s = None -> delete s (<[s := k]> m) = m.
Proof. intros H. by rewrite delete_insert_eq, delete_id. Qed.

(** The daemon gets a socket that listens on the path of the configuration, a new one, or none is left open, whichever call fails; the mode
    that the configuration asks for is that of the file. *)
Theorem command_server_socket gc w r w' :
  create_command_server sys gc w = (r, w') ->
  if r <? 0 then socks w' = socks w
  else exists path, g_cmd_sock_path gc = Some path /\ socks w !! r = None /\ socks w' = <[r := Listening path]> (socks w) /\
         forall m f, g_unix_domain_socket_mode gc = Some m -> so_setmode sys m = Some f ->
           so_stat sys path w' = None \/ exists st, so_stat sys path w' = Some (f st).
Proof.
  unfold create_command_server, sock_address. destruct (g_cmd_sock_path gc) as [path |]; [| by intros [= <- <-]].
  destruct (so_getaddrinfo sys path); [| by intros [= <- <-]].
  destruct (so_socket sys w) as [[s |] w1] eqn:E1; [| apply socket_fails in E1; by intros [= <- <-]].
  apply socket_law in E1 as (Hs & Hn & H1). destruct (so_bind sys s path w1) as [[] w2] eqn:E2; apply bind_law in E2; rewrite H1 in E2;
    [rewrite insert_insert_eq in E2 | intros [= <- <-]; cbn; by rewrite close_sock_law, E2, delete_sock].
  destruct (so_listen sys s 5 w2) as [[] w3] eqn:E3; apply (listen_law s 5 path) in E3; rewrite ?E2, ?lookup_insert_eq; try done; rewrite E2 in E3;
    [rewrite insert_insert_eq in E3 | intros [= <- <-]; cbn; by rewrite close_sock_law, E3, delete_sock].
  unfold socket_mode. destruct (socket_mode sys gc path w3) as [mode |] eqn:Em; unfold socket_mode in Em; rewrite Em.
  - destruct (so_chmod sys path mode w3) as [[] w4] eqn:E4; apply chmod_law in E4 as [H4 M4]; intros [= <- <-].
    + replace (s <? 0) with false by lia. exists path. rewrite H4. split_and!; try done. intros m f Hm Hf. right.
      rewrite Hm, Hf in Em. destruct (so_stat sys path w3) as [st |]; [| done]. exists st. rewrite M4 by done. congruence.
    + cbn. by rewrite close_sock_law, H4, E3, delete_sock.
  - intros [= <- <-]. replace (s <? 0) with false by lia. exists path. split_and!; try done. intros m f Hm Hf. left.
    rewrite Hm, Hf in Em. by destruct (so_stat sys path w3).
Qed.

(** bmdctl gets a connection to the path of the configuration, or no socket is left open. *)
Theorem client_socket gc w r w' :
  connect_to_server sys gc w = (r, w') ->
  if r <? 0 then socks w' = socks w
  else exists path, g_cmd_sock_path gc = Some path /\ socks w !! r = None /\ socks w' = <[r := Connected path]> (socks w).
Proof.
  unfold connect_to_server, sock_address. destruct (g_cmd_sock_path gc) as [path |]; [| by intros [= <- <-]].
  destruct (so_getaddrinfo sys path); [| by intros [= <- <-]].
  destruct (so_socket sys w) as [[s |] w1] eqn:E1; [| apply socket_fails in E1; by intros [= <- <-]].
  apply socket_law in E1 as (Hs & Hn & H1). destruct (so_connect sys s path w1) as [[] w2] eqn:E2; apply connect_law in E2; rewrite H1 in E2;
    intros [= <- <-].
  - rewrite insert_insert_eq in E2. replace (s <? 0) with false by lia. by exists path.
  - cbn. by rewrite close_sock_law, E2, delete_sock.
Qed.

End laws.

(** ** A small system *)

(** The sockets and the mode of one file. *)
Definition demo_sock_sys (chmod_ok : bool) : sock_sys (gmap Z sock_kind * Z) := {|
  so_getaddrinfo := fun p => Nat.ltb (String.length p) 104;
  so_socket := fun w => match w.1 !! 3 with None => (Some 3, (<[3 := Unbound]> w.1, w.2)) | Some _ => (None, w) end;
  so_connect := fun s p w => (true, (<[s := Connected p]> w.1, w.2));
  so_bind := fun s p w => (true, (<[s := Bound p]> w.1, w.2));
  so_listen := fun s _ w => match w.1 !! s with
                            | Some (Bound p) => (true, (<[s := Listening p]> w.1, w.2))
                            | _ => (false, w)
                            end;
  so_accept := fun _ w => (None, w);
  so_stat := fun _ w => Some w.2;
  so_setmode := fun m => if bool_decide (m = "u=rw,go=") then Some (fun _ => 384) else None;
  so_chmod := fun _ m w => if chmod_ok then (true, (w.1, m)) else (false, w);
  so_close := fun s w => (delete s w.1, w.2);
|}.

#[export] Instance demo_sock_laws ok : SockLaws (demo_sock_sys ok).
Proof.
  refine {| socks := fst |}; cbn; try done.
  - intros [m f] s w' H. cbn in H. destruct (m !! 3) eqn:E; [done |]. by injection H as <- <-.
  - intros [m f] w' H. cbn in H. destruct (m !! 3) eqn:E; [| done]. by injection H as <-.
  - intros s p w b w' [= <- <-]. done.
  - intros s p w b w' [= <- <-]. done.
  - intros s n p w b w' -> [= <- <-]. done.
  - intros p m w b w'. destruct ok; intros [= <- <-]; done.
Qed.

Lemma demo_server :
  create_command_server (demo_sock_sys true)
    (gl_conf0 <| g_cmd_sock_path := Some "/var/run/bmd.sock" |> <| g_unix_domain_socket_mode := Some "u=rw,go=" |>) (∅, 511) =
  (3, ({[3 := Listening "/var/run/bmd.sock"]}, 384)).
Proof. reflexivity. Qed.
