(* ===== verification/Daemon.v ===== *)
(** * Events and the life of a VM (src/bmd.c 96-219, 419-614, 885-1225, 1390-1397, src/server.c 712-761)

    The daemon waits for events: the end of a process, a timer, output of a VM,
    a command.  Each event it waits for is a [struct event] on [event_list]
    with a call-back and a pointer to the VM it belongs to.  A VM is a
    [struct vm_entry]; its [state] says what it waits for.

    The entries and events are objects of a store: [d_heap] holds the entries
    that are allocated, under their addresses; [d_vm_list] is the list of
    pointers.  Addresses are never used twice, so an access to an object that
    was freed is visible as [UseAfterFree].  A failing [kevent] on registration
    is an answer of the oracle, like a failing [malloc].

    The backend of a VM is one of [vm_ops], and gets the data that [pl_conf] of the VM points to ([pl_target]); the class [BackendLaws] is what the
    daemon relies on, with the functions of Vm.v as an instance.  The invariant
    [Inv] has two parameters: the event that is being handled and the VM whose
    process has ended, which is an exception until it is started or stopped.
    What a plugin does when it is told of a new state ([call_plugins]) is an
    argument. *)

From S2P Require Import Prelude CString Vars Conf Global MPool Plugin ParseValue Parser Load Tap Vm Network.
From S2P Require Import SockBuf.
From Stdlib Require Import Ascii.

Local Open Scope Z_scope.

(** ** Data *)

Inductive evfilt := EVFILT_READ | EVFILT_WRITE | EVFILT_TIMER | EVFILT_PROC | EVFILT_SIGNAL.

#[export] Instance evfilt_eq_dec : EqDecision evfilt.
Proof. solve_decision. Defined.

Definition EV_ADD : Z := 1.
Definition EV_ONESHOT : Z := 16.

Record kevent := { k_ident : Z; k_filter : evfilt; k_flags : Z; k_data : Z }.

(** The call-backs of VMs, and those of the sockets, signals and plugins. *)
Inductive event_call_back := CbReadVmOutput | CbTimer | CbVmExit | CbOther (n : nat).

Inductive EVENT_TYPE := EVENT | PLUGIN.

Record event := {
  ev_addr : Z;
  ev_type : EVENT_TYPE;
  ev_kev : kevent;
  ev_cb : event_call_back;
  ev_data : option Z;
}.

(** [ve_method] is [method] with [pl_conf], which are set together. *)
Record vm_entry (NV : Type) := { ve_vm : vm NV; ve_method : option (vm_method * pl_ref NV) }.
Arguments ve_vm {NV} v.
Arguments ve_method {NV} v.
Arguments Build_vm_entry {NV} _ _.

#[export] Instance eta_vm_entry {NV} : Eta (vm_entry NV) := fun e =>
  {| ve_vm := ve_vm e; ve_method := ve_method e |}.

Record daemon (NV W : Type) := {
  d_heap : gmap Z (vm_entry NV);
  d_vm_list : list Z;
  d_events : list event;
  d_timer_id : Z;
  d_next : Z;
  d_world : W;
}.
Arguments d_heap {NV W} d.
Arguments d_vm_list {NV W} d.
Arguments d_events {NV W} d.
Arguments d_timer_id {NV W} d.
Arguments d_next {NV W} d.
Arguments d_world {NV W} d.

#[export] Instance eta_daemon {NV W} : Eta (daemon NV W) := fun d => {|
  d_heap := d_heap d; d_vm_list := d_vm_list d; d_events := d_events d;
  d_timer_id := d_timer_id d; d_next := d_next d; d_world := d_world d |}.

(** What the rest of the system answers: the names in /dev, whether a device
    can be made by [stat], the descriptor of a log file (-1 when it cannot be
    opened), and the functions of plugins that want to know of a new state. *)
Record devices (NV W : Type) := {
  sys_dev : W -> option (list string);
  sys_stat : string -> W -> bool * W;
  sys_open_log : vm_conf -> W -> Z * W;
  pl_on_status_change : plugin_desc NV -> option (vm NV -> NV -> W -> W);
}.
Arguments sys_dev {NV W} d _.
Arguments sys_stat {NV W} d _ _.
Arguments sys_open_log {NV W} d _ _.
Arguments pl_on_status_change {NV W} d _.

(** How a process ended. *)
Inductive wait_status := WExited (code : Z) | WSignaled (sig : Z).

Section daemon.
Context {NV W : Type} (k : kernel W) (dv : devices NV W) (ops : vm_method -> vm_ops NV W)
        (nmdm_offset : Z) (other : nat -> Z -> option Z -> daemon NV W -> C (Z * daemon NV W)).
Implicit Types (d : daemon NV W) (a : Z) (ev : event).

(** ** The store *)

(** [*vm_ent]. *)
Definition get_entry d a : C (vm_entry NV) :=
  match d_heap d !! a with
  | Some e => mret e
  | None => crash UseAfterFree
  end.

Definition put_entry d a (e : vm_entry NV) : daemon NV W := d <| d_heap := <[a := e]> (d_heap d) |>.

Definition put_vm d a (e : vm_entry NV) (v : vm NV) : daemon NV W :=
  put_entry d a (e <| ve_vm := v |>).

Definition VM_CONF (e : vm_entry NV) : vm_conf := vm_get_conf (ve_vm e).

Definition VM_STATE (e : vm_entry NV) : STATE := vm_state (ve_vm e).

Definition change_state d a (s : STATE) : C (daemon NV W) :=
  e ← get_entry d a; mret (put_vm d a e (ve_vm e <| vm_state := s |>)).

(** [(v)->method] and [(v)->pl_conf], pointers that [set_vm_method] has set. *)
Definition method_ops (e : vm_entry NV) : C (vm_ops NV W * option NV) :=
  m ← deref (ve_method e); mret (ops m.1, pl_target (ce_pl_data (vm_ent_conf (ve_vm e))) m.2).

(** ** Events *)

Definition vm_output a (v : vm NV) ev : bool :=
  bool_decide (ev_data ev = Some a) && bool_decide (k_filter (ev_kev ev) = EVFILT_READ) &&
  ((k_ident (ev_kev ev) =? vm_outfd v) || (k_ident (ev_kev ev) =? vm_errfd v)).

Definition vm_output_and_timers a (v : vm NV) ev : bool :=
  bool_decide (ev_data ev = Some a) &&
  (bool_decide (k_filter (ev_kev ev) = EVFILT_TIMER) ||
   (bool_decide (k_filter (ev_kev ev) = EVFILT_READ) &&
    ((k_ident (ev_kev ev) =? vm_outfd v) || (k_ident (ev_kev ev) =? vm_errfd v)))).

Definition vm_entry_event a ev : bool := bool_decide (ev_data ev = Some a).

(** The kernel forgets the events in groups of five; that it may fail to is
    only logged. *)
Definition stop_waiting_for (fn : event -> bool) d : daemon NV W :=
  d <| d_events := List.filter (fun ev => negb (fn ev)) (d_events d) |>.

Definition insert_event (type : EVENT_TYPE) (kev : kevent) (cb : event_call_back) (data : option Z)
    d : daemon NV W :=
  d <| d_events := {| ev_addr := d_next d; ev_type := type; ev_kev := kev; ev_cb := cb;
                      ev_data := data |} :: d_events d |>
    <| d_next := d_next d + 1 |>.

(** [malloc], then [kevent_set]. *)
Definition register_event0 (type : EVENT_TYPE) (kev : kevent) (cb : event_call_back)
    (data : option Z) d : C (Z * daemon NV W) :=
  ok ← malloc;
  if negb ok then mret (-1, d)
  else
    ok ← malloc;
    mret (if (ok : bool) then (0, insert_event type kev cb data d) else (-1, d)).

(** All allocations are tried, then the events are registered together. *)
Fixpoint malloc_all {A} (l : list A) : C bool :=
  match l with
  | [] => mret true
  | _ :: l' => ok ← malloc; rest ← malloc_all l'; mret (ok && rest)
  end.

Definition register_events (evs : list (kevent * event_call_back * option Z)) d
    : C (Z * daemon NV W) :=
  ok ← malloc_all evs;
  if negb ok then mret (-1, d)
  else
    ok ← malloc;
    mret (if (ok : bool)
          then (0, foldl (fun d '(kev, cb, data) => insert_event EVENT kev cb data d) d evs)
          else (-1, d)).

Definition set_timer d a (second : Z) : C (Z * daemon NV W) :=
  if INT_MAX <=? d_timer_id d then crash SignedOverflow
  else
  let d := d <| d_timer_id := d_timer_id d + 1 |> in
  register_event0 EVENT {| k_ident := d_timer_id d; k_filter := EVFILT_TIMER;
                           k_flags := Z.lor EV_ADD EV_ONESHOT; k_data := second |}
    CbTimer (Some a) d.

Definition wait_for_vm d a : C (Z * daemon NV W) :=
  e ← get_entry d a;
  register_event0 EVENT {| k_ident := vm_pid (ve_vm e); k_filter := EVFILT_PROC;
                           k_flags := Z.lor EV_ADD EV_ONESHOT; k_data := 0 |}
    CbVmExit (Some a) d.

Definition wait_for_vm_output d a : C (Z * daemon NV W) :=
  e ← get_entry d a;
  let ev fd := ({| k_ident := fd; k_filter := EVFILT_READ; k_flags := EV_ADD; k_data := 0 |},
                CbReadVmOutput, Some a) in
  register_events
    ((if vm_outfd (ve_vm e) =? -1 then [] else [ev (vm_outfd (ve_vm e))]) ++
     (if vm_errfd (ve_vm e) =? -1 then [] else [ev (vm_errfd (ve_vm e))])) d.

(** ** Null-modem devices *)

Definition nmdm_selector (name : string) : bool :=
  (strncmp name "nmdm" 4 =? 0) && Ascii.eqb (char_at name (String.length name - 1)) "B".

(** The digits of the name read as one number, an [int]. *)
Fixpoint nmdm_digits (v : Z) (s : string) : C Z :=
  match s with
  | EmptyString => mret v
  | String c s' =>
      if is_digit c then
        if v * 10 + byte_of c <=? INT_MAX then nmdm_digits (v * 10 + byte_of c - byte_of "0") s'
        else crash SignedOverflow
      else nmdm_digits v s'
  end.

Definition get_nmdm_number (p : option string) : C Z :=
  match p with
  | None => mret (-1)
  | Some s => nmdm_digits 0 s
  end.

(** The loop over the VMs. *)
Fixpoint max_vm_nmdm d (l : list Z) (max : Z) : C Z :=
  match l with
  | [] => mret max
  | a :: l' =>
      e ← get_entry d a;
      n ← get_nmdm_number (vc_comport (VM_CONF e));
      m ← get_nmdm_number (vm_assigned_comport (ve_vm e));
      max_vm_nmdm d l' (Z.max m (Z.max n max))
  end.

Fixpoint max_dev_nmdm (names : list string) (max : Z) : C Z :=
  match names with
  | [] => mret max
  | s :: names' => n ← get_nmdm_number (Some s); max_dev_nmdm names' (Z.max n max)
  end.

Definition nmdm_name (n : Z) : string := "/dev/nmdm" +:+ print_dec n +:+ "B".

Definition assign_comport d a : C (Z * daemon NV W) :=
  e ← get_entry d a;
  match vc_comport (VM_CONF e), vm_assigned_comport (ve_vm e) with
  | None, _ => mret (0, d)
  | _, Some _ => mret (0, d)
  | Some comport, None =>
      if negb (strcasecmp comport "auto" =? 0) then
        c ← strdup comport;
        mret (match c with
              | Some c => (0, put_vm d a e (ve_vm e <| vm_assigned_comport := Some c |>))
              | None => (-1, d)
              end)
      else
        max ← max_vm_nmdm d (d_vm_list d) (-1);
        match sys_dev dv (d_world d) with
        | None => mret (-1, d)
        | Some names =>
            max ← max_dev_nmdm (List.filter nmdm_selector names) max;
            let max := if max <? nmdm_offset - 1 then nmdm_offset - 1 else max in
            if INT_MAX <=? max then crash SignedOverflow
            else
              new_com ← strdup (nmdm_name (max + 1));
              match new_com with
              | None => mret (-1, d)
              | Some new_com =>
                  let '(ok, w) := sys_stat dv new_com (d_world d) in
                  let d := d <| d_world := w |> in
                  mret (if ok then (0, put_vm d a e (ve_vm e <| vm_assigned_comport := Some new_com |>))
                        else (-1, d))
              end
        end
  end.

(** ** Starting and stopping *)

(** What a plugin does when it is told of a new state changes the world only. *)
Definition call_plugins d a : C (daemon NV W) :=
  e ← get_entry d a;
  let tell w pd := match pl_on_status_change dv (pd_desc pd) with
                   | Some f => f (ve_vm e) (pd_conf pd) w
                   | None => w
                   end in
  mret (d <| d_world := foldl tell (d_world d) (ce_pl_data (vm_ent_conf (ve_vm e))) |>).

Definition cleanup_virtual_machine d a : C (daemon NV W) :=
  e ← get_entry d a;
  let '(_, v, w) := remove_taps k (d_world d) (ve_vm e) in
  '(o, nv) ← method_ops e;
  '(v, w) ← vm_cleanup o nv w v;
  mret (put_vm d a e v <| d_world := w |>).

(** [VM_POWEROFF] and its like. *)
Definition VM_POWEROFF d a : C (daemon NV W) :=
  e ← get_entry d a; '(o, nv) ← method_ops e;
  '(_, w) ← vm_poweroff o nv (d_world d) (ve_vm e);
  mret (d <| d_world := w |>).

Definition VM_ACPI_POWEROFF d a : C (daemon NV W) :=
  e ← get_entry d a; '(o, nv) ← method_ops e;
  '(_, w) ← vm_acpi_poweroff o nv (d_world d) (ve_vm e);
  mret (d <| d_world := w |>).

Definition VM_RESET d a : C (daemon NV W) :=
  e ← get_entry d a; '(o, nv) ← method_ops e;
  '(_, w) ← vm_reset o nv (d_world d) (ve_vm e);
  mret (d <| d_world := w |>).

(** [set_vm_method] stores the method and the data of the plugin. *)
Definition choose_method d a : C (Z * daemon NV W) :=
  e ← get_entry d a;
  let ce := vm_ent_conf (ve_vm e) in
  r ← set_vm_method (ce_pl_data ce) (vc_backend (ce_conf ce));
  mret (match r with
        | Some m => (0, put_entry d a (e <| ve_method := Some m |>))
        | None => (-1, d)
        end).

(** The network devices of a VM that is not running. *)
Definition prepare_taps d a : C (Z * daemon NV W) :=
  e ← get_entry d a;
  if decide (VM_STATE e = TERMINATE) then
    '(rc, v, w) ← assign_taps k (d_world d) (ve_vm e);
    let d := put_vm d a e v <| d_world := w |> in
    if rc <? 0 then mret (-1, d)
    else
      '(rc, v, w) ← activate_taps k w v;
      if rc <? 0 then
        let '(_, v, w) := remove_taps k w v in
        mret (-1, put_vm d a e v <| d_world := w |>)
      else mret (0, put_vm d a e v <| d_world := w |>)
  else mret (0, d).

Definition VM_START d a : C (Z * daemon NV W) :=
  e ← get_entry d a; '(o, nv) ← method_ops e;
  '(rc, v, w) ← vm_start o nv (d_world d) (ve_vm e);
  mret (rc, put_vm d a e v <| d_world := w |>).

(** [wait_for_vm] or, when that has succeeded, [wait_for_vm_output]. *)
Definition wait_for_both d a : C (Z * daemon NV W) :=
  '(rc, d) ← wait_for_vm d a;
  if rc <? 0 then mret (-1, d)
  else '(rc, d) ← wait_for_vm_output d a; mret (if rc <? 0 then -1 else 0, d).

(** The end of a successful start: the timer of the loader and the log file. *)
Definition after_start d a : C (Z * daemon NV W) :=
  e ← get_entry d a;
  '(rc, d) ← (if decide (VM_STATE e = LOAD) then
                if 0 <? vc_loader_timeout (VM_CONF e)
                then set_timer d a (vc_loader_timeout (VM_CONF e)) else mret (0, d)
              else mret (0, d));
  if rc <? 0 then mret (-1, d)
  else
    e ← get_entry d a;
    match vc_err_logfile (VM_CONF e) with
    | Some _ =>
        if vm_logfd (ve_vm e) =? -1 then
          let '(fd, w) := sys_open_log dv (VM_CONF e) (d_world d) in
          mret (0, put_vm d a e (ve_vm e <| vm_logfd := fd |>) <| d_world := w |>)
        else mret (0, d)
    | None => mret (0, d)
    end.

Definition start_virtual_machine d a : C (Z * daemon NV W) :=
  '(rc, d) ← choose_method d a;
  if rc <? 0 then mret (-1, d)
  else
    '(rc, d) ← assign_comport d a;
    if rc <? 0 then mret (-1, d)
    else
      '(rc, d) ← prepare_taps d a;
      if rc <? 0 then mret (-1, d)
      else
        '(rc, d) ← VM_START d a;
        if rc <? 0 then d ← cleanup_virtual_machine d a; mret (-1, d)
        else
          '(rc, d) ← wait_for_both d a;
          if rc <? 0 then
            d ← VM_POWEROFF d a;
            d ← cleanup_virtual_machine d a;
            mret (-1, d)
          else d ← call_plugins d a; after_start d a.

Definition stop_virtual_machine d a : C (daemon NV W) :=
  e ← get_entry d a;
  d ← cleanup_virtual_machine (stop_waiting_for (vm_output_and_timers a (ve_vm e)) d) a;
  call_plugins d a.

(** The events of the entry are dropped and the entry is freed. *)
Definition free_vm_entry d a : C (daemon NV W) :=
  _ ← get_entry d a;
  let d := stop_waiting_for (vm_entry_event a) d in
  mret (d <| d_heap := delete a (d_heap d) |>).

(** ** Call-backs *)

Definition on_timer d a : C (Z * daemon NV W) :=
  e ← get_entry d a;
  match VM_STATE e with
  | TERMINATE => '(_, d) ← start_virtual_machine d a; mret (0, d)
  | LOAD | STOP | REMOVE | RESTART => d ← VM_POWEROFF d a; mret (0, d)
  | RUN => mret (0, d)
  end.

(** [VM_CLOSE(vm_ent, INFD)]. *)
Definition close_infd d a : C (daemon NV W) :=
  e ← get_entry d a;
  mret (put_vm d a e (ve_vm e <| vm_infd := -1 |>) <| d_world := close_fd k (d_world d) (vm_infd (ve_vm e)) |>).

(** [VM_CONF(vm_ent)->install = b]. *)
Definition put_install d a (b : bool) : C (daemon NV W) :=
  e ← get_entry d a;
  let ce := vm_ent_conf (ve_vm e) in
  mret (put_vm d a e (ve_vm e <| vm_ent_conf :=
          {| ce_conf := ce_conf ce <| vc_install := b |>; ce_pl_data := ce_pl_data ce |} |>)).

Definition clear_install d a : C (daemon NV W) := put_install d a false.

(** Whether a VM that ended by itself is started again. *)
Definition reboots (c : vm_conf) (st : wait_status) : C bool :=
  match st with
  | WSignaled _ => mret false
  | WExited code =>
      if vc_install c then mret false
      else if decide (vc_boot c = ALWAYS) then mret true
      else b ← deref (vc_backend c); mret ((strcmp b "bhyve" =? 0) && (code =? 0))
  end.

Definition on_vm_exit d a (st : wait_status) : C (Z * daemon NV W) :=
  e ← get_entry d a;
  let stopped d := d ← stop_virtual_machine d a; d ← clear_install d a; mret (0, d) in
  match VM_STATE e with
  | LOAD =>
      match st with
      | WExited 0 =>
          d ← close_infd d a;
          e ← get_entry d a;
          let d := stop_waiting_for (vm_output a (ve_vm e)) d in
          '(_, d) ← start_virtual_machine d a; mret (0, d)
      | _ => d ← stop_virtual_machine d a; mret (0, d)
      end
  | RESTART =>
      d ← stop_virtual_machine d a;
      d ← change_state d a TERMINATE;
      e ← get_entry d a;
      '(_, d) ← set_timer d a (Z.max (vc_boot_delay (VM_CONF e)) 3);
      mret (0, d)
  | RUN =>
      again ← reboots (VM_CONF e) st;
      if (again : bool) then '(_, d) ← start_virtual_machine d a; mret (0, d) else stopped d
  | STOP => stopped d
  | REMOVE =>
      d ← stop_virtual_machine d a;
      let d := d <| d_vm_list := List.filter (fun b => negb (b =? a)) (d_vm_list d) |> in
      d ← free_vm_entry d a;
      mret (0, d)
  | TERMINATE => mret (0, d)
  end.

(** [size] and [fatal]: the answers of [read] and [write]. *)
Definition on_read_vm_output d a (fd size : Z) (fatal : bool) : C (Z * daemon NV W) :=
  e ← get_entry d a;
  let '(n, v, w) := write_err_log k (d_world d) fd size fatal (ve_vm e) in
  let d := put_vm d a e v <| d_world := w |> in
  mret (0, if n =? 0
           then d <| d_events := List.filter (fun ev =>
                       negb (bool_decide (ev_data ev = Some a) && (k_ident (ev_kev ev) =? fd) &&
                             bool_decide (k_filter (ev_kev ev) = EVFILT_READ))) (d_events d) |>
           else d).

(** What the system answers to the call-back of an event. *)
Record reply := { an_status : wait_status; an_size : Z; an_fatal : bool }.

(** The call-backs of VMs; those of the sockets, the signals and the plugins are
    the argument [other]. *)
Definition call_back d ev (an : reply) : C (Z * daemon NV W) :=
  match ev_cb ev, ev_data ev with
  | CbOther n, data => other n (k_ident (ev_kev ev)) data d
  | _, None => crash NullDeref
  | CbTimer, Some a => on_timer d a
  | CbVmExit, Some a => on_vm_exit d a (an_status an)
  | CbReadVmOutput, Some a => on_read_vm_output d a (k_ident (ev_kev ev)) (an_size an) (an_fatal an)
  end.

(** The body of the event loop for the event [ev]: [LIST_REMOVE] and [free]
    need the event to be there still. *)
Definition event_step d ev (an : reply) : C (daemon NV W) :=
  let do_remove := negb (Z.land (k_flags (ev_kev ev)) EV_ONESHOT =? 0) in
  '(_, d) ← call_back d ev an;
  if do_remove then
    if existsb (fun x => ev_addr x =? ev_addr ev) (d_events d) then
      mret (d <| d_events := List.filter (fun x => negb (ev_addr x =? ev_addr ev)) (d_events d) |>)
    else crash UseAfterFree
  else mret d.

(** ** Creating entries *)

Definition create_vm_entry d (ce : vm_conf_entry NV) : C (option Z * daemon NV W) :=
  ok ← malloc;
  if negb ok then mret (None, d)
  else
    r ← set_vm_method (ce_pl_data ce) (vc_backend (ce_conf ce));
    mret (match r with
          | None => (None, d)
          | Some m =>
              let a := d_next d in
              (Some a, d <| d_heap := <[a := {| ve_vm := new_vm ce; ve_method := Some m |}]> (d_heap d) |>
                         <| d_vm_list := a :: d_vm_list d |> <| d_next := a + 1 |>)
          end).

(** The loop of [start_virtual_machines]; [None] is the return of -1. *)
Fixpoint start_all d (l : list (vm_conf_entry NV)) : C (Z * daemon NV W) :=
  match l with
  | [] => mret (0, d)
  | ce :: l' =>
      '(r, d) ← create_vm_entry d ce;
      match r with
      | None => mret (-1, d)
      | Some a =>
          let conf := ce_conf ce in
          '(_, d) ← (if decide (vc_boot conf = NO) then mret (0, d)
                     else if 0 <? vc_boot_delay conf then set_timer d a (vc_boot_delay conf)
                     else start_virtual_machine d a);
          start_all d l'
      end
  end.

Definition start_virtual_machines d (l : list (vm_conf_entry NV)) : C (Z * daemon NV W) :=
  let sig n cb := ({| k_ident := n; k_filter := EVFILT_SIGNAL; k_flags := EV_ADD; k_data := 0 |},
                   CbOther cb, None) in
  '(rc, d) ← register_events [sig 15 0%nat; sig 2 0%nat; sig 1 1%nat] d;
  if rc <? 0 then mret (-1, d) else start_all d l.

(** ** Commands that stop a VM *)

Fixpoint lookup_in (d : daemon NV W) (l : list Z) (name : string) : C (option Z) :=
  match l with
  | [] => mret None
  | a :: l' =>
      e ← get_entry d a;
      n ← deref (vc_name (VM_CONF e));
      if strcmp n name =? 0 then mret (Some a) else lookup_in d l' name
  end.

Definition lookup_vm_by_name d (name : string) : C (option Z) := lookup_in d (d_vm_list d) name.

(** [None] is success, [Some reason] the error of the response. *)
Definition vm_down_command d (name : option string) (how : Z) (ucred : xucred)
    : C (option string * daemon NV W) :=
  a ← match name with None => mret None | Some n => lookup_vm_by_name d n end;
  match a with
  | None => mret (Some "VM not found", d)
  | Some a =>
      e ← get_entry d a;
      if negb (check_owner (VM_CONF e) ucred =? 0) then mret (Some "VM not found", d)
      else if negb (bool_decide (VM_STATE e = LOAD) || bool_decide (VM_STATE e = RUN))
      then mret (None, d)
      else if how =? 0 then
        d ← VM_ACPI_POWEROFF d a;
        '(_, d) ← set_timer d a (vc_stop_timeout (VM_CONF e));
        d ← change_state d a STOP;
        mret (None, d)
      else if how =? 1 then d ← VM_RESET d a; mret (None, d)
      else if how =? 2 then
        d ← VM_POWEROFF d a;
        d ← change_state d a STOP;
        mret (None, d)
      else mret (Some "Unknown command", d)
  end.

End daemon.

(** ** What the daemon relies on *)

(** What a backend of this name promises: a VM that was started is loading or
    running, a start that fails leaves the state, a VM that was cleaned up is terminated, and no function touches the
    configuration or the com port of the VM. *)
Class BackendLaws {NV W} (name : string) (o : vm_ops NV W) := {
  start_law nv w v :
    vm_ready (vm_get_conf v) -> vc_backend (vm_get_conf v) = Some name ->
    wp (vm_start o nv w v)
       (fun p => same_vm v p.1.2 /\
          (p.1.1 < 0 /\ vm_state p.1.2 = vm_state v \/
           vm_state p.1.2 = LOAD \/ vm_state p.1.2 = RUN))
       (fun f => f = ProcessExit);
  cleanup_law nv w v :
    vm_ready (vm_get_conf v) ->
    wp (vm_cleanup o nv w v) (fun p => same_vm v p.1 /\ vm_state p.1 = TERMINATE)
       (fun f => f = ProcessExit);
  reset_law nv w v : wp (vm_reset o nv w v) (fun _ => True) (fun f => f = ProcessExit);
  poweroff_law nv w v : wp (vm_poweroff o nv w v) (fun _ => True) (fun f => f = ProcessExit);
  acpi_poweroff_law nv w v :
    wp (vm_acpi_poweroff o nv w v) (fun _ => True) (fun f => f = ProcessExit);
}.

(** An inspection of the disks that comes to an end. *)
Class InspectLaws {W} (inspect : vm_conf -> W -> C (option string * W)) :=
  inspect_law conf w : wp (inspect conf w) (fun _ => True) (fun f => f = ProcessExit).

(** bhyve keeps these promises. *)
#[export] Instance bhyve_laws {NV W} (k : kernel W) inspect `{!InspectLaws inspect} vars_dir :
  BackendLaws "bhyve" (bhyve_method (NV := NV) k inspect vars_dir).
Proof.
  split; intros nv w v.
  - intros (_ & _ & _ & (b & Hb & Hl) & _) Eb. destruct Hl as [l Hl]; [congruence |].
    eapply wp_mono; [apply (start_bhyve_any k inspect vars_dir _ inspect_law w v l Hl) | | by intros f []].
    intros p [Hsame [(_ & Hs & _) | (-> & (m & f & ->))]]; (split; [done |]); [| left; by split; [lia |]].
    right. rewrite Hs. unfold started_state. repeat case_match; auto.
  - intros ([n Hn] & _). cbn. unfold cleanup_bhyve, destroy_bhyve.
    apply wp_bind, wp_bind, (wp_deref _ n); [exact Hn |]. by apply wp_ret, wp_ret.
  - cbn. unfold reset_bhyve, suspend_bhyve. by steps_wp.
  - cbn. unfold poweroff_bhyve, suspend_bhyve. by steps_wp.
  - cbn. by apply wp_ret.
Qed.

(** ** The invariant *)

(** The faults that remain: a number of a null-modem device that does not fit
    into an [int], the end of the daemon when [fork] fails or a request lacks what
    it must have, and a tap whose name cannot be allocated. *)
Definition tolerated (f : fault) : Prop := f = SignedOverflow \/ f = ProcessExit \/ f = NullTap.

(** A configuration that can be started: it is complete, its networks are, and
    one of its plugins has its backend. *)
Definition startable {NV} (ce : vm_conf_entry NV) (m : vm_method * pl_ref NV) : Prop :=
  vm_ready (ce_conf ce) /\ vc_backend (ce_conf ce) = Some (m_name m.1) /\
  Forall (fun n => is_Some (n_type n) /\ is_Some (n_bridge n)) (stq_items (vc_nets (ce_conf ce))) /\
  forall o, set_vm_method (ce_pl_data ce) (vc_backend (ce_conf ce)) o = Done (Some m) o.

(** The com port is decided. *)
Definition comport_ready {NV} (v : vm NV) : Prop :=
  vc_comport (vm_get_conf v) = None \/ is_Some (vm_assigned_comport v).

(** Some event other than [sk] reports the end of process [pid] of VM [a]. *)
Definition watched (sk : option event) (evs : list event) (a pid : Z) : Prop :=
  exists ev, ev ∈ evs /\ Some ev <> sk /\ ev_cb ev = CbVmExit /\ ev_data ev = Some a /\
             k_ident (ev_kev ev) = pid.

(** The filter and the flags of an event fit to its call-back, and the VM it
    is for exists. *)
Definition event_ok {NV} (heap : gmap Z (vm_entry NV)) (ev : event) : Prop :=
  match ev_cb ev with
  | CbOther _ => True
  | CbTimer => k_filter (ev_kev ev) = EVFILT_TIMER /\ k_flags (ev_kev ev) = Z.lor EV_ADD EV_ONESHOT
  | CbVmExit => k_filter (ev_kev ev) = EVFILT_PROC /\ k_flags (ev_kev ev) = Z.lor EV_ADD EV_ONESHOT
  | CbReadVmOutput => k_filter (ev_kev ev) = EVFILT_READ /\ k_flags (ev_kev ev) = EV_ADD
  end /\
  match ev_cb ev with
  | CbOther _ => True
  | _ => exists a, ev_data ev = Some a /\ is_Some (heap !! a)
  end.

(** An entry: its backend is known; unless it is the exception [ex], a VM that
    is not terminated has its com port and its process is watched. *)
Definition entry_ok {NV} (sk : option event) (ex : option Z) (evs : list event) (a : Z)
    (e : vm_entry NV) : Prop :=
  (exists m, ve_method e = Some m /\ startable (vm_ent_conf (ve_vm e)) m) /\
  VM_STATE e <> REMOVE /\
  (ex <> Some a -> VM_STATE e <> TERMINATE ->
   comport_ready (ve_vm e) /\ watched sk evs a (vm_pid (ve_vm e))).

Record Inv {NV W} (sk : option event) (ex : option Z) (d : daemon NV W) : Prop := {
  inv_nodup : NoDup (ev_addr <$> d_events d);
  inv_fresh : forall ev, ev ∈ d_events d -> ev_addr ev < d_next d;
  inv_sk : forall ev, sk = Some ev -> ev ∈ d_events d;
  inv_events : forall ev, ev ∈ d_events d -> event_ok (d_heap d) ev;
  inv_list : forall a, a ∈ d_vm_list d -> is_Some (d_heap d !! a);
  inv_heap : forall a e, d_heap d !! a = Some e -> a < d_next d /\ entry_ok sk ex (d_events d) a e;
}.

(** Entry [a] of [d] has become [e'], the other entries and the list of VMs are
    the same. *)
Definition becomes {NV W} (d : daemon NV W) (a : Z) (e' : vm_entry NV) (d' : daemon NV W) : Prop :=
  d_heap d' = <[a := e']> (d_heap d) /\ d_vm_list d' = d_vm_list d.

Section invariant.
Context {NV W : Type}.
Implicit Types (d : daemon NV W) (a : Z) (ev : event) (e : vm_entry NV) (sk : option event)
               (ex : option Z).

Lemma Inv_world sk ex d w : Inv sk ex d -> Inv sk ex (d <| d_world := w |>).
Proof. by intros []. Qed.

Lemma Inv_put sk ex d a e e' :
  Inv sk ex d -> d_heap d !! a = Some e -> entry_ok sk ex (d_events d) a e' ->
  Inv sk ex (put_entry d a e').
Proof.
  intros [] He He'. split; try done; cbn.
  - intros ev Hev. destruct (inv_events0 ev Hev) as [H1 H2]. split; [done |].
    destruct (ev_cb ev); [| | | done]; destruct H2 as (b & Hb & Hs); exists b; (split; [done |]);
      rewrite lookup_insert_is_Some; destruct (decide (a = b)); auto.
  - intros b Hb. rewrite lookup_insert_is_Some. destruct (decide (a = b)); auto.
  - intros b f Hb. apply lookup_insert_Some in Hb as [[<- <-] | [_ Hb]]; [| by apply inv_heap0].
    split; [| done]. by apply (inv_heap0 a e).
Qed.

Lemma watched_mono sk evs evs' a pid : watched sk evs a pid -> evs ⊆ evs' -> watched sk evs' a pid.
Proof. intros (ev & ? & H) Hs. exists ev. split; [by apply Hs | done]. Qed.

Lemma Inv_insert_event sk ex d type kev cb data :
  Inv sk ex d ->
  (forall addr, event_ok (d_heap d) {| ev_addr := addr; ev_type := type; ev_kev := kev; ev_cb := cb;
                                ev_data := data |}) ->
  Inv sk ex (insert_event type kev cb data d).
Proof.
  intros [] Hok. split; cbn.
  - apply NoDup_cons. split; [| done]. intros H. apply list_elem_of_fmap in H as (ev & E & Hin).
    apply inv_fresh0 in Hin. lia.
  - intros ev [-> | Hin]%elem_of_cons; cbn; [lia |]. apply inv_fresh0 in Hin. lia.
  - intros ev Hsk. apply elem_of_cons. auto.
  - intros ev [-> | Hin]%elem_of_cons; [apply Hok | by apply inv_events0].
  - done.
  - intros a e He. destruct (inv_heap0 a e He) as (? & ? & ? & H). split; [lia |].
    split; [done | split; [done |]]. intros Hx Ht. destruct (H Hx Ht) as [? Hw]. split; [done |].
    eapply watched_mono; [exact Hw |]. intros x. rewrite elem_of_cons. by right.
Qed.

(** Dropping events, and with them perhaps the event [sk] that is being handled:
    those that report the end of a process stay. *)
Lemma Inv_filter_sk sk sk' ex d (f : event -> bool) :
  Inv sk ex d ->
  (forall ev, sk' = Some ev -> ev ∈ d_events d /\ f ev = true) ->
  (forall ev, ev ∈ d_events d -> ev_cb ev = CbVmExit -> Some ev <> sk -> f ev = true /\ Some ev <> sk') ->
  Inv sk' ex (d <| d_events := List.filter f (d_events d) |>).
Proof.
  intros [] Hsk Hf. assert (Hin : forall ev, ev ∈ List.filter f (d_events d) <-> ev ∈ d_events d /\ f ev = true).
  { intros ev. by rewrite !list_elem_of_In, filter_In. }
  split; cbn.
  - clear - inv_nodup0. induction (d_events d) as [| ev l IH]; [done |]. cbn in *.
    apply NoDup_cons in inv_nodup0 as [H1 H2]. destruct (f ev); [| by apply IH]. cbn.
    apply NoDup_cons. split; [| by apply IH]. intros H. apply H1.
    apply list_elem_of_fmap in H as (x & E & Hx). apply list_elem_of_fmap. exists x.
    split; [done |]. rewrite list_elem_of_In, filter_In, <- list_elem_of_In in Hx. tauto.
  - intros ev [? _]%Hin. by apply inv_fresh0.
  - intros ev Hs. by apply Hin, Hsk.
  - intros ev [? _]%Hin. by apply inv_events0.
  - done.
  - intros a e He. destruct (inv_heap0 a e He) as (? & ? & ? & H). split; [done |].
    split; [done | split; [done |]]. intros Hx Ht. destruct (H Hx Ht) as [? (ev & Hev & Hne & Hcb & Hd)].
    split; [done |]. destruct (Hf ev Hev Hcb Hne) as [Hk Hn]. exists ev.
    split; [by apply Hin |]. split; [exact Hn |]. by split.
Qed.

Lemma Inv_filter sk ex d (f : event -> bool) :
  Inv sk ex d ->
  (forall ev, ev ∈ d_events d -> ev_cb ev = CbVmExit \/ sk = Some ev -> f ev = true) ->
  Inv sk ex (d <| d_events := List.filter f (d_events d) |>).
Proof.
  intros Hd Hf. apply (Inv_filter_sk sk); [done | |].
  - intros ev Hs. pose proof (inv_sk _ _ _ Hd ev Hs). auto.
  - intros ev Hev Hcb Hne. auto.
Qed.

(** The exception ends when its entry is in order. *)
Lemma Inv_close sk d a e :
  Inv sk (Some a) d -> d_heap d !! a = Some e -> entry_ok sk None (d_events d) a e -> Inv sk None d.
Proof.
  intros [] He Hok. split; try done. intros b f Hb. split; [by eapply inv_heap0 |].
  destruct (decide (a = b)) as [<- | Hne]; [congruence |].
  destruct (inv_heap0 b f Hb) as (_ & H1 & H2 & H3). split; [done | split; [done |]].
  intros _. apply H3. congruence.
Qed.

Lemma Inv_open sk ex d a : Inv sk None d -> ex = None \/ ex = Some a -> Inv sk ex d.
Proof.
  intros [] Hex. split; try done. intros b f Hb. destruct (inv_heap0 b f Hb) as (H0 & H1 & H2 & H3).
  split; [done | split; [done | split; [done |]]]. intros _. by apply H3.
Qed.

Lemma entry_of sk ex d a e : Inv sk ex d -> d_heap d !! a = Some e -> entry_ok sk ex (d_events d) a e.
Proof. intros [] He. by apply inv_heap0. Qed.

Lemma wp_get_entry d a e (Q : vm_entry NV -> Prop) F :
  d_heap d !! a = Some e -> Q e -> wp (get_entry d a) Q F.
Proof. intros He HQ. unfold get_entry. rewrite He. by apply wp_ret. Qed.

Lemma becomes_same d a e d' :
  d_heap d !! a = Some e -> d_heap d' = d_heap d -> d_vm_list d' = d_vm_list d -> becomes d a e d'.
Proof. intros He H1 H2. split; [by rewrite H1, insert_id | done]. Qed.

Lemma becomes_lookup d a e d' : becomes d a e d' -> d_heap d' !! a = Some e.
Proof. intros [-> _]. apply lookup_insert_eq. Qed.

Lemma becomes_trans d1 d2 d3 a e2 e3 :
  becomes d1 a e2 d2 -> becomes d2 a e3 d3 -> becomes d1 a e3 d3.
Proof. intros [H1 H2] [H3 H4]. split; [by rewrite H3, H1, insert_insert_eq | congruence]. Qed.

End invariant.

(** ** Operations on one VM *)

(** Nothing but events were added. *)
Definition adds_events {NV W} (d d' : daemon NV W) : Prop :=
  d_heap d' = d_heap d /\ d_vm_list d' = d_vm_list d /\ d_events d ⊆ d_events d'.

(** What the network functions keep. *)
Definition vm_like {NV} (v v' : vm NV) : Prop :=
  same_vm v v' /\ vm_state v' = vm_state v /\ vm_pid v' = vm_pid v.

Section operations.
Context {NV W : Type} (k : kernel W) (dv : devices NV W) (ops : vm_method -> vm_ops NV W)
        (nmdm_offset : Z) `{Hlaws : forall m, BackendLaws (m_name m) (ops m)}.
Implicit Types (d : daemon NV W) (a : Z) (ev : event) (e : vm_entry NV) (sk : option event)
               (ex : option Z) (v : vm NV).

Lemma tolerated_exit f : f = ProcessExit -> tolerated f.
Proof. by right; left. Qed.

Lemma tolerated_tap f : tap_fault f -> tolerated f.
Proof. intros [-> | ->]; [by right; right | by left]. Qed.

Lemma tolerated_overflow f : f = SignedOverflow -> tolerated f.
Proof. by left. Qed.

(** *** Registering events *)

Lemma register_event0_inv sk ex d type kev cb data (Q : Z * daemon NV W -> Prop) F :
  Inv sk ex d ->
  (forall addr, event_ok (d_heap d) {| ev_addr := addr; ev_type := type; ev_kev := kev; ev_cb := cb;
                                ev_data := data |}) ->
  Q (-1, d) -> (Inv sk ex (insert_event type kev cb data d) -> Q (0, insert_event type kev cb data d)) ->
  wp (register_event0 type kev cb data d) Q F.
Proof.
  intros Hd Hok H1 H2. unfold register_event0. apply wp_bind, wp_malloc. intros []; cbn; [| by apply wp_ret].
  apply wp_bind, wp_malloc. intros []; apply wp_ret; [| done]. by apply H2, Inv_insert_event.
Qed.

Lemma set_timer_inv sk ex d a n :
  Inv sk ex d -> is_Some (d_heap d !! a) ->
  wp (set_timer d a n) (fun p => Inv sk ex p.2 /\ adds_events d p.2) tolerated.
Proof.
  intros Hd Ha. unfold set_timer. destruct (INT_MAX <=? d_timer_id d); [by apply wp_crash; left |].
  cbn zeta.
  assert (Hd' : Inv sk ex (d <| d_timer_id := d_timer_id d + 1 |>)) by (destruct Hd; by split).
  apply (register_event0_inv sk ex); [done | | |].
  - intros addr. split; [done |]. cbn. eauto.
  - split; [done |]. done.
  - intros H. split; [exact H |]. split; [done | split; [done |]].
    cbn. intros x. rewrite elem_of_cons. by right.
Qed.

Lemma malloc_all_any {A} (l : list A) F : wp (malloc_all l) (fun _ => True) F.
Proof.
  induction l as [| x l IH]; [by apply wp_ret |]. cbn. apply wp_bind, wp_malloc. intros b.
  apply wp_bind. eapply wp_mono; [exact IH | intros b' _; by apply wp_ret | done].
Qed.

Lemma register_events_inv sk ex d evs F :
  Inv sk ex d ->
  (forall addr x, x ∈ evs -> event_ok (d_heap d) {| ev_addr := addr; ev_type := EVENT; ev_kev := x.1.1;
                                             ev_cb := x.1.2; ev_data := x.2 |}) ->
  wp (register_events evs d) (fun p => Inv sk ex p.2 /\ adds_events d p.2) F.
Proof.
  intros Hd Hok. unfold register_events. apply wp_bind.
  eapply wp_mono; [apply (malloc_all_any _ F) | intros [] _ | done]; cbn [negb]; [| by apply wp_ret].
  apply wp_bind, wp_malloc. intros []; apply wp_ret; cbn [snd]; [| done].
  revert d Hd Hok. induction evs as [| [[kev cb] data] evs IH]; intros d Hd Hok; [done |]. cbn.
  destruct (IH (insert_event EVENT kev cb data d)) as [H1 (H2 & H3 & H4)].
  - apply Inv_insert_event; [done |]. intros addr. apply (Hok addr (kev, cb, data)). by left.
  - intros addr x Hx. apply (Hok addr x). by right.
  - split; [done |]. split; [done | split; [done |]]. etrans; [| exact H4]. cbn.
    intros x. rewrite elem_of_cons. by right.
Qed.

Lemma wait_for_vm_inv sk d a e :
  Inv sk (Some a) d -> d_heap d !! a = Some e -> comport_ready (ve_vm e) ->
  wp (wait_for_vm d a)
     (fun p => adds_events d p.2 /\ Inv sk (Some a) p.2 /\ (p.1 < 0 \/ Inv sk None p.2)) tolerated.
Proof.
  intros Hd He Hc. unfold wait_for_vm. apply wp_bind, (wp_get_entry d a e _ _ He).
  apply (register_event0_inv sk (Some a)); [done | | |].
  - intros addr. split; [done |]. cbn. eauto.
  - split; [done |]. split; [done | left; cbn; lia].
  - intros H. split; [| split; [exact H | right]].
    + split; [done | split; [done |]]. cbn. intros x. rewrite elem_of_cons. by right.
    + apply (Inv_close sk _ a e H He). destruct (entry_of _ _ _ _ _ Hd He) as (H1 & H2 & _).
      split; [done | split; [done |]]. intros _ _. split; [done |]. eexists. split; [by left |].
      split; [| done]. intros Hsk. symmetry in Hsk. apply (inv_sk _ _ _ Hd) in Hsk.
      apply (inv_fresh _ _ _ Hd) in Hsk. cbn in Hsk. lia.
Qed.

Lemma wait_for_vm_output_inv sk ex d a e :
  Inv sk ex d -> d_heap d !! a = Some e ->
  wp (wait_for_vm_output d a) (fun p => Inv sk ex p.2 /\ adds_events d p.2) tolerated.
Proof.
  intros Hd He. unfold wait_for_vm_output. apply wp_bind, (wp_get_entry d a e _ _ He).
  apply register_events_inv; [done |]. intros addr x Hx.
  assert (E : exists fd, x = ({| k_ident := fd; k_filter := EVFILT_READ; k_flags := EV_ADD; k_data := 0 |},
                         CbReadVmOutput, Some a)).
  { apply elem_of_app in Hx as [Hx | Hx]; case_match; (by apply not_elem_of_nil in Hx) ||
      (apply list_elem_of_singleton in Hx; by eauto). }
  destruct E as [fd ->]. split; [done |]. cbn. eauto.
Qed.

(** *** Changing the entry *)

Lemma entry_like sk ex evs a e v' :
  entry_ok sk ex evs a e -> vm_like (ve_vm e) v' -> entry_ok sk ex evs a (e <| ve_vm := v' |>).
Proof.
  intros (Hm & Hr & Hw) [[Hc Hp] [Hs Hpid]]. unfold entry_ok, VM_STATE, comport_ready, vm_get_conf in *.
  cbn. rewrite Hc, Hs, Hpid, Hp. done.
Qed.

Lemma entry_terminated sk ex evs a e v' :
  entry_ok sk ex evs a e -> vm_ent_conf v' = vm_ent_conf (ve_vm e) -> vm_state v' = TERMINATE ->
  entry_ok sk ex evs a (e <| ve_vm := v' |>).
Proof.
  intros (Hm & _ & _) Hc Hs. unfold entry_ok, VM_STATE. cbn. rewrite Hc, Hs. done.
Qed.

Lemma becomes_put d a e e' w : becomes d a e' (put_entry d a e' <| d_world := w |>).
Proof. done. Qed.

Lemma vm_like_refl v : vm_like v v.
Proof. done. Qed.

Lemma vm_like_trans v1 v2 v3 : vm_like v1 v2 -> vm_like v2 v3 -> vm_like v1 v3.
Proof. unfold vm_like, same_vm. intros ([? ?] & ? & ?) ([? ?] & ? & ?). split_and!; congruence. Qed.

Lemma same_but_taps_like v v' : same_but_taps v v' -> vm_like v v'.
Proof. intros ->. by destruct v. Qed.

Lemma remove_taps_like w v : vm_like v (remove_taps k w v).1.2.
Proof. apply same_but_taps_like, remove_taps_any. Qed.

Lemma assign_taps_like w v :
  Forall net_named (stq_items (vc_nets (vm_get_conf v))) ->
  wp (assign_taps k w v) (fun p => vm_like v p.1.2) tolerated.
Proof.
  intros Hn. eapply wp_mono; [by apply assign_taps_any | intros p; apply same_but_taps_like | apply tolerated_tap].
Qed.

Lemma activate_taps_same w v : wp (activate_taps k w v) (fun p => p.1.2 = v) tolerated.
Proof. eapply wp_mono; [apply activate_taps_any | done | apply tolerated_tap]. Qed.

Lemma wp_method_ops e m (Q : vm_ops NV W * option NV -> Prop) F :
  ve_method e = Some m -> Q (ops m.1, pl_target (ce_pl_data (vm_ent_conf (ve_vm e))) m.2) -> wp (method_ops ops e) Q F.
Proof. intros Hm HQ. unfold method_ops. rewrite Hm. by apply wp_bind, wp_ret, wp_ret. Qed.

Lemma wp_call_plugins d a e (Q : daemon NV W -> Prop) F :
  d_heap d !! a = Some e -> (forall w, Q (d <| d_world := w |>)) -> wp (call_plugins dv d a) Q F.
Proof. intros He HQ. unfold call_plugins. apply wp_bind, (wp_get_entry d a e _ _ He), wp_ret, HQ. Qed.

Lemma cleanup_inv sk ex d a e :
  Inv sk ex d -> d_heap d !! a = Some e ->
  wp (cleanup_virtual_machine k ops d a)
     (fun d' => exists v', becomes d a (e <| ve_vm := v' |>) d' /\ Inv sk ex d' /\
                d_events d' = d_events d /\ same_vm (ve_vm e) v' /\ vm_state v' = TERMINATE) tolerated.
Proof.
  intros Hd He. pose proof (entry_of _ _ _ _ _ Hd He) as Hok. pose proof Hok as ((m & Hm & Hst) & _).
  unfold cleanup_virtual_machine. apply wp_bind, (wp_get_entry d a e _ _ He).
  pose proof (remove_taps_like (d_world d) (ve_vm e)) as Hl.
  destruct (remove_taps k (d_world d) (ve_vm e)) as [[rc v1] w1]. cbn in Hl.
  apply wp_bind, (wp_method_ops e m); [done |]. apply wp_bind. destruct Hl as [[Hc1 Hp1] _].
  eapply wp_mono; [apply (cleanup_law (BackendLaws := Hlaws m.1)) | | intros f; apply tolerated_exit].
  { unfold vm_get_conf. rewrite Hc1. by apply Hst. }
  intros [v2 w2] [[Hc2 Hp2] Hs2]. apply wp_ret. exists v2. cbn in *.
  assert (Hv : same_vm (ve_vm e) v2) by (split; congruence).
  split; [done |]. split; [| done]. apply Inv_world. eapply Inv_put; [done | exact He |].
  apply entry_terminated; [done | apply Hv | done].
Qed.

Lemma VM_POWEROFF_inv sk ex d a e :
  Inv sk ex d -> d_heap d !! a = Some e ->
  wp (VM_POWEROFF ops d a) (fun d' => Inv sk ex d' /\ becomes d a e d') tolerated.
Proof.
  intros Hd He. destruct (entry_of _ _ _ _ _ Hd He) as ((m & Hm & _) & _).
  unfold VM_POWEROFF. apply wp_bind, (wp_get_entry d a e _ _ He).
  apply wp_bind, (wp_method_ops e m); [done |]. apply wp_bind.
  eapply wp_mono; [apply (poweroff_law (BackendLaws := Hlaws m.1)) | intros [rc w] _ |
                   intros f; apply tolerated_exit].
  apply wp_ret. split; [by apply Inv_world | by apply becomes_same].
Qed.

Lemma VM_RESET_inv sk ex d a e :
  Inv sk ex d -> d_heap d !! a = Some e ->
  wp (VM_RESET ops d a) (fun d' => Inv sk ex d' /\ becomes d a e d') tolerated.
Proof.
  intros Hd He. destruct (entry_of _ _ _ _ _ Hd He) as ((m & Hm & _) & _).
  unfold VM_RESET. apply wp_bind, (wp_get_entry d a e _ _ He).
  apply wp_bind, (wp_method_ops e m); [done |]. apply wp_bind.
  eapply wp_mono; [apply (reset_law (BackendLaws := Hlaws m.1)) | intros [rc w] _ |
                   intros f; apply tolerated_exit].
  apply wp_ret. split; [by apply Inv_world | by apply becomes_same].
Qed.

Lemma VM_ACPI_POWEROFF_inv sk ex d a e :
  Inv sk ex d -> d_heap d !! a = Some e ->
  wp (VM_ACPI_POWEROFF ops d a) (fun d' => Inv sk ex d' /\ becomes d a e d') tolerated.
Proof.
  intros Hd He. destruct (entry_of _ _ _ _ _ Hd He) as ((m & Hm & _) & _).
  unfold VM_ACPI_POWEROFF. apply wp_bind, (wp_get_entry d a e _ _ He).
  apply wp_bind, (wp_method_ops e m); [done |]. apply wp_bind.
  eapply wp_mono; [apply (acpi_poweroff_law (BackendLaws := Hlaws m.1)) | intros [rc w] _ |
                   intros f; apply tolerated_exit].
  apply wp_ret. split; [by apply Inv_world | by apply becomes_same].
Qed.

(** *** Starting *)

(** A start that goes on: the entry has a new VM with the same configuration,
    and the invariant holds but for the entry itself. *)
Definition starting sk a d (e : vm_entry NV) (v' : vm NV) (d' : daemon NV W) : Prop :=
  becomes d a (e <| ve_vm := v' |>) d' /\ Inv sk (Some a) d' /\
  vm_ent_conf v' = vm_ent_conf (ve_vm e).

Lemma choose_method_inv sk ex d a e :
  Inv sk ex d -> d_heap d !! a = Some e -> wp (choose_method d a) (fun p => p = (0, d)) tolerated.
Proof.
  intros Hd He. destruct (entry_of _ _ _ _ _ Hd He) as ((m & Hm & _ & _ & _ & Hset) & _).
  unfold choose_method. apply wp_bind, (wp_get_entry d a e _ _ He). apply wp_bind.
  intros o. rewrite Hset. unfold mret, C_ret. f_equal.
  assert (E : e <| ve_method := Some m |> = e) by (destruct e; cbn in *; by rewrite Hm).
  rewrite E. unfold put_entry. rewrite insert_id by done. by destruct d.
Qed.

Lemma nmdm_digits_any (n : Z) s : wp (nmdm_digits n s) (fun _ => True) (fun f => f = SignedOverflow).
Proof.
  revert n. induction s as [| c s IH]; intros n; cbn; [by apply wp_ret |].
  destruct (is_digit c); [| apply IH]. destruct (_ <=? INT_MAX); [apply IH | by apply wp_crash].
Qed.

Lemma get_nmdm_number_any p : wp (get_nmdm_number p) (fun _ => True) (fun f => f = SignedOverflow).
Proof. destruct p; [apply nmdm_digits_any | by apply wp_ret]. Qed.

Lemma max_vm_nmdm_any sk ex d l max :
  Inv sk ex d -> l ⊆ d_vm_list d ->
  wp (max_vm_nmdm d l max) (fun _ => True) tolerated.
Proof.
  intros Hd. revert max. induction l as [| a l IH]; intros max Hl; [by apply wp_ret |]. cbn.
  destruct (inv_list _ _ _ Hd a) as [e He]; [apply Hl; by left |].
  apply wp_bind, (wp_get_entry d a e _ _ He).
  do 2 (apply wp_bind; eapply wp_mono; [apply get_nmdm_number_any | intros ? _ | intros f; apply tolerated_overflow]).
  apply IH. intros b Hb. apply Hl. by right.
Qed.

Lemma max_dev_nmdm_any l max : wp (max_dev_nmdm l max) (fun _ => True) tolerated.
Proof.
  revert max. induction l as [| s l IH]; intros max; [by apply wp_ret |].
  apply wp_bind. eapply wp_mono; [apply (get_nmdm_number_any (Some s)) | intros n _; apply IH | intros f; apply tolerated_overflow].
Qed.

Lemma put_starting sk a d e v' w :
  Inv sk (Some a) d -> d_heap d !! a = Some e -> vm_ent_conf v' = vm_ent_conf (ve_vm e) ->
  vm_state v' <> REMOVE ->
  starting sk a d e v' (put_vm d a e v' <| d_world := w |>).
Proof.
  intros Hd He Hc Hs. split; [done | split; [| done]]. apply Inv_world. eapply Inv_put; [done | exact He |].
  destruct (entry_of _ _ _ _ _ Hd He) as (Hm & _). unfold entry_ok. cbn. by rewrite Hc.
Qed.

Lemma starting_trans sk a d d1 d2 e v1 v2 :
  starting sk a d e v1 d1 -> starting sk a d1 (e <| ve_vm := v1 |>) v2 d2 -> starting sk a d e v2 d2.
Proof.
  intros (H1 & _ & H2) (H3 & H4 & H5). split; [by eapply becomes_trans | split; [done |]].
  by rewrite H5.
Qed.

Lemma assign_comport_inv sk d a e :
  Inv sk (Some a) d -> d_heap d !! a = Some e ->
  wp (assign_comport dv nmdm_offset d a)
     (fun p => exists v', starting sk a d e v' p.2 /\ vm_state v' = vm_state (ve_vm e) /\
        (comport_ready (ve_vm e) -> p.1 = 0) /\ (p.1 < 0 \/ comport_ready v')) tolerated.
Proof.
  intros Hd He. unfold assign_comport. apply wp_bind, (wp_get_entry d a e _ _ He).
  assert (Hr : vm_state (ve_vm e) <> REMOVE) by apply (entry_of _ _ _ _ _ Hd He).
  assert (H0 : forall w, starting sk a d e (ve_vm e) (d <| d_world := w |>)).
  { intros w. split; [| split; [by apply Inv_world | done]].
    apply becomes_same; [| done | done]. rewrite He. by destruct e. }
  assert (H1 : starting sk a d e (ve_vm e) d).
  { split; [| split; [done | done]]. apply becomes_same; [| done | done]. rewrite He. by destruct e. }
  destruct (vc_comport (VM_CONF e)) as [c |] eqn:Ec;
    [| apply wp_ret; exists (ve_vm e); split_and!; try done; right; by left].
  destruct (vm_assigned_comport (ve_vm e)) as [c' |] eqn:Ea;
    [apply wp_ret; exists (ve_vm e); split_and!; try done; right; right; by eauto |].
  assert (Hn : comport_ready (ve_vm e) -> -1 = 0).
  { intros [H | [? H]]; unfold VM_CONF in Ec; congruence. }
  assert (Hput : forall s w, exists v', starting sk a d e v'
            (put_vm d a e (ve_vm e <| vm_assigned_comport := Some s |>) <| d_world := w |>) /\
            vm_state v' = vm_state (ve_vm e) /\ (comport_ready (ve_vm e) -> 0 = 0) /\
            (0 < 0 \/ comport_ready v')).
  { intros s w. eexists. split; [by apply put_starting |]. split_and!; try done. right; right. by eexists. }
  destruct (negb (strcasecmp c "auto" =? 0)).
  - apply wp_bind, wp_strdup; apply wp_ret; [apply (Hput c (d_world d)) |].
    exists (ve_vm e). split_and!; try done. left. cbn. lia.
  - apply wp_bind. eapply wp_mono; [by apply (max_vm_nmdm_any sk (Some a)) | intros max _ | done].
    destruct (sys_dev dv (d_world d)) as [names |];
      [| apply wp_ret; exists (ve_vm e); split_and!; try done; left; cbn; lia].
    apply wp_bind. eapply wp_mono; [apply max_dev_nmdm_any | intros max' _ | done]. cbn zeta.
    destruct (INT_MAX <=? _); [by apply wp_crash; left |].
    apply wp_bind, wp_strdup;
      [| apply wp_ret; exists (ve_vm e); split_and!; try done; left; cbn; lia].
    destruct (sys_stat dv _ (d_world d)) as [[] w]; apply wp_ret; [apply Hput |].
    exists (ve_vm e). split_and!; try done; [apply H0 | left; cbn; lia].
Qed.

Lemma starting_refl sk a d e w :
  Inv sk (Some a) d -> d_heap d !! a = Some e -> starting sk a d e (ve_vm e) (d <| d_world := w |>).
Proof.
  intros Hd He. split; [| split; [by apply Inv_world | done]].
  apply becomes_same; [| done | done]. rewrite He. by destruct e.
Qed.

Lemma put_put d a e v1 v2 w1 w2 :
  put_vm (put_vm d a e v1 <| d_world := w1 |>) a e v2 <| d_world := w2 |>
  = put_vm d a e v2 <| d_world := w2 |>.
Proof. unfold put_vm, put_entry. cbn. by rewrite insert_insert_eq. Qed.

Lemma prepare_taps_inv sk d a e :
  Inv sk (Some a) d -> d_heap d !! a = Some e -> comport_ready (ve_vm e) ->
  wp (prepare_taps k d a)
     (fun p => exists v', starting sk a d e v' p.2 /\ vm_state v' = vm_state (ve_vm e) /\
        comport_ready v' /\ (vm_state (ve_vm e) <> TERMINATE -> p.1 = 0)) tolerated.
Proof.
  intros Hd He Hc. pose proof (entry_of _ _ _ _ _ Hd He) as ((m & _ & _ & _ & Hn & _) & Hr & _).
  assert (Hput : forall v' w n, vm_like (ve_vm e) v' -> (VM_STATE e <> TERMINATE -> n = 0) ->
            exists v'', starting sk a d e v'' (n, put_vm d a e v' <| d_world := w |>).2 /\
              vm_state v'' = vm_state (ve_vm e) /\ comport_ready v'' /\
              (vm_state (ve_vm e) <> TERMINATE -> n = 0)).
  { intros v' w n ([H1 H2] & H3 & _) Hz. exists v'. split_and!; try done.
    - apply put_starting; try done. by rewrite H3.
    - unfold comport_ready, vm_get_conf in *. by rewrite H1, H2. }
  unfold prepare_taps. apply wp_bind, (wp_get_entry d a e _ _ He).
  destruct (decide (VM_STATE e = TERMINATE)) as [E | E].
  - apply wp_bind. eapply wp_mono; [by apply assign_taps_like | | done].
    intros [[rc v1] w1] L1. cbn in L1. destruct (rc <? 0); [apply wp_ret; by apply Hput |]. apply wp_bind.
    eapply wp_mono; [apply activate_taps_same | intros [[rc2 v2] w2] Hv2; cbn in Hv2; subst v2; destruct (rc2 <? 0) | done].
    + pose proof (remove_taps_like w2 v1) as L3. destruct (remove_taps k w2 v1) as [[rc3 v3] w3].
      apply wp_ret. rewrite put_put. apply (Hput v3 w3 (-1)); [| done]. by eapply vm_like_trans.
    + apply wp_ret. rewrite put_put. by apply (Hput v1 w2 0).
  - apply wp_ret. exists (ve_vm e). split; [| done]. split; [| done].
    apply becomes_same; [| done | done]. rewrite He. by destruct e.
Qed.

Lemma VM_START_inv sk d a e :
  Inv sk (Some a) d -> d_heap d !! a = Some e -> comport_ready (ve_vm e) ->
  wp (VM_START ops d a)
     (fun p => exists v', starting sk a d e v' p.2 /\ comport_ready v' /\
        (p.1 < 0 \/ vm_state v' = LOAD \/ vm_state v' = RUN)) tolerated.
Proof.
  intros Hd He Hc. pose proof (entry_of _ _ _ _ _ Hd He) as ((m & Hm & Hst) & Hr & _).
  unfold VM_START. apply wp_bind, (wp_get_entry d a e _ _ He).
  apply wp_bind, (wp_method_ops e m); [done |]. apply wp_bind.
  eapply wp_mono; [apply (start_law (BackendLaws := Hlaws m.1)); apply Hst | |
                   intros f; apply tolerated_exit].
  intros [[rc v'] w] [[H1 H2] H3]. apply wp_ret. exists v'. cbn in *. split_and!.
  - apply put_starting; try done. destruct H3 as [[_ ->] | [-> | ->]]; done.
  - unfold comport_ready, vm_get_conf in *. by rewrite H1, H2.
  - tauto.
Qed.

Lemma wait_for_both_inv sk d a e :
  Inv sk (Some a) d -> d_heap d !! a = Some e -> comport_ready (ve_vm e) ->
  wp (wait_for_both d a)
     (fun p => Inv sk (Some a) p.2 /\ adds_events d p.2 /\ (p.1 < 0 \/ Inv sk None p.2)) tolerated.
Proof.
  intros Hd He Hc. unfold wait_for_both. apply wp_bind.
  eapply wp_mono; [by apply (wait_for_vm_inv sk d a e) | | done].
  intros [rc d1] (Ha & H1 & H2). cbn in *. destruct (Z.ltb_spec rc 0) as [E | E].
  { apply wp_ret. split_and!; try done. left. cbn. lia. }
  destruct H2 as [? | H2]; [lia |]. apply wp_bind. pose proof Ha as (Hh & Hl & He1).
  eapply wp_mono; [apply (wait_for_vm_output_inv sk None d1 a e); [done | by rewrite Hh] | | done].
  intros [rc2 d2] [H3 (Hh2 & Hl2 & He2)]. apply wp_ret. cbn in *.
  split_and!; [by apply (Inv_open _ _ _ a); auto | split_and!; [congruence | congruence | by etrans] |].
  by right.
Qed.

Lemma after_start_inv sk d a e :
  Inv sk None d -> d_heap d !! a = Some e ->
  wp (after_start dv d a)
     (fun p => exists v', becomes d a (e <| ve_vm := v' |>) p.2 /\ Inv sk None p.2 /\
                          vm_like (ve_vm e) v') tolerated.
Proof.
  intros Hd He. unfold after_start. apply wp_bind, (wp_get_entry d a e _ _ He). apply wp_bind.
  assert (Heta : e <| ve_vm := ve_vm e |> = e) by (by destruct e).
  eapply (wp_mono _ (fun p => Inv sk None p.2 /\ adds_events d p.2) _ tolerated); [| | done].
  { repeat case_match; try (by apply wp_ret). by apply set_timer_inv; eauto. }
  intros [rc d1] [H1 (Hh & Hl & _)]. cbn in *.
  assert (Hb : becomes d a e d1) by (by apply becomes_same).
  destruct (rc <? 0); [apply wp_ret; exists (ve_vm e); by rewrite Heta |].
  assert (He1 : d_heap d1 !! a = Some e) by (by rewrite Hh).
  apply wp_bind, (wp_get_entry d1 a e _ _ He1).
  destruct (vc_err_logfile (VM_CONF e)); [| apply wp_ret; exists (ve_vm e); by rewrite Heta].
  destruct (vm_logfd (ve_vm e) =? -1); [| apply wp_ret; exists (ve_vm e); by rewrite Heta].
  destruct (sys_open_log dv (VM_CONF e) (d_world d1)) as [fd w]. apply wp_ret. eexists.
  assert (L : vm_like (ve_vm e) (ve_vm e <| vm_logfd := fd |>)) by done.
  split; [| split; [| exact L]].
  - by eapply becomes_trans; [exact Hb |].
  - apply Inv_world. eapply Inv_put; [done | exact He1 |].
    apply entry_like; [by eapply entry_of | done].
Qed.

(** What a start leaves: the VM with the same configuration is terminated,
    loading or running. *)
Definition after_starting sk d a (e : vm_entry NV) (d' : daemon NV W) : Prop :=
  exists v', becomes d a (e <| ve_vm := v' |>) d' /\ Inv sk None d' /\
        vm_ent_conf v' = vm_ent_conf (ve_vm e) /\
        (vm_state v' = TERMINATE \/ vm_state v' = LOAD \/ vm_state v' = RUN).

Lemma Inv_close_terminated sk d a e :
  Inv sk (Some a) d -> d_heap d !! a = Some e -> VM_STATE e = TERMINATE -> Inv sk None d.
Proof.
  intros Hd He Hs. eapply Inv_close; [done | exact He |].
  destruct (entry_of _ _ _ _ _ Hd He) as (H1 & H2 & _). by split_and!.
Qed.

Lemma cleanup_after sk d d1 a e v1 :
  starting sk a d e v1 d1 ->
  wp (cleanup_virtual_machine k ops d1 a) (after_starting sk d a e) tolerated.
Proof.
  intros (Hb & Hd & Hc). pose proof (becomes_lookup _ _ _ _ Hb) as He1.
  eapply wp_mono; [by apply (cleanup_inv sk (Some a) d1 a (e <| ve_vm := v1 |>) Hd) | | done].
  intros d2 (v2 & Hb2 & Hd2 & _ & [Hc2 _] & Hs2). exists v2. cbn in Hc2.
  pose proof (becomes_trans _ _ _ _ _ _ Hb Hb2) as Hb3. split_and!; [exact Hb3 | | congruence | by left].
  eapply Inv_close_terminated; [done | apply (becomes_lookup _ _ _ _ Hb3) | done].
Qed.

Lemma stays_terminated sk d d1 a e v1 :
  starting sk a d e v1 d1 -> vm_state v1 = TERMINATE -> after_starting sk d a e d1.
Proof.
  intros (Hb & Hd & Hc) Hs. exists v1. split_and!; [exact Hb | | exact Hc | by left].
  eapply Inv_close_terminated; [done | apply (becomes_lookup _ _ _ _ Hb) | done].
Qed.

(** From the call of the backend on. *)
Lemma start_rest_inv sk d d2 a e v2 :
  starting sk a d e v2 d2 -> comport_ready v2 ->
  wp ('(rc, d) ← VM_START ops d2 a;
      if rc <? 0 then d ← cleanup_virtual_machine k ops d a; mret (-1, d)
      else
        '(rc, d) ← wait_for_both d a;
        if rc <? 0 then
          d ← VM_POWEROFF ops d a;
          d ← cleanup_virtual_machine k ops d a;
          mret (-1, d)
        else d ← call_plugins dv d a; after_start dv d a)
     (fun p => after_starting sk d a e p.2) tolerated.
Proof.
  intros S2 C2. pose proof S2 as (Hb2 & Hd2 & Hc2).
  apply wp_bind. eapply wp_mono; [by eapply (VM_START_inv sk d2 a _ Hd2 (becomes_lookup _ _ _ _ Hb2)) | | done].
  intros [rc3 d3] (v3 & S3' & C3 & R3). cbn [fst snd ve_vm] in *.
  assert (S3 : starting sk a d e v3 d3) by (by eapply starting_trans). clear S3'.
  destruct (Z.ltb_spec rc3 0) as [L3 | L3].
  { apply wp_bind. eapply wp_mono; [by eapply cleanup_after | intros d4 H4; by apply wp_ret | done]. }
  destruct R3 as [? | R3]; [lia |]. pose proof S3 as (Hb3 & Hd3 & Hc3).
  apply wp_bind. eapply wp_mono; [by eapply (wait_for_both_inv sk d3 a _ Hd3 (becomes_lookup _ _ _ _ Hb3)) | | done].
  intros [rc4 d4] (H4 & (Hh4 & Hl4 & _) & R4). cbn [fst snd ve_vm] in *.
  assert (Hb4 : becomes d a (e <| ve_vm := v3 |>) d4) by (destruct Hb3; split; congruence).
  pose proof (becomes_lookup _ _ _ _ Hb4) as He4.
  destruct (Z.ltb_spec rc4 0) as [L4 | L4].
  - apply wp_bind. eapply wp_mono; [by apply (VM_POWEROFF_inv sk (Some a) d4 a _ H4 He4) | | done].
    intros d5 [H5 Hb5]. apply wp_bind.
    eapply wp_mono; [eapply (cleanup_after sk d d5 a e v3) | intros d6 H6; by apply wp_ret | done].
    split_and!; [by eapply becomes_trans | done | done].
  - destruct R4 as [? | R4]; [lia |]. apply wp_bind, (wp_call_plugins d4 a _ _ _ He4). intros w.
    eapply wp_mono; [by apply (after_start_inv sk (d4 <| d_world := w |>) a _ (Inv_world _ _ _ _ R4) He4) | | done].
    intros [rc5 d5] (v5 & Hb5 & H5 & [[Hc5 _] [Hs5 _]]). exists v5. cbn in Hc5, Hs5.
    split_and!; [by eapply becomes_trans; [exact Hb4 |] | done | congruence | right; by rewrite Hs5].
Qed.

Lemma start_virtual_machine_inv sk d a e :
  Inv sk (Some a) d -> d_heap d !! a = Some e ->
  VM_STATE e = TERMINATE \/ comport_ready (ve_vm e) ->
  wp (start_virtual_machine k dv ops nmdm_offset d a)
     (fun p => after_starting sk d a e p.2) tolerated.
Proof.
  intros Hd He Hs. unfold start_virtual_machine. apply wp_bind.
  eapply wp_mono; [by apply (choose_method_inv sk (Some a) d a e) | intros ? -> | done]. cbn.
  apply wp_bind. eapply wp_mono; [by apply (assign_comport_inv sk d a e) | | done].
  intros [rc1 d1] (v1 & S1 & Es1 & R1 & R1'). cbn [fst snd] in *.
  destruct (Z.ltb_spec rc1 0) as [L1 | L1].
  { apply wp_ret. eapply stays_terminated; [exact S1 |].
    destruct Hs as [Hs | Hs]; [by rewrite Es1 | specialize (R1 Hs); lia]. }
  destruct R1' as [? | C1]; [lia |]. pose proof S1 as (Hb1 & Hd1 & Hc1).
  apply wp_bind. eapply wp_mono; [by eapply (prepare_taps_inv sk d1 a _ Hd1 (becomes_lookup _ _ _ _ Hb1)) | | done].
  intros [rc2 d2] (v2 & S2' & Es2 & C2 & R2). cbn [fst snd ve_vm] in *.
  assert (S2 : starting sk a d e v2 d2) by (by eapply starting_trans). clear S2'.
  destruct (Z.ltb_spec rc2 0) as [L2 | L2]; [| by eapply start_rest_inv].
  apply wp_ret. eapply stays_terminated; [exact S2 |].
  destruct (decide (vm_state v1 = TERMINATE)) as [Ht | Ht]; [by rewrite Es2 | specialize (R2 Ht); lia].
Qed.

(** *** Stopping *)

(** The event that is being handled reports the end of a process. *)
Definition exit_event sk : Prop := forall ev, sk = Some ev -> ev_cb ev = CbVmExit.

(** The events that report the end of a process stay. *)
Lemma stop_waiting_inv sk ex d (fn : event -> bool) :
  Inv sk ex d -> exit_event sk -> (forall ev, k_filter (ev_kev ev) = EVFILT_PROC -> fn ev = false) ->
  Inv sk ex (stop_waiting_for fn d).
Proof.
  intros Hd Hsk Hfn. apply Inv_filter; [done |]. intros ev Hev Hcb.
  assert (Hx : ev_cb ev = CbVmExit) by (destruct Hcb; [done | by apply Hsk]).
  destruct (inv_events _ _ _ Hd ev Hev) as [Hf _]. rewrite Hx in Hf. rewrite Hfn; [done | apply Hf].
Qed.

Lemma stop_virtual_machine_inv sk ex d a e :
  Inv sk ex d -> d_heap d !! a = Some e -> exit_event sk ->
  wp (stop_virtual_machine k dv ops d a)
     (fun d' => exists v', becomes d a (e <| ve_vm := v' |>) d' /\ Inv sk ex d' /\
                same_vm (ve_vm e) v' /\ vm_state v' = TERMINATE) tolerated.
Proof.
  intros Hd He Hsk. unfold stop_virtual_machine. apply wp_bind, (wp_get_entry d a e _ _ He).
  set (d1 := stop_waiting_for _ d). assert (Hd1 : Inv sk ex d1).
  { apply stop_waiting_inv; try done. intros ev Hf. unfold vm_output_and_timers. rewrite Hf. cbn.
    by rewrite andb_false_r. }
  apply wp_bind. eapply wp_mono; [by apply (cleanup_inv sk ex d1 a e) | | done].
  intros d2 (v' & Hb & Hd2 & _ & Hs). apply (wp_call_plugins d2 a _ _ _ (becomes_lookup _ _ _ _ Hb)). intros w.
  exists v'. split; [done |]. split; [by apply Inv_world | done].
Qed.

Lemma put_install_inv sk ex d a e b :
  Inv sk ex d -> d_heap d !! a = Some e ->
  wp (put_install d a b)
     (fun d' => exists v', becomes d a (e <| ve_vm := v' |>) d' /\ Inv sk ex d' /\
                vm_state v' = VM_STATE e) tolerated.
Proof.
  intros Hd He. unfold put_install. apply wp_bind, (wp_get_entry d a e _ _ He). apply wp_ret.
  eexists. split; [done | split; [| done]]. eapply Inv_put; [done | exact He |].
  destruct (entry_of _ _ _ _ _ Hd He) as ((m & Hm & Hst) & Hr & Hw). split; [by exists m |]. by split.
Qed.

Lemma change_state_inv sk ex d a e s :
  Inv sk ex d -> d_heap d !! a = Some e -> s = TERMINATE \/ (s = STOP /\ VM_STATE e <> TERMINATE) ->
  wp (change_state d a s)
     (fun d' => becomes d a (e <| ve_vm := ve_vm e <| vm_state := s |> |>) d' /\ Inv sk ex d') tolerated.
Proof.
  intros Hd He Hs. unfold change_state. apply wp_bind, (wp_get_entry d a e _ _ He). apply wp_ret.
  split; [done |]. eapply Inv_put; [done | exact He |].
  destruct (entry_of _ _ _ _ _ Hd He) as (H1 & H2 & H3). split; [exact H1 |].
  destruct Hs as [-> | [-> Hs]]; cbn; (split; [done |]); [done |]. intros Hx _. by apply H3.
Qed.

(** *** Call-backs *)

(** The state of a VM after a timer has expired. *)
Definition timer_trans (s s' : STATE) : Prop :=
  match s with
  | TERMINATE => s' = TERMINATE \/ s' = LOAD \/ s' = RUN
  | _ => s' = s
  end.

(** The state of a VM after its process has ended. *)
Definition exit_trans (s s' : STATE) : Prop :=
  match s with
  | LOAD | RUN => s' = TERMINATE \/ s' = LOAD \/ s' = RUN
  | _ => s' = TERMINATE
  end.

(** One VM has made a transition, the others are as before. *)
Definition moves (R : STATE -> STATE -> Prop) d a (e : vm_entry NV) (d' : daemon NV W) : Prop :=
  exists e', becomes d a e' d' /\ R (VM_STATE e) (VM_STATE e').

Lemma on_timer_inv sk d a e :
  Inv sk None d -> d_heap d !! a = Some e ->
  wp (on_timer k dv ops nmdm_offset d a)
     (fun p => Inv sk None p.2 /\ moves timer_trans d a e p.2) tolerated.
Proof.
  intros Hd He. unfold on_timer. apply wp_bind, (wp_get_entry d a e _ _ He).
  assert (Hsame : forall d', becomes d a e d' -> VM_STATE e <> TERMINATE -> moves timer_trans d a e d').
  { intros d' Hb Hs. exists e. split; [done |]. by destruct (VM_STATE e). }
  destruct (VM_STATE e) eqn:Es.
  - apply wp_bind. eapply wp_mono; [apply (start_virtual_machine_inv sk d a e) | | done].
    + apply (Inv_open _ _ _ a); auto.
    + done.
    + by left.
    + intros [rc d'] (v' & Hb & Hi & _ & Hs). apply wp_ret. split; [done |]. eexists. split; [exact Hb |].
      rewrite Es. exact Hs.
  - apply wp_bind. eapply wp_mono; [by apply (VM_POWEROFF_inv sk None d a e) | | done].
    intros d' [Hi Hb]. apply wp_ret. auto.
  - apply wp_ret. split; [done |]. apply Hsame; [by apply becomes_same | done].
  - apply wp_bind. eapply wp_mono; [by apply (VM_POWEROFF_inv sk None d a e) | | done].
    intros d' [Hi Hb]. apply wp_ret. auto.
  - apply wp_bind. eapply wp_mono; [by apply (VM_POWEROFF_inv sk None d a e) | | done].
    intros d' [Hi Hb]. apply wp_ret. auto.
  - apply wp_bind. eapply wp_mono; [by apply (VM_POWEROFF_inv sk None d a e) | | done].
    intros d' [Hi Hb]. apply wp_ret. auto.
Qed.

(** The end of the process of a VM that is not started again. *)
Lemma stopped_inv sk d a e :
  Inv sk (Some a) d -> d_heap d !! a = Some e -> exit_event sk ->
  wp (d ← stop_virtual_machine k dv ops d a; d ← clear_install d a; mret (0, d))
     (fun p => Inv sk None p.2 /\ exists e', becomes d a e' p.2 /\ VM_STATE e' = TERMINATE) tolerated.
Proof.
  intros Hd He Hsk. apply wp_bind.
  eapply wp_mono; [by apply (stop_virtual_machine_inv sk (Some a) d a e) | | done].
  intros d1 (v1 & Hb1 & Hd1 & _ & Hs1). pose proof (becomes_lookup _ _ _ _ Hb1) as He1. apply wp_bind.
  eapply wp_mono; [by apply (put_install_inv sk (Some a) d1 a _ false Hd1 He1) | | done].
  intros d2 (v2 & Hb2 & Hd2 & Hs2). apply wp_ret. cbn [snd].
  pose proof (becomes_trans _ _ _ _ _ _ Hb1 Hb2) as Hb.
  assert (Ht : vm_state v2 = TERMINATE) by (rewrite Hs2; exact Hs1).
  split; [| by eexists]. eapply Inv_close_terminated; [done | apply (becomes_lookup _ _ _ _ Hb) | done].
Qed.

Lemma reboots_any c st F : is_Some (vc_backend c) -> wp (reboots c st) (fun _ => True) F.
Proof.
  intros [b Hb]. unfold reboots. rewrite Hb. destruct st; [| by apply wp_ret].
  by repeat case_match; apply wp_ret || apply wp_bind, wp_ret, wp_ret.
Qed.

(** A process that has ended is replaced by a new one. *)
Lemma restart_inv sk d a e :
  Inv sk (Some a) d -> d_heap d !! a = Some e -> comport_ready (ve_vm e) ->
  VM_STATE e = LOAD \/ VM_STATE e = RUN ->
  wp ('(_, d) ← start_virtual_machine k dv ops nmdm_offset d a; mret (0, d))
     (fun p : Z * daemon NV W => Inv sk None p.2 /\ moves exit_trans d a e p.2) tolerated.
Proof.
  intros Hd He Hc Hs. apply wp_bind.
  eapply wp_mono; [apply (start_virtual_machine_inv sk d a e); auto | | done].
  intros [rc d'] (v' & Hb & Hi & _ & Hs'). apply wp_ret. split; [done |].
  eexists. split; [exact Hb |]. by destruct Hs as [-> | ->].
Qed.

Lemma load_done_inv sk d a e :
  Inv sk (Some a) d -> d_heap d !! a = Some e -> exit_event sk -> comport_ready (ve_vm e) ->
  VM_STATE e = LOAD ->
  wp (d ← close_infd k d a;
      e ← get_entry d a;
      let d := stop_waiting_for (vm_output a (ve_vm e)) d in
      '(_, d) ← start_virtual_machine k dv ops nmdm_offset d a; mret (0, d))
     (fun p : Z * daemon NV W => Inv sk None p.2 /\ moves exit_trans d a e p.2) tolerated.
Proof.
  intros Hd He Hsk Hc Hs. set (e1 := e <| ve_vm := ve_vm e <| vm_infd := -1 |> |>).
  set (d1 := put_entry d a e1 <| d_world := close_fd k (d_world d) (vm_infd (ve_vm e)) |>).
  assert (He1 : d_heap d1 !! a = Some e1) by apply lookup_insert_eq.
  assert (Hd1 : Inv sk (Some a) d1).
  { apply Inv_world. eapply Inv_put; [done | exact He |]. apply entry_like; [by eapply entry_of | done]. }
  apply wp_bind. unfold close_infd. apply wp_bind, (wp_get_entry d a e _ _ He), wp_ret.
  apply wp_bind, (wp_get_entry d1 a e1 _ _ He1). cbn zeta.
  set (d2 := stop_waiting_for (vm_output a (ve_vm e1)) d1). assert (Hd2 : Inv sk (Some a) d2).
  { apply stop_waiting_inv; try done. intros ev Hf. unfold vm_output. rewrite Hf. cbn.
    by rewrite andb_false_r. }
  eapply wp_mono; [apply (restart_inv sk d2 a e1); auto | | done].
  intros [rc d'] [Hi (e' & Hb & Hm)]. split; [done |]. exists e'. split; [| done].
  eapply (becomes_trans d d2); [| exact Hb]. done.
Qed.

Lemma on_vm_exit_inv sk d a e st :
  Inv sk (Some a) d -> d_heap d !! a = Some e -> exit_event sk ->
  (VM_STATE e <> TERMINATE -> comport_ready (ve_vm e)) ->
  wp (on_vm_exit k dv ops nmdm_offset d a st)
     (fun p => Inv sk None p.2 /\ moves exit_trans d a e p.2) tolerated.
Proof.
  intros Hd He Hsk Hc. unfold on_vm_exit. apply wp_bind, (wp_get_entry d a e _ _ He). cbn zeta.
  pose proof (entry_of _ _ _ _ _ Hd He) as ((m & Hm & Hst) & Hr & _).
  assert (Hstop : exit_trans (VM_STATE e) TERMINATE) by (destruct (VM_STATE e); cbn; auto).
  assert (Hstopped : wp (d ← stop_virtual_machine k dv ops d a; d ← clear_install d a; mret (0, d))
     (fun p => Inv sk None p.2 /\ moves exit_trans d a e p.2) tolerated).
  { eapply wp_mono; [by apply (stopped_inv sk d a e) | | done]. intros p (Hi & e' & Hb & Hs). split; [done |].
    exists e'. by rewrite Hs. }
  assert (Hfail : wp (d ← stop_virtual_machine k dv ops d a; mret (0, d))
     (fun p => Inv sk None p.2 /\ moves exit_trans d a e p.2) tolerated).
  { apply wp_bind. eapply wp_mono; [by apply (stop_virtual_machine_inv sk (Some a) d a e) | | done].
    intros d1 (v1 & Hb & Hd1 & _ & Hs). apply wp_ret. split.
    - eapply Inv_close_terminated; [done | apply (becomes_lookup _ _ _ _ Hb) | done].
    - eexists. split; [exact Hb |]. unfold VM_STATE at 2. cbn. by rewrite Hs. }
  destruct (VM_STATE e) eqn:Es; try done.
  - apply wp_ret. split; [by eapply Inv_close_terminated |]. exists e. split; [by apply becomes_same |].
    by rewrite Es.
  - destruct st as [code | sig]; [| done]. destruct code; try done. apply load_done_inv; auto.
  - apply wp_bind. eapply wp_mono; [apply (reboots_any _ _ tolerated) | | done].
    { destruct Hst as (_ & Hb & _). by eexists. }
    intros [] _; [apply restart_inv; auto | done].
  - apply wp_bind. eapply wp_mono; [by apply (stop_virtual_machine_inv sk (Some a) d a e) | | done].
    intros d1 (v1 & Hb1 & Hd1 & _ & Hs1). pose proof (becomes_lookup _ _ _ _ Hb1) as He1.
    apply wp_bind. eapply wp_mono; [apply (change_state_inv sk (Some a) d1 a _ TERMINATE Hd1 He1); by left | | done].
    intros d2 [Hb2 Hd2]. pose proof (becomes_lookup _ _ _ _ Hb2) as He2.
    apply wp_bind, (wp_get_entry d2 a _ _ _ He2), wp_bind.
    eapply wp_mono; [apply (set_timer_inv sk None d2 a); [by eapply Inv_close_terminated | by eauto] | | done].
    intros [rc d3] [Hd3 (Hh & Hl & _)]. apply wp_ret. split; [done |]. cbn [snd] in *.
    pose proof (becomes_trans _ _ _ _ _ _ Hb1 Hb2) as [Hb Hb'].
    eexists. split; [split; [by rewrite Hh | by rewrite Hl] |]. by rewrite Es.
Qed.

Lemma write_err_log_like w fd size fatal v : vm_like v (write_err_log k w fd size fatal v).1.2.
Proof. unfold write_err_log. by repeat case_match. Qed.

Lemma on_read_vm_output_inv d a e fd size fatal :
  Inv None None d -> d_heap d !! a = Some e ->
  wp (on_read_vm_output k d a fd size fatal)
     (fun p => Inv None None p.2 /\ moves eq d a e p.2) tolerated.
Proof.
  intros Hd He. unfold on_read_vm_output. apply wp_bind, (wp_get_entry d a e _ _ He).
  pose proof (write_err_log_like (d_world d) fd size fatal (ve_vm e)) as L.
  destruct (write_err_log k (d_world d) fd size fatal (ve_vm e)) as [[n v] w]. cbn in L. apply wp_ret. cbn [snd].
  assert (Hd1 : Inv None None (put_vm d a e v <| d_world := w |>)).
  { apply Inv_world. eapply Inv_put; [done | exact He |]. apply entry_like; [by eapply entry_of | done]. }
  split.
  - destruct (n =? 0); [| done]. apply Inv_filter; [exact Hd1 |]. intros ev Hev [Hcb | Hcb]; [| done].
    destruct (inv_events _ _ _ Hd1 ev Hev) as [Hf _]. rewrite Hcb in Hf. destruct Hf as [Hf _].
    rewrite Hf. cbn. by rewrite andb_false_r.
  - exists (e <| ve_vm := v |>). split; [by destruct (n =? 0) |]. symmetry. apply L.
Qed.

End operations.

(** ** The event loop *)

(** The transition that belongs to an event. *)
Definition event_trans (cb : event_call_back) : STATE -> STATE -> Prop :=
  match cb with CbTimer => timer_trans | CbVmExit => exit_trans | _ => eq end.

Definition vm_cb (cb : event_call_back) : Prop := match cb with CbOther _ => False | _ => True end.

(** Handing the event that is done to [free]. *)
Lemma Inv_drop {NV W} (d : daemon NV W) s ex :
  Inv (Some s) ex d ->
  existsb (fun x => ev_addr x =? ev_addr s) (d_events d) = true /\
  Inv None ex (d <| d_events := List.filter (fun x => negb (ev_addr x =? ev_addr s)) (d_events d) |>).
Proof.
  intros Hd. pose proof (inv_sk _ _ _ Hd s eq_refl) as Hs. split.
  { apply existsb_exists. exists s. split; [by apply list_elem_of_In | apply Z.eqb_refl]. }
  apply (Inv_filter_sk (Some s)); [done | done |]. intros ev Hev _ Hne. split; [| done].
  destruct (Z.eqb_spec (ev_addr ev) (ev_addr s)) as [E | E]; [| done]. contradict Hne. f_equal.
  by apply (NoDup_fmap_inj ev_addr (d_events d)); [apply (inv_nodup _ _ _ Hd) | | |].
Qed.

(** An event is being handled: the VM whose end it reports is the exception. *)
Lemma Inv_handle {NV W} (d : daemon NV W) ev ex :
  Inv None None d -> ev ∈ d_events d -> (ev_cb ev = CbVmExit -> ev_data ev = ex) ->
  Inv (Some ev) ex d.
Proof.
  intros [] Hev Hex. split; try done; [by intros ? [= <-] |]. intros b f Hb.
  destruct (inv_heap0 b f Hb) as (H1 & H2 & H3 & H4). split_and!; try done. split_and!; try done.
  intros Hx Ht. destruct (H4 ltac:(done) Ht) as [H5 (x & Hin & _ & Hcb & Hdata & Hid)].
  split; [done |]. exists x. split_and!; try done. intros [= ->]. rewrite <- Hex in Hx by done. congruence.
Qed.

Section loop.
Context {NV W : Type} (k : kernel W) (dv : devices NV W) (ops : vm_method -> vm_ops NV W)
        (nmdm_offset : Z) (other : nat -> Z -> option Z -> daemon NV W -> C (Z * daemon NV W))
        `{Hlaws : forall m, BackendLaws (m_name m) (ops m)}.
Implicit Types (d : daemon NV W) (a : Z) (ev : event) (e : vm_entry NV).

(** The end of a one-shot event. *)
Lemma drop_event_inv d ev (Q : daemon NV W -> Prop) F :
  Inv (Some ev) None d ->
  Z.land (k_flags (ev_kev ev)) EV_ONESHOT <> 0 ->
  (forall d', Inv None None d' -> d_heap d' = d_heap d -> d_vm_list d' = d_vm_list d -> Q d') ->
  wp (if negb (Z.land (k_flags (ev_kev ev)) EV_ONESHOT =? 0) then
        if existsb (fun x => ev_addr x =? ev_addr ev) (d_events d) then
          mret (d <| d_events := List.filter (fun x => negb (ev_addr x =? ev_addr ev)) (d_events d) |>)
        else crash UseAfterFree
      else mret d) Q F.
Proof.
  intros Hd Hf HQ. destruct (Z.eqb_spec (Z.land (k_flags (ev_kev ev)) EV_ONESHOT) 0); [done |]. cbn.
  destruct (Inv_drop d ev None Hd) as [-> Hd']. apply wp_ret. by apply HQ.
Qed.

Lemma event_step_inv d ev an :
  Inv None None d -> ev ∈ d_events d -> vm_cb (ev_cb ev) ->
  wp (event_step k dv ops nmdm_offset other d ev an)
     (fun d' => Inv None None d' /\ exists a e, ev_data ev = Some a /\ d_heap d !! a = Some e /\
                moves (event_trans (ev_cb ev)) d a e d') tolerated.
Proof.
  intros Hd Hev Hcb. unfold event_step, call_back. cbn zeta.
  destruct (inv_events _ _ _ Hd ev Hev) as [Hf Hs].
  destruct (ev_cb ev) eqn:Ecb; [| | | done]; destruct Hs as (a & Ha & e & He); rewrite Ha;
    destruct Hf as [Hf Hfl]; apply wp_bind.
  - eapply wp_mono; [by apply on_read_vm_output_inv | | done]. intros [rc d1] [H1 H2].
    rewrite Hfl. cbn. apply wp_ret. split; [done |]. by exists a, e.
  - eapply wp_mono; [apply (on_timer_inv k dv ops nmdm_offset (Some ev) d a e); [| done] | | done].
    { apply Inv_handle; try done. congruence. }
    intros [rc d1] [H1 (e' & [Hb1 Hb2] & Ht)]. apply drop_event_inv; [done | by rewrite Hfl |].
    intros d' Hd' Hh Hl. split; [done |]. exists a, e. split_and!; try done. exists e'.
    split; [split; cbn in *; congruence | done].
  - eapply wp_mono; [apply (on_vm_exit_inv k dv ops nmdm_offset (Some ev) d a e) | | done]; try done.
    { by apply Inv_handle. }
    { by intros ? [= <-]. }
    { intros Ht. destruct (entry_of _ _ _ _ _ Hd He) as (_ & _ & Hw). by apply Hw. }
    intros [rc d1] [H1 (e' & [Hb1 Hb2] & Ht)]. apply drop_event_inv; [done | by rewrite Hfl |].
    intros d' Hd' Hh Hl. split; [done |]. exists a, e. split_and!; try done. exists e'.
    split; [split; cbn in *; congruence | done].
Qed.

(** *** Commands *)

Lemma lookup_in_inv d l name :
  Inv None None d -> l ⊆ d_vm_list d ->
  wp (lookup_in d l name) (fun r => forall a, r = Some a -> a ∈ l /\
        exists e, d_heap d !! a = Some e /\ vc_name (VM_CONF e) = Some name) tolerated.
Proof.
  intros Hd. induction l as [| b l IH]; intros Hl; [by apply wp_ret |]. cbn.
  destruct (inv_list _ _ _ Hd b) as [e He]; [apply Hl; by left |].
  apply wp_bind, (wp_get_entry d b e _ _ He).
  destruct (entry_of _ _ _ _ _ Hd He) as ((m & _ & ([n Hn] & _) & _) & _).
  apply wp_bind, (wp_deref _ n); [done |].
  destruct (Z.eqb_spec (strcmp n name) 0) as [E | E].
  - apply strcmp_eq0 in E as ->. apply wp_ret. intros a [= <-]. split; [by left |]. by exists e.
  - eapply wp_mono; [apply IH; intros x Hx; apply Hl; by right | | done].
    intros r Hr a Ha. destruct (Hr a Ha) as [? ?]. split; [by right | done].
Qed.

(** A command stops a VM that is loading or running. *)
Definition stop_trans (s s' : STATE) : Prop := (s = LOAD \/ s = RUN) /\ s' = STOP.

(** What a command to stop a VM does: nothing, or the VM of that name, which
    belongs to the user, goes to STOP. *)
Definition down_post d (name : option string) (how : Z) (ucred : xucred)
    (p : option string * daemon NV W) : Prop :=
  Inv None None p.2 /\
  (d_heap p.2 = d_heap d /\ d_vm_list p.2 = d_vm_list d \/
   exists a e, a ∈ d_vm_list d /\ d_heap d !! a = Some e /\ vc_name (VM_CONF e) = name /\
          check_owner (VM_CONF e) ucred = 0 /\ (how = 0 \/ how = 2) /\ p.1 = None /\
          moves stop_trans d a e p.2).

Lemma stop_command_inv d d1 a e name how ucred :
  Inv None None d1 -> becomes d a e d1 -> d_heap d !! a = Some e -> a ∈ d_vm_list d ->
  vc_name (VM_CONF e) = name -> check_owner (VM_CONF e) ucred = 0 -> how = 0 \/ how = 2 ->
  VM_STATE e = LOAD \/ VM_STATE e = RUN ->
  wp (d ← change_state d1 a STOP; mret (None, d)) (down_post d name how ucred) tolerated.
Proof.
  intros H1 Hb1 He Hin Hn Ho Hh Hs. pose proof (becomes_lookup _ _ _ _ Hb1) as He1. apply wp_bind.
  eapply wp_mono; [apply (change_state_inv None None d1 a e STOP H1 He1) | | done].
  { right. split; [done |]. destruct Hs as [-> | ->]; done. }
  intros d2 [Hb2 H2]. apply wp_ret. split; [done |]. right. exists a, e. split_and!; try done.
  eexists. split; [by eapply becomes_trans | by split].
Qed.

Lemma vm_down_command_inv d name how ucred :
  Inv None None d ->
  wp (vm_down_command ops d name how ucred)
     (down_post d name how ucred) tolerated.
Proof.
  intros Hd. unfold vm_down_command. apply wp_bind.
  eapply (wp_mono _ (fun r => forall a, r = Some a -> a ∈ d_vm_list d /\
            exists e, d_heap d !! a = Some e /\ vc_name (VM_CONF e) = name) _ tolerated); [| | done].
  { destruct name as [n |]; [| by apply wp_ret].
    eapply wp_mono; [by apply (lookup_in_inv d (d_vm_list d)) | | done].
    intros r Hr a Ha. destruct (Hr a Ha) as (? & e & ? & Hn). eauto. }
  intros [a |] Hr; [| by apply wp_ret; split; auto]. destruct (Hr a eq_refl) as (Hin & e & He & Hn).
  apply wp_bind, (wp_get_entry d a e _ _ He).
  destruct (Z.eqb_spec (check_owner (VM_CONF e) ucred) 0) as [Ho | Ho]; cbn [negb];
    [| by apply wp_ret; split; auto].
  destruct (bool_decide (VM_STATE e = LOAD) || bool_decide (VM_STATE e = RUN)) eqn:Es; cbn [negb];
    [| by apply wp_ret; split; auto].
  assert (Hs : VM_STATE e = LOAD \/ VM_STATE e = RUN).
  { apply orb_true_iff in Es as [Es | Es]; apply bool_decide_eq_true in Es; auto. }
  destruct (Z.eqb_spec how 0) as [-> | H0].
  - apply wp_bind. eapply wp_mono; [by apply (VM_ACPI_POWEROFF_inv ops None None d a e) | | done].
    intros d1 [H1 Hb1]. apply wp_bind.
    eapply wp_mono; [apply (set_timer_inv None None d1 a _ H1); eexists; by eapply becomes_lookup | | done].
    intros [rc d2] [H2 (Hh & Hl & _)]. cbn [snd] in *.
    apply (stop_command_inv d d2 a e); auto. destruct Hb1. split; congruence.
  - destruct (Z.eqb_spec how 1) as [-> | H1].
    { apply wp_bind. eapply wp_mono; [by apply (VM_RESET_inv ops None None d a e) | | done].
      intros d1 [H1 [Hb1 Hb2]]. apply wp_ret. split; [done |]. left. cbn. by rewrite Hb1, insert_id. }
    destruct (Z.eqb_spec how 2) as [-> | H2]; [| by apply wp_ret; split; auto].
    apply wp_bind. eapply wp_mono; [by apply (VM_POWEROFF_inv ops None None d a e) | | done].
    intros d1 [H3 Hb1]. apply (stop_command_inv d d1 a e); auto.
Qed.

(** *** Start-up *)

Lemma create_vm_entry_inv d ce m :
  Inv None None d -> startable ce m ->
  wp (create_vm_entry d ce)
     (fun p => Inv None None p.2 /\ forall a, p.1 = Some a ->
        exists e, d_heap p.2 !! a = Some e /\ VM_STATE e = TERMINATE) no_fault.
Proof.
  intros Hd Hm. unfold create_vm_entry. apply wp_bind, wp_malloc. intros []; cbn [negb]; [| by apply wp_ret].
  apply wp_bind. intros o. destruct Hm as (H1 & H2 & H3 & Hset). rewrite Hset. cbn. split.
  - destruct Hd. split; cbn; try done.
    + intros ev Hev. specialize (inv_fresh0 ev Hev). lia.
    + intros ev Hev. destruct (inv_events0 ev Hev) as [Hf Hs]. split; [done |].
      destruct (ev_cb ev); try done; destruct Hs as (b & Hb & Hs); exists b; (split; [done |]);
        rewrite lookup_insert_is_Some; destruct (decide (d_next d = b)); auto.
    + intros b [-> | Hb]%elem_of_cons; rewrite lookup_insert_is_Some; [by left |].
      destruct (decide (d_next d = b)); auto.
    + intros b f Hb. apply lookup_insert_Some in Hb as [[<- <-] | [_ Hb]].
      * split; [lia |]. split; [by exists m |]. done.
      * destruct (inv_heap0 b f Hb). split; [lia | done].
  - intros a [= <-]. eexists. split; [apply lookup_insert_eq | done].
Qed.

Lemma start_all_inv d l :
  Inv None None d -> Forall (fun ce => exists m, startable ce m) l ->
  wp (start_all k dv ops nmdm_offset d l) (fun p => Inv None None p.2) tolerated.
Proof.
  intros Hd Hl. revert d Hd. induction Hl as [| ce l [m Hm] Hl IH]; intros d Hd; [by apply wp_ret |].
  cbn. apply wp_bind. eapply wp_mono; [by apply (create_vm_entry_inv d ce m) | | done].
  intros [[a |] d1] [H1 H2]; cbn [fst snd] in *; [| by apply wp_ret].
  destruct (H2 a eq_refl) as (e & He & Hs). apply wp_bind.
  eapply (wp_mono _ (fun p => Inv None None p.2) _ tolerated); [| intros [rc d2] H3; by apply IH | done].
  destruct (decide (vc_boot (ce_conf ce) = NO)); [by apply wp_ret |].
  destruct (0 <? vc_boot_delay (ce_conf ce)).
  - eapply wp_mono; [apply (set_timer_inv None None d1 a); [done | by eauto] | by intros p [? _] | done].
  - eapply wp_mono; [apply (start_virtual_machine_inv k dv ops nmdm_offset None d1 a e) | | done].
    + by apply (Inv_open _ _ _ a); auto.
    + done.
    + by left.
    + intros p (v' & _ & Hi & _). exact Hi.
Qed.

(** The daemon before its VMs are started. *)
Definition idle (w : W) : daemon NV W := {|
  d_heap := ∅; d_vm_list := []; d_events := []; d_timer_id := 0; d_next := 0; d_world := w |}.

Lemma idle_inv w : Inv None None (idle w).
Proof.
  split; cbn; try done; try (intros x Hx; by apply not_elem_of_nil in Hx). by apply NoDup_nil.
Qed.

Lemma start_virtual_machines_inv w l :
  Forall (fun ce => exists m, startable ce m) l ->
  wp (start_virtual_machines k dv ops nmdm_offset (idle w) l) (fun p => Inv None None p.2) tolerated.
Proof.
  intros Hl. unfold start_virtual_machines. apply wp_bind.
  eapply wp_mono; [apply (register_events_inv None None (idle w)) | | intros f Hf; exact Hf].
  - apply idle_inv.
  - intros addr x Hx. by repeat apply elem_of_cons in Hx as [-> | Hx]; try by apply not_elem_of_nil in Hx.
  - intros [rc d1] [H1 _]. cbn [snd] in H1. destruct (rc <? 0); [by apply wp_ret | by apply start_all_inv].
Qed.

(** [boot0_command] once the VM of the name is found to be terminated and its configuration not to have changed:
    style 1 installs. *)
Definition boot d a (style : Z) : C (Z * daemon NV W) :=
  d ← (if style =? 1 then put_install d a true else mret d);
  start_virtual_machine k dv ops nmdm_offset d a.

Lemma boot_inv d a e style :
  Inv None None d -> d_heap d !! a = Some e -> VM_STATE e = TERMINATE ->
  wp (boot d a style) (fun p => Inv None None p.2) tolerated.
Proof.
  intros Hd He Hs. unfold boot. apply wp_bind.
  eapply (wp_mono _ (fun d' => Inv None None d' /\ exists e', d_heap d' !! a = Some e' /\ VM_STATE e' = TERMINATE) _ tolerated); [| | done].
  - destruct (style =? 1); [| apply wp_ret; split; [done | by exists e]].
    eapply wp_mono; [by apply (put_install_inv None None d a e true) | | done].
    intros d' (v' & Hb & Hd' & Hv). split; [done |]. eexists. split; [by eapply becomes_lookup |].
    unfold VM_STATE in *. cbn. congruence.
  - intros d' [Hd' (e' & He' & Hs')].
    eapply wp_mono; [apply (start_virtual_machine_inv k dv ops nmdm_offset None d' a e') | | done].
    + by apply (Inv_open _ _ _ a); auto.
    + done.
    + by left.
    + intros p (v' & _ & Hi & _). exact Hi.
Qed.

(** What happens between the start of the daemon and the first time that it finds its files changed: events of VMs
    and commands that boot, install, stop, reset and power off VMs, in any order, with any answers of the system. *)
Inductive reachable (w : W) (l : list (vm_conf_entry NV)) : daemon NV W -> Prop :=
  | reach_start o o' rc d :
      start_virtual_machines k dv ops nmdm_offset (idle w) l o = Done (rc, d) o' -> reachable w l d
  | reach_event d ev an o o' d' :
      reachable w l d -> ev ∈ d_events d -> vm_cb (ev_cb ev) ->
      event_step k dv ops nmdm_offset other d ev an o = Done d' o' -> reachable w l d'
  | reach_command d name how ucred o o' r d' :
      reachable w l d -> vm_down_command ops d name how ucred o = Done (r, d') o' -> reachable w l d'
  | reach_boot d a e style o o' rc d' :
      reachable w l d -> d_heap d !! a = Some e -> VM_STATE e = TERMINATE ->
      boot d a style o = Done (rc, d') o' -> reachable w l d'.

Lemma wp_done {A} (c : C A) Q F o (x : A) o' : wp c Q F -> c o = Done x o' -> Q x.
Proof. intros H E. specialize (H o). by rewrite E in H. Qed.

Lemma reachable_inv w l d :
  Forall (fun ce => exists m, startable ce m) l -> reachable w l d -> Inv None None d.
Proof.
  intros Hl. induction 1 as [o o' rc d E | d ev an o o' d' _ IH Hev Hcb E | d name how ucred o o' r d' _ IH E | d a e style o o' rc d' _ IH He Hs E].
  - exact (wp_done _ _ _ _ _ _ (start_virtual_machines_inv w l Hl) E).
  - by destruct (wp_done _ _ _ _ _ _ (event_step_inv d ev an IH Hev Hcb) E).
  - by destruct (wp_done _ _ _ _ _ _ (vm_down_command_inv d name how ucred IH) E).
  - exact (wp_done _ _ _ _ _ _ (boot_inv d a e style IH He Hs) E).
Qed.

(** [C20] As long as its files do not change, the daemon never loses a VM.  In every state that it reaches from its start by
    events of VMs (timers, ends of processes, output) and by commands that boot, install, shut down, reset and power
    off VMs, in any order and with any failures, every VM that is not terminated has an event that reports
    the end of its process, every VM in the list is allocated, and no entry is being removed.  Not among these steps
    are reloads and boots that find other files (which replace configurations and remove VMs), and
    connections and plugins, which have events of their own.  The backends keep their promises ([BackendLaws]). *)
Theorem running_vms_are_watched w l d :
  Forall (fun ce => exists m, startable ce m) l -> reachable w l d ->
  (forall a, a ∈ d_vm_list d -> is_Some (d_heap d !! a)) /\
  forall a e, d_heap d !! a = Some e -> VM_STATE e <> REMOVE /\
    (VM_STATE e <> TERMINATE ->
     exists ev, ev ∈ d_events d /\ ev_cb ev = CbVmExit /\ ev_data ev = Some a /\
           k_filter (ev_kev ev) = EVFILT_PROC /\ k_ident (ev_kev ev) = vm_pid (ve_vm e)).
Proof.
  intros Hl Hd. apply reachable_inv in Hd; [| done]. split; [apply (inv_list _ _ _ Hd) |].
  intros a e He. destruct (entry_of _ _ _ _ _ Hd He) as (_ & Hr & Hw). split; [done |]. intros Ht.
  destruct (Hw ltac:(done) Ht) as [_ (ev & Hin & _ & Hcb & Hdata & Hid)]. exists ev. split_and!; try done.
  destruct (inv_events _ _ _ Hd ev Hin) as [Hf _]. rewrite Hcb in Hf. apply Hf.
Qed.

(** Handling an event of a VM in a reachable state accesses no freed entry
    and no freed event, and changes at most the VM of the event: a timer starts
    a VM that is terminated and leaves the state of the others, the end of the
    process terminates the VM or starts its next process, output changes no
    state.  What can end the daemon is a number of a null-modem device or of a
    timer that is not an [int], a [fork] that fails and a tap whose name cannot be
    allocated. *)
Theorem event_step_safe w l d ev an :
  Forall (fun ce => exists m, startable ce m) l -> reachable w l d ->
  ev ∈ d_events d -> vm_cb (ev_cb ev) ->
  wp (event_step k dv ops nmdm_offset other d ev an)
     (fun d' => exists a e e', ev_data ev = Some a /\ d_heap d !! a = Some e /\
        d_heap d' = <[a := e']> (d_heap d) /\ d_vm_list d' = d_vm_list d /\
        event_trans (ev_cb ev) (VM_STATE e) (VM_STATE e'))
     tolerated.
Proof.
  intros Hl Hd Hev Hcb. apply reachable_inv in Hd; [| done].
  eapply wp_mono; [by apply event_step_inv | | done].
  intros d' (_ & a & e & Ha & He & e' & [Hb1 Hb2] & Ht). by exists a, e, e'.
Qed.

(** A command to stop a VM concerns the VM of that name only, and only when
    it belongs to the user who gives it and is loading or running; then the VM
    is stopping.  Resetting and unknown commands change no state. *)
Theorem vm_down_command_safe w l d name how ucred :
  Forall (fun ce => exists m, startable ce m) l -> reachable w l d ->
  wp (vm_down_command ops d name how ucred)
     (fun p => (d_heap p.2 = d_heap d \/
        exists a e e', a ∈ d_vm_list d /\ d_heap d !! a = Some e /\ vc_name (VM_CONF e) = name /\
          check_owner (VM_CONF e) ucred = 0 /\ (how = 0 \/ how = 2) /\ p.1 = None /\
          d_heap p.2 = <[a := e']> (d_heap d) /\
          (VM_STATE e = LOAD \/ VM_STATE e = RUN) /\ VM_STATE e' = STOP) /\
        d_vm_list p.2 = d_vm_list d)
     tolerated.
Proof.
  intros Hl Hd. apply reachable_inv in Hd; [| done].
  eapply wp_mono; [by apply vm_down_command_inv | | done].
  intros p [_ [[H1 H2] | (a & e & Hin & He & Hn & Ho & Hh & Hp & e' & [Hb1 Hb2] & Hs & Hs')]].
  - auto.
  - split; [right | done]. by exists a, e, e'.
Qed.

Lemma cleanup_any d a e m :
  d_heap d !! a = Some e -> ve_method e = Some m -> vm_ready (VM_CONF e) ->
  wp (cleanup_virtual_machine k ops d a)
     (fun d' => d_events d' = d_events d /\ is_Some (d_heap d' !! a)) (fun f => f = ProcessExit).
Proof.
  intros He Hm Hr. unfold cleanup_virtual_machine. apply wp_bind, (wp_get_entry d a e _ _ He).
  pose proof (remove_taps_like k (d_world d) (ve_vm e)) as Hl.
  destruct (remove_taps k (d_world d) (ve_vm e)) as [[rc v1] w1]. destruct Hl as [[Hc1 _] _]. cbn in Hc1.
  apply wp_bind, (wp_method_ops ops e m); [done |]. apply wp_bind.
  eapply wp_mono; [apply (cleanup_law (BackendLaws := Hlaws m.1)) | intros [v2 w2] _ | done].
  { unfold vm_get_conf. by rewrite Hc1. }
  apply wp_ret. split; [done |]. cbn. rewrite lookup_insert_eq. by eexists.
Qed.

(** A VM that is being removed makes the daemon use an event after it was
    freed: when its process ends, [on_vm_exit] frees the entry and with it all
    events of the VM, among them the one that is being handled, which the event
    loop then removes and frees again. *)
Theorem removed_vm_double_free d ev an a e m :
  ev_cb ev = CbVmExit -> ev_data ev = Some a ->
  k_flags (ev_kev ev) = Z.lor EV_ADD EV_ONESHOT -> NoDup (ev_addr <$> d_events d) -> ev ∈ d_events d ->
  d_heap d !! a = Some e -> VM_STATE e = REMOVE -> ve_method e = Some m -> vm_ready (VM_CONF e) ->
  wp (event_step k dv ops nmdm_offset other d ev an) (fun _ => False)
     (fun f => f = UseAfterFree \/ f = ProcessExit).
Proof.
  intros Hcb Ha Hfl Hnd Hev He Hs Hm Hr. unfold event_step, call_back. cbn zeta.
  rewrite Hcb, Ha, Hfl. apply wp_bind. unfold on_vm_exit. cbn zeta.
  apply wp_bind, (wp_get_entry d a e _ _ He). rewrite Hs. unfold stop_virtual_machine.
  apply wp_bind, wp_bind, (wp_get_entry d a e _ _ He).
  set (d1 := stop_waiting_for _ d).
  apply wp_bind. eapply wp_mono; [by apply (cleanup_any d1 a e m) | | by auto].
  intros d2 [Hev2 [e2 He2]]. apply (wp_call_plugins dv d2 a e2 _ _ He2). intros w. apply wp_bind. unfold free_vm_entry.
  apply wp_bind, (wp_get_entry _ a e2); [exact He2 |]. apply wp_ret, wp_ret. cbn.
  destruct (existsb _ _) eqn:Ex; [| apply wp_crash; by left].
  apply existsb_exists in Ex as (x & Hx & Eq). apply Z.eqb_eq in Eq.
  apply filter_In in Hx as [Hx Hda]. rewrite Hev2 in Hx. apply filter_In in Hx as [Hx _].
  assert (x = ev) as ->.
  { apply (NoDup_fmap_inj ev_addr (d_events d)); try done. by apply list_elem_of_In. }
  unfold vm_entry_event in Hda. rewrite Ha, bool_decide_eq_true_2 in Hda; done.
Qed.

End loop.

(** ** New null-modem devices *)

(** The number that [get_nmdm_number] computes when it does not overflow. *)
Fixpoint digits_value (v : Z) (s : string) : Z :=
  match s with
  | EmptyString => v
  | String c s' => digits_value (if is_digit c then v * 10 + byte_of c - byte_of "0" else v) s'
  end.

Lemma nmdm_digits_value v s :
  wp (nmdm_digits v s) (fun n => n = digits_value v s) (fun f => f = SignedOverflow).
Proof.
  revert v. induction s as [| c s IH]; intros v; cbn; [by apply wp_ret |].
  destruct (is_digit c); [| apply IH]. destruct (_ <=? INT_MAX); [apply IH | by apply wp_crash].
Qed.

Lemma get_nmdm_number_value p :
  wp (get_nmdm_number p) (fun n => n = match p with None => -1 | Some s => digits_value 0 s end)
     (fun f => f = SignedOverflow).
Proof. destruct p; [apply nmdm_digits_value | by apply wp_ret]. Qed.

Lemma digits_value_print fuel : forall n acc,
  0 <= n < 2 ^ Z.of_nat fuel -> fuel <> O ->
  exists j, forall v, digits_value v (print_digits fuel n acc) = digits_value (v * 10 ^ Z.of_nat j + n) acc.
Proof.
  induction fuel as [| fuel IH]; intros n acc Hn Hf; [done |]. cbn [print_digits].
  assert (Hm : 0 <= n mod 10 < 10) by (apply Z.mod_pos_bound; lia).
  assert (Hc : is_digit (digit_char (n mod 10)) = true /\
               byte_of (digit_char (n mod 10)) - byte_of "0" = n mod 10).
  { revert Hm. generalize (n mod 10). intros x Hx. digit_cases x; done. }
  destruct Hc as [Hc1 Hc2]. pose proof (Z.div_mod n 10 ltac:(lia)) as D.
  destruct (Z.eqb_spec (n / 10) 0) as [E | E].
  - exists 1%nat. intros v. cbn [digits_value]. rewrite Hc1. f_equal. lia.
  - assert (0 < n / 10) by (pose proof (Z.div_pos n 10); lia).
    rewrite Nat2Z.inj_succ, Z.pow_succ_r in Hn by lia.
    destruct (IH (n / 10) (String (digit_char (n mod 10)) acc)) as [j Hj].
    { lia. }
    { intros ->. cbn in Hn. lia. }
    exists (S j). intros v. rewrite Hj. cbn [digits_value]. rewrite Hc1.
    rewrite Nat2Z.inj_succ, Z.pow_succ_r by lia. f_equal. lia.
Qed.

Lemma print_digits_app fuel n acc t : print_digits fuel n acc +:+ t = print_digits fuel n (acc +:+ t).
Proof.
  revert n acc. induction fuel as [| fuel IH]; intros n acc; [done |]. cbn [print_digits].
  destruct (n / 10 =? 0); [done |]. by rewrite IH.
Qed.

Lemma nmdm_name_value n : 0 <= n -> digits_value 0 (nmdm_name n) = n.
Proof.
  intros Hn. unfold nmdm_name, print_dec. rewrite Z.abs_eq by lia. destruct (Z.ltb_spec n 0); [lia |].
  assert (E : forall s, digits_value 0 ("/dev/nmdm" +:+ s) = digits_value 0 s) by reflexivity.
  rewrite E, print_digits_app.
  destruct (digits_value_print _ n ("" +:+ "B") (log2_fuel n Hn)) as [j Hj]; [done |].
  by rewrite Hj.
Qed.

Section comport.
Context {NV W : Type} (dv : devices NV W) (nmdm_offset : Z).
Implicit Types (d : daemon NV W) (a : Z) (e : vm_entry NV).

(** The null-modem devices in use: configured, assigned, or present in /dev. *)
Definition in_use d (s : string) : Prop :=
  (exists b f, b ∈ d_vm_list d /\ d_heap d !! b = Some f /\
     (vc_comport (VM_CONF f) = Some s \/ vm_assigned_comport (ve_vm f) = Some s)) \/
  exists names n, sys_dev dv (d_world d) = Some names /\ n ∈ names /\ nmdm_selector n = true /\
             s = "/dev/" +:+ n.

Lemma max_vm_nmdm_max d l max :
  (forall b, b ∈ l -> is_Some (d_heap d !! b)) ->
  wp (max_vm_nmdm d l max)
     (fun m => max <= m /\ forall b f s, b ∈ l -> d_heap d !! b = Some f ->
        vc_comport (VM_CONF f) = Some s \/ vm_assigned_comport (ve_vm f) = Some s ->
        digits_value 0 s <= m) (fun f => f = SignedOverflow).
Proof.
  revert max. induction l as [| b l IH]; intros max Hl.
  { apply wp_ret. split; [lia |]. intros b f s Hb. by apply not_elem_of_nil in Hb. }
  cbn. destruct (Hl b) as [e He]; [by left |]. apply wp_bind, (wp_get_entry d b e _ _ He).
  apply wp_bind. eapply wp_mono; [apply get_nmdm_number_value | intros n Hn | done].
  apply wp_bind. eapply wp_mono; [apply get_nmdm_number_value | intros m Hm | done].
  eapply wp_mono; [apply IH; intros c Hc; apply Hl; by right | | done].
  intros r [H1 H2]. split; [lia |]. intros c f s Hc Hf Hs.
  apply elem_of_cons in Hc as [-> | Hc]; [| by eapply H2]. rewrite He in Hf. injection Hf as <-.
  destruct Hs as [Hs | Hs]; [rewrite Hs in Hn | rewrite Hs in Hm]; lia.
Qed.

Lemma max_dev_nmdm_max names max :
  wp (max_dev_nmdm names max)
     (fun m => max <= m /\ forall s, s ∈ names -> digits_value 0 s <= m) (fun f => f = SignedOverflow).
Proof.
  revert max. induction names as [| t names IH]; intros max.
  { apply wp_ret. split; [lia |]. intros s Hs. by apply not_elem_of_nil in Hs. }
  apply wp_bind. eapply wp_mono; [apply (get_nmdm_number_value (Some t)) | intros n Hn | done].
  eapply wp_mono; [apply IH | | done]. intros r [H1 H2].
  cbn beta iota in Hn. split; [lia |]. intros s [-> | Hs]%elem_of_cons; [lia | by apply H2].
Qed.

(** A VM with the com port "auto" gets a null-modem device of its own: its
    number is not below the configured offset and above the number of every
    device that a VM has, that a configuration names or that exists in /dev, so
    that its name differs from all of them.  Only numbers beyond an [int] are
    undefined behaviour. *)
Theorem assign_comport_fresh d a e comport :
  d_heap d !! a = Some e -> (forall b, b ∈ d_vm_list d -> is_Some (d_heap d !! b)) ->
  vc_comport (VM_CONF e) = Some comport -> strcasecmp comport "auto" = 0 ->
  vm_assigned_comport (ve_vm e) = None ->
  wp (assign_comport dv nmdm_offset d a)
     (fun p => p.1 = 0 -> exists n v',
        d_heap p.2 = <[a := e <| ve_vm := v' |>]> (d_heap d) /\
        vm_assigned_comport v' = Some (nmdm_name n) /\ nmdm_offset <= n <= INT_MAX /\
        forall s, in_use d s -> digits_value 0 s < n /\ s <> nmdm_name n)
     (fun f => f = SignedOverflow).
Proof.
  intros He Hl Hc Hauto Ha. unfold assign_comport. apply wp_bind, (wp_get_entry d a e _ _ He).
  rewrite Hc, Ha, Hauto. cbn [negb Z.eqb]. apply wp_bind.
  eapply wp_mono; [by apply max_vm_nmdm_max | intros m1 [H1 H1'] | done].
  destruct (sys_dev dv (d_world d)) as [names |] eqn:Ed; [| by apply wp_ret].
  apply wp_bind. eapply wp_mono; [apply max_dev_nmdm_max | intros m2 [H2 H2'] | done].
  cbn zeta. set (m := if m2 <? nmdm_offset - 1 then nmdm_offset - 1 else m2).
  assert (Hm : m2 <= m /\ nmdm_offset - 1 <= m) by (unfold m; destruct (Z.ltb_spec m2 (nmdm_offset - 1)); lia).
  destruct (Z.leb_spec INT_MAX m) as [Hmax | Hmax]; [by apply wp_crash |].
  assert (Hfresh : forall s, in_use d s -> digits_value 0 s < m + 1 /\ s <> nmdm_name (m + 1)).
  { intros s Hs. assert (Hlt : digits_value 0 s < m + 1).
    { destruct Hs as [(b & f & Hb & Hf & Hs) | (ns & n & Hns & Hn & Hsel & ->)].
      - specialize (H1' b f s Hb Hf Hs). lia.
      - rewrite Ed in Hns. injection Hns as <-. change (digits_value 0 n < m + 1).
        assert (Hin : n ∈ List.filter nmdm_selector names).
        { apply list_elem_of_In, filter_In. by rewrite <- list_elem_of_In. }
        specialize (H2' n Hin). lia. }
    split; [done |]. intros ->. rewrite nmdm_name_value in Hlt; lia. }
  apply wp_bind, wp_strdup; [| by apply wp_ret].
  destruct (sys_stat dv (nmdm_name (m + 1)) (d_world d)) as [[] w]; apply wp_ret; [| done].
  intros _. exists (m + 1). eexists. split; [reflexivity |]. split_and!; [done | lia | lia | done].
Qed.

End comport.

(** ** An example *)

(** A backend of a plugin that only keeps the state. *)
Definition null_method {NV W} : vm_ops NV W := {|
  vm_start := fun _ w v => mret (0, v <| vm_state := RUN |>, w);
  vm_reset := fun _ w _ => mret (0, w);
  vm_poweroff := fun _ w _ => mret (0, w);
  vm_acpi_poweroff := fun _ w _ => mret (0, w);
  vm_cleanup := fun _ w v => mret (v <| vm_state := TERMINATE |>, w);
|}.

#[export] Instance null_laws {NV W} name : BackendLaws name (null_method (NV := NV) (W := W)).
Proof. split; intros; apply wp_ret; cbn; unfold same_vm; auto. Qed.

#[local] Instance demo_inspect_laws : InspectLaws (fun (_ : vm_conf) (w : Z) => mret (None, w)).
Proof. intros conf w. by apply wp_ret. Qed.

(** bhyve under its name and that backend under all others. *)
Definition demo_ops (m : vm_method) : vm_ops unit Z :=
  if decide (m_name m = "bhyve") then bhyve_method demo_kernel (fun _ w => mret (None, w)) (Some "/var/cache/bmd")
  else null_method.

#[export] Instance demo_laws m : BackendLaws (m_name m) (demo_ops m).
Proof. unfold demo_ops. destruct (decide (m_name m = "bhyve")) as [-> |]; apply _. Qed.

Definition demo_devices : devices unit Z := {|
  sys_dev := fun _ => Some ["null"; "nmdm7A"; "nmdm7B"];
  sys_stat := fun _ w => (true, w);
  sys_open_log := fun _ w => (w, w + 1);
  pl_on_status_change := fun _ => None;
|}.

Definition demo_vm (name : string) : vm_conf_entry unit := {|
  ce_conf := demo_bhyve_conf
    <| vc_name := Some name |> <| vc_boot := YES |> <| vc_comport := Some "auto" |>
    <| vc_fbuf := (fun f => f <| fb_enable := 0 |>) <$> vc_fbuf demo_bhyve_conf |>;
  ce_pl_data := [{| pd_desc := {| pl_version := PLUGIN_VERSION; pl_name := "bhyve";
                                  pl_initialize := None; pl_parse_config := None;
                                  pl_method := Some {| m_name := "bhyve" |} |};
                    pd_conf := tt |}] |}.

Lemma demo_startable name : startable (demo_vm name) ({| m_name := "bhyve" |}, PlData 0).
Proof.
  split; [| split; [done | split; [by apply Forall_nil | done]]].
  split_and!; by repeat eexists.
Qed.

Definition demo_other (n : nat) (ident : Z) (data : option Z) (d : daemon unit Z)
    : C (Z * daemon unit Z) := mret (0, d).

(** The daemon after the start of two VMs. *)
Definition demo_daemon : daemon unit Z :=
  match start_virtual_machines demo_kernel demo_devices demo_ops 0 (idle 100)
          [demo_vm "one"; demo_vm "two"] [] with
  | Done (_, d) _ => d
  | Crash _ => idle 100
  end.

Lemma demo_reachable :
  reachable demo_kernel demo_devices demo_ops 0 demo_other 100 [demo_vm "one"; demo_vm "two"] demo_daemon.
Proof. apply (reach_start _ _ _ _ _ _ _ [] [] 0). vm_compute. reflexivity. Qed.

Lemma demo_all_startable :
  Forall (fun ce => exists m, startable ce m) [demo_vm "one"; demo_vm "two"].
Proof. repeat constructor; eexists; apply demo_startable. Qed.

Definition demo_entry (a : Z) : vm_entry unit :=
  default {| ve_vm := demo_bhyve_vm; ve_method := None |} (d_heap demo_daemon !! a).

Definition demo_event (a : Z) : event :=
  default {| ev_addr := -1; ev_type := EVENT;
             ev_kev := {| k_ident := 0; k_filter := EVFILT_READ; k_flags := 0; k_data := 0 |};
             ev_cb := CbTimer; ev_data := None |}
    (List.find (fun ev => bool_decide (ev_data ev = Some a) &&
                          match ev_cb ev with CbVmExit => true | _ => false end) (d_events demo_daemon)).

Lemma demo_event_in a : a = 3 \/ a = 7 -> demo_event a ∈ d_events demo_daemon.
Proof. intros [-> | ->]; apply list_elem_of_In; vm_compute; tauto. Qed.

Definition clean_exit : reply := {| an_status := WExited 0; an_size := 0; an_fatal := false |}.

Definition root_cred : xucred := {| cr_uid := 0; cr_groups := [] |}.

(** The second VM is powered off, its process ends, and its owner boots it again. *)
Definition demo_off : daemon unit Z :=
  match vm_down_command demo_ops demo_daemon (Some "two") 2 root_cred [] with
  | Done (_, d) _ => d
  | Crash _ => idle 100
  end.

Definition demo_ended : daemon unit Z :=
  match event_step demo_kernel demo_devices demo_ops 0 demo_other demo_off (demo_event 7) clean_exit [] with
  | Done d _ => d
  | Crash _ => idle 100
  end.

Definition demo_again : daemon unit Z :=
  match boot demo_kernel demo_devices demo_ops 0 demo_ended 7 0 [] with
  | Done (_, d) _ => d
  | Crash _ => idle 100
  end.

Lemma demo_again_reachable :
  reachable demo_kernel demo_devices demo_ops 0 demo_other 100 [demo_vm "one"; demo_vm "two"] demo_again.
Proof.
  eapply (reach_boot _ _ _ _ _ _ _ demo_ended 7 _ 0 [] [] _); cycle 1; [vm_compute; reflexivity .. |].
  eapply (reach_event _ _ _ _ _ _ _ demo_off (demo_event 7) clean_exit [] []); [| | vm_compute; exact I | vm_compute; reflexivity].
  - eapply (reach_command _ _ _ _ _ _ _ demo_daemon (Some "two") 2 root_cred [] []); [exact demo_reachable | vm_compute; reflexivity].
  - apply list_elem_of_In. vm_compute. tauto.
Qed.

Lemma running_vms_are_watched_witness :
  exists ev, ev ∈ d_events demo_again /\ ev_cb ev = CbVmExit /\ ev_data ev = Some 7 /\
        k_filter (ev_kev ev) = EVFILT_PROC /\
        k_ident (ev_kev ev) = default 0 ((fun e => vm_pid (ve_vm e)) <$> (d_heap demo_again !! 7)).
Proof.
  assert (H : exists e, d_heap demo_again !! 7 = Some e /\ VM_STATE e = RUN) by (eexists; split; vm_compute; reflexivity).
  destruct H as (e & He & Hs). rewrite He.
  refine (proj2 (proj2 (running_vms_are_watched demo_kernel demo_devices demo_ops 0 demo_other 100
           [demo_vm "one"; demo_vm "two"] demo_again demo_all_startable demo_again_reachable) 7 e He) _).
  rewrite Hs. discriminate.
Defined.

Lemma event_step_safe_witness :
  wp (event_step demo_kernel demo_devices demo_ops 0 demo_other demo_daemon (demo_event 7) clean_exit)
     (fun d' => exists a e e', ev_data (demo_event 7) = Some a /\ d_heap demo_daemon !! a = Some e /\
        d_heap d' = <[a := e']> (d_heap demo_daemon) /\ d_vm_list d' = d_vm_list demo_daemon /\
        event_trans CbVmExit (VM_STATE e) (VM_STATE e'))
     tolerated.
Proof.
  apply (event_step_safe demo_kernel demo_devices demo_ops 0 demo_other 100
           [demo_vm "one"; demo_vm "two"] demo_daemon (demo_event 7) clean_exit
           demo_all_startable demo_reachable).
  - apply demo_event_in. by right.
  - vm_compute. exact I.
Defined.

Lemma vm_down_command_safe_witness :
  wp (vm_down_command demo_ops demo_daemon (Some "one") 2 root_cred)
     (fun p => (d_heap p.2 = d_heap demo_daemon \/
        exists a e e', a ∈ d_vm_list demo_daemon /\ d_heap demo_daemon !! a = Some e /\
          vc_name (VM_CONF e) = Some "one" /\ check_owner (VM_CONF e) root_cred = 0 /\
          (2 = 0 \/ 2 = 2) /\ p.1 = None /\ d_heap p.2 = <[a := e']> (d_heap demo_daemon) /\
          (VM_STATE e = LOAD \/ VM_STATE e = RUN) /\ VM_STATE e' = STOP) /\
        d_vm_list p.2 = d_vm_list demo_daemon)
     tolerated.
Proof.
  exact (vm_down_command_safe demo_kernel demo_devices demo_ops 0 demo_other 100
           [demo_vm "one"; demo_vm "two"] demo_daemon (Some "one") 2 root_cred
           demo_all_startable demo_reachable).
Defined.

(** The second VM is being removed. *)
Definition demo_removing : daemon unit Z :=
  put_vm demo_daemon 7 (demo_entry 7) (ve_vm (demo_entry 7) <| vm_state := REMOVE |>).

Lemma removed_vm_double_free_witness :
  wp (event_step demo_kernel demo_devices demo_ops 0 demo_other demo_removing (demo_event 7) clean_exit)
     (fun _ => False) (fun f => f = UseAfterFree \/ f = ProcessExit).
Proof.
  apply (removed_vm_double_free demo_kernel demo_devices demo_ops 0 demo_other demo_removing
           (demo_event 7) clean_exit 7
           (demo_entry 7 <| ve_vm := ve_vm (demo_entry 7) <| vm_state := REMOVE |> |>)
           ({| m_name := "bhyve" |}, PlData 0)); try reflexivity.
  - apply (bool_decide_unpack _). vm_compute. exact I.
  - apply list_elem_of_In. vm_compute. tauto.
  - vm_compute. by repeat split; repeat eexists.
Defined.

(** A VM that has not been started yet. *)
Definition demo_created : daemon unit Z :=
  match create_vm_entry (idle 100) (demo_vm "one") [] with
  | Done (_, d) _ => d
  | Crash _ => idle 100
  end.

Lemma assign_comport_fresh_witness :
  wp (assign_comport demo_devices 0 demo_created 0)
     (fun p => p.1 = 0 -> exists n v',
        d_heap p.2 = <[0 := {| ve_vm := v'; ve_method := Some ({| m_name := "bhyve" |}, PlData 0) |}]>
                       (d_heap demo_created) /\
        vm_assigned_comport v' = Some (nmdm_name n) /\ 0 <= n <= INT_MAX /\
        forall s, in_use demo_devices demo_created s -> digits_value 0 s < n /\ s <> nmdm_name n)
     (fun f => f = SignedOverflow).
Proof.
  apply (assign_comport_fresh demo_devices 0 demo_created 0
           {| ve_vm := new_vm (demo_vm "one"); ve_method := Some ({| m_name := "bhyve" |}, PlData 0) |} "auto");
    try reflexivity.
  intros b Hb. apply list_elem_of_singleton in Hb as ->. by eexists.
Defined.
