(* ===== verification/ConfList.v ===== *)
(** * The list of configurations (the LIST macros of <sys/queue.h>)

    [vm_conf_list] of src/bmd.c and the lists that [load_config_file] fills are
    doubly linked: an element has the address of the next one and the address
    of the pointer that points to it, which is the head of the list or the [next]
    field of the element before.  Elements keep these two fields when they are
    removed; removing one twice therefore writes through them again.

    The memory [lmem] has the elements and the heads under their addresses.  The
    operations are the macros; [is_list] states which sequence a list
    represents, and the lemmas that the macros implement the operations on
    sequences. *)

From S2P Require Import Prelude.

Local Open Scope Z_scope.

(** ** Memory *)

(** What [le_prev] points to. *)
Inductive lref := AtHead (h : Z) | AtNext (a : Z).

Record lnode (A : Type) := { ln_val : A; le_next : option Z; le_prev : lref }.
Arguments ln_val {A} l.
Arguments le_next {A} l.
Arguments le_prev {A} l.
Arguments Build_lnode {A} _ _ _.

#[export] Instance eta_lnode {A} : Eta (lnode A) := fun n =>
  {| ln_val := ln_val n; le_next := le_next n; le_prev := le_prev n |}.

Record lmem (A : Type) := { lm_nodes : gmap Z (lnode A); lm_heads : gmap Z (option Z) }.
Arguments lm_nodes {A} l.
Arguments lm_heads {A} l.
Arguments Build_lmem {A} _ _.

#[export] Instance eta_lmem {A} : Eta (lmem A) := fun m =>
  {| lm_nodes := lm_nodes m; lm_heads := lm_heads m |}.

Section ops.
Context {A : Type}.
Implicit Types (m : lmem A) (a h : Z) (l : list Z).

Definition get_node m a : C (lnode A) :=
  match lm_nodes m !! a with
  | Some n => mret n
  | None => crash UseAfterFree
  end.

Definition put_node m a (n : lnode A) : lmem A := m <| lm_nodes := <[a := n]> (lm_nodes m) |>.

Definition put_head m h (p : option Z) : lmem A := m <| lm_heads := <[h := p]> (lm_heads m) |>.

Definition LIST_FIRST m h : C (option Z) :=
  match lm_heads m !! h with
  | Some p => mret p
  | None => crash UseAfterFree
  end.

Definition LIST_NEXT m a : C (option Z) := n ← get_node m a; mret (le_next n).

(** [*r = p]. *)
Definition write_ref m (r : lref) (p : option Z) : C (lmem A) :=
  match r with
  | AtHead h => _ ← LIST_FIRST m h; mret (put_head m h p)
  | AtNext a => n ← get_node m a; mret (put_node m a (n <| le_next := p |>))
  end.

(** [elm->le_prev = r]. *)
Definition set_prev m a (r : lref) : C (lmem A) :=
  n ← get_node m a; mret (put_node m a (n <| le_prev := r |>)).

Definition LIST_INSERT_HEAD m h a : C (lmem A) :=
  first ← LIST_FIRST m h;
  n ← get_node m a;
  let m := put_node m a (n <| le_next := first |>) in
  m ← match first with
      | Some b => set_prev m b (AtNext a)
      | None => mret m
      end;
  let m := put_head m h (Some a) in
  set_prev m a (AtHead h).

Definition LIST_REMOVE m a : C (lmem A) :=
  n ← get_node m a;
  m ← match le_next n with
      | Some b => set_prev m b (le_prev n)
      | None => mret m
      end;
  write_ref m (le_prev n) (le_next n).

(** The element is returned to the allocator. *)
Definition free_node m a : C (lmem A) :=
  _ ← get_node m a; mret (m <| lm_nodes := delete a (lm_nodes m) |>).

(** [LIST_FOREACH_SAFE] with a body that frees the element; the fuel is the number
    of elements. *)
Fixpoint free_from (fuel : nat) m (p : option Z) : C (lmem A) :=
  match p with
  | None => mret m
  | Some a =>
      match fuel with
      | O => crash OutOfFuel
      | S fuel' =>
          next ← LIST_NEXT m a;
          m ← free_node m a;
          free_from fuel' m next
      end
  end.

Definition free_all m h : C (lmem A) :=
  first ← LIST_FIRST m h;
  free_from (S (size (lm_nodes m))) m first.

(** The walk of [LIST_CONCAT] to the last element. *)
Fixpoint last_from (fuel : nat) m a : C Z :=
  match fuel with
  | O => crash OutOfFuel
  | S fuel' =>
      next ← LIST_NEXT m a;
      match next with
      | None => mret a
      | Some b => last_from fuel' m b
      end
  end.

(** The list of [h2] behind that of [h1]. *)
Definition LIST_CONCAT m h1 h2 : C (lmem A) :=
  first1 ← LIST_FIRST m h1;
  first2 ← LIST_FIRST m h2;
  match first1, first2 with
  | _, None => mret m
  | None, Some b =>
      m ← set_prev (put_head m h1 (Some b)) b (AtHead h1);
      mret (put_head m h2 None)
  | Some a, Some b =>
      z ← last_from (S (size (lm_nodes m))) m a;
      m ← write_ref m (AtNext z) (Some b);
      m ← set_prev m b (AtNext z);
      mret (put_head m h2 None)
  end.

(** ** Sequences *)

(** The elements [l]: the first is pointed to from [r], the last points to [q]. *)
Fixpoint seg m (r : lref) l (q : option Z) : Prop :=
  match l with
  | [] => True
  | a :: l' =>
      (exists v, lm_nodes m !! a = Some {| ln_val := v; le_next := match l' with b :: _ => Some b | [] => q end;
                                           le_prev := r |}) /\
      seg m (AtNext a) l' q
  end.

Definition is_list m h l : Prop := lm_heads m !! h = Some (head l) /\ seg m (AtHead h) l None /\ NoDup l.

(** What is pointed from behind [l]. *)
Definition end_ref (r : lref) l : lref := match last l with Some z => AtNext z | None => r end.

Definition value_at m a : option A := ln_val <$> lm_nodes m !! a.

(** [m'] differs from [m] in the links of the elements of [l] and in the head
    [h] at most. *)
Definition relinks h l m m' : Prop :=
  (forall a, a ∉ l -> lm_nodes m' !! a = lm_nodes m !! a) /\
  (forall a, value_at m' a = value_at m a) /\
  (forall h', h' <> h -> lm_heads m' !! h' = lm_heads m !! h').

Lemma seg_frame m m' r l q :
  (forall a, a ∈ l -> lm_nodes m' !! a = lm_nodes m !! a) -> seg m r l q -> seg m' r l q.
Proof.
  revert r. induction l as [| a l IH]; intros r H; [done |]. intros [[v Hv] Hl]. split.
  - exists v. rewrite H by by left. done.
  - apply IH; [| done]. intros b Hb. apply H. by right.
Qed.

Lemma seg_in m r l q a : seg m r l q -> a ∈ l -> is_Some (lm_nodes m !! a).
Proof.
  revert r. induction l as [| b l IH]; intros r; [by intros _ ?%elem_of_nil |].
  intros [[v Hv] Hl] [-> | Ha]%elem_of_cons; [by rewrite Hv; eexists | by eapply IH].
Qed.

Lemma end_ref_cons r a l : end_ref r (a :: l) = end_ref (AtNext a) l.
Proof. unfold end_ref. rewrite last_cons. by destruct (last l). Qed.

Lemma seg_app m r l1 l2 q :
  seg m r (l1 ++ l2) q <->
  seg m r l1 (match l2 with b :: _ => Some b | [] => q end) /\ seg m (end_ref r l1) l2 q.
Proof.
  revert r. induction l1 as [| a l1 IH]; intros r; [cbn; tauto |]. rewrite end_ref_cons. cbn [app seg].
  rewrite IH. destruct l1 as [| b l1]; cbn; tauto.
Qed.

Lemma run_get_node m a n o : lm_nodes m !! a = Some n -> get_node m a o = Done n o.
Proof. intros H. unfold get_node. by rewrite H. Qed.

Lemma run_set_prev m a n r o :
  lm_nodes m !! a = Some n -> set_prev m a r o = Done (put_node m a (n <| le_prev := r |>)) o.
Proof. intros H. unfold set_prev, mbind, C_bind. by rewrite (run_get_node _ _ _ _ H). Qed.

(** Changing the links of one element. *)
Lemma relinks_put h l m a n n' :
  lm_nodes m !! a = Some n -> ln_val n' = ln_val n -> a ∈ l -> relinks h l m (put_node m a n').
Proof.
  intros Hn Hv Ha. split; [| split; [| done]]; intros b.
  - intros Hb. cbn. apply lookup_insert_ne. by intros ->.
  - unfold value_at. cbn. destruct (decide (a = b)) as [<- | N]; [| by rewrite lookup_insert_ne].
    rewrite lookup_insert_eq, Hn. cbn. by f_equal.
Qed.

Lemma relinks_trans h l m1 m2 m3 : relinks h l m1 m2 -> relinks h l m2 m3 -> relinks h l m1 m3.
Proof.
  intros (A1 & B1 & C1) (A2 & B2 & C2). split; [| split].
  - intros a Ha. by rewrite A2, A1.
  - intros a. by rewrite B2, B1.
  - intros h' Hh. by rewrite C2, C1.
Qed.

Lemma relinks_head h l m p : relinks h l m (put_head m h p).
Proof. split; [done | split; [done |]]. intros h' Hh. cbn. by rewrite lookup_insert_ne. Qed.

Lemma relinks_mono h l l' m m' : l ⊆ l' -> relinks h l m m' -> relinks h l' m m'.
Proof. intros Hl (H1 & H2 & H3). split; [| done]. intros a Ha. apply H1. set_solver. Qed.

(** The first element gets another predecessor. *)
Lemma set_first m r r' l q (Hnd : NoDup l) :
  seg m r l q ->
  exists m', (forall o, match l with b :: _ => set_prev m b r' | [] => mret m end o = Done m' o) /\
        seg m' r' l q /\ (forall h, relinks h l m m') /\ lm_heads m' = lm_heads m /\
        (forall a, a ∉ l -> lm_nodes m' !! a = lm_nodes m !! a).
Proof.
  destruct l as [| b l]; intros H; [exists m; done |]. apply NoDup_cons in Hnd as [Hb Hnd].
  destruct H as [[v Hv] Hl].
  exists (put_node m b {| ln_val := v; le_next := match l with c :: _ => Some c | [] => q end; le_prev := r' |}).
  split; [intros o; by rewrite (run_set_prev _ _ _ _ _ Hv) |].
  assert (HR : forall h, relinks h (b :: l) m
    (put_node m b {| ln_val := v; le_next := match l with c :: _ => Some c | [] => q end; le_prev := r' |})).
  { intros h. eapply relinks_put; [exact Hv | done | by left]. }
  split; [| split; [done | split; [done | apply (HR 0)]]]. split.
  - exists v. cbn. by rewrite lookup_insert_eq.
  - eapply seg_frame; [| exact Hl]. intros a Ha. cbn. apply lookup_insert_ne. by intros ->.
Qed.

(** The pointer behind [l] gets another value. *)
Lemma set_last m h l q q' (Hnd : NoDup l) p :
  lm_heads m !! h = Some p -> seg m (AtHead h) l q ->
  exists m', (forall o, write_ref m (end_ref (AtHead h) l) q' o = Done m' o) /\
        seg m' (AtHead h) l q' /\ relinks h l m m' /\
        (forall a, a ∉ l -> lm_nodes m' !! a = lm_nodes m !! a) /\
        lm_heads m' !! h = Some (match l with [] => q' | _ => p end).
Proof.
  destruct l as [| z l1 _] using rev_ind; intros Hh Hs.
  - exists (put_head m h q'). split; [| split; [done | split; [apply relinks_head | split; [done |]]]].
    + intros o. unfold write_ref, end_ref. cbn. unfold mbind, C_bind, LIST_FIRST. by rewrite Hh.
    + cbn. by rewrite lookup_insert_eq.
  - apply seg_app in Hs as [H1 [[v Hv] _]]. apply NoDup_app in Hnd as (Hnd & Hz & _).
    unfold end_ref. rewrite last_snoc.
    exists (put_node m z {| ln_val := v; le_next := q'; le_prev := end_ref (AtHead h) l1 |}).
    assert (HR : relinks h (l1 ++ [z]) m (put_node m z {| ln_val := v; le_next := q'; le_prev := end_ref (AtHead h) l1 |})).
    { eapply relinks_put; [exact Hv | done | set_solver]. }
    split; [| split; [| split; [exact HR | split; [apply HR |]]]].
    + intros o. unfold write_ref, mbind, C_bind. rewrite (run_get_node _ _ _ _ Hv). done.
    + apply seg_app. split.
      * eapply seg_frame; [| exact H1]. intros a Ha. cbn. apply lookup_insert_ne. intros ->. set_solver.
      * cbn. split; [| done]. exists v. by rewrite lookup_insert_eq.
    + cbn. rewrite Hh. by destruct l1.
Qed.

Lemma LIST_REMOVE_spec m h l1 a l2 :
  is_list m h (l1 ++ a :: l2) ->
  exists m', (forall o, LIST_REMOVE m a o = Done m' o) /\ is_list m' h (l1 ++ l2) /\
        relinks h (l1 ++ l2) m m'.
Proof.
  intros (Hh & Hs & Hnd). apply seg_app in Hs as [H1 [[v Hv] H2]].
  apply NoDup_app in Hnd as (Hnd1 & Hdisj & Hnd2). apply NoDup_cons in Hnd2 as [Ha2 Hnd2].
  destruct (set_first m (AtNext a) (end_ref (AtHead h) l1) l2 None Hnd2 H2) as (m1 & E1 & S1 & R1 & Hd1 & F1).
  assert (H1' : seg m1 (AtHead h) l1 (Some a)).
  { eapply seg_frame; [| exact H1]. intros b Hb. apply F1. set_solver. }
  rewrite <- Hd1 in Hh.
  destruct (set_last m1 h l1 (Some a) (match l2 with b :: _ => Some b | [] => None end) Hnd1 _ Hh H1')
    as (m2 & E2 & S2 & R2 & F2 & Hd2).
  exists m2. split; [| split; [split; [| split] |]].
  - intros o. unfold LIST_REMOVE. unfold mbind, C_bind at 1. rewrite (run_get_node _ _ _ _ Hv). cbn [le_next le_prev].
    unfold mbind, C_bind. specialize (E1 o). destruct l2; rewrite E1; apply E2.
  - rewrite Hd2. destruct l1; [by destruct l2 | done].
  - apply seg_app. split; [exact S2 |]. eapply seg_frame; [| exact S1]. intros b Hb. apply F2. set_solver.
  - apply NoDup_app. split; [done |]. split; [set_solver | done].
  - eapply relinks_trans; eapply relinks_mono; [| apply R1 | | apply R2]; set_solver.
Qed.

Lemma LIST_INSERT_HEAD_spec m h l a n :
  is_list m h l -> lm_nodes m !! a = Some n -> a ∉ l ->
  exists m', (forall o, LIST_INSERT_HEAD m h a o = Done m' o) /\ is_list m' h (a :: l) /\ relinks h (a :: l) m m'.
Proof.
  intros (Hh & Hs & Hnd) Hn Ha.
  set (m1 := put_node m a (n <| le_next := head l |>)).
  assert (Hs1 : seg m1 (AtHead h) l None).
  { eapply seg_frame; [| exact Hs]. intros b Hb. cbn. apply lookup_insert_ne. set_solver. }
  destruct (set_first m1 (AtHead h) (AtNext a) l None Hnd Hs1) as (m2 & E2 & S2 & R2 & Hd2 & F2).
  assert (Hn2 : lm_nodes m2 !! a = Some (n <| le_next := head l |>)).
  { rewrite F2 by done. cbn. by rewrite lookup_insert_eq. }
  set (m3 := put_head m2 h (Some a)).
  exists (put_node m3 a (n <| le_next := head l |> <| le_prev := AtHead h |>)). split; [| split; [split; [| split] |]].
  - intros o. unfold LIST_INSERT_HEAD, mbind, C_bind, LIST_FIRST at 1. rewrite Hh. cbn [mret C_ret].
    rewrite (run_get_node _ _ _ _ Hn). fold m1. specialize (E2 o). destruct l as [| b l]; cbn [head] in *.
    + rewrite E2. fold m3. rewrite (run_set_prev m3 a _ _ _ Hn2). done.
    + rewrite E2. fold m3. rewrite (run_set_prev m3 a _ _ _ Hn2). done.
  - cbn. by rewrite lookup_insert_eq.
  - split; [exists (ln_val n); cbn; rewrite lookup_insert_eq; by destruct l |].
    eapply seg_frame; [| exact S2]. intros b Hb. cbn. apply lookup_insert_ne. set_solver.
  - by apply NoDup_cons.
  - apply (relinks_trans _ _ _ m1); [eapply (relinks_put _ _ _ a); [exact Hn | done | by left] |].
    eapply relinks_trans; [eapply relinks_mono; [| apply R2]; set_solver |].
    eapply relinks_trans; [apply relinks_head |]. eapply (relinks_put _ _ _ a); [exact Hn2 | done | by left].
Qed.

(** Freeing every element of a list; the others stay. *)
Lemma free_from_spec l : forall m r fuel,
  seg m r l None -> NoDup l -> (length l <= fuel)%nat ->
  exists m', (forall o, free_from fuel m (head l) o = Done m' o) /\
        (forall a, lm_nodes m' !! a = if decide (a ∈ l) then None else lm_nodes m !! a) /\
        lm_heads m' = lm_heads m.
Proof.
  induction l as [| a l IH]; intros m r fuel Hs Hnd Hf.
  { exists m. split; [by destruct fuel |]. split; [| done]. intros a. rewrite decide_False by apply not_elem_of_nil. done. }
  destruct fuel as [| fuel]; [cbn in Hf; lia |]. destruct Hs as [[v Hv] Hs]. apply NoDup_cons in Hnd as [Ha Hnd].
  set (m1 := m <| lm_nodes := delete a (lm_nodes m) |>).
  destruct (IH m1 (AtNext a) fuel) as (m2 & E & Hn & Hh).
  - eapply seg_frame; [| exact Hs]. intros b Hb. cbn. apply lookup_delete_ne. set_solver.
  - done.
  - cbn in Hf. lia.
  - exists m2. split; [| split; [| done]].
    + intros o. cbn [head free_from]. unfold LIST_NEXT, free_node, mbind, C_bind. rewrite (run_get_node _ _ _ _ Hv).
      cbn [mret C_ret le_next]. rewrite (run_get_node _ _ _ _ Hv). fold m1. destruct l; apply E.
    + intros b. rewrite Hn. cbn. destruct (decide (b ∈ a :: l)) as [Hb | Hb].
      * destruct (decide (b ∈ l)); [done |]. apply elem_of_cons in Hb as [-> | ?]; [| done]. by rewrite lookup_delete_eq.
      * rewrite decide_False by set_solver. apply lookup_delete_ne. set_solver.
Qed.

Lemma seg_size m r l q : seg m r l q -> NoDup l -> (length l <= size (lm_nodes m))%nat.
Proof.
  intros Hs Hnd. rewrite <- size_dom, <- (size_list_to_set (C := gset Z) l) by done.
  apply subseteq_size. intros a Ha. apply elem_of_list_to_set in Ha. apply elem_of_dom. by eapply seg_in.
Qed.

Lemma free_all_spec m h l :
  is_list m h l ->
  exists m', (forall o, free_all m h o = Done m' o) /\
        (forall a, lm_nodes m' !! a = if decide (a ∈ l) then None else lm_nodes m !! a) /\
        lm_heads m' = lm_heads m.
Proof.
  intros (Hh & Hs & Hnd). destruct (free_from_spec l m (AtHead h) (S (size (lm_nodes m))) Hs Hnd) as (m' & E & H).
  { pose proof (seg_size _ _ _ _ Hs Hnd). lia. }
  exists m'. split; [| done]. intros o. unfold free_all, LIST_FIRST, mbind, C_bind. rewrite Hh. cbn. apply E.
Qed.

(** A list in front of which nothing stands. *)
Lemma LIST_CONCAT_empty m h1 h2 l :
  h1 <> h2 -> lm_heads m !! h1 = Some None -> is_list m h2 l ->
  exists m', (forall o, LIST_CONCAT m h1 h2 o = Done m' o) /\ is_list m' h1 l /\ is_list m' h2 [] /\
        (forall a, value_at m' a = value_at m a) /\ (forall a, a ∉ l -> lm_nodes m' !! a = lm_nodes m !! a).
Proof.
  intros Hne H1 (H2 & Hs & Hnd). destruct (set_first m (AtHead h2) (AtHead h1) l None Hnd Hs) as (m1 & E1 & S1 & R1 & Hd1 & F1).
  destruct l as [| b l].
  - exists m. cbn in H2. split; [| split; [by split | split; [split; [done | split; [done | constructor]] | done]]].
    intros o. unfold LIST_CONCAT, LIST_FIRST, mbind, C_bind. by rewrite H1, H2.
  - destruct Hs as [[v Hv] Hs]. cbn [head] in H2.
    set (m2 := put_node (put_head m h1 (Some b)) b {| ln_val := v; le_next := match l with c :: _ => Some c | [] => None end;
                                                      le_prev := AtHead h1 |}).
    assert (HN : lm_nodes m2 = lm_nodes m1).
    { specialize (E1 []). rewrite (run_set_prev _ _ _ _ _ Hv) in E1. injection E1 as <-. done. }
    exists (put_head m2 h2 None). split; [| split; [split; [| split] | split; [split; [| split] | split]]].
    + intros o. unfold LIST_CONCAT, LIST_FIRST, mbind, C_bind. rewrite H1, H2. cbn [mret C_ret].
      rewrite (run_set_prev (put_head m h1 (Some b)) b _ (AtHead h1) _ Hv). done.
    + cbn. rewrite lookup_insert_ne, lookup_insert_eq by done. done.
    + eapply seg_frame; [| exact S1]. intros a _. change (lm_nodes m2 !! a = lm_nodes m1 !! a). by rewrite HN.
    + done.
    + cbn. by rewrite lookup_insert_eq.
    + done.
    + constructor.
    + intros a. destruct (R1 0) as (_ & Hv' & _). rewrite <- Hv'. unfold value_at.
      change (lm_nodes (put_head m2 h2 None)) with (lm_nodes m2). by rewrite HN.
    + intros a Ha. change (lm_nodes m2 !! a = lm_nodes m !! a). rewrite HN. by apply F1.
Qed.

(** An element that was removed still points to its neighbours: removing it
    again, after its neighbour was freed, writes to freed memory. *)
Lemma remove_twice_faults m a n b o :
  lm_nodes m !! a = Some n -> le_next n = Some b \/ le_next n = None /\ le_prev n = AtNext b ->
  lm_nodes m !! b = None -> LIST_REMOVE m a o = Crash UseAfterFree.
Proof.
  intros Hn Hb Hm. unfold LIST_REMOVE, mbind, C_bind. rewrite (run_get_node _ _ _ _ Hn).
  destruct Hb as [-> | [-> Hp]]; [unfold set_prev, mbind, C_bind, get_node; by rewrite Hm |].
  cbn. rewrite Hp. unfold write_ref, mbind, C_bind, get_node. by rewrite Hm.
Qed.

End ops.
