(* ===== verification/Reload.v ===== *)
(** * Reloading the configuration (src/bmd.c 904-931, 1227-1363, 1403-1442)

    On SIGHUP the configuration files are read again and every VM gets its new
    configuration, is restarted, stopped or removed.  Here the configurations
    are objects too: [s_mem] has the elements of [vm_conf_list] and of the list
    that is being loaded, with their links (ConfList.v); [s_conf] is the pointer
    [vm.conf] of each VM and [s_new] its [new_conf], where a VM without an
    entry has NULL.  What [vm.conf] points to is also kept in the VM itself
    ([vm_ent_conf]), which is what the functions of Daemon.v read; here every access
    checks that the object is allocated.

    What [load_config_file] (Load.v) returns is the argument [news]; the
    call-back of plugins on a reload is the argument [on_reload_config]. *)

From S2P Require Import Prelude CString Vars Conf Global MPool Plugin ParseValue Parser Load Tap Vm Network.
From S2P Require Import NvList SockBuf Daemon ConfList.
From Stdlib Require Import Ascii.

Local Open Scope Z_scope.

(** ** Data *)

Definition VM_CONF_LIST : Z := 0.
Definition NEW_LIST : Z := 1.

Record server (NV W : Type) := {
  s_d : daemon NV W;
  s_mem : lmem (vm_conf_entry NV);
  s_conf : gmap Z Z;
  s_new : gmap Z Z;
}.
Arguments s_d {NV W} s.
Arguments s_mem {NV W} s.
Arguments s_conf {NV W} s.
Arguments s_new {NV W} s.

#[export] Instance eta_server {NV W} : Eta (server NV W) := fun s =>
  {| s_d := s_d s; s_mem := s_mem s; s_conf := s_conf s; s_new := s_new s |}.

Section reload.
Context {NV W : Type} (k : kernel W) (dv : devices NV W) (ops : vm_method -> vm_ops NV W) (nmdm_offset : Z)
        (nv : libnv NV) (same_ent : plugin_desc NV -> plugin_desc NV -> bool)
        (on_reload_config : plugin_desc NV -> NV -> NV -> NV * NV).
Implicit Types (s : server NV W) (a c : Z) (ce : vm_conf_entry NV).

(** A call of a function of the daemon. *)
Definition on_daemon {R} s (f : daemon NV W -> C (R * daemon NV W)) : C (R * server NV W) :=
  '(r, d) ← f (s_d s); mret (r, s <| s_d := d |>).

Definition on_daemon_ s (f : daemon NV W -> C (daemon NV W)) : C (server NV W) :=
  d ← f (s_d s); mret (s <| s_d := d |>).

(** [VM_CONF(vm_ent)], which must not be freed. *)
Definition conf_ptr s a : C Z := deref (s_conf s !! a).

Definition vm_conf_of s a : C (vm_conf_entry NV) :=
  e ← get_entry (s_d s) a;
  c ← conf_ptr s a;
  _ ← get_node (s_mem s) c;
  mret (vm_ent_conf (ve_vm e)).

(** The pointer [pl_conf] stays where it is when [vm.conf] changes. *)
Definition leave_conf (e : vm_entry NV) : vm_entry NV :=
  e <| ve_method := (fun m => (m.1, pl_left (ce_pl_data (vm_ent_conf (ve_vm e))) m.2)) <$> ve_method e |>.

(** [VM_CONF(vm_ent) = conf]. *)
Definition set_vm_conf s a c : C (server NV W) :=
  n ← get_node (s_mem s) c;
  e ← get_entry (s_d s) a;
  let e := if decide (s_conf s !! a = Some c) then e else leave_conf e in
  mret (s <| s_conf := <[a := c]> (s_conf s) |>
          <| s_d := put_vm (s_d s) a e (ve_vm e <| vm_ent_conf := ln_val n |>) |>).

(** [lookup_vm_by_name] reads the names through the pointers. *)
Fixpoint lookup_live s (l : list Z) (name : string) : C (option Z) :=
  match l with
  | [] => mret None
  | a :: l' =>
      ce ← vm_conf_of s a;
      n ← deref (vc_name (ce_conf ce));
      if strcmp n name =? 0 then mret (Some a) else lookup_live s l' name
  end.

(** The elements of the list that is loaded, each in front of the others. *)
Fixpoint link_news s (l : list (vm_conf_entry NV)) : C (server NV W) :=
  match l with
  | [] => mret s
  | ce :: l' =>
      s ← link_news s l';
      let c := d_next (s_d s) in
      let mem := put_node (s_mem s) c {| ln_val := ce; le_next := None; le_prev := AtHead NEW_LIST |} in
      mem ← LIST_INSERT_HEAD mem NEW_LIST c;
      mret (s <| s_mem := mem |> <| s_d := s_d s <| d_next := c + 1 |> |>)
  end.

(** The data of the plugins, new and old, side by side. *)
Fixpoint copy_plugins (da db : list (plugin_data NV)) : list (plugin_data NV) * list (plugin_data NV) :=
  match da, db with
  | x :: da', y :: db' =>
      if same_ent (pd_desc x) (pd_desc y) then
        let '(nx, ny) := on_reload_config (pd_desc x) (pd_conf x) (pd_conf y) in
        let '(ra, rb) := copy_plugins da' db' in
        ({| pd_desc := pd_desc x; pd_conf := nx |} :: ra, {| pd_desc := pd_desc y; pd_conf := ny |} :: rb)
      else (da, db)
  | _, _ => (da, db)
  end.

(** From the configuration of VM [a] to the new one at [c]. *)
Definition copy_plugin_data s c a : C (server NV W) :=
  old ← vm_conf_of s a;
  e ← get_entry (s_d s) a;
  n ← get_node (s_mem s) c;
  let '(pn, po) := copy_plugins (ce_pl_data (ln_val n)) (ce_pl_data old) in
  mret (s <| s_mem := put_node (s_mem s) c (n <| ln_val := {| ce_conf := ce_conf (ln_val n); ce_pl_data := pn |} |>) |>
          <| s_d := put_vm (s_d s) a e (ve_vm e <| vm_ent_conf := {| ce_conf := ce_conf old; ce_pl_data := po |} |>) |>).

(** The log file is opened again. *)
Definition reopen_log s a (conf : vm_conf) : C (server NV W) :=
  e ← get_entry (s_d s) a;
  old ← vm_conf_of s a;
  if (vm_logfd (ve_vm e) =? -1) || negb (bool_decide (is_Some (vc_err_logfile (ce_conf old)))) then mret s
  else
    let '(fd, w) := sys_open_log dv conf (close_fd k (d_world (s_d s)) (vm_logfd (ve_vm e))) in
    mret (s <| s_d := put_vm (s_d s) a e (ve_vm e <| vm_logfd := fd |>) <| d_world := w |> |>).

(** [VM_ACPI_POWEROFF], a timer and the new state. *)
Definition shut_down s a (timeout : Z) (st : STATE) : C (server NV W) :=
  s ← on_daemon_ s (fun d => VM_ACPI_POWEROFF ops d a);
  '(_, s) ← on_daemon s (fun d => set_timer d a timeout);
  on_daemon_ s (fun d => change_state d a st).

(** The first [switch]: the configuration has changed. *)
Definition restart_changed s a (conf : vm_conf) : C (server NV W) :=
  e ← get_entry (s_d s) a;
  match VM_STATE e with
  | TERMINATE => '(_, s) ← on_daemon s (fun d => set_timer d a (Z.max (vc_boot_delay conf) 1)); mret s
  | LOAD | RUN => shut_down s a (vc_stop_timeout conf) RESTART
  | STOP => on_daemon_ s (fun d => change_state d a RESTART)
  | REMOVE | RESTART => mret s
  end.

(** The second one: [boot] has changed. *)
Definition switch_boot s a c (conf : vm_conf) : C (server NV W) :=
  e ← get_entry (s_d s) a;
  match vc_boot conf with
  | NO =>
      match VM_STATE e with
      | LOAD | RUN => shut_down s a (vc_stop_timeout conf) STOP
      | RESTART => on_daemon_ s (fun d => change_state d a STOP)
      | _ => mret s
      end
  | ALWAYS | YES =>
      match VM_STATE e with
      | TERMINATE =>
          s ← set_vm_conf s a c;
          '(_, s) ← on_daemon s (fun d => start_virtual_machine k dv ops nmdm_offset d a); mret s
      | STOP => on_daemon_ s (fun d => change_state d a RESTART)
      | _ => mret s
      end
  | ONESHOT => mret s
  end.

(** A name that is new: -1 when the entry cannot be made. *)
Definition reload_added s c ce : C (Z * server NV W) :=
  '(r, s) ← on_daemon s (fun d => create_vm_entry d ce);
  match r with
  | None => mret (-1, s)
  | Some a =>
      let s := s <| s_conf := <[a := c]> (s_conf s) |> <| s_new := <[a := c]> (s_new s) |> in
      let conf := ce_conf ce in
      '(_, s) ← (if decide (vc_boot conf = NO) then mret (0, s)
                 else if 0 <? vc_boot_delay conf then on_daemon s (fun d => set_timer d a (vc_boot_delay conf))
                 else on_daemon s (fun d => start_virtual_machine k dv ops nmdm_offset d a));
      mret (0, s)
  end.

(** A VM that is known. *)
Definition reload_known (fuel : nat) s c a ce : C (server NV W) :=
  let conf := ce_conf ce in
  s ← reopen_log s a conf;
  s ← copy_plugin_data s c a;
  let s := s <| s_new := <[a := c]> (s_new s) |> in
  n ← get_node (s_mem s) c;
  old ← vm_conf_of s a;
  changed ← (if negb (bool_decide (vc_boot conf = NO)) && vc_reboot_on_change conf
             then rc ← compare_vm_conf_entry nv fuel (ln_val n) old; mret (negb (rc =? 0)) else mret false);
  if (changed : bool) then restart_changed s a conf
  else if bool_decide (vc_boot conf = vc_boot (ce_conf old)) then mret s
  else switch_boot s a c conf.

(** The loop over the new configurations. *)
Fixpoint reload_each (fuel : nat) s (l : list Z) : C (Z * server NV W) :=
  match l with
  | [] => mret (0, s)
  | c :: l' =>
      n ← get_node (s_mem s) c;
      name ← deref (vc_name (ce_conf (ln_val n)));
      r ← lookup_live s (d_vm_list (s_d s)) name;
      '(rc, s) ← match r with
                 | None => reload_added s c (ln_val n)
                 | Some a => s ← reload_known fuel s c a (ln_val n); mret (0, s)
                 end;
      if rc <? 0 then mret (-1, s) else reload_each fuel s l'
  end.

(** [free_vm_entry] frees the configuration too. *)
Definition free_vm s a : C (server NV W) :=
  c ← conf_ptr s a;
  s ← on_daemon_ s (fun d => free_vm_entry d a);
  mem ← free_node (s_mem s) c;
  mret (s <| s_mem := mem |> <| s_conf := delete a (s_conf s) |> <| s_new := delete a (s_new s) |>).

(** [LIST_REMOVE(VM_CONF_ENT(vm_ent), next)]. *)
Definition unlink_conf s a : C (server NV W) :=
  c ← conf_ptr s a; mem ← LIST_REMOVE (s_mem s) c; mret (s <| s_mem := mem |>).

(** The body of the loop over the VMs. *)
Definition settle s a : C (server NV W) :=
  e ← get_entry (s_d s) a;
  match s_new s !! a with
  | Some c => s ← set_vm_conf s a c; mret (s <| s_new := delete a (s_new s) |>)
  | None =>
      match VM_STATE e with
      | LOAD | RUN =>
          ce ← vm_conf_of s a;
          s ← shut_down s a (vc_stop_timeout (ce_conf ce)) REMOVE;
          unlink_conf s a
      | STOP | REMOVE | RESTART =>
          s ← on_daemon_ s (fun d => change_state d a REMOVE);
          unlink_conf s a
      | TERMINATE =>
          let d := s_d s in
          let s := s <| s_d := d <| d_vm_list := List.filter (fun b => negb (b =? a)) (d_vm_list d) |> |> in
          s ← unlink_conf s a;
          free_vm s a
      end
  end.

(** The local head vanishes on return. *)
Definition drop_head (mem : lmem (vm_conf_entry NV)) : lmem (vm_conf_entry NV) :=
  mem <| lm_heads := delete NEW_LIST (lm_heads mem) |>.

(** What [pl_conf] points to is freed, where it is data of a configuration that the VM had before. *)
Definition free_pl_conf (e : vm_entry NV) : vm_entry NV :=
  e <| ve_method := (fun m => (m.1, pl_freed m.2)) <$> ve_method e |>.

(** The lists at the end: the old configurations are freed with the data of the plugins, the new ones take
    their place. *)
Definition replace_list s : C (server NV W) :=
  mem ← free_all (s_mem s) VM_CONF_LIST;
  let mem := put_head mem VM_CONF_LIST None in
  mem ← LIST_CONCAT mem VM_CONF_LIST NEW_LIST;
  mret (s <| s_mem := drop_head mem |> <| s_d := s_d s <| d_heap := free_pl_conf <$> d_heap (s_d s) |> |>).

(** [None] when the files cannot be loaded. *)
Definition reload_virtual_machines (fuel : nat) s (news : option (list (vm_conf_entry NV)))
    : C (Z * server NV W) :=
  match news with
  | None => mret (-1, s)
  | Some news =>
      let s := s <| s_mem := put_head (s_mem s) NEW_LIST None |> <| s_new := ∅ |> in
      let base := d_next (s_d s) in
      s ← link_news s news;
      '(rc, s) ← reload_each fuel s (rev (seqZ base (Z.of_nat (length news))));
      if rc <? 0 then mret (-1, s <| s_mem := drop_head (s_mem s) |>)
      else
        s ← foreach settle (d_vm_list (s_d s)) s;
        s ← replace_list s;
        mret (0, s)
  end.

End reload.

(** ** The end of the daemon *)

Section stop.
Context {NV W : Type} (k : kernel W) (dv : devices NV W) (ops : vm_method -> vm_ops NV W) (nmdm_offset : Z)
        (other : nat -> Z -> option Z -> daemon NV W -> C (Z * daemon NV W)).
Implicit Types (d : daemon NV W).

(** The VMs that are loading or running are asked to stop, and counted. *)
Fixpoint stop_each d (l : list Z) (count : Z) : C (Z * daemon NV W) :=
  match l with
  | [] => mret (count, d)
  | a :: l' =>
      e ← get_entry d a;
      match VM_STATE e with
      | LOAD | RUN =>
          d ← VM_ACPI_POWEROFF ops d a;
          '(_, d) ← set_timer d a (vc_stop_timeout (VM_CONF e));
          stop_each d l' (count + 1)
      | _ => stop_each d l' count
      end
  end.

(** The loop over the events that arrive: [None] is an answer of [kevent] that is an error. *)
Fixpoint await_end d (count : Z) (evs : list (option (event * reply))) : C (Z * Z * daemon NV W) :=
  if 0 <? count then
    match evs with
    | [] => mret (1, count, d)
    | None :: _ => mret (-1, count, d)
    | Some (ev, an) :: evs' =>
        let ends := match ev_type ev with EVENT => bool_decide (k_filter (ev_kev ev) = EVFILT_PROC) | PLUGIN => false end in
        d ← event_step k dv ops nmdm_offset other d ev an;
        await_end d (if ends then count - 1 else count) evs'
    end
  else mret (0, count, d).

(** 1 while the loop still waits. *)
Definition stop_virtual_machines d (evs : list (option (event * reply))) : C (Z * daemon NV W) :=
  '(count, d) ← stop_each d (d_vm_list d) 0;
  '(rc, _, d) ← await_end d count evs;
  mret (rc, d).

End stop.

