(* ===== verification/Upkeep.v ===== *)
(** * Reloading is memory safe (about src/bmd.c 1227-1363)

    The theorem of this file: a reload from a state in which every VM has a configuration
    of its own on [vm_conf_list] frees no configuration that is in use and leaves
    every VM with one that is allocated.  The operations of Daemon.v that a
    reload calls are described by [step]: the entry of one VM changes, with its
    configuration kept, and events are added for that VM only. *)

From S2P Require Import Prelude CString Vars Conf Global MPool Plugin ParseValue Parser Load Tap Vm Network.
From S2P Require Import NvList SockBuf Daemon ConfList Reload.
From Stdlib Require Import Ascii.

Local Open Scope Z_scope.

(** ** What the operations on one VM change *)

(** The events that do not belong to VM [a]. *)
Definition foreign (a : Z) (l : list event) : list event := List.filter (fun ev => negb (vm_entry_event a ev)) l.

Definition event_frame {NV W} (a : Z) (d d' : daemon NV W) : Prop :=
  foreign a (d_events d') = foreign a (d_events d) /\ d_next d <= d_next d'.

Lemma foreign_own a ev l : ev_data ev = Some a -> foreign a (ev :: l) = foreign a l.
Proof. intros H. unfold foreign, vm_entry_event. cbn. by rewrite bool_decide_true. Qed.

Lemma foreign_in a l l' ev : foreign a l' = foreign a l -> ev ∈ l' -> ev ∈ l \/ ev_data ev = Some a.
Proof.
  intros H Hev. destruct (decide (ev_data ev = Some a)) as [E | E]; [by right | left].
  assert (Hf : In ev (foreign a l')).
  { apply filter_In. split; [by apply list_elem_of_In | unfold vm_entry_event; by rewrite bool_decide_false]. }
  rewrite H in Hf. apply filter_In in Hf as [Hf _]. by apply list_elem_of_In.
Qed.

Definition step {NV W} (d : daemon NV W) (a : Z) (e e' : vm_entry NV) (d' : daemon NV W) : Prop :=
  becomes d a e' d' /\ vm_ent_conf (ve_vm e') = vm_ent_conf (ve_vm e) /\ ve_method e' = ve_method e /\
  event_frame a d d'.

Section steps.
Context {NV W : Type} (k : kernel W) (dv : devices NV W) (ops : vm_method -> vm_ops NV W) (nmdm_offset : Z)
        `{Hlaws : forall m, BackendLaws (m_name m) (ops m)}.
Implicit Types (d : daemon NV W) (a : Z) (e : vm_entry NV) (v : vm NV).

Lemma event_frame_same a d d' : d_events d' = d_events d -> d_next d' = d_next d -> event_frame a d d'.
Proof. intros H1 H2. split; [by rewrite H1 | lia]. Qed.

Lemma step_refl d a e d' :
  d_heap d !! a = Some e -> d_heap d' = d_heap d -> d_vm_list d' = d_vm_list d -> event_frame a d d' ->
  step d a e e d'.
Proof. intros He H1 H2 H3. split; [by apply becomes_same | done]. Qed.

Lemma step_here d a e : d_heap d !! a = Some e -> step d a e e d.
Proof. intros He. by apply step_refl; try apply event_frame_same. Qed.

Lemma step_world d a e w : d_heap d !! a = Some e -> step d a e e (d <| d_world := w |>).
Proof. intros He. by apply step_refl; try apply event_frame_same. Qed.

Lemma step_trans d1 d2 d3 a e1 e2 e3 : step d1 a e1 e2 d2 -> step d2 a e2 e3 d3 -> step d1 a e1 e3 d3.
Proof.
  intros (B1 & C1 & M1 & [E1 N1]) (B2 & C2 & M2 & [E2 N2]).
  split; [by eapply becomes_trans | split; [congruence | split; [congruence |]]]. split; [congruence | lia].
Qed.

Lemma step_lookup d a e e' d' : step d a e e' d' -> d_heap d' !! a = Some e'.
Proof. intros [B _]. by eapply becomes_lookup. Qed.

Lemma step_put d a e v w :
  d_heap d !! a = Some e -> vm_ent_conf v = vm_ent_conf (ve_vm e) ->
  step d a e (e <| ve_vm := v |>) (put_vm d a e v <| d_world := w |>).
Proof. intros He Hc. split; [done | split; [done | split; [done | by apply event_frame_same]]]. Qed.

(** The operations; each leaves some entry [e']. *)
Abbreviation changes d a e := (fun p : Z * daemon NV W => exists e', step d a e e' p.2).

Lemma register_event0_step d a e type kev cb d0 :
  step d a e e d0 ->
  wp (register_event0 type kev cb (Some a) d0) (changes d a e) tolerated.
Proof.
  intros Hs. unfold register_event0. apply wp_bind, wp_malloc. intros []; cbn [negb]; [| by apply wp_ret; exists e].
  apply wp_bind, wp_malloc. intros []; apply wp_ret; exists e; [| done].
  eapply step_trans; [exact Hs |]. apply step_refl; [by eapply step_lookup | done | done |].
  split; cbn; [by apply foreign_own | lia].
Qed.

Lemma set_timer_step d a e n :
  d_heap d !! a = Some e -> wp (set_timer d a n) (changes d a e) tolerated.
Proof.
  intros He. unfold set_timer. destruct (INT_MAX <=? d_timer_id d); [by apply wp_crash; left |].
  apply register_event0_step. by apply step_refl.
Qed.

Lemma register_events_step d a e evs :
  d_heap d !! a = Some e -> Forall (fun x => x.2 = Some a) evs ->
  wp (register_events evs d) (changes d a e) tolerated.
Proof.
  intros He Hevs. unfold register_events. apply wp_bind.
  eapply wp_mono; [apply (malloc_all_any _ tolerated) | intros [] _ | done]; cbn [negb];
    [| apply wp_ret; exists e; by apply step_here].
  apply wp_bind, wp_malloc. intros []; apply wp_ret; exists e; cbn [snd]; [| by apply step_here].
  revert d He. induction Hevs as [| [[kev cb] data] evs Ha _ IH]; intros d He; [by apply step_here |]. cbn.
  eapply step_trans; [| by apply IH]. cbn in Ha. subst data. apply step_refl; try done.
  split; cbn; [by apply foreign_own | lia].
Qed.

Lemma wait_for_both_step d a e :
  d_heap d !! a = Some e -> wp (wait_for_both d a) (changes d a e) tolerated.
Proof.
  intros He. unfold wait_for_both, wait_for_vm, wait_for_vm_output. apply wp_bind, wp_bind, (wp_get_entry d a e _ _ He).
  eapply wp_mono; [apply (register_event0_step d a e); by apply step_here | | done].
  intros [rc d1] (e1 & S1). cbn in S1. destruct (rc <? 0); [by apply wp_ret; exists e1 |].
  apply wp_bind, wp_bind, (wp_get_entry d1 a e1 _ _ (step_lookup _ _ _ _ _ S1)).
  eapply wp_mono; [apply (register_events_step d1 a e1) | | done].
  - by eapply step_lookup.
  - apply Forall_app. split; case_match; repeat constructor.
  - intros [rc2 d2] (e2 & S2). apply wp_ret. exists e2. by eapply step_trans.
Qed.

Lemma cleanup_step d a e m :
  d_heap d !! a = Some e -> ve_method e = Some m -> vm_ready (VM_CONF e) ->
  wp (cleanup_virtual_machine k ops d a) (fun d' => exists e', step d a e e' d') tolerated.
Proof.
  intros He Hm Hr. unfold cleanup_virtual_machine. apply wp_bind, (wp_get_entry d a e _ _ He).
  pose proof (remove_taps_like k (d_world d) (ve_vm e)) as Hl.
  destruct (remove_taps k (d_world d) (ve_vm e)) as [[rc v1] w1]. destruct Hl as [[Hc1 _] _]. cbn in Hc1.
  apply wp_bind, (wp_method_ops ops e m); [done |]. apply wp_bind.
  eapply wp_mono; [apply (cleanup_law (BackendLaws := Hlaws m.1)) | | intros f; apply tolerated_exit].
  { unfold vm_get_conf. by rewrite Hc1. }
  intros [v2 w2] [[Hc2 _] _]. apply wp_ret. eexists. cbn in Hc2. apply step_put; [done | congruence].
Qed.

Lemma VM_ACPI_POWEROFF_step d a e m :
  d_heap d !! a = Some e -> ve_method e = Some m ->
  wp (VM_ACPI_POWEROFF ops d a) (fun d' => step d a e e d') tolerated.
Proof.
  intros He Hm. unfold VM_ACPI_POWEROFF. apply wp_bind, (wp_get_entry d a e _ _ He).
  apply wp_bind, (wp_method_ops ops e m); [done |]. apply wp_bind.
  eapply wp_mono; [apply (acpi_poweroff_law (BackendLaws := Hlaws m.1)) | intros [rc w] _ |
                   intros f; apply tolerated_exit].
  by apply wp_ret, step_world.
Qed.

Lemma VM_POWEROFF_step d a e m :
  d_heap d !! a = Some e -> ve_method e = Some m ->
  wp (VM_POWEROFF ops d a) (fun d' => step d a e e d') tolerated.
Proof.
  intros He Hm. unfold VM_POWEROFF. apply wp_bind, (wp_get_entry d a e _ _ He).
  apply wp_bind, (wp_method_ops ops e m); [done |]. apply wp_bind.
  eapply wp_mono; [apply (poweroff_law (BackendLaws := Hlaws m.1)) | intros [rc w] _ |
                   intros f; apply tolerated_exit].
  by apply wp_ret, step_world.
Qed.

Lemma change_state_step d a e s :
  d_heap d !! a = Some e ->
  wp (change_state d a s) (fun d' => step d a e (e <| ve_vm := ve_vm e <| vm_state := s |> |>) d') tolerated.
Proof.
  intros He. unfold change_state. apply wp_bind, (wp_get_entry d a e _ _ He). apply wp_ret.
  split; [done | split; [done | split; [done | by apply event_frame_same]]].
Qed.

Lemma step_ready d a e e' d' m : step d a e e' d' -> startable (vm_ent_conf (ve_vm e)) m -> vm_ready (VM_CONF e').
Proof. intros (_ & Hc & _) [Hr _]. unfold VM_CONF, vm_get_conf. by rewrite Hc. Qed.

(** The list of VMs has no freed entry. *)
Definition listed d : Prop := forall a, a ∈ d_vm_list d -> is_Some (d_heap d !! a).

Lemma max_vm_nmdm_safe d l max :
  (forall a, a ∈ l -> is_Some (d_heap d !! a)) -> wp (max_vm_nmdm d l max) (fun _ => True) tolerated.
Proof.
  revert max. induction l as [| a l IH]; intros max Hl; [by apply wp_ret |]. cbn.
  destruct (Hl a) as [e He]; [by left |]. apply wp_bind, (wp_get_entry d a e _ _ He).
  do 2 (apply wp_bind; eapply wp_mono; [apply get_nmdm_number_any | intros ? _ | intros f; apply tolerated_overflow]).
  apply IH. intros b Hb. apply Hl. by right.
Qed.

Lemma assign_comport_step d a e :
  listed d -> d_heap d !! a = Some e -> wp (assign_comport dv nmdm_offset d a) (changes d a e) tolerated.
Proof.
  intros Hd He. unfold assign_comport. apply wp_bind, (wp_get_entry d a e _ _ He).
  assert (H0 : forall n, wp (mret (n, d)) (changes d a e) tolerated)
    by (intros n; apply wp_ret; exists e; by apply step_here).
  destruct (vc_comport (VM_CONF e)) as [c |]; [| done]. destruct (vm_assigned_comport (ve_vm e)); [done |].
  destruct (negb _).
  - apply wp_bind, wp_strdup; [| done]. apply wp_ret. eexists. by apply (step_put d a e _ (d_world d)).
  - apply wp_bind. eapply wp_mono; [by apply max_vm_nmdm_safe | intros max _ | done].
    destruct (sys_dev dv (d_world d)) as [names |]; [| done].
    apply wp_bind. eapply wp_mono; [apply max_dev_nmdm_any | intros max' _ | done]. cbn zeta.
    destruct (INT_MAX <=? _); [by apply wp_crash; left |]. apply wp_bind, wp_strdup; [| done].
    destruct (sys_stat dv _ (d_world d)) as [[] w]; apply wp_ret; [eexists; by apply (step_put d a e _ w) |].
    exists e. by apply step_world.
Qed.

Lemma prepare_taps_step d a e m :
  d_heap d !! a = Some e -> startable (vm_ent_conf (ve_vm e)) m ->
  wp (prepare_taps k d a) (changes d a e) tolerated.
Proof.
  intros He (_ & _ & Hn & _).
  assert (Hput : forall v' w n, vm_like (ve_vm e) v' ->
            wp (mret (n, put_vm d a e v' <| d_world := w |>)) (changes d a e) tolerated).
  { intros v' w n ([H1 _] & _). apply wp_ret. eexists. by apply step_put. }
  unfold prepare_taps. apply wp_bind, (wp_get_entry d a e _ _ He).
  destruct (decide (VM_STATE e = TERMINATE)); [| apply wp_ret; exists e; by apply step_here].
  apply wp_bind. eapply wp_mono; [by apply assign_taps_like | | done].
  intros [[rc v1] w1] L1. cbn in L1. destruct (rc <? 0); [by apply Hput |]. apply wp_bind.
  eapply wp_mono; [apply activate_taps_same | intros [[rc2 v2] w2] Hv2; cbn in Hv2; subst v2 | done].
  destruct (rc2 <? 0); [| by rewrite put_put; apply Hput].
  pose proof (remove_taps_like k w2 v1) as L3. destruct (remove_taps k w2 v1) as [[rc3 v3] w3].
  rewrite put_put. apply Hput. by eapply vm_like_trans.
Qed.

Lemma VM_START_step d a e m :
  d_heap d !! a = Some e -> ve_method e = Some m -> startable (vm_ent_conf (ve_vm e)) m ->
  wp (VM_START ops d a) (changes d a e) tolerated.
Proof.
  intros He Hm Hst. unfold VM_START. apply wp_bind, (wp_get_entry d a e _ _ He).
  apply wp_bind, (wp_method_ops ops e m); [done |]. apply wp_bind.
  eapply wp_mono; [apply (start_law (BackendLaws := Hlaws m.1)); apply Hst | | intros f; apply tolerated_exit].
  intros [[rc v'] w] [[H1 _] _]. apply wp_ret. eexists. by apply step_put.
Qed.

Lemma after_start_step d a e :
  d_heap d !! a = Some e -> wp (after_start dv d a) (changes d a e) tolerated.
Proof.
  intros He. unfold after_start. apply wp_bind, (wp_get_entry d a e _ _ He). apply wp_bind.
  eapply (wp_mono _ (changes d a e) _ tolerated); [| | done].
  { repeat case_match; try (apply wp_ret; exists e; by apply step_here). by apply set_timer_step. }
  intros [rc d1] (e1 & S1). cbn in S1. destruct (rc <? 0); [by apply wp_ret; exists e1 |].
  pose proof (step_lookup _ _ _ _ _ S1) as He1. apply wp_bind, (wp_get_entry d1 a e1 _ _ He1).
  repeat case_match; try (by apply wp_ret; exists e1).
  apply wp_ret. eexists. eapply step_trans; [exact S1 |]. by apply step_put.
Qed.

Lemma choose_method_step d a e m :
  d_heap d !! a = Some e -> startable (vm_ent_conf (ve_vm e)) m ->
  wp (choose_method d a) (fun p => p = (0, put_entry d a (e <| ve_method := Some m |>))) tolerated.
Proof.
  intros He (_ & _ & _ & Hset). unfold choose_method. apply wp_bind, (wp_get_entry d a e _ _ He).
  apply wp_bind. intros o. by rewrite Hset.
Qed.

(** From the call of the backend on. *)
Lemma start_rest_step d a e m :
  d_heap d !! a = Some e -> ve_method e = Some m -> startable (vm_ent_conf (ve_vm e)) m ->
  wp ('(rc, d) ← VM_START ops d a;
      if rc <? 0 then d ← cleanup_virtual_machine k ops d a; mret (-1, d)
      else
        '(rc, d) ← wait_for_both d a;
        if rc <? 0 then
          d ← VM_POWEROFF ops d a;
          d ← cleanup_virtual_machine k ops d a;
          mret (-1, d)
        else d ← call_plugins dv d a; after_start dv d a) (changes d a e) tolerated.
Proof.
  intros He Hm Hst. apply wp_bind. eapply wp_mono; [by apply (VM_START_step d a e m) | | done].
  intros [rc d1] (e1 & S1). cbn in S1. pose proof (step_lookup _ _ _ _ _ S1) as He1.
  assert (Hm1 : ve_method e1 = Some m) by (destruct S1 as (_ & _ & -> & _); done).
  destruct (rc <? 0).
  { apply wp_bind. eapply wp_mono; [apply (cleanup_step d1 a e1 m); [done | done | by eapply step_ready] | | done].
    intros d2 (e2 & S2). apply wp_ret. exists e2. by eapply step_trans. }
  apply wp_bind. eapply wp_mono; [by apply (wait_for_both_step d1 a e1) | | done].
  intros [rc2 d2] (e2 & S2). cbn in S2. pose proof (step_trans _ _ _ _ _ _ _ S1 S2) as S12.
  pose proof (step_lookup _ _ _ _ _ S2) as He2.
  assert (Hm2 : ve_method e2 = Some m) by (destruct S2 as (_ & _ & -> & _); done).
  destruct (rc2 <? 0).
  - apply wp_bind. eapply wp_mono; [by apply (VM_POWEROFF_step d2 a e2 m) | | done]. intros d3 S3.
    pose proof (step_trans _ _ _ _ _ _ _ S12 S3) as S13.
    apply wp_bind. eapply wp_mono; [apply (cleanup_step d3 a e2 m) | | done];
      [by eapply step_lookup | done | by eapply step_ready |].
    intros d4 (e4 & S4). apply wp_ret. exists e4. by eapply step_trans.
  - apply wp_bind, (wp_call_plugins dv d2 a e2 _ _ He2). intros w.
    eapply wp_mono; [by apply (after_start_step (d2 <| d_world := w |>) a e2) | | done].
    intros [rc3 d3] (e3 & S3). exists e3. by eapply step_trans; [exact S12 |].
Qed.

Lemma step_listed d a e e' d' : listed d -> d_heap d !! a = Some e -> step d a e e' d' -> listed d'.
Proof.
  intros Hl He [[Hh Hv] _] b Hb. rewrite Hh, lookup_insert_is_Some. rewrite Hv in Hb.
  destruct (decide (a = b)); [by left | right; split; [done | by apply Hl]].
Qed.

(** The method is chosen anew; then the entry changes in steps. *)
Lemma start_virtual_machine_step d a e m :
  listed d -> d_heap d !! a = Some e -> startable (vm_ent_conf (ve_vm e)) m ->
  wp (start_virtual_machine k dv ops nmdm_offset d a)
     (changes (put_entry d a (e <| ve_method := Some m |>)) a (e <| ve_method := Some m |>)) tolerated.
Proof.
  intros Hd He Hst. unfold start_virtual_machine. apply wp_bind.
  eapply wp_mono; [by apply (choose_method_step d a e m) | intros ? -> | done]. cbn [Z.ltb Z.compare].
  set (e0 := e <| ve_method := Some m |>). set (d0 := put_entry d a e0).
  assert (He0 : d_heap d0 !! a = Some e0) by apply lookup_insert_eq.
  assert (Hd0 : listed d0).
  { intros b Hb. cbn. rewrite lookup_insert_is_Some. destruct (decide (a = b)); [by left | right; split; [done | by apply Hd]]. }
  apply wp_bind. eapply wp_mono; [by apply (assign_comport_step d0 a e0) | | done].
  intros [rc1 d1] (e1 & S1). cbn in S1. destruct (rc1 <? 0); [apply wp_ret; by exists e1 |].
  pose proof (step_lookup _ _ _ _ _ S1) as He1.
  assert (Hst1 : startable (vm_ent_conf (ve_vm e1)) m) by (destruct S1 as (_ & -> & _); done).
  assert (Hm1 : ve_method e1 = Some m) by (destruct S1 as (_ & _ & -> & _); done).
  apply wp_bind. eapply wp_mono; [by apply (prepare_taps_step d1 a e1 m) | | done].
  intros [rc2 d2] (e2 & S2). cbn in S2. pose proof (step_trans _ _ _ _ _ _ _ S1 S2) as S12.
  destruct (rc2 <? 0); [apply wp_ret; by exists e2 |].
  eapply wp_mono; [apply (start_rest_step d2 a e2 m) | | done].
  - by eapply step_lookup.
  - destruct S2 as (_ & _ & -> & _). done.
  - destruct S2 as (_ & -> & _). done.
  - intros p (e3 & S3). exists e3. by eapply step_trans.
Qed.

End steps.

(** ** The invariant of a reload *)

Record Safe {NV W} (good : vm_conf_entry NV -> Prop) (d : daemon NV W) : Prop := {
  sf_events : forall ev a, ev ∈ d_events d -> vm_cb (ev_cb ev) -> ev_data ev = Some a -> is_Some (d_heap d !! a);
  sf_listed : listed d;
  sf_alive : forall a, is_Some (d_heap d !! a) -> a ∈ d_vm_list d;
  sf_nodup : NoDup (d_vm_list d);
  sf_heap : forall a e, d_heap d !! a = Some e ->
    a < d_next d /\ is_Some (ve_method e) /\ good (vm_ent_conf (ve_vm e));
}.

(** The configuration that VM [a] will have, or has when it is settled. *)
Definition wants {NV W} (todo : Z -> Prop) (s : server NV W) (a c : Z) : Prop :=
  (todo a /\ s_new s !! a = Some c) \/ (~ todo a /\ s_conf s !! a = Some c).

(** [L] is the list of the old configurations, [N] that of the new ones; the VMs
    in [todo] have not been settled yet.  Those have a configuration of one of
    the lists, one of [L] unless they have got a new one;
    the others have one of [N], or are being removed and have one that is on
    no list.  A configuration that is not new belongs to one VM only, and [good] holds of every configuration of a VM and of [N]. *)
Record Confs {NV W} (good : vm_conf_entry NV -> Prop) (L N : list Z) (todo : Z -> Prop) (s : server NV W) : Prop := {
  cf_safe : Safe good (s_d s);
  cf_old : is_list (s_mem s) VM_CONF_LIST L;
  cf_new : is_list (s_mem s) NEW_LIST N;
  cf_disj : L ## N;
  cf_fresh : forall c, is_Some (lm_nodes (s_mem s) !! c) -> c < d_next (s_d s);
  cf_todo : forall a, is_Some (d_heap (s_d s) !! a) -> todo a ->
    exists c, s_conf s !! a = Some c /\ (c ∈ L \/ c ∈ N) /\ (s_new s !! a = None -> c ∈ L);
  cf_inj : forall a b c, is_Some (d_heap (s_d s) !! a) -> is_Some (d_heap (s_d s) !! b) ->
    s_conf s !! a = Some c -> s_conf s !! b = Some c -> c ∉ N -> a = b;
  cf_done : forall a e, d_heap (s_d s) !! a = Some e -> ~ todo a ->
    exists c, s_conf s !! a = Some c /\ is_Some (lm_nodes (s_mem s) !! c) /\ (c ∉ L) /\
         (c ∈ N \/ VM_STATE e = REMOVE);
  cf_news : forall a c, is_Some (d_heap (s_d s) !! a) -> s_new s !! a = Some c -> c ∈ N;
  cf_wants : forall a b c, is_Some (d_heap (s_d s) !! a) -> is_Some (d_heap (s_d s) !! b) ->
    wants todo s a c -> wants todo s b c -> a = b;
  cf_vals : forall c n, c ∈ N -> lm_nodes (s_mem s) !! c = Some n -> good (ln_val n);
}.

(** A run that does not depend on the allocator. *)
Lemma wp_certain {A} (c : C A) a (Q : A -> Prop) F : (forall o, c o = Done a o) -> Q a -> wp c Q F.
Proof. intros H HQ o. by rewrite H. Qed.

Lemma without (c : Z) L1 L2 :
  NoDup (L1 ++ c :: L2) ->
  (c ∉ L1 ++ L2) /\ (forall x, x ∈ L1 ++ L2 -> x ∈ L1 ++ c :: L2) /\
  (forall x, x ∈ L1 ++ c :: L2 -> x <> c -> x ∈ L1 ++ L2).
Proof.
  intros (_ & H1 & [H2 _]%NoDup_cons)%NoDup_app. split; [| split; intros x; rewrite !elem_of_app, elem_of_cons; tauto].
  intros [Hx | Hx]%elem_of_app; [| done]. apply (H1 c Hx). by left.
Qed.

Section safety.
Context {NV W : Type} (k : kernel W) (dv : devices NV W) (ops : vm_method -> vm_ops NV W) (nmdm_offset : Z)
        (nv : libnv NV) (same_ent : plugin_desc NV -> plugin_desc NV -> bool)
        (on_reload_config : plugin_desc NV -> NV -> NV -> NV * NV)
        `{Hlaws : forall m, BackendLaws (m_name m) (ops m)} (fuel : nat) (good : vm_conf_entry NV -> Prop)
        (Hstart : forall ce, good ce -> exists m, startable ce m)
        (Hcompare : forall x y, good x -> good y -> wp (compare_vm_conf_entry nv fuel x y) (fun _ => True) tolerated)
        (Hcopy : forall x y pn po, good x -> good y ->
           copy_plugins same_ent on_reload_config (ce_pl_data x) (ce_pl_data y) = (pn, po) ->
           good {| ce_conf := ce_conf x; ce_pl_data := pn |} /\ good {| ce_conf := ce_conf y; ce_pl_data := po |}).
Implicit Types (d : daemon NV W) (s : server NV W) (a c : Z) (e : vm_entry NV) (todo : Z -> Prop).

(** Which VMs are not settled matters for those that exist, and up to equivalence. *)
Lemma Confs_alive L N todo todo' s :
  (forall a, is_Some (d_heap (s_d s) !! a) -> (todo a <-> todo' a)) ->
  Confs good L N todo s -> Confs good L N todo' s.
Proof.
  intros Ht []. split; try done.
  - intros a Ha Hta. by apply cf_todo0, Ht.
  - intros a e He Hta. apply (cf_done0 a e He). by rewrite (Ht a).
  - intros a b c Ha Hb. unfold wants. rewrite <- (Ht a Ha), <- (Ht b Hb). by apply cf_wants0.
Qed.

#[local] Instance Confs_proper L N : Proper (pointwise_relation Z iff ==> eq ==> iff) (Confs (NV := NV) (W := W) good L N).
Proof. intros todo todo' Ht s ? <-. split; apply Confs_alive; intros a _; [apply Ht | symmetry; apply Ht]. Qed.

(** An entry with a startable configuration in place of another. *)
Lemma Safe_put d a e e' :
  Safe good d -> d_heap d !! a = Some e -> is_Some (ve_method e') ->
  good (vm_ent_conf (ve_vm e')) -> Safe good (put_entry d a e').
Proof.
  intros [] He Hm Hst. split; cbn; try done.
  - intros ev b Hev Hcb Hd. rewrite lookup_insert_is_Some. destruct (decide (a = b)); [by left | right; split; eauto].
  - intros b Hb. cbn. rewrite lookup_insert_is_Some. destruct (decide (a = b)); [by left | right; split; eauto].
  - intros b. rewrite lookup_insert_is_Some. intros [<- | [_ Hb]]; eauto.
  - intros b f Hb. apply lookup_insert_Some in Hb as [[<- <-] | [_ Hb]]; [| by apply sf_heap0].
    split; [by apply (sf_heap0 a e) | done].
Qed.

Lemma Safe_step d a e e' d' : Safe good d -> d_heap d !! a = Some e -> step d a e e' d' -> Safe good d'.
Proof.
  intros Hs He ([Hh Hl] & Hc & Hm & [Hev Hn]). destruct (sf_heap _ _ Hs a e He) as (Ha & Hme & Hst).
  assert (Hs' : Safe good (put_entry d a e')).
  { eapply Safe_put; [done | exact He | by rewrite Hm | by rewrite Hc]. }
  destruct Hs'. split; rewrite ?Hh, ?Hl; try done.
  - intros ev b Hin Hcb Hd. destruct (foreign_in _ _ _ ev Hev Hin) as [Hold | Hnew]; [by apply (sf_events0 ev) |].
    rewrite Hd in Hnew. injection Hnew as ->. rewrite lookup_insert_eq. by eexists.
  - intros b Hb. rewrite Hh. rewrite Hl in Hb. by apply sf_listed0.
  - intros b f Hb. destruct (sf_heap0 b f Hb) as (? & ?). cbn in *. split; [lia | done].
Qed.

Lemma alive_insert (h : gmap Z (vm_entry NV)) a e e' b :
  h !! a = Some e -> (is_Some (<[a := e']> h !! b) <-> is_Some (h !! b)).
Proof.
  intros He. rewrite lookup_insert_is_Some. split; [| destruct (decide (a = b)); auto].
  intros [<- | [_ ?]]; [by rewrite He; eexists | done].
Qed.

(** The daemon changes the entry of a VM that is not settled. *)
Lemma Confs_daemon L N todo s a e e' d' :
  Confs good L N todo s -> d_heap (s_d s) !! a = Some e -> todo a -> Safe good d' ->
  d_heap d' = <[a := e']> (d_heap (s_d s)) -> d_next (s_d s) <= d_next d' ->
  Confs good L N todo (s <| s_d := d' |>).
Proof.
  intros [] He Ha Hs Hh Hn. split; cbn; try done; rewrite ?Hh.
  - intros c Hc. specialize (cf_fresh0 c Hc). lia.
  - intros b. rewrite (alive_insert _ a e) by done. auto.
  - intros b b' c. rewrite !(alive_insert _ a e) by done. apply cf_inj0.
  - intros b f Hb Ht. apply lookup_insert_Some in Hb as [[<- _] | [_ Hb]]; [done | by eapply cf_done0].
  - intros b c. rewrite (alive_insert _ a e) by done. apply cf_news0.
  - intros b b' c. rewrite !(alive_insert _ a e) by done. apply cf_wants0.
Qed.

Lemma Confs_step L N todo s a e e' d' :
  Confs good L N todo s -> d_heap (s_d s) !! a = Some e -> todo a -> step (s_d s) a e e' d' ->
  Confs good L N todo (s <| s_d := d' |>).
Proof.
  intros Hs He Ha Hst. pose proof Hst as ([Hh _] & _ & _ & [_ Hn]).
  eapply (Confs_daemon _ _ _ _ a e e'); try done. by eapply Safe_step; [apply Hs | exact He |].
Qed.

(** What is known of a VM that is not settled. *)
Lemma todo_facts L N todo s a :
  Confs good L N todo s -> is_Some (d_heap (s_d s) !! a) -> todo a ->
  exists e c n m, d_heap (s_d s) !! a = Some e /\ s_conf s !! a = Some c /\
    lm_nodes (s_mem s) !! c = Some n /\ ve_method e = Some m /\ good (vm_ent_conf (ve_vm e)).
Proof.
  intros [] [e He] Ht. destruct (cf_todo0 a) as (c & Hc & Hin & _); [by rewrite He; eexists | done |].
  destruct (sf_heap _ _ cf_safe0 a e He) as (_ & [m Hm] & Hg).
  assert (Hn : is_Some (lm_nodes (s_mem s) !! c)).
  { destruct Hin as [Hin | Hin]; [eapply seg_in; [apply cf_old0 | done] | eapply seg_in; [apply cf_new0 | done]]. }
  destruct Hn as [n Hn]. by exists e, c, n, m.
Qed.

Lemma wp_get_node (m : lmem (vm_conf_entry NV)) c n (Q : lnode (vm_conf_entry NV) -> Prop) F :
  lm_nodes m !! c = Some n -> Q n -> wp (get_node m c) Q F.
Proof. intros Hn HQ. unfold get_node. rewrite Hn. by apply wp_ret. Qed.

Lemma wp_vm_conf_of s a e c n (Q : vm_conf_entry NV -> Prop) F :
  d_heap (s_d s) !! a = Some e -> s_conf s !! a = Some c -> lm_nodes (s_mem s) !! c = Some n ->
  Q (vm_ent_conf (ve_vm e)) -> wp (vm_conf_of s a) Q F.
Proof.
  intros He Hc Hn HQ. unfold vm_conf_of, conf_ptr. apply wp_bind, (wp_get_entry _ _ _ _ _ He).
  apply wp_bind. rewrite Hc. apply wp_ret. apply wp_bind, (wp_get_node _ _ _ _ _ Hn). by apply wp_ret.
Qed.

(** *** Calls of the daemon *)

(** Only the daemon's part changes, and no VM comes or goes. *)
Definition only_daemon L N todo s s' : Prop :=
  Confs good L N todo s' /\ (forall b, is_Some (d_heap (s_d s') !! b) <-> is_Some (d_heap (s_d s) !! b)) /\
  exists d', s' = s <| s_d := d' |>.

Lemma only_daemon_trans L N todo s1 s2 s3 :
  only_daemon L N todo s1 s2 -> only_daemon L N todo s2 s3 -> only_daemon L N todo s1 s3.
Proof. intros (_ & A1 & [d1 ->]) (H & A2 & [d2 ->]). split; [done |]. split; [| by exists d2]. intros b. by rewrite A2. Qed.

Lemma only_daemon_step L N todo s a e e' d' :
  Confs good L N todo s -> d_heap (s_d s) !! a = Some e -> todo a -> step (s_d s) a e e' d' ->
  only_daemon L N todo s (s <| s_d := d' |>).
Proof.
  intros Hs He Ha St. split; [by eapply Confs_step | split; [| by exists d']].
  intros b. destruct St as [[Hh _] _]. cbn. rewrite Hh. by apply (alive_insert _ a e).
Qed.

Lemma on_daemon_step L N todo s a e (f : daemon NV W -> C (Z * daemon NV W)) :
  Confs good L N todo s -> d_heap (s_d s) !! a = Some e -> todo a ->
  wp (f (s_d s)) (fun p => exists e', step (s_d s) a e e' p.2) tolerated ->
  wp (on_daemon s f) (fun p => only_daemon L N todo s p.2) tolerated.
Proof.
  intros Hs He Ha Hf. unfold on_daemon. apply wp_bind. eapply wp_mono; [exact Hf | | done].
  intros [r d'] (e' & St). apply wp_ret. by eapply only_daemon_step.
Qed.

Lemma set_timer_confs L N todo s a t :
  Confs good L N todo s -> is_Some (d_heap (s_d s) !! a) -> todo a ->
  wp (on_daemon s (fun d => set_timer d a t)) (fun p => only_daemon L N todo s p.2) tolerated.
Proof. intros Hs [e He] Ha. eapply on_daemon_step; [done | exact He | done |]. by apply set_timer_step. Qed.

(** The state of VM [a] is [st]. *)
Definition in_state a st s : Prop := exists e, d_heap (s_d s) !! a = Some e /\ VM_STATE e = st.

Lemma change_state_confs L N todo s a st :
  Confs good L N todo s -> is_Some (d_heap (s_d s) !! a) -> todo a ->
  wp (on_daemon_ s (fun d => change_state d a st))
     (fun s' => only_daemon L N todo s s' /\ in_state a st s') tolerated.
Proof.
  intros Hs [e He] Ha. unfold on_daemon_. apply wp_bind.
  eapply wp_mono; [by apply (change_state_step (s_d s) a e st) | | done].
  intros d' St. apply wp_ret. split; [by eapply only_daemon_step |].
  eexists. split; [by eapply step_lookup | done].
Qed.

Lemma shut_down_confs L N todo s a t st :
  Confs good L N todo s -> is_Some (d_heap (s_d s) !! a) -> todo a ->
  wp (shut_down ops s a t st) (fun s' => only_daemon L N todo s s' /\ in_state a st s') tolerated.
Proof.
  intros Hs Ha Ht. destruct (todo_facts _ _ _ _ _ Hs Ha Ht) as (e & c & n & m & He & _ & _ & Hm & _).
  unfold shut_down, on_daemon_ at 1. apply wp_bind, wp_bind.
  eapply wp_mono; [by apply (VM_ACPI_POWEROFF_step ops (s_d s) a e m) | | done]. intros d1 S1. apply wp_ret.
  pose proof (only_daemon_step _ _ _ _ _ _ _ _ Hs He Ht S1) as H1.
  apply wp_bind. eapply wp_mono; [apply set_timer_confs; [apply H1 | by apply H1 | done] | | done].
  intros [rc s2] H2. cbn in H2. pose proof (only_daemon_trans _ _ _ _ _ _ H1 H2) as H12.
  eapply wp_mono; [apply change_state_confs; [apply H2 | by apply H12 | done] | | done].
  intros s3 [H3 He3]. split; [by eapply only_daemon_trans | done].
Qed.

Lemma alive_put d a e e' b : d_heap d !! a = Some e -> (is_Some (d_heap (put_entry d a e') !! b) <-> is_Some (d_heap d !! b)).
Proof. apply alive_insert. Qed.

Lemma start_confs L N todo s a :
  Confs good L N todo s -> is_Some (d_heap (s_d s) !! a) -> todo a ->
  wp (on_daemon s (fun d => start_virtual_machine k dv ops nmdm_offset d a))
     (fun p => only_daemon L N todo s p.2) tolerated.
Proof.
  intros Hs Ha Ht. destruct (todo_facts _ _ _ _ _ Hs Ha Ht) as (e & c & n & m & He & _ & _ & _ & Hg).
  destruct (Hstart _ Hg) as [m' Hm']. unfold on_daemon. apply wp_bind.
  eapply wp_mono; [apply (start_virtual_machine_step k dv ops nmdm_offset (s_d s) a e m'); [apply Hs | done | done] | | done].
  intros [rc d'] (e' & St). apply wp_ret. cbn in St |- *. set (e0 := e <| ve_method := Some m' |>) in St.
  assert (S0 : Safe good (put_entry (s_d s) a e0)) by (eapply Safe_put; [apply Hs | exact He | by eexists | done]).
  pose proof St as ([Hh _] & _ & _ & [_ Hn]). cbn in Hh, Hn. rewrite insert_insert_eq in Hh. split.
  - eapply (Confs_daemon _ _ _ _ a e e'); try done.
    eapply Safe_step; [exact S0 | apply lookup_insert_eq | exact St].
  - split; [| by exists d']. intros b. cbn. rewrite Hh. by apply (alive_insert _ a e).
Qed.

Lemma node_of L N todo s c : Confs good L N todo s -> c ∈ N -> exists n, lm_nodes (s_mem s) !! c = Some n /\ good (ln_val n).
Proof.
  intros [] Hc. destruct (seg_in _ _ _ _ c (proj1 (proj2 cf_new0)) Hc) as [n Hn]. exists n. split; [done | by eapply cf_vals0].
Qed.

(** Where [pl_conf] points to does not change which VMs have a method. *)
Lemma leave_conf_method e : is_Some (ve_method e) -> is_Some (ve_method (leave_conf e)).
Proof. intros [m H]. unfold leave_conf. cbn. rewrite H. by eexists. Qed.

Lemma free_pl_conf_lookup (h : gmap Z (vm_entry NV)) a e :
  (free_pl_conf <$> h) !! a = Some e ->
  exists f, h !! a = Some f /\ ve_vm e = ve_vm f /\ (is_Some (ve_method e) <-> is_Some (ve_method f)).
Proof. rewrite lookup_fmap. intros (f & H & ->)%fmap_Some. exists f. split; [done | split; [done | apply fmap_is_Some]]. Qed.

Lemma free_pl_conf_alive (h : gmap Z (vm_entry NV)) a : is_Some ((free_pl_conf <$> h) !! a) <-> is_Some (h !! a).
Proof. rewrite lookup_fmap. apply fmap_is_Some. Qed.

Lemma Safe_free_pl_conf d : Safe good d -> Safe good (d <| d_heap := free_pl_conf <$> d_heap d |>).
Proof.
  intros []. split; cbn; try done.
  - intros ev a H1 H2 H3. apply free_pl_conf_alive. by apply (sf_events0 ev).
  - intros a Ha. apply free_pl_conf_alive. by apply sf_listed0.
  - intros a Ha. by apply sf_alive0, free_pl_conf_alive.
  - intros a e (f & Hf & Hv & Hm)%free_pl_conf_lookup. rewrite Hv, Hm. by apply sf_heap0.
Qed.

(** VM [a] gets a configuration of the new list. *)
Lemma set_vm_conf_confs L N todo s a c c' :
  Confs good L N todo s -> is_Some (d_heap (s_d s) !! a) -> todo a -> c ∈ N -> s_new s !! a = Some c' ->
  wp (set_vm_conf s a c)
     (fun s' => Confs good L N todo s' /\ (forall b, is_Some (d_heap (s_d s') !! b) <-> is_Some (d_heap (s_d s) !! b)) /\
                s_new s' = s_new s /\ s_conf s' !! a = Some c) tolerated.
Proof.
  intros Hs [e He] Ht Hc Hn. destruct (node_of _ _ _ _ _ Hs Hc) as (n & Hln & Hg).
  unfold set_vm_conf. apply wp_bind, (wp_get_node _ _ _ _ _ Hln). apply wp_bind, (wp_get_entry _ _ _ _ _ He).
  apply wp_ret. cbn zeta. set (b0 := decide (s_conf s !! a = Some c)).
  set (e' := (if b0 then e else leave_conf e) <| ve_vm := ve_vm (if b0 then e else leave_conf e) <| vm_ent_conf := ln_val n |> |>).
  assert (S0 : Safe good (put_entry (s_d s) a e')).
  { eapply Safe_put; [apply Hs | exact He | | done]. cbn.
    assert (Hm : is_Some (ve_method e)) by (by apply (sf_heap _ _ (cf_safe _ _ _ _ _ Hs) a e)).
    destruct b0; [done | by apply leave_conf_method]. }
  assert (Al : forall b, is_Some (d_heap (put_entry (s_d s) a e') !! b) <-> is_Some (d_heap (s_d s) !! b))
    by (intros b; by apply (alive_put _ a e)).
  split; [| split; [exact Al | split; [done | apply lookup_insert_eq]]].
  destruct Hs. split; try done.
  - intros b Hb%Al Htb. cbn.
    destruct (decide (a = b)) as [<- | Nab]; [| rewrite lookup_insert_ne by done; auto].
    exists c. rewrite lookup_insert_eq. split; [done | split; [by right | by rewrite Hn]].
  - intros b b' x Hb%Al Hb'%Al. cbn.
    intros [[<- <-] | [N1 H1]]%lookup_insert_Some [[<- E2] | [N2 H2]]%lookup_insert_Some Hx; try done.
    + subst x. by destruct (Hx Hc).
    + by eapply cf_inj0.
  - intros b f Hb Htb. cbn in Hb |- *. apply lookup_insert_Some in Hb as [[<- _] | [Nab Hb]]; [done |].
    rewrite lookup_insert_ne by done. by eapply cf_done0.
  - intros b x Hb%Al. by apply cf_news0.
  - intros b b' x Hb%Al Hb'%Al. unfold wants. cbn.
    intros [H1 | [N1 H1]] [H2 | [N2 H2]]; apply (cf_wants0 b b' x); try done; unfold wants; auto; right;
      rewrite lookup_insert_ne in *; by try intros <-.
Qed.

(** Every name can be read. *)
Lemma lookup_live_safe L N s l name :
  Confs good L N (fun _ => True) s -> (forall a, a ∈ l -> is_Some (d_heap (s_d s) !! a)) ->
  wp (lookup_live s l name) (fun r => forall a, r = Some a -> is_Some (d_heap (s_d s) !! a)) tolerated.
Proof.
  intros Hs. induction l as [| a l IH]; intros Hl; [by apply wp_ret |]. cbn.
  destruct (todo_facts _ _ _ _ a Hs) as (e & c & n & m & He & Hc & Hn & _ & Hg); [apply Hl; by left | done |].
  apply wp_bind, (wp_vm_conf_of _ _ _ _ _ _ _ He Hc Hn). destruct (Hstart _ Hg) as (m' & [[nm Hnm] _] & _).
  apply wp_bind, (wp_deref _ nm); [done |]. case_match.
  - apply wp_ret. intros b [= <-]. apply Hl. by left.
  - apply IH. intros b Hb. apply Hl. by right.
Qed.

(** *** One configuration *)

Abbreviation all := (fun _ : Z => True).

(** The VMs stay and [a] has the new configuration [c]. *)
Definition offered L N a c s s' : Prop :=
  Confs good L N all s' /\ (forall b, is_Some (d_heap (s_d s') !! b) <-> is_Some (d_heap (s_d s) !! b)) /\
  s_new s' = <[a := c]> (s_new s).

Lemma offered_daemon L N a c s s' s'' : offered L N a c s s' -> only_daemon L N all s' s'' -> offered L N a c s s''.
Proof. intros (_ & A1 & Hn) (H & A2 & [d ->]). split; [done | split; [| done]]. intros b. by rewrite A2. Qed.

Lemma reopen_log_confs L N s a conf :
  Confs good L N all s -> is_Some (d_heap (s_d s) !! a) ->
  wp (reopen_log k dv s a conf) (fun s' => only_daemon L N all s s') tolerated.
Proof.
  intros Hs Ha. destruct (todo_facts _ _ _ _ _ Hs Ha I) as (e & c & n & m & He & Hc & Hn & _ & _).
  unfold reopen_log. apply wp_bind, (wp_get_entry _ _ _ _ _ He). apply wp_bind, (wp_vm_conf_of _ _ _ _ _ _ _ He Hc Hn).
  case_match.
  - apply wp_ret. split; [done | split; [done | exists (s_d s); by destruct s]].
  - destruct (sys_open_log dv conf _) as [fd w]. apply wp_ret.
    eapply only_daemon_step; [done | exact He | done |]. by apply step_put.
Qed.

(** Another value at a node of the new list. *)
Lemma seg_value (m : lmem (vm_conf_entry NV)) c n v r l q :
  lm_nodes m !! c = Some n -> seg m r l q -> seg (put_node m c (n <| ln_val := v |>)) r l q.
Proof.
  intros Hn. revert r. induction l as [| a l IH]; intros r; [done |]. intros [[x Hx] Hl].
  split; [| by apply IH]. cbn. destruct (decide (c = a)) as [-> | Nc].
  - exists v. rewrite lookup_insert_eq. rewrite Hn in Hx. injection Hx as ->. done.
  - exists x. by rewrite lookup_insert_ne.
Qed.

Lemma Confs_value L N todo s c n v :
  Confs good L N todo s -> lm_nodes (s_mem s) !! c = Some n -> good v ->
  Confs good L N todo (s <| s_mem := put_node (s_mem s) c (n <| ln_val := v |>) |>).
Proof.
  intros [] Hn Hg.
  assert (Al : forall b, is_Some (<[c := n <| ln_val := v |>]> (lm_nodes (s_mem s)) !! b) <-> is_Some (lm_nodes (s_mem s) !! b)).
  { intros b. rewrite lookup_insert_is_Some. split; [| destruct (decide (c = b)); auto].
    intros [<- | [_ ?]]; [by rewrite Hn; eexists | done]. }
  split; try done.
  - destruct cf_old0 as (H1 & H2 & H3). split; [done | split; [by apply seg_value | done]].
  - destruct cf_new0 as (H1 & H2 & H3). split; [done | split; [by apply seg_value | done]].
  - intros b Hb%Al. by apply cf_fresh0.
  - intros b f Hb Ht. destruct (cf_done0 b f Hb Ht) as (x & H1 & H2 & H3). exists x. split; [done | split; [by apply Al | done]].
  - intros b x Hb. cbn. intros [[<- <-] | [_ Hx]]%lookup_insert_Some; [done | by eapply cf_vals0].
Qed.

Lemma copy_plugin_data_confs L N s a c :
  Confs good L N all s -> is_Some (d_heap (s_d s) !! a) -> c ∈ N ->
  wp (copy_plugin_data same_ent on_reload_config s c a)
     (fun s' => Confs good L N all s' /\
        (forall b, is_Some (d_heap (s_d s') !! b) <-> is_Some (d_heap (s_d s) !! b)) /\ s_new s' = s_new s) tolerated.
Proof.
  intros Hs Ha Hc. destruct (todo_facts _ _ _ _ _ Hs Ha I) as (e & c0 & n0 & m & He & Hc0 & Hn0 & Hm & Hg).
  destruct (node_of _ _ _ _ _ Hs Hc) as (n & Hn & Hgn).
  unfold copy_plugin_data. apply wp_bind, (wp_vm_conf_of _ _ _ _ _ _ _ He Hc0 Hn0).
  apply wp_bind, (wp_get_entry _ _ _ _ _ He). apply wp_bind, (wp_get_node _ _ _ _ _ Hn).
  destruct (copy_plugins _ _ _ _) as [pn po] eqn:E. destruct (Hcopy _ _ _ _ Hgn Hg E) as [G1 G2]. apply wp_ret.
  set (e' := e <| ve_vm := ve_vm e <| vm_ent_conf := {| ce_conf := ce_conf (vm_ent_conf (ve_vm e)); ce_pl_data := po |} |> |>).
  split; [| split; [intros b; by apply (alive_put _ a e) | done]].
  eapply (Confs_daemon _ _ _ (s <| s_mem := _ |>) a e e' (put_entry (s_d s) a e')).
  - by apply Confs_value.
  - exact He.
  - done.
  - eapply Safe_put; [apply Hs | exact He | by exists m | done].
  - done.
  - done.
Qed.

(** No VM has been offered [c]. *)
Definition unclaimed s c : Prop := forall a, is_Some (d_heap (s_d s) !! a) -> s_new s !! a <> Some c.

Lemma insert_wants s m a c b b' x :
  Confs good m.1 m.2 all s -> unclaimed s c -> (is_Some (d_heap (s_d s) !! b) \/ b = a) ->
  (is_Some (d_heap (s_d s) !! b') \/ b' = a) ->
  <[a := c]> (s_new s) !! b = Some x -> <[a := c]> (s_new s) !! b' = Some x -> b = b'.
Proof.
  intros Hs Hu Hb Hb'.
  intros [[<- E1] | [N1 H1]]%lookup_insert_Some [[<- E2] | [N2 H2]]%lookup_insert_Some; try done.
  - subst x. destruct Hb' as [Hb' | ->]; [by destruct (Hu b' Hb') | done].
  - subst x. destruct Hb as [Hb | ->]; [by destruct (Hu b Hb) | done].
  - destruct Hb as [Hb | ->]; [| done]. destruct Hb' as [Hb' | ->]; [| done].
    apply (cf_wants _ _ _ _ _ Hs b b' x); try done; by left.
Qed.

Lemma Confs_new L N s a c :
  Confs good L N all s -> c ∈ N -> unclaimed s c -> Confs good L N all (s <| s_new := <[a := c]> (s_new s) |>).
Proof.
  intros Hs Hc Hu. pose proof Hs as []. split; try done.
  - intros b Hb _. destruct (cf_todo0 b Hb I) as (x & H1 & H2 & H3). exists x. split; [done | split; [done |]].
    cbn. intros [Hx _]%lookup_insert_None. by apply H3.
  - intros b x Hb. cbn. intros [[_ <-] | [_ Hx]]%lookup_insert_Some; [done | by eapply cf_news0].
  - intros b b' x Hb Hb' [[_ H1] | [[] _]] [[_ H2] | [[] _]]; try done.
    by apply (insert_wants s (L, N) a c b b' x); auto.
Qed.

Lemma offered_ret L N a c s s' : offered L N a c s s' -> wp (mret s') (offered L N a c s) tolerated.
Proof. apply wp_ret. Qed.

Lemma restart_changed_confs L N s0 s a c conf :
  offered L N a c s0 s -> is_Some (d_heap (s_d s) !! a) -> wp (restart_changed ops s a conf) (offered L N a c s0) tolerated.
Proof.
  intros Ho [e He]. pose proof Ho as [Hs _]. unfold restart_changed. apply wp_bind, (wp_get_entry _ _ _ _ _ He).
  assert (Ha : is_Some (d_heap (s_d s) !! a)) by (by rewrite He).
  destruct (VM_STATE e); try by apply offered_ret.
  - apply wp_bind. eapply wp_mono; [by apply set_timer_confs | intros [rc s1] H1 | done].
    apply wp_ret. by eapply offered_daemon.
  - eapply wp_mono; [by apply shut_down_confs | intros s1 [H1 _] | done]. by eapply offered_daemon.
  - eapply wp_mono; [by apply shut_down_confs | intros s1 [H1 _] | done]. by eapply offered_daemon.
  - eapply wp_mono; [by apply change_state_confs | intros s1 [H1 _] | done]. by eapply offered_daemon.
Qed.

Lemma switch_boot_confs L N s0 s a c conf :
  offered L N a c s0 s -> is_Some (d_heap (s_d s) !! a) -> c ∈ N ->
  wp (switch_boot k dv ops nmdm_offset s a c conf) (offered L N a c s0) tolerated.
Proof.
  intros Ho [e He] Hc. pose proof Ho as (Hs & Al & Hn). unfold switch_boot. apply wp_bind, (wp_get_entry _ _ _ _ _ He).
  assert (Ha : is_Some (d_heap (s_d s) !! a)) by (by rewrite He).
  assert (Hch : forall st, wp (on_daemon_ s (fun d => change_state d a st)) (offered L N a c s0) tolerated).
  { intros st. eapply wp_mono; [by apply change_state_confs | intros s1 [H1 _] | done]. by eapply offered_daemon. }
  assert (Hsh : wp (shut_down ops s a (vc_stop_timeout conf) STOP) (offered L N a c s0) tolerated).
  { eapply wp_mono; [by apply shut_down_confs | intros s1 [H1 _] | done]. by eapply offered_daemon. }
  assert (Hgo : wp (s ← set_vm_conf s a c; '(_, s) ← on_daemon s (fun d => start_virtual_machine k dv ops nmdm_offset d a); mret s)
                   (offered L N a c s0) tolerated).
  { apply wp_bind. eapply wp_mono; [by eapply set_vm_conf_confs; [| | | | rewrite Hn; apply lookup_insert_eq] | intros s1 (H1 & A1 & N1 & _) | done].
    assert (H1' : offered L N a c s0 s1) by (split; [done | split; [intros b; by rewrite A1 | by rewrite N1]]).
    apply wp_bind. eapply wp_mono; [apply start_confs; [done | by apply A1 | done] | intros [rc s2] H2 | done].
    apply wp_ret. by eapply offered_daemon. }
  destruct (vc_boot conf), (VM_STATE e); try done; by apply offered_ret.
Qed.

(** A configuration for a VM that is known. *)
Lemma reload_known_confs L N s a c n :
  Confs good L N all s -> is_Some (d_heap (s_d s) !! a) -> c ∈ N -> unclaimed s c ->
  wp (reload_known k dv ops nmdm_offset nv same_ent on_reload_config fuel s c a n) (offered L N a c s) tolerated.
Proof.
  intros Hs Ha Hc Hu. unfold reload_known. apply wp_bind.
  eapply wp_mono; [by apply reopen_log_confs | intros s1 (H1 & A1 & [d1 E1]) | done].
  apply wp_bind. eapply wp_mono; [apply copy_plugin_data_confs; [done | by apply A1 | done] | intros s2 (H2 & A2 & N2) | done].
  cbn zeta. set (s3 := s2 <| s_new := <[a := c]> (s_new s2) |>).
  assert (E2 : s_new s2 = s_new s) by (by rewrite N2, E1).
  assert (H3 : Confs good L N all s3).
  { apply Confs_new; [done | done |]. intros b Hb. rewrite E2. apply Hu. by apply A1, A2. }
  assert (A3 : forall b, is_Some (d_heap (s_d s3) !! b) <-> is_Some (d_heap (s_d s) !! b)) by (intros b; unfold s3; cbn; by rewrite A2, A1).
  assert (Ho : offered L N a c s s3) by (split; [done | split; [done | unfold s3; cbn; by rewrite E2]]).
  assert (Ha3 : is_Some (d_heap (s_d s3) !! a)) by (by apply A3).
  destruct (node_of _ _ _ _ _ H3 Hc) as (n3 & Hn3 & Hg3). apply wp_bind, (wp_get_node _ _ _ _ _ Hn3).
  destruct (todo_facts _ _ _ _ _ H3 Ha3 I) as (e & c0 & n0 & m & He & Hc0 & Hn0 & _ & Hg).
  apply wp_bind, (wp_vm_conf_of _ _ _ _ _ _ _ He Hc0 Hn0). apply wp_bind.
  eapply (wp_mono _ (fun _ => True) _ tolerated); [| | done].
  { case_match; [| by apply wp_ret]. apply wp_bind.
    eapply wp_mono; [by apply Hcompare | intros rc _; by apply wp_ret | done]. }
  intros [] _; [by apply restart_changed_confs |]. case_match; [by apply offered_ret | by apply switch_boot_confs].
Qed.

(** A configuration for a name that is new. *)
Lemma create_confs L N s c ce m :
  Confs good L N all s -> c ∈ N -> unclaimed s c -> good ce ->
  let a := d_next (s_d s) in
  let d' := s_d s <| d_heap := <[a := {| ve_vm := new_vm ce; ve_method := Some m |}]> (d_heap (s_d s)) |>
                  <| d_vm_list := a :: d_vm_list (s_d s) |> <| d_next := a + 1 |> in
  Confs good L N all (s <| s_d := d' |> <| s_conf := <[a := c]> (s_conf s) |> <| s_new := <[a := c]> (s_new s) |>).
Proof.
  intros Hs Hc Hu Hg a d'. pose proof Hs as []. pose proof cf_safe0 as [].
  assert (Hfr : d_heap (s_d s) !! a = None).
  { destruct (d_heap (s_d s) !! a) as [f |] eqn:E; [| done]. destruct (sf_heap0 a f E) as [Ha _]. unfold a in Ha. lia. }
  assert (Hin : forall b, is_Some (d_heap (s_d s) !! b) -> is_Some (d_heap d' !! b)).
  { intros b Hb. cbn. rewrite lookup_insert_is_Some. destruct (decide (a = b)); auto. }
  assert (Hout : forall b, is_Some (d_heap d' !! b) -> b = a \/ b <> a /\ is_Some (d_heap (s_d s) !! b)).
  { intros b. unfold d'. cbn. intros [<- | [N1 Hb]]%lookup_insert_is_Some; [by left | right; done]. }
  split; try done.
  - split.
    + intros ev b Hev Hcb Hd. apply Hin. by apply (sf_events0 ev).
    + intros b [-> | Hb]%elem_of_cons; [cbn; rewrite lookup_insert_eq; by eexists | by apply Hin, sf_listed0].
    + intros b [-> | [_ Hb]]%Hout; [by left | right; by apply sf_alive0].
    + apply NoDup_cons. split; [| done]. intros Ha%sf_listed0. rewrite Hfr in Ha. by destruct Ha.
    + intros b f. cbn. intros [[<- <-] | [_ Hb]]%lookup_insert_Some; [split; [unfold a; lia | by split; [eexists |]] |].
      destruct (sf_heap0 b f Hb) as [Hl Hr]. split; [lia | done].
  - intros x Hx. specialize (cf_fresh0 x Hx). cbn. lia.
  - intros b Hb _. cbn. apply Hout in Hb as [-> | [Nb Hb]].
    + exists c. rewrite !lookup_insert_eq. split; [done | split; [by right | done]].
    + rewrite !lookup_insert_ne by done. by apply cf_todo0.
  - intros b b' x Hb Hb'. cbn.
    intros [[<- <-] | [N1 H1]]%lookup_insert_Some [[<- E2] | [N2 H2]]%lookup_insert_Some Hx; try done.
    + subst x. by destruct (Hx Hc).
    + apply Hout in Hb as [-> | [_ Hb]]; [done |]. apply Hout in Hb' as [-> | [_ Hb']]; [done |]. by eapply cf_inj0.
  - intros b x Hb. cbn. intros [[_ <-] | [Nb Hx]]%lookup_insert_Some; [done |].
    apply Hout in Hb as [-> | [_ Hb]]; [done | by eapply cf_news0].
  - intros b b' x Hb%Hout Hb'%Hout [[_ H1] | [[] _]] [[_ H2] | [[] _]]; try done.
    by apply (insert_wants s (L, N) a c b b' x); destruct_or?; destruct_and?; auto.
Qed.

(** The daemon with an entry for [ce]. *)
Definition created d ce m : daemon NV W :=
  d <| d_heap := <[d_next d := {| ve_vm := new_vm ce; ve_method := Some m |}]> (d_heap d) |>
    <| d_vm_list := d_next d :: d_vm_list d |> <| d_next := d_next d + 1 |>.

Lemma create_vm_entry_cases d ce m :
  startable ce m ->
  wp (create_vm_entry d ce) (fun p => p = (None, d) \/ p = (Some (d_next d), created d ce m)) tolerated.
Proof.
  intros (_ & _ & _ & Hset). unfold create_vm_entry. apply wp_bind, wp_malloc.
  intros []; cbn [negb]; [| apply wp_ret; by left]. apply wp_bind. intros o. rewrite Hset. by right.
Qed.

(** Only [c] is claimed. *)
Definition claims c s s' : Prop := forall x, x <> c -> unclaimed s x -> unclaimed s' x.

Lemma offered_claims L N a c s s' : offered L N a c s s' -> claims c s s'.
Proof.
  intros (_ & Al & Hn) x Nx Hu b Hb%Al. rewrite Hn. intros [[_ E] | [_ E]]%lookup_insert_Some; [done | by apply (Hu b)].
Qed.

Lemma only_daemon_claims L N todo c s s' s'' : claims c s s' -> only_daemon L N todo s' s'' -> claims c s s''.
Proof. intros Hc (_ & Al & [d ->]) x Nx Hu b Hb%Al. by apply Hc. Qed.

Lemma reload_added_confs L N s c ce :
  Confs good L N all s -> c ∈ N -> unclaimed s c -> good ce ->
  wp (reload_added k dv ops nmdm_offset s c ce)
     (fun p => 0 <= p.1 -> Confs good L N all p.2 /\ claims c s p.2) tolerated.
Proof.
  intros Hs Hc Hu Hg. destruct (Hstart _ Hg) as (m & Hm). unfold reload_added, on_daemon at 1. apply wp_bind, wp_bind.
  eapply wp_mono; [by apply (create_vm_entry_cases _ _ m) | intros p [-> | ->]; apply wp_ret; [by apply wp_ret |] | done].
  cbn zeta. set (s1 := _ <| s_new := _ |>).
  assert (H1 : Confs good L N all s1) by (by apply (create_confs L N s c ce m)).
  assert (C1 : claims c s s1).
  { intros x Nx Hx b Hb. unfold s1. cbn. intros [[_ E] | [Nb E]]%lookup_insert_Some; [done |].
    unfold s1, created in Hb. cbn in Hb. apply lookup_insert_is_Some in Hb as [E1 | [_ Hb]]; [done | by apply (Hx b)]. }
  assert (Ha : is_Some (d_heap (s_d s1) !! d_next (s_d s))) by (eexists; apply lookup_insert_eq).
  apply wp_bind.
  eapply (wp_mono _ (fun p => Confs good L N all p.2 /\ claims c s p.2) _ tolerated); [| intros [rc s2] H2; by apply wp_ret | done].
  case_match; [by apply wp_ret |]. case_match.
  - eapply wp_mono; [by apply set_timer_confs | | done]. intros p H2. split; [apply H2 | exact (only_daemon_claims _ _ _ _ _ _ _ C1 H2)].
  - eapply wp_mono; [by apply start_confs | | done]. intros p H2. split; [apply H2 | exact (only_daemon_claims _ _ _ _ _ _ _ C1 H2)].
Qed.

Lemma reload_each_confs L N l s :
  Confs good L N all s -> l ⊆ N -> NoDup l -> (forall c, c ∈ l -> unclaimed s c) ->
  wp (reload_each k dv ops nmdm_offset nv same_ent on_reload_config fuel s l)
     (fun p => 0 <= p.1 -> Confs good L N all p.2) tolerated.
Proof.
  revert s. induction l as [| c l IH]; intros s Hs Hl Hnd Hu; [by apply wp_ret |]. cbn.
  assert (Hc : c ∈ N) by (apply Hl; by left). destruct (node_of _ _ _ _ _ Hs Hc) as (n & Hn & Hg).
  assert (Hcu : unclaimed s c) by (apply Hu; by left). apply NoDup_cons in Hnd as [Hcl Hnd].
  apply wp_bind, (wp_get_node _ _ _ _ _ Hn). destruct (Hstart _ Hg) as (m & [[nm Hnm] _] & _).
  apply wp_bind, (wp_deref _ nm); [done |].
  apply wp_bind. eapply wp_mono; [apply (lookup_live_safe L N); [done | apply Hs] | intros r Hr | done].
  apply wp_bind. eapply (wp_mono _ (fun p => 0 <= p.1 -> Confs good L N all p.2 /\ claims c s p.2) _ tolerated); [| | done].
  - destruct r as [a |]; [| by apply reload_added_confs].
    apply wp_bind. eapply wp_mono; [apply (reload_known_confs L N s a c); auto | | done].
    intros s1 H1. apply wp_ret. intros _. split; [apply H1 | by eapply offered_claims].
  - intros [rc s1] H1. cbn in H1. destruct (Z.ltb_spec rc 0) as [| Hrc]; [apply wp_ret; cbn; lia |].
    destruct (H1 Hrc) as [H2 C2]. apply IH; [done | | done |].
    + intros x Hx. apply Hl. by right.
    + intros x Hx. apply C2; [by intros -> | apply Hu; by right].
Qed.

(** *** The loop over the VMs *)

Abbreviation less todo a := (fun b => todo b /\ b <> a).

Lemma Confs_less L N todo s a c :
  Confs good L N todo s -> is_Some (d_heap (s_d s) !! a) -> todo a -> s_new s !! a = Some c ->
  s_conf s !! a = Some c -> c ∈ N -> Confs good L N (less todo a) (s <| s_new := delete a (s_new s) |>).
Proof.
  intros Hs Ha Hta Hna Hc HN. destruct (node_of _ _ _ _ _ Hs HN) as (n & Hn & _). destruct Hs. split; try done.
  - intros b Hb [Ht Nb]. cbn. rewrite lookup_delete_ne by done. by apply cf_todo0.
  - intros b f Hb Hnt. cbn. destruct (decide (b = a)) as [-> | Nb].
    + exists c. split; [done |]. split; [by rewrite Hn; eexists |]. split; [| by left].
      intros HL. by destruct (cf_disj0 c HL HN).
    + apply (cf_done0 b f Hb). tauto.
  - intros b x Hb. cbn. intros [_ Hx]%lookup_delete_Some. by eapply cf_news0.
  - assert (Hw : forall b x, wants (less todo a) (s <| s_new := delete a (s_new s) |>) b x -> wants todo s b x).
    { intros b x. unfold wants. cbn. destruct (decide (b = a)) as [-> | Nb]; [| rewrite lookup_delete_ne by done; tauto].
      rewrite Hc, Hna. tauto. }
    intros b b' x Hb Hb' H1%Hw H2%Hw. by apply (cf_wants0 b b' x).
Qed.

(** What holds when a VM has been settled: the others stay. *)
Definition settled N todo a s s' : Prop :=
  (exists L', Confs good L' N (less todo a) s') /\
  (forall b, b <> a -> is_Some (d_heap (s_d s) !! b) -> is_Some (d_heap (s_d s') !! b)).

Lemma value_alive {A} (m m' : lmem A) b :
  (forall a, value_at m' a = value_at m a) -> (is_Some (lm_nodes m' !! b) <-> is_Some (lm_nodes m !! b)).
Proof. intros H. specialize (H b). unfold value_at in H. rewrite <- !(fmap_is_Some ln_val), H. done. Qed.

(** An old configuration leaves its list; the VM is to be removed. *)
Lemma Confs_unlink L1 c L2 N todo s a mem :
  Confs good (L1 ++ c :: L2) N todo s -> todo a -> in_state a REMOVE s -> s_conf s !! a = Some c ->
  is_list mem VM_CONF_LIST (L1 ++ L2) -> relinks VM_CONF_LIST (L1 ++ c :: L2) (s_mem s) mem ->
  Confs good (L1 ++ L2) N (less todo a) (s <| s_mem := mem |>).
Proof.
  intros [] Ht (e & He & Hst) Hc Hl (R1 & R2 & R3).
  assert (Hd : forall x, x ∈ N -> x ∉ L1 ++ c :: L2) by (intros x Hx Hx'; by apply (cf_disj0 x)).
  assert (Hnd : NoDup (L1 ++ c :: L2)) by apply cf_old0.
  destruct (without c L1 L2) as (Hnc & Hsub & Hrest); [done |].
  split; try done.
  - destruct cf_new0 as (H1 & H2 & H3). split; [by rewrite R3 | split; [| done]].
    eapply seg_frame; [| exact H2]. intros x Hx. apply R1. by apply Hd.
  - intros x H1 H2. by apply (cf_disj0 x); auto.
  - intros x Hx. apply cf_fresh0. by apply (value_alive (s_mem s) mem).
  - intros b Hb [Hb' Nb]. destruct (cf_todo0 b Hb Hb') as (x & H1 & H2 & H3). exists x. split; [done |].
    assert (Hx : x ∈ L1 ++ c :: L2 -> x ∈ L1 ++ L2).
    { intros Hx. apply Hrest; [done |]. intros ->. apply Nb. apply (cf_inj0 b a c); try done.
      intros HN. by apply (Hd c HN). }
    split; [destruct H2; auto | auto].
  - intros b f Hb Hn. destruct (decide (b = a)) as [-> | Nb].
    + exists c. split; [done |]. split; [| split; [done | right; cbn in Hb; congruence]].
      apply (value_alive (s_mem s) mem); [done |]. eapply seg_in; [apply cf_old0 | apply elem_of_app; right; by left].
    + destruct (cf_done0 b f Hb) as (x & H1 & H2 & H3 & H4); [tauto |]. exists x. split; [done |].
      split; [by apply (value_alive (s_mem s) mem) | split; [auto | done]].
  - assert (HcN : c ∉ N) by (intros HN; apply (Hd c HN), elem_of_app; right; by left).
    assert (Hw : forall b x, is_Some (d_heap (s_d s) !! b) -> wants (less todo a) (s <| s_mem := mem |>) b x ->
                   b = a /\ x = c \/ b <> a /\ wants todo s b x /\ x <> c).
    { intros b x Hb. unfold wants. cbn. destruct (decide (b = a)) as [-> | Nb]; [rewrite Hc; intros [[[_ Na] _] | [_ [= <-]]]; [done | by left] |].
      intros [[[Htb _] Hx] | [Htb Hx]]; right; (split; [done | split; [tauto |]]); intros ->;
        [by apply HcN, (cf_news0 b) | by apply Nb, (cf_inj0 b a c)]. }
    intros b b' x Hb Hb' [[-> ->] | (Nb & H1 & Nx)]%Hw [[-> H2] | (Nb' & H2 & Nx')]%Hw; try done.
    by apply (cf_wants0 b b' x).
  - intros x n Hx Hn. apply (cf_vals0 x n Hx). rewrite <- R1; [done | by apply Hd].
Qed.

Lemma old_conf L N todo s a :
  Confs good L N todo s -> is_Some (d_heap (s_d s) !! a) -> todo a -> s_new s !! a = None ->
  exists c L1 L2, s_conf s !! a = Some c /\ L = L1 ++ c :: L2.
Proof.
  intros Hs Ha Ht Hn. destruct (cf_todo _ _ _ _ _ Hs a Ha Ht) as (c & Hc & _ & HL).
  destruct (list_elem_of_split _ _ (HL Hn)) as (L1 & L2 & ->). by exists c, L1, L2.
Qed.

Lemma LIST_REMOVE_keeps L1 c L2 (m : lmem (vm_conf_entry NV)) :
  is_list m VM_CONF_LIST (L1 ++ c :: L2) ->
  exists m', (forall o, LIST_REMOVE m c o = Done m' o) /\ is_list m' VM_CONF_LIST (L1 ++ L2) /\
        relinks VM_CONF_LIST (L1 ++ c :: L2) m m' /\ is_Some (lm_nodes m' !! c).
Proof.
  intros Hl. destruct (LIST_REMOVE_spec m VM_CONF_LIST L1 c L2 Hl) as (m' & Hr & Hl' & Hre).
  exists m'. split; [done | split; [done | split]].
  - eapply relinks_mono; [| exact Hre]. intros x. rewrite !elem_of_app, elem_of_cons. tauto.
  - apply (value_alive m m'); [apply Hre |]. eapply seg_in; [apply Hl | apply elem_of_app; right; by left].
Qed.

Lemma unlink_settled L N todo s0 s a :
  Confs good L N todo s -> todo a -> in_state a REMOVE s -> s_new s !! a = None ->
  (forall b, is_Some (d_heap (s_d s0) !! b) -> is_Some (d_heap (s_d s) !! b)) ->
  wp (unlink_conf s a) (settled N todo a s0) tolerated.
Proof.
  intros Hs Ht Hst Hn Al. destruct (old_conf L N todo s a) as (c & L1 & L2 & Hc & ->); try done.
  { destruct Hst as (e & He & _). by rewrite He; eexists. }
  destruct (LIST_REMOVE_keeps L1 c L2 (s_mem s)) as (mem & Hr & Hl & Hre & _); [apply Hs |].
  unfold unlink_conf, conf_ptr. rewrite Hc. apply wp_bind, wp_ret, wp_bind, (wp_certain _ mem); [done |]. apply wp_ret. split.
  - exists (L1 ++ L2). by apply (Confs_unlink L1 c L2 N todo s a mem).
  - intros b _ Hb. by apply Al.
Qed.

(** A VM that is settled goes with its configuration. *)
Definition removed s a c : server NV W :=
  s <| s_d := stop_waiting_for (vm_entry_event a)
                (s_d s <| d_vm_list := List.filter (fun b => negb (b =? a)) (d_vm_list (s_d s)) |>)
                <| d_heap := delete a (d_heap (s_d s)) |> |>
    <| s_mem := s_mem s <| lm_nodes := delete c (lm_nodes (s_mem s)) |> |>
    <| s_conf := delete a (s_conf s) |> <| s_new := delete a (s_new s) |>.

Lemma Safe_removed s a c : Safe good (s_d s) -> Safe good (s_d (removed s a c)).
Proof.
  intros []. unfold removed. split; cbn.
  - intros ev b. rewrite list_elem_of_In, filter_In. intros [Hev%list_elem_of_In Hf] Hcb Hd.
    rewrite lookup_delete_ne; [by apply (sf_events0 ev) |].
    intros <-. unfold vm_entry_event in Hf. by rewrite bool_decide_eq_true_2 in Hf.
  - intros b. cbn. rewrite list_elem_of_In, filter_In. intros [Hb%list_elem_of_In Nb].
    rewrite lookup_delete_ne; [by apply sf_listed0 | lia].
  - intros b [e [Nb Hb]%lookup_delete_Some]. rewrite list_elem_of_In, filter_In. split; [| lia].
    apply list_elem_of_In, sf_alive0. by rewrite Hb.
  - apply NoDup_ListNoDup, List.NoDup_filter. by apply NoDup_ListNoDup.
  - intros b f [_ Hb]%lookup_delete_Some. by apply sf_heap0.
Qed.

Lemma Confs_removed L N todo s a c :
  Confs good L N todo s -> ~ todo a -> is_Some (d_heap (s_d s) !! a) -> s_conf s !! a = Some c ->
  (c ∉ L) -> (c ∉ N) -> Confs good L N todo (removed s a c).
Proof.
  intros [] Ht Ha Hc HL HN.
  assert (Hold : forall b, is_Some (d_heap (s_d (removed s a c)) !! b) -> b <> a /\ is_Some (d_heap (s_d s) !! b)).
  { intros b [f Hb]. unfold removed in Hb. cbn in Hb. apply lookup_delete_Some in Hb as [Nb Hb]. split; [done | by rewrite Hb]. }
  assert (Hkeep : forall x l r q, c ∉ l -> seg (s_mem s) r l q -> x = s_mem (removed s a c) -> seg x r l q).
  { intros x l r q Hl Hs ->. eapply seg_frame; [| exact Hs]. intros y Hy. cbn. apply lookup_delete_ne. by intros ->. }
  split; try done.
  - by apply Safe_removed.
  - destruct cf_old0 as (H1 & H2 & H3). split; [done | split; [by eapply Hkeep | done]].
  - destruct cf_new0 as (H1 & H2 & H3). split; [done | split; [by eapply Hkeep | done]].
  - intros x [n Hx]. unfold removed in Hx. cbn in Hx. apply lookup_delete_Some in Hx as [_ Hx]. apply cf_fresh0. by rewrite Hx.
  - intros b [Nb Hb]%Hold Htb. cbn. rewrite !lookup_delete_ne by done. by apply cf_todo0.
  - intros b b' x [Nb Hb]%Hold [Nb' Hb']%Hold. cbn. rewrite !lookup_delete_ne by done. by apply cf_inj0.
  - intros b f. cbn. intros [Nb Hb]%lookup_delete_Some Htb. destruct (cf_done0 b f Hb Htb) as (x & H1 & H2 & H3 & H4).
    exists x. rewrite !lookup_delete_ne; try done.
    intros <-. by apply Nb, (cf_inj0 a b c).
  - intros b x [Nb Hb]%Hold. cbn. rewrite lookup_delete_ne by done. by apply cf_news0.
  - intros b b' x [Nb Hb]%Hold [Nb' Hb']%Hold. unfold wants. cbn. rewrite !lookup_delete_ne by done. by apply cf_wants0.
  - intros x n Hx. cbn. intros [_ Hn]%lookup_delete_Some. by eapply cf_vals0.
Qed.


(** The default branch: the VM and its configuration are freed. *)
Lemma free_settled L N todo s a e :
  Confs good L N todo s -> d_heap (s_d s) !! a = Some e -> todo a -> s_new s !! a = None ->
  wp (let d := s_d s in
      let s := s <| s_d := d <| d_vm_list := List.filter (fun b => negb (b =? a)) (d_vm_list d) |> |> in
      s ← unlink_conf s a; free_vm s a) (settled N todo a s) tolerated.
Proof.
  intros Hs He Ht Hn. destruct (old_conf L N todo s a) as (c & L1 & L2 & Hc & ->); try done.
  destruct (LIST_REMOVE_keeps L1 c L2 (s_mem s)) as (mem & Hr & Hl & Hre & [n Hcn]); [apply Hs |].
  set (s1 := s <| s_d := put_entry (s_d s) a (e <| ve_vm := ve_vm e <| vm_state := REMOVE |> |>) |>).
  assert (H1 : Confs good (L1 ++ c :: L2) N todo s1).
  { eapply Confs_step; [done | exact He | done |]. split; [done | split; [done | split; [done | by apply event_frame_same]]]. }
  assert (H2 : Confs good (L1 ++ L2) N (less todo a) (s1 <| s_mem := mem |>)).
  { apply (Confs_unlink L1 c L2); try done. eexists. split; [apply lookup_insert_eq | done]. }
  pose proof (cf_old _ _ _ _ _ Hs) as (_ & _ & Hnd). destruct (without c L1 L2 Hnd) as (Hnc & _).
  apply (Confs_removed _ _ _ _ a c) in H2; try done; [| tauto | eexists; apply lookup_insert_eq |].
  - unfold unlink_conf, free_vm, free_vm_entry, free_node, on_daemon_, conf_ptr. cbn zeta. cbn [s_conf s_mem s_d].
    apply wp_bind, wp_bind, (wp_deref _ c); [done |]. apply wp_bind, (wp_certain _ mem); [done |]. apply wp_ret.
    apply wp_bind, (wp_deref _ c); [done |]. apply wp_bind, wp_bind, wp_bind, (wp_get_entry _ a e); [exact He |].
    apply wp_ret, wp_ret, wp_bind, wp_bind, (wp_get_node _ c n); [exact Hcn |]. apply wp_ret, wp_ret. split.
    + exists (L1 ++ L2). unfold removed in H2. cbn in H2. rewrite delete_insert_eq in H2. exact H2.
    + intros b Nb Hb. cbn. by rewrite lookup_delete_ne.
  - intros HN. eapply (cf_disj _ _ _ _ _ Hs c); [| done]. apply elem_of_app. right. by left.
Qed.

Lemma settle_confs L N todo s a :
  Confs good L N todo s -> is_Some (d_heap (s_d s) !! a) -> todo a -> wp (settle ops s a) (settled N todo a s) tolerated.
Proof.
  intros Hs Ha Ht. destruct (todo_facts _ _ _ _ _ Hs Ha Ht) as (e & c & n & m & He & Hc & Hn & _ & _).
  unfold settle. apply wp_bind, (wp_get_entry _ _ _ _ _ He). destruct (s_new s !! a) as [c' |] eqn:En.
  - assert (HN : c' ∈ N) by (by eapply cf_news). apply wp_bind.
    eapply wp_mono; [by eapply set_vm_conf_confs | intros s1 (H1 & A1 & N1 & C1) | done]. apply wp_ret. split.
    + exists L. apply (Confs_less L N todo s1 a c'); try done; [by apply A1 | by rewrite N1].
    + intros b _ Hb. by apply A1.
  - assert (Hrm : wp (s ← on_daemon_ s (fun d => change_state d a REMOVE); unlink_conf s a) (settled N todo a s) tolerated).
    { apply wp_bind. eapply wp_mono; [by apply (change_state_confs L N todo) | intros s1 [(H1 & A1 & [d1 E1]) S1] | done].
      apply (unlink_settled L); try done; [by rewrite E1 | intros b; apply A1]. }
    assert (Hsh : wp (ce ← vm_conf_of s a; s ← shut_down ops s a (vc_stop_timeout (ce_conf ce)) REMOVE; unlink_conf s a)
                     (settled N todo a s) tolerated).
    { apply wp_bind, (wp_vm_conf_of _ _ _ _ _ _ _ He Hc Hn), wp_bind.
      eapply wp_mono; [by apply (shut_down_confs L N todo) | intros s1 [(H1 & A1 & [d1 E1]) S1] | done].
      apply (unlink_settled L); try done; [by rewrite E1 | intros b; apply A1]. }
    destruct (VM_STATE e); try done. by eapply free_settled.
Qed.

Lemma settle_all_confs N l : forall L s,
  Confs good L N (fun a => a ∈ l) s -> NoDup l -> (forall a, a ∈ l -> is_Some (d_heap (s_d s) !! a)) ->
  wp (foreach (settle ops) l s) (fun s' => exists L', Confs good L' N (fun _ => False) s') tolerated.
Proof.
  induction l as [| a l IH]; intros L s Hs Hnd Hl.
  - apply wp_ret. exists L. eapply Confs_proper; [| done | exact Hs]. intros a. by rewrite elem_of_nil.
  - apply NoDup_cons in Hnd as [Ha Hnd]. cbn. apply wp_bind.
    eapply wp_mono; [apply (settle_confs L N _ s a Hs); [apply Hl; by left | by left] | | done].
    intros s1 [[L1 H1] A1]. apply (IH L1); [| done |].
    + eapply Confs_proper; [| done | exact H1]. intros b. rewrite elem_of_cons. split; [| tauto].
      intros Hb. split; [by right | by intros ->].
    + intros b Hb. apply A1; [by intros -> | apply Hl; by right].
Qed.

(** *** The whole reload *)

(** The configurations of the VMs are allocated, each belongs to one VM, and it is on the
    list unless the VM is being removed. *)
Record Consistent s : Prop := {
  co_safe : Safe good (s_d s);
  co_fresh : forall c, is_Some (lm_nodes (s_mem s) !! c) -> c < d_next (s_d s);
  co_inj : forall a b c, is_Some (d_heap (s_d s) !! a) -> is_Some (d_heap (s_d s) !! b) ->
    s_conf s !! a = Some c -> s_conf s !! b = Some c -> a = b;
  co_list : exists L, is_list (s_mem s) VM_CONF_LIST L /\
    forall a e, d_heap (s_d s) !! a = Some e ->
      exists c, s_conf s !! a = Some c /\ is_Some (lm_nodes (s_mem s) !! c) /\ (c ∈ L \/ VM_STATE e = REMOVE);
}.

Lemma replace_list_confs L N s :
  Confs good L N (fun _ => False) s ->
  wp (replace_list s) (fun s' => Consistent s' /\ is_list (s_mem s') VM_CONF_LIST N) tolerated.
Proof.
  intros []. unfold replace_list.
  destruct (free_all_spec (s_mem s) VM_CONF_LIST L cf_old0) as (m1 & E1 & F1 & G1).
  apply wp_bind, (wp_certain _ m1); [done |]. set (m2 := put_head m1 VM_CONF_LIST None).
  assert (HN2 : is_list m2 NEW_LIST N).
  { destruct cf_new0 as (H1 & H2 & H3). split; [cbn; rewrite lookup_insert_ne by done; by rewrite G1 | split; [| done]].
    eapply seg_frame; [| exact H2]. intros x Hx. cbn. rewrite F1, decide_False; [done |].
    intros HL. by apply (cf_disj0 x). }
  destruct (LIST_CONCAT_empty m2 VM_CONF_LIST NEW_LIST N) as (m3 & E3 & L3 & _ & V3 & F3);
    [done | apply lookup_insert_eq | done |].
  apply wp_bind, (wp_certain _ m3); [done |]. apply wp_ret.
  assert (HL : is_list (drop_head m3) VM_CONF_LIST N).
  { destruct L3 as (H1 & H2 & H3). split; [cbn; by rewrite lookup_delete_ne | split; [| done]].
    by eapply seg_frame; [| exact H2]. }
  assert (Al : forall c, is_Some (lm_nodes m3 !! c) <-> (c ∉ L) /\ is_Some (lm_nodes (s_mem s) !! c)).
  { intros c. rewrite (value_alive m2 m3) by done. cbn. rewrite F1. destruct (decide (c ∈ L)); [| tauto].
    split; [by intros [] | tauto]. }
  split; [split |]; try done.
  - by apply Safe_free_pl_conf.
  - intros c [_ Hc]%Al. by apply cf_fresh0.
  - intros a b c Ha%(proj1 (free_pl_conf_alive _ _)) Hb%(proj1 (free_pl_conf_alive _ _)) H1 H2. apply (cf_wants0 a b c); try done; right; split; auto.
  - exists N. split; [done |]. intros a e (f & Hf & Hv & _)%free_pl_conf_lookup.
    destruct (cf_done0 a f Hf) as (c & H1 & H2 & H3 & H4); [tauto |].
    exists c. split; [done |]. split; [by apply Al |]. unfold VM_STATE. by rewrite Hv.
Qed.

(** A configuration comes in front of the new list. *)
Lemma link_one L N s ce :
  Confs good L N all s -> s_new s = ∅ -> good ce ->
  let c := d_next (s_d s) in
  let mem := put_node (s_mem s) c {| ln_val := ce; le_next := None; le_prev := AtHead NEW_LIST |} in
  exists mem', (forall o, LIST_INSERT_HEAD mem NEW_LIST c o = Done mem' o) /\
    Confs good L (c :: N) all (s <| s_mem := mem' |> <| s_d := s_d s <| d_next := c + 1 |> |>).
Proof.
  intros [] He Hg c mem.
  assert (Hfr : lm_nodes (s_mem s) !! c = None).
  { destruct (lm_nodes (s_mem s) !! c) eqn:E; [| done]. pose proof (cf_fresh0 c) as H. rewrite E in H.
    unfold c in H. specialize (H ltac:(by eexists)). lia. }
  assert (Hin : forall l h, is_list (s_mem s) h l -> (c ∉ l) /\ is_list mem h l).
  { intros l h (H1 & H2 & H3). assert (Hc : c ∉ l) by (intros Hc; eapply seg_in in Hc; [| exact H2]; rewrite Hfr in Hc; by destruct Hc).
    split; [done |]. split; [done | split; [| done]].
    eapply seg_frame; [| exact H2]. intros x Hx. cbn. apply lookup_insert_ne. by intros <-. }
  destruct (Hin _ _ cf_new0) as [HcN HN]. destruct (Hin _ _ cf_old0) as [HcL HL].
  destruct (LIST_INSERT_HEAD_spec mem NEW_LIST N c _ HN (lookup_insert_eq _ _ _) HcN) as (mem' & E & Hl & (R1 & R2 & R3)).
  exists mem'. split; [done |].
  assert (Hd : forall x, x ∈ L -> x ∉ c :: N).
  { intros x Hx [-> | Hx']%elem_of_cons; [done | by apply (cf_disj0 x)]. }
  split; try done.
  - destruct cf_safe0. split; try done. intros a e Hae. destruct (sf_heap0 a e Hae) as [H1 H2]. split; [cbn; lia | done].
  - destruct HL as (H1 & H2 & H3). split; [by rewrite R3 | split; [| done]].
    eapply seg_frame; [| exact H2]. intros x Hx. by apply R1, Hd.
  - intros x. cbn [s_mem s_d d_next]. rewrite (value_alive mem mem') by done. cbn. intros [<- | [_ H]]%lookup_insert_is_Some; [lia |].
    specialize (cf_fresh0 x H). lia.
  - intros a Ha _. destruct (cf_todo0 a Ha I) as (x & H1 & H2 & H3). exists x. rewrite elem_of_cons. tauto.
  - intros a b x Ha Hb H1 H2 Hx. apply (cf_inj0 a b x); try done. intros HxN. apply Hx. by right.
  - intros a x Ha. cbn. by rewrite He, lookup_empty.
  - intros x n Hx Hn. cbn in Hn. pose proof (R2 x) as HV. unfold value_at in HV. rewrite Hn in HV. cbn in HV.
    apply elem_of_cons in Hx as [-> | Hx]; [rewrite lookup_insert_eq in HV; by injection HV as -> |].
    rewrite lookup_insert_ne in HV by (by intros <-).
    destruct (lm_nodes (s_mem s) !! x) as [n' |] eqn:E'; [| done]. injection HV as ->. by apply (cf_vals0 x n').
Qed.

Lemma link_news_confs L s l :
  Confs good L [] all s -> s_new s = ∅ -> Forall good l ->
  wp (link_news s l)
     (fun s' => Confs good L (rev (seqZ (d_next (s_d s)) (Z.of_nat (length l)))) all s' /\ s_new s' = ∅ /\
                d_next (s_d s') = d_next (s_d s) + Z.of_nat (length l)) tolerated.
Proof.
  intros Hs He Hl. induction Hl as [| ce l Hg _ IH]; [apply wp_ret; cbn; split; [done | split; [done | lia]] |].
  cbn [link_news]. apply wp_bind. eapply wp_mono; [exact IH | intros s1 (H1 & E1 & D1) | done].
  destruct (link_one _ _ s1 ce H1 E1 Hg) as (mem & E & H2). apply wp_bind, (wp_certain _ mem); [done |]. apply wp_ret.
  split; [| split; [done | cbn; rewrite D1; lia]]. cbn [length]. rewrite seqZ_S, rev_app_distr. cbn [rev app].
  rewrite D1 in H2. rewrite D1. exact H2.
Qed.

Lemma reload_consistent s l :
  Consistent s -> (forall a e, d_heap (s_d s) !! a = Some e -> VM_STATE e <> REMOVE) -> Forall good l ->
  wp (reload_virtual_machines k dv ops nmdm_offset nv same_ent on_reload_config fuel s (Some l))
     (fun p => p.1 = -1 \/
        p.1 = 0 /\ Consistent p.2 /\ exists N, length N = length l /\ is_list (s_mem p.2) VM_CONF_LIST N) tolerated.
Proof.
  intros [] Hrm Hl. destruct co_list0 as (L & HL & HV). unfold reload_virtual_machines. cbn zeta.
  set (s0 := _ <| s_new := ∅ |>).
  assert (H0 : Confs good L [] all s0).
  { split; try done.
    - destruct HL as (H1 & H2 & H3). split; [cbn; by rewrite lookup_insert_ne | split; [| done]].
      by eapply seg_frame; [| exact H2].
    - split; [apply lookup_insert_eq | split; [done | constructor]].
    - intros x _ Hx. by apply elem_of_nil in Hx.
    - intros a [e He] _. destruct (HV a e He) as (c & H1 & H2 & [H3 | H3]); [| by destruct (Hrm a e He)].
      exists c. split; [done | split; [by left | done]].
    - intros a b c Ha Hb H1 H2 _. by apply (co_inj0 a b c).
    - intros a b c Ha Hb [[_ H1] | [[] _]]; done.
    - intros c n Hc. by apply elem_of_nil in Hc. }
  apply wp_bind. eapply wp_mono; [by apply (link_news_confs L s0 l) | intros s1 (H1 & E1 & _) | done].
  set (N := rev _) in H1. apply wp_bind.
  eapply wp_mono; [apply (reload_each_confs L N N); [done | done | apply H1 | intros c _ a _; by rewrite E1] | | done].
  intros [rc s2] H2. cbn in H2. destruct (Z.ltb_spec rc 0) as [| Hrc]; [apply wp_ret; by left |].
  specialize (H2 Hrc). apply wp_bind.
  eapply wp_mono; [apply (settle_all_confs N (d_vm_list (s_d s2)) L) | intros s3 [L' H3] | done].
  - eapply Confs_alive; [| exact H2]. intros a Ha. split; [intros _; by apply H2 | done].
  - apply H2.
  - apply H2.
  - apply wp_bind. eapply wp_mono; [by eapply replace_list_confs | intros s4 [H4 H5] | done].
    apply wp_ret. right. split; [done | split; [done |]]. exists N. split; [| done].
    unfold N. by rewrite length_rev, length_seqZ, Nat2Z.id.
Qed.

End safety.

(** ** The theorems *)

Section theorems.
Context {NV W : Type} (k : kernel W) (dv : devices NV W) (ops : vm_method -> vm_ops NV W) (nmdm_offset : Z)
        (nv : libnv NV) {Hnv : LibnvLaws nv} (same_ent : plugin_desc NV -> plugin_desc NV -> bool)
        (on_reload_config : plugin_desc NV -> NV -> NV -> NV * NV)
        `{Hlaws : forall m, BackendLaws (m_name m) (ops m)} (n : nat).
Implicit Types (s : server NV W) (ce x y : vm_conf_entry NV) (l : list (vm_conf_entry NV)).

(** The data of a plugin, nested less than [n] deep. *)
Definition plugin_ok (a : NV) : Prop := (nv_depth nv a < n)%nat /\ nv_error nv a = 0.

(** A configuration that [load_config_file] accepts and a VM can be started from. *)
Definition reloadable ce : Prop :=
  (exists m, startable ce m) /\ conf_ranges (ce_conf ce) /\ Forall (fun p => plugin_ok (pd_conf p)) (ce_pl_data ce).

Lemma compare_pl_data_safe (pa : list (plugin_data NV)) : forall pb,
  Forall (fun p => plugin_ok (pd_conf p)) pa -> Forall (fun p => plugin_ok (pd_conf p)) pb ->
  wp (compare_pl_data nv n pa pb) (fun _ => True) tolerated.
Proof.
  induction pa as [| p pa IH]; intros [| q pb] Ha Hb; try by apply wp_ret. cbn.
  apply Forall_cons in Ha as [[Hd He] Ha]. apply Forall_cons in Hb as [[_ Hq] Hb].
  destruct (compare_nvlist_spec nv n (pd_conf p) (pd_conf q) Hd He Hq) as (rc & Hrc & _).
  apply wp_bind, (wp_certain _ rc); [done |]. case_match; [by apply IH | by apply wp_ret].
Qed.

Lemma compare_safe x y : reloadable x -> reloadable y -> wp (compare_vm_conf_entry nv n x y) (fun _ => True) tolerated.
Proof.
  intros (_ & Rx & Px) (_ & Ry & Py). unfold compare_vm_conf_entry.
  destruct (compare_vm_conf_spec _ _ Rx Ry) as [[_ Ho] | (rc & Hrc & _)].
  { apply wp_bind. intros o. rewrite Ho. by left. }
  apply wp_bind, (wp_certain _ rc); [done |]. case_match; [by apply compare_pl_data_safe | by apply wp_ret].
Qed.

(** Another configuration of the plugins does not change which one is the backend. *)
Lemma set_vm_method_descs (la lb : list (plugin_data NV)) backend m :
  Forall2 (fun p q => pd_desc p = pd_desc q) la lb ->
  (forall o, set_vm_method la backend o = Done (Some m) o) -> forall o, set_vm_method lb backend o = Done (Some m) o.
Proof.
  intros H Hs o. rewrite <- Hs. unfold set_vm_method. generalize 0%nat. clear Hs.
  induction H as [| p q la lb Hd _ IH]; intros i; [done |]. cbn. rewrite <- Hd.
  destruct (pl_method (pd_desc p)) as [m' |]; [| done]. destruct backend as [b |]; [| done].
  unfold mbind, C_bind, deref. cbn. by destruct (strcmp (m_name m') b =? 0).
Qed.

Hypothesis on_reload_ok : forall d a b,
  plugin_ok a -> plugin_ok b -> plugin_ok (on_reload_config d a b).1 /\ plugin_ok (on_reload_config d a b).2.

Lemma copy_plugins_ok (la : list (plugin_data NV)) : forall lb pa pb,
  Forall (fun p => plugin_ok (pd_conf p)) la -> Forall (fun p => plugin_ok (pd_conf p)) lb ->
  copy_plugins same_ent on_reload_config la lb = (pa, pb) ->
  (Forall2 (fun p q => pd_desc p = pd_desc q) la pa /\ Forall (fun p => plugin_ok (pd_conf p)) pa) /\
  (Forall2 (fun p q => pd_desc p = pd_desc q) lb pb /\ Forall (fun p => plugin_ok (pd_conf p)) pb).
Proof.
  assert (Hid : forall l : list (plugin_data NV), Forall2 (fun p q => pd_desc p = pd_desc q) l l)
    by (induction l; by constructor).
  induction la as [| p la IH]; intros lb pa pb Ha Hb; [by intros [= <- <-] |].
  destruct lb as [| q lb]; [by intros [= <- <-] |]. cbn.
  destruct (same_ent (pd_desc p) (pd_desc q)); [| by intros [= <- <-]].
  apply Forall_cons in Ha as [Hp Ha]. apply Forall_cons in Hb as [Hq Hb].
  pose proof (on_reload_ok (pd_desc p) _ _ Hp Hq) as [H1 H2].
  destruct (on_reload_config _ _ _) as [np nq], (copy_plugins _ _ la lb) as [ra rb] eqn:E. intros [= <- <-].
  destruct (IH lb ra rb Ha Hb E) as [[? ?] [? ?]].
  split; (split; [by apply Forall2_cons | by apply Forall_cons]).
Qed.

Lemma reloadable_plugins ce pl :
  reloadable ce -> Forall2 (fun p q => pd_desc p = pd_desc q) (ce_pl_data ce) pl ->
  Forall (fun p => plugin_ok (pd_conf p)) pl -> reloadable {| ce_conf := ce_conf ce; ce_pl_data := pl |}.
Proof.
  intros ([m (H1 & H2 & H3 & Hset)] & Hr & _) Hd Hp. split; [| done]. exists m.
  split; [done | split; [done | split; [done |]]]. by apply (set_vm_method_descs _ _ _ _ Hd Hset).
Qed.

Lemma copy_safe x y pn po :
  reloadable x -> reloadable y -> copy_plugins same_ent on_reload_config (ce_pl_data x) (ce_pl_data y) = (pn, po) ->
  reloadable {| ce_conf := ce_conf x; ce_pl_data := pn |} /\ reloadable {| ce_conf := ce_conf y; ce_pl_data := po |}.
Proof.
  intros Hx Hy E. destruct (copy_plugins_ok _ _ _ _ (proj2 (proj2 Hx)) (proj2 (proj2 Hy)) E) as [[? ?] [? ?]].
  split; by apply reloadable_plugins.
Qed.

(** Reloadable configurations of which [P] holds. *)
Definition granted (P : vm_conf -> Prop) ce : Prop := reloadable ce /\ P (ce_conf ce).

Lemma granted_compare P x y : granted P x -> granted P y -> wp (compare_vm_conf_entry nv n x y) (fun _ => True) tolerated.
Proof. intros [Hx _] [Hy _]. by apply compare_safe. Qed.

Lemma granted_copy P x y pn po :
  granted P x -> granted P y -> copy_plugins same_ent on_reload_config (ce_pl_data x) (ce_pl_data y) = (pn, po) ->
  granted P {| ce_conf := ce_conf x; ce_pl_data := pn |} /\ granted P {| ce_conf := ce_conf y; ce_pl_data := po |}.
Proof. intros [Hx Px] [Hy Py] E. by destruct (copy_safe x y pn po Hx Hy E). Qed.

(** [C10] A reload is memory safe and keeps the configurations in order.  When the
    configuration of every VM is on [vm_conf_list] and no VM is being removed,
    then, whatever the new files contain and whichever allocation fails, the reload itself uses no
    configuration after it was freed and frees none twice.  When it returns 0,
    [vm_conf_list] has one element for each new configuration, and every
    VM has a configuration of its own that is on this list, or is being removed and has one that is allocated; of the state after a
    reload that gives up with -1 nothing is claimed.  One pointer is not covered: [pl_conf] of a VM that keeps running still points into the
    configuration that was freed ([reload_dangles_pl_conf]); during the reload it is alive, and afterwards it is up to the backend not to
    follow it ([BackendLaws]).  The faults that remain are those of [tolerated]. *)
Theorem reload_safe s l :
  Consistent reloadable s -> (forall a e, d_heap (s_d s) !! a = Some e -> VM_STATE e <> REMOVE) ->
  Forall reloadable l ->
  wp (reload_virtual_machines k dv ops nmdm_offset nv same_ent on_reload_config n s (Some l))
     (fun p => p.1 = -1 \/
        p.1 = 0 /\ Consistent reloadable p.2 /\ exists N, length N = length l /\ is_list (s_mem p.2) VM_CONF_LIST N)
     tolerated.
Proof.
  intros Hs Hr Hl. apply reload_consistent; try done; [by intros ce [H _] | by apply compare_safe | by apply copy_safe].
Qed.

End theorems.

(** [C39] A reload while a VM is being removed uses freed memory: the reload
    that removed the VM took its configuration from the list and freed the others, and
    the next one takes it from the list again, through its stale pointers. *)
Theorem reload_while_removing_faults {NV W} k (dv : devices NV W) (ops : vm_method -> vm_ops NV W) off nv same reload
    fuel (s : server NV W) a rest e c nd b o :
  d_vm_list (s_d s) = a :: rest -> d_heap (s_d s) !! a = Some e -> VM_STATE e = REMOVE ->
  s_conf s !! a = Some c -> lm_nodes (s_mem s) !! c = Some nd ->
  le_next nd = Some b \/ le_next nd = None /\ le_prev nd = AtNext b -> lm_nodes (s_mem s) !! b = None ->
  reload_virtual_machines k dv ops off nv same reload fuel s (Some []) o = Crash UseAfterFree.
Proof.
  intros Hl He Hst Hc Hn Hb Hf. unfold reload_virtual_machines. cbn. unfold mbind, C_bind. cbn.
  change (seqZ _ _) with (@nil Z). cbn. rewrite Hl. cbn.
  unfold mbind, C_bind, settle. cbn. unfold mbind, C_bind, get_entry at 1. cbn. rewrite He. cbn. rewrite lookup_empty, Hst.
  unfold on_daemon_, change_state, unlink_conf, conf_ptr, mbind, C_bind, get_entry. cbn. rewrite He. cbn. rewrite Hc. cbn.
  by rewrite (remove_twice_faults _ c nd b).
Qed.


(** ** A small daemon *)

Definition demo_libnv : libnv unit := {|
  nv_next := fun _ => []; nv_error := fun _ => 0; nv_exists_type := fun _ _ _ => false;
  nv_get_bool := fun _ _ => false; nv_get_number := fun _ _ => 0; nv_get_string := fun _ _ => ""%string;
  nv_get_nvlist := fun _ _ => tt; nv_get_descriptor := fun _ _ => 0; nv_get_binary := fun _ _ => ""%string;
  nv_get_bool_array := fun _ _ => []; nv_get_number_array := fun _ _ => []; nv_get_string_array := fun _ _ => [];
  nv_get_nvlist_array := fun _ _ => []; nv_get_descriptor_array := fun _ _ => [] |}.

#[export] Instance demo_libnv_laws : LibnvLaws demo_libnv.
Proof. refine {| nv_depth := fun _ => 0%nat |}; done. Defined.

Definition demo_reload (s : server unit Z) (l : list (vm_conf_entry unit)) : C (Z * server unit Z) :=
  reload_virtual_machines demo_kernel demo_devices demo_ops 0 demo_libnv (fun _ _ => true) (fun _ x y => (x, y)) 1 s (Some l).

Definition demo_empty : server unit Z :=
  {| s_d := idle 100; s_mem := {| lm_nodes := ∅; lm_heads := {[VM_CONF_LIST := None]} |}; s_conf := ∅; s_new := ∅ |}.

Definition after (s : server unit Z) (l : list (vm_conf_entry unit)) : server unit Z :=
  match demo_reload s l [] with Done (_, s') _ => s' | Crash _ => s end.

(** Two VMs run; then one of them is gone from the files. *)
Definition demo_two : server unit Z := after demo_empty [demo_vm "one"; demo_vm "two"].
Definition demo_leaving : server unit Z := after demo_two [demo_vm "one"].

Lemma demo_reloadable name : reloadable demo_libnv 1 (demo_vm name).
Proof.
  split; [eexists; apply demo_startable |]. split; [solve_ranges |]. repeat constructor.
Qed.

Lemma demo_empty_consistent : Consistent (reloadable demo_libnv 1) demo_empty.
Proof.
  split.
  - split.
    + intros ev a Hx. by apply elem_of_nil in Hx.
    + intros a Hx. by apply elem_of_nil in Hx.
    + intros a Ha. cbn in Ha. rewrite lookup_empty in Ha. by destruct Ha.
    + constructor.
    + intros a e He. cbn in He. by rewrite lookup_empty in He.
  - intros c Hc. cbn in Hc. rewrite lookup_empty in Hc. by destruct Hc.
  - intros a b c _ _ Hc. cbn in Hc. by rewrite lookup_empty in Hc.
  - exists []. split; [split; [done | split; [done | constructor]] |].
    intros a e He. cbn in He. by rewrite lookup_empty in He.
Qed.

Lemma demo_after_consistent l s :
  Forall (reloadable demo_libnv 1) l -> demo_reload demo_empty l [] = Done (0, s) [] ->
  Consistent (reloadable demo_libnv 1) s.
Proof.
  intros Hl E.
  assert (H : wp (demo_reload demo_empty l)
    (fun p => p.1 = -1 \/ p.1 = 0 /\ Consistent (reloadable demo_libnv 1) p.2 /\
       exists N, length N = length l /\ is_list (s_mem p.2) VM_CONF_LIST N) tolerated).
  { apply (reload_consistent demo_kernel demo_devices demo_ops 0 demo_libnv (fun _ _ => true) (fun _ x y => (x, y)) 1
             (reloadable demo_libnv 1)); try done.
    - by intros ce [H _].
    - by apply compare_safe.
    - by apply copy_safe.
    - apply demo_empty_consistent. }
  specialize (H []). rewrite E in H. cbn [fst snd] in H. destruct H as [H | (_ & H & _)]; [discriminate H | exact H].
Qed.

Lemma demo_two_consistent : Consistent (reloadable demo_libnv 1) demo_two.
Proof.
  apply (demo_after_consistent [demo_vm "one"; demo_vm "two"]); [| vm_compute; reflexivity].
  do 2 (apply Forall_cons; split; [apply demo_reloadable |]). by apply Forall_nil.
Qed.

Lemma reload_safe_witness :
  wp (demo_reload demo_two [demo_vm "one"])
     (fun p => p.1 = -1 \/ p.1 = 0 /\ Consistent (reloadable demo_libnv 1) p.2 /\
        exists N, length N = 1%nat /\ is_list (s_mem p.2) VM_CONF_LIST N) tolerated.
Proof.
  apply (reload_safe demo_kernel demo_devices demo_ops 0 demo_libnv (fun _ _ => true) (fun _ x y => (x, y)) 1).
  - done.
  - apply demo_two_consistent.
  - assert (H : map_Forall (fun _ e => VM_STATE e <> REMOVE) (d_heap (s_d demo_two))); [| exact H].
    apply (bool_decide_unpack _). vm_compute. exact I.
  - apply Forall_cons. split; [apply demo_reloadable | by apply Forall_nil].
Defined.

Lemma reload_while_removing_faults_witness :
  demo_reload demo_leaving [] [] = Crash UseAfterFree.
Proof.
  eapply (reload_while_removing_faults demo_kernel demo_devices demo_ops 0 demo_libnv _ _ 1 demo_leaving);
    [vm_compute; reflexivity .. | right; split; vm_compute; reflexivity | vm_compute; reflexivity].
Defined.



