(* ===== verification/Command.v ===== *)
(** * The commands of the daemon (src/server.c 366-478, 500-867, src/bmd.h 17)

    A request is an nvlist with the name of a command and, for most commands,
    the name of a VM; the answer is an nvlist too.  [recv_command] decodes the
    request, looks the command up in a sorted table and encodes what the
    command answers.

    libnv is a library: the record [libnv] of NvList.v reads the request,
    [nvlist_unpack] and [nvlist_pack] are arguments.  An answer is the list of what was
    added to it, in order.  [nvlist_get_string] of a name that is not there
    ends the process, as its manual says.  The descriptors, owners and users
    are those of the record [com_sys].  The commands work on the state of Reload.v. *)

From S2P Require Import Prelude CString Vars Conf Global MPool Plugin ParseValue Parser Load Tap Vm Network.
From S2P Require Import NvList SockBuf Daemon ConfList Reload Upkeep.
From Stdlib Require Import Ascii.

Local Open Scope Z_scope.

(** ** Data *)

Definition FD_KEY : string := "_file_descriptor_".

Definition NV_TYPE_STRING : Z := 4.

(** What is added to an answer; a string may be a NULL pointer. *)
#[warnings="-register-all"] Inductive rval :=
  | RBool (b : bool)
  | RString (s : option string)
  | RNumber (n : Z)
  | RList (l : list (list (string * rval))).

Definition response : Type := list (string * rval).

(** [cs_stat] answers the group of a file, [cs_open] -1 when the file cannot be opened. *)
Record com_sys (W : Type) := {
  cs_stat : string -> W -> option Z * W;
  cs_chown : string -> Z -> Z -> W -> bool * W;
  cs_open : string -> W -> Z * W;
  cs_flock : Z -> W -> bool * W;
  cs_close : Z -> W -> W;
  cs_getpwuid : Z -> option string;
}.
Arguments cs_stat {W} c _ _.
Arguments cs_chown {W} c _ _ _ _.
Arguments cs_open {W} c _ _.
Arguments cs_flock {W} c _ _.
Arguments cs_close {W} c _ _.
Arguments cs_getpwuid {W} c _.

(** ** Com ports *)

Section comport.
Context {W : Type} (cs : com_sys W).

(** The five attempts. *)
Fixpoint chown_try (n : nat) (fn : string) (uid : Z) (w : W) : Z * W :=
  match n with
  | O => (-1, w)
  | S n' =>
      match cs_stat cs fn w with
      | (None, w) => chown_try n' fn uid w
      | (Some gid, w) =>
          match cs_chown cs fn uid gid w with
          | (false, w) => chown_try n' fn uid w
          | (true, w) => (0, w)
          end
      end
  end.

Definition chown_comport (comport : option string) (ucred : xucred) (w : W) : C (Z * W) :=
  fn ← get_peer_comport comport;
  mret (match fn with None => (0, w) | Some fn => chown_try 5 fn (cr_uid ucred) w end).

Definition open_comport (comport : option string) (w : W) : C (Z * W) :=
  fn ← get_peer_comport comport;
  mret (match fn with
        | None => (-1, w)
        | Some fn =>
            let '(fd, w) := cs_open cs fn w in
            if fd <? 0 then (-1, w)
            else
              let '(ok, w) := cs_flock cs fd w in
              if (ok : bool) then (fd, w) else (-1, cs_close cs fd w)
        end).

End comport.

(** ** The commands *)

Section command.
Context {NV W : Type} (k : kernel W) (dv : devices NV W) (ops : vm_method -> vm_ops NV W) (nmdm_offset : Z)
        (nv : libnv NV) (cs : com_sys W).
Implicit Types (s : server NV W) (a c : Z) (req : NV) (res : response).

Definition nvlist_get_string req (key : string) : C string :=
  if nv_exists_type nv req key NV_TYPE_STRING then mret (nv_get_string nv req key) else crash ProcessExit.

(** The state of the system is part of the daemon. *)
Definition on_world {R} s (f : W -> C (R * W)) : C (R * server NV W) :=
  '(r, w) ← f (d_world (s_d s)); mret (r, s <| s_d := s_d s <| d_world := w |> |>).

(** The VM of the request, when it exists and the peer may control it. *)
Definition find_vm s req (ucred : xucred) : C (option Z) :=
  name ← nvlist_get_string req "name";
  r ← lookup_live s (d_vm_list (s_d s)) name;
  match r with
  | None => mret None
  | Some a => ce ← vm_conf_of s a; mret (if check_owner (ce_conf ce) ucred =? 0 then Some a else None)
  end.

(** The end of every answer. *)
Definition verdict (reason : option string) : response :=
  match reason with
  | None => [("error", RBool false)]
  | Some r => [("error", RBool true); ("reason", RString (Some r))]
  end.

(** The loop over the configurations that were loaded: those of another name
    are freed, [ret] is the last one of this name. *)
Fixpoint sift (mem : lmem (vm_conf_entry NV)) (name : option string) (l : list Z) (ret : option Z)
    : C (option Z * lmem (vm_conf_entry NV)) :=
  match l with
  | [] => mret (ret, mem)
  | c :: l' =>
      n ← get_node mem c;
      x ← deref (vc_name (ce_conf (ln_val n)));
      y ← deref name;
      if strcmp x y =? 0 then sift mem name l' (Some c)
      else mem ← free_node mem c; sift mem name l' ret
  end.

(** The new configuration takes the place of the old one, which is freed;
    the message that is logged then has the name of the old one. *)
Definition replace_conf s a c_old c : C (server NV W) :=
  mem ← LIST_REMOVE (s_mem s) c_old;
  mem ← LIST_INSERT_HEAD mem VM_CONF_LIST c;
  mem ← free_node mem c_old;
  s ← set_vm_conf (s <| s_mem := mem |>) a c;
  _ ← get_node (s_mem s) c_old;
  mret s.

(** [news] is what [load_config_file] reads, [None] when it fails. *)
Definition search_and_replace_vm_conf (fuel : nat) s a (news : option (list (vm_conf_entry NV)))
    : C (Z * server NV W) :=
  old ← vm_conf_of s a;
  c_old ← conf_ptr s a;
  match news with
  | None => mret (-1, s)
  | Some news =>
      let base := d_next (s_d s) in
      s ← link_news (s <| s_mem := put_head (s_mem s) NEW_LIST None |>) news;
      '(ret, mem) ← sift (s_mem s) (vc_name (ce_conf old)) (rev (seqZ base (Z.of_nat (length news)))) None;
      let s := s <| s_mem := drop_head mem |> in
      match ret with
      | None => mret (-1, s)
      | Some c =>
          n ← get_node (s_mem s) c;
          rc ← compare_vm_conf_entry nv fuel (ln_val n) old;
          if negb (rc =? 0) then s ← replace_conf s a c_old c; mret (0, s)
          else mem ← free_node (s_mem s) c; mret (0, s <| s_mem := mem |>)
      end
  end.

(** [VM_CONF(vm_ent)->install = true]. *)
Definition mark_install s a : C (server NV W) :=
  c ← conf_ptr s a;
  n ← get_node (s_mem s) c;
  e ← get_entry (s_d s) a;
  let inst ce := {| ce_conf := ce_conf ce <| vc_install := true |>; ce_pl_data := ce_pl_data ce |} in
  mret (s <| s_mem := put_node (s_mem s) c (n <| ln_val := inst (ln_val n) |>) |>
          <| s_d := put_vm (s_d s) a e (ve_vm e <| vm_ent_conf := inst (vm_ent_conf (ve_vm e)) |>) |>).

(** [VM_ASCOMPORT] or the com port of the configuration. *)
Definition comport_of s a : C (option string) :=
  e ← get_entry (s_d s) a;
  match vm_assigned_comport (ve_vm e) with
  | Some p => mret (Some p)
  | None => ce ← vm_conf_of s a; mret (vc_comport (ce_conf ce))
  end.

(** From the check of the state on: the error, if there is one. *)
Definition boot_vm (fuel : nat) s a (style : Z) (news : option (list (vm_conf_entry NV)))
    : C (option string * server NV W) :=
  e ← get_entry (s_d s) a;
  if (style <? 2) && negb (bool_decide (VM_STATE e = TERMINATE)) then mret (Some "already running", s)
  else
    '(rc, s) ← search_and_replace_vm_conf fuel s a news;
    if rc <? 0 then mret (Some "failed to load config file", s)
    else if negb ((style =? 0) || (style =? 1)) then mret (Some "internal error", s)
    else
      s ← (if style =? 1 then mark_install s a else mret s);
      '(rc, s) ← on_daemon s (fun d => start_virtual_machine k dv ops nmdm_offset d a);
      mret (if rc <? 0 then Some "failed to start" else None, s).

Definition boot0_command (fuel : nat) s req (style : Z) (ucred : xucred)
    (news : option (list (vm_conf_entry NV))) : C (response * server NV W) :=
  r ← find_vm s req ucred;
  match r with
  | None => mret (verdict (Some "VM not found"), s)
  | Some a =>
      '(reason, s) ← boot_vm fuel s a style news;
      match reason with
      | Some _ => mret (verdict reason, s)
      | None =>
          comport ← comport_of s a;
          match comport with
          | None => mret (verdict None, s)
          | Some _ =>
              '(fd, s) ← on_world s (open_comport cs comport);
              mret (verdict None ++ (if 0 <=? fd then [(FD_KEY, RNumber fd)] else []), s)
          end
      end
  end.

Definition showcomport_command s req (ucred : xucred) : C (response * server NV W) :=
  r ← find_vm s req ucred;
  match r with
  | None => mret (verdict (Some "VM not found"), s)
  | Some a =>
      comport ← comport_of s a;
      e ← get_entry (s_d s) a;
      let name := [("comport", RString (Some (pct_s comport)))] in
      if bool_decide (VM_STATE e = LOAD) || bool_decide (VM_STATE e = RUN) then
        '(_, s) ← on_world s (chown_comport cs comport ucred);
        '(fd, s) ← on_world s (open_comport cs comport);
        mret ((if 0 <=? fd then [(FD_KEY, RNumber fd)] else []) ++ name ++ verdict None, s)
      else mret (name ++ verdict None, s)
  end.

(** [char vgaport[128]]. *)
Definition VGAPORT_SIZE : nat := 128.

Definition showvgaport_command s req (ucred : xucred) : C (response * server NV W) :=
  r ← find_vm s req ucred;
  match r with
  | None => mret (verdict (Some "VM not found"), s)
  | Some a =>
      ce ← vm_conf_of s a;
      f ← deref (vc_fbuf (ce_conf ce));
      let port := if fb_enable f =? 0 then "(disabled)"
                  else take_str (VGAPORT_SIZE - 1) (pct_s (fb_ipaddr f) +:+ " " +:+ print_dec (fb_port f)) in
      mret (("vgaport", RString (Some port)) :: verdict None, s)
  end.

Definition state_string (st : STATE) : string :=
  match st with
  | TERMINATE => "STOP" | LOAD => "LOAD" | RUN => "RUN"
  | STOP => "TERMINATING" | REMOVE => "TERMINATING" | RESTART => "REBOOTING"
  end.

(** The line of a VM. *)
Definition vm_row (st : STATE) (c : vm_conf) : response :=
  [("name", RString (vc_name c)); ("ncpu", RString (vc_ncpu c)); ("memory", RString (vc_memory c));
   ("loader", RString (match vc_loader c with Some l => Some l | None => vc_backend c end));
   ("state", RString (Some (state_string st)));
   ("owner", RString (Some (default "nobody" (cs_getpwuid cs (to_uint (vc_owner c))))))].

(** The VMs of the peer; both loops of the command visit the same ones. *)
Fixpoint rows s (ucred : xucred) (l : list Z) : C (list response) :=
  match l with
  | [] => mret []
  | a :: l' =>
      ce ← vm_conf_of s a;
      e ← get_entry (s_d s) a;
      rest ← rows s ucred l';
      mret (if check_owner (ce_conf ce) ucred =? 0 then vm_row (VM_STATE e) (ce_conf ce) :: rest else rest)
  end.

Definition list_command s (ucred : xucred) : C (response * server NV W) :=
  vms ← rows s ucred (d_vm_list (s_d s));
  match vms with
  | [] => mret (verdict None, s)
  | _ :: _ =>
      ok ← malloc;
      mret (if (ok : bool) then ("vm_list", RList vms) :: verdict None
            else verdict (Some "cannot allocate memory"), s)
  end.

(** shutdown, reset and poweroff. *)
Definition down_response s req (how : Z) (ucred : xucred) : C (response * server NV W) :=
  name ← nvlist_get_string req "name";
  '(reason, s) ← on_daemon s (fun d => vm_down_command ops d (Some name) how ucred);
  mret (verdict reason, s).

(** [cfunc]; [news] is what a command that loads the configuration files reads. *)
Definition cfunc : Type :=
  server NV W -> NV -> xucred -> option (list (vm_conf_entry NV)) -> C (response * server NV W).

Definition boot_command (fuel : nat) : cfunc := fun s req ucred news => boot0_command fuel s req 0 ucred news.

Definition install_command (fuel : nat) : cfunc := fun s req ucred news => boot0_command fuel s req 1 ucred news.

Definition shutdown_command : cfunc := fun s req ucred _ => down_response s req 0 ucred.

Definition reset_command : cfunc := fun s req ucred _ => down_response s req 1 ucred.

Definition poweroff_command : cfunc := fun s req ucred _ => down_response s req 2 ucred.

(** The table, sorted by name. *)
Definition command_list (fuel : nat) : list (string * cfunc) :=
  [("boot", boot_command fuel); ("install", install_command fuel);
   ("list", fun s _ ucred _ => list_command s ucred); ("poweroff", poweroff_command);
   ("reset", reset_command); ("showcomport", fun s req ucred _ => showcomport_command s req ucred);
   ("showvgaport", fun s req ucred _ => showvgaport_command s req ucred); ("shutdown", shutdown_command)].

Definition compare_command_entry (name : string) (ent : string * cfunc) : Z := strcasecmp name ent.1.

Definition get_command_function (fuel : nat) (name : string) : option cfunc :=
  snd <$> bsearch (compare_command_entry name) (command_list fuel).

(** The descriptor is taken out of the answer. *)
Fixpoint take_number (key : string) res : option Z * response :=
  match res with
  | [] => (None, [])
  | (x, v) :: res' =>
      match v with
      | RNumber n => if String.eqb x key then (Some n, res')
                     else let '(r, rest) := take_number key res' in (r, (x, v) :: rest)
      | _ => let '(r, rest) := take_number key res' in (r, (x, v) :: rest)
      end
  end.

Context (nvlist_unpack : list ascii -> option NV) (nvlist_pack : response -> option (list ascii)).

(** The bytes that have arrived. *)
Definition buf_bytes (sb : sock_buf) : C (list ascii) :=
  l ← deref (b_buf sb);
  match mapM id l with Some bytes => mret bytes | None => crash WildAccess end.

(** The answer is stored; -1 when it cannot be encoded. *)
Definition store_response (sb : sock_buf) res : option sock_buf :=
  bytes ← nvlist_pack res;
  Some (sb <| b_res_buf := bytes |> <| b_res_size := Z.of_nat (length bytes) |> <| b_res_bytes := 0 |>).

Definition recv_error (sb : sock_buf) (reason : string) : Z * sock_buf :=
  match store_response sb (verdict (Some reason)) with
  | Some sb => (0, sb)
  | None => (-1, sb <| b_res_buf := [] |>)
  end.

Definition recv_command (fuel : nat) s (sb : sock_buf) (news : option (list (vm_conf_entry NV)))
    : C (Z * sock_buf * server NV W) :=
  bytes ← buf_bytes sb;
  match nvlist_unpack bytes with
  | None => mret (-1, sb, s)
  | Some req =>
      cmd ← nvlist_get_string req "command";
      match get_command_function fuel cmd with
      | None => mret (recv_error sb "unknown command", s)
      | Some func =>
          '(res, s) ← func s req (b_peer sb) news;
          let '(fd, res) := take_number FD_KEY res in
          let sb := sb <| b_res_fd := default (-1) fd |> in
          mret (match store_response sb res with
                | Some sb => (0, sb)
                | None => recv_error sb "nvlist_pack error"
                end, s)
      end
  end.

End command.

(** ** Theorems *)

Section theorems.
Context {NV W : Type} (k : kernel W) (dv : devices NV W) (ops : vm_method -> vm_ops NV W) (nmdm_offset : Z)
        (nv : libnv NV) (cs : com_sys W).
Implicit Types (s : server NV W) (a c : Z) (req : NV) (res : response).

(** The pointers of the VMs that are listed can be followed. *)
Definition readable s : Prop :=
  forall a, a ∈ d_vm_list (s_d s) ->
  exists e c nm, d_heap (s_d s) !! a = Some e /\ s_conf s !! a = Some c /\ is_Some (lm_nodes (s_mem s) !! c) /\
            vc_name (VM_CONF e) = Some nm.

Lemma run_vm_conf_of s a e c o :
  d_heap (s_d s) !! a = Some e -> s_conf s !! a = Some c -> is_Some (lm_nodes (s_mem s) !! c) ->
  vm_conf_of s a o = Done (vm_ent_conf (ve_vm e)) o.
Proof.
  intros He Hc [n Hn]. unfold vm_conf_of, conf_ptr, get_entry, mbind, C_bind. rewrite He, Hc. cbn.
  by rewrite (run_get_node _ _ _ _ Hn).
Qed.

(** The VM [a] is the first of this name. *)
Definition first_named s (name : string) (a : Z) : Prop :=
  exists e, d_heap (s_d s) !! a = Some e /\ vc_name (VM_CONF e) = Some name.

Lemma lookup_live_run s l name :
  (forall a, a ∈ l -> exists e c nm, d_heap (s_d s) !! a = Some e /\ s_conf s !! a = Some c /\
        is_Some (lm_nodes (s_mem s) !! c) /\ vc_name (VM_CONF e) = Some nm) ->
  exists r, (forall o, lookup_live s l name o = Done r o) /\ (forall o, lookup_in (s_d s) l name o = Done r o) /\
       match r with
       | Some a => a ∈ l /\ first_named s name a
       | None => forall a, a ∈ l -> ~ first_named s name a
       end.
Proof.
  induction l as [| a l IH]; intros Hl; [exists None; split; [done | split; [done |]]; by intros a ?%elem_of_nil |].
  destruct (Hl a) as (e & c & nm & He & Hc & Hn & Hnm); [by left |].
  destruct IH as (r & H1 & H2 & H3); [intros b Hb; apply Hl; by right |].
  assert (E1 : forall o, lookup_live s (a :: l) name o = if strcmp nm name =? 0 then Done (Some a) o else lookup_live s l name o).
  { intros o. cbn [lookup_live]. unfold mbind, C_bind. rewrite (run_vm_conf_of s a e c) by done.
    change (ce_conf (vm_ent_conf (ve_vm e))) with (VM_CONF e). rewrite Hnm. cbn [deref]. unfold mret, C_ret.
    by destruct (strcmp nm name =? 0). }
  assert (E2 : forall o, lookup_in (s_d s) (a :: l) name o = if strcmp nm name =? 0 then Done (Some a) o else lookup_in (s_d s) l name o).
  { intros o. cbn [lookup_in]. unfold mbind, C_bind, get_entry. rewrite He. unfold mret, C_ret. rewrite Hnm. cbn [deref].
    unfold mret, C_ret. by destruct (strcmp nm name =? 0). }
  destruct (Z.eqb_spec (strcmp nm name) 0) as [E | E].
  - apply strcmp_eq0 in E as ->. exists (Some a). split; [done | split; [done |]]. split; [by left | by exists e].
  - exists r. split; [intros o; by rewrite E1 | split; [intros o; by rewrite E2 |]]. destruct r as [b |].
    + destruct H3 as [Hb H3]. split; [by right | done].
    + intros b [-> | Hb]%elem_of_cons; [| by apply H3]. intros (e' & He' & Hnm').
      apply E. apply strcmp_eq0. congruence.
Qed.

(** No VM of this name may be controlled by the peer. *)
Definition refused s (name : string) (ucred : xucred) : Prop :=
  forall a e, a ∈ d_vm_list (s_d s) -> d_heap (s_d s) !! a = Some e -> vc_name (VM_CONF e) = Some name ->
         check_owner (VM_CONF e) ucred <> 0.

Lemma find_vm_refused s req ucred o :
  readable s -> nv_exists_type nv req "name" NV_TYPE_STRING = true ->
  refused s (nv_get_string nv req "name") ucred -> find_vm nv s req ucred o = Done None o.
Proof.
  intros Hs Hx Hr. unfold find_vm, nvlist_get_string. rewrite Hx. unfold mbind, C_bind. cbn.
  destruct (lookup_live_run s (d_vm_list (s_d s)) (nv_get_string nv req "name") Hs) as (r & E & _ & H).
  rewrite E. destruct r as [a |]; [| done]. destruct H as [Ha (e & He & Hnm)].
  destruct (Hs a Ha) as (e' & c & nm & He' & Hc & Hn & _). assert (e' = e) as -> by congruence.
  rewrite (run_vm_conf_of s a e c) by done. cbn.
  destruct (Z.eqb_spec (check_owner (VM_CONF e) ucred) 0) as [E0 | E0]; [by destruct (Hr a e Ha He Hnm) |].
  unfold VM_CONF, vm_get_conf in E0. by apply Z.eqb_neq in E0 as ->.
Qed.

Lemma vm_down_refused s name how ucred o :
  readable s -> refused s name ucred ->
  vm_down_command ops (s_d s) (Some name) how ucred o = Done (Some "VM not found", s_d s) o.
Proof.
  intros Hs Hr. unfold vm_down_command, lookup_vm_by_name, mbind, C_bind. cbn.
  destruct (lookup_live_run s (d_vm_list (s_d s)) name Hs) as (r & _ & E & H).
  rewrite E. destruct r as [a |]; [| done]. destruct H as [Ha (e & He & Hnm)].
  unfold get_entry, mbind, C_bind. rewrite He. cbn.
  by destruct (Z.eqb_spec (check_owner (VM_CONF e) ucred) 0) as [E0 | E0]; [destruct (Hr a e Ha He Hnm) |].
Qed.

(** A command that names a VM which the peer may not control. *)
Lemma refused_answer fuel s req ucred news cmd f o :
  readable s -> nv_exists_type nv req "name" NV_TYPE_STRING = true ->
  refused s (nv_get_string nv req "name") ucred ->
  (cmd, f) ∈ command_list k dv ops nmdm_offset nv cs fuel -> cmd <> "list" ->
  f s req ucred news o = Done (verdict (Some "VM not found"), s) o.
Proof.
  intros Hs Hx Hr Hf Hl. pose proof (fun o => find_vm_refused s req ucred o Hs Hx Hr) as Hfind.
  assert (Hdown : forall how, down_response ops nv s req how ucred o = Done (verdict (Some "VM not found"), s) o).
  { intros how. unfold down_response, nvlist_get_string, on_daemon, mbind, C_bind. rewrite Hx. unfold mret, C_ret.
    rewrite vm_down_refused by done. by destruct s. }
  unfold command_list in Hf. rewrite !elem_of_cons, elem_of_nil in Hf.
  destruct_or! Hf; injection Hf as -> ->; try done; try apply Hdown.
  all: unfold boot_command, install_command, boot0_command, showcomport_command, showvgaport_command, mbind, C_bind;
    by rewrite Hfind.
Qed.

(** The name of a command is found in the table, in upper or lower case,
    by the binary search exactly when it is there. *)
Theorem get_command_function_correct fuel name f :
  get_command_function k dv ops nmdm_offset nv cs fuel name = Some f <->
  exists cmd, In (cmd, f) (command_list k dv ops nmdm_offset nv cs fuel) /\ lower name = lower cmd.
Proof.
  unfold get_command_function. rewrite fmap_Some.
  assert (Hs : sorted_by fst (command_list k dv ops nmdm_offset nv cs fuel)) by (apply sorted_byb_sound; reflexivity).
  split.
  - intros ((cmd & f') & Hb & ->). apply (bsearch_by_name fst _ name _ Hs) in Hb. by exists cmd.
  - intros (cmd & Hin & Hn). exists (cmd, f). split; [| done]. by apply (bsearch_by_name fst _ name _ Hs).
Qed.

(** The lines of the VMs that the peer may control. *)
Definition visible s (ucred : xucred) : list response :=
  omap (fun a => match d_heap (s_d s) !! a with
                 | Some e => if check_owner (VM_CONF e) ucred =? 0 then Some (vm_row cs (VM_STATE e) (VM_CONF e)) else None
                 | None => None
                 end) (d_vm_list (s_d s)).

Lemma rows_run s ucred o : readable s -> rows cs s ucred (d_vm_list (s_d s)) o = Done (visible s ucred) o.
Proof.
  unfold readable, visible. induction (d_vm_list (s_d s)) as [| a l IH]; intros Hs; [done |].
  destruct (Hs a) as (e & c & nm & He & Hc & Hn & _); [by left |]. cbn [rows omap list_omap]. unfold mbind, C_bind.
  rewrite (run_vm_conf_of s a e c) by done. unfold get_entry. rewrite He. unfold mret, C_ret.
  rewrite IH by (intros b Hb; apply Hs; by right).
  change (ce_conf (vm_ent_conf (ve_vm e))) with (VM_CONF e). by destruct (check_owner (VM_CONF e) ucred =? 0).
Qed.

(** The list that a peer gets has one line for each VM that he may control,
    in the order of the daemon's list, and no line for any other VM; nothing changes.  Only
    an allocation that fails gives an error instead. *)
Theorem list_command_correct s ucred :
  readable s ->
  wp (list_command cs s ucred)
     (fun p => p.2 = s /\
        (p.1 = match visible s ucred with [] => verdict None | l => ("vm_list", RList l) :: verdict None end \/
         p.1 = verdict (Some "cannot allocate memory"))) no_fault.
Proof.
  intros Hs. unfold list_command. apply wp_bind, (wp_certain _ (visible s ucred)); [intros o; by apply rows_run |].
  destruct (visible s ucred) as [| r l]; [apply wp_ret; by auto |].
  apply wp_bind, wp_malloc. intros []; apply wp_ret; auto.
Qed.

(** *** Looking for changes before a boot *)

(** The state after the new configurations were linked: the old memory is the same. *)
Lemma link_news_run s l :
  is_list (s_mem s) NEW_LIST [] -> (forall c, is_Some (lm_nodes (s_mem s) !! c) -> c < d_next (s_d s)) ->
  let base := d_next (s_d s) in
  exists mem, (forall o, link_news s l o =
           Done (s <| s_mem := mem |> <| s_d := s_d s <| d_next := base + Z.of_nat (length l) |> |>) o) /\
    is_list mem NEW_LIST (rev (seqZ base (Z.of_nat (length l)))) /\
    List.map (value_at mem) (rev (seqZ base (Z.of_nat (length l)))) = List.map Some l /\
    (forall c, c < base -> lm_nodes mem !! c = lm_nodes (s_mem s) !! c) /\
    (forall c, is_Some (lm_nodes mem !! c) -> c < base + Z.of_nat (length l)) /\
    lm_heads mem !! VM_CONF_LIST = lm_heads (s_mem s) !! VM_CONF_LIST.
Proof.
  intros Hl Hf base. induction l as [| ce l IH].
  { exists (s_mem s). split_and!; try done.
    - intros o. cbn [link_news length Z.of_nat]. rewrite Z.add_0_r. unfold base. by destruct s as [[] ? ? ?].
    - intros c Hc. cbn. specialize (Hf c Hc). unfold base. lia. }
  destruct IH as (mem & E & HN & HV & Hold & Hfr & Hh). set (c := base + Z.of_nat (length l)) in *.
  set (mem1 := put_node mem c {| ln_val := ce; le_next := None; le_prev := AtHead NEW_LIST |}).
  set (N := rev (seqZ base (Z.of_nat (length l)))) in *.
  assert (HcN : forall x, x ∈ N -> base <= x < c).
  { intros x. unfold N, c. rewrite list_elem_of_In, <- in_rev, <- list_elem_of_In, elem_of_seqZ. done. }
  assert (HN1 : is_list mem1 NEW_LIST N).
  { destruct HN as (H1 & H2 & H3). split; [done | split; [| done]]. eapply seg_frame; [| exact H2].
    intros x Hx. cbn. apply lookup_insert_ne. specialize (HcN x Hx). lia. }
  destruct (LIST_INSERT_HEAD_spec mem1 NEW_LIST N c _ HN1 (lookup_insert_eq _ _ _)) as (mem2 & E2 & H2 & (R1 & R2 & R3)).
  { intros Hx. specialize (HcN c Hx). lia. }
  assert (HNE : rev (seqZ base (Z.of_nat (length (ce :: l)))) = c :: N).
  { cbn [length]. by rewrite seqZ_S, rev_app_distr. }
  exists mem2. rewrite HNE. split_and!.
  - intros o. cbn [link_news]. unfold mbind, C_bind. rewrite E. cbn [s_d s_mem d_next].
    change (d_next (s_d _)) with c. change (s_mem _) with mem at 1. fold mem1. rewrite E2. unfold mret, C_ret.
    replace (base + Z.of_nat (length (ce :: l))) with (c + 1) by (unfold c; cbn [length]; lia).
    by destruct s as [[] ? ? ?].
  - exact H2.
  - cbn [List.map]. rewrite R2. unfold value_at at 1. cbn. rewrite lookup_insert_eq. cbn. f_equal. rewrite <- HV.
    apply map_ext_in. intros x Hx%list_elem_of_In%HcN. rewrite R2. unfold value_at. cbn. by rewrite lookup_insert_ne by lia.
  - intros x Hx. rewrite R1; [cbn; rewrite lookup_insert_ne by lia; by apply Hold |].
    intros [-> | Hx']%elem_of_cons; [lia | apply HcN in Hx'; lia].
  - intros x. rewrite (value_alive mem1 mem2) by done. intros Hx. unfold mem1 in Hx. cbn in Hx.
    cbn [length]. apply lookup_insert_is_Some in Hx as [<- | [_ Hx]]; [lia |].
    apply Hfr in Hx. lia.
  - by rewrite R3.
Qed.

(** The configuration that is found: the last one of the name. *)
Definition last_named (name : string) (l : list (vm_conf_entry NV)) : option (vm_conf_entry NV) :=
  last (List.filter (fun ce => bool_decide (vc_name (ce_conf ce) = Some name)) l).

Lemma last_named_cons name ce l :
  last_named name (ce :: l) = match last_named name l with
                              | Some x => Some x
                              | None => if bool_decide (vc_name (ce_conf ce) = Some name) then Some ce else None
                              end.
Proof.
  unfold last_named. cbn [List.filter]. destruct (bool_decide _); [| by destruct (last _)].
  rewrite last_cons. by destruct (last _).
Qed.

Lemma sift_run name l : forall mem cs0 ret,
  Forall (fun ce => is_Some (vc_name (ce_conf ce))) l -> NoDup cs0 -> List.map (value_at mem) cs0 = List.map Some l ->
  exists r mem', (forall o, sift mem (Some name) cs0 ret o = Done (r, mem') o) /\
    (forall c, c ∉ cs0 -> lm_nodes mem' !! c = lm_nodes mem !! c) /\
    (forall c, is_Some (lm_nodes mem' !! c) -> is_Some (lm_nodes mem !! c)) /\ lm_heads mem' = lm_heads mem /\
    match last_named name l with
    | Some ce => exists c, r = Some c /\ c ∈ cs0 /\ value_at mem' c = Some ce
    | None => r = ret
    end.
Proof.
  induction l as [| ce l IH]; intros mem [| c cs0] ret Hl Hnd Hv; try done.
  { exists ret, mem. done. }
  apply Forall_cons in Hl as [[nm Hnm] Hl]. apply NoDup_cons in Hnd as [Hc Hnd]. cbn [List.map] in Hv.
  injection Hv as Hv1 Hv. unfold value_at in Hv1. destruct (lm_nodes mem !! c) as [n |] eqn:En; [| done].
  cbn in Hv1. injection Hv1 as Hn. rewrite last_named_cons.
  assert (E : forall o, sift mem (Some name) (c :: cs0) ret o =
     if strcmp nm name =? 0 then sift mem (Some name) cs0 (Some c) o
     else sift (mem <| lm_nodes := delete c (lm_nodes mem) |>) (Some name) cs0 ret o).
  { intros o. cbn [sift]. unfold mbind, C_bind. rewrite (run_get_node _ _ _ _ En), Hn, Hnm. cbn [deref]. unfold mret, C_ret.
    destruct (strcmp nm name =? 0); [done |]. unfold free_node, mbind, C_bind. by rewrite (run_get_node _ _ _ _ En). }
  destruct (Z.eqb_spec (strcmp nm name) 0) as [Es | Es].
  - apply strcmp_eq0 in Es as ->. rewrite bool_decide_true by done.
    destruct (IH mem cs0 (Some c) Hl Hnd Hv) as (r & mem' & E1 & F1 & A1 & G1 & H1).
    exists r, mem'. split; [intros o; by rewrite E |]. split; [intros x Hx; apply F1; set_solver |].
    split; [done | split; [done |]]. destruct (last_named name l) as [x |].
    + destruct H1 as (c' & -> & Hc' & Hx). exists c'. split; [done | split; [by right | done]].
    + exists c. split; [done | split; [by left |]]. unfold value_at. rewrite F1, En by done. cbn. by rewrite Hn.
  - rewrite bool_decide_false by (rewrite Hnm; intros [= ->]; by apply Es, strcmp_eq0).
    set (mem1 := mem <| lm_nodes := delete c (lm_nodes mem) |>) in *.
    assert (Hv1 : List.map (value_at mem1) cs0 = List.map Some l).
    { rewrite <- Hv. apply map_ext_in. intros x Hx%list_elem_of_In. unfold value_at. cbn. rewrite lookup_delete_ne; [done |]. by intros ->. }
    destruct (IH mem1 cs0 ret Hl Hnd Hv1) as (r & mem' & E1 & F1 & A1 & G1 & H1).
    exists r, mem'. split; [intros o; by rewrite E |]. split; [| split; [| split; [done |]]].
    + intros x Hx. apply not_elem_of_cons in Hx as [N1 N2]. rewrite F1 by done. cbn. by apply lookup_delete_ne.
    + intros x Hx%A1. cbn in Hx. destruct Hx as [n' [_ Hx]%lookup_delete_Some]. by rewrite Hx.
    + destruct (last_named name l) as [x |]; [| done].
      destruct H1 as (c' & -> & Hc' & Hx). exists c'. split; [done | split; [by right | done]].
Qed.

Lemma replace_conf_faults s a e c_old c n L1 L2 o :
  is_list (s_mem s) VM_CONF_LIST (L1 ++ c_old :: L2) -> (c ∉ L1 ++ c_old :: L2) ->
  lm_nodes (s_mem s) !! c = Some n -> d_heap (s_d s) !! a = Some e ->
  replace_conf s a c_old c o = Crash UseAfterFree.
Proof.
  intros Hl Hc Hn He. destruct (LIST_REMOVE_keeps L1 c_old L2 (s_mem s) Hl) as (m1 & E1 & Hl1 & (R1 & _ & _) & A1).
  assert (Hnc : c <> c_old) by (intros ->; apply Hc, elem_of_app; right; by left).
  assert (Hn1 : lm_nodes m1 !! c = Some n) by (by rewrite R1).
  destruct (LIST_INSERT_HEAD_spec m1 VM_CONF_LIST (L1 ++ L2) c n Hl1 Hn1) as (m2 & E2 & Hl2 & (_ & V2 & _)).
  { intros Hx. apply Hc. rewrite elem_of_app, elem_of_cons. apply elem_of_app in Hx. tauto. }
  assert (A2 : is_Some (lm_nodes m2 !! c_old)) by (by apply (value_alive m1 m2)). destruct A2 as [n2 A2].
  assert (C2 : is_Some (lm_nodes m2 !! c)) by (apply (value_alive m1 m2); [done | by rewrite Hn1]). destruct C2 as [n3 C2].
  unfold replace_conf, mbind, C_bind. rewrite E1, E2. unfold free_node, mbind, C_bind.
  rewrite (run_get_node _ _ _ _ A2). unfold set_vm_conf, mbind, C_bind, mret, C_ret.
  unfold get_node at 1. cbn. rewrite lookup_delete_ne, C2 by done. unfold get_entry. cbn. rewrite He. cbn.
  unfold get_node. cbn. by rewrite lookup_delete_eq.
Qed.

(** The VMs, their configurations and the events stay as they are. *)
Definition untouched (good : vm_conf_entry NV -> Prop) s s' : Prop :=
  s_conf s' = s_conf s /\ d_heap (s_d s') = d_heap (s_d s) /\ d_vm_list (s_d s') = d_vm_list (s_d s) /\
  d_events (s_d s') = d_events (s_d s) /\ d_next (s_d s) <= d_next (s_d s') /\ Consistent good s'.

(** New memory beyond the old does not disturb the VMs. *)
Lemma untouched_memory good s mem n :
  Consistent good s -> 0 <= n ->
  (forall c, c < d_next (s_d s) -> lm_nodes mem !! c = lm_nodes (s_mem s) !! c) ->
  (forall c, is_Some (lm_nodes mem !! c) -> c < d_next (s_d s) + n) ->
  lm_heads mem !! VM_CONF_LIST = lm_heads (s_mem s) !! VM_CONF_LIST ->
  untouched good s (s <| s_mem := mem |> <| s_d := s_d s <| d_next := d_next (s_d s) + n |> |>).
Proof.
  intros [Hsafe Hfresh Hinj (L & HL & HV)] Hn Hold Hfr Hh. split_and!; try done; [cbn; lia |]. split; try done.
  - destruct Hsafe as [? ? ? ? Hheap]. split; try done. intros b e He. destruct (Hheap b e He) as [H1 H2]. split; [cbn; lia | done].
  - exists L. split.
    + destruct HL as (H1 & H2 & H3). split; [cbn; by rewrite Hh | split; [| done]].
      eapply seg_frame; [| exact H2]. intros x Hx. apply Hold, Hfresh. by eapply seg_in.
    + intros b e He. destruct (HV b e He) as (c & H1 & H2 & H3). exists c. split; [done | split; [| done]].
      cbn. rewrite Hold; [done | by apply Hfresh].
Qed.

(** The state after the files were loaded and searched, and what is done then. *)
Lemma search_run good fuel s a e c_old name l :
  Consistent good s -> d_heap (s_d s) !! a = Some e -> s_conf s !! a = Some c_old ->
  is_Some (lm_nodes (s_mem s) !! c_old) ->
  vc_name (VM_CONF e) = Some name -> Forall (fun ce => is_Some (vc_name (ce_conf ce))) l ->
  let base := d_next (s_d s) in
  exists r mem,
    let s1 := s <| s_mem := drop_head mem |> <| s_d := s_d s <| d_next := base + Z.of_nat (length l) |> |> in
    (forall o, search_and_replace_vm_conf nv fuel s a (Some l) o =
       match r with
       | None => Done (-1, s1) o
       | Some c => (n ← get_node (s_mem s1) c;
                    rc ← compare_vm_conf_entry nv fuel (ln_val n) (vm_ent_conf (ve_vm e));
                    if negb (rc =? 0) then s ← replace_conf s1 a c_old c; mret (0, s)
                    else mem ← free_node (s_mem s1) c; mret (0, s1 <| s_mem := mem |>)) o
       end) /\
    (forall c, c < base -> lm_nodes mem !! c = lm_nodes (s_mem s) !! c) /\
    (forall c, is_Some (lm_nodes mem !! c) -> c < base + Z.of_nat (length l)) /\
    lm_heads (drop_head mem) !! VM_CONF_LIST = lm_heads (s_mem s) !! VM_CONF_LIST /\
    match last_named name l with
    | Some ce => exists c, r = Some c /\ base <= c /\ value_at mem c = Some ce
    | None => r = None
    end.
Proof.
  intros Hs He Hc Hal Hnm Hl base. pose proof (co_fresh _ _ Hs) as Hfr.
  set (s0 := s <| s_mem := put_head (s_mem s) NEW_LIST None |>).
  destruct (link_news_run s0 l) as (mem & E1 & HN & HVal & Hold & Hfr1 & Hh);
    [split; [apply lookup_insert_eq | split; [done | constructor]] | exact Hfr |].
  set (N := rev (seqZ (d_next (s_d s0)) (Z.of_nat (length l)))) in *.
  assert (HNb : forall x, x ∈ N -> base <= x).
  { intros x. unfold N. rewrite list_elem_of_In, <- in_rev, <- list_elem_of_In, elem_of_seqZ. unfold base. cbn. lia. }
  destruct (sift_run name l mem N None Hl (proj2 (proj2 HN)) HVal) as (r & mem' & E2 & F2 & A2 & G2 & H2).
  exists r, mem'. split_and!.
  - intros o. unfold search_and_replace_vm_conf. unfold mbind at 1, C_bind at 1. rewrite (run_vm_conf_of s a e c_old) by done.
    unfold mbind at 1, C_bind at 1, conf_ptr. rewrite Hc. cbn [deref]. unfold mret at 1, C_ret at 1.
    unfold mbind at 1, C_bind at 1. fold s0. rewrite E1. unfold mbind at 1, C_bind at 1.
    change (vc_name (ce_conf (vm_ent_conf (ve_vm e)))) with (vc_name (VM_CONF e)). rewrite Hnm.
    change (d_next (s_d s)) with (d_next (s_d s0)). fold N. cbn [s_mem]. rewrite E2. by destruct r.
  - intros x Hx. rewrite F2; [by apply Hold |]. intros Hx'%HNb. lia.
  - intros x Hx. by apply Hfr1, A2.
  - cbn. rewrite lookup_delete_ne, G2, Hh by done. cbn. by rewrite lookup_insert_ne.
  - destruct (last_named name l) as [ce |]; [| done]. destruct H2 as (c & -> & Hx%HNb & Hv). by exists c.
Qed.

Lemma search_cases good fuel s a e name l :
  Consistent good s -> d_heap (s_d s) !! a = Some e -> VM_STATE e <> REMOVE ->
  vc_name (VM_CONF e) = Some name -> Forall (fun ce => is_Some (vc_name (ce_conf ce))) l ->
  match last_named name l with
  | None => exists s', (forall o, search_and_replace_vm_conf nv fuel s a (Some l) o = Done (-1, s') o) /\ untouched good s s'
  | Some ce =>
      forall rc, (forall o, compare_vm_conf_entry nv fuel ce (vm_ent_conf (ve_vm e)) o = Done rc o) ->
      if rc =? 0
      then exists s', (forall o, search_and_replace_vm_conf nv fuel s a (Some l) o = Done (0, s') o) /\ untouched good s s'
      else forall o, search_and_replace_vm_conf nv fuel s a (Some l) o = Crash UseAfterFree
  end.
Proof.
  intros Hs He Hst Hnm Hl. pose proof Hs as [_ Hfr _ (L & HL & HV)].
  destruct (HV a e He) as (c_old & Hc & Hal & [HcL | ?]); [| done].
  destruct (search_run good fuel s a e c_old name l) as (r & mem & Hrun & Hold & Hnew & Hh & Hr); try done. cbn zeta in Hrun.
  set (s1 := _ <| s_d := _ |>) in Hrun. set (base := d_next (s_d s)) in *.
  assert (HU : forall m, (forall c, lm_nodes m !! c = lm_nodes mem !! c \/ base <= c /\ lm_nodes m !! c = None) ->
             lm_heads m = lm_heads (drop_head mem) -> untouched good s (s1 <| s_mem := m |>)).
  { intros m Hm Hmh. apply (untouched_memory good s m (Z.of_nat (length l))); [done | lia | | | by rewrite Hmh].
    - intros c Hlt. destruct (Hm c) as [-> | [? _]]; [by apply Hold | unfold base in *; lia].
    - intros c Hx. destruct (Hm c) as [Em | [_ Em]]; rewrite Em in Hx; [by apply Hnew | by destruct Hx]. }
  destruct (last_named name l) as [ce |]; [| subst r; exists s1; split; [done | apply (HU (drop_head mem)); [by left | done]]].
  destruct Hr as (c & -> & Hcb & Hcv). unfold value_at in Hcv. destruct (lm_nodes mem !! c) as [n |] eqn:En; [| done].
  cbn in Hcv. injection Hcv as Hcv. intros rc Hrc. destruct (rc =? 0) eqn:Ez.
  - eexists. split.
    + intros o. rewrite Hrun. unfold mbind, C_bind. rewrite (run_get_node _ _ n) by exact En. rewrite Hcv, Hrc, Ez.
      cbn [negb]. unfold free_node, mbind, C_bind. rewrite (run_get_node _ _ n) by exact En. reflexivity.
    + apply HU; [| done]. intros x. cbn. destruct (decide (x = c)) as [-> | Nx].
      * right. split; [done | by rewrite lookup_delete_eq].
      * left. by rewrite lookup_delete_ne.
  - intros o. rewrite Hrun. unfold mbind, C_bind. rewrite (run_get_node _ _ n) by exact En. rewrite Hcv, Hrc, Ez. cbn [negb].
    assert (HLb : forall x, x ∈ L -> x < base) by (intros x Hx; apply Hfr; eapply seg_in; [apply HL | done]).
    assert (HLm : is_list (drop_head mem) VM_CONF_LIST L).
    { destruct HL as (L1 & L2 & L3). split; [by rewrite Hh | split; [| done]].
      eapply seg_frame; [| exact L2]. intros x Hx. by apply Hold, HLb. }
    destruct (list_elem_of_split _ _ HcL) as (L1 & L2 & ->).
    rewrite (replace_conf_faults s1 a e c_old c n L1 L2); try done. intros Hx%HLb. lia.
Qed.

(** What a boot does with the configuration files.  When none of them
    configures the VM, the call fails; when the last configuration of its name is
    equal to the present one, the call succeeds; both leave the VMs and their configurations as they were.
    When it differs, the daemon reads the name of the VM after it was freed. *)
Theorem search_and_replace_vm_conf_cases good fuel s a e name l :
  Consistent good s -> d_heap (s_d s) !! a = Some e -> VM_STATE e <> REMOVE ->
  vc_name (VM_CONF e) = Some name -> Forall (fun ce => is_Some (vc_name (ce_conf ce))) l ->
  match last_named name l with
  | None => exists s', (forall o, search_and_replace_vm_conf nv fuel s a (Some l) o = Done (-1, s') o) /\ untouched good s s'
  | Some ce =>
      forall rc, (forall o, compare_vm_conf_entry nv fuel ce (vm_ent_conf (ve_vm e)) o = Done rc o) ->
      if rc =? 0
      then exists s', (forall o, search_and_replace_vm_conf nv fuel s a (Some l) o = Done (0, s') o) /\ untouched good s s'
      else forall o, search_and_replace_vm_conf nv fuel s a (Some l) o = Crash UseAfterFree
  end.
Proof. apply search_cases. Qed.

(** *** A boot without changes *)

Context `{Hlaws : forall m, BackendLaws (m_name m) (ops m)} (good : vm_conf_entry NV -> Prop)
        (Hstart : forall ce, good ce -> exists m, startable ce m)
        (Hinstall : forall ce, good ce ->
           good {| ce_conf := ce_conf ce <| vc_install := true |>; ce_pl_data := ce_pl_data ce |}).

Lemma Consistent_readable s : Consistent good s -> readable s.
Proof.
  intros [Hsafe _ _ (L & _ & HV)] a Ha. destruct (sf_listed _ _ Hsafe a Ha) as [e He].
  destruct (HV a e He) as (c & Hc & Hn & _). destruct (sf_heap _ _ Hsafe a e He) as (_ & _ & Hg).
  destruct (Hstart _ Hg) as (m & [[nm Hnm] _] & _). by exists e, c, nm.
Qed.

(** The entry of a VM that is not being removed changes. *)
Lemma Consistent_daemon s a e e' d :
  Consistent good s -> d_heap (s_d s) !! a = Some e -> VM_STATE e <> REMOVE -> Safe good d ->
  d_heap d = <[a := e']> (d_heap (s_d s)) -> d_next (s_d s) <= d_next d -> Consistent good (s <| s_d := d |>).
Proof.
  intros [Hsafe Hfr Hinj (L & HL & HV)] He Hst Hd Hh Hn. split; cbn; try done; rewrite ?Hh.
  - intros c Hc. specialize (Hfr c Hc). lia.
  - intros b b' c. rewrite !(alive_insert _ a e) by done. apply Hinj.
  - exists L. split; [done |]. intros b f [[<- <-] | [_ Hb]]%lookup_insert_Some; [| by apply HV].
    destruct (HV a e He) as (c & H1 & H2 & [H3 | H3]); [| done]. exists c. auto.
Qed.

(** The events that do not belong to VMs. *)
Definition vm_event (d : daemon NV W) (ev : event) : bool :=
  match ev_data ev with Some a => bool_decide (a ∈ d_vm_list d) | None => false end.

Definition others (d : daemon NV W) : list event := List.filter (fun ev => negb (vm_event d ev)) (d_events d).

Lemma others_frame (d d' : daemon NV W) a :
  a ∈ d_vm_list d -> d_vm_list d' = d_vm_list d -> event_frame a d d' -> others d' = others d.
Proof.
  intros Ha Hl [He _]. unfold others, vm_event. rewrite Hl.
  assert (H : forall l, List.filter (fun ev => negb match ev_data ev with Some a => bool_decide (a ∈ d_vm_list d) | None => false end) l =
    List.filter (fun ev => negb match ev_data ev with Some a => bool_decide (a ∈ d_vm_list d) | None => false end) (foreign a l)).
  { induction l as [| ev l IH]; [done |]. unfold foreign, vm_entry_event in *. cbn.
    destruct (decide (ev_data ev = Some a)) as [E | E].
    - rewrite E, !bool_decide_true by done. exact IH.
    - rewrite (bool_decide_false (ev_data ev = Some a)) by done. cbn. by rewrite IH. }
  by rewrite H, He, <- H.
Qed.

(** The list of VMs and the events of everything else stay. *)
Definition vms_kept s s' : Prop :=
  Consistent good s' /\ d_vm_list (s_d s') = d_vm_list (s_d s) /\ others (s_d s') = others (s_d s) /\
  d_next (s_d s) <= d_next (s_d s').

Lemma kept_refl s : Consistent good s -> vms_kept s s.
Proof. intros Hs. split_and!; [done | done | done | lia]. Qed.

Lemma kept_trans s1 s2 s3 : vms_kept s1 s2 -> vms_kept s2 s3 -> vms_kept s1 s3.
Proof. intros (_ & H1 & H2 & H6) (H3 & H4 & H5 & H7). split_and!; [done | congruence | congruence | lia]. Qed.

Lemma start_consistent s a e :
  Consistent good s -> d_heap (s_d s) !! a = Some e -> VM_STATE e <> REMOVE ->
  wp (on_daemon s (fun d => start_virtual_machine k dv ops nmdm_offset d a))
     (fun p => vms_kept s p.2 /\ is_Some (d_heap (s_d p.2) !! a)) tolerated.
Proof.
  intros Hs He Hst. pose proof (co_safe _ _ Hs) as Hsafe. destruct (sf_heap _ _ Hsafe a e He) as (_ & _ & Hg).
  destruct (Hstart _ Hg) as [m Hm]. unfold on_daemon. apply wp_bind.
  eapply wp_mono; [apply (start_virtual_machine_step k dv ops nmdm_offset (s_d s) a e m); [apply Hsafe | done | done] | | done].
  intros [rc d'] (e' & St). apply wp_ret. cbn in St |- *. set (e0 := e <| ve_method := Some m |>) in St.
  assert (S0 : Safe good (put_entry (s_d s) a e0)) by (eapply Safe_put; [apply Hsafe | exact He | by eexists | done]).
  pose proof St as ([Hh Hv] & _ & _ & Hf). pose proof Hf as [_ Hn]. cbn in Hh, Hn. rewrite insert_insert_eq in Hh.
  split; [| rewrite Hh, lookup_insert_eq; by eexists]. split; [| split; [done | split; [| exact Hn]]].
  2: { apply (others_frame (s_d s) d' a); [by apply (sf_alive _ _ Hsafe); exists e | done | exact Hf]. }
  eapply (Consistent_daemon s a e e'); try done. eapply Safe_step; [exact S0 | apply lookup_insert_eq | exact St].
Qed.

Lemma set_install_consistent s a e :
  Consistent good s -> d_heap (s_d s) !! a = Some e -> VM_STATE e <> REMOVE ->
  wp (mark_install s a)
     (fun s' => vms_kept s s' /\ exists e', d_heap (s_d s') !! a = Some e' /\ VM_STATE e' = VM_STATE e) tolerated.
Proof.
  intros Hs He Hst. pose proof Hs as [Hsafe Hfr Hinj (L & HL & HV)].
  destruct (HV a e He) as (c & Hc & [n Hn] & _). destruct (sf_heap _ _ Hsafe a e He) as (_ & [m Hm] & Hg).
  unfold mark_install, conf_ptr. rewrite Hc. apply wp_bind, wp_ret.
  apply wp_bind, (wp_get_node _ _ _ _ _ Hn). apply wp_bind, (wp_get_entry _ _ _ _ _ He). apply wp_ret.
  set (ce := vm_ent_conf (ve_vm e)) in *.
  set (e' := e <| ve_vm := ve_vm e <| vm_ent_conf := {| ce_conf := ce_conf ce <| vc_install := true |>; ce_pl_data := ce_pl_data ce |} |> |>).
  split; [split; [| split_and!; [done | done | cbn; lia]] | exists e'; split; [apply lookup_insert_eq | done]].
  eapply (Consistent_daemon (s <| s_mem := _ |>) a e e' (put_entry (s_d s) a e')); try done.
  - split; try done.
    + intros x. cbn. intros [<- | [_ Hx]]%lookup_insert_is_Some; [by apply Hfr; rewrite Hn | by apply Hfr].
    + exists L. split.
      * destruct HL as (H1 & H2 & H3). split; [done | split; [by apply seg_value | done]].
      * intros b f Hb. destruct (HV b f Hb) as (x & H1 & H2 & H3). exists x. split; [done | split; [| done]].
        cbn. rewrite lookup_insert_is_Some. destruct (decide (c = x)); auto.
  - eapply Safe_put; [apply Hsafe | exact He | by exists m | by apply Hinstall].
Qed.

(** Where every configuration of a VM is the present one. *)
Definition files_unchanged (fuel : nat) s (l : list (vm_conf_entry NV)) : Prop :=
  forall a e nm ce, d_heap (s_d s) !! a = Some e -> vc_name (VM_CONF e) = Some nm -> last_named nm l = Some ce ->
  forall o, compare_vm_conf_entry nv fuel ce (vm_ent_conf (ve_vm e)) o = Done 0 o.

(** What reading the files gives: nothing, or the configurations in use, all with names. *)
Definition files_ok (fuel : nat) s (news : option (list (vm_conf_entry NV))) : Prop :=
  forall l, news = Some l -> files_unchanged fuel s l /\ Forall (fun ce => is_Some (vc_name (ce_conf ce))) l.

Lemma Consistent_world s w : Consistent good s -> Consistent good (s <| s_d := s_d s <| d_world := w |> |>).
Proof. intros [[] ? ? ?]. split; [split |..]; done. Qed.

Lemma on_world_kept {R} s0 s (f : W -> C (R * W)) :
  vms_kept s0 s -> (forall w, wp (f w) (fun _ => True) tolerated) -> wp (on_world s f) (fun p => vms_kept s0 p.2) tolerated.
Proof.
  intros (Hs & Hv & Ho & Hn) Hf. unfold on_world. apply wp_bind. eapply wp_mono; [apply Hf | intros [r w] _ | done].
  apply wp_ret. split; [by apply Consistent_world | done].
Qed.

Lemma get_peer_comport_any p : wp (get_peer_comport p) (fun _ => True) tolerated.
Proof.
  destruct p as [p |]; [| by apply wp_ret]. cbn. case_match; [by apply wp_ret |].
  apply wp_bind, wp_strdup; by apply wp_ret.
Qed.

Lemma open_comport_any p w : wp (open_comport cs p w) (fun _ => True) tolerated.
Proof. unfold open_comport. apply wp_bind. eapply wp_mono; [apply get_peer_comport_any | intros fn _; by apply wp_ret | done]. Qed.

Lemma comport_of_any s a :
  Consistent good s -> is_Some (d_heap (s_d s) !! a) -> wp (comport_of s a) (fun _ => True) tolerated.
Proof.
  intros [_ _ _ (L & _ & HV)] [e He]. destruct (HV a e He) as (c & Hc & [n Hn] & _). unfold comport_of.
  apply wp_bind, (wp_get_entry _ _ _ _ _ He). case_match; [by apply wp_ret |].
  apply wp_bind, (wp_vm_conf_of _ _ _ _ _ _ _ He Hc Hn). by apply wp_ret.
Qed.

Lemma boot_vm_safe fuel s a e style news :
  Consistent good s -> files_ok fuel s news ->
  d_heap (s_d s) !! a = Some e -> style = 0 \/ style = 1 ->
  wp (boot_vm k dv ops nmdm_offset nv fuel s a style news)
     (fun p => vms_kept s p.2 /\ is_Some (d_heap (s_d p.2) !! a)) tolerated.
Proof.
  intros Hs Hu He Hst. unfold boot_vm. apply wp_bind, (wp_get_entry _ _ _ _ _ He).
  destruct (decide (VM_STATE e = TERMINATE)) as [Ht | Ht].
  2: { rewrite bool_decide_false by done. destruct Hst as [-> | ->]; apply wp_ret; (split; [by split | by exists e]). }
  rewrite bool_decide_true, andb_false_r by done. destruct (Consistent_readable s Hs a) as (e' & _ & nm & He' & _ & _ & Hnm).
  { apply (sf_alive _ _ (co_safe _ _ Hs)). by exists e. }
  assert (e' = e) as -> by congruence.
  assert (Hrun : exists rc s', (forall o, search_and_replace_vm_conf nv fuel s a news o = Done (rc, s') o) /\ untouched good s s').
  { destruct news as [l |].
    2: { exists (-1), s. split; [intros o | by split_and!; try lia].
         destruct (co_list _ _ Hs) as (L & _ & HV). destruct (HV a e He) as (c & Hc & [n Hn] & _).
         unfold search_and_replace_vm_conf, conf_ptr, mbind, C_bind. rewrite (run_vm_conf_of s a e c o) by (try done; by rewrite Hn).
         by rewrite Hc. }
    destruct (Hu l eq_refl) as [Hun Hl]. pose proof (search_cases good fuel s a e nm l) as H. destruct (last_named nm l) as [ce |] eqn:El.
    - destruct (H Hs He ltac:(congruence) Hnm Hl 0) as (s' & H1 & H2); [by apply (Hun a e nm) | by exists 0, s'].
    - destruct H as (s' & H1 & H2); try done; [congruence | by exists (-1), s']. }
  destruct Hrun as (rc & s1 & H1 & (_ & Hh & Hv & Hev & Hn1 & C1)). apply wp_bind, (wp_certain _ (rc, s1)); [done |].
  assert (He1 : d_heap (s_d s1) !! a = Some e) by (by rewrite Hh).
  assert (K1 : vms_kept s s1) by (split_and!; [done | done | unfold others, vm_event; by rewrite Hv, Hev | done]).
  destruct (rc <? 0); [apply wp_ret; split; [done | by exists e] |].
  assert (negb ((style =? 0) || (style =? 1)) = false) as -> by (destruct Hst as [-> | ->]; done). apply wp_bind.
  eapply (wp_mono _ (fun s' => vms_kept s s' /\ exists e', d_heap (s_d s') !! a = Some e' /\ VM_STATE e' = VM_STATE e) _ tolerated);
    [| | done].
  - destruct (style =? 1); [| apply wp_ret; split; [done | by exists e]].
    eapply wp_mono; [apply (set_install_consistent s1 a e); [done | done | congruence] | | done].
    intros s2 (K2 & H2). split; [by eapply kept_trans | done].
  - intros s2 [K2 (e2 & He2 & St2)]. apply wp_bind.
    eapply wp_mono; [apply (start_consistent s2 a e2); [apply K2 | done | congruence] | | done].
    intros [rc2 s3] (K3 & A3). apply wp_ret. split; [by eapply kept_trans | done].
Qed.

Lemma find_vm_safe s req ucred :
  Consistent good s -> wp (find_vm nv s req ucred) (fun r => forall a, r = Some a -> is_Some (d_heap (s_d s) !! a)) tolerated.
Proof.
  intros Hs. pose proof (Consistent_readable s Hs) as Hr.
  unfold find_vm, nvlist_get_string. apply wp_bind. case_match; [apply wp_ret | by apply wp_crash, tolerated_exit].
  destruct (lookup_live_run s (d_vm_list (s_d s)) (nv_get_string nv req "name") Hr) as (r & E & _ & Hf).
  apply wp_bind, (wp_certain _ r); [done |]. destruct r as [a |]; [| by apply wp_ret].
  destruct Hf as [Ha (e & He & _)]. destruct (Hr a Ha) as (e' & c & nm & He' & Hc & [n Hn] & _).
  apply wp_bind, (wp_vm_conf_of _ _ _ _ _ _ _ He' Hc Hn), wp_ret. case_match; [| done]. intros ? [= <-]. by rewrite He.
Qed.

Lemma boot0_safe fuel s req style ucred news :
  Consistent good s -> files_ok fuel s news -> style = 0 \/ style = 1 ->
  wp (boot0_command k dv ops nmdm_offset nv cs fuel s req style ucred news) (fun p => vms_kept s p.2) tolerated.
Proof.
  intros Hs Hu Hst. unfold boot0_command. apply wp_bind.
  eapply wp_mono; [by apply find_vm_safe | intros [a |] Ha; [| by apply wp_ret] | done].
  destruct (Ha a eq_refl) as [e He]. apply wp_bind.
  eapply wp_mono; [by apply (boot_vm_safe fuel s a e style news) | intros [reason s1] [K1 A1] | done]. cbn in K1, A1.
  destruct reason as [r |]; [by apply wp_ret |]. apply wp_bind.
  eapply wp_mono; [apply comport_of_any; [apply K1 | done] | intros [p |] _; [| by apply wp_ret] | done].
  apply wp_bind. eapply wp_mono; [apply (on_world_kept s s1); [done | intros w; apply open_comport_any] | | done].
  intros [fd s2] K2. by apply wp_ret.
Qed.

(** *** The other commands *)

Lemma chown_comport_any p ucred w : wp (chown_comport cs p ucred w) (fun _ => True) tolerated.
Proof. unfold chown_comport. apply wp_bind. eapply wp_mono; [apply get_peer_comport_any | intros fn _; by apply wp_ret | done]. Qed.

Lemma showcomport_safe s req ucred :
  Consistent good s -> wp (showcomport_command nv cs s req ucred) (fun p => vms_kept s p.2) tolerated.
Proof.
  intros Hs. unfold showcomport_command. apply wp_bind.
  eapply wp_mono; [by apply find_vm_safe | intros [a |] Ha; [| by apply wp_ret] | done].
  destruct (Ha a eq_refl) as [e He]. apply wp_bind. eapply wp_mono; [apply comport_of_any; [done | by rewrite He] | intros p _ | done].
  apply wp_bind, (wp_get_entry _ _ _ _ _ He). case_match; [| by apply wp_ret].
  apply wp_bind. eapply wp_mono; [apply (on_world_kept s s); [done | intros w; apply chown_comport_any] | intros [? s1] K1 | done].
  apply wp_bind. eapply wp_mono; [apply (on_world_kept s s1); [done | intros w; apply open_comport_any] | intros [? s2] K2 | done].
  by apply wp_ret.
Qed.

Lemma showvgaport_safe s req ucred :
  Consistent good s -> wp (showvgaport_command nv s req ucred) (fun p => vms_kept s p.2) tolerated.
Proof.
  intros Hs. unfold showvgaport_command. apply wp_bind.
  eapply wp_mono; [by apply find_vm_safe | intros [a |] Ha; [| by apply wp_ret] | done].
  destruct (Ha a eq_refl) as [e He]. pose proof Hs as [Hsafe _ _ (L & _ & HV)].
  destruct (HV a e He) as (c & Hc & [n Hn] & _). destruct (sf_heap _ _ Hsafe a e He) as (_ & _ & Hg).
  destruct (Hstart _ Hg) as (m & (_ & _ & _ & _ & (f & Hf & _)) & _).
  apply wp_bind, (wp_vm_conf_of _ _ _ _ _ _ _ He Hc Hn). apply wp_bind, (wp_deref _ f); [done |]. by apply wp_ret.
Qed.

Lemma Consistent_step s a e e' d :
  Consistent good s -> d_heap (s_d s) !! a = Some e -> VM_STATE e <> REMOVE -> step (s_d s) a e e' d ->
  vms_kept s (s <| s_d := d |>).
Proof.
  intros Hs He Hst St. pose proof St as ([Hh Hl] & _ & _ & Hf). pose proof Hf as [_ Hn]. split; [| split; [exact Hl | split; [| exact Hn]]].
  2: { apply (others_frame _ _ a); [by apply (sf_alive _ _ (co_safe _ _ Hs)); exists e | done | done]. }
  eapply (Consistent_daemon s a e e'); try done. eapply Safe_step; [apply Hs | exact He | exact St].
Qed.

(** Stopping or resetting a VM is a step of its entry, or nothing. *)
Lemma vm_down_step s name how ucred :
  Consistent good s ->
  wp (vm_down_command ops (s_d s) (Some name) how ucred)
     (fun p => p.2 = s_d s \/ exists a e e', d_heap (s_d s) !! a = Some e /\ VM_STATE e <> REMOVE /\ step (s_d s) a e e' p.2) tolerated.
Proof.
  intros Hs. pose proof (Consistent_readable s Hs) as Hr. unfold vm_down_command, lookup_vm_by_name.
  destruct (lookup_live_run s (d_vm_list (s_d s)) name Hr) as (r & _ & E & Hf).
  apply wp_bind, (wp_certain _ r); [done |]. destruct r as [a |]; [| by apply wp_ret; left].
  destruct Hf as [Ha (e & He & _)]. destruct (sf_heap _ _ (co_safe _ _ Hs) a e He) as (_ & [m Hm] & _).
  apply wp_bind, (wp_get_entry _ _ _ _ _ He). case_match; [by apply wp_ret; left |].
  destruct (bool_decide (VM_STATE e = LOAD) || bool_decide (VM_STATE e = RUN)) eqn:Es; cbn [negb]; [| by apply wp_ret; left].
  assert (Hst : VM_STATE e <> REMOVE).
  { apply orb_true_iff in Es as [Es | Es]; apply bool_decide_eq_true in Es; congruence. }
  assert (Hstop : forall d1 e1, step (s_d s) a e e1 d1 ->
     wp (d ← change_state d1 a STOP; mret (None, d))
        (fun p : option string * daemon NV W => p.2 = s_d s \/
           exists a e e', d_heap (s_d s) !! a = Some e /\ VM_STATE e <> REMOVE /\ step (s_d s) a e e' p.2) tolerated).
  { intros d1 e1 S1. apply wp_bind. eapply wp_mono; [apply (change_state_step d1 a e1); by eapply step_lookup | intros d2 S2 | done].
    apply wp_ret. right. eexists a, e, _. split; [done | split; [done | by eapply step_trans]]. }
  case_match; [| case_match; [| case_match; [| by apply wp_ret; left]]].
  - apply wp_bind. eapply wp_mono; [by apply (VM_ACPI_POWEROFF_step ops _ a e m) | intros d1 S1 | done].
    apply wp_bind. eapply wp_mono; [apply (set_timer_step d1 a e); by eapply step_lookup | intros [rc d2] (e2 & S2) | done].
    apply (Hstop d2 e2). by eapply step_trans.
  - apply wp_bind. unfold VM_RESET. apply wp_bind, (wp_get_entry _ _ _ _ _ He).
    apply wp_bind, (wp_method_ops ops e m); [done |]. apply wp_bind.
    eapply wp_mono; [apply (reset_law (BackendLaws := Hlaws m.1)) | intros [rc w] _ | intros f; apply tolerated_exit].
    apply wp_ret, wp_ret. right. exists a, e, e. split; [done | split; [done | by apply step_world]].
  - apply wp_bind. eapply wp_mono; [by apply (VM_POWEROFF_step ops _ a e m) | intros d1 S1 | done]. by apply (Hstop d1 e).
Qed.

Lemma down_safe s req how ucred :
  Consistent good s -> wp (down_response ops nv s req how ucred) (fun p => vms_kept s p.2) tolerated.
Proof.
  intros Hs. unfold down_response, nvlist_get_string, on_daemon. apply wp_bind.
  case_match; [apply wp_ret | by apply wp_crash, tolerated_exit].
  apply wp_bind, wp_bind. eapply wp_mono; [by apply vm_down_step | | done].
  intros [reason d] Hd. apply wp_ret, wp_ret. cbn in Hd |- *.
  destruct Hd as [-> | (a & e & e' & He & Hst & St)]; [by destruct s | by eapply Consistent_step].
Qed.

Lemma list_safe s ucred : Consistent good s -> wp (list_command cs s ucred) (fun p => vms_kept s p.2) tolerated.
Proof.
  intros Hs. unfold list_command. apply wp_bind, (wp_certain _ (visible s ucred)).
  { intros o. by apply rows_run, Consistent_readable. }
  destruct (visible s ucred); [by apply wp_ret |]. apply wp_bind, wp_malloc. intros []; by apply wp_ret.
Qed.

Lemma command_safe fuel s req ucred news f :
  Consistent good s -> files_ok fuel s news ->
  f ∈ (command_list k dv ops nmdm_offset nv cs fuel).*2 -> wp (f s req ucred news) (fun p => vms_kept s p.2) tolerated.
Proof.
  intros Hs Hu Hf. cbn in Hf. rewrite !elem_of_cons, elem_of_nil in Hf.
  destruct_or! Hf; subst f; try done;
    try (by apply down_safe); try (by apply list_safe); try (by apply showcomport_safe); try (by apply showvgaport_safe);
    apply boot0_safe; auto.
Qed.

(** After a request only the answer in the buffer has changed. *)
Definition answered (sb : sock_buf) (p : Z * sock_buf) : Prop :=
  exists fd buf size n,
    p.2 = sb <| b_res_fd := fd |> <| b_res_buf := buf |> <| b_res_size := size |> <| b_res_bytes := n |> /\
    (p.1 = -1 \/ p.1 = 0 /\ size = Z.of_nat (length buf) /\ n = 0).

Lemma eta_res_fd (sb : sock_buf) : sb <| b_res_fd := b_res_fd sb |> = sb.
Proof. by destruct sb. Qed.

Lemma answered_same sb : answered sb (-1, sb).
Proof. exists (b_res_fd sb), (b_res_buf sb), (b_res_size sb), (b_res_bytes sb). split; [by destruct sb | by left]. Qed.

Lemma recv_error_answered nvlist_pack sb fd reason : answered sb (recv_error nvlist_pack (sb <| b_res_fd := fd |>) reason).
Proof.
  unfold recv_error, store_response. destruct (nvlist_pack _) as [bytes |]; cbn.
  - exists fd, bytes, (Z.of_nat (length bytes)), 0. split; [by destruct sb | by right].
  - exists fd, [], (b_res_size sb), (b_res_bytes sb). split; [by destruct sb | by left].
Qed.

Lemma recv_command_kept nvlist_unpack nvlist_pack fuel s sb bytes news :
  Consistent good s -> files_ok fuel s news ->
  b_buf sb = Some (Some <$> bytes) ->
  wp (recv_command k dv ops nmdm_offset nv cs nvlist_unpack nvlist_pack fuel s sb news)
     (fun p => vms_kept s p.2 /\ answered sb p.1) tolerated.
Proof.
  intros Hs Hu Hb. pose proof (kept_refl s Hs) as Hk. unfold recv_command, buf_bytes. rewrite Hb.
  apply wp_bind, wp_bind, wp_ret. rewrite mapM_fmap_Some by done. apply wp_ret.
  destruct (nvlist_unpack bytes) as [req |]; [| apply wp_ret; split; [done | apply answered_same]].
  apply wp_bind. unfold nvlist_get_string. case_match; [apply wp_ret | by apply wp_crash, tolerated_exit].
  destruct (get_command_function _ _ _ _ _ _ _ _) as [f |] eqn:Ef.
  2: { apply wp_ret. split; [done |]. rewrite <- (eta_res_fd sb) at 2. apply recv_error_answered. }
  apply wp_bind. eapply wp_mono; [apply (command_safe fuel s req (b_peer sb) news f) | | done]; try done.
  - unfold get_command_function in Ef. apply fmap_Some in Ef as ((cmd & f') & Hc & ->).
    apply bsearch_loop_sound in Hc as [Hc _]. apply list_elem_of_fmap. exists (cmd, f'). split; [done | by apply list_elem_of_In].
  - intros [res s1] K1. destruct (take_number FD_KEY res) as [r res']. apply wp_ret. split; [done |].
    unfold store_response. destruct (nvlist_pack res') as [b |]; [| apply recv_error_answered].
    exists (default (-1) r), b, (Z.of_nat (length b)), 0. split; [by destruct sb | by right].
Qed.

(** [C3] No request can corrupt the daemon.  As long as the configuration of
    every VM is the one in the files (or the files cannot be read), any sequence of bytes that a peer sends as
    a request, whoever he is and whatever it asks for, is handled without an access to freed or
    foreign memory and leaves the VMs with their configurations; it
    is answered, or nothing is (when it is no nvlist, or the answer cannot be encoded).  The
    faults that remain are those of [tolerated]: the end of the process (a request without a command or a name, or a [fork] that
    fails), an [int] that overflows (numbers of com ports and timers, and numbers of configurations that are compared), and a tap whose name cannot
    be allocated, which a boot follows through NULL.  A boot calls the backend, of which [BackendLaws] is assumed: that it returns with no fault but the
    end of the process, and does not follow a [pl_conf] that a reload has left dangling ([reload_dangles_pl_conf]).  When the files have changed,
    a boot uses freed memory. *)
Theorem recv_command_safe nvlist_unpack nvlist_pack fuel s sb bytes news :
  Consistent good s -> files_ok fuel s news ->
  b_buf sb = Some (Some <$> bytes) ->
  wp (recv_command k dv ops nmdm_offset nv cs nvlist_unpack nvlist_pack fuel s sb news)
     (fun p => Consistent good p.2 /\ d_vm_list (s_d p.2) = d_vm_list (s_d s) /\
        b_fd p.1.2 = b_fd sb /\ b_peer p.1.2 = b_peer sb /\
        (p.1.1 = -1 \/ p.1.1 = 0 /\ b_res_size p.1.2 = Z.of_nat (length (b_res_buf p.1.2)))) tolerated.
Proof.
  intros Hs Hu Hb. eapply wp_mono; [by apply (recv_command_kept nvlist_unpack nvlist_pack fuel s sb bytes news) | | done].
  intros [[rc sb'] s'] [(C1 & V1 & _) (fd & buf & size & n & E & Hr)]. cbn in *. subst sb'. split_and!; try done.
  destruct Hr as [? | (? & ? & _)]; auto.
Qed.


(** *** A request that lacks a name *)

Context (nvlist_unpack : list ascii -> option NV) (nvlist_pack : response -> option (list ascii)).

(** A request without the name of a command ends the daemon, whoever sends
    it: [nvlist_get_string] aborts the process where the code expects NULL. *)
Theorem request_without_command_aborts fuel s sb news bytes req o :
  buf_bytes sb o = Done bytes o -> nvlist_unpack bytes = Some req ->
  nv_exists_type nv req "command" NV_TYPE_STRING = false ->
  recv_command k dv ops nmdm_offset nv cs nvlist_unpack nvlist_pack fuel s sb news o = Crash ProcessExit.
Proof.
  intros Hb Hu Hx. unfold recv_command, mbind, C_bind. rewrite Hb, Hu. unfold nvlist_get_string. by rewrite Hx.
Qed.

End theorems.

(** ** A small daemon *)

(** Requests for VM "one". *)
Definition demo_requests : libnv unit := {|
  nv_next := fun _ => []; nv_error := fun _ => 0;
  nv_exists_type := fun _ key t => bool_decide (key = "name") && (t =? NV_TYPE_STRING);
  nv_get_bool := fun _ _ => false; nv_get_number := fun _ _ => 0; nv_get_string := fun _ _ => "one";
  nv_get_nvlist := fun _ _ => tt; nv_get_descriptor := fun _ _ => 0; nv_get_binary := fun _ _ => "";
  nv_get_bool_array := fun _ _ => []; nv_get_number_array := fun _ _ => []; nv_get_string_array := fun _ _ => [];
  nv_get_nvlist_array := fun _ _ => []; nv_get_descriptor_array := fun _ _ => [] |}.

(** A system where every file can be opened and has group 5. *)
Definition demo_com : com_sys Z := {|
  cs_stat := fun _ w => (Some 5, w); cs_chown := fun _ _ _ w => (true, w); cs_open := fun _ w => (w, w + 1);
  cs_flock := fun _ w => (true, w); cs_close := fun _ w => w;
  cs_getpwuid := fun uid => if uid =? 0 then Some "root" else None |}.

Definition root_peer : xucred := {| cr_uid := 0; cr_groups := [0] |}.
Definition stranger : xucred := {| cr_uid := 1001; cr_groups := [1001; 5] |}.

Lemma demo_two_readable : readable demo_two.
Proof. apply (Consistent_readable (reloadable demo_libnv 1)); [by intros ce [H _] | apply demo_two_consistent]. Qed.

(** The owner sees both VMs, another user none. *)
Example demo_list :
  (fun r => length r) <$> [visible demo_com demo_two root_peer; visible demo_com demo_two stranger] = [2; 0]%nat.
Proof. vm_compute. reflexivity. Qed.

Lemma list_command_correct_witness :
  wp (list_command demo_com demo_two root_peer)
     (fun p => p.2 = demo_two /\
        (p.1 = match visible demo_com demo_two root_peer with
               | [] => verdict None
               | l => ("vm_list", RList l) :: verdict None
               end \/
         p.1 = verdict (Some "cannot allocate memory"))) no_fault.
Proof. apply (list_command_correct demo_com demo_two root_peer demo_two_readable). Defined.

(** VM "one" with more memory. *)
Definition demo_grown : vm_conf_entry unit :=
  {| ce_conf := ce_conf (demo_vm "one") <| vc_memory := Some "2G" |>; ce_pl_data := ce_pl_data (demo_vm "one") |}.

Lemma search_and_replace_vm_conf_cases_witness :
  last_named "one" [demo_grown] = Some demo_grown /\
  forall o, search_and_replace_vm_conf demo_libnv 1 demo_two 2 (Some [demo_grown]) o = Crash UseAfterFree.
Proof.
  split; [reflexivity |].
  pose proof (search_and_replace_vm_conf_cases demo_libnv (reloadable demo_libnv 1) 1 demo_two 2) as H.
  destruct (d_heap (s_d demo_two) !! 2) as [e |] eqn:He; [| by vm_compute in He].
  specialize (H e "one" [demo_grown] demo_two_consistent eq_refl).
  vm_compute in He. injection He as <-.
  apply (H ltac:(vm_compute; congruence) ltac:(vm_compute; reflexivity) ltac:(repeat constructor; by eexists) 1).
  intros o. vm_compute. reflexivity.
Defined.

Lemma reloadable_install {NV} (nv : libnv NV) {Hnv : LibnvLaws nv} n ce :
  reloadable nv n ce -> reloadable nv n {| ce_conf := ce_conf ce <| vc_install := true |>; ce_pl_data := ce_pl_data ce |}.
Proof. intros ([m Hm] & Hr & Hp). split; [by exists m | split; [exact Hr | exact Hp]]. Qed.

Lemma reloadable_boot {NV} (nv : libnv NV) {Hnv : LibnvLaws nv} n b ce :
  reloadable nv n ce -> reloadable nv n {| ce_conf := ce_conf ce <| vc_boot := b |>; ce_pl_data := ce_pl_data ce |}.
Proof. intros ([m Hm] & Hr & Hp). split; [exists m; exact Hm | split; [exact Hr | exact Hp]]. Qed.

(** VM "one" waits for a boot. *)
Definition demo_off_vm : vm_conf_entry unit :=
  {| ce_conf := ce_conf (demo_vm "one") <| vc_boot := NO |>; ce_pl_data := ce_pl_data (demo_vm "one") |}.
Definition demo_off : server unit Z := after demo_empty [demo_off_vm].

Lemma demo_off_consistent : Consistent (reloadable demo_libnv 1) demo_off.
Proof.
  apply (demo_after_consistent [demo_off_vm]); [| vm_compute; reflexivity].
  apply Forall_cons. split; [| by apply Forall_nil]. apply (reloadable_boot demo_libnv 1 NO (demo_vm "one")), demo_reloadable.
Qed.

(** The boot starts the VM and passes the descriptor of its com port. *)
Example demo_boot :
  match boot_command demo_kernel demo_devices demo_ops 0 demo_requests demo_com 1 demo_off tt root_peer (Some [demo_off_vm]) [] with
  | Done (res, s) _ => (fst <$> res, (fun p => VM_STATE p.2) <$> map_to_list (d_heap (s_d s))) = (["error"; FD_KEY], [RUN])
  | Crash _ => False
  end.
Proof. vm_compute. reflexivity. Qed.

(** A message of one byte has arrived. *)
Definition demo_received : sock_buf := {|
  b_fd := 4; b_read_state := 1; b_buf_size := 1; b_size := htonl 1; b_read_size := 4; b_read_bytes := 1;
  b_buf := Some [Some "x"%char]; b_sent_size := 0; b_res_fd := -1; b_res_size := 0; b_res_bytes := 0; b_res_buf := [];
  b_event_time := 0; b_peer := stranger |}.

(** A request to boot VM "one". *)
Definition demo_boot_request : libnv unit := {|
  nv_next := fun _ => []; nv_error := fun _ => 0;
  nv_exists_type := fun _ key t => (bool_decide (key = "name") || bool_decide (key = "command")) && (t =? NV_TYPE_STRING);
  nv_get_bool := fun _ _ => false; nv_get_number := fun _ _ => 0;
  nv_get_string := fun _ key => if bool_decide (key = "name") then "one" else "Boot";
  nv_get_nvlist := fun _ _ => tt; nv_get_descriptor := fun _ _ => 0; nv_get_binary := fun _ _ => "";
  nv_get_bool_array := fun _ _ => []; nv_get_number_array := fun _ _ => []; nv_get_string_array := fun _ _ => [];
  nv_get_nvlist_array := fun _ _ => []; nv_get_descriptor_array := fun _ _ => [] |}.

Definition demo_pack (res : response) : option (list ascii) := Some (replicate (length res) "."%char).

Lemma demo_off_heap :
  d_heap (s_d demo_off) = {[1 := {| ve_vm := new_vm demo_off_vm; ve_method := Some ({| m_name := "bhyve" |}, PlData 0) |}]}.
Proof. vm_compute. reflexivity. Qed.

Lemma recv_command_safe_witness :
  wp (recv_command demo_kernel demo_devices demo_ops 0 demo_boot_request demo_com (fun _ => Some tt) demo_pack 1 demo_off
        demo_received (Some [demo_off_vm]))
     (fun p => Consistent (reloadable demo_libnv 1) p.2 /\ d_vm_list (s_d p.2) = d_vm_list (s_d demo_off) /\
        b_fd p.1.2 = 4 /\ b_peer p.1.2 = stranger /\
        (p.1.1 = -1 \/ p.1.1 = 0 /\ b_res_size p.1.2 = Z.of_nat (length (b_res_buf p.1.2)))) tolerated.
Proof.
  apply (recv_command_safe demo_kernel demo_devices demo_ops 0 demo_boot_request demo_com (reloadable demo_libnv 1))
    with (bytes := ["x"%char]).
  - by intros ce [H _].
  - apply reloadable_install.
  - apply demo_off_consistent.
  - intros l [= <-]. split; [| apply Forall_cons; split; [by eexists | by apply Forall_nil]].
    intros a e nm ce He Hnm Hl o. rewrite demo_off_heap in He. apply lookup_singleton_Some in He as [_ <-].
    vm_compute in Hnm. injection Hnm as <-. vm_compute in Hl. injection Hl as <-. vm_compute. reflexivity.
  - reflexivity.
Defined.

Lemma request_without_command_aborts_witness :
  recv_command demo_kernel demo_devices demo_ops 0 demo_requests demo_com (fun _ => Some tt) (fun _ => Some []) 1 demo_two
    demo_received None [] = Crash ProcessExit.
Proof.
  apply (request_without_command_aborts demo_kernel demo_devices demo_ops 0 demo_requests demo_com (fun _ => Some tt) (fun _ => Some [])
           1 demo_two demo_received None ["x"%char] tt []); reflexivity.
Defined.
