(* ===== verification/Frontend.v ===== *)
(** * Connections in the event loop (src/bmd.c 616-761, src/server.c 28-64, 84-103, 350-364)

    The daemon accepts connections of bmdctl on a socket.  Each connection has a
    [struct sock_buf] and two events, for reading and for writing, of which one
    is enabled: a request is read, the command is run, the answer is
    written.  Buffers are objects of a store, like the VMs; the addresses come
    from the same counter.

    What the kernel answers ([accept4], [recv], [sendmsg], the time, the
    credentials of the peer) are arguments; a failing [kevent] is an answer of
    the oracle.  The kernel delivers events of open descriptors only: those of a
    connection that was closed after a time-out stay on [event_list] but never occur. *)

From S2P Require Import Prelude CString Vars Conf Global MPool Plugin ParseValue Parser Load Tap Vm Network.
From S2P Require Import NvList SockBuf Daemon ConfList Reload Upkeep Command.
From Stdlib Require Import Ascii.

Local Open Scope Z_scope.

(** ** Data *)

Definition EV_ENABLE : Z := 4.
Definition EV_DISABLE : Z := 8.

(** The call-backs, after those of the signals. *)
Definition on_accept_cb : event_call_back := CbOther 2.
Definition on_recv_cb : event_call_back := CbOther 3.
Definition on_send_cb : event_call_back := CbOther 4.

Record frontend (NV W : Type) := {
  f_s : server NV W;
  f_socks : gmap Z sock_buf;
  f_list : list Z;
}.
Arguments f_s {NV W} f.
Arguments f_socks {NV W} f.
Arguments f_list {NV W} f.

#[export] Instance eta_frontend {NV W} : Eta (frontend NV W) := fun f =>
  {| f_s := f_s f; f_socks := f_socks f; f_list := f_list f |}.

#[export] Instance eta_event : Eta event := fun e =>
  {| ev_addr := ev_addr e; ev_type := ev_type e; ev_kev := ev_kev e; ev_cb := ev_cb e; ev_data := ev_data e |}.

#[export] Instance eta_kevent : Eta kevent := fun k =>
  {| k_ident := k_ident k; k_filter := k_filter k; k_flags := k_flags k; k_data := k_data k |}.

Section frontend.
Context {NV W : Type} (k : kernel W) (dv : devices NV W) (ops : vm_method -> vm_ops NV W) (nmdm_offset : Z)
        (nv : libnv NV) (cs : com_sys W)
        (nvlist_unpack : list ascii -> option NV) (nvlist_pack : response -> option (list ascii)) (fuel : nat).
Implicit Types (f : frontend NV W) (b : Z) (sb : sock_buf).

Definition get_sock f b : C sock_buf :=
  match f_socks f !! b with Some sb => mret sb | None => crash UseAfterFree end.

Definition put_sock f b sb : frontend NV W := f <| f_socks := <[b := sb]> (f_socks f) |>.

Definition on_events f (g : list event -> list event) : frontend NV W :=
  let s := f_s f in let d := s_d s in
  f <| f_s := s <| s_d := d <| d_events := g (d_events d) |> |> |>.

(** The buffer leaves [sock_list] and is freed; its descriptors are closed. *)
Definition destroy_sock_buf f b : C (frontend NV W) :=
  _ ← get_sock f b;
  mret (f <| f_socks := delete b (f_socks f) |> <| f_list := List.filter (fun x => negb (x =? b)) (f_list f) |>).

(** [stop_waiting_for(sock_buf, sb)]. *)
Definition stop_waiting_for_sock f b : frontend NV W :=
  on_events f (List.filter (fun ev => negb (vm_entry_event b ev))).

(** *** Flags *)

(** The loop: the number of events found, the last one for reading and the last one for
    writing among the first two. *)
Fixpoint find_wait_events b (l : list event) (i : Z) (r w : option Z) : Z * option Z * option Z :=
  match l with
  | [] => (i, r, w)
  | ev :: l' =>
      if vm_entry_event b ev then
        let '(i, r, w) :=
          match k_filter (ev_kev ev) with
          | EVFILT_READ => (i + 1, Some (ev_addr ev), w)
          | EVFILT_WRITE => (i + 1, r, Some (ev_addr ev))
          | _ => (i, r, w)
          end in
        if 2 <=? i then (i, r, w) else find_wait_events b l' i r w
      else find_wait_events b l' i r w
  end.

(** [ev->kev.flags = flags]. *)
Definition set_flags (addr : option Z) (flags : Z) (l : list event) : list event :=
  match addr with
  | None => l
  | Some x => (fun ev => if ev_addr ev =? x then ev <| ev_kev := ev_kev ev <| k_flags := flags |> |> else ev) <$> l
  end.

Definition set_sock_buf_wait_flags f b (recv_f send_f : Z) : C (Z * frontend NV W) :=
  let '(i, r, w) := find_wait_events b (d_events (s_d (f_s f))) 0 None None in
  if i =? 0 then mret (0, f)
  else
    ok ← malloc;
    mret (if (ok : bool) then (0, on_events f (fun l => set_flags w send_f (set_flags r recv_f l))) else (-1, f)).

(** *** Call-backs *)

Definition on_recv_sock_buf f b (now : Z) (ev : recv_event) (news : option (list (vm_conf_entry NV)))
    : C (Z * frontend NV W) :=
  sb ← get_sock f b;
  '(rc, sb) ← recv_sock_buf now sb ev;
  let f := put_sock f b sb in
  if rc =? 2 then
    '(rc, sb, s) ← recv_command k dv ops nmdm_offset nv cs nvlist_unpack nvlist_pack fuel (f_s f) sb news;
    let f := put_sock f b sb <| f_s := s |> in
    if rc =? 0 then
      '(_, f) ← set_sock_buf_wait_flags (put_sock f b (clear_sock_buf sb)) b EV_DISABLE EV_ENABLE;
      mret (0, f)
    else mret (0, f)
  else if rc =? 1 then mret (0, f)
  else f ← destroy_sock_buf (stop_waiting_for_sock f b) b; mret (0, f).

(** The bytes that went out and the descriptor are results too. *)
Definition on_send_sock_buf f b (now : Z) (ev : send_event) : C (Z * frontend NV W * list ascii * option Z) :=
  sb ← get_sock f b;
  '(rc, sb, out, fd) ← send_sock_buf now sb ev;
  let f := put_sock f b sb in
  if rc =? 2 then
    '(_, f) ← set_sock_buf_wait_flags (put_sock f b (clear_send_sock_buf sb)) b EV_ENABLE EV_DISABLE;
    mret (0, f, out, fd)
  else if rc =? 1 then mret (0, f, out, fd)
  else f ← destroy_sock_buf (stop_waiting_for_sock f b) b; mret (0, f, out, fd).

(** [EV_DISABLE] is passed as [fflags] here: writing is enabled at first. *)
Definition wait_for_sock_buf f b : C (Z * frontend NV W) :=
  sb ← get_sock f b;
  let kev flt := {| k_ident := b_fd sb; k_filter := flt; k_flags := EV_ADD; k_data := 0 |} in
  '(rc, s) ← on_daemon (f_s f)
     (register_events [(kev EVFILT_READ, on_recv_cb, Some b); (kev EVFILT_WRITE, on_send_cb, Some b)]);
  mret (if rc <? 0 then -1 else 0, f <| f_s := s |>).

(** The buffer gets the next address. *)
Definition new_sock_buf f (fd now : Z) (cred : option xucred) : C (option Z * frontend NV W) :=
  '(r, _) ← create_sock_buf [] fd now cred;
  match r with
  | None => mret (None, f)
  | Some sb =>
      let s := f_s f in let b := d_next (s_d s) in
      mret (Some b, f <| f_socks := <[b := sb]> (f_socks f) |> <| f_list := b :: f_list f |>
                      <| f_s := s <| s_d := s_d s <| d_next := b + 1 |> |> |>)
  end.

(** [conn] is the answer of [accept_command_socket]. *)
Definition on_accept_cmd_sock f (conn now : Z) (cred : option xucred) : C (Z * frontend NV W) :=
  if conn <? 0 then mret (-1, f)
  else
    '(r, f) ← new_sock_buf f conn now cred;
    match r with
    | None => mret (-1, f)
    | Some b =>
        '(rc, f) ← wait_for_sock_buf f b;
        if rc <? 0 then f ← destroy_sock_buf f b; mret (-1, f) else mret (0, f)
    end.

Definition wait_for_cmd_sock f (sock : Z) : C (Z * frontend NV W) :=
  '(rc, s) ← on_daemon (f_s f)
     (register_event0 EVENT {| k_ident := sock; k_filter := EVFILT_READ; k_flags := EV_ADD; k_data := 0 |} on_accept_cb None);
  mret (if rc <? 0 then -1 else 0, f <| f_s := s |>).

(** [close_timeout_sock_buf]: the events stay. *)
Definition overdue f (timeout now : Z) b : bool :=
  match f_socks f !! b with Some sb => b_event_time sb + timeout <=? now | None => false end.

Definition close_timeouts f (timeout now : Z) : C (frontend NV W) :=
  foreach destroy_sock_buf (List.filter (overdue f timeout now) (f_list f)) f.

End frontend.

(** ** Events of a connection *)

Definition events_of (b : Z) (l : list event) : list event := List.filter (vm_entry_event b) l.

(** The two events of a connection. *)
Definition wait_pair (w r : event) : Prop :=
  k_filter (ev_kev w) = EVFILT_WRITE /\ ev_cb w = on_send_cb /\
  k_filter (ev_kev r) = EVFILT_READ /\ ev_cb r = on_recv_cb /\ ev_addr w <> ev_addr r.

Lemma find_wait_events_of b l i r w : find_wait_events b (events_of b l) i r w = find_wait_events b l i r w.
Proof.
  revert i r w. induction l as [| ev l IH]; intros i r w; [done |]. unfold events_of in *. cbn [List.filter].
  destruct (vm_entry_event b ev) eqn:E; cbn [find_wait_events]; rewrite E; [| apply IH].
  destruct (k_filter (ev_kev ev)); cbn zeta; case_match; auto.
Qed.

Lemma find_wait_pair b l w r :
  events_of b l = [w; r] -> wait_pair w r ->
  find_wait_events b l 0 None None = (2, Some (ev_addr r), Some (ev_addr w)).
Proof.
  intros E (Hw & _ & Hr & _ & _). rewrite <- find_wait_events_of, E.
  assert (Hin : forall ev, In ev [w; r] -> vm_entry_event b ev = true).
  { intros ev Hev. rewrite <- E in Hev. apply filter_In in Hev as [_ Hev]. exact Hev. }
  pose proof (Hin w ltac:(by left)) as H1. pose proof (Hin r ltac:(by right; left)) as H2.
  cbn [find_wait_events]. rewrite H1, H2, Hw, Hr. reflexivity.
Qed.

Lemma events_of_set_flags b x fl l : events_of b (set_flags x fl l) = set_flags x fl (events_of b l).
Proof.
  destruct x as [x |]; [| done]. unfold events_of. cbn. induction l as [| ev l IH]; [done |]. cbn.
  rewrite IH. destruct (ev_addr ev =? x) eqn:E.
  - change (vm_entry_event b _) with (vm_entry_event b ev) at 1. destruct (vm_entry_event b ev); cbn; by rewrite ?E.
  - destruct (vm_entry_event b ev); cbn; by rewrite ?E.
Qed.

Lemma set_flags_pair x fl w r :
  wait_pair w r -> exists w' r', set_flags x fl [w; r] = [w'; r'] /\ wait_pair w' r' /\ ev_addr w' = ev_addr w /\ ev_addr r' = ev_addr r.
Proof.
  intros Hp. destruct x as [x |]; [| by exists w, r]. cbn. destruct (ev_addr w =? x), (ev_addr r =? x); by eexists _, _.
Qed.

(** ** Buffers *)

Lemma recv_sock_buf_cases now sb ev :
  recv_wf sb -> recv_ok sb ev ->
  wp (recv_sock_buf now sb ev)
     (fun p => p.1 = 1 /\ recv_wf p.2 /\ got p.2 = got sb ++ bytes_of ev \/
               p.1 = 2 /\ recv_wf p.2 /\ finished (got p.2) \/ p.1 = 0 \/ p.1 = -1) no_fault.
Proof.
  intros Hw Hok. destruct ev as [l | | |].
  - intros o. destruct (recv_step now sb l o False Hw Hok) as (p & o' & -> & Hp); [done |].
    destruct Hp as [(E & Hw' & Hg & _) | [(E & Hw' & Hg & Hf) | (E & _)]]; [left | right; left | auto]; [done |].
    split; [done | split; [done | by rewrite Hg]].
  - unfold recv_sock_buf. destruct (recv_window sb). apply wp_ret. auto.
  - unfold recv_sock_buf. destruct (recv_window sb). apply wp_ret. left. by rewrite app_nil_r.
  - unfold recv_sock_buf. destruct (recv_window sb). apply wp_ret. auto.
Qed.

(** A message that is complete has arrived in full. *)
Lemma finished_buf sb : recv_wf sb -> finished (got sb) -> exists bytes, b_buf sb = Some (Some <$> bytes).
Proof.
  intros Hw [H4 Hf]. pose proof (got_length sb Hw) as Hl.
  destruct Hw as [Hsz [(Hs & Hr & _) | (Hs & Hr & Hb & _ & buf & Hbuf & Hlen & Hall)]]; rewrite Hs in Hl; cbn [Z.eqb] in Hl; [lia |].
  assert (Ht : take 4 (got sb) = b_size sb).
  { unfold got. rewrite Hs. cbn [Z.eqb]. rewrite take_app_le, take_ge by lia. done. }
  rewrite Ht in Hf. rewrite take_ge in Hall by lia. rewrite Hbuf. exists (omap id buf). f_equal.
  clear -Hall. induction Hall as [| x l [y ->] Hall IH]; cbn; [done |]. by f_equal.
Qed.

(** ** The invariant *)

Section theorems.
Context {NV W : Type} (k : kernel W) (dv : devices NV W) (ops : vm_method -> vm_ops NV W) (nmdm_offset : Z)
        (nv : libnv NV) (cs : com_sys W) `{Hlaws : forall m, BackendLaws (m_name m) (ops m)}
        (nvlist_unpack : list ascii -> option NV) (nvlist_pack : response -> option (list ascii)) (fuel : nat)
        (good : vm_conf_entry NV -> Prop) (Hstart : forall ce, good ce -> exists m, startable ce m)
        (Hinstall : forall ce, good ce ->
           good {| ce_conf := ce_conf ce <| vc_install := true |>; ce_pl_data := ce_pl_data ce |}).
Implicit Types (f : frontend NV W) (b : Z) (sb : sock_buf).

Abbreviation evs f := (d_events (s_d (f_s f))).

(** The server is consistent, [sock_list] has the buffers that are allocated, each
    of them is well formed and has its two events, and no address is used twice. *)
Record FInv f : Prop := {
  fi_server : Consistent good (f_s f);
  fi_nodup : NoDup (f_list f);
  fi_dom : forall b, is_Some (f_socks f !! b) <-> b ∈ f_list f;
  fi_wf : forall b sb, f_socks f !! b = Some sb -> recv_wf sb;
  fi_vms : forall b, b ∈ f_list f -> b ∉ d_vm_list (s_d (f_s f));
  fi_fresh : forall b, b ∈ f_list f -> b < d_next (s_d (f_s f));
  fi_data : forall ev x, ev ∈ evs f -> ev_data ev = Some x -> x < d_next (s_d (f_s f));
  fi_events : forall b, b ∈ f_list f -> exists w r, events_of b (evs f) = [w; r] /\ wait_pair w r;
}.

Lemma FInv_put f b sb sb' : FInv f -> f_socks f !! b = Some sb -> recv_wf sb' -> FInv (put_sock f b sb').
Proof.
  intros [] Hb Hw. split; try done.
  - intros x. cbn. rewrite lookup_insert_is_Some, <- fi_dom0. split; [| destruct (decide (b = x)); auto].
    intros [<- | [_ ?]]; [by rewrite Hb; eexists | done].
  - intros x y. cbn. intros [[<- <-] | [_ Hx]]%lookup_insert_Some; [done | by eapply fi_wf0].
Qed.

(** The server does something that does not concern connections. *)
Lemma events_of_others b (d : daemon NV W) : (b ∉ d_vm_list d) -> events_of b (d_events d) = events_of b (others d).
Proof.
  intros Hb. unfold events_of, others. induction (d_events d) as [| ev l IH]; [done |]. cbn.
  destruct (vm_entry_event b ev) eqn:E.
  - assert (vm_event d ev = false) as ->.
    { unfold vm_event. unfold vm_entry_event in E. apply bool_decide_eq_true in E as ->. by rewrite bool_decide_false. }
    cbn. by rewrite E, IH.
  - destruct (vm_event d ev); cbn; [done | by rewrite E].
Qed.

Lemma FInv_server f s : FInv f -> vms_kept good (f_s f) s -> FInv (f <| f_s := s |>).
Proof.
  intros [] (C1 & V1 & O1 & N1). split; cbn; try done.
  - rewrite V1. exact fi_vms0.
  - intros b Hb. specialize (fi_fresh0 b Hb). lia.
  - intros ev x Hev Hx. destruct (vm_event (s_d s) ev) eqn:E.
    + unfold vm_event in E. rewrite Hx in E. apply bool_decide_eq_true in E.
      destruct (sf_listed _ _ (co_safe _ _ C1) x E) as [e He]. by apply (sf_heap _ _ (co_safe _ _ C1) x e).
    + assert (Hin : In ev (others (s_d s))) by (apply filter_In; split; [by apply list_elem_of_In | by rewrite E]).
      rewrite O1 in Hin. apply filter_In in Hin as [Hin%list_elem_of_In _]. specialize (fi_data0 ev x Hin Hx). lia.
  - intros b Hb. destruct (fi_events0 b Hb) as (w & r & E & Hp). exists w, r. split; [| done].
    rewrite <- E, !events_of_others, O1; [done | by apply fi_vms0 | rewrite V1; by apply fi_vms0].
Qed.

(** The flags of events change. *)
Lemma Consistent_events (s : server NV W) l :
  Consistent good s -> (forall ev, ev ∈ l -> exists ev0, ev0 ∈ d_events (s_d s) /\ ev_cb ev0 = ev_cb ev /\ ev_data ev0 = ev_data ev) ->
  Consistent good (s <| s_d := s_d s <| d_events := l |> |>).
Proof.
  intros [[Hevs ? ? ? ?] Hfr Hinj HL] Hl. split; [split |..]; try done.
  intros ev a Hev Hcb Hd. destruct (Hl ev Hev) as (ev0 & H0 & Ecb & Ed). apply (Hevs ev0); [done | by rewrite Ecb | by rewrite Ed].
Qed.

Lemma in_set_flags x fl l ev :
  ev ∈ set_flags x fl l -> exists ev0, ev0 ∈ l /\ ev_cb ev0 = ev_cb ev /\ ev_data ev0 = ev_data ev.
Proof.
  destruct x as [x |]; [| by exists ev]. cbn. rewrite list_elem_of_fmap. intros (ev0 & -> & H0). exists ev0. by case_match.
Qed.

Lemma FInv_flags f x y fl fl' : FInv f -> FInv (on_events f (fun l => set_flags x fl (set_flags y fl' l))).
Proof.
  intros [].
  assert (Hin : forall l ev, ev ∈ set_flags x fl (set_flags y fl' l) -> exists ev0, ev0 ∈ l /\ ev_cb ev0 = ev_cb ev /\ ev_data ev0 = ev_data ev).
  { intros l ev (ev1 & (ev0 & H0 & E1 & E2)%in_set_flags & E3 & E4)%in_set_flags. exists ev0. split; [done | split; congruence]. }
  split; try done.
  - by apply Consistent_events; [| apply Hin].
  - intros ev z (ev0 & H0 & _ & <-)%Hin. by apply fi_data0.
  - intros b Hb. destruct (fi_events0 b Hb) as (w & r & E & Hp).
    change (evs (on_events f _)) with (set_flags x fl (set_flags y fl' (evs f))). rewrite !events_of_set_flags, E.
    destruct (set_flags_pair y fl' w r Hp) as (w1 & r1 & -> & Hp1 & _).
    destruct (set_flags_pair x fl w1 r1 Hp1) as (w2 & r2 & -> & Hp2 & _). by exists w2, r2.
Qed.

Lemma set_flags_spec f b recv_f send_f :
  FInv f -> b ∈ f_list f ->
  wp (set_sock_buf_wait_flags f b recv_f send_f)
     (fun p => FInv p.2 /\ f_socks p.2 = f_socks f /\ f_list p.2 = f_list f /\
        (p.1 = 0 -> exists w r, events_of b (evs p.2) = [w; r] /\ k_flags (ev_kev r) = recv_f /\ k_flags (ev_kev w) = send_f))
     no_fault.
Proof.
  intros Hf Hb. destruct (fi_events _ Hf b Hb) as (w & r & E & Hp). unfold set_sock_buf_wait_flags.
  rewrite (find_wait_pair b _ w r E Hp). cbn [Z.eqb]. apply wp_bind, wp_malloc. intros []; apply wp_ret; [| done].
  split; [by apply FInv_flags | split; [done | split; [done |]]]. intros _.
  change (evs _) with (set_flags (Some (ev_addr w)) send_f (set_flags (Some (ev_addr r)) recv_f (evs f))).
  rewrite !events_of_set_flags, E. destruct Hp as (_ & _ & _ & _ & Hne). cbn.
  destruct (Z.eqb_spec (ev_addr w) (ev_addr r)); [done |]. rewrite Z.eqb_refl. cbn. rewrite Z.eqb_refl.
  change (ev_addr (r <| ev_kev := _ |>)) with (ev_addr r).
  destruct (Z.eqb_spec (ev_addr r) (ev_addr w)); [congruence |].
  eexists _, _. split; [reflexivity | split; reflexivity].
Qed.

(** *** Closing a connection *)

Lemma events_of_without b x l : x <> b -> events_of x (List.filter (fun ev => negb (vm_entry_event b ev)) l) = events_of x l.
Proof.
  intros Hx. unfold events_of. induction l as [| ev l IH]; [done |]. cbn. unfold vm_entry_event in *.
  destruct (decide (ev_data ev = Some b)) as [E | E].
  - rewrite (bool_decide_true (ev_data ev = Some b)) by done. cbn.
    rewrite (bool_decide_false (ev_data ev = Some x)) by congruence. exact IH.
  - rewrite (bool_decide_false (ev_data ev = Some b)) by done. cbn. rewrite IH. done.
Qed.

Lemma events_of_own b l : events_of b (List.filter (fun ev => negb (vm_entry_event b ev)) l) = [].
Proof. unfold events_of. induction l as [| ev l IH]; [done |]. cbn. destruct (vm_entry_event b ev) eqn:E; cbn; by rewrite ?E. Qed.

(** [b] is gone, the other connections stay. *)
Definition gone f b f' : Prop :=
  f_socks f' = delete b (f_socks f) /\ f_list f' = List.filter (fun x => negb (x =? b)) (f_list f) /\ f_s f' = f_s f.

Lemma destroy_spec f b : FInv f -> b ∈ f_list f -> wp (destroy_sock_buf f b) (fun f' => FInv f' /\ gone f b f') no_fault.
Proof.
  intros [] Hb. destruct (proj2 (fi_dom0 b) Hb) as [sb Hsb]. unfold destroy_sock_buf, get_sock. rewrite Hsb.
  apply wp_bind, wp_ret, wp_ret. split; [| done].
  assert (Hin : forall x, x ∈ List.filter (fun y => negb (y =? b)) (f_list f) <-> x ∈ f_list f /\ x <> b).
  { intros x. rewrite !list_elem_of_In, filter_In, negb_true_iff, Z.eqb_neq. done. }
  split; cbn; try done.
  - apply NoDup_ListNoDup, List.NoDup_filter. by apply NoDup_ListNoDup.
  - intros x. rewrite Hin, <- fi_dom0, lookup_delete_is_Some. split; intros []; auto.
  - intros x y [_ Hx]%lookup_delete_Some. by eapply fi_wf0.
  - intros x [Hx _]%Hin. by apply fi_vms0.
  - intros x [Hx _]%Hin. by apply fi_fresh0.
  - intros x [Hx _]%Hin. by apply fi_events0.
Qed.

(** The events go first; then only [b] lacks its own. *)
Lemma close_spec f b sb :
  FInv f -> b ∈ f_list f ->
  wp (destroy_sock_buf (stop_waiting_for_sock (put_sock f b sb) b) b)
     (fun f' => FInv f' /\ f_socks f' !! b = None /\ events_of b (evs f') = []) no_fault.
Proof.
  intros Hf Hb. pose proof Hf as [].
  unfold destroy_sock_buf, get_sock. change (f_socks (stop_waiting_for_sock _ b)) with (<[b := sb]> (f_socks f)).
  rewrite lookup_insert_eq, delete_insert_eq. apply wp_bind, wp_ret, wp_ret.
  set (l := List.filter (fun ev => negb (vm_entry_event b ev)) (evs f)).
  assert (Hl : forall ev, ev ∈ l -> ev ∈ evs f).
  { intros ev. unfold l. rewrite !list_elem_of_In, filter_In. tauto. }
  assert (Hin : forall x, x ∈ List.filter (fun y => negb (y =? b)) (f_list f) <-> x ∈ f_list f /\ x <> b).
  { intros x. rewrite !list_elem_of_In, filter_In, negb_true_iff, Z.eqb_neq. done. }
  split; [split; try done | split; [apply lookup_delete_eq | apply events_of_own]].
  - apply Consistent_events; [done |]. intros ev Hev. exists ev. auto.
  - apply NoDup_ListNoDup, List.NoDup_filter. by apply NoDup_ListNoDup.
  - intros x. cbn. rewrite Hin, <- fi_dom0, lookup_delete_is_Some. split; intros []; auto.
  - intros x y. cbn. intros [_ Hx]%lookup_delete_Some. by eapply fi_wf0.
  - intros x [Hx _]%Hin. by apply fi_vms0.
  - intros x [Hx _]%Hin. by apply fi_fresh0.
  - intros ev x Hev%Hl. by apply fi_data0.
  - intros x [Hx Nx]%Hin. destruct (fi_events0 x Hx) as (w & r & E & Hp). exists w, r. split; [| done].
    rewrite <- E. by apply events_of_without.
Qed.

(** *** The call-backs *)

(** What a connection has after a call-back for reading: it is closed, or it has
    got the bytes, or the request is answered. *)
Definition received f b sb (ev : recv_event) f' : Prop :=
  (f_socks f' !! b = None /\ events_of b (evs f') = []) \/
  exists sb', f_socks f' !! b = Some sb' /\
    (got sb' = got sb ++ bytes_of ev \/ finished (got sb') \/
     got sb' = [] /\ b_res_size sb' = Z.of_nat (length (b_res_buf sb'))).

Lemma recv_wf_answer sb fd buf size n :
  recv_wf sb -> recv_wf (sb <| b_res_fd := fd |> <| b_res_buf := buf |> <| b_res_size := size |> <| b_res_bytes := n |>).
Proof. done. Qed.

Lemma on_recv_spec f b sb now ev news :
  FInv f -> f_socks f !! b = Some sb -> recv_ok sb ev -> files_ok nv fuel (f_s f) news ->
  wp (on_recv_sock_buf k dv ops nmdm_offset nv cs nvlist_unpack nvlist_pack fuel f b now ev news)
     (fun p => p.1 = 0 /\ FInv p.2 /\ received f b sb ev p.2) tolerated.
Proof.
  intros Hf Hsb Hok Hu. assert (Hb : b ∈ f_list f) by (apply (fi_dom _ Hf); by rewrite Hsb).
  unfold on_recv_sock_buf, get_sock. rewrite Hsb. apply wp_bind, wp_ret, wp_bind.
  eapply wp_mono; [apply (recv_sock_buf_cases now sb ev (fi_wf _ Hf b sb Hsb) Hok) | | done].
  intros [rc sb1] Hp. cbn [fst snd] in Hp.
  destruct Hp as [(-> & Hw & Hg) | [(-> & Hw & Hfin) | Hrc]]; [cbn [Z.eqb Pos.eqb] .. |].
  - apply wp_ret. split; [done | split; [by eapply FInv_put |]]. right. exists sb1. split; [apply lookup_insert_eq | by left].
  - destruct (finished_buf sb1 Hw Hfin) as [bytes Hbytes]. apply wp_bind.
    eapply wp_mono; [by apply (recv_command_kept k dv ops nmdm_offset nv cs good Hstart Hinstall nvlist_unpack nvlist_pack fuel
                              (f_s f) sb1 bytes news (fi_server _ Hf)) | | done].
    intros [[rc sb2'] s2] [K2 (fd & buf & size & n & E2 & Hrc)]. cbn [fst snd] in Hrc, E2, K2. subst sb2'.
    set (sb2 := _ <| b_res_bytes := n |>). assert (Hw2 : recv_wf sb2) by done.
    assert (F2 : FInv (put_sock (put_sock f b sb1) b sb2 <| f_s := s2 |>)).
    { apply FInv_server; [| done]. eapply FInv_put; [by eapply FInv_put | apply lookup_insert_eq | done]. }
    destruct Hrc as [-> | (-> & Hsz & _)]; cbn [Z.eqb Pos.eqb].
    + apply wp_ret. split; [done | split; [done |]]. right. exists sb2. split; [apply lookup_insert_eq | right; by left].
    + destruct (clear_sock_buf_wf sb2) as [Hw3 Hg3]; [apply Hw |].
      apply wp_bind. eapply wp_mono; [apply (set_flags_spec _ b) | | done].
      * eapply FInv_put; [exact F2 | apply lookup_insert_eq | exact Hw3].
      * exact Hb.
      * intros [rc3 f3] (F3 & S3 & _ & _). apply wp_ret. split; [done | split; [done |]]. right. cbn in S3 |- *.
        exists (clear_sock_buf sb2). rewrite S3. split; [apply lookup_insert_eq | right; right]. split; [exact Hg3 | exact Hsz].
  - assert ((rc =? 2) = false /\ (rc =? 1) = false) as [-> ->] by (destruct Hrc as [-> | ->]; done).
    apply wp_bind. eapply wp_mono; [by apply (close_spec f b sb1) | | done].
    intros f' (F' & H1 & H2). apply wp_ret. split; [done | split; [done | by left]].
Qed.

Lemma send_keeps_recv now sb ev :
  recv_wf sb -> wp (send_sock_buf now sb ev) (fun '(_, sb', _, _) => recv_wf sb' /\ got sb' = got sb) no_fault.
Proof.
  intros Hw. unfold send_sock_buf. case_match; [by apply wp_ret |]. apply wp_bind.
  eapply (wp_mono _ (fun _ => True)); [| intros ctl _ | done].
  { case_match; [by apply wp_ret | by apply wp_malloc]. }
  case_match; [by apply wp_ret |]. destruct ev as [n | |]; [case_match | |]; by apply wp_ret.
Qed.

Lemma on_send_spec f b sb now ev :
  FInv f -> f_socks f !! b = Some sb ->
  wp (on_send_sock_buf f b now ev)
     (fun '(rc, f', _, _) => rc = 0 /\ FInv f' /\
        ((f_socks f' !! b = None /\ events_of b (evs f') = []) \/
         exists sb', f_socks f' !! b = Some sb' /\ got sb' = got sb)) no_fault.
Proof.
  intros Hf Hsb. assert (Hb : b ∈ f_list f) by (apply (fi_dom _ Hf); by rewrite Hsb).
  unfold on_send_sock_buf, get_sock. rewrite Hsb. apply wp_bind, wp_ret, wp_bind.
  eapply wp_mono; [apply (send_keeps_recv now sb ev (fi_wf _ Hf b sb Hsb)) | | done].
  intros [[[rc sb1] out] fd] [Hw Hg].
  assert (F1 : FInv (put_sock f b sb1)) by (by eapply FInv_put).
  destruct (rc =? 2); [| destruct (rc =? 1)].
  - apply wp_bind. eapply wp_mono; [apply (set_flags_spec _ b) | | done].
    + eapply FInv_put; [exact F1 | apply lookup_insert_eq | exact Hw].
    + exact Hb.
    + intros [rc3 f3] (F3 & S3 & _ & _). apply wp_ret. split; [done | split; [done |]]. right. cbn in S3 |- *.
      exists (clear_send_sock_buf sb1). rewrite S3. split; [apply lookup_insert_eq | exact Hg].
  - apply wp_ret. split; [done | split; [done |]]. right. exists sb1. split; [apply lookup_insert_eq | exact Hg].
  - apply wp_bind. eapply wp_mono; [by apply (close_spec f b sb1) | | done].
    intros f' (F' & H1 & H2). apply wp_ret. split; [done | split; [done | by left]].
Qed.

(** *** New connections and time-outs *)

Lemma events_of_fresh f b : FInv f -> b = d_next (s_d (f_s f)) -> events_of b (evs f) = [].
Proof.
  intros Hf ->. unfold events_of. pose proof (fi_data _ Hf) as Hd.
  induction (evs f) as [| ev l IH]; [done |]. cbn. unfold vm_entry_event. rewrite bool_decide_false.
  - apply IH. intros e x He. apply Hd. by right.
  - intros E. specialize (Hd ev _ ltac:(by left) E). lia.
Qed.

(** The state with the buffer and its two events. *)
Definition connected f sb : frontend NV W :=
  let b := d_next (s_d (f_s f)) in
  let kev flt := {| k_ident := b_fd sb; k_filter := flt; k_flags := EV_ADD; k_data := 0 |} in
  let r := {| ev_addr := b + 1; ev_type := EVENT; ev_kev := kev EVFILT_READ; ev_cb := on_recv_cb; ev_data := Some b |} in
  let w := {| ev_addr := b + 1 + 1; ev_type := EVENT; ev_kev := kev EVFILT_WRITE; ev_cb := on_send_cb; ev_data := Some b |} in
  f <| f_socks := <[b := sb]> (f_socks f) |> <| f_list := b :: f_list f |>
    <| f_s := f_s f <| s_d := s_d (f_s f) <| d_events := w :: r :: evs f |> <| d_next := b + 1 + 1 + 1 |> |> |>.

Lemma connected_inv f sb : FInv f -> recv_wf sb -> FInv (connected f sb).
Proof.
  intros Hf Hw. pose proof Hf as []. set (b := d_next (s_d (f_s f))).
  assert (Hfr : b ∉ f_list f) by (intros Hb%fi_fresh0; unfold b in Hb; lia).
  assert (Hbv : b ∉ d_vm_list (s_d (f_s f))).
  { intros Hb. destruct (sf_listed _ _ (co_safe _ _ fi_server0) b Hb) as [e He].
    destruct (sf_heap _ _ (co_safe _ _ fi_server0) b e He) as [Hlt _]. unfold b in Hlt. lia. }
  split.
  - destruct fi_server0 as [[Hevs ? ? ? Hheap] Hc ? ?]. split; try done.
    + split; try done.
      * intros ev a. cbn. intros [-> | [-> | Hev]%elem_of_cons]%elem_of_cons; [done | done | by apply Hevs].
      * intros a e He. destruct (Hheap a e He) as [Hlt Hr]. split; [cbn; lia | done].
    + intros c Hx. specialize (Hc c Hx). cbn. lia.
  - cbn. by apply NoDup_cons.
  - intros x. cbn. rewrite lookup_insert_is_Some, elem_of_cons, <- fi_dom0. fold b.
    destruct (decide (b = x)) as [-> | N]; [tauto |]. split; [intros [? | []]; auto | intros [-> | ?]; [done | auto]].
  - intros x y. cbn. intros [[<- <-] | [_ Hx]]%lookup_insert_Some; [done | by eapply fi_wf0].
  - intros x [-> | Hx]%elem_of_cons; [exact Hbv | by apply fi_vms0].
  - intros x [-> | Hx]%elem_of_cons; cbn; [lia | specialize (fi_fresh0 x Hx); lia].
  - intros ev x. cbn. intros [-> | [-> | Hev]%elem_of_cons]%elem_of_cons Hx.
    + injection Hx as <-. lia.
    + injection Hx as <-. lia.
    + specialize (fi_data0 ev x Hev Hx). lia.
  - intros x [-> | Hx]%elem_of_cons.
    + eexists _, _. split.
      * pose proof (events_of_fresh f _ Hf eq_refl) as E0. unfold events_of, vm_entry_event in E0 |- *. cbn.
        rewrite !bool_decide_true, E0 by done. reflexivity.
      * split_and!; try done. cbn. lia.
    + destruct (fi_events0 x Hx) as (w & r & E & Hp). exists w, r. split; [| done]. rewrite <- E.
      unfold events_of, vm_entry_event. cbn.
      rewrite !bool_decide_false by (intros Eb; injection Eb as Eb; apply Hfr; unfold b; by rewrite Eb). done.
Qed.

Lemma filter_all {A} (p : A -> bool) l : (forall x, In x l -> p x = true) -> List.filter p l = l.
Proof. intros H. induction l as [| x l IH]; [done |]. cbn. rewrite H by by left. f_equal. apply IH. intros y Hy. apply H. by right. Qed.

Lemma filter_twice {A} (p q : A -> bool) l : List.filter p (List.filter q l) = List.filter (fun x => q x && p x) l.
Proof. induction l as [| x l IH]; [done |]. cbn. destruct (q x); cbn; [destruct (p x); by rewrite IH | done]. Qed.

Lemma filter_absent (b : Z) l : (b ∉ l) -> List.filter (fun x => negb (x =? b)) l = l.
Proof.
  intros Hb. induction l as [| x l IH]; [done |]. cbn. apply not_elem_of_cons in Hb as [N Hb].
  destruct (Z.eqb_spec x b); [congruence |]. cbn. by rewrite IH.
Qed.

(** A buffer that could not be registered is freed again. *)
Lemma abandoned_inv f sb :
  FInv f -> let b := d_next (s_d (f_s f)) in
  FInv (f <| f_socks := delete b (<[b := sb]> (f_socks f)) |> <| f_list := List.filter (fun x => negb (x =? b)) (b :: f_list f) |>
          <| f_s := f_s f <| s_d := s_d (f_s f) <| d_next := b + 1 |> |> |>).
Proof.
  intros Hf b. pose proof Hf as [].
  assert (Hfr : b ∉ f_list f) by (intros Hb%fi_fresh0; unfold b in Hb; lia).
  cbn [List.filter]. rewrite Z.eqb_refl, filter_absent by done. cbn [negb].
  rewrite delete_insert_id; [| by apply eq_None_not_Some; rewrite fi_dom0].
  assert (Hu : untouched good (f_s f) (f_s f <| s_mem := s_mem (f_s f) |> <| s_d := s_d (f_s f) <| d_next := b + 1 |> |>)).
  { apply untouched_memory; try done. intros c Hc. apply (co_fresh _ _ fi_server0) in Hc. lia. }
  destruct Hu as (_ & _ & Hv & He & Hn & C1).
  assert (HF := FInv_server f (f_s f <| s_d := s_d (f_s f) <| d_next := b + 1 |> |>) Hf).
  replace (f <| f_socks := f_socks f |> <| f_list := f_list f |>) with f by (by destruct f).
  apply HF. by split_and!.
Qed.

Lemma on_accept_spec f conn now cred :
  FInv f -> wp (on_accept_cmd_sock f conn now cred) (fun p => FInv p.2) no_fault.
Proof.
  intros Hf. unfold on_accept_cmd_sock. case_match; [by apply wp_ret |].
  unfold new_sock_buf, create_sock_buf. apply wp_bind, wp_bind, wp_bind, wp_malloc.
  intros []; [| do 3 apply wp_ret; exact Hf]. apply wp_ret. set (sb := {| b_fd := conn |}). apply wp_ret. cbn zeta.
  set (b := d_next (s_d (f_s f))). set (f1 := _ <| f_s := _ |>). apply wp_bind. unfold wait_for_sock_buf, get_sock.
  assert (Hl : f_socks f1 !! b = Some sb) by apply lookup_insert_eq. rewrite Hl. apply wp_bind, wp_ret.
  assert (Hfail : wp (f' ← destroy_sock_buf f1 b; mret (-1, f')) (fun p : Z * frontend NV W => FInv p.2) no_fault).
  { unfold destroy_sock_buf, get_sock. rewrite Hl. apply wp_bind, wp_bind, wp_ret, wp_ret, wp_ret. by apply (abandoned_inv f sb). }
  unfold on_daemon, register_events. apply wp_bind, wp_bind, wp_bind.
  eapply wp_mono; [apply (malloc_all_any _ no_fault) | intros [] _ | done]; cbn [negb]; [| do 3 apply wp_ret; exact Hfail].
  apply wp_bind, wp_malloc. intros []; do 3 apply wp_ret; [| exact Hfail].
  apply wp_ret, (connected_inv f sb Hf). split; [done | left; cbn; lia].
Qed.

Lemma destroy_all f l :
  FInv f -> NoDup l -> (forall b, b ∈ l -> b ∈ f_list f) ->
  wp (foreach destroy_sock_buf l f)
     (fun f' => FInv f' /\ f_list f' = List.filter (fun b => negb (bool_decide (b ∈ l))) (f_list f) /\
                (forall b, b ∈ f_list f' -> f_socks f' !! b = f_socks f !! b)) no_fault.
Proof.
  revert f. induction l as [| b l IH]; intros f Hf Hnd Hl.
  - apply wp_ret. split; [done |]. split; [| done]. symmetry. apply filter_all. intros x _. rewrite bool_decide_false; [done | apply not_elem_of_nil].
  - apply NoDup_cons in Hnd as [Hb Hnd]. cbn. apply wp_bind.
    eapply wp_mono; [apply (destroy_spec f b Hf); apply Hl; by left | intros f1 (F1 & S1 & L1 & _) | done].
    eapply wp_mono; [apply (IH f1 F1 Hnd) | | done].
    + intros x Hx. rewrite L1. apply list_elem_of_In, filter_In. split; [apply list_elem_of_In, Hl; by right |].
      apply negb_true_iff, Z.eqb_neq. by intros ->.
    + intros f2 (F2 & L2 & S2). split; [done |]. rewrite L1 in L2. split.
      * rewrite L2, filter_twice. apply filter_ext. intros x.
        destruct (Z.eqb_spec x b) as [-> | N]; cbn; [by rewrite bool_decide_true by by left |].
        f_equal. apply bool_decide_ext. rewrite elem_of_cons. tauto.
      * intros x Hx. rewrite S2 by done. rewrite S1. apply lookup_delete_ne. intros <-. rewrite L2 in Hx.
        apply list_elem_of_In, filter_In in Hx as [Hx _]. apply filter_In in Hx as [_ Hx]. by rewrite Z.eqb_refl in Hx.
Qed.

Lemma close_timeouts_spec f timeout now :
  FInv f ->
  wp (close_timeouts f timeout now)
     (fun f' => FInv f' /\ f_list f' = List.filter (fun b => negb (overdue f timeout now b)) (f_list f) /\
        forall b, b ∈ f_list f' -> f_socks f' !! b = f_socks f !! b /\ overdue f' timeout now b = false) no_fault.
Proof.
  intros Hf. unfold close_timeouts. set (l := List.filter (overdue f timeout now) (f_list f)).
  assert (Hin : forall b, b ∈ l <-> b ∈ f_list f /\ overdue f timeout now b = true).
  { intros b. unfold l. rewrite !list_elem_of_In, filter_In. done. }
  eapply wp_mono; [apply (destroy_all f l Hf) | | done].
  - unfold l. apply NoDup_ListNoDup, List.NoDup_filter, NoDup_ListNoDup, Hf.
  - intros b Hb%Hin. tauto.
  - intros f' (F' & L' & S'). split; [done |].
    assert (HL : f_list f' = List.filter (fun b => negb (overdue f timeout now b)) (f_list f)).
    { rewrite L'. apply filter_ext_in. intros b Hb%list_elem_of_In. f_equal.
      destruct (overdue f timeout now b) eqn:E; [apply bool_decide_eq_true | apply bool_decide_eq_false]; rewrite Hin; [done |].
      intros [_ ?]. congruence. }
    split; [done |]. intros b Hb. split; [by apply S' |]. unfold overdue. rewrite S' by done.
    rewrite HL in Hb. apply list_elem_of_In, filter_In in Hb as [_ Hb]. by apply negb_true_iff.
Qed.

(** After a wait without events exactly the connections that have been idle for
    the time limit are closed: the others keep their place and their state, and
    none that is left is overdue. *)
Theorem close_timeouts_correct f timeout now :
  FInv f ->
  wp (close_timeouts f timeout now)
     (fun f' => FInv f' /\ f_list f' = List.filter (fun b => negb (overdue f timeout now b)) (f_list f) /\
        forall b, b ∈ f_list f' -> f_socks f' !! b = f_socks f !! b /\ overdue f' timeout now b = false) no_fault.
Proof. apply close_timeouts_spec. Qed.

(** What the loop does for connections. *)
Inductive fop :=
  | OpAccept (conn now : Z) (cred : option xucred)
  | OpRecv (b now : Z) (ev : recv_event) (news : option (list (vm_conf_entry NV)))
  | OpSend (b now : Z) (ev : send_event)
  | OpTimeout (timeout now : Z).

Definition run_op f (op : fop) : C (frontend NV W) :=
  match op with
  | OpAccept conn now cred => '(_, f) ← on_accept_cmd_sock f conn now cred; mret f
  | OpRecv b now ev news =>
      '(_, f) ← on_recv_sock_buf k dv ops nmdm_offset nv cs nvlist_unpack nvlist_pack fuel f b now ev news; mret f
  | OpSend b now ev => '(_, f, _, _) ← on_send_sock_buf f b now ev; mret f
  | OpTimeout timeout now => close_timeouts f timeout now
  end.

(** An event is for an open connection, delivers no more than was asked for, and
    the files have the configurations in use or cannot be read. *)
Definition op_ok f (op : fop) : Prop :=
  match op with
  | OpAccept _ _ _ | OpTimeout _ _ => True
  | OpRecv b _ ev news =>
      (exists sb, f_socks f !! b = Some sb /\ recv_ok sb ev) /\ files_ok nv fuel (f_s f) news
  | OpSend b _ _ => is_Some (f_socks f !! b)
  end.

Lemma run_op_inv f op : FInv f -> op_ok f op -> wp (run_op f op) FInv tolerated.
Proof.
  intros Hf Hop. destruct op as [conn now cred | b now ev news | b now ev | timeout now]; cbn.
  - apply wp_bind. eapply wp_mono; [by apply on_accept_spec | intros [rc f'] F'; by apply wp_ret | done].
  - destruct Hop as ([sb [Hsb Hok]] & Hu). apply wp_bind.
    eapply wp_mono; [by apply (on_recv_spec f b sb now ev news) | intros [rc f'] (_ & F' & _); by apply wp_ret | done].
  - destruct Hop as [sb Hsb]. apply wp_bind.
    eapply wp_mono; [by apply (on_send_spec f b sb now ev) | intros [[[rc f'] out] fd] (_ & F' & _); by apply wp_ret | done].
  - eapply wp_mono; [by apply close_timeouts_spec | by intros f' [F' _] | done].
Qed.

(** The connections stay in order through any operation of the event loop
    that concerns them: a new connection, bytes that arrive (with the whole command
    when a request is complete), an answer that goes out, a time-out.  No buffer is used
    after it was freed, every open connection keeps exactly its two events and a buffer that is well formed,
    and the VMs keep their configurations. *)
Theorem connections_safe f op : FInv f -> op_ok f op -> wp (run_op f op) FInv tolerated.
Proof. apply run_op_inv. Qed.

(** A call-back for reading leaves the connection in one of these ways: it is
    closed and has no events any more, it has exactly the bytes that arrived behind
    those it had, its request is complete but could not be answered, or its answer is stored in full and it
    is ready for the next request. *)
Theorem on_recv_sock_buf_correct f b sb now ev news :
  FInv f -> f_socks f !! b = Some sb -> recv_ok sb ev -> files_ok nv fuel (f_s f) news ->
  wp (on_recv_sock_buf k dv ops nmdm_offset nv cs nvlist_unpack nvlist_pack fuel f b now ev news)
     (fun p => p.1 = 0 /\ FInv p.2 /\ received f b sb ev p.2) tolerated.
Proof. apply on_recv_spec. Qed.

End theorems.

(** ** A small daemon *)

Definition demo_idle : frontend unit Z := {| f_s := demo_off; f_socks := ∅; f_list := [] |}.

Lemma demo_idle_inv : FInv (reloadable demo_libnv 1) demo_idle.
Proof.
  assert (He : d_events (s_d (f_s demo_idle)) = []) by (vm_compute; reflexivity).
  split.
  - apply demo_off_consistent.
  - constructor.
  - intros b. cbn. rewrite lookup_empty, elem_of_nil. split; [by intros [] | done].
  - intros b sb Hb. cbn in Hb. by rewrite lookup_empty in Hb.
  - intros b Hb. by apply elem_of_nil in Hb.
  - intros b Hb. by apply elem_of_nil in Hb.
  - intros ev x Hev. rewrite He in Hev. by apply elem_of_nil in Hev.
  - intros b Hb. by apply elem_of_nil in Hb.
Qed.

(** Root has connected. *)
Definition demo_connected : frontend unit Z :=
  match on_accept_cmd_sock demo_idle 7 1000 (Some root_peer) [] with Done (_, f) _ => f | Crash _ => demo_idle end.

Lemma demo_connected_inv : FInv (reloadable demo_libnv 1) demo_connected.
Proof.
  pose proof (on_accept_spec (reloadable demo_libnv 1) demo_idle 7 1000 (Some root_peer) demo_idle_inv []) as H.
  unfold demo_connected. destruct (on_accept_cmd_sock demo_idle 7 1000 (Some root_peer) []) as [[rc f] o |] eqn:E; [exact H |].
  vm_compute in E. discriminate E.
Qed.

Lemma demo_unchanged : files_unchanged demo_boot_request 1 (f_s demo_connected) [demo_off_vm].
Proof.
  assert (E : d_heap (s_d (f_s demo_connected)) = d_heap (s_d demo_off)) by (vm_compute; reflexivity).
  intros a e nm ce He Hnm Hl o. rewrite E, demo_off_heap in He. apply lookup_singleton_Some in He as [_ <-].
  vm_compute in Hnm. injection Hnm as <-. vm_compute in Hl. injection Hl as <-. vm_compute. reflexivity.
Qed.

(** The length of a request arrives. *)
Lemma connections_safe_witness :
  wp (run_op demo_kernel demo_devices demo_ops 0 demo_boot_request demo_com (fun _ => Some tt) demo_pack 1
        demo_connected (OpRecv 2 1001 (RBytes (htonl 1)) (Some [demo_off_vm]))) (FInv (reloadable demo_libnv 1)) tolerated.
Proof.
  apply (connections_safe demo_kernel demo_devices demo_ops 0 demo_boot_request demo_com (fun _ => Some tt) demo_pack 1
           (reloadable demo_libnv 1)).
  - by intros ce [H _].
  - apply reloadable_install.
  - apply demo_connected_inv.
  - split; [| intros l [= <-]; split; [apply demo_unchanged | apply Forall_cons; split; [by eexists | by apply Forall_nil]]].
    eexists. split; [vm_compute; reflexivity |]. cbn. lia.
Defined.

Lemma close_timeouts_correct_witness :
  wp (close_timeouts demo_connected 5 1005)
     (fun f' => FInv (reloadable demo_libnv 1) f' /\
        f_list f' = List.filter (fun b => negb (overdue demo_connected 5 1005 b)) (f_list demo_connected) /\
        forall b, b ∈ f_list f' -> f_socks f' !! b = f_socks demo_connected !! b /\ overdue f' 5 1005 b = false) no_fault.
Proof. apply (close_timeouts_correct (reloadable demo_libnv 1) demo_connected 5 1005 demo_connected_inv). Defined.

(** A request in two pieces and its answer: the VM runs, nothing is left to send. *)
Example demo_session :
  let run op f := run_op demo_kernel demo_devices demo_ops 0 demo_boot_request demo_com (fun _ => Some tt) demo_pack 1 f op in
  match (f ← run (OpRecv 2 1001 (RBytes (htonl 1)) (Some [demo_off_vm])) demo_connected;
         f ← run (OpRecv 2 1002 (RBytes ["x"%char]) (Some [demo_off_vm])) f;
         f ← run (OpSend 2 1003 (SSent 5)) f;
         run (OpSend 2 1004 SAgain) f) [] with
  | Done f _ => ((fun p => VM_STATE p.2) <$> map_to_list (d_heap (s_d (f_s f))),
                 (fun p => b_res_size p.2) <$> map_to_list (f_socks f)) = ([RUN], [0])
  | Crash _ => False
  end.
Proof. vm_compute. reflexivity. Qed.
