(* ===== verification/Console.v ===== *)
(** * The console of a VM (src/console.c)

    [bmdctl console] connects the terminal with the com port of a VM.  One
    process copies the keyboard to the port ([console_in]): a tilde is an
    escape character, with which the user leaves or suspends the program.  A
    second process copies what the VM writes to the terminal ([console_out]).

    What is typed is a list, in which a signal may arrive at any place; its end is
    the end of file.  The answers of [write] and [read] are lists too; a list of
    answers of [write] that is exhausted lets every call succeed.  The actions
    of the program are recorded in their order.  The attributes of a terminal
    are the flag words and control characters of <termios.h>; what is not a
    terminal has none. *)

From S2P Require Import Prelude CString.
From Stdlib Require Import Ascii.

Local Open Scope Z_scope.

(** ** Terminals *)

Record termios := {
  c_iflag : Z;
  c_oflag : Z;
  c_cflag : Z;
  c_lflag : Z;
  c_cc : list Z;
  c_speed : Z;
}.

#[export] Instance eta_termios : Eta termios := fun t =>
  {| c_iflag := c_iflag t; c_oflag := c_oflag t; c_cflag := c_cflag t; c_lflag := c_lflag t;
     c_cc := c_cc t; c_speed := c_speed t |}.

(** The flags of FreeBSD. *)
Definition INPCK : Z := 0x10.
Definition ISTRIP : Z := 0x20.
Definition ICRNL : Z := 0x100.
Definition OPOST : Z := 0x1.
Definition CSIZE : Z := 0x300.
Definition CS8 : Z := 0x300.
Definition PARENB : Z := 0x1000.
Definition CLOCAL : Z := 0x8000.
Definition ECHO : Z := 0x8.
Definition ISIG : Z := 0x80.
Definition ICANON : Z := 0x100.
Definition IEXTEN : Z := 0x400.

(** The indices of the control characters. *)
Definition VINTR : nat := 8.
Definition VQUIT : nat := 9.
Definition VSUSP : nat := 10.
Definition VDSUSP : nat := 11.
Definition VLNEXT : nat := 14.
Definition VDISCARD : nat := 15.
Definition VMIN : nat := 16.
Definition VTIME : nat := 17.
Definition POSIX_VDISABLE : Z := 0xff.

(** A static [struct termios]. *)
Definition zero_termios : termios :=
  {| c_iflag := 0; c_oflag := 0; c_cflag := 0; c_lflag := 0; c_cc := replicate 20 0; c_speed := 0 |}.

(** [x &= ~(f1 | ...)] and [x |= f]. *)
Definition clear_flags (x : Z) (fs : list Z) : Z := Z.ldiff x (foldr Z.lor 0 fs).

Definition set_cc (i : nat) (v : Z) (t : termios) : termios := t <| c_cc := <[i := v]> (c_cc t) |>.

(** The attributes of the com port; [None] when [tcgetattr] fails, and [ok] is the
    answer of [tcsetattr]. *)
Definition ttysetup (port : option termios) (speed : Z) (ok : bool) : Z * option termios :=
  match port with
  | None => (-1, None)
  | Some t =>
      let t := t <| c_speed := speed |> in
      let t := t <| c_cflag := Z.lor (Z.lor (clear_flags (c_cflag t) [CSIZE; PARENB]) CS8) CLOCAL |> in
      let t := t <| c_iflag := clear_flags (c_iflag t) [ISTRIP; ICRNL] |> in
      let t := t <| c_oflag := clear_flags (c_oflag t) [OPOST] |> in
      let t := t <| c_lflag := clear_flags (c_lflag t) [ICANON; ISIG; IEXTEN; ECHO] |> in
      let t := set_cc VTIME 0 (set_cc VMIN 1 t) in
      if ok then (0, Some t) else (-1, port)
  end.

(** What [attach_console] makes of the attributes of the user's terminal. *)
Definition raw_term (t : termios) : termios :=
  let t := t <| c_lflag := clear_flags (c_lflag t) [ICANON; IEXTEN; ECHO] |> in
  let t := t <| c_iflag := clear_flags (c_iflag t) [INPCK; ICRNL] |> in
  let t := t <| c_oflag := clear_flags (c_oflag t) [OPOST] |> in
  let t := set_cc VTIME 0 (set_cc VMIN 1 t) in
  foldr (fun i => set_cc i POSIX_VDISABLE) t [VINTR; VQUIT; VSUSP; VDSUSP; VDISCARD; VLNEXT].

(** ** The program *)

Inductive input := Typed (c : ascii) | Signal.

(** One byte was written, none was, the call was interrupted, it failed. *)
Inductive write_answer := Wrote | WroteNone | Interrupted | WriteFails.

(** A byte for the VM, and a suspension, of this process only or of its group,
    with the attributes that the terminal has meanwhile. *)
Inductive action := Put (c : ascii) | Suspended (local_only : bool) (tty : option termios).

Record console := {
  c_stop : Z;
  c_in : list input;
  c_ws : list write_answer;
  c_acts : list action;
  c_tty : option termios;
  c_defterm : termios;
  c_term : termios;
}.

#[export] Instance eta_console : Eta console := fun c =>
  {| c_stop := c_stop c; c_in := c_in c; c_ws := c_ws c; c_acts := c_acts c; c_tty := c_tty c;
     c_defterm := c_defterm c; c_term := c_term c |}.

Implicit Types (c : console).

Definition act (a : action) c : console := c <| c_acts := c_acts c ++ [a] |>.

Definition sighandler_stop c : console := c <| c_stop := c_stop c + 1 |>.

(** [None] is EOF. *)
Fixpoint getchar_from (l : list input) c : option ascii * console :=
  match l with
  | [] => (None, c <| c_in := [] |>)
  | Typed x :: l' => (Some x, c <| c_in := l' |>)
  | Signal :: l' => getchar_from l' (sighandler_stop c)
  end.

Definition getchar c : option ascii * console := getchar_from (c_in c) c.

(** The calls of [write] until one is not interrupted, or the program is to stop. *)
Fixpoint write_byte (stop : Z) (ws : list write_answer) : Z * list write_answer :=
  match ws with
  | [] => (1, [])
  | Wrote :: ws' => (1, ws')
  | WroteNone :: ws' => (0, ws')
  | WriteFails :: ws' => (-1, ws')
  | Interrupted :: ws' => if stop =? 0 then write_byte stop ws' else (-1, ws')
  end.

Definition put_char c (x : ascii) : Z * console :=
  let '(n, ws) := write_byte (c_stop c) (c_ws c) in
  let c := c <| c_ws := ws |> in
  (n, if 0 <? n then act (Put x) c else c).

Definition tcsetattr0 (t : termios) c : console :=
  c <| c_tty := match c_tty c with Some _ => Some t | None => None end |>.

Definition suspend c (local_only : bool) : console :=
  let c := tcsetattr0 (c_defterm c) c in
  let c := act (Suspended local_only (c_tty c)) c in
  tcsetattr0 (c_term c) c.

Definition TILDE : ascii := "~".
Definition CTRL_D : ascii := ascii_of_nat 4.
Definition CTRL_Y : ascii := ascii_of_nat 25.
Definition CTRL_Z : ascii := ascii_of_nat 26.

(** The character EOF as a [char]. *)
Definition char_of (x : option ascii) : ascii := match x with Some y => y | None => ascii_of_nat 255 end.

(** The loop; false when it is not finished.  After a tilde that cannot be sent
    the function returns, as it does after a tilde and a full stop. *)
Fixpoint console_in (fuel : nat) c : bool * console :=
  match fuel with
  | O => (false, c)
  | S fuel' =>
      match getchar c with
      | (None, c) => (true, c)
      | (Some x, c) =>
          if negb (c_stop c =? 0) then (true, c)
          else if Ascii.eqb x TILDE then
            let '(y, c) := getchar c in
            if bool_decide (y = Some "."%char) || bool_decide (y = Some CTRL_D) then (true, c)
            else if bool_decide (y = Some CTRL_Y) then console_in fuel' (suspend c true)
            else if bool_decide (y = Some CTRL_Z) then console_in fuel' (suspend c false)
            else if bool_decide (y = Some TILDE) then
              let '(n, c) := put_char c TILDE in
              if n <=? 0 then (true, c) else console_in fuel' c
            else
              let '(n, c) := put_char c TILDE in
              if n <=? 0 then (true, c)
              else
                let '(n, c) := put_char c (char_of y) in
                if n <=? 0 then (true, c) else console_in fuel' c
          else
            let '(n, c) := put_char c x in
            if n <=? 0 then (true, c) else console_in fuel' c
      end
  end.

(** *** From the VM to the terminal *)

(** [read] of up to 1024 bytes; its exhausted list is the end of file. *)
Inductive read_answer := Data (l : list ascii) | ReadInterrupted | ReadFails.

Inductive out_answer := OutWrote (n : nat) | OutInterrupted | OutFails.

(** The inner loop: whether all of the buffer was written, and what was. *)
Fixpoint write_buf (ws : list out_answer) (buf : list ascii) : bool * list ascii * list out_answer :=
  match ws with
  | [] => (true, buf, [])
  | OutInterrupted :: ws' => write_buf ws' buf
  | OutFails :: ws' => (false, [], ws')
  | OutWrote n :: ws' =>
      match take n buf, drop n buf with
      | [], _ => (false, [], ws')
      | l, [] => (true, l, ws')
      | l, rest => let '(ok, l', ws') := write_buf ws' rest in (ok, l ++ l', ws')
      end
  end.

(** The bytes that reach the terminal before the process ends. *)
Fixpoint console_out (rs : list read_answer) (ws : list out_answer) : list ascii :=
  match rs with
  | [] | ReadFails :: _ | Data [] :: _ => []
  | ReadInterrupted :: rs' => console_out rs' ws
  | Data l :: rs' =>
      let '(ok, out, ws) := write_buf ws l in
      if (ok : bool) then out ++ console_out rs' ws else out
  end.

(** The parent: [port] are the attributes of the com port. *)
Definition attach_console (fuel : nat) (port : option termios) (ok fork_ok : bool) c
    : Z * option termios * console :=
  let '(rc, port) := ttysetup port 115200 ok in
  if rc <? 0 then (-1, port, c)
  else
    let c := c <| c_defterm := default (c_defterm c) (c_tty c) |> in
    let c := c <| c_term := raw_term (c_defterm c) |> in
    let c := tcsetattr0 (c_term c) c in
    if fork_ok then (0, port, (console_in fuel c).2) else (-1, port, c).

(** ** What is typed and what is sent *)

(** The keys a user can press: a character, a tilde (typed twice), a tilde with
    another character, and the two ways to suspend the program. *)
Inductive key := KChar (x : ascii) | KTilde | KOther (x : ascii) | KSuspend (local_only : bool).

Definition special (x : ascii) : bool :=
  bool_decide (x ∈ ["."%char; CTRL_D; CTRL_Y; CTRL_Z; TILDE]).

Definition key_ok (k : key) : bool :=
  match k with
  | KChar x => negb (Ascii.eqb x TILDE)
  | KOther x => negb (special x)
  | KTilde | KSuspend _ => true
  end.

Definition typed (k : key) : list ascii :=
  match k with
  | KChar x => [x]
  | KTilde => [TILDE; TILDE]
  | KOther x => [TILDE; x]
  | KSuspend l => [TILDE; if l then CTRL_Y else CTRL_Z]
  end.

Definition meaning (deftty : option termios) (k : key) : list action :=
  match k with
  | KChar x => [Put x]
  | KTilde => [Put TILDE]
  | KOther x => [Put TILDE; Put x]
  | KSuspend l => [Suspended l deftty]
  end.

(** The keys for a text. *)
Definition keys_of (t : list ascii) : list key := (fun x => if Ascii.eqb x TILDE then KTilde else KChar x) <$> t.

(** A write that is not refused. *)
Definition delivers (w : write_answer) : Prop := w = Wrote \/ w = Interrupted.

(** The console between two keys: no signal, all writes deliver. *)
Definition ready c : Prop := c_stop c = 0 /\ Forall delivers (c_ws c).

Definition at_input (l : list ascii) (rest : list input) c : Prop := c_in c = (Typed <$> l) ++ rest.

(** The attributes while the program is suspended. *)
Definition default_tty c : option termios := match c_tty c with Some _ => Some (c_defterm c) | None => None end.

Definition in_raw c : Prop := c_tty c = None \/ c_tty c = Some (c_term c).

(** [c'] is [c] after the actions [l], with [i] left to read. *)
Record after_acts c (l : list action) (i : list input) c' : Prop := {
  aa_stop : c_stop c' = c_stop c;
  aa_in : c_in c' = i;
  aa_ws : Forall delivers (c_ws c) -> Forall delivers (c_ws c');
  aa_acts : c_acts c' = c_acts c ++ l;
  aa_tty : in_raw c -> c_tty c' = c_tty c;
  aa_terms : c_defterm c' = c_defterm c /\ c_term c' = c_term c;
}.

Lemma after_trans c1 l1 i1 c2 l2 i2 c3 :
  in_raw c1 -> after_acts c1 l1 i1 c2 -> after_acts c2 l2 i2 c3 -> after_acts c1 (l1 ++ l2) i2 c3.
Proof.
  intros Hr [S1 I1 W1 A1 T1 [D1 M1]] [S2 I2 W2 A2 T2 [D2 M2]].
  assert (in_raw c2) as Hr2 by (unfold in_raw; rewrite M1, T1; done).
  split; [by rewrite S2 | done | auto | by rewrite A2, A1, app_assoc | intros _; by rewrite T2, T1 | by rewrite D2, M2].
Qed.

Lemma write_delivers ws : Forall delivers ws -> exists ws', write_byte 0 ws = (1, ws') /\ Forall delivers ws'.
Proof.
  induction 1 as [| w ws [-> | ->] Hws IH]; cbn; [by exists [] | by exists ws | exact IH].
Qed.

Lemma put_char_delivers c x :
  c_stop c = 0 -> Forall delivers (c_ws c) ->
  exists ws', put_char c x = (1, act (Put x) (c <| c_ws := ws' |>)) /\ Forall delivers ws'.
Proof. unfold put_char. intros -> Hw. destruct (write_delivers _ Hw) as (ws' & -> & Hw'). by exists ws'. Qed.

#[local] Arguments put_char : simpl never.

Ltac deliver ws Hw :=
  match goal with
  | |- context [put_char ?c ?x] =>
      destruct (put_char_delivers c x) as (ws & -> & Hw); [done | done | cbn [Z.leb Z.compare]]
  end.

(** One key, one round of the loop. *)
Lemma console_in_key fuel c k more rest :
  ready c -> in_raw c -> key_ok k = true -> at_input (typed k ++ more) rest c ->
  exists c', console_in (S fuel) c = console_in fuel c' /\ after_acts c (meaning (default_tty c) k) ((Typed <$> more) ++ rest) c'.
Proof.
  destruct c as [stop ii ws acts tty def term]. intros [Hs Hw] Hr Hk Hi.
  unfold at_input, default_tty, in_raw in *. cbn in Hs, Hw, Hr, Hi |- *. subst stop ii.
  destruct k as [x | | x | l]; cbn [typed app fmap list_fmap]; cbn.
  - cbn in Hk. apply negb_true_iff in Hk. rewrite Hk. cbn.
    deliver ws' Hw'. eexists. split; [reflexivity | by split].
  - deliver ws' Hw'. eexists. split; [reflexivity | by split].
  - cbn in Hk. unfold special in Hk. apply negb_true_iff, bool_decide_eq_false in Hk.
    repeat rewrite bool_decide_false by (intros [=->]; apply Hk; rewrite !elem_of_cons; tauto).
    cbn. deliver ws1 Hw1. deliver ws2 Hw2.
    eexists. split; [reflexivity | split; try done]. cbn. by rewrite <- app_assoc.
  - destruct l; cbn; (eexists; split; [reflexivity |]); (split; try done);
      intros [E | E]; cbn in E |- *; by subst tty.
Qed.

Lemma console_in_keys_spec ks leave rest : forall c fuel,
  ready c -> in_raw c -> forallb key_ok ks = true -> leave ∈ ["."%char; CTRL_D] ->
  at_input (concat (typed <$> ks) ++ [TILDE; leave]) rest c -> (length ks < fuel)%nat ->
  exists c', console_in fuel c = (true, c') /\ after_acts c (concat (meaning (default_tty c) <$> ks)) rest c'.
Proof.
  induction ks as [| k ks IH]; intros c fuel Hc Hr Hk Hl Hi Hf; (destruct fuel as [| fuel]; [cbn in Hf; lia |]).
  - destruct c as [stop ii ws acts tty def term]. destruct Hc as [Hs Hw]. unfold at_input in Hi. cbn in Hs, Hi. subst stop ii.
    apply elem_of_cons in Hl as [-> | [-> | []%elem_of_nil]%elem_of_cons]; cbn;
      (eexists; split; [reflexivity |]); (split; try done); cbn; by rewrite app_nil_r.
  - cbn in Hk. apply andb_true_iff in Hk as [Hk Hks]. cbn in Hi. rewrite <- app_assoc in Hi.
    destruct (console_in_key fuel c k _ rest Hc Hr Hk Hi) as (c1 & -> & A1).
    assert (in_raw c1) as Hr1.
    { destruct A1 as [_ _ _ _ T [_ M]]. unfold in_raw. by rewrite T, M. }
    assert (default_tty c1 = default_tty c) as Hd.
    { destruct A1 as [_ _ _ _ T [D _]]. unfold default_tty. by rewrite T, D. }
    assert (ready c1) as Hc1 by (destruct Hc, A1; split; [congruence | auto]).
    destruct (IH c1 fuel Hc1 Hr1 Hks Hl (aa_in _ _ _ _ A1)) as (c2 & -> & A2); [cbn in Hf; lia |].
    exists c2. split; [done |]. rewrite Hd in A2. cbn. exact (after_trans _ _ _ _ _ _ _ Hr A1 A2).
Qed.

Lemma keys_of_typed_ok t : forallb key_ok (keys_of t) = true.
Proof.
  induction t as [| x t IH]; [done |]. cbn. fold (keys_of t). rewrite IH.
  destruct (Ascii.eqb x TILDE) eqn:E; cbn; by rewrite ?E.
Qed.

Lemma keys_of_meaning tty t : concat (meaning tty <$> keys_of t) = Put <$> t.
Proof.
  induction t as [| x t IH]; [done |]. cbn. fold (keys_of t). rewrite IH.
  destruct (Ascii.eqb_spec x TILDE) as [-> | N]; done.
Qed.

(** Every text can be sent to a VM, and nothing but the text is sent: when the
    tildes of a text are typed twice and a tilde with a full stop or ^D follows,
    exactly the characters of the text are written to the port, in order, then the function returns
    and leaves the rest of the input unread; signals apart, and however often
    the writes are interrupted. *)
Theorem console_in_sends_text t leave rest c fuel :
  ready c -> in_raw c -> leave ∈ ["."%char; CTRL_D] ->
  at_input (concat (typed <$> keys_of t) ++ [TILDE; leave]) rest c -> (length t < fuel)%nat ->
  exists c', console_in fuel c = (true, c') /\ c_acts c' = c_acts c ++ (Put <$> t) /\ c_in c' = rest /\ c_tty c' = c_tty c.
Proof.
  intros Hc Hr Hl Hi Hf.
  destruct (console_in_keys_spec (keys_of t) leave rest c fuel) as (c' & -> & A); try done.
  - apply keys_of_typed_ok.
  - unfold keys_of. by rewrite length_fmap.
  - exists c'. destruct A as [_ I _ A T _]. rewrite keys_of_meaning in A. split_and!; auto.
Qed.

(** The escapes of the console: any sequence of keys has the effect that each
    of them has, and a suspension finds the terminal with the attributes it had
    before the program was started. *)
Theorem console_in_keys ks leave rest c fuel :
  ready c -> in_raw c -> forallb key_ok ks = true -> leave ∈ ["."%char; CTRL_D] ->
  at_input (concat (typed <$> ks) ++ [TILDE; leave]) rest c -> (length ks < fuel)%nat ->
  exists c', console_in fuel c = (true, c') /\ after_acts c (concat (meaning (default_tty c) <$> ks)) rest c'.
Proof. intros. by eapply console_in_keys_spec. Qed.

(** ** Every run *)

Lemma getchar_in l c : (length (c_in (getchar_from l c).2) <= length l)%nat /\
  ((getchar_from l c).1 <> None -> (length (c_in (getchar_from l c).2) < length l)%nat).
Proof.
  revert c. induction l as [| [x |] l IH]; intros c; cbn; [done | lia |].
  destruct (IH (sighandler_stop c)) as [H1 H2]. split; [lia |]. intros H. specialize (H2 H). lia.
Qed.

(** The attributes of a terminal, when there is one. *)
Definition tty_of (has : bool) (t : termios) : option termios := if has then Some t else None.

(** The suspensions found the terminal as it was before. *)
Definition polite (has : bool) (def : termios) (a : action) : Prop :=
  match a with Put _ => True | Suspended _ tty => tty = tty_of has def end.

(** The attributes that are saved do not change, the terminal is in raw mode,
    suspensions apart. *)
Definition settled_tty (has : bool) (def term : termios) c : Prop :=
  c_defterm c = def /\ c_term c = term /\ c_tty c = tty_of has term /\ Forall (polite has def) (c_acts c).

Section settled.
Context (has : bool) (def term : termios).

Lemma settled_getchar l c : settled_tty has def term c -> settled_tty has def term (getchar_from l c).2.
Proof. revert c. induction l as [| [x |] l IH]; intros c H; [done | done | by apply IH]. Qed.

Lemma settled_put c x : settled_tty has def term c -> settled_tty has def term (put_char c x).2.
Proof.
  intros (D & T & M & A). unfold put_char. destruct (write_byte _ _) as [n ws]. cbn.
  destruct (0 <? n); [| done]. split_and!; try done. apply Forall_app. split; [done | by apply Forall_singleton].
Qed.

Lemma settled_suspend c l : settled_tty has def term c -> settled_tty has def term (suspend c l).
Proof.
  intros (D & T & M & A). unfold suspend, tcsetattr0, act. split_and!; try done; cbn.
  - rewrite M, T. by destruct has.
  - apply Forall_app. split; [done |]. apply Forall_singleton. cbn. rewrite M, D. by destruct has.
Qed.

Lemma console_in_settled fuel : forall c,
  settled_tty has def term c -> (length (c_in c) < fuel)%nat ->
  (console_in fuel c).1 = true /\ settled_tty has def term (console_in fuel c).2.
Proof.
  assert (Hput : forall n c x, (length (c_in c) < n)%nat -> (length (c_in (put_char c x).2) < n)%nat).
  { intros n c x H. unfold put_char. destruct (write_byte _ _). cbn. by destruct (0 <? z). }
  assert (Hsus : forall n c l, (length (c_in c) < n)%nat -> (length (c_in (suspend c l)) < n)%nat) by done.
  induction fuel as [| fuel IH]; intros c Hc Hf; [lia |]. cbn [console_in].
  pose proof (settled_getchar (c_in c) c Hc) as K1. pose proof (getchar_in (c_in c) c) as [_ L1].
  unfold getchar. destruct (getchar_from (c_in c) c) as [[x |] c1]; [| done]. cbn in K1, L1.
  specialize (L1 ltac:(done)). destruct (negb _); [done |].
  destruct (Ascii.eqb x TILDE).
  - pose proof (settled_getchar (c_in c1) c1 K1) as K2. pose proof (getchar_in (c_in c1) c1) as [L2 _].
    destruct (getchar_from (c_in c1) c1) as [y c2]. cbn in K2, L2.
    assert (L : (length (c_in c2) < fuel)%nat) by lia.
    destruct (_ || _); [done |]. do 2 (case_match; [apply IH; [by apply settled_suspend | by apply Hsus] |]).
    case_match.
    + pose proof (settled_put c2 TILDE K2) as K3. pose proof (Hput _ c2 TILDE L) as L3.
      destruct (put_char c2 TILDE) as [n c3]. case_match; [done | by apply IH].
    + pose proof (settled_put c2 TILDE K2) as K3. pose proof (Hput _ c2 TILDE L) as L3.
      destruct (put_char c2 TILDE) as [n c3]. case_match; [done |]. cbn in K3, L3.
      pose proof (settled_put c3 (char_of y) K3) as K4. pose proof (Hput _ c3 (char_of y) L3) as L4.
      destruct (put_char c3 (char_of y)) as [m c4]. case_match; [done | by apply IH].
  - assert (L : (length (c_in c1) < fuel)%nat) by lia.
    pose proof (settled_put c1 x K1) as K3. pose proof (Hput _ c1 x L) as L3.
    destruct (put_char c1 x) as [n c3]. case_match; [done | by apply IH].
Qed.

End settled.

(** Whatever is typed, whichever signals arrive and whatever the writes answer,
    [console_in] ends, with one round for each character at most; each suspension
    happens with the attributes the terminal had before the program was
    started, and otherwise the terminal stays in raw mode. *)
Theorem console_in_ends has def term c :
  settled_tty has def term c ->
  (console_in (S (length (c_in c))) c).1 = true /\ settled_tty has def term (console_in (S (length (c_in c))) c).2.
Proof. intros H. apply console_in_settled; [done | lia]. Qed.

(** [attach_console] does not restore the terminal: when the connection ends in the
    regular way, the attributes are those of the raw mode, without echo and line
    editing. *)
Theorem attach_console_leaves_raw t fuel port ok c :
  c_tty c = Some t -> c_acts c = [] -> (length (c_in c) < fuel)%nat ->
  (attach_console fuel port ok true c).1.1 = 0 ->
  c_tty (attach_console fuel port ok true c).2 = Some (raw_term t) /\ Z.testbit (c_lflag (raw_term t)) 3 = false.
Proof.
  intros Ht Ha Hf. unfold attach_console. destruct (ttysetup port 115200 ok) as [rc port'].
  destruct (rc <? 0); [done |]. intros _. cbn [fst snd]. split.
  - eapply (console_in_settled true t (raw_term t)); [| exact Hf].
    unfold tcsetattr0, settled_tty. cbn. rewrite Ht, Ha. split_and!; done.
  - cbn [raw_term c_lflag foldr set_cc upd]. unfold clear_flags. by rewrite Z.ldiff_spec, andb_false_r.
Qed.

(** ** Output *)

(** What the VM has written, as far as it can be read. *)
Fixpoint readable_output (rs : list read_answer) : list ascii :=
  match rs with
  | [] | ReadFails :: _ | Data [] :: _ => []
  | ReadInterrupted :: rs' => readable_output rs'
  | Data l :: rs' => l ++ readable_output rs'
  end.

(** A write that takes something. *)
Definition accepts (w : out_answer) : Prop :=
  match w with OutWrote n => n <> O | OutInterrupted => True | OutFails => False end.

Lemma write_buf_prefix ws : forall buf ok l ws',
  buf <> [] -> write_buf ws buf = (ok, l, ws') ->
  exists rest, buf = l ++ rest /\ (ok = true -> rest = []) /\
    (Forall accepts ws -> ok = true /\ Forall accepts ws').
Proof.
  induction ws as [| [n | |] ws IH]; intros buf ok l ws' Hb; cbn.
  - intros [= <- <- <-]. exists []. by rewrite app_nil_r.
  - intros E. rewrite <- (take_drop n buf).
    destruct (take n buf) as [| x l1] eqn:E1.
    + injection E as <- <- <-. exists (drop n buf). split; [done | split; [done |]].
      intros [Hn _]%Forall_cons. destruct n, buf; done.
    + destruct (drop n buf) as [| y l2] eqn:E2.
      * injection E as <- <- <-. exists []. split; [done | split; [done |]]. by intros [_ H]%Forall_cons.
      * destruct (write_buf ws (y :: l2)) as [[ok1 l3] ws3] eqn:E3. injection E as <- <- <-.
        destruct (IH (y :: l2) _ _ _ ltac:(done) E3) as (rest & Hr & H1 & H2). exists rest.
        split; [cbn; by rewrite Hr, app_assoc | split; [done |]]. intros [_ H]%Forall_cons. by apply H2.
  - intros E. destruct (IH _ _ _ _ Hb E) as (rest & H1 & H2 & H3). exists rest. split; [done | split; [done |]].
    intros [_ H]%Forall_cons. by apply H3.
  - intros [= <- <- <-]. exists buf. split; [done | split; [done |]]. by intros [[] _]%Forall_cons.
Qed.

(** The output of a VM reaches the terminal in order, without loss and without
    repetition, however the reads and writes cut it: what was written is always a prefix of
    what was read, and all of it when no write fails. *)
Theorem console_out_copies rs ws :
  (exists rest, readable_output rs = console_out rs ws ++ rest) /\
  (Forall accepts ws -> console_out rs ws = readable_output rs).
Proof.
  revert ws. induction rs as [| [[| x l] | |] rs IH]; intros ws; cbn.
  - by split; [exists [] |].
  - by split; [exists [] |].
  - destruct (write_buf ws (x :: l)) as [[ok out] ws'] eqn:E.
    destruct (write_buf_prefix ws (x :: l) ok out ws' ltac:(done) E) as (rest & Hb & H1 & H2).
    destruct (IH ws') as [[r Hr] Ha]. rewrite app_comm_cons, Hb. destruct ok.
    + rewrite H1 by done. rewrite app_nil_r. split.
      * exists r. by rewrite Hr, app_assoc.
      * intros Hw. rewrite Ha; [done |]. by apply H2.
    + split; [exists (rest ++ readable_output rs); by rewrite app_assoc |]. intros Hw. by destruct (H2 Hw).
  - apply IH.
  - by split; [exists [] |].
Qed.

(** ** Runs *)

Definition demo_term : termios :=
  {| c_iflag := 0x2b02; c_oflag := 0x3; c_cflag := 0x4b00; c_lflag := 0x5cb; c_cc := replicate 20 255; c_speed := 38400 |}.

(** The console after [attach_console] has set up the terminal. *)
Definition demo_console (l : list ascii) : console :=
  {| c_stop := 0; c_in := Typed <$> l; c_ws := [Interrupted; Wrote]; c_acts := []; c_tty := Some (raw_term demo_term);
     c_defterm := demo_term; c_term := raw_term demo_term |}.

Definition chars (s : string) : list ascii := String.list_ascii_of_string s.

Lemma console_in_sends_text_witness :
  exists c', console_in 5 (demo_console (chars "a~~b~.rest")) = (true, c') /\
    c_acts c' = [Put "a"%char; Put TILDE; Put "b"%char] /\ c_in c' = Typed <$> chars "rest" /\
    c_tty c' = Some (raw_term demo_term).
Proof.
  apply (console_in_sends_text (chars "a~b") "."%char (Typed <$> chars "rest") (demo_console (chars "a~~b~.rest")) 5).
  - split; [done |]. apply Forall_cons. split; [by right |]. apply Forall_singleton. by left.
  - by right.
  - by left.
  - reflexivity.
  - cbn. lia.
Defined.

Lemma console_in_keys_witness :
  exists c', console_in 3 (demo_console (chars "~x~" ++ [CTRL_Z] ++ chars "~.")) = (true, c') /\
    after_acts (demo_console (chars "~x~" ++ [CTRL_Z] ++ chars "~."))
      [Put TILDE; Put "x"%char; Suspended false (Some demo_term)] [] c'.
Proof.
  apply (console_in_keys [KOther "x"; KSuspend false] "."%char [] (demo_console (chars "~x~" ++ [CTRL_Z] ++ chars "~.")) 3).
  - split; [done |]. apply Forall_cons. split; [by right |]. apply Forall_singleton. by left.
  - by right.
  - done.
  - by left.
  - reflexivity.
  - cbn. lia.
Defined.

Lemma console_in_ends_witness :
  (console_in 3 (demo_console (chars "ab"))).1 = true /\
  settled_tty true demo_term (raw_term demo_term) (console_in 3 (demo_console (chars "ab"))).2.
Proof. apply (console_in_ends true demo_term (raw_term demo_term) (demo_console (chars "ab"))). by split_and!. Defined.

Lemma attach_console_leaves_raw_witness :
  c_tty (attach_console 3 (Some demo_term) true true
           (demo_console (chars "~.") <| c_tty := Some demo_term |>)).2 = Some (raw_term demo_term) /\
  Z.testbit (c_lflag (raw_term demo_term)) 3 = false.
Proof.
  apply (attach_console_leaves_raw demo_term 3 (Some demo_term) true (demo_console (chars "~.") <| c_tty := Some demo_term |>));
    [done | done | cbn; lia | done].
Defined.

(** At the end of the input a tilde is followed by the byte 255: EOF is sent
    as a character. *)
Example tilde_at_eof :
  c_acts (console_in 3 (demo_console (chars "~"))).2 = [Put TILDE; Put (ascii_of_nat 255)].
Proof. vm_compute. reflexivity. Qed.

(** The port gets 8 bits without parity and no line editing. *)
Example port_is_raw :
  match ttysetup (Some demo_term) 115200 true with
  | (rc, Some t) => (rc, Z.land (c_cflag t) PARENB, Z.land (c_cflag t) CSIZE, Z.land (c_lflag t) ECHO) = (0, 0, CS8, 0)
  | _ => False
  end.
Proof. vm_compute. reflexivity. Qed.
