(* ===== verification/Options.v ===== *)
(** * Command lines (src/bmd.c 1444-1498, src/control.c 398-490)

    The daemon and bmdctl are one program; its name decides which of them it is
    ([strendswith]).  The daemon reads options only ([parse_opt]).  bmdctl has a
    sub-command with options and a name; [dispatch] is the part of [control]
    that decides what to do, which Control.v then does.

    [getopt] is that of FreeBSD: options end at the first argument that is none.
    The arguments are a list; behind its last element is the NULL pointer, and
    an access behind that one is a fault.  [argc] is a number of its own, because
    [control] computes with it. *)

From S2P Require Import Prelude CString Vars Global.
From Stdlib Require Import Ascii.

Local Open Scope Z_scope.

(** [argv[i]]; [None] is NULL. *)
Definition arg_at (argv : list string) (i : nat) : C (option string) :=
  match argv !! i with
  | Some a => mret (Some a)
  | None => if Nat.eqb i (length argv) then mret None else crash WildAccess
  end.

(** ** getopt *)

(** The variable [optind] and the place in the argument that is being read. *)
Record opt_state := { os_optind : nat; os_place : string }.

Inductive opt := Opt (c : ascii) (optarg : option string) | BadOpt | NoMore.

Definition opt_start : opt_state := {| os_optind := 1; os_place := EmptyString |}.

(** Behind an option character [place] is what is left of the argument. *)
Definition step_place (i : nat) (place : string) : opt_state :=
  {| os_optind := match place with EmptyString => S i | _ => i end; os_place := place |}.

Definition getopt_char (nargc : Z) (nargv : list string) (ostr : string) (i : nat) (c : ascii) (place : string)
    : C (opt * opt_state) :=
  if Ascii.eqb c ":" then mret (BadOpt, step_place i place)
  else
    match strchr ostr c with
    | None | Some EmptyString => mret (BadOpt, step_place i place)
    | Some (String _ r) =>
        if negb (Ascii.eqb (char_at r 0) ":") then mret (Opt c None, step_place i place)
        else
          match place with
          | String _ _ => mret (Opt c (Some place), {| os_optind := S i; os_place := EmptyString |})
          | EmptyString =>
              if Z.of_nat (S i) <? nargc then
                a ← arg_at nargv (S i);
                mret (Opt c a, {| os_optind := S (S i); os_place := EmptyString |})
              else mret (BadOpt, {| os_optind := S i; os_place := EmptyString |})
          end
    end.

Definition getopt (nargc : Z) (nargv : list string) (ostr : string) (st : opt_state) : C (opt * opt_state) :=
  let i := os_optind st in
  match os_place st with
  | String c place => getopt_char nargc nargv ostr i c place
  | EmptyString =>
      if nargc <=? Z.of_nat i then mret (NoMore, st)
      else
        a ← arg_at nargv i;
        a ← deref a;
        match a with
        | String h rest =>
            if negb (Ascii.eqb h "-") then mret (NoMore, st)
            else
              match rest with
              | EmptyString => mret (NoMore, st)
              | String c place =>
                  if Ascii.eqb c "-" && String.eqb place EmptyString
                  then mret (NoMore, {| os_optind := S i; os_place := EmptyString |})
                  else getopt_char nargc nargv ostr i c place
              end
        | EmptyString => mret (NoMore, st)
        end
  end.

(** The loop over the options: [None] when one is not known or lacks its argument. *)
Fixpoint opt_loop {S : Type} (fuel : nat) (nargc : Z) (nargv : list string) (ostr : string)
    (body : S -> ascii -> option string -> C S) (s : S) (st : opt_state) : C (option S * nat) :=
  match fuel with
  | O => crash OutOfFuel
  | Datatypes.S fuel' =>
      '(r, st) ← getopt nargc nargv ostr st;
      match r with
      | NoMore => mret (Some s, os_optind st)
      | BadOpt => mret (None, os_optind st)
      | Opt c a => s ← body s c a; opt_loop fuel' nargc nargv ostr body s st
      end
  end.

(** Each call consumes a character or an argument. *)
Definition opt_fuel (nargv : list string) : nat := S (sum_list ((fun a => S (String.length a)) <$> nargv)).

(** ** The options of the daemon *)

(** [strdup(optarg)]; the old value is freed. *)
Definition dup_arg (a : option string) : C (option string) := s ← deref a; strdup s.

(** The cases of the switch; [-v] prints the version and ends the process. *)
Definition set_opt (g : global_conf) (c : ascii) (a : option string) : C global_conf :=
  if Ascii.eqb c "F" then mret (g <| g_foreground := 1 |>)
  else if Ascii.eqb c "f" then v ← dup_arg a; mret (g <| g_config_file := v |>)
  else if Ascii.eqb c "P" then v ← dup_arg a; mret (g <| g_pid_path := v |>)
  else if Ascii.eqb c "p" then v ← dup_arg a; mret (g <| g_plugin_dir := v |>)
  else if Ascii.eqb c "m" then v ← dup_arg a; mret (g <| g_unix_domain_socket_mode := v |>)
  else crash ProcessExit.

(** The call of [daemon] when the program does not stay in the foreground
    concerns the process only. *)
Definition parse_opt (argv : list string) (g : global_conf) : C (Z * global_conf) :=
  '(r, _) ← opt_loop (opt_fuel argv) (Z.of_nat (length argv)) argv "Ff:P:p:m:v" set_opt g opt_start;
  mret (match r with Some g' => (0, g') | None => (-1, g) end).

Definition strendswith (t s : string) : bool :=
  match strstr t s with
  | Some n => Nat.eqb (String.length (drop_str n t)) (String.length s)
  | None => false
  end.

(** ** The sub-commands of bmdctl *)

Inductive choice :=
  | Usage
  | DoList
  | ShowConfig (name : option string)
  | ShowVgaport (name : option string)
  | DoInspect (name : string)
  | BootConsole (name : string) (boot_style : Z) (console show : bool)
  | DirectRun (name : string) (install single : bool)
  | Request (command name : string).

(** The bodies of the two loops. *)
Definition set_console (console : bool) (c : ascii) (_ : option string) : C bool :=
  mret (if Ascii.eqb c "c" then true else console).

Definition set_run (p : bool * bool) (c : ascii) (_ : option string) : C (bool * bool) :=
  mret (if Ascii.eqb c "i" then (true, p.2) else if Ascii.eqb c "s" then (p.1, true) else p).

(** [-f] and its file are skipped; [argc] grows. *)
Definition skip_config (argv : list string) : Z * list string :=
  let argc := Z.of_nat (length argv) in
  match argv !! 1%nat with
  | Some a => if (2 <? argc) && (strcmp a "-f" =? 0) then (argc + 2, drop 2 argv) else (argc, argv)
  | None => (argc, argv)
  end.

Definition boot_options (argc : Z) (argv : list string) (boot_style : Z) : C choice :=
  '(r, optind) ← opt_loop (opt_fuel argv) (argc - 1) (drop 1 argv) "c" set_console false opt_start;
  match r with
  | None => mret Usage
  | Some console =>
      name ← arg_at argv (S optind);
      mret (match name with None => Usage | Some name => BootConsole name boot_style console false end)
  end.

Definition run_options (argc : Z) (argv : list string) : C choice :=
  '(r, optind) ← opt_loop (opt_fuel argv) (argc - 1) (drop 1 argv) "is" set_run (false, false) opt_start;
  match r with
  | None => mret Usage
  | Some (install, single) =>
      name ← arg_at argv (S optind);
      mret (match name with None => Usage | Some name => DirectRun name install single end)
  end.

Definition is_cmd (a : string) (l : list string) : bool := existsb (fun x => strcmp a x =? 0) l.

(** The tests with [argc == 3]. *)
Definition named_command (cmd name : string) : option choice :=
  if is_cmd cmd ["inspect"] then Some (DoInspect name)
  else if is_cmd cmd ["console"] then Some (BootConsole name 0 true false)
  else if is_cmd cmd ["showcomport"] then Some (BootConsole name 0 false true)
  else None.

Definition dispatch (argv : list string) : C choice :=
  if Z.of_nat (length argv) <? 2 then mret Usage
  else
    let '(argc, argv) := skip_config argv in
    a ← arg_at argv 1;
    cmd ← deref a;
    if is_cmd cmd ["list"] then mret DoList
    else if is_cmd cmd ["showconfig"] then name ← arg_at argv 2; mret (ShowConfig name)
    else if is_cmd cmd ["showvgaport"] then name ← arg_at argv 2; mret (ShowVgaport name)
    else
      match (if argc =? 3 then argv !! 2%nat ≫= named_command cmd else None) with
      | Some c => mret c
      | None =>
          if is_cmd cmd ["boot"; "start"] then boot_options argc argv 1
          else if is_cmd cmd ["install"] then boot_options argc argv 2
          else if is_cmd cmd ["run"] then run_options argc argv
          else if (argc =? 3) && is_cmd cmd ["reset"; "poweroff"; "stop"; "shutdown"] then
            name ← arg_at argv 2;
            name ← deref name;
            mret (Request cmd name)
          else mret Usage
      end.

(** ** The loop ends *)

(** What is left to read. *)
Definition args_size (l : list string) : nat := sum_list ((fun a => S (String.length a)) <$> l).

Definition opt_left (nargv : list string) (st : opt_state) : nat :=
  match os_place st with
  | EmptyString => args_size (drop (os_optind st) nargv)
  | p => (String.length p + args_size (drop (S (os_optind st)) nargv))%nat
  end.

Lemma args_size_drop_S nargv i : (args_size (drop (S i) nargv) <= args_size (drop i nargv))%nat.
Proof.
  revert i. induction nargv as [| a l IH]; intros i; [by rewrite !drop_nil |].
  destruct i as [| i]; [| exact (IH i)]. change (args_size l <= S (String.length a) + args_size l)%nat. lia.
Qed.

Lemma args_size_at nargv i a :
  nargv !! i = Some a -> args_size (drop i nargv) = (S (String.length a) + args_size (drop (S i) nargv))%nat.
Proof. intros H. by rewrite (drop_S _ _ _ H). Qed.

Lemma opt_left_step nargv i place :
  opt_left nargv (step_place i place) = (String.length place + args_size (drop (S i) nargv))%nat.
Proof. by destruct place. Qed.

(** A call that finds an option leaves less to read. *)
Definition shrinks (nargv : list string) (n : nat) (p : opt * opt_state) : Prop :=
  match p.1 with Opt _ _ => (opt_left nargv p.2 < n)%nat | _ => True end.

Lemma getopt_char_shrinks nargc nargv ostr i c place n :
  (String.length place + args_size (drop (S i) nargv) < n)%nat ->
  wp (getopt_char nargc nargv ostr i c place) (shrinks nargv n) (fun f => f <> OutOfFuel).
Proof.
  intros Hn. pose proof (args_size_drop_S nargv (S i)) as H1. unfold getopt_char.
  assert (Hs : shrinks nargv n (Opt c None, step_place i place)) by (unfold shrinks; cbn; rewrite opt_left_step; lia).
  repeat case_match; try (by apply wp_ret).
  - apply wp_bind. unfold arg_at. repeat case_match; try (by apply wp_crash); apply wp_ret, wp_ret; unfold shrinks, opt_left; cbn -[drop]; lia.
  - apply wp_ret. unfold shrinks, opt_left. cbn -[drop]. lia.
Qed.

Lemma getopt_shrinks nargc nargv ostr st :
  wp (getopt nargc nargv ostr st) (shrinks nargv (opt_left nargv st)) (fun f => f <> OutOfFuel).
Proof.
  unfold getopt, opt_left. destruct (os_place st) as [| c place].
  - case_match; [by apply wp_ret |]. apply wp_bind. unfold arg_at.
    destruct (nargv !! os_optind st) as [a |] eqn:E; [| case_match; [by apply wp_ret, wp_bind, wp_crash | by apply wp_crash]].
    apply wp_ret, wp_bind, wp_ret. rewrite (args_size_at _ _ _ E).
    repeat case_match; try (by apply wp_ret). apply getopt_char_shrinks. cbn. lia.
  - apply getopt_char_shrinks. cbn. lia.
Qed.

Lemma opt_loop_nofuel {S} (body : S -> ascii -> option string -> C S) nargc nargv ostr :
  (forall s c a, nofuel (body s c a)) ->
  forall fuel s st, (opt_left nargv st < fuel)%nat -> nofuel (opt_loop fuel nargc nargv ostr body s st).
Proof.
  intros Hb fuel. induction fuel as [| fuel IH]; intros s st Hf; [lia |]. cbn.
  apply wp_bind. eapply wp_mono; [apply getopt_shrinks | | done]. intros [[c a | |] st'] Hs; try (by apply wp_ret).
  apply nofuel_bind; [apply Hb |]. intros s'. apply IH. unfold shrinks in Hs. cbn in Hs. lia.
Qed.

Lemma opt_start_fuel n l : (opt_left (drop n l) opt_start < opt_fuel l)%nat.
Proof.
  unfold opt_left, opt_start, opt_fuel. cbn [os_place os_optind]. fold (args_size l). rewrite drop_drop.
  induction (n + 1)%nat as [| m IH]; [rewrite drop_0; lia |]. pose proof (args_size_drop_S l m). lia.
Qed.

Lemma nofuel_arg_at argv i : nofuel (arg_at argv i).
Proof. unfold arg_at. steps_nofuel. Qed.

Lemma nofuel_set_opt g c a : nofuel (set_opt g c a).
Proof. unfold set_opt, dup_arg. steps_nofuel. Qed.

Lemma nofuel_dispatch argv : nofuel (dispatch argv).
Proof.
  assert (Ha : forall l i, nofuel (arg_at l i)) by apply nofuel_arg_at.
  unfold dispatch. case_match; [apply nofuel_ret |]. destruct (skip_config argv) as [argc l].
  unfold boot_options, run_options.
  repeat first [apply nofuel_bind; [first [apply Ha | apply nofuel_deref | apply opt_loop_nofuel; [done | apply opt_start_fuel]] |]; intros
               | apply nofuel_ret | case_match].
Qed.

(** Reading a command line ends, for the daemon and for bmdctl, whatever the arguments are
    and also when [argc] is larger than their number. *)
Theorem command_line_ends argv g : nofuel (parse_opt argv g) /\ nofuel (dispatch argv).
Proof.
  split; [| apply nofuel_dispatch]. unfold parse_opt. apply nofuel_bind; [| intros [? ?]; apply nofuel_ret].
  apply opt_loop_nofuel; [intros; apply nofuel_set_opt |]. exact (opt_start_fuel 0 argv).
Qed.

(** ** What is read *)

(** An option and its argument as arguments of their own. *)
Definition opt_words (p : ascii * option string) : list string :=
  String "-" (String p.1 EmptyString) :: match p.2 with Some v => [v] | None => [] end.

(** [ostr] has the option, with an argument or without. *)
Definition opt_known (ostr : string) (p : ascii * option string) : Prop :=
  p.1 <> ":"%char /\ p.1 <> "-"%char /\
  exists r, strchr ostr p.1 = Some (String p.1 r) /\ (char_at r 0 = ":"%char <-> is_Some p.2).

(** No more options follow. *)
Definition no_option (rest : list string) : Prop :=
  match rest with
  | [] => True
  | a :: _ => char_at a 0 <> "-"%char
  end.

Lemma char_at_eq c s : Ascii.eqb (char_at s 0) c = bool_decide (char_at s 0 = c).
Proof. destruct (Ascii.eqb_spec (char_at s 0) c); [by rewrite bool_decide_true | by rewrite bool_decide_false]. Qed.

(** One option. *)
Lemma getopt_word pre p rest ostr o :
  opt_known ostr p ->
  let nargv := pre ++ opt_words p ++ rest in
  getopt (Z.of_nat (length nargv)) nargv ostr {| os_optind := length pre; os_place := EmptyString |} o =
  Done (Opt p.1 p.2, {| os_optind := length (pre ++ opt_words p); os_place := EmptyString |}) o.
Proof.
  intros (H1 & H2 & r & Hr & Ha). destruct p as [c a]. cbn [fst snd] in *.
  assert (E : (pre ++ opt_words (c, a) ++ rest) !! length pre = Some (String "-" (String c EmptyString))).
  { by rewrite lookup_app_r, Nat.sub_diag by done. }
  unfold getopt. cbn [os_place os_optind].
  replace (_ <=? Z.of_nat (length pre)) with false
    by (symmetry; apply Z.leb_gt; rewrite !length_app; cbn; lia).
  unfold arg_at at 1. rewrite E. do 2 (unfold mbind at 1, C_bind at 1; cbn -[Z.of_nat opt_words getopt_char arg_at]).
  replace (Ascii.eqb c "-") with false by (symmetry; by apply Ascii.eqb_neq).
  cbn [andb]. unfold getopt_char. replace (Ascii.eqb c ":") with false by (symmetry; by apply Ascii.eqb_neq).
  rewrite Hr, char_at_eq. destruct a as [v |].
  - rewrite bool_decide_true by (apply Ha; by eexists). cbn [negb].
    replace (Z.of_nat (S (length pre)) <? _) with true by (symmetry; apply Z.ltb_lt; rewrite !length_app; cbn; lia).
    unfold arg_at. replace (_ !! S (length pre)) with (Some v).
    + unfold mbind, C_bind. cbn. repeat f_equal. rewrite length_app. cbn. lia.
    + rewrite lookup_app_r by lia. replace (S (length pre) - length pre)%nat with 1%nat by lia. done.
  - rewrite bool_decide_false by (intros [? [=]]%Ha). cbn. unfold mret, C_ret, step_place. repeat f_equal.
    rewrite length_app. cbn. lia.
Qed.

Lemma getopt_end pre rest ostr o :
  no_option rest ->
  getopt (Z.of_nat (length (pre ++ rest))) (pre ++ rest) ostr {| os_optind := length pre; os_place := EmptyString |} o =
  Done (NoMore, {| os_optind := length pre; os_place := EmptyString |}) o.
Proof.
  intros Hr. unfold getopt. cbn [os_place os_optind]. destruct rest as [| a rest].
  - rewrite app_nil_r, Z.leb_refl. done.
  - replace (_ <=? Z.of_nat (length pre)) with false by (symmetry; apply Z.leb_gt; rewrite !length_app; cbn; lia).
    unfold arg_at. rewrite lookup_app_r, Nat.sub_diag by done. unfold mbind, C_bind. cbn.
    destruct a as [| h t]; [done |]. cbn in Hr. by replace (Ascii.eqb h "-") with false by (symmetry; by apply Ascii.eqb_neq).
Qed.

Lemma opt_loop_words {S} (body : S -> ascii -> option string -> C S) ostr rest opts : forall pre s fuel o,
  Forall (opt_known ostr) opts -> no_option rest -> (length opts < fuel)%nat ->
  let nargv := pre ++ concat (opt_words <$> opts) ++ rest in
  opt_loop fuel (Z.of_nat (length nargv)) nargv ostr body s {| os_optind := length pre; os_place := EmptyString |} o =
  (s' ← foreach (fun s p => body s p.1 p.2) opts s;
   mret (Some s', (length pre + length (concat (opt_words <$> opts)))%nat)) o.
Proof.
  induction opts as [| p opts IH]; intros pre s fuel o Hk Hr Hf nargv; subst nargv;
    (destruct fuel as [| fuel]; [cbn in Hf; lia |]); cbn [opt_loop].
  - cbn [concat fmap list_fmap app]. unfold mbind at 1, C_bind at 1. rewrite getopt_end by done. cbn. by rewrite Nat.add_0_r.
  - apply Forall_cons in Hk as [Hp Hk]. rewrite fmap_cons. cbn [concat]. rewrite <- app_assoc.
    unfold mbind at 1, C_bind at 1. rewrite getopt_word by done.
    change (foreach ?f (p :: opts) s) with (s' ← f s p; foreach f opts s').
    unfold mbind, C_bind. destruct (body s p.1 p.2 o) as [s1 o1 | f]; [| done].
    rewrite (app_assoc pre). rewrite IH by (try done; cbn in Hf; lia).
    unfold mbind, C_bind. destruct (foreach _ opts s1 o1) as [s2 o2 | f]; [| done].
    unfold mret, C_ret. by rewrite !length_app, Nat.add_assoc.
Qed.

(** The daemon obeys its options: when they are given one by one, each with its
    argument, all of them take effect in their order, so that the last one of a
    kind counts. *)
Theorem parse_opt_correct prog opts g o :
  Forall (opt_known "Ff:P:p:m:v") opts ->
  parse_opt (prog :: concat (opt_words <$> opts)) g o =
  (g' ← foreach (fun g p => set_opt g p.1 p.2) opts g; mret (0, g')) o.
Proof.
  intros Hk. unfold parse_opt.
  pose proof (opt_loop_words set_opt "Ff:P:p:m:v" [] opts [prog] g (opt_fuel (prog :: concat (opt_words <$> opts))) o Hk I) as H.
  cbn zeta in H. rewrite app_nil_r in H. cbn [app length] in H.
  unfold mbind at 1, C_bind at 1. change opt_start with {| os_optind := 1; os_place := EmptyString |}.
  cbn [length]. rewrite H.
  - unfold mbind, C_bind. by destruct (foreach _ opts g o).
  - unfold opt_fuel. cbn.
    assert (L : (length opts <= sum_list ((fun a => S (String.length a)) <$> concat (opt_words <$> opts)))%nat).
    { clear. induction opts as [| [c [v |]] opts IH]; cbn; lia. }
    lia.
Qed.

(** The name of the program: it is bmdctl when its name ends with "ctl" and has
    no earlier "ctl" in it, which a directory on its path may well have. *)
Theorem strendswith_correct t s :
  strendswith t s = true <-> exists a, t = a +:+ s /\ strstr t s = Some (String.length a).
Proof.
  unfold strendswith. split.
  - destruct (strstr t s) as [n |] eqn:E; [| done]. intros H%Nat.eqb_eq.
    destruct (strstr_Some _ _ _ E) as (a & b & -> & <-). exists a. split; [| done].
    rewrite drop_str_app, length_app_str in H. destruct b; [by rewrite app_str_nil_r | cbn in H; lia].
  - intros (a & -> & ->). rewrite drop_str_app. apply Nat.eqb_refl.
Qed.

Example ctl_in_path : strendswith "/usr/local/sbin/bmdctl" "ctl" = true /\ strendswith "/opt/ctl/bmdctl" "ctl" = false.
Proof. split; reflexivity. Qed.

(** The sub-commands that test for three arguments. *)
Definition three_words : list string :=
  ["inspect"; "console"; "showcomport"; "reset"; "poweroff"; "stop"; "shutdown"].

(** The option -f makes most of bmdctl unusable: [control] adds 2 to [argc] where two
    arguments are skipped, so that the sub-commands that demand three
    arguments print the usage, whatever the file and the VM. *)
Theorem config_option_breaks prog file cmd name o :
  cmd ∈ three_words ->
  dispatch [prog; "-f"; file; cmd; name] o = Done Usage o /\ dispatch [prog; cmd; name] o <> Done Usage o.
Proof.
  unfold three_words. intros H.
  repeat (apply elem_of_cons in H as [-> | H]; [by split |]). by apply elem_of_nil in H.
Qed.

(** bmdctl -f file, without a sub-command. *)
Example config_option_alone : dispatch ["bmdctl"; "-f"; "x"] [] = Crash NullDeref.
Proof. reflexivity. Qed.

(** ... and with an option but without a name. *)
Example config_option_no_name : dispatch ["bmdctl"; "-f"; "x"; "boot"; "-c"] [] = Crash NullDeref.
Proof. reflexivity. Qed.

Lemma parse_opt_correct_witness :
  parse_opt ["bmd"; "-F"; "-f"; "a.conf"; "-f"; "b.conf"] gl_conf0 [] =
  Done (0, gl_conf0 <| g_config_file := Some "b.conf" |> <| g_foreground := 1 |>) [].
Proof.
  pose proof (parse_opt_correct "bmd" [("F"%char, None); ("f"%char, Some "a.conf"); ("f"%char, Some "b.conf")] gl_conf0 []) as H.
  apply H. clear H.
  apply Forall_cons; split; [| apply Forall_cons; split; [| apply Forall_cons; split; [| by apply Forall_nil]]];
    (split; [done | split; [done | eexists; split; [reflexivity |]]]); cbn; split; try done; by intros [? ?].
Defined.

Lemma config_option_breaks_witness :
  dispatch ["bmdctl"; "-f"; "my.conf"; "reset"; "vm"] [] = Done Usage [] /\
  dispatch ["bmdctl"; "reset"; "vm"] [] <> Done Usage [].
Proof. apply (config_option_breaks "bmdctl" "my.conf" "reset" "vm" []). apply (bool_decide_unpack _). vm_compute. exact I. Defined.
