(* ===== verification/Direct.v ===== *)
(** * Running a VM without the daemon (src/bmd.c 1589-1717, src/control.c 44-63)

    [bmdctl run] starts one VM with its com port on the terminal and waits for
    its end.  The program works on the same state as the daemon, with one VM, but registers its
    events with the kernel itself; what arrives is a list of [direct_event]s.
    The result 2 means that the program still waits. *)

From S2P Require Import Prelude CString Vars Conf Global MPool Plugin ParseValue Parser Load Tap Vm Network.
From S2P Require Import SockBuf Daemon Upkeep Console.
From Stdlib Require Import Ascii.

Local Open Scope Z_scope.

(** ** Finding a configuration *)

Section lookup.
Context {NV : Type}.

(** The loop over the list that was loaded: the last one of the name stays. *)
Fixpoint lookup_loop (name : string) (l : list (vm_conf_entry NV)) (ret : option (vm_conf_entry NV))
    : C (option (vm_conf_entry NV)) :=
  match l with
  | [] => mret ret
  | ce :: l' =>
      n ← deref (vc_name (ce_conf ce));
      lookup_loop name l' (if strcmp n name =? 0 then Some ce else ret)
  end.

(** [news] is what [load_config_file] reads, [None] when it fails. *)
Definition lookup_vm_conf (name : string) (news : option (list (vm_conf_entry NV)))
    : C (option (vm_conf_entry NV)) :=
  match news with
  | None => mret None
  | Some l => lookup_loop name l None
  end.

End lookup.

(** ** Standard input *)

(** The loop that writes to the VM. *)
Fixpoint write_stdin (ws : list out_answer) (buf : list ascii) : list ascii :=
  match buf with
  | [] => []
  | _ =>
      match ws with
      | [] => buf
      | OutFails :: _ => []
      | OutInterrupted :: ws' => write_stdin ws' buf
      | OutWrote n :: ws' => take n buf ++ write_stdin ws' (drop n buf)
      end
  end.

(** The result and the bytes that the VM gets. *)
Fixpoint read_stdin (infd : Z) (rs : list read_answer) (ws : list out_answer) : Z * list ascii :=
  match rs with
  | [] => (0, [])
  | ReadInterrupted :: rs' => read_stdin infd rs' ws
  | ReadFails :: _ => (-1, [])
  | Data l :: _ => (Z.of_nat (length l), if infd =? -1 then [] else write_stdin ws l)
  end.

(** ** The program *)

Inductive direct_event :=
  | StdinReady (rs : list read_answer) (ws : list out_answer)
  | ProcEnds (pid : Z) (st : option wait_status)
  | TimerFires
  | KeventFails.

Section direct.
Context {NV W : Type} (k : kernel W) (dv : devices NV W) (ops : vm_method -> vm_ops NV W) (nmdm_offset : Z).
Implicit Types (d : daemon NV W) (a : Z) (e : vm_entry NV) (ce : vm_conf_entry NV).

(** The configuration with the com port on the terminal. *)
Definition direct_conf ce (install single : bool) : C (vm_conf_entry NV) :=
  comport ← strdup "stdio";
  '(_, conf) ← at_ptr (ce_conf ce <| vc_comport := comport |> <| vc_install := install |>)
                 (fun c => set_single_user c single);
  mret {| ce_conf := conf; ce_pl_data := ce_pl_data ce |}.

(** The events that are registered: the process, the time limit of the loader, standard input. *)
Definition direct_kevents e : list kevent :=
  [{| k_ident := vm_pid (ve_vm e); k_filter := EVFILT_PROC; k_flags := Z.lor EV_ADD EV_ONESHOT; k_data := 0 |}] ++
  (if bool_decide (VM_STATE e = LOAD) && (0 <=? vc_loader_timeout (VM_CONF e))
   then [{| k_ident := 1; k_filter := EVFILT_TIMER; k_flags := Z.lor EV_ADD EV_ONESHOT;
            k_data := vc_loader_timeout (VM_CONF e) |}] else []) ++
  (if vm_infd (ve_vm e) =? -1 then []
   else [{| k_ident := 0; k_filter := EVFILT_READ; k_flags := EV_ADD; k_data := 0 |}]).

(** Both ends of the function. *)
Definition direct_end d a (rc : Z) : C (Z * daemon NV W) :=
  d ← cleanup_virtual_machine k ops d a;
  d ← call_plugins dv d a;
  d ← free_vm_entry d a;
  mret (rc, d).

(** After the process has ended with status 0; [waited] is the answer of [waitpid] for
    the second process. *)
Definition direct_started d a (waited : bool) : C (Z * daemon NV W) :=
  e ← get_entry d a;
  if decide (VM_STATE e = LOAD) then
    '(rc, d) ← VM_START ops d a;
    if rc <? 0 then direct_end d a 1
    else d ← call_plugins dv d a; direct_end d a (if negb waited then 1 else 0)
  else direct_end d a 0.

(** The code behind the label [wait]; the result of [read_stdin] is not used. *)
Fixpoint direct_wait d a (evs : list direct_event) (waited : bool) : C (Z * daemon NV W) :=
  match evs with
  | [] => mret (2, d)
  | KeventFails :: _ | TimerFires :: _ => d ← VM_POWEROFF ops d a; direct_end d a 1
  | StdinReady _ _ :: evs' => direct_wait d a evs' waited
  | ProcEnds pid None :: _ => direct_end d a 1
  | ProcEnds pid (Some st) :: evs' =>
      e ← get_entry d a;
      if negb (pid =? vm_pid (ve_vm e)) then direct_wait d a evs' waited
      else
        match st with
        | WExited 0 => direct_started d a waited
        | _ => direct_end d a 1
        end
  end.

(** A [kevent] that fails is an answer of the oracle. *)
Definition direct_register d a (evs : list direct_event) (waited : bool) : C (Z * daemon NV W) :=
  ok ← malloc;
  if negb ok then d ← VM_POWEROFF ops d a; direct_end d a 1
  else d ← call_plugins dv d a; direct_wait d a evs waited.

Definition direct_run d (kqueue : bool) (found : option (vm_conf_entry NV)) (install single : bool)
    (evs : list direct_event) (waited : bool) : C (Z * daemon NV W) :=
  if negb kqueue then mret (1, d)
  else
    match found with
    | None => mret (1, d)
    | Some ce =>
        ce ← direct_conf ce install single;
        '(r, d) ← create_vm_entry d ce;
        match r with
        | None => mret (1, d)
        | Some a =>
            '(rc, d) ← assign_comport dv nmdm_offset d a;
            if rc <? 0 then direct_end d a 1
            else
              '(rc, d) ← VM_START ops d a;
              if rc <? 0 then direct_end d a 1 else direct_register d a evs waited
        end
    end.

(** ** The VM never outlives the program *)

Context `{Hlaws : forall m, BackendLaws (m_name m) (ops m)}.

(** The VM of the program in state [d]: what changed since [d0] is its entry. *)
Definition running d0 a m d e : Prop :=
  d_heap d0 !! a = None /\ d_heap d = <[a := e]> (d_heap d0) /\ ve_method e = Some m /\
  startable (vm_ent_conf (ve_vm e)) m.

Lemma running_entry d0 a m d e : running d0 a m d e -> d_heap d !! a = Some e.
Proof. intros (_ & -> & _). apply lookup_insert_eq. Qed.

Lemma running_step d0 a m d e e' d' : running d0 a m d e -> step d a e e' d' -> running d0 a m d' e'.
Proof.
  intros (H0 & Hh & Hm & Hs) ([Hb _] & Hc & Hm' & _).
  split; [done | split; [by rewrite Hb, Hh, insert_insert_eq | split; [congruence | by rewrite Hc]]].
Qed.

(** The last thing that was done: the VM was cleaned up, the plugins were told, and the entry was freed. *)
Definition closed a (d' : daemon NV W) : Prop :=
  exists d e o o', d_heap d !! a = Some e /\
    (d ← cleanup_virtual_machine k ops d a; d ← call_plugins dv d a; free_vm_entry d a) o = Done d' o'.

(** The end of a run whose VM was made: the program still waits and the VM is there, or the VM is cleaned up and gone. *)
Definition ended d0 a m (p : Z * daemon NV W) : Prop :=
  (p.1 = 2 /\ exists e, running d0 a m p.2 e) \/
  ((p.1 = 0 \/ p.1 = 1) /\ d_heap p.2 = d_heap d0 /\ closed a p.2).

Lemma closing_safe d0 a m d e :
  running d0 a m d e ->
  wp (d ← cleanup_virtual_machine k ops d a; d ← call_plugins dv d a; free_vm_entry d a)
     (fun d' => d_heap d' = d_heap d0 /\ closed a d') tolerated.
Proof.
  intros Hr. pose proof (running_entry _ _ _ _ _ Hr) as He. destruct Hr as (H0 & Hh & Hm & [Hs _]).
  eapply wp_mono; [apply wp_run | intros d' [H1 (o & o' & Ho)]; split; [exact H1 | by exists d, e, o, o'] | done].
  apply wp_bind. eapply wp_mono; [by apply (cleanup_step k ops d a e m) | | done]. intros d1 (e1 & [[Hh1 _] _]).
  assert (He1 : d_heap d1 !! a = Some e1) by (by rewrite Hh1, lookup_insert_eq).
  apply wp_bind, (wp_call_plugins dv d1 a e1 _ _ He1). intros w.
  unfold free_vm_entry. apply wp_bind, (wp_get_entry _ a e1 _ _ He1). apply wp_ret. cbn.
  rewrite Hh1, Hh, insert_insert_eq. by apply delete_insert_id.
Qed.

Lemma running_end_any d0 a m d e rc :
  running d0 a m d e -> rc = 0 \/ rc = 1 -> wp (direct_end d a rc) (ended d0 a m) tolerated.
Proof.
  intros Hr Hrc o. pose proof (closing_safe d0 a m d e Hr o) as H. unfold direct_end, mbind, C_bind in H |- *.
  destruct (cleanup_virtual_machine k ops d a o) as [d1 o1 |]; [| exact H].
  destruct (call_plugins dv d1 a o1) as [d2 o2 |]; [| exact H].
  destruct (free_vm_entry d2 a o2) as [d3 o3 |]; [| exact H]. right. by split.
Qed.

Lemma running_poweroff d0 a m d e :
  running d0 a m d e -> wp (d ← VM_POWEROFF ops d a; direct_end d a 1) (ended d0 a m) tolerated.
Proof.
  intros Hr. apply wp_bind.
  eapply wp_mono; [apply (VM_POWEROFF_step ops d a e m); [by eapply running_entry | apply Hr] | intros d1 S1 | done].
  eapply (running_end_any d0 a m d1 e); [by eapply running_step | auto].
Qed.

Lemma direct_started_safe d0 a m d e waited :
  running d0 a m d e -> wp (direct_started d a waited) (ended d0 a m) tolerated.
Proof.
  intros Hr. pose proof (running_entry _ _ _ _ _ Hr) as He. unfold direct_started.
  apply wp_bind, (wp_get_entry d a e _ _ He). case_decide.
  - apply wp_bind. eapply wp_mono; [apply (VM_START_step ops d a e m He); apply Hr | | done].
    intros [rc d1] (e1 & S1). cbn in S1. pose proof (running_step _ _ _ _ _ _ _ Hr S1) as R1.
    destruct (rc <? 0); [by eapply running_end_any; eauto |].
    apply wp_bind, (wp_call_plugins dv d1 a e1); [by eapply running_entry | intros w].
    eapply (running_end_any d0 a m (d1 <| d_world := w |>)); [exact R1 | destruct waited; auto].
  - eapply running_end_any; [done | auto].
Qed.

Lemma direct_wait_safe d0 a m d e evs waited :
  running d0 a m d e -> wp (direct_wait d a evs waited) (ended d0 a m) tolerated.
Proof.
  intros Hr. pose proof (running_entry _ _ _ _ _ Hr) as He.
  induction evs as [| [rs ws | pid [st |] | |] evs IH]; cbn [direct_wait].
  - apply wp_ret. left. by split; [| exists e].
  - exact IH.
  - apply wp_bind, (wp_get_entry d a e _ _ He). destruct (negb _); [exact IH |].
    repeat case_match; try (by eapply running_end_any; eauto). by eapply direct_started_safe.
  - eapply running_end_any; eauto.
  - by eapply running_poweroff.
  - by eapply running_poweroff.
Qed.

Lemma startable_direct ce m comport install single :
  startable ce m ->
  startable {| ce_conf := ce_conf ce <| vc_comport := comport |> <| vc_install := install |> <| vc_single_user := single |>;
               ce_pl_data := ce_pl_data ce |} m.
Proof. by intros (H1 & H2 & H3 & H4). Qed.

Lemma create_running d ce m F :
  d_heap d !! d_next d = None -> startable ce m ->
  wp (create_vm_entry d ce)
     (fun p => p = (None, d) \/ exists e, p.1 = Some (d_next d) /\ running d (d_next d) m p.2 e /\
        d_vm_list p.2 = d_next d :: d_vm_list d) F.
Proof.
  intros Hn Hm. unfold create_vm_entry. apply wp_bind, wp_malloc. intros []; cbn [negb]; [| apply wp_ret; by left].
  apply wp_bind. destruct (Hm) as (_ & _ & _ & Hset). intros o. rewrite Hset. cbn. right.
  eexists. split; [done | split; [| done]]. by split_and!.
Qed.

Lemma running_listed d0 a m d e :
  listed d0 -> running d0 a m d e -> d_vm_list d = a :: d_vm_list d0 -> listed d.
Proof.
  intros Hl (_ & Hh & _) Hv b Hb. rewrite Hh, lookup_insert_is_Some. rewrite Hv in Hb.
  destruct (decide (a = b)); [by left | right; split; [done |]]. apply Hl. by apply elem_of_cons in Hb as [-> | Hb].
Qed.

Lemma direct_run_spec d kqueue found install single evs waited :
  listed d -> d_heap d !! d_next d = None -> (forall ce, found = Some ce -> exists m, startable ce m) ->
  wp (direct_run d kqueue found install single evs waited)
     (fun p => p = (1, d) \/ exists m, ended d (d_next d) m p) tolerated.
Proof.
  intros Hl Hn Hf. unfold direct_run. destruct (negb kqueue); [apply wp_ret; auto |].
  destruct found as [ce |]; [| apply wp_ret; auto]. destruct (Hf ce eq_refl) as [m Hm].
  apply wp_bind. eapply (wp_mono _ (fun ce' => startable ce' m) _ tolerated); [| intros ce' Hm' | done].
  { unfold direct_conf, set_single_user, null_guard. apply wp_bind, wp_strdup; intros o; by apply startable_direct. }
  apply wp_bind. eapply wp_mono; [by apply (create_running d ce' m tolerated) | | done].
  intros [r d1] [[= -> ->] | (e & [= ->] & Hr & Hv)]; [apply wp_ret; auto |]. cbn [snd] in Hr, Hv.
  eapply (wp_mono _ (ended d (d_next d) m) _ tolerated); [| by intros p Hp; right; exists m | done].
  apply wp_bind. eapply wp_mono; [apply (assign_comport_step dv nmdm_offset d1 (d_next d) e) | | done];
    [by eapply running_listed | by eapply running_entry |].
  intros [rc2 d2] (e2 & S2). cbn in S2. pose proof (running_step _ _ _ _ _ _ _ Hr S2) as Hr2.
  destruct (rc2 <? 0); [eapply running_end_any; eauto |].
  apply wp_bind. eapply wp_mono; [apply (VM_START_step ops d2 _ e2 m); [by eapply running_entry | apply Hr2 | apply Hr2] | | done].
  intros [rc3 d3] (e3 & S3). cbn in S3. pose proof (running_step _ _ _ _ _ _ _ Hr2 S3) as Hr3.
  destruct (rc3 <? 0); [eapply running_end_any; eauto |].
  unfold direct_register. apply wp_bind, wp_malloc. intros []; cbn [negb].
  - apply wp_bind, (wp_call_plugins dv d3 _ e3); [by eapply running_entry | intros w].
    by eapply (direct_wait_safe d _ m (d3 <| d_world := w |>)).
  - by eapply running_poweroff.
Qed.

(** [C21] A VM that runs without the daemon is cleaned up, whatever happens to it and whichever allocation or call of the code fails.
    When the program ends, either it ended before it made the VM, and nothing has changed; or the last thing it did was
    to clean up the VM, to tell the plugins and to free its entry, in this order, and no other entry has changed.
    While it still waits (2) the VM is there.  Nothing is used after it was freed; the result is 0 or 1.  Left are the
    faults of [tolerated]: in the code a [fork] that fails ends the whole program by [exit] inside the backend, and then nothing is
    cleaned up.  The backend keeps its promises ([BackendLaws]). *)
Theorem direct_run_cleans_up d kqueue found install single evs waited :
  listed d -> d_heap d !! d_next d = None -> (forall ce, found = Some ce -> exists m, startable ce m) ->
  wp (direct_run d kqueue found install single evs waited)
     (fun p => p = (1, d) \/
        (p.1 = 2 /\ exists e, d_heap p.2 = <[d_next d := e]> (d_heap d)) \/
        ((p.1 = 0 \/ p.1 = 1) /\ d_heap p.2 = d_heap d /\
         exists d1 e1 o o', d_heap d1 !! d_next d = Some e1 /\
           (d2 ← cleanup_virtual_machine k ops d1 (d_next d); d3 ← call_plugins dv d2 (d_next d); free_vm_entry d3 (d_next d)) o =
             Done p.2 o')) tolerated.
Proof.
  intros Hl Hn Hf. eapply wp_mono; [by apply direct_run_spec | | done].
  intros p [-> | (m & [[H1 (e & _ & Hh & _)] | [H1 H2]])]; [by left | right; left; split; [done | by exists e] | by right; right].
Qed.

(** The time limit of the loader can be switched off by 0 in the daemon, as
    bmd.conf(5) says; without the daemon it is a limit of 0 seconds, and the VM is
    powered off at once. *)
Theorem direct_zero_timeout d a e evs waited :
  VM_STATE e = LOAD -> vc_loader_timeout (VM_CONF e) = 0 -> d_heap d !! a = Some e ->
  (exists kev, kev ∈ direct_kevents e /\ k_filter kev = EVFILT_TIMER /\ k_data kev = 0) /\
  direct_wait d a (TimerFires :: evs) waited = (d ← VM_POWEROFF ops d a; direct_end d a 1) /\
  wp (after_start dv d a) (fun p => d_events p.2 = d_events d) no_fault.
Proof.
  intros Hs Ht He. split; [| split; [done |]].
  - exists {| k_ident := 1; k_filter := EVFILT_TIMER; k_flags := Z.lor EV_ADD EV_ONESHOT; k_data := 0 |}.
    split; [| done]. unfold direct_kevents. rewrite Hs, Ht. right. left.
  - unfold after_start. apply wp_bind, (wp_get_entry d a e _ _ He). rewrite Hs, Ht.
    apply wp_bind, wp_ret. cbn [Z.ltb Z.compare]. apply wp_bind, (wp_get_entry d a e _ _ He).
    repeat case_match; by apply wp_ret.
Qed.

End direct.

(** The last configuration of the name is found, when all have names. *)
Theorem lookup_vm_conf_correct {NV} name (l : list (vm_conf_entry NV)) o :
  Forall (fun ce => is_Some (vc_name (ce_conf ce))) l ->
  lookup_vm_conf name (Some l) o =
  Done (last (List.filter (fun ce => bool_decide (vc_name (ce_conf ce) = Some name)) l)) o.
Proof.
  intros Hl. unfold lookup_vm_conf. set (r := None : option (vm_conf_entry NV)).
  assert (H : forall ret, lookup_loop name l ret o =
    Done (match last (List.filter (fun ce => bool_decide (vc_name (ce_conf ce) = Some name)) l) with
          | Some ce => Some ce | None => ret end) o).
  { induction Hl as [| ce l [n Hn] Hl IH]; intros ret; [done |]. cbn [lookup_loop]. rewrite Hn.
    unfold mbind, C_bind. cbn [deref mret C_ret]. cbn [List.filter]. rewrite Hn.
    unfold mret, C_ret. rewrite IH. pose proof (strcmp_eq0 n name) as Hc.
    destruct (Z.eqb_spec (strcmp n name) 0) as [E | E].
    - apply Hc in E as ->. rewrite bool_decide_true by done.
      destruct (List.filter _ l) as [| y l'] eqn:F; [done |].
      rewrite last_cons_cons. destruct (last (y :: l')) eqn:L; [done | by apply last_None in L].
    - rewrite bool_decide_false; [done |]. intros [= ->]. by apply E, Hc. }
  rewrite H. by destruct (last _).
Qed.

(** Standard input reaches the VM in order. *)
Lemma write_stdin_prefix ws : forall buf, exists rest, buf = write_stdin ws buf ++ rest /\ (OutFails ∉ ws -> rest = []).
Proof.
  induction ws as [| [n | |] ws IH]; intros [| x buf].
  1-2: by exists []; rewrite ?app_nil_r.
  all: try (by exists []).
  - destruct (IH (drop n (x :: buf))) as (rest & Hr & Hf). exists rest. split.
    + cbn [write_stdin]. by rewrite <- app_assoc, <- Hr, take_drop.
    + intros H. apply Hf. intros H'. apply H. by right.
  - destruct (IH (x :: buf)) as (rest & Hr & Hf). exists rest. split; [exact Hr |].
    intros H. apply Hf. intros H'. apply H. by right.
  - exists (x :: buf). split; [done |]. intros H. contradict H. by left.
Qed.

(** ** Runs *)

(** The process of the VM ends: the VM is cleaned up. *)
Lemma direct_run_cleans_up_witness :
  exists d1 e1 d2 o o', d_heap d1 !! 0 = Some e1 /\ d_heap d2 = ∅ /\
    direct_run demo_kernel demo_devices demo_ops 0 (idle 100) true (Some (demo_vm "vm")) false true
      [ProcEnds 100 (Some (WExited 0))] true [] = Done (0, d2) [] /\
    (d ← cleanup_virtual_machine demo_kernel demo_ops d1 0; d ← call_plugins demo_devices d 0; free_vm_entry d 0) o = Done d2 o'.
Proof.
  pose proof (direct_run_cleans_up demo_kernel demo_devices demo_ops 0 (idle 100) true (Some (demo_vm "vm")) false true
    [ProcEnds 100 (Some (WExited 0))] true) as H.
  destruct (direct_run demo_kernel demo_devices demo_ops 0 (idle 100) true (Some (demo_vm "vm")) false true
      [ProcEnds 100 (Some (WExited 0))] true []) as [[rc d2] o2 | f] eqn:E; [| exfalso; vm_compute in E; discriminate].
  assert (Hrc : rc = 0) by (vm_compute in E; congruence). assert (Ho : o2 = []) by (vm_compute in E; congruence). subst rc o2.
  unshelve epose proof (H _ _ _ []) as H1.
  - intros a Ha. by apply elem_of_nil in Ha.
  - reflexivity.
  - intros ce [= <-]. eexists. apply demo_startable.
  - rewrite E in H1. destruct H1 as [H1 | [[H1 _] | (_ & H1 & d1 & e1 & o & o' & H2 & H3)]]; [discriminate .. |].
    exists d1, e1, d2, o, o'. split; [exact H2 | split; [exact H1 | split; [reflexivity | exact H3]]].
Defined.

(** A VM that is loading, without a time limit. *)
Definition demo_loading : vm_entry unit :=
  {| ve_vm := new_vm {| ce_conf := ce_conf (demo_vm "vm") <| vc_loader_timeout := 0 |>; ce_pl_data := [] |} <| vm_state := LOAD |>;
     ve_method := Some ({| m_name := "bhyve" |}, PlData 0) |}.

Definition demo_direct : daemon unit Z := put_entry (idle 100) 5 demo_loading.

Lemma direct_zero_timeout_witness :
  (exists kev, kev ∈ direct_kevents demo_loading /\ k_filter kev = EVFILT_TIMER /\ k_data kev = 0) /\
  direct_wait demo_kernel demo_devices demo_ops demo_direct 5 [TimerFires] true =
    (d ← VM_POWEROFF demo_ops demo_direct 5; direct_end demo_kernel demo_devices demo_ops d 5 1) /\
  wp (after_start demo_devices demo_direct 5) (fun p => d_events p.2 = d_events demo_direct) no_fault.
Proof.
  apply (direct_zero_timeout demo_kernel demo_devices demo_ops demo_direct 5 demo_loading [] true); reflexivity.
Defined.

(** A VM that boots, gets a line and ends. *)
Example demo_direct_run :
  match direct_run demo_kernel demo_devices demo_ops 0 (idle 100) true (Some (demo_vm "vm")) false true
          [StdinReady [Data ["x"%char]] []; ProcEnds 100 (Some (WExited 0))] true [] with
  | Done (rc, d) _ => rc = 0 /\ d_heap d = ∅
  | Crash _ => False
  end.
Proof. vm_compute. by split. Qed.
