(* ===== verification/Control.v ===== *)
(** * The control program bmdctl (src/control.c)

    bmdctl decides by its arguments what to do (Options.v), sends a request to
    the daemon or reads the configuration files itself, and prints the result.

    A request is the list of the strings that are added to an nvlist, an answer
    the list of its entries, as in Command.v; [nvlist_encode] and [nvlist_decode] are the
    encodings of libnv ([nvlist_encode] has no result when the program is aborted, as for a list with
    a NULL string).  What happens on the socket is a [client_link], which
    depends on the bytes of the request.  What is printed on standard output is a
    result; messages on standard error are not. *)

From S2P Require Import Prelude CString Vars Conf Global MPool Plugin ParseValue Parser Load Tap Vm Network.
From S2P Require Import NvList SockBuf Daemon ConfList Reload Upkeep Command Console Options Direct.
From Stdlib Require Import Ascii Sorting.Permutation Sorted.

Local Open Scope Z_scope.

(** ** The connection *)

(** What [recvmsg] answers: bytes, perhaps with a descriptor; try again; an error.  The
    end of the list is the end of the connection. *)
Inductive msg_answer := MBytes (l : list ascii) (fd : option Z) | MAgain | MFails.

Record client_link := {
  cl_connect : bool;
  cl_send : Z;
  cl_nvlist_send : bool;
  cl_msgs : list msg_answer;
  cl_answer : list ascii;
}.

(** The loop of [recv_size]: [n] bytes are in [buf], [fd] is the descriptor once the
    first message has come. *)
Fixpoint recv_size_loop (msgs : list msg_answer) (buf : list ascii) (fd : option Z)
    : Z * list ascii * option Z :=
  match msgs with
  | [] => (0, buf, fd)
  | MAgain :: msgs' => recv_size_loop msgs' buf fd
  | MFails :: _ => (-1, buf, fd)
  | MBytes l f :: msgs' =>
      match take (4 - length buf) l with
      | [] => (0, buf, fd)
      | l =>
          let fd := match fd with Some _ => fd | None => Some (default (-1) f) end in
          let buf := buf ++ l in
          if Nat.ltb (length buf) 4 then recv_size_loop msgs' buf fd else (4, buf, fd)
      end
  end.

(** The result, [*sz] and [*fd], which is uninitialised ([None]) when nothing came. *)
Definition recv_size (msgs : list msg_answer) : C (Z * option Z * option Z) :=
  ok ← malloc;
  mret (if negb ok then (-1, None, None)
        else let '(rc, buf, fd) := recv_size_loop msgs [] None in
             (rc, if rc =? 4 then Some (ntohl buf) else None, fd)).

(** *** Reading an answer *)

Fixpoint find_entry (res : response) (key : string) : option rval :=
  match res with
  | [] => None
  | (x, v) :: res' => if String.eqb x key then Some v else find_entry res' key
  end.

(** libnv ends the program when an entry is not there. *)
Definition answer_bool (res : response) (key : string) : C bool :=
  match find_entry res key with Some (RBool b) => mret b | _ => crash ProcessExit end.

Definition answer_string (res : response) (key : string) : C string :=
  match find_entry res key with Some (RString (Some s)) => mret s | _ => crash ProcessExit end.

Definition answer_list (res : response) (key : string) : C (list response) :=
  match find_entry res key with Some (RList l) => mret l | _ => crash ProcessExit end.

(** [nvlist_exists_string] and the string. *)
Definition maybe_string (res : response) (key : string) : option string :=
  match find_entry res key with Some (RString s) => s | _ => None end.

Definition usage (argv0 : string) : string :=
  "usage: " +:+ argv0 +:+ " [-f config_file] <subcommand>" +:+ nl +:+
  "  boot [-c] <name>     : boot VM" +:+ nl +:+
  "  install [-c] <name>  : install VM from ISO image" +:+ nl +:+
  "  shutdown <name>      : ACPI shutdown VM" +:+ nl +:+
  "  poweroff <name>      : poweroff VM" +:+ nl +:+
  "  reset <name>         : reset VM" +:+ nl +:+
  "  console <name>       : connect to com port" +:+ nl +:+
  "  showcomport <name>   : show comport" +:+ nl +:+
  "  showvgaport <name>   : show vgaport" +:+ nl +:+
  "  showconfig [<name>]  : show VM config" +:+ nl +:+
  "  inspect <name>       : inspect and print installcmd & loadcmd" +:+ nl +:+
  "  run [-i] [-s] <name> : directly run with serial console" +:+ nl +:+
  "  list                 : list VM name & status" +:+ nl.

(** [%20s] and its like. *)
Definition pad (n : nat) (s : string) : string := spaces (n - String.length s) +:+ s.

Definition list_line (name ncpu memory loader state owner : string) : string :=
  pad 20 name +:+ pad 5 ncpu +:+ pad 7 memory +:+ pad 10 loader +:+ pad 12 state +:+ pad 12 owner +:+ nl.

Definition list_header : string :=
  list_line "name" "ncpu" "memory" "loader" "state" "owner" +:+
  list_line "-------------------" "----" "------" "---------" "-----------" "----------".

Section control.
Context {NV W : Type}
        (nvlist_encode : list (string * option string) -> option (list ascii))
        (nvlist_decode : list ascii -> option response)
        (link : list ascii -> client_link) (sock_path : option string)
        (qsort : (response -> response -> Z) -> list response -> list response).
Implicit Types (res : response).

Definition send_recv (cmd : list (string * option string)) : C (option response * string) :=
  match nvlist_encode cmd with
  | None => crash ProcessExit
  | Some bytes =>
      let l := link bytes in
      if negb (cl_connect l) then mret (None, "cannot connect to " +:+ pct_s sock_path +:+ nl)
      else if (cl_send l <=? 0) || negb (cl_nvlist_send l) then mret (None, "cannot send to bmd" +:+ nl)
      else
        '(rc, _, fd) ← recv_size (cl_msgs l);
        if rc <? 0 then mret (None, "server doen't return the size of message" +:+ nl)
        else
          match nvlist_decode (cl_answer l) with
          | None => mret (None, "server returns null" +:+ nl)
          | Some res =>
              match fd with
              | None => crash WildAccess
              | Some fd => mret (Some (if fd =? -1 then res else res ++ [(FD_KEY, RNumber fd)]), EmptyString)
              end
          end
  end.

Definition compare_by_name (a b : response) : Z :=
  match maybe_string a "name", maybe_string b "name" with
  | Some x, Some y => strcmp x y
  | _, _ => 0
  end.

Definition row_text (row : response) : C string :=
  name ← answer_string row "name";
  ncpu ← answer_string row "ncpu";
  memory ← answer_string row "memory";
  loader ← answer_string row "loader";
  state ← answer_string row "state";
  owner ← answer_string row "owner";
  mret (list_line name ncpu memory loader state owner).

(** [qsort] ends the program when a line has no name. *)
Definition check_names (rows : list response) : C unit :=
  foreach (fun _ row => _ ← answer_string row "name"; mret tt) rows tt.

Definition do_list : C (Z * string) :=
  '(res, out) ← send_recv [("command", Some "list")];
  match res with
  | None => mret (1, out)
  | Some res =>
      error ← answer_bool res "error";
      if (error : bool) then reason ← answer_string res "reason"; mret (0, out +:+ reason +:+ nl)
      else
        let out := out +:+ list_header in
        match find_entry res "vm_list" with
        | None => mret (0, out)
        | Some _ =>
            rows ← answer_list res "vm_list";
            ok ← malloc;
            if negb ok then mret (1, out)
            else
              _ ← check_names rows;
              out ← foreach (fun out row => line ← row_text row; mret (out +:+ line)) (qsort compare_by_name rows) out;
              mret (0, out)
        end
  end.

(** The names of the commands by [boot_style]. *)
Definition boot_commands : list string := ["showcomport"; "boot"; "install"].

(** [attach] is [attach_console] (Console.v) with its result. *)
Definition do_boot_console (attach : Z -> Z) (name : string) (boot_style : Z) (console show : bool) : C (Z * string) :=
  if Z.of_nat (length boot_commands) <? boot_style then mret (-1, EmptyString)
  else
    match boot_commands !! Z.to_nat boot_style with
    | None => crash WildAccess
    | Some command =>
        '(res, out) ← send_recv [("command", Some command); ("name", Some name)];
        match res with
        | None => mret (1, out)
        | Some res =>
            error ← answer_bool res "error";
            if (error : bool) then reason ← answer_string res "reason"; mret (1, out +:+ reason +:+ nl)
            else
              let out := if show
                         then out +:+ default "no com port" (maybe_string res "comport") +:+ nl else out in
              match take_number FD_KEY res with
              | (Some fd, _) => mret (if console && (attach (to_int fd) <? 0) then 1 else 0, out)
              | (None, _) => mret (if console then 1 else 0, out)
              end
        end
    end.

(** The port that is not in the answer is printed as a NULL pointer. *)
Definition do_show_vgaport (name : option string) : C (Z * string) :=
  '(res, out) ← send_recv [("command", Some "showvgaport"); ("name", name)];
  match res with
  | None => mret (1, out)
  | Some res =>
      error ← answer_bool res "error";
      if (error : bool) then reason ← answer_string res "reason"; mret (1, out +:+ reason +:+ nl)
      else mret (0, out +:+ pct_s (maybe_string res "vgaport") +:+ nl)
  end.

(** The end of [control]: the commands that only stop a VM. *)
Definition do_request (cmd name : string) : C (Z * string) :=
  '(res, out) ← send_recv [("command", Some cmd); ("name", Some name)];
  match res with
  | None => mret (1, out)
  | Some res =>
      error ← answer_bool res "error";
      if (error : bool) then reason ← answer_string res "reason"; mret (1, out +:+ reason +:+ nl)
      else mret (0, out)
  end.

(** ** The configuration files *)

(** The loop over the configurations; [count] is the number that was shown. *)
Fixpoint show_confs (name : option string) (l : list (vm_conf_entry NV)) (count : nat) (out : string) : C string :=
  match l with
  | [] => mret out
  | ce :: l' =>
      chosen ← match name with
               | None => mret true
               | Some n => x ← deref (vc_name (ce_conf ce)); mret (strcmp x n =? 0)
               end;
      if (chosen : bool) then
        text ← dump_vm_conf (ce_conf ce);
        show_confs name l' (S count) (out +:+ (if Nat.eqb count 0 then EmptyString else nl) +:+ text)
      else show_confs name l' count out
  end.

Definition do_showconfig (name : option string) (news : option (list (vm_conf_entry NV))) : C (Z * string) :=
  match news with
  | None => mret (1, "failed to load VM config files" +:+ nl)
  | Some l => out ← show_confs name l 0 EmptyString; mret (0, out)
  end.

(** A line feed is shown as a backslash and the letter n. *)
Fixpoint show_lf (s : string) : string :=
  match s with
  | EmptyString => EmptyString
  | String c s' => if Ascii.eqb c LF then String "\" (String "n" (show_lf s')) else String c (show_lf s')
  end.

Context (inspect : vm_conf -> W -> C (option string * W)).

(** The two rounds of the loop. *)
Fixpoint inspect_both (conf : vm_conf) (l : list (bool * string)) (w : W) (out : string) : C (W * string) :=
  match l with
  | [] => mret (w, out)
  | (flag, type) :: l' =>
      '(_, conf) ← at_ptr conf (fun c => set_install c flag);
      '(r, w) ← inspect conf w;
      inspect_both conf l' w
        (out +:+ match r with
                 | None => type +:+ " = (null)" +:+ nl
                 | Some s => type +:+ " = " +:+ show_lf s +:+ nl
                 end)
  end.

Definition do_inspect (name : string) (news : option (list (vm_conf_entry NV))) (w : W) : C (Z * string * W) :=
  found ← lookup_vm_conf name news;
  match found with
  | None => mret (1, (match news with None => "failed to load VM config files" +:+ nl | Some _ => EmptyString end)
                     +:+ "no such VM " +:+ name +:+ nl, w)
  | Some ce =>
      '(w, out) ← inspect_both (ce_conf ce) [(true, "installcmd"); (false, "loadcmd")] w EmptyString;
      mret (0, out, w)
  end.

(** [run] is [direct_run] (Direct.v) with its result.  The options of the global section that
    are read first, from the file of -f or the default one, decide which socket is used
    ([link]) and what [news] is. *)
Definition control (attach : Z -> Z) (run : option (vm_conf_entry NV) -> bool -> bool -> C Z)
    (argv : list string) (news : option (list (vm_conf_entry NV))) (w : W) : C (Z * string * W) :=
  let argv0 := default EmptyString ((skip_config argv).2 !! 0%nat) in
  c ← dispatch argv;
  let keep (r : C (Z * string)) := '(rc, out) ← r; mret (rc, out, w) in
  match c with
  | Usage => mret (1, usage argv0, w)
  | DoList => keep do_list
  | ShowConfig name => keep (do_showconfig name news)
  | ShowVgaport name => keep (do_show_vgaport name)
  | DoInspect name => do_inspect name news w
  | BootConsole name style console show => keep (do_boot_console attach name style console show)
  | DirectRun name install single =>
      found ← lookup_vm_conf name news;
      rc ← run found install single;
      mret (rc, EmptyString, w)
  | Request cmd name => keep (do_request cmd name)
  end.

End control.

(** ** The commands that are sent *)

(** The command of a request. *)
Definition choice_command (c : choice) : option string :=
  match c with
  | DoList => Some "list"
  | ShowVgaport _ => Some "showvgaport"
  | BootConsole _ style _ _ => boot_commands !! Z.to_nat style
  | Request cmd _ => Some cmd
  | _ => None
  end.

Definition choice_ok (c : choice) : Prop :=
  match c with
  | BootConsole _ style _ _ => style = 0 \/ style = 1 \/ style = 2
  | Request cmd _ => cmd ∈ ["reset"; "poweroff"; "stop"; "shutdown"]
  | _ => True
  end.

Lemma is_cmd_elem a l : is_cmd a l = true -> a ∈ l.
Proof.
  unfold is_cmd. rewrite existsb_exists. intros (x & Hx & E). apply Z.eqb_eq, strcmp_eq0 in E as ->. by apply list_elem_of_In.
Qed.

Lemma dispatch_ok argv : wp (dispatch argv) choice_ok (fun _ => True).
Proof.
  assert (Hloop : forall A (c : C A) (Q : choice -> Prop) (h : A -> C choice),
    (forall x, wp (h x) Q (fun _ => True)) -> wp (c ≫= h) Q (fun _ => True)).
  { intros A c Q h H o. unfold mbind, C_bind. destruct (c o); [apply H | done]. }
  unfold dispatch, named_command. case_match; [by apply wp_ret |]. destruct (skip_config argv) as [argc l].
  apply Hloop. intros a. apply Hloop. intros cmd. repeat (case_match; [try (by apply wp_ret); by apply Hloop; intros; apply wp_ret |]).
  destruct (if argc =? 3 then _ else _) as [c |] eqn:E.
  - apply wp_ret. destruct (argc =? 3); [| done]. destruct (l !! 2%nat) as [name |]; [| done]. cbn in E.
    repeat case_match; inversion E; subst; cbn; auto.
  - unfold boot_options, run_options. repeat case_match; try (by apply wp_ret).
    all: try (apply Hloop; intros [[] ?]; [| by apply wp_ret]; repeat case_match; apply Hloop; intros [] ; apply wp_ret; cbn; auto).
    all: apply Hloop; intros x; apply Hloop; intros y; apply wp_ret; cbn; apply is_cmd_elem;
      match goal with H : _ && _ = true |- _ => by apply andb_true_iff in H as [_ H] end.
Qed.

(** ** bmdctl and the daemon *)

Fixpoint find_string (cmd : list (string * option string)) (key : string) : option string :=
  match cmd with
  | [] => None
  | (x, v) :: cmd' => if String.eqb x key then v else find_string cmd' key
  end.

(** The encodings of libnv: a request is read as it was made, an answer too. *)
Class WireLaws {NV} (nv : libnv NV) (nvlist_unpack : list ascii -> option NV) (nvlist_pack : response -> option (list ascii))
    (nvlist_encode : list (string * option string) -> option (list ascii)) (nvlist_decode : list ascii -> option response) := {
  request_law cmd bytes : nvlist_encode cmd = Some bytes ->
    exists req, nvlist_unpack bytes = Some req /\ forall key v, find_string cmd key = Some v ->
      nv_exists_type nv req key NV_TYPE_STRING = true /\ nv_get_string nv req key = v;
  answer_law res bytes : nvlist_pack res = Some bytes -> nvlist_decode bytes = Some res;
}.

(** What bmdctl gets from a connection with this buffer: the length with the descriptor, then the answer.  The
    connection is ideal: connecting and sending succeed and the whole answer arrives ([send_sock_buf_correct] in SockBuf.v tells what
    the daemon sends on a real one, and [recv_size] above what bmdctl makes of any messages). *)
Definition link_of (sb : sock_buf) : client_link := {|
  cl_connect := true;
  cl_send := 4;
  cl_nvlist_send := true;
  cl_msgs := [MBytes (htonl (b_res_size sb)) (if b_res_fd sb =? -1 then None else Some (b_res_fd sb))];
  cl_answer := b_res_buf sb;
|}.

(** The answer of a command on the other side: the descriptor moves to the end. *)
Definition client_view (res : response) : response :=
  let '(fd, r) := take_number FD_KEY res in
  match fd with
  | Some n => if n =? -1 then r else r ++ [(FD_KEY, RNumber n)]
  | None => r
  end.

Section service.
Context {NV W : Type} (k : kernel W) (dv : devices NV W) (ops : vm_method -> vm_ops NV W) (nmdm_offset : Z)
        (nv : libnv NV) (cs : com_sys W) (fuel : nat)
        nvlist_unpack nvlist_pack nvlist_encode nvlist_decode
        `{HW : !WireLaws nv nvlist_unpack nvlist_pack nvlist_encode nvlist_decode}
        (sock_path : option string)
        (qsort : (response -> response -> Z) -> list response -> list response)
        (inspect : vm_conf -> W -> C (option string * W)) (attach : Z -> Z)
        (run : option (vm_conf_entry NV) -> bool -> bool -> C Z).
Implicit Types (s : server NV W) (sb : sock_buf) (res : response).

Abbreviation serve := (recv_command k dv ops nmdm_offset nv cs nvlist_unpack nvlist_pack fuel).
Abbreviation ctl sb := (control nvlist_encode nvlist_decode (fun _ => link_of sb) sock_path qsort inspect attach run).

(** [sb] has received the bytes of the request [cmd]. *)
Definition has_request sb cmd : Prop :=
  exists bytes, nvlist_encode cmd = Some bytes /\ b_buf sb = Some (Some <$> bytes).

Lemma has_request_run sb cmd :
  has_request sb cmd -> exists bytes req, nvlist_encode cmd = Some bytes /\ nvlist_unpack bytes = Some req /\
    (forall o, buf_bytes sb o = Done bytes o) /\
    forall key v, find_string cmd key = Some v ->
      nv_exists_type nv req key NV_TYPE_STRING = true /\ nv_get_string nv req key = v.
Proof.
  intros (bytes & He & Hb). destruct (request_law _ _ He) as (req & Hu & Hs). exists bytes, req.
  split; [done | split; [done | split; [| done]]]. intros o. unfold buf_bytes. rewrite Hb. cbn.
  assert (E : mapM id (Some <$> bytes : list (option ascii)) = Some bytes).
  { apply mapM_Some_2. clear. induction bytes; [done |]. by constructor. }
  unfold mbind, C_bind. cbn. by rewrite E.
Qed.

Lemma recv_size_link z f : recv_size [MBytes (htonl z) f] [] = Done (4, Some (ntohl (htonl z)), Some (default (-1) f)) [].
Proof. reflexivity. Qed.

(** bmdctl gets what was stored. *)
Lemma send_recv_link cmd sb res :
  is_Some (nvlist_encode cmd) -> nvlist_decode (b_res_buf sb) = Some res ->
  send_recv nvlist_encode nvlist_decode (fun _ => link_of sb) sock_path cmd [] =
  Done (Some (if b_res_fd sb =? -1 then res else res ++ [(FD_KEY, RNumber (b_res_fd sb))]), EmptyString) [].
Proof.
  intros [bytes He] Hd. unfold send_recv. rewrite He. cbn -[recv_size htonl]. unfold mbind, C_bind.
  rewrite recv_size_link. cbn. rewrite Hd. destruct (b_res_fd sb =? -1) eqn:E; cbn; [done |]. by rewrite E.
Qed.

(** A request for command [name] whose function answers [res]. *)
Lemma served sb cmd name f res s s1 news o o1 out :
  has_request sb cmd -> find_string cmd "command" = Some name ->
  get_command_function k dv ops nmdm_offset nv cs fuel name = Some f ->
  (forall req, (forall key v, find_string cmd key = Some v ->
      nv_exists_type nv req key NV_TYPE_STRING = true /\ nv_get_string nv req key = v) ->
    f s req (b_peer sb) news o = Done (res, s1) o1) ->
  nvlist_pack (take_number FD_KEY res).2 = Some out ->
  exists sb', serve s sb news o = Done (0, sb', s1) o1 /\
    send_recv nvlist_encode nvlist_decode (fun _ => link_of sb') sock_path cmd [] = Done (Some (client_view res), EmptyString) [].
Proof.
  intros Hreq Hn Hf Hrun Hp. destruct (has_request_run sb cmd Hreq) as (bytes & req & He & Hu & Hb & Hs).
  destruct (Hs _ _ Hn) as [Hx Hg]. unfold recv_command, client_view.
  destruct (take_number FD_KEY res) as [fd r] eqn:Ht. cbn in Hp.
  eexists. split.
  - unfold mbind at 1, C_bind at 1. rewrite Hb, Hu. unfold nvlist_get_string. rewrite Hx, Hg.
    unfold mbind, C_bind. cbn -[get_command_function]. rewrite Hf, (Hrun req Hs), Ht. unfold store_response. rewrite Hp. reflexivity.
  - erewrite send_recv_link; [| by eexists | by apply answer_law]. cbn.
    destruct fd as [n |]; [| done]. cbn. by destruct (n =? -1).
Qed.

(** *** Requests that name a VM *)

Abbreviation named cmd name := [("command", Some cmd); ("name", Some name)].

(** The VM that a request names. *)
Definition choice_vm (c : choice) : option string :=
  match c with
  | ShowVgaport name => name
  | BootConsole name _ _ _ | Request _ name => Some name
  | _ => None
  end.

(** What bmdctl does when the daemon answers with an error. *)
Lemma control_error sb argv c cmd name reason news w :
  dispatch argv [] = Done c [] -> choice_command c = Some cmd -> choice_vm c = Some name ->
  send_recv nvlist_encode nvlist_decode (fun _ => link_of sb) sock_path (named cmd name) [] =
    Done (Some (verdict (Some reason)), EmptyString) [] ->
  ctl sb argv news w [] = Done (1, reason +:+ nl, w) [].
Proof.
  intros Hd Hc Hn Hr. pose proof (dispatch_ok argv []) as Hok. rewrite Hd in Hok. unfold control, mbind, C_bind. rewrite Hd.
  destruct c as [| | | v | | v style console show | | x v]; try done; cbn in Hc, Hn, Hok; first [injection Hn as -> | subst v].
  - injection Hc as <-. unfold do_show_vgaport, mbind, C_bind. by rewrite Hr.
  - unfold do_boot_console. replace (_ <? style) with false by (symmetry; apply Z.ltb_ge; by destruct_or! Hok; subst).
    rewrite Hc. unfold mbind, C_bind. by rewrite Hr.
  - injection Hc as <-. unfold do_request, mbind, C_bind. by rewrite Hr.
Qed.

(** A request for the command that the daemon does not have. *)
Lemma stop_served s sb name news o :
  has_request sb (named "stop" name) -> b_res_fd sb = -1 -> is_Some (nvlist_pack (verdict (Some "unknown command"))) ->
  exists sb', serve s sb news o = Done (0, sb', s) o /\
    send_recv nvlist_encode nvlist_decode (fun _ => link_of sb') sock_path (named "stop" name) [] =
    Done (Some (verdict (Some "unknown command")), EmptyString) [].
Proof.
  intros Hreq Hfd [out Hp]. destruct (has_request_run sb _ Hreq) as (bytes & req & He & Hu & Hb & Hq).
  destruct (Hq "command" "stop" eq_refl) as [Hx Hg]. eexists. split.
  - unfold recv_command. unfold mbind at 1, C_bind at 1. rewrite Hb, Hu. unfold nvlist_get_string. rewrite Hx, Hg.
    unfold mbind, C_bind. change (get_command_function _ _ _ _ _ _ _ "stop") with (None (A := cfunc (NV := NV) (W := W))).
    cbn -[recv_error]. unfold recv_error, store_response. rewrite Hp. reflexivity.
  - erewrite send_recv_link; [| by eexists | by apply answer_law]. cbn. by rewrite Hfd.
Qed.

(** The commands of requests that name a VM. *)
Lemma choice_known argv c cmd name :
  dispatch argv [] = Done c [] -> choice_command c = Some cmd -> choice_vm c = Some name ->
  cmd = "stop" \/ cmd <> "list" /\ exists f, get_command_function k dv ops nmdm_offset nv cs fuel cmd = Some f /\
                                       (cmd, f) ∈ command_list k dv ops nmdm_offset nv cs fuel.
Proof.
  intros Hd Hc Hn. pose proof (dispatch_ok argv []) as H. rewrite Hd in H.
  assert (Hknown : forall x, x ∈ ["boot"; "install"; "showcomport"; "showvgaport"; "reset"; "poweroff"; "shutdown"] ->
    x <> "list" /\ exists f, get_command_function k dv ops nmdm_offset nv cs fuel x = Some f /\
                          (x, f) ∈ command_list k dv ops nmdm_offset nv cs fuel).
  { intros x Hx. unfold command_list. rewrite !elem_of_cons, elem_of_nil in Hx.
    destruct_or! Hx; subst; try done; (split; [done |]; eexists; split; [reflexivity | rewrite !elem_of_cons; tauto]). }
  destruct c as [| | | v | | v style console show | | x v]; try done; cbn in H, Hc.
  - injection Hc as <-. right. apply Hknown. rewrite !elem_of_cons. tauto.
  - right. destruct_or! H; subst style; injection Hc as <-; apply Hknown; rewrite !elem_of_cons; tauto.
  - injection Hc as ->. rewrite !elem_of_cons, elem_of_nil in H. destruct_or! H; subst; try done; [| | by left |]; right; apply Hknown;
      rewrite !elem_of_cons; tauto.
Qed.

(** What a user is told who may not control the VM. *)
Definition refusal (cmd : string) : string := if String.eqb cmd "stop" then "unknown command" else "VM not found".

(** [C8] From end to end: a user who may not control a VM gets nothing from the daemon, with any command line that makes
    bmdctl ask for that VM: boot, start and install (with or without -c), console, showcomport, showvgaport,
    shutdown, reset, poweroff and stop.  bmdctl prints "VM not found" and ends with status 1, and the daemon has not
    changed.  With stop, which bmdctl(8) gives as another name of shutdown, the answer is "unknown command", as for
    everybody: the daemon has no such command.  (The sub-commands showconfig, inspect and run do not ask the daemon:
    they read the configuration files with the rights of the user.)  The request has arrived whole and the answer fits into the
    encoding of libnv; the connection of bmdctl is an ideal one, [link_of]: connecting, sending and receiving succeed. *)
Theorem bmdctl_refused s sb argv c cmd name news news' w o :
  readable s -> refused s name (b_peer sb) ->
  dispatch argv [] = Done c [] -> choice_command c = Some cmd -> choice_vm c = Some name ->
  has_request sb (named cmd name) -> b_res_fd sb = -1 -> is_Some (nvlist_pack (verdict (Some (refusal cmd)))) ->
  exists sb', serve s sb news o = Done (0, sb', s) o /\
    ctl sb' argv news' w [] = Done (1, refusal cmd +:+ nl, w) [].
Proof.
  intros Hs Hr Hd Hc Hn Hreq Hfd Hp. unfold refusal in *. destruct (choice_known argv c cmd name Hd Hc Hn) as [-> | (Hnl & f & Hf & Hl)].
  - destruct (stop_served s sb name news o Hreq Hfd Hp) as (sb' & H1 & H2). exists sb'. split; [done |]. by eapply control_error.
  - replace (String.eqb cmd "stop") with false in *.
    2: { symmetry. apply String.eqb_neq. intros ->. by vm_compute in Hf. }
    destruct Hp as [out Hp].
    destruct (served sb (named cmd name) cmd f (verdict (Some "VM not found")) s s news o o out) as (sb' & H1 & H2); try done.
    + intros req Hq. destruct (Hq "name" name eq_refl) as [Hx Hg].
      apply (refused_answer k dv ops nmdm_offset nv cs fuel s req (b_peer sb) news cmd); try done. by rewrite Hg.
    + exists sb'. split; [done |]. by eapply control_error.
Qed.

(** [bmdctl stop], which bmdctl(8) describes as another name of shutdown, never stops a VM: the daemon has no
    such command and answers "unknown command", and bmdctl fails. *)
Theorem bmdctl_stop_fails s sb prog name news news' w o :
  has_request sb (named "stop" name) -> b_res_fd sb = -1 -> is_Some (nvlist_pack (verdict (Some "unknown command"))) ->
  exists sb', serve s sb news o = Done (0, sb', s) o /\
    ctl sb' [prog; "stop"; name] news' w [] = Done (1, "unknown command" +:+ nl, w) [].
Proof.
  intros Hreq Hfd Hp. destruct (stop_served s sb name news o Hreq Hfd Hp) as (sb' & H1 & H2). exists sb'. split; [done |].
  eapply (control_error _ _ (Request "stop" name)); [reflexivity .. | exact H2].
Qed.

(** Every request of bmdctl has a command of the daemon's table, with one
    exception, [stop]. *)
Theorem bmdctl_commands_known argv c o o' cmd :
  dispatch argv o = Done c o' -> choice_command c = Some cmd ->
  cmd = "stop" \/ is_Some (get_command_function k dv ops nmdm_offset nv cs fuel cmd).
Proof.
  intros Hd Hc. pose proof (dispatch_ok argv o) as H. rewrite Hd in H.
  destruct c as [| | | name | | name style co sh | | cm name]; cbn in H, Hc; try done; try (injection Hc as <-).
  - right. by eexists.
  - right. by eexists.
  - destruct_or! H; subst style; cbn in Hc; injection Hc as <-; right; by eexists.
  - rewrite !elem_of_cons, elem_of_nil in H. destruct_or! H; subst; try done; [right | right | by left | right]; by eexists.
Qed.

(** *** The list *)

(** The line of a VM as it is printed. *)
Definition row_line (row : response) : string :=
  let str key := default EmptyString (maybe_string row key) in
  list_line (str "name") (str "ncpu") (str "memory") (str "loader") (str "state") (str "owner").

Definition row_full (row : response) : Prop :=
  Forall (fun key => exists x, find_entry row key = Some (RString (Some x))) ["name"; "ncpu"; "memory"; "loader"; "state"; "owner"].

Definition row_lines (rows : list response) : string := foldr (fun row out => row_line row +:+ out) EmptyString rows.

Definition by_name (a b : response) : Prop := compare_by_name a b <= 0.

Lemma row_text_full row o : row_full row -> row_text row o = Done (row_line row) o.
Proof.
  unfold row_full. rewrite !Forall_cons. intros ((a1 & H1) & (a2 & H2) & (a3 & H3) & (a4 & H4) & (a5 & H5) & (a6 & H6) & _).
  unfold row_text, answer_string, row_line, maybe_string, mbind, C_bind.
  by rewrite H1, H2, H3, H4, H5, H6.
Qed.

Lemma print_rows rows out o :
  Forall row_full rows ->
  foreach (fun out row => line ← row_text row; mret (out +:+ line)) rows out o = Done (out +:+ row_lines rows) o.
Proof.
  intros H. revert out. induction H as [| row rows Hr _ IH]; intros out; cbn [foreach row_lines foldr].
  - by rewrite app_str_nil_r.
  - unfold mbind, C_bind. rewrite row_text_full by done. unfold mret, C_ret. rewrite IH, app_str_assoc. reflexivity.
Qed.

Lemma check_names_full rows o : Forall row_full rows -> check_names rows o = Done tt o.
Proof.
  unfold check_names. induction 1 as [| row rows Hr _ IH]; [done |]. cbn. unfold mbind, C_bind.
  apply Forall_inv in Hr as [s E]. unfold answer_string at 1. by rewrite E.
Qed.

(** Every VM of the list is complete. *)
Definition all_ready s : Prop :=
  forall a e, a ∈ d_vm_list (s_d s) -> d_heap (s_d s) !! a = Some e -> vm_ready (VM_CONF e).

Lemma visible_full s ucred : all_ready s -> Forall row_full (visible cs s ucred).
Proof.
  intros Hs. apply Forall_forall. intros row Hrow. unfold visible in Hrow.
  apply list_elem_of_omap in Hrow as (a & Ha & E). destruct (d_heap (s_d s) !! a) as [e |] eqn:He; [| done].
  destruct (check_owner _ _ =? 0); [| done]. injection E as <-.
  destruct (Hs a e Ha He) as ([n Hn] & [c Hc] & [m Hm] & (b & Hb & _) & _).
  unfold row_full, vm_row. rewrite Hn, Hc, Hm, Hb. repeat (apply Forall_cons; split); try (by eexists); [| by apply Forall_nil].
  cbn. destruct (vc_loader (VM_CONF e)); by eexists.
Qed.

(** The order of lines with the same name is not specified. *)
Class SortLaws := sort_law l : Forall row_full l ->
  Permutation (qsort compare_by_name l) l /\ StronglySorted by_name (qsort compare_by_name l).

(** What the daemon answers. *)
Definition list_answer s ucred : response :=
  match visible cs s ucred with
  | [] => verdict None
  | l => ("vm_list", RList l) :: verdict None
  end.

Lemma list_command_run s ucred : readable s -> list_command cs s ucred [] = Done (list_answer s ucred, s) [].
Proof.
  intros Hs. unfold list_command, list_answer, mbind, C_bind. rewrite rows_run by done. by destruct (visible cs s ucred).
Qed.

(** [C7] From end to end: [bmdctl list] prints one line for each VM that the user may
    control and no other, sorted by name, under the header, and nothing changes in the daemon.  No allocation fails, every VM
    has a complete configuration ([all_ready]), the request has arrived whole, the answer fits into the encoding
    of libnv, and the connection of bmdctl is an ideal one ([link_of]). *)
Theorem bmdctl_list_correct `{!SortLaws} s sb prog news news' w :
  readable s -> all_ready s -> has_request sb [("command", Some "list")] ->
  is_Some (nvlist_pack (list_answer s (b_peer sb))) ->
  exists sb' rows, serve s sb news [] = Done (0, sb', s) [] /\
    Permutation rows (visible cs s (b_peer sb)) /\ StronglySorted by_name rows /\
    ctl sb' [prog; "list"] news' w [] = Done (0, list_header +:+ row_lines rows, w) [].
Proof.
  intros Hs Hr Hreq [out Hp]. pose proof (visible_full s (b_peer sb) Hr) as Hfull.
  assert (Ht : take_number FD_KEY (list_answer s (b_peer sb)) = (None, list_answer s (b_peer sb)))
    by (unfold list_answer; by destruct (visible _ _ _)).
  destruct (served sb [("command", Some "list")] "list" (fun s req u _ => list_command cs s u)
              (list_answer s (b_peer sb)) s s news [] [] out) as (sb' & H1 & H2); try done.
  - intros req _. by apply list_command_run.
  - by rewrite Ht.
  - exists sb', (qsort compare_by_name (visible cs s (b_peer sb))).
    destruct (sort_law _ Hfull) as [Hperm Hsort]. split; [done | split; [done | split; [done |]]].
    assert (Hq : Forall row_full (qsort compare_by_name (visible cs s (b_peer sb)))).
    { by rewrite Hperm. }
    unfold control, mbind, C_bind. change (dispatch [prog; "list"] []) with (Done DoList []).
    unfold do_list, mbind, C_bind. rewrite H2.
    unfold client_view. rewrite Ht. unfold list_answer.
    destruct (visible cs s (b_peer sb)) as [| row rows] eqn:E.
    + apply Permutation_sym, Permutation_nil in Hperm. rewrite Hperm. cbn. by rewrite app_str_nil_r.
    + cbn -[list_header check_names foreach]. rewrite check_names_full by done. rewrite print_rows by done. reflexivity.
Qed.

End service.

(** ** A user at work *)

(** An encoding: strings, truth values and lists of strings become data that
    can be written as bits. *)
Abbreviation flat_value := (bool + string + list (list (string * string)))%type.

Definition row_key (row : response) : option (list (string * string)) :=
  mapM (fun p => match p.2 with RString (Some x) => Some (p.1, x) | _ => None end) row.

Definition value_key (v : rval) : option flat_value :=
  match v with
  | RBool b => Some (inl (inl b))
  | RString (Some x) => Some (inl (inr x))
  | RString None | RNumber _ => None
  | RList l => inr <$> mapM row_key l
  end.

Definition of_row (l : list (string * string)) : response := (fun p => (p.1, RString (Some p.2))) <$> l.

Definition of_value (v : flat_value) : rval :=
  match v with
  | inl (inl b) => RBool b
  | inl (inr x) => RString (Some x)
  | inr l => RList (of_row <$> l)
  end.

Definition answer_key (res : response) : option (list (string * flat_value)) :=
  mapM (fun p => v ← value_key p.2; Some (p.1, v)) res.

Fixpoint bits (p : positive) : list ascii :=
  match p with
  | xH => []
  | xO p' => "0"%char :: bits p'
  | xI p' => "1"%char :: bits p'
  end.

Fixpoint unbits (l : list ascii) : positive :=
  match l with
  | [] => xH
  | c :: l' => if Ascii.eqb c "0" then xO (unbits l') else xI (unbits l')
  end.

Definition flat_pack (res : response) : option (list ascii) :=
  key ← answer_key res; Some (bits (encode key)).

Definition of_key (key : list (string * flat_value)) : response := (fun p => (p.1, of_value p.2)) <$> key.

Definition flat_decode (l : list ascii) : option response := of_key <$> (decode (unbits l) : option (list (string * flat_value))).

Lemma mapM_inverse {A B} (f : A -> option B) (g : B -> A) l k :
  (forall a b, f a = Some b -> g b = a) -> mapM f l = Some k -> g <$> k = l.
Proof.
  intros H Hl. apply mapM_Some_1 in Hl. induction Hl as [| a b l k Hab _ IH]; [done |]. cbn. f_equal; [by apply H | exact IH].
Qed.

Lemma of_row_key row k : row_key row = Some k -> of_row k = row.
Proof.
  apply mapM_inverse. intros [x v] [y z] E. cbn in E. destruct v as [| [v |] | |]; try done. by injection E as <- <-.
Qed.

Lemma of_value_key v k : value_key v = Some k -> of_value k = v.
Proof.
  destruct v as [b | [x |] | n | l]; cbn; try done; try (by intros [= <-]).
  intros (ks & E & ->)%fmap_Some. cbn. f_equal. revert E. apply mapM_inverse. apply of_row_key.
Qed.

Lemma of_answer_key res k : answer_key res = Some k -> of_key k = res.
Proof.
  apply mapM_inverse. intros [x v] [y z] E. cbn in E. destruct (value_key v) as [u |] eqn:Ev; [| done].
  injection E as <- <-. cbn. f_equal. by apply of_value_key.
Qed.

Lemma unbits_bits p : unbits (bits p) = p.
Proof. induction p as [p IH | p IH |]; cbn; by rewrite ?IH. Qed.

Lemma flat_roundtrip res bytes : flat_pack res = Some bytes -> flat_decode bytes = Some res.
Proof.
  unfold flat_pack, flat_decode. destruct (answer_key res) as [key |] eqn:E; [| done]. intros [= <-].
  rewrite unbits_bits, decode_encode. cbn. f_equal. by apply of_answer_key.
Qed.

(** A request for a command and a VM, the only one there is. *)
Definition one_request (cmd name : string) : libnv unit := {|
  nv_next := fun _ => []; nv_error := fun _ => 0;
  nv_exists_type := fun _ _ t => t =? NV_TYPE_STRING;
  nv_get_bool := fun _ _ => false; nv_get_number := fun _ _ => 0;
  nv_get_string := fun _ key => if String.eqb key "command" then cmd else name;
  nv_get_nvlist := fun _ _ => tt; nv_get_descriptor := fun _ _ => 0; nv_get_binary := fun _ _ => "";
  nv_get_bool_array := fun _ _ => []; nv_get_number_array := fun _ _ => []; nv_get_string_array := fun _ _ => [];
  nv_get_nvlist_array := fun _ _ => []; nv_get_descriptor_array := fun _ _ => [] |}.

Definition only_request (r : list (string * option string)) (cmd : list (string * option string)) : option (list ascii) :=
  if bool_decide (cmd = r) then Some [] else None.

Lemma wire_named cmd name :
  WireLaws (one_request cmd name) (fun _ => Some tt) flat_pack (only_request [("command", Some cmd); ("name", Some name)]) flat_decode.
Proof.
  split; [| apply flat_roundtrip]. unfold only_request. intros c bytes E. case_bool_decide; [subst c | done].
  exists tt. split; [done |]. intros key v. cbn [find_string]. destruct (String.eqb_spec "command" key) as [<- | N].
  - by intros [= <-].
  - destruct (String.eqb_spec "name" key) as [<- | _]; by intros [= <-].
Qed.

Lemma wire_list : WireLaws (one_request "list" "") (fun _ => Some tt) flat_pack (only_request [("command", Some "list")]) flat_decode.
Proof.
  split; [| apply flat_roundtrip]. unfold only_request. intros c bytes E. case_bool_decide; [subst c | done].
  exists tt. split; [done |]. intros key v. cbn [find_string]. destruct (String.eqb_spec "command" key) as [<- | N]; [by intros [= <-] | done].
Qed.

(** Sorting by insertion. *)
Fixpoint insert_row (f : response -> response -> Z) (x : response) (l : list response) : list response :=
  match l with
  | [] => [x]
  | y :: l' => if f x y <=? 0 then x :: l else y :: insert_row f x l'
  end.

Definition insertion_sort (f : response -> response -> Z) (l : list response) : list response := foldr (insert_row f) [] l.

Lemma insert_row_perm f x l : Permutation (insert_row f x l) (x :: l).
Proof. induction l as [| y l IH]; [done |]. cbn. case_match; [done |]. rewrite IH. constructor. Qed.

Lemma compare_full a b : row_full a -> row_full b ->
  exists x y, compare_by_name a b = strcmp x y /\ compare_by_name b a = strcmp y x /\
    maybe_string a "name" = Some x /\ maybe_string b "name" = Some y.
Proof.
  intros [x Ha]%Forall_inv [y Hb]%Forall_inv. exists x, y. unfold compare_by_name, maybe_string. by rewrite Ha, Hb.
Qed.

Lemma by_name_trans a b c : row_full a -> row_full b -> row_full c -> by_name a b -> by_name b c -> by_name a c.
Proof.
  unfold by_name. intros Ha Hb Hc. destruct (compare_full a b Ha Hb) as (x & y & -> & _ & Ex & Ey).
  destruct (compare_full b c Hb Hc) as (y' & z & -> & _ & Ey' & Ez). assert (y' = y) as -> by congruence.
  unfold compare_by_name. rewrite Ex, Ez. intros H1 H2.
  destruct (Z.eq_dec (strcmp y z) 0) as [E%strcmp_eq0 | N]; [by subst |].
  pose proof (strcmp_le_lt_trans x y z). lia.
Qed.

Lemma insert_row_sorted x l :
  row_full x -> Forall row_full l -> StronglySorted by_name l -> StronglySorted by_name (insert_row compare_by_name x l).
Proof.
  intros Hx Hl Hs. induction Hs as [| y l Hs IH Hy]; cbn; [by repeat constructor |].
  apply Forall_cons in Hl as [Hfy Hl]. destruct (Z.leb_spec (compare_by_name x y) 0) as [E | E].
  - constructor; [by constructor |]. constructor; [exact E |].
    rewrite Forall_forall in Hy, Hl |- *. intros z Hz. apply (by_name_trans x y z); auto.
  - constructor; [by apply IH |]. rewrite insert_row_perm. constructor; [| done].
    unfold by_name. destruct (compare_full x y Hx Hfy) as (a & b & E1 & E2 & _). rewrite E1 in E. rewrite E2, strcmp_antisym. lia.
Qed.

#[export] Instance insertion_sort_laws : SortLaws insertion_sort.
Proof.
  intros l Hl. unfold insertion_sort. induction Hl as [| x l Hx Hl [Hp Hs]]; cbn; [split; [done | constructor] |].
  split; [by rewrite insert_row_perm, Hp |]. apply insert_row_sorted; [done | by rewrite Hp | done].
Qed.

(** The request has arrived from this user. *)
Definition demo_request (peer : xucred) : sock_buf := demo_received <| b_buf := Some [] |> <| b_peer := peer |>.

Definition no_inspect (c : vm_conf) (w : Z) : C (option string * Z) := mret (None, w).

Definition demo_ctl (r : list (string * option string)) (sb : sock_buf) (argv : list string) : C (Z * string * Z) :=
  control (NV := unit) (only_request r) flat_decode (fun _ => link_of sb) (Some "/var/run/bmd.sock") insertion_sort no_inspect
    (fun _ => 0) (fun _ _ _ => mret 0) argv None 5.

Lemma has_only r peer : has_request (only_request r) (demo_request peer) r.
Proof. exists []. unfold only_request. by rewrite bool_decide_true. Qed.

Lemma bmdctl_refused_witness :
  exists sb', recv_command demo_kernel demo_devices demo_ops 0 (one_request "boot" "one") demo_com (fun _ => Some tt) flat_pack 1
      demo_two (demo_request stranger) None [] = Done (0, sb', demo_two) [] /\
    demo_ctl [("command", Some "boot"); ("name", Some "one")] sb' ["bmdctl"; "start"; "-c"; "one"] [] =
      Done (1, "VM not found" +:+ nl, 5) [].
Proof.
  apply (bmdctl_refused demo_kernel demo_devices demo_ops 0 (one_request "boot" "one") demo_com 1 (fun _ => Some tt) flat_pack
           (only_request [("command", Some "boot"); ("name", Some "one")]) flat_decode (HW := wire_named "boot" "one")
           (Some "/var/run/bmd.sock") insertion_sort no_inspect (fun _ => 0) (fun _ _ _ => mret 0)
           demo_two (demo_request stranger) ["bmdctl"; "start"; "-c"; "one"] (BootConsole "one" 1 true false) "boot" "one").
  - apply demo_two_readable.
  - assert (H : map_Forall (fun _ e => check_owner (VM_CONF e) stranger <> 0) (d_heap (s_d demo_two)))
      by (apply (bool_decide_unpack _); vm_compute; exact I).
    intros a e _ He _. exact (H a e He).
  - reflexivity.
  - reflexivity.
  - reflexivity.
  - apply has_only.
  - reflexivity.
  - eexists. reflexivity.
Defined.

Lemma bmdctl_stop_fails_witness :
  exists sb', recv_command demo_kernel demo_devices demo_ops 0 (one_request "stop" "one") demo_com (fun _ => Some tt) flat_pack 1
      demo_two (demo_request root_peer) None [] = Done (0, sb', demo_two) [] /\
    demo_ctl [("command", Some "stop"); ("name", Some "one")] sb' ["bmdctl"; "stop"; "one"] [] =
      Done (1, "unknown command" +:+ nl, 5) [].
Proof.
  apply (bmdctl_stop_fails demo_kernel demo_devices demo_ops 0 (one_request "stop" "one") demo_com 1 (fun _ => Some tt) flat_pack
           (only_request [("command", Some "stop"); ("name", Some "one")]) flat_decode (HW := wire_named "stop" "one")
           (Some "/var/run/bmd.sock") insertion_sort no_inspect (fun _ => 0) (fun _ _ _ => mret 0)
           demo_two (demo_request root_peer) "bmdctl" "one").
  - apply has_only.
  - reflexivity.
  - eexists. reflexivity.
Defined.

Lemma bmdctl_commands_known_witness :
  "boot" = "stop" \/ is_Some (get_command_function demo_kernel demo_devices demo_ops 0 demo_requests demo_com 1 "boot").
Proof.
  apply (bmdctl_commands_known demo_kernel demo_devices demo_ops 0 demo_requests demo_com 1
           ["bmdctl"; "start"; "-c"; "one"] (BootConsole "one" 1 true false) [] [] "boot"); reflexivity.
Defined.

Lemma demo_two_ready : all_ready demo_two.
Proof.
  intros a e _ He. destruct (sf_heap _ _ (co_safe _ _ demo_two_consistent) a e He) as (_ & _ & [[m Hm] _]). apply Hm.
Qed.

Lemma bmdctl_list_correct_witness :
  exists sb' rows, recv_command demo_kernel demo_devices demo_ops 0 (one_request "list" "") demo_com (fun _ => Some tt) flat_pack 1
      demo_two (demo_request root_peer) None [] = Done (0, sb', demo_two) [] /\
    Permutation rows (visible demo_com demo_two root_peer) /\ StronglySorted by_name rows /\
    demo_ctl [("command", Some "list")] sb' ["bmdctl"; "list"] [] = Done (0, list_header +:+ row_lines rows, 5) [].
Proof.
  apply (bmdctl_list_correct demo_kernel demo_devices demo_ops 0 (one_request "list" "") demo_com 1 (fun _ => Some tt) flat_pack
           (only_request [("command", Some "list")]) flat_decode (HW := wire_list)
           (Some "/var/run/bmd.sock") insertion_sort no_inspect (fun _ => 0) (fun _ _ _ => mret 0)
           demo_two (demo_request root_peer) "bmdctl").
  - apply demo_two_readable.
  - apply demo_two_ready.
  - apply has_only.
  - eexists. vm_compute. reflexivity.
Defined.

(** What root sees. *)
Example demo_ctl_list :
  match recv_command demo_kernel demo_devices demo_ops 0 (one_request "list" "") demo_com (fun _ => Some tt) flat_pack 1
          demo_two (demo_request root_peer) None [] with
  | Done (_, sb', _) _ =>
      match demo_ctl [("command", Some "list")] sb' ["bmdctl"; "list"] [] with
      | Done (rc, out, _) _ => (rc, drop_str (String.length list_header) out) =
          (0, list_line "one" "2" "1G" "uefi" "RUN" "root" +:+ list_line "two" "2" "1G" "uefi" "RUN" "root")
      | Crash _ => False
      end
  | Crash _ => False
  end.
Proof. vm_compute. reflexivity. Qed.

(** showvgaport without a name: the request cannot be encoded. *)
Example vgaport_without_name :
  demo_ctl [("command", Some "list")] (demo_request root_peer) ["bmdctl"; "showvgaport"] [] = Crash ProcessExit.
Proof. reflexivity. Qed.
