(* ===== verification/Events.v ===== *)
(** * The list of events through every operation (about src/bmd.c 136-249, 419-614, 1100-1363, src/server.c 366-867)

    What the event loop relies on when it removes an event after its call-back: the events
    have different addresses, an event that occurs once is of a kind that no operation
    removes while it is handled, and no operation on VMs touches the events
    of connections.  [EvInv] states this; its parameters are the event that
    is being handled, the connections and their events.

    The lemmas of this file hold whatever else goes wrong: they are about the runs that come to
    an end, which needs no assumption on the VMs or their configurations.  Faults are the
    subject of Upkeep.v, Command.v and Frontend.v, and EventLoop.v puts both together. *)

From S2P Require Import Prelude CString Vars Conf Global MPool Plugin ParseValue Parser Load Tap Vm Network.
From S2P Require Import NvList SockBuf Daemon ConfList Reload Upkeep Command Frontend.
From Stdlib Require Import Ascii.

Local Open Scope Z_scope.

(** Faults do not matter. *)
Definition any_fault (f : fault) : Prop := True.

Lemma wp_any_fault {A} (c : C A) : wp c (fun _ => True) any_fault.
Proof. intros o. by destruct (c o). Qed.

Lemma wp_bind_any {A B} (c : C A) (k : A -> C B) Q : (forall a, wp (k a) Q any_fault) -> wp (c ≫= k) Q any_fault.
Proof. intros H. apply wp_bind. eapply wp_mono; [apply wp_any_fault | intros a _; apply H | done]. Qed.

Lemma wp_bind_keep {A B} (c : C A) (k : A -> C B) P Q :
  wp c P any_fault -> (forall a, P a -> wp (k a) Q any_fault) -> wp (c ≫= k) Q any_fault.
Proof. intros H1 H2. apply wp_bind. eapply wp_mono; [exact H1 | exact H2 | done]. Qed.

(** ** The invariant *)

Definition oneshot (ev : event) : bool := negb (Z.land (k_flags (ev_kev ev)) EV_ONESHOT =? 0).

(** The filter, the flags and the data of an event fit to its call-back: the
    signals, the command socket, connections, and those from 5 on of plugins. *)
Definition kind_ok (ev : event) : Prop :=
  match ev_cb ev with
  | CbTimer => k_filter (ev_kev ev) = EVFILT_TIMER /\ is_Some (ev_data ev)
  | CbVmExit => k_filter (ev_kev ev) = EVFILT_PROC /\ is_Some (ev_data ev)
  | CbReadVmOutput => oneshot ev = false /\ is_Some (ev_data ev)
  | CbOther 0 | CbOther 1 | CbOther 2 => oneshot ev = false /\ ev_data ev = None
  | CbOther 3 | CbOther 4 => oneshot ev = false /\ is_Some (ev_data ev)
  | CbOther _ => ev_type ev = PLUGIN
  end.

(** [x] is the event that is handled, [B] are the connections and [E] their events. *)
Record EvInv {NV W} (x : option event) (B : list Z) (E : Z -> list event) (d : daemon NV W) : Prop := {
  ei_nodup : NoDup (ev_addr <$> d_events d);
  ei_fresh : forall ev, ev ∈ d_events d -> ev_addr ev < d_next d;
  ei_kind : forall ev, ev ∈ d_events d -> kind_ok ev;
  ei_cur : forall ev, x = Some ev -> ev ∈ d_events d;
  ei_data : forall ev a, ev ∈ d_events d -> ev_data ev = Some a -> a < d_next d;
  ei_conn : forall b, b ∈ B -> events_of b (d_events d) = E b;
  ei_bound : forall b, b ∈ B -> b < d_next d /\ d_heap d !! b = None;
  ei_heap : forall a, is_Some (d_heap d !! a) -> a < d_next d;
}.

Section lemmas.
Context {NV W : Type} (x : option event) (B : list Z) (E : Z -> list event).
Implicit Types (d : daemon NV W) (a : Z) (ev : event) (e : vm_entry NV).

Abbreviation I := (EvInv x B E).

(** The same events; no VM gets the address of a connection. *)
Lemma EvInv_same d d' :
  I d -> d_events d' = d_events d -> d_next d' = d_next d -> (forall b, is_Some (d_heap d' !! b) -> is_Some (d_heap d !! b)) ->
  I d'.
Proof.
  intros [] He Hn Hh. split; rewrite ?He, ?Hn; try done; [| intros a Ha; apply ei_heap0; auto].
  intros b Hb. destruct (ei_bound0 b Hb) as [H1 H2]. split; [done |].
  destruct (d_heap d' !! b) eqn:Hd; [| done]. destruct (Hh b) as [e He']; [by rewrite Hd |]. congruence.
Qed.

Lemma EvInv_put d a e e' w : I d -> d_heap d !! a = Some e -> I (put_entry d a e' <| d_world := w |>).
Proof.
  intros Hd He. eapply EvInv_same; [exact Hd | done | done |]. intros b. cbn. rewrite lookup_insert_is_Some.
  intros [<- | [_ ?]]; [by exists e | done].
Qed.

Lemma EvInv_put' d a e e' : I d -> d_heap d !! a = Some e -> I (put_entry d a e').
Proof. intros Hd He. exact (EvInv_put d a e e' (d_world d) Hd He). Qed.

Lemma EvInv_world d w : I d -> I (d <| d_world := w |>).
Proof. intros Hd. by eapply EvInv_same. Qed.

Lemma EvInv_vm_list d l : I d -> I (d <| d_vm_list := l |>).
Proof. intros Hd. by eapply EvInv_same. Qed.

Lemma EvInv_delete d a : I d -> I (d <| d_heap := delete a (d_heap d) |>).
Proof. intros Hd. eapply EvInv_same; [exact Hd | done | done |]. intros b. cbn. intros [e [_ He]%lookup_delete_Some]. by exists e. Qed.

(** An address is given away. *)
Lemma EvInv_next d n : I d -> d_next d <= n -> I (d <| d_next := n |>).
Proof.
  intros [] Hn. split; cbn; try done.
  - intros ev Hev. specialize (ei_fresh0 ev Hev). lia.
  - intros ev a Hev Ha. specialize (ei_data0 ev a Hev Ha). lia.
  - intros b Hb. destruct (ei_bound0 b Hb). split; [lia | done].
  - intros a Ha. specialize (ei_heap0 a Ha). lia.
Qed.

Lemma EvInv_new d a e : I d -> a = d_next d -> I (d <| d_heap := <[a := e]> (d_heap d) |> <| d_next := a + 1 |>).
Proof.
  intros Hd ->. pose proof (EvInv_next d (d_next d + 1) Hd ltac:(lia)) as []. split; try done.
  - intros b Hb. destruct (ei_bound0 b Hb) as [H1 H2]. split; [done |]. cbn in *.
    destruct (ei_bound _ _ _ _ Hd b Hb) as [H3 _]. rewrite lookup_insert_ne by lia. done.
  - intros a. cbn. rewrite lookup_insert_is_Some. intros [<- | [_ Ha]]; [lia | by apply ei_heap0].
Qed.

(** An event is added that is not for a connection. *)
Lemma EvInv_insert d type kev cb data :
  I d -> (forall addr, kind_ok {| ev_addr := addr; ev_type := type; ev_kev := kev; ev_cb := cb; ev_data := data |}) ->
  (forall a, data = Some a -> (a ∉ B) /\ a < d_next d) -> I (insert_event type kev cb data d).
Proof.
  intros [] Hk Ha. split; cbn.
  - apply NoDup_cons. split; [| done]. intros (ev & Ea & Hev)%list_elem_of_fmap. apply ei_fresh0 in Hev. lia.
  - intros ev [-> | Hev]%elem_of_cons; cbn; [lia |]. apply ei_fresh0 in Hev. lia.
  - intros ev [-> | Hev]%elem_of_cons; [apply Hk | by apply ei_kind0].
  - intros ev Hx. apply elem_of_cons. auto.
  - intros ev a [-> | Hev]%elem_of_cons Hd; cbn in Hd; [apply Ha in Hd as [_ Hd]; lia |]. specialize (ei_data0 ev a Hev Hd). lia.
  - intros b Hb. unfold events_of, vm_entry_event. cbn. rewrite bool_decide_false; [by apply ei_conn0 |].
    intros ->. by destruct (Ha b eq_refl) as [H _].
  - intros b Hb. destruct (ei_bound0 b Hb). split; [lia | done].
  - intros a Hd. specialize (ei_heap0 a Hd). lia.
Qed.

(** The data of a VM's event. *)
Lemma EvInv_alive d a : I d -> is_Some (d_heap d !! a) -> (a ∉ B) /\ a < d_next d.
Proof. intros [] Ha. split; [| by apply ei_heap0]. intros Hb. destruct (ei_bound0 a Hb) as [_ H]. rewrite H in Ha. by destruct Ha. Qed.

(** Events are dropped, but not [x] and none of a connection. *)
Lemma EvInv_filter d (p : event -> bool) :
  I d -> (forall ev, x = Some ev -> p ev = true) ->
  (forall ev b, b ∈ B -> ev_data ev = Some b -> p ev = true) -> I (d <| d_events := List.filter p (d_events d) |>).
Proof.
  intros [] Hx Hp.
  assert (Hin : forall ev, ev ∈ List.filter p (d_events d) <-> ev ∈ d_events d /\ p ev = true).
  { intros ev. by rewrite !list_elem_of_In, filter_In. }
  split; cbn; try done.
  - clear -ei_nodup0. induction (d_events d) as [| ev l IH]; [done |]. cbn in *. apply NoDup_cons in ei_nodup0 as [H1 H2].
    destruct (p ev); [| by apply IH]. cbn. apply NoDup_cons. split; [| by apply IH]. intros (y & Ey & Hy)%list_elem_of_fmap.
    apply H1, list_elem_of_fmap. exists y. split; [done |]. apply list_elem_of_In, filter_In in Hy as [Hy _]. by apply list_elem_of_In.
  - intros ev [Hev _]%Hin. by apply ei_fresh0.
  - intros ev [Hev _]%Hin. by apply ei_kind0.
  - intros ev Hev. apply Hin. auto.
  - intros ev a [Hev _]%Hin. by apply ei_data0.
  - intros b Hb. rewrite <- (ei_conn0 b Hb). unfold events_of. rewrite filter_twice.
    apply filter_ext. intros ev. unfold vm_entry_event. destruct (decide (ev_data ev = Some b)) as [Hd | Hd].
    + rewrite bool_decide_true by done. by rewrite (Hp ev b).
    + rewrite bool_decide_false by done. by rewrite andb_false_r.
Qed.

End lemmas.

(** ** The operations on VMs *)

(** One step: an operation with a lemma keeps the invariant; nothing is known of the result of any other. *)
Create HintDb ev_db.

Lemma wp_get_entry_any {NV W} (d : daemon NV W) a (Q : vm_entry NV -> Prop) :
  (forall e, d_heap d !! a = Some e -> Q e) -> wp (get_entry d a) Q any_fault.
Proof. intros H. unfold get_entry. destruct (d_heap d !! a) as [e |]; [by apply wp_ret, H | by apply wp_crash]. Qed.

Ltac split_pairs :=
  repeat match goal with
         | p : _ * _ |- _ => destruct p
         | H : EvInv _ _ _ (snd _) |- _ => cbn [fst snd] in H
         | H : EvInv _ _ _ (s_d (snd _)) |- _ => cbn [fst snd] in H
         end.

Ltac split_result :=
  repeat match goal with
         | |- EvInv _ _ _ (snd match ?p with _ => _ end) => destruct p eqn:?
         | |- EvInv _ _ _ match ?p with _ => _ end => destruct p eqn:?
         | |- EvInv _ _ _ (s_d (snd match ?p with _ => _ end)) => destruct p eqn:?
         | |- EvInv _ _ _ (s_d (snd _)) => progress cbn [fst snd]
         | |- EvInv _ _ _ (snd _) => progress cbn [fst snd]
         end.

Ltac ev_step :=
  lazymatch goal with
  | |- wp (mret _) _ _ => apply wp_ret; split_result
  | |- wp (crash _) _ _ => by apply wp_crash
  | |- wp (get_entry _ _ ≫= _) _ _ => apply wp_bind, wp_get_entry_any; intros ? ?
  | |- wp (if ?b then _ else _) _ _ => destruct b
  | |- wp (match ?p with pair _ _ => _ end) _ _ => destruct p
  | |- wp (match ?p with _ => _ end) _ _ => destruct p eqn:?
  | |- wp (_ ≫= _) _ _ =>
      first [ eapply wp_bind_keep; [solve [eauto with ev_db] | intros ? ?; split_pairs]
            | apply wp_bind_any; intros ?; split_pairs ]
  end.

Ltac ev_steps := repeat (ev_step; cbn zeta in *).

#[export] Hint Extern 1 (EvInv _ _ _ (_ <| d_world := _ |>)) => apply EvInv_world : ev_db.
#[export] Hint Extern 1 (EvInv _ _ _ (put_entry _ _ _)) => eapply EvInv_put' : ev_db.
#[export] Hint Extern 1 (EvInv _ _ _ (put_vm _ _ _ _)) => eapply EvInv_put' : ev_db.
#[export] Hint Extern 1 (EvInv _ _ _ (_ <| d_vm_list := _ |>)) => apply EvInv_vm_list : ev_db.

Section vms.
Context {NV W : Type} (k : kernel W) (dv : devices NV W) (ops : vm_method -> vm_ops NV W) (nmdm_offset : Z)
        (x : option event) (B : list Z) (E : Z -> list event).
Implicit Types (d : daemon NV W) (a : Z) (ev : event) (e : vm_entry NV).

Abbreviation I := (EvInv x B E).
Abbreviation keeps f := (wp f (fun p => I (p.2)) any_fault).

Lemma ev_register_event0 d type kev cb data :
  I d -> (forall addr, kind_ok {| ev_addr := addr; ev_type := type; ev_kev := kev; ev_cb := cb; ev_data := data |}) ->
  (forall a, data = Some a -> (a ∉ B) /\ a < d_next d) -> keeps (register_event0 type kev cb data d).
Proof. intros Hd Hk Ha. unfold register_event0. ev_steps; try done. by apply EvInv_insert. Qed.

Lemma ev_register_events d evs :
  I d -> (forall kev cb data addr, (kev, cb, data) ∈ evs ->
    kind_ok {| ev_addr := addr; ev_type := EVENT; ev_kev := kev; ev_cb := cb; ev_data := data |}) ->
  (forall kev cb a, (kev, cb, Some a) ∈ evs -> (a ∉ B) /\ a < d_next d) -> keeps (register_events evs d).
Proof.
  intros Hd Hk Ha. unfold register_events. ev_steps; try done.
  revert d Hd Ha. clear -Hk. induction evs as [| [[kev cb] data] evs IH]; intros d Hd Ha; [done |]. cbn.
  apply IH.
  - intros kev' cb' data' addr Hin. apply Hk. by right.
  - apply EvInv_insert; [done | intros addr; apply Hk; by left |]. intros a ->. apply (Ha kev cb). by left.
  - intros kev' cb' a Hin. destruct (Ha kev' cb' a) as [H1 H2]; [by right |]. split; [done | cbn; lia].
Qed.

Lemma ev_set_timer d a n : I d -> is_Some (d_heap d !! a) -> keeps (set_timer d a n).
Proof.
  intros Hd Ha. unfold set_timer. case_match; [by apply wp_crash |].
  apply ev_register_event0; [by eapply EvInv_same | by split; [| eexists] |].
  intros ? [= <-]. by apply (EvInv_alive x B E d a).
Qed.

Lemma ev_wait_for_both d a : I d -> keeps (wait_for_both d a).
Proof.
  intros Hd. unfold wait_for_both, wait_for_vm, wait_for_vm_output. apply wp_bind, wp_bind, wp_get_entry_any. intros e He.
  assert (Ha : forall b, Some a = Some b -> (b ∉ B) /\ b < d_next d).
  { intros b [= <-]. apply (EvInv_alive x B E d a Hd). by exists e. }
  eapply wp_mono; [apply ev_register_event0; [done | intros addr; by split; [| eexists] | done] | | done].
  intros [rc d1] H1. cbn in H1. case_match; [by apply wp_ret |]. apply wp_bind, wp_bind, wp_get_entry_any. intros e1 He1.
  eapply wp_mono; [apply ev_register_events; [done | |] | intros [rc2 d2] H2; by apply wp_ret | done].
  - intros kev cb data addr Hin. apply elem_of_app in Hin as [Hin | Hin]; case_match;
      try (by apply elem_of_nil in Hin); apply list_elem_of_singleton in Hin as [= -> -> ->]; (split; [done | by eexists]).
  - intros kev cb b Hin.
    assert (b = a) as ->.
    { apply elem_of_app in Hin as [Hin | Hin]; case_match; try (by apply elem_of_nil in Hin);
        by apply list_elem_of_singleton in Hin as [= -> -> ->]. }
    apply (EvInv_alive x B E d1 a H1). by exists e1.
Qed.

Hint Resolve ev_set_timer ev_wait_for_both : ev_db.

Ltac ev_auto := ev_steps; eauto with ev_db.

Lemma ev_change_state d a s : I d -> wp (change_state d a s) I any_fault.
Proof. intros Hd. unfold change_state. ev_auto. Qed.

Lemma ev_cleanup d a : I d -> wp (cleanup_virtual_machine k ops d a) I any_fault.
Proof. intros Hd. unfold cleanup_virtual_machine. ev_auto. Qed.

Lemma ev_poweroff d a : I d -> wp (VM_POWEROFF ops d a) I any_fault.
Proof. intros Hd. unfold VM_POWEROFF. ev_auto. Qed.

Lemma ev_acpi_poweroff d a : I d -> wp (VM_ACPI_POWEROFF ops d a) (fun d' => I d' /\ d_heap d' = d_heap d) any_fault.
Proof. intros Hd. unfold VM_ACPI_POWEROFF. ev_auto. Qed.

Lemma ev_reset d a : I d -> wp (VM_RESET ops d a) I any_fault.
Proof. intros Hd. unfold VM_RESET. ev_auto. Qed.

Lemma ev_choose_method d a : I d -> keeps (choose_method d a).
Proof. intros Hd. unfold choose_method. ev_auto. Qed.

Lemma ev_assign_comport d a : I d -> keeps (assign_comport dv nmdm_offset d a).
Proof. intros Hd. unfold assign_comport. ev_auto. Qed.

Lemma ev_prepare_taps d a : I d -> keeps (prepare_taps k d a).
Proof. intros Hd. unfold prepare_taps. ev_auto; rewrite put_put; eauto with ev_db. Qed.

Lemma ev_VM_START d a : I d -> keeps (VM_START ops d a).
Proof. intros Hd. unfold VM_START. ev_auto. Qed.

Lemma ev_after_start d a : I d -> keeps (after_start dv d a).
Proof.
  intros Hd. unfold after_start. apply wp_bind, wp_get_entry_any. intros e He.
  eapply (wp_bind_keep _ _ (fun p => I p.2)); [| intros [rc d1] H1; cbn in H1; ev_auto].
  ev_steps; try done. apply ev_set_timer; [done | by exists e].
Qed.

Lemma ev_call_plugins d a : I d -> wp (call_plugins dv d a) I any_fault.
Proof. intros Hd. unfold call_plugins. apply wp_bind, wp_get_entry_any. intros e He. by apply wp_ret, EvInv_world. Qed.

Hint Resolve ev_call_plugins ev_change_state ev_cleanup ev_poweroff ev_reset ev_choose_method ev_assign_comport
  ev_prepare_taps ev_VM_START ev_after_start : ev_db.

Lemma ev_start d a : I d -> keeps (start_virtual_machine k dv ops nmdm_offset d a).
Proof. intros Hd. unfold start_virtual_machine. ev_auto. Qed.

(** An event that stays when the output and the timers of a VM are dropped. *)
Definition stays (p : event -> bool) : Prop := forall ev, x = Some ev -> p ev = false.

Lemma ev_stop_waiting (p : event -> bool) d a :
  I d -> is_Some (d_heap d !! a) -> stays p -> (forall ev, p ev = true -> ev_data ev = Some a) -> I (stop_waiting_for p d).
Proof.
  intros Hd Ha Hs Hp. apply EvInv_filter; [done | intros ev Hx; by rewrite Hs |].
  intros ev b Hb Hev. destruct (p ev) eqn:Ep; [| done]. rewrite (Hp ev Ep) in Hev. injection Hev as <-.
  by destruct (EvInv_alive x B E d a Hd Ha).
Qed.

Lemma vm_output_data a (v : vm NV) ev : vm_output a v ev = true -> ev_data ev = Some a.
Proof. unfold vm_output. by intros [[H%bool_decide_eq_true _]%andb_true_iff _]%andb_true_iff. Qed.

Lemma vm_timers_data a (v : vm NV) ev : vm_output_and_timers a v ev = true -> ev_data ev = Some a.
Proof. unfold vm_output_and_timers. by intros [H%bool_decide_eq_true _]%andb_true_iff. Qed.

Lemma ev_stop d a : I d -> (forall v : vm NV, stays (vm_output_and_timers a v)) -> wp (stop_virtual_machine k dv ops d a) I any_fault.
Proof.
  intros Hd Hs. unfold stop_virtual_machine. apply wp_bind, wp_get_entry_any. intros e He.
  eapply wp_bind_keep; [apply ev_cleanup, (ev_stop_waiting _ _ a); [done | by exists e | apply Hs | apply vm_timers_data] |].
  intros d1 H1. by apply ev_call_plugins.
Qed.

Lemma ev_free d a : I d -> stays (vm_entry_event a) -> wp (free_vm_entry d a) I any_fault.
Proof.
  intros Hd Hs. unfold free_vm_entry. apply wp_bind, wp_get_entry_any. intros e He. apply wp_ret.
  apply (EvInv_delete _ _ _ (stop_waiting_for _ d)), (ev_stop_waiting _ _ a); [done | by exists e | done |].
  intros ev. unfold vm_entry_event. by intros ?%bool_decide_eq_true.
Qed.

Lemma ev_create d ce :
  I d -> wp (create_vm_entry d ce) (fun p => I p.2 /\ forall a, p.1 = Some a -> is_Some (d_heap p.2 !! a)) any_fault.
Proof.
  intros Hd. unfold create_vm_entry. apply wp_bind_any. intros []; [cbn [negb] | by apply wp_ret].
  apply wp_bind_any. intros [p |]; apply wp_ret; [| done]. split.
  - eapply EvInv_same; [by apply (EvInv_new x B E d (d_next d) {| ve_vm := new_vm ce; ve_method := Some p |}) | done | done | done].
  - intros a0 [= <-]. eexists. apply lookup_insert_eq.
Qed.

Lemma ev_vm_down d name how ucred : I d -> keeps (vm_down_command ops d name how ucred).
Proof.
  intros Hd. unfold vm_down_command. apply wp_bind_any. intros [a |]; [| by apply wp_ret].
  apply wp_bind, wp_get_entry_any. intros e He.
  destruct (negb _); [by apply wp_ret |]. destruct (negb _); [by apply wp_ret |]. destruct (how =? 0); [| ev_auto].
  eapply wp_bind_keep; [by apply ev_acpi_poweroff |]. intros d1 [H1 Hh].
  eapply wp_bind_keep; [apply ev_set_timer; [done | rewrite Hh; by exists e] |]. intros [rc d2] H2. cbn in H2. ev_auto.
Qed.

End vms.

(** ** The server *)

Section server.
Context {NV W : Type} (k : kernel W) (dv : devices NV W) (ops : vm_method -> vm_ops NV W) (nmdm_offset : Z)
        (nv : libnv NV) (cs : com_sys W) (same_ent : plugin_desc NV -> plugin_desc NV -> bool)
        (on_reload_config : plugin_desc NV -> NV -> NV -> NV * NV) (fuel : nat)
        (x : option event) (B : list Z) (E : Z -> list event).
Implicit Types (s : server NV W) (a c : Z).

Abbreviation I := (fun s => EvInv x B E (s_d s)).
Abbreviation keeps f := (wp f (fun p => I (p.2)) any_fault).

Lemma ev_on_daemon {R} s (f : daemon NV W -> C (R * daemon NV W)) :
  wp (f (s_d s)) (fun p => EvInv x B E p.2) any_fault -> keeps (on_daemon s f).
Proof. intros Hf. unfold on_daemon. eapply wp_bind_keep; [exact Hf |]. intros [r d] H. by apply wp_ret. Qed.

Lemma ev_on_daemon_ s (f : daemon NV W -> C (daemon NV W)) :
  wp (f (s_d s)) (EvInv x B E) any_fault -> wp (on_daemon_ s f) I any_fault.
Proof. intros Hf. unfold on_daemon_. eapply wp_bind_keep; [exact Hf |]. intros d H. by apply wp_ret. Qed.

Lemma ev_shut_down s a t st : I s -> wp (shut_down ops s a t st) I any_fault.
Proof.
  intros Hs. unfold shut_down, on_daemon_, on_daemon. apply wp_bind, wp_bind. unfold VM_ACPI_POWEROFF.
  apply wp_bind, wp_get_entry_any. intros e He. apply wp_bind_any. intros [o nv0]. apply wp_bind_any. intros [rc w].
  apply wp_ret, wp_ret, wp_bind, wp_bind.
  eapply wp_mono; [apply (ev_set_timer x B E); [by apply EvInv_world | by exists e] | intros [rc2 d2] H2 | done].
  apply wp_ret. eapply wp_bind_keep; [by apply ev_change_state | intros d3 H3; by apply wp_ret].
Qed.

Lemma ev_link_news l : forall s, I s -> wp (link_news s l) I any_fault.
Proof.
  induction l as [| ce l IH]; intros s Hs; [by apply wp_ret |]. cbn [link_news]. eapply wp_bind_keep; [by apply IH |].
  intros s1 H1. apply wp_bind_any. intros mem. apply wp_ret. by apply EvInv_next; [| cbn; lia].
Qed.

Lemma ev_set_vm_conf s a c : I s -> wp (set_vm_conf s a c) I any_fault.
Proof.
  intros Hs. unfold set_vm_conf. apply wp_bind_any. intros n. apply wp_bind, wp_get_entry_any. intros e He.
  apply wp_ret. by eapply EvInv_put'.
Qed.

Lemma ev_server_timer s a n : I s -> keeps (on_daemon s (fun d => set_timer d a n)) \/ d_heap (s_d s) !! a = None.
Proof.
  intros Hs. destruct (d_heap (s_d s) !! a) as [e |] eqn:He; [left | by right].
  apply ev_on_daemon, ev_set_timer; [done | by exists e].
Qed.

Lemma ev_restart_changed s a conf : I s -> wp (restart_changed ops s a conf) I any_fault.
Proof.
  intros Hs. unfold restart_changed. apply wp_bind, wp_get_entry_any. intros e He.
  destruct (VM_STATE e); try (by apply wp_ret); try (by apply ev_shut_down); try (by apply ev_on_daemon_, ev_change_state).
  eapply wp_bind_keep; [apply ev_on_daemon, (ev_set_timer x B E); [done | by exists e] | intros [rc s1] H1; by apply wp_ret].
Qed.

Lemma ev_switch_boot s a c conf : I s -> wp (switch_boot k dv ops nmdm_offset s a c conf) I any_fault.
Proof.
  intros Hs. unfold switch_boot. apply wp_bind, wp_get_entry_any. intros e He.
  assert (Hstart : wp (s ← set_vm_conf s a c;
      '(_, s) ← on_daemon s (fun d => start_virtual_machine k dv ops nmdm_offset d a); mret s) I any_fault).
  { eapply wp_bind_keep; [by apply ev_set_vm_conf | intros s1 H1].
    eapply wp_bind_keep; [by apply ev_on_daemon, ev_start | intros [rc s2] H2; by apply wp_ret]. }
  destruct (vc_boot conf), (VM_STATE e); try done; try (by apply wp_ret); try (by apply ev_shut_down);
    by apply ev_on_daemon_, ev_change_state.
Qed.

Lemma ev_reload_added s c ce : I s -> keeps (reload_added k dv ops nmdm_offset s c ce).
Proof.
  intros Hs. unfold reload_added. apply wp_bind. unfold on_daemon at 1.
  eapply wp_bind_keep; [apply (ev_create x B E); exact Hs | intros [r d] [H1 Ha]; apply wp_ret]. cbn [fst snd] in *.
  destruct r as [a |]; [| by apply wp_ret]. specialize (Ha a eq_refl). cbn zeta. set (s1 := _ <| s_new := _ |>).
  eapply (wp_bind_keep _ _ (fun p => I p.2)); [| intros [rc s2] H2; by apply wp_ret].
  repeat case_match; [by apply wp_ret | by apply ev_on_daemon, ev_set_timer | by apply ev_on_daemon, ev_start].
Qed.

Lemma ev_reload_known s c a ce :
  I s -> wp (reload_known k dv ops nmdm_offset nv same_ent on_reload_config fuel s c a ce) I any_fault.
Proof.
  intros Hs. unfold reload_known, reopen_log. apply wp_bind, wp_bind, wp_get_entry_any. intros e He.
  apply wp_bind_any. intros old.
  assert (Hrest : forall s1, I s1 -> wp (
    s ← copy_plugin_data same_ent on_reload_config s1 c a;
    let s := s <| s_new := <[a := c]> (s_new s) |> in
    n ← get_node (s_mem s) c;
    old ← vm_conf_of s a;
    changed ← (if negb (bool_decide (vc_boot (ce_conf ce) = NO)) && vc_reboot_on_change (ce_conf ce)
               then rc ← compare_vm_conf_entry nv fuel (ln_val n) old; mret (negb (rc =? 0)) else mret false);
    if (changed : bool) then restart_changed ops s a (ce_conf ce)
    else if bool_decide (vc_boot (ce_conf ce) = vc_boot (ce_conf old)) then mret s
    else switch_boot k dv ops nmdm_offset s a c (ce_conf ce)) I any_fault).
  { intros s1 H1. eapply (wp_bind_keep _ _ I).
    - unfold copy_plugin_data. apply wp_bind_any. intros old1. apply wp_bind, wp_get_entry_any. intros e1 He1.
      apply wp_bind_any. intros n. destruct (copy_plugins _ _ _ _). apply wp_ret. by eapply EvInv_put'.
    - intros s2 H2. cbn zeta. apply wp_bind_any. intros n. apply wp_bind_any. intros old2. apply wp_bind_any. intros [].
      + by apply ev_restart_changed.
      + case_match; [by apply wp_ret | by apply ev_switch_boot]. }
  destruct (_ || _); [by apply wp_ret, Hrest |]. destruct (sys_open_log _ _ _). apply wp_ret, Hrest. by eapply EvInv_put.
Qed.

Lemma ev_reload_each l : forall s, I s -> keeps (reload_each k dv ops nmdm_offset nv same_ent on_reload_config fuel s l).
Proof.
  induction l as [| c l IH]; intros s Hs; [by apply wp_ret |]. cbn [reload_each].
  do 3 (apply wp_bind_any; intros ?). eapply (wp_bind_keep _ _ (fun p => I p.2)).
  - case_match; [| by apply ev_reload_added]. eapply wp_bind_keep; [by apply ev_reload_known | intros s1 H1; by apply wp_ret].
  - intros [rc s1] H1. case_match; [by apply wp_ret | by apply IH].
Qed.

Lemma ev_free_vm s a : I s -> stays x (vm_entry_event a) -> wp (free_vm s a) I any_fault.
Proof.
  intros Hs Hx. unfold free_vm. apply wp_bind_any. intros c. eapply wp_bind_keep; [by apply ev_on_daemon_, ev_free | intros s1 H1].
  apply wp_bind_any. intros mem. by apply wp_ret.
Qed.

Lemma ev_settle s a : I s -> stays x (vm_entry_event a) -> wp (settle ops s a) I any_fault.
Proof.
  intros Hs Hx. unfold settle. apply wp_bind, wp_get_entry_any. intros e He.
  assert (Hu : forall s1, I s1 -> wp (unlink_conf s1 a) I any_fault).
  { intros s1 H1. unfold unlink_conf. apply wp_bind_any. intros c. apply wp_bind_any. intros mem. by apply wp_ret. }
  case_match; [eapply wp_bind_keep; [by apply ev_set_vm_conf | intros s1 H1; by apply wp_ret] |].
  destruct (VM_STATE e).
  1: { cbn zeta. eapply wp_bind_keep; [apply Hu; by apply EvInv_vm_list | intros s1 H1; by apply ev_free_vm]. }
  all: try (apply wp_bind_any; intros ce; eapply wp_bind_keep; [by apply ev_shut_down | intros s1 H1; by apply Hu]).
  all: eapply wp_bind_keep; [by apply ev_on_daemon_, ev_change_state | intros s1 H1; by apply Hu].
Qed.

Lemma ev_reload s news :
  I s -> (forall a, stays x (vm_entry_event a)) ->
  keeps (reload_virtual_machines k dv ops nmdm_offset nv same_ent on_reload_config fuel s news).
Proof.
  intros Hs Hx. unfold reload_virtual_machines. destruct news as [news |]; [| by apply wp_ret]. cbn zeta.
  eapply wp_bind_keep; [by apply ev_link_news | intros s1 H1].
  eapply wp_bind_keep; [by apply ev_reload_each | intros [rc s2] H2]. cbn in H2. case_match; [by apply wp_ret |].
  eapply wp_bind_keep; [apply (wp_foreach _ _ I) | intros s3 H3]; [done | intros a s' _ H'; by apply ev_settle |].
  eapply (wp_bind_keep _ _ I); [| intros s4 H4; by apply wp_ret].
  unfold replace_list. do 2 (apply wp_bind_any; intros ?). apply wp_ret. eapply EvInv_same; [exact H3 | done | done |].
  intros b. apply free_pl_conf_alive.
Qed.

(** *** Commands *)

Lemma ev_on_world {R} s (f : W -> C (R * W)) : I s -> keeps (on_world s f).
Proof. intros Hs. unfold on_world. apply wp_bind_any. intros [r w]. apply wp_ret. by apply EvInv_world. Qed.

Lemma ev_search s a news : I s -> keeps (search_and_replace_vm_conf nv fuel s a news).
Proof.
  intros Hs. unfold search_and_replace_vm_conf. apply wp_bind_any. intros old. apply wp_bind_any. intros c_old.
  destruct news as [news |]; [| by apply wp_ret]. cbn zeta. eapply wp_bind_keep; [by apply ev_link_news | intros s1 H1].
  apply wp_bind_any. intros [[c |] mem]; [| by apply wp_ret]. apply wp_bind_any. intros n. apply wp_bind_any. intros rc.
  destruct (negb _); [| apply wp_bind_any; intros mem2; by apply wp_ret].
  eapply (wp_bind_keep _ _ I); [| intros s2 H2; by apply wp_ret]. unfold replace_conf.
  do 3 (apply wp_bind_any; intros ?). eapply wp_bind_keep; [by apply ev_set_vm_conf | intros s2 H2].
  apply wp_bind_any. intros n2. by apply wp_ret.
Qed.

Lemma ev_boot_vm s a style news : I s -> keeps (boot_vm k dv ops nmdm_offset nv fuel s a style news).
Proof.
  intros Hs. unfold boot_vm. apply wp_bind, wp_get_entry_any. intros e He. case_match; [by apply wp_ret |].
  eapply wp_bind_keep; [by apply ev_search | intros [rc s1] G1]. cbn in G1. do 2 (case_match; [by apply wp_ret |]).
  eapply (wp_bind_keep _ _ I).
  - case_match; [| by apply wp_ret]. unfold mark_install. do 2 (apply wp_bind_any; intros ?).
    apply wp_bind, wp_get_entry_any. intros e1 He1. apply wp_ret. by eapply EvInv_put'.
  - intros s2 G2. eapply wp_bind_keep; [by apply ev_on_daemon, ev_start | intros [rc2 s3] G3; by apply wp_ret].
Qed.

Lemma ev_command s req ucred news f :
  f ∈ (command_list k dv ops nmdm_offset nv cs fuel).*2 -> I s -> keeps (f s req ucred news).
Proof.
  intros Hf Hs. cbn in Hf. rewrite !elem_of_cons, elem_of_nil in Hf.
  assert (Hboot : forall style, keeps (boot0_command k dv ops nmdm_offset nv cs fuel s req style ucred news)).
  { intros style. unfold boot0_command. apply wp_bind_any. intros [a |]; [| by apply wp_ret].
    eapply wp_bind_keep; [by apply ev_boot_vm | intros [[r |] s1] H1]; [by apply wp_ret |].
    apply wp_bind_any. intros [p |]; [| by apply wp_ret].
    eapply wp_bind_keep; [by apply ev_on_world | intros [fd s2] H2; by apply wp_ret]. }
  assert (Hdown : forall how, keeps (down_response ops nv s req how ucred)).
  { intros how. unfold down_response. apply wp_bind_any. intros name.
    eapply wp_bind_keep; [by apply ev_on_daemon, ev_vm_down | intros [r s1] H1; by apply wp_ret]. }
  assert (Hlist : keeps (list_command cs s ucred)).
  { unfold list_command. apply wp_bind_any. intros [| r l]; [by apply wp_ret |]. apply wp_bind_any. intros ok. by apply wp_ret. }
  assert (Hcom : keeps (showcomport_command nv cs s req ucred)).
  { unfold showcomport_command. apply wp_bind_any. intros [a |]; [| by apply wp_ret]. apply wp_bind_any. intros p.
    apply wp_bind_any. intros e. cbn zeta. case_match; [| by apply wp_ret].
    eapply wp_bind_keep; [by apply ev_on_world | intros [z s1] H1].
    eapply wp_bind_keep; [by apply ev_on_world | intros [fd s2] H2; by apply wp_ret]. }
  assert (Hvga : keeps (showvgaport_command nv s req ucred)).
  { unfold showvgaport_command. apply wp_bind_any. intros [a |]; [| by apply wp_ret]. do 2 (apply wp_bind_any; intros ?). by apply wp_ret. }
  destruct_or! Hf; subst f; try done; first [apply Hboot | apply Hdown | apply Hcom].
Qed.

Context (nvlist_unpack : list ascii -> option NV) (nvlist_pack : response -> option (list ascii)).

Lemma ev_recv_command s sb news :
  I s -> keeps (recv_command k dv ops nmdm_offset nv cs nvlist_unpack nvlist_pack fuel s sb news).
Proof.
  intros Hs. unfold recv_command. apply wp_bind_any. intros bytes. destruct (nvlist_unpack bytes) as [req |]; [| by apply wp_ret].
  apply wp_bind_any. intros cmd. destruct (get_command_function _ _ _ _ _ _ _ _) as [f |] eqn:Ef; [| by apply wp_ret].
  eapply wp_bind_keep; [apply (ev_command s req (b_peer sb) news f); [| done] | intros [res s1] H1].
  - unfold get_command_function in Ef. apply fmap_Some in Ef as ((c & f') & Hc & ->).
    apply bsearch_loop_sound in Hc as [Hc _]. apply list_elem_of_fmap. exists (c, f'). split; [done | by apply list_elem_of_In].
  - case_match. by apply wp_ret.
Qed.

End server.

(** ** Connections *)

Section connections.
Context {NV W : Type} (k : kernel W) (dv : devices NV W) (ops : vm_method -> vm_ops NV W) (nmdm_offset : Z)
        (nv : libnv NV) (cs : com_sys W)
        (nvlist_unpack : list ascii -> option NV) (nvlist_pack : response -> option (list ascii)) (fuel : nat)
        (x : option event) (Hx : forall ev, x = Some ev -> ev_data ev = None) (E : Z -> list event).
Implicit Types (f : frontend NV W) (b : Z).

(** Here the events of connections do change; [x] is an event that stays, one of no connection. *)
Abbreviation I := (fun f => EvInv x [] E (s_d (f_s f))).

Lemma oneshot_flags ev fl :
  Z.land fl EV_ONESHOT = 0 -> oneshot (ev <| ev_kev := ev_kev ev <| k_flags := fl |> |>) = false.
Proof. intros H. unfold oneshot. cbn. by rewrite H. Qed.

(** New flags for an event of a connection. *)
Lemma ev_set_flags addr fl (d : daemon NV W) :
  Z.land fl EV_ONESHOT = 0 -> (forall ev, ev ∈ d_events d -> addr = Some (ev_addr ev) -> ev_cb ev = on_recv_cb \/ ev_cb ev = on_send_cb) ->
  EvInv x [] E d -> EvInv x [] E (d <| d_events := set_flags addr fl (d_events d) |>).
Proof.
  intros Hfl Hcb []. destruct addr as [y |]; [| by split].
  assert (Hin : forall ev, ev ∈ set_flags (Some y) fl (d_events d) ->
    exists ev0, ev0 ∈ d_events d /\ ev_addr ev = ev_addr ev0 /\ ev_data ev = ev_data ev0 /\ (ev = ev0 \/
      ev = ev0 <| ev_kev := ev_kev ev0 <| k_flags := fl |> |> /\ ev_addr ev0 = y)).
  { intros ev. cbn. intros (ev0 & -> & H0)%list_elem_of_fmap. exists ev0.
    destruct (Z.eqb_spec (ev_addr ev0) y); (split; [done | split; [done | split; [done |]]]); auto. }
  split; cbn; try done.
  - rewrite <- list_fmap_compose. erewrite list_fmap_ext; [exact ei_nodup0 |]. intros i ev _. cbn. by case_match.
  - intros ev (ev0 & H0 & -> & _)%Hin. by apply ei_fresh0.
  - intros ev (ev0 & H0 & Ha & Hd & [-> | [-> Hy]])%Hin; [by apply ei_kind0 |].
    specialize (ei_kind0 ev0 H0). subst y. unfold kind_ok in *. cbn [ev_cb ev_data ev_kev] in *.
    destruct (Hcb ev0 H0 eq_refl) as [E0 | E0]; rewrite E0 in ei_kind0; (destruct ei_kind0 as [_ Hs]);
      change (ev_cb (ev0 <| ev_kev := _ |>)) with (ev_cb ev0); rewrite E0; (split; [by apply oneshot_flags | exact Hs]).
  - intros ev Hev. specialize (ei_cur0 ev Hev). apply list_elem_of_fmap. exists ev. split; [| done].
    destruct (Z.eqb_spec (ev_addr ev) y) as [Hy |]; [| done]. exfalso. subst y.
    pose proof (ei_kind0 ev ei_cur0) as Hk. unfold kind_ok in Hk.
    destruct (Hcb ev ei_cur0 eq_refl) as [E0 | E0]; rewrite E0, (Hx ev Hev) in Hk; by destruct Hk as [_ []].
  - intros ev a (ev0 & H0 & _ & -> & _)%Hin. by apply ei_data0.
  - intros b Hb. by apply elem_of_nil in Hb.
Qed.

(** The events of the connections [B] as they are. *)
Abbreviation at_work B f := (EvInv x B (fun b => events_of b (d_events (s_d (f_s f)))) (s_d (f_s f))).

Lemma EvInv_less y B (F : Z -> list event) (d : daemon NV W) : EvInv y B F d -> EvInv None [] E d.
Proof. intros []. by split; try done; intros b Hb; apply elem_of_nil in Hb. Qed.

Lemma EvInv_unconns y B (F : Z -> list event) (d : daemon NV W) : EvInv y B F d -> EvInv y [] E d.
Proof. intros []. by split; try done; intros b Hb; apply elem_of_nil in Hb. Qed.

Lemma EvInv_conns (good : vm_conf_entry NV -> Prop) y B f :
  FInv good f -> EvInv y [] E (s_d (f_s f)) -> (forall b, b ∈ B -> b ∈ f_list f) ->
  EvInv y B (fun b => events_of b (d_events (s_d (f_s f)))) (s_d (f_s f)).
Proof.
  intros Hf [] HB. split; try done. intros b Hb%HB. split; [by apply (fi_fresh _ _ Hf) |].
  destruct (d_heap _ !! b) eqn:Hd; [| done]. exfalso. apply (fi_vms _ _ Hf b Hb), (sf_alive _ _ (co_safe _ _ (fi_server _ _ Hf))).
  by rewrite Hd.
Qed.

(** The flags are set on events with their call-backs, since addresses differ. *)
Lemma ev_wait_flags f b recv_f send_f w r :
  EvInv x [] E (s_d (f_s f)) -> events_of b (d_events (s_d (f_s f))) = [w; r] -> wait_pair w r ->
  Z.land recv_f EV_ONESHOT = 0 -> Z.land send_f EV_ONESHOT = 0 ->
  wp (set_sock_buf_wait_flags f b recv_f send_f) (fun p => I p.2) any_fault.
Proof.
  intros Hi Hwr Hp Hr Hs. unfold set_sock_buf_wait_flags. rewrite (find_wait_pair b _ w r Hwr Hp). cbn [Z.eqb].
  apply wp_bind_any. intros []; apply wp_ret; [| done]. cbn [snd].
  assert (Hin : forall ev, ev = w \/ ev = r -> ev ∈ d_events (s_d (f_s f))).
  { intros ev Hev. assert (H : In ev [w; r]) by (destruct Hev as [-> | ->]; cbn; auto).
    rewrite <- Hwr in H. apply filter_In in H as [H _]. by apply list_elem_of_In. }
  pose proof (ei_nodup _ _ _ _ Hi) as Hnd.
  assert (Huniq : forall ev ev', ev ∈ d_events (s_d (f_s f)) -> ev' ∈ d_events (s_d (f_s f)) -> ev_addr ev = ev_addr ev' -> ev = ev').
  { intros ev ev' [i Hi1]%list_elem_of_lookup [j Hj]%list_elem_of_lookup Ha.
    assert (i = j) as <-; [| congruence]. eapply (NoDup_lookup _ i j (ev_addr ev)); [exact Hnd | |]; rewrite list_lookup_fmap.
    - by rewrite Hi1.
    - by rewrite Hj, Ha. }
  destruct Hp as (_ & Hcw & _ & Hcr & _).
  assert (H1 : EvInv x [] E (s_d (f_s f) <| d_events := set_flags (Some (ev_addr r)) recv_f (d_events (s_d (f_s f))) |>)).
  { apply ev_set_flags; [done | | done]. intros ev Hev [= Ha]. left. by rewrite <- (Huniq r ev) by auto. }
  refine (ev_set_flags (Some (ev_addr w)) send_f _ Hs _ H1). intros ev Hev [= Ha].
  cbn in Hev. apply list_elem_of_fmap in Hev as (ev0 & -> & H0). right.
  assert (ev0 = w) as -> by (symmetry; apply Huniq; auto; revert Ha; by case_match). by case_match.
Qed.

Lemma ev_destroy f b : I f -> wp (destroy_sock_buf f b) I any_fault.
Proof. intros Hi. unfold destroy_sock_buf. apply wp_bind_any. intros sb. by apply wp_ret. Qed.

Lemma ev_close f b : I f -> wp (destroy_sock_buf (stop_waiting_for_sock f b) b) I any_fault.
Proof.
  intros Hi. apply ev_destroy. apply EvInv_filter; [done | | by intros ev y Hy%elem_of_nil].
  intros ev Hev. unfold vm_entry_event. by rewrite (Hx ev Hev), bool_decide_false.
Qed.

Lemma ev_on_recv (good : vm_conf_entry NV -> Prop) f b now ev news :
  FInv good f -> I f ->
  wp (on_recv_sock_buf k dv ops nmdm_offset nv cs nvlist_unpack nvlist_pack fuel f b now ev news) (fun p => I p.2) any_fault.
Proof.
  intros Hf Hi. unfold on_recv_sock_buf, get_sock. destruct (f_socks f !! b) as [sb |] eqn:Hb; [| by apply wp_crash].
  assert (Hbl : b ∈ f_list f) by (apply (fi_dom _ _ Hf); by rewrite Hb). apply wp_bind, wp_ret, wp_bind_any. intros [rc sb1].
  destruct (rc =? 2).
  - assert (Hc : EvInv x [b] (fun b => events_of b (d_events (s_d (f_s f)))) (s_d (f_s f))).
    { eapply EvInv_conns; [exact Hf | exact Hi |]. by intros y ->%list_elem_of_singleton. }
    eapply wp_bind_keep; [by apply (ev_recv_command k dv ops nmdm_offset nv cs fuel x [b]) | intros [[rc2 sb2] s2] H2].
    cbn [snd] in H2. destruct (rc2 =? 0); [| apply wp_ret; by eapply EvInv_unconns].
    destruct (fi_events _ _ Hf b Hbl) as (w & r & Hwr & Hp).
    eapply (wp_bind_keep _ _ (fun p => I p.2)); [| intros [z f3] H3; apply wp_ret; exact H3]. eapply (ev_wait_flags _ b _ _ w r); try done.
    + by eapply EvInv_unconns.
    + cbn [f_s]. rewrite <- Hwr. apply (ei_conn _ _ _ _ H2). by left.
  - destruct (rc =? 1); [by apply wp_ret |]. eapply wp_bind_keep; [by apply ev_close | intros f2 H2; by apply wp_ret].
Qed.

Lemma ev_on_send (good : vm_conf_entry NV -> Prop) f b now ev :
  FInv good f -> I f -> wp (on_send_sock_buf f b now ev) (fun '(_, f', _, _) => I f') any_fault.
Proof.
  intros Hf Hi. unfold on_send_sock_buf, get_sock. destruct (f_socks f !! b) as [sb |] eqn:Hb; [| by apply wp_crash].
  assert (Hbl : b ∈ f_list f) by (apply (fi_dom _ _ Hf); by rewrite Hb).
  apply wp_bind, wp_ret, wp_bind_any. intros [[[rc sb1] out] fd]. destruct (rc =? 2).
  - destruct (fi_events _ _ Hf b Hbl) as (w & r & Hwr & Hp).
    eapply wp_bind_keep; [by apply (ev_wait_flags _ b _ _ w r) | intros [z f3] H3; apply wp_ret; exact H3].
  - destruct (rc =? 1); [by apply wp_ret |]. eapply wp_bind_keep; [by apply ev_close | intros f2 H2; by apply wp_ret].
Qed.

Lemma ev_on_accept f conn now cred : I f -> wp (on_accept_cmd_sock f conn now cred) (fun p => I p.2) any_fault.
Proof.
  intros Hi. unfold on_accept_cmd_sock. case_match; [by apply wp_ret |].
  eapply (wp_bind_keep _ _ (fun p => I p.2 /\ forall b, p.1 = Some b -> b < d_next (s_d (f_s p.2)))).
  { unfold new_sock_buf. apply wp_bind_any. intros [[sb |] o]; apply wp_ret; [| done].
    split; [by apply EvInv_next; [| cbn; lia] |]. intros b [= <-]. cbn. lia. }
  intros [[b |] f1] [H1 Hb]; [| by apply wp_ret]. cbn [fst snd] in *. specialize (Hb b eq_refl).
  eapply (wp_bind_keep _ _ (fun p => I p.2)).
  - unfold wait_for_sock_buf. apply wp_bind_any. intros sb.
    eapply wp_bind_keep; [apply (ev_on_daemon x [] E), ev_register_events | intros [rc s2] H2; by apply wp_ret].
    + exact H1.
    + intros kev cb data addr. rewrite !elem_of_cons, elem_of_nil. intros [[= -> -> ->] | [[= -> -> ->] | []]]; (split; [done | by eexists]).
    + intros kev cb a. rewrite !elem_of_cons, elem_of_nil. intros [[= -> -> ->] | [[= -> -> ->] | []]]; (split; [apply not_elem_of_nil | done]).
  - intros [rc f2] H2. case_match; [| by apply wp_ret]. eapply wp_bind_keep; [by apply ev_destroy | intros f3 H3; by apply wp_ret].
Qed.

Lemma ev_close_timeouts f timeout now : I f -> wp (close_timeouts f timeout now) I any_fault.
Proof. intros Hi. unfold close_timeouts. apply wp_foreach; [done |]. intros b f' _ H'. by apply ev_destroy. Qed.

Lemma ev_wait_for_cmd_sock f sock : I f -> wp (wait_for_cmd_sock f sock) (fun p => I p.2) any_fault.
Proof.
  intros Hi. unfold wait_for_cmd_sock.
  eapply wp_bind_keep; [apply (ev_on_daemon x [] E), ev_register_event0 | intros [rc s] H; by apply wp_ret]; done.
Qed.

End connections.
