(* ===== verification/EventLoop.v ===== *)
(** * The event loop (src/bmd.c 221-249, 482-598, 1159-1173, 1365-1401)

    The loop puts the parts of the daemon together: it waits for an event of the kernel, takes the
    [struct event] that the kernel gives back, calls its call-back and removes the
    event when it occurs once.  The call-backs are those of VMs (Daemon.v, here on
    the state with the linked configurations of Reload.v), of the signals, of the
    command socket and the connections (Frontend.v) and of plugins.

    What arrives is an argument, with everything the system answers
    while the call-back runs.  A plugin is a client of two functions of the daemon,
    [plugin_wait_for_process] and [plugin_set_timer]: the calls that its call-back makes are
    part of the answers. *)

From S2P Require Import Prelude CString Vars Conf Global MPool Plugin ParseValue Parser Load Tap Vm Network.
From S2P Require Import NvList SockBuf Daemon ConfList Reload Upkeep Command Frontend Events.
From Stdlib Require Import Ascii.

Local Open Scope Z_scope.

(** ** Data *)

Definition COMMAND_TIMEOUT_SEC : Z := 30.

(** The first number of the call-backs of plugins. *)
Definition plugin_cb (n : nat) : event_call_back := CbOther (5 + n).

Inductive plugin_call :=
  | PlProcess (pid : Z) (cb : nat) (data : option Z)
  | PlTimer (second : Z) (cb : nat) (data : option Z).

Record reactions (NV : Type) := {
  an_reply : reply;
  an_now : Z;
  an_conn : Z;
  an_cred : option xucred;
  an_recv : recv_event;
  an_send : send_event;
  an_news : option (list (vm_conf_entry NV));
  an_calls : list plugin_call;
}.
Arguments an_reply {NV} r.
Arguments an_now {NV} r.
Arguments an_conn {NV} r.
Arguments an_cred {NV} r.
Arguments an_recv {NV} r.
Arguments an_send {NV} r.
Arguments an_news {NV} r.
Arguments an_calls {NV} r.

(** What [kevent_get] returns: an error, nothing in time, an event without data, or
    the event at an address. *)
Inductive arrival (NV : Type) :=
  | ArFail
  | ArNone (now : Z)
  | ArUnexpected
  | ArEvent (x : Z) (an : reactions NV).
Arguments ArFail {NV}.
Arguments ArNone {NV} now.
Arguments ArUnexpected {NV}.
Arguments ArEvent {NV} x an.

Record loop (NV W : Type) := { l_f : frontend NV W; l_sigterm : Z }.
Arguments l_f {NV W} l.
Arguments l_sigterm {NV W} l.

#[export] Instance eta_loop {NV W} : Eta (loop NV W) := fun l => {| l_f := l_f l; l_sigterm := l_sigterm l |}.

(** How an iteration ends.  [HalfReloaded] is no value of the code: it tells that a reload gave up
    after some VMs had got their new configuration. *)
Inductive turn := Again | HalfReloaded | Return (rc : Z).

Section loop.
Context {NV W : Type} (k : kernel W) (dv : devices NV W) (ops : vm_method -> vm_ops NV W) (nmdm_offset : Z)
        (nv : libnv NV) (cs : com_sys W) (same_ent : plugin_desc NV -> plugin_desc NV -> bool)
        (on_reload_config : plugin_desc NV -> NV -> NV -> NV * NV)
        (nvlist_unpack : list ascii -> option NV) (nvlist_pack : response -> option (list ascii)) (fuel : nat).
Implicit Types (d : daemon NV W) (s : server NV W) (f : frontend NV W) (l : loop NV W) (ev : event) (an : reactions NV).

(** *** Plugins *)

Definition plugin_wait_for_process d (pid : Z) (cb : nat) (data : option Z) : C (Z * daemon NV W) :=
  '(rc, d) ← register_event0 PLUGIN {| k_ident := pid; k_filter := EVFILT_PROC; k_flags := Z.lor EV_ADD EV_ONESHOT; k_data := 0 |}
               (plugin_cb cb) data d;
  mret (if rc <? 0 then -1 else 0, d).

Definition plugin_set_timer d (second : Z) (cb : nat) (data : option Z) : C (Z * daemon NV W) :=
  if INT_MAX <=? d_timer_id d then crash SignedOverflow
  else
    let d := d <| d_timer_id := d_timer_id d + 1 |> in
    '(rc, d) ← register_event0 PLUGIN {| k_ident := d_timer_id d; k_filter := EVFILT_TIMER;
                                         k_flags := Z.lor EV_ADD EV_ONESHOT; k_data := second |}
                 (plugin_cb cb) data d;
    mret (if rc <? 0 then -1 else 0, d).

Definition run_call s (c : plugin_call) : C (server NV W) :=
  '(_, s) ← on_daemon s (fun d => match c with
                                  | PlProcess pid cb data => plugin_wait_for_process d pid cb data
                                  | PlTimer second cb data => plugin_set_timer d second cb data
                                  end);
  mret s.

(** *** Call-backs of VMs *)

(** The configuration that the call-back reads must not be freed. *)
Definition timer_call s (a : Z) : C (Z * server NV W) :=
  _ ← vm_conf_of s a;
  on_daemon s (fun d => on_timer k dv ops nmdm_offset d a).

(** [VM_CONF(vm_ent)->install = false] is a store to the object. *)
Definition store_install s (a : Z) : C (server NV W) :=
  c ← conf_ptr s a;
  n ← get_node (s_mem s) c;
  e ← get_entry (s_d s) a;
  let ce := ln_val n in
  mret (s <| s_mem := put_node (s_mem s) c
         (n <| ln_val := {| ce_conf := ce_conf ce <| vc_install := vc_install (VM_CONF e) |>; ce_pl_data := ce_pl_data ce |} |>) |>).

(** A VM that is being removed goes with its configuration. *)
Definition exit_call s (a : Z) (st : wait_status) : C (Z * server NV W) :=
  e ← get_entry (s_d s) a;
  _ ← vm_conf_of s a;
  if decide (VM_STATE e = REMOVE) then
    s ← on_daemon_ s (fun d => stop_virtual_machine k dv ops d a);
    let s := s <| s_d := s_d s <| d_vm_list := List.filter (fun b => negb (b =? a)) (d_vm_list (s_d s)) |> |> in
    s ← free_vm s a;
    mret (0, s)
  else
    '(rc, s) ← on_daemon s (fun d => on_vm_exit k dv ops nmdm_offset d a st);
    s ← store_install s a;
    mret (rc, s).

(** *** All call-backs *)

Definition on_server f {R} (g : server NV W -> C (R * server NV W)) : C (R * frontend NV W) :=
  '(r, s) ← g (f_s f); mret (r, f <| f_s := s |>).

Definition on_sigterm l : loop NV W := l <| l_sigterm := l_sigterm l + 1 |>.

(** The result of the reload is not used; here it tells a reload that gave up. *)
Definition on_sighup f (news : option (list (vm_conf_entry NV))) : C (bool * frontend NV W) :=
  '(rc, f) ← on_server f (fun s => reload_virtual_machines k dv ops nmdm_offset nv same_ent on_reload_config fuel s news);
  mret ((rc <? 0) && bool_decide (is_Some news), f).

Definition with_frontend l (c : C (Z * frontend NV W)) : C (bool * loop NV W) :=
  '(_, f) ← c; mret (false, l <| l_f := f |>).

(** The call of [event->cb] with [ev.ident] and [event->data]. *)
Definition loop_call_back l ev an : C (bool * loop NV W) :=
  let f := l_f l in
  match ev_cb ev, ev_data ev with
  | CbOther 0, _ => mret (false, on_sigterm l)
  | CbOther 1, _ => '(half, f) ← on_sighup f (an_news an); mret (half, l <| l_f := f |>)
  | CbOther 2, _ => with_frontend l (on_accept_cmd_sock f (an_conn an) (an_now an) (an_cred an))
  | CbOther 3, Some b =>
      with_frontend l (on_recv_sock_buf k dv ops nmdm_offset nv cs nvlist_unpack nvlist_pack fuel f b (an_now an) (an_recv an) (an_news an))
  | CbOther 4, Some b => with_frontend l ('(rc, f, _, _) ← on_send_sock_buf f b (an_now an) (an_send an); mret (rc, f))
  | CbOther (S (S (S (S (S _))))), _ =>
      with_frontend l (on_server f (fun s => s ← foreach run_call (an_calls an) s; mret (0, s)))
  | CbTimer, Some a => with_frontend l (on_server f (fun s => timer_call s a))
  | CbVmExit, Some a => with_frontend l (on_server f (fun s => exit_call s a (an_status (an_reply an))))
  | CbReadVmOutput, Some a =>
      with_frontend l (on_server f (fun s => on_daemon s (fun d =>
        on_read_vm_output k d a (k_ident (ev_kev ev)) (an_size (an_reply an)) (an_fatal (an_reply an)))))
  | _, None => crash NullDeref
  end.

(** The event that is removed must be there still. *)
Definition loop_event l (x : Z) an : C (bool * loop NV W) :=
  match List.find (fun ev => ev_addr ev =? x) (d_events (s_d (f_s (l_f l)))) with
  | None => crash UseAfterFree
  | Some ev =>
      '(half, l) ← loop_call_back l ev an;
      if oneshot ev then
        if existsb (fun y => ev_addr y =? x) (d_events (s_d (f_s (l_f l)))) then
          mret (half, l <| l_f := on_events (l_f l) (List.filter (fun y => negb (ev_addr y =? x))) |>)
        else crash UseAfterFree
      else mret (half, l)
  end.

(** One iteration. *)
Definition loop_step l (ar : arrival NV) : C (turn * loop NV W) :=
  match ar with
  | ArFail => mret (Return (-1), l)
  | ArNone now => f ← close_timeouts (l_f l) COMMAND_TIMEOUT_SEC now; mret (Again, l <| l_f := f |>)
  | ArUnexpected => mret (Again, l)
  | ArEvent x an => '(half, l) ← loop_event l x an; mret (if (half : bool) then HalfReloaded else Again, l)
  end.

(** The loop; [Again] when it still waits. *)
Fixpoint loop_run l (ars : list (arrival NV)) : C (turn * loop NV W) :=
  if l_sigterm l =? 0 then
    match ars with
    | [] => mret (Again, l)
    | ar :: ars' =>
        '(o, l) ← loop_step l ar;
        match o with
        | Return rc => mret (Return rc, l)
        | _ => loop_run l ars'
        end
    end
  else mret (Return 0, l).

Definition event_loop l (cmd_sock : Z) (ars : list (arrival NV)) : C (turn * loop NV W) :=
  '(rc, f) ← wait_for_cmd_sock (l_f l) cmd_sock;
  if rc <? 0 then mret (Return (-1), l <| l_f := f |>) else loop_run (l <| l_f := f |>) ars.

End loop.

(** ** Call-backs of VMs leave the server consistent *)

Section vms.
Context {NV W : Type} (k : kernel W) (dv : devices NV W) (ops : vm_method -> vm_ops NV W) (nmdm_offset : Z)
        `{Hlaws : forall m, BackendLaws (m_name m) (ops m)} (good : vm_conf_entry NV -> Prop)
        (Hstart : forall ce, good ce -> exists m, startable ce m)
        (Hclear : forall ce, good ce ->
           good {| ce_conf := ce_conf ce <| vc_install := false |>; ce_pl_data := ce_pl_data ce |}).
Implicit Types (d : daemon NV W) (s : server NV W) (a : Z) (e : vm_entry NV).

(** The entry of one VM has changed, in a way that keeps it usable; a VM that is being removed
    stays so. *)
Definition lively d a e d' : Prop :=
  exists e', becomes d a e' d' /\ good (vm_ent_conf (ve_vm e')) /\ is_Some (ve_method e') /\
    (VM_STATE e = REMOVE -> VM_STATE e' = REMOVE) /\ event_frame a d d'.

(** An entry that can be worked on. *)
Definition usable d a e : Prop :=
  d_heap d !! a = Some e /\ good (vm_ent_conf (ve_vm e)) /\ is_Some (ve_method e).

Lemma lively_usable d a e d' : lively d a e d' -> exists e', usable d' a e'.
Proof. intros (e' & B & G & M & _). exists e'. split; [by eapply becomes_lookup | done]. Qed.

(** A second change, when the VM is not being removed. *)
Lemma lively_trans d a e d1 d2 :
  VM_STATE e <> REMOVE -> lively d a e d1 -> (exists e1, lively d1 a e1 d2) -> lively d a e d2.
Proof.
  intros Hst (e1 & B1 & _ & _ & _ & [F1 N1]) (e1' & e2 & B2 & G2 & M2 & _ & [F2 N2]). exists e2.
  split; [by eapply becomes_trans |]. split; [done | split; [done | split; [done |]]]. split; [congruence | lia].
Qed.

Lemma step_lively d a e e' d' :
  usable d a e -> step d a e e' d' -> (VM_STATE e = REMOVE -> VM_STATE e' = REMOVE) -> lively d a e d'.
Proof.
  intros (He & G & M) (B & C1 & M1 & F) Hst. exists e'. rewrite C1, M1. done.
Qed.

Lemma lively_refl d a e d' :
  usable d a e -> d_heap d' = d_heap d -> d_vm_list d' = d_vm_list d -> event_frame a d d' -> lively d a e d'.
Proof. intros (He & G & M) H1 H2 H3. exists e. split; [by apply becomes_same | done]. Qed.

Lemma foreign_filter a (p : event -> bool) l :
  (forall ev, p ev = false -> ev_data ev = Some a) -> foreign a (List.filter p l) = foreign a l.
Proof.
  intros Hp. unfold foreign, vm_entry_event. rewrite filter_twice. apply filter_ext. intros ev.
  destruct (p ev) eqn:E; [done |]. by rewrite (Hp ev E), bool_decide_true.
Qed.

Lemma drop_lively d a e (p : event -> bool) :
  usable d a e -> (forall ev, p ev = true -> ev_data ev = Some a) -> lively d a e (stop_waiting_for p d).
Proof.
  intros Hu Hp. apply lively_refl; try done. split; [| cbn; lia]. apply foreign_filter.
  intros ev H%negb_false_iff. by apply Hp.
Qed.

Lemma start_lively d a e :
  listed d -> usable d a e -> VM_STATE e <> REMOVE ->
  wp (start_virtual_machine k dv ops nmdm_offset d a) (fun p => lively d a e p.2) tolerated.
Proof.
  intros Hl (He & G & M) Hst. destruct (Hstart _ G) as [m Hm].
  eapply wp_mono; [by apply (start_virtual_machine_step k dv ops nmdm_offset d a e m) | | done].
  intros [rc d'] (e' & [Hh Hv] & C1 & M1 & F). cbn in *. exists e'. rewrite insert_insert_eq in Hh.
  split; [done |]. rewrite C1, M1. cbn. split; [done | split; [by eexists | done]].
Qed.

Lemma stop_lively d a e :
  usable d a e -> VM_STATE e <> REMOVE ->
  wp (stop_virtual_machine k dv ops d a) (fun d' => lively d a e d') tolerated.
Proof.
  intros Hu Hst. pose proof Hu as (He & G & [m M]). unfold stop_virtual_machine. apply wp_bind, (wp_get_entry _ _ _ _ _ He).
  set (d1 := stop_waiting_for _ d). assert (L1 : lively d a e d1) by (apply drop_lively; [done | apply vm_timers_data]).
  destruct (Hstart _ G) as [m' [Hr _]].
  apply wp_bind. eapply wp_mono; [by apply (cleanup_step k ops d1 a e m) | intros d2 (e2 & S2) | done].
  apply (wp_call_plugins dv d2 a e2); [by eapply step_lookup | intros w].
  eapply lively_trans; [done | exact L1 |]. exists e. by eapply (step_lively d1 a e e2 (d2 <| d_world := w |>)).
Qed.

Lemma becomes_listed d a e d' : listed d -> lively d a e d' -> listed d'.
Proof.
  intros Hl (e' & [Hh Hv] & _) b Hb. rewrite Hh, lookup_insert_is_Some. rewrite Hv in Hb.
  destruct (decide (a = b)); [by left | right; split; [done | by apply Hl]].
Qed.

Lemma on_timer_lively d a e :
  listed d -> usable d a e -> wp (on_timer k dv ops nmdm_offset d a) (fun p => lively d a e p.2) tolerated.
Proof.
  intros Hl Hu. pose proof Hu as (He & G & [m M]). unfold on_timer. apply wp_bind, (wp_get_entry _ _ _ _ _ He).
  assert (Hp : wp (d ← VM_POWEROFF ops d a; mret (0, d)) (fun p : Z * daemon NV W => lively d a e p.2) tolerated).
  { apply wp_bind. eapply wp_mono; [by apply (VM_POWEROFF_step ops d a e m) | intros d1 S1 | done].
    apply wp_ret. by eapply step_lively. }
  destruct (VM_STATE e) eqn:Es; try done.
  - apply wp_bind. eapply wp_mono; [apply (start_lively d a e); [done | done | congruence] | intros [rc d1] L1 | done]. by apply wp_ret.
  - apply wp_ret. by apply lively_refl; try apply event_frame_same.
Qed.

Lemma on_read_lively d a e fd size fatal :
  usable d a e -> wp (on_read_vm_output k d a fd size fatal) (fun p => lively d a e p.2) tolerated.
Proof.
  intros Hu. pose proof Hu as (He & G & M). unfold on_read_vm_output. apply wp_bind, (wp_get_entry _ _ _ _ _ He).
  destruct (write_err_log_like k (d_world d) fd size fatal (ve_vm e)) as ([Hc _] & Hs & _).
  destruct (write_err_log _ _ _ _ _) as [[n v] w]. cbn in Hc, Hs. apply wp_ret.
  assert (L1 : lively d a e (put_vm d a e v <| d_world := w |>)).
  { exists (e <| ve_vm := v |>). split; [done |]. cbn. rewrite Hc. split; [done | split; [done | split; [| by apply event_frame_same]]].
    unfold VM_STATE. cbn. by rewrite Hs. }
  cbn [snd]. destruct (n =? 0); [| done]. destruct L1 as (e1 & [Hh Hl] & H1 & H2 & H3 & [H4 H5]). exists e1.
  split; [done | split; [done | split; [done | split; [done |]]]]. split; [| done]. rewrite <- H4. apply foreign_filter.
  intros ev [[H%bool_decide_eq_true _]%andb_true_iff _]%negb_false_iff%andb_true_iff. done.
Qed.

Lemma again_lively d0 d a e0 e (c : C (Z * daemon NV W)) :
  VM_STATE e0 <> REMOVE -> lively d0 a e0 d -> wp c (fun p => lively d a e p.2) tolerated ->
  wp ('(_, d) ← c; mret (0, d)) (fun p : Z * daemon NV W => lively d0 a e0 p.2) tolerated.
Proof.
  intros Hst L Hf. apply wp_bind. eapply wp_mono; [exact Hf | intros [rc d'] L' | done]. apply wp_ret.
  eapply lively_trans; [done | exact L | by exists e].
Qed.

(** A VM that ends is started again, stopped, or both one after the other. *)
Lemma stopped_lively d a e :
  usable d a e -> VM_STATE e <> REMOVE ->
  wp (d ← stop_virtual_machine k dv ops d a; d ← clear_install d a; mret (0, d))
     (fun p : Z * daemon NV W => lively d a e p.2) tolerated.
Proof.
  intros Hu Hst. apply wp_bind. eapply wp_mono; [by apply stop_lively | intros d1 L1 | done].
  destruct (lively_usable _ _ _ _ L1) as (e1 & He1 & G1 & M1). unfold clear_install, put_install.
  apply wp_bind, wp_bind, (wp_get_entry _ _ _ _ _ He1), wp_ret, wp_ret. cbn [snd].
  eapply lively_trans; [done | exact L1 |]. exists e1. eexists. split; [done |].
  split; [by apply Hclear | split; [done | split; [done | by apply event_frame_same]]].
Qed.

Lemma restarted_lively d a e :
  listed d -> usable d a e -> VM_STATE e <> REMOVE ->
  wp (d ← stop_virtual_machine k dv ops d a; d ← change_state d a TERMINATE; e ← get_entry d a;
      '(_, d) ← set_timer d a (Z.max (vc_boot_delay (VM_CONF e)) 3); mret (0, d))
     (fun p : Z * daemon NV W => lively d a e p.2) tolerated.
Proof.
  intros Hl Hu Hst. apply wp_bind. eapply wp_mono; [by apply stop_lively | intros d1 L1 | done].
  destruct (lively_usable _ _ _ _ L1) as (e1 & He1 & G1 & M1). apply wp_bind.
  eapply wp_mono; [by apply (change_state_step d1 a e1 TERMINATE) | intros d2 S2 | done].
  set (e2 := e1 <| ve_vm := _ |>) in S2. pose proof (step_lookup _ _ _ _ _ S2) as He2.
  assert (L2 : lively d a e d2).
  { destruct S2 as (B2 & C2 & M2 & F2). eapply lively_trans; [done | exact L1 |].
    exists (e1 <| ve_vm := ve_vm e1 <| vm_state := RUN |> |>). exists e2. split; [done | split; [done | split; [done | by split]]]. }
  apply wp_bind, (wp_get_entry _ _ _ _ _ He2). eapply (again_lively _ d2 _ _ e2); [done | exact L2 |].
  eapply wp_mono; [by apply (set_timer_step d2 a e2) | intros [rc d3] (e3 & S3) | done].
  eapply step_lively; [by split | exact S3 |]. done.
Qed.

Lemma on_vm_exit_lively d a e st :
  listed d -> usable d a e -> VM_STATE e <> REMOVE ->
  wp (on_vm_exit k dv ops nmdm_offset d a st) (fun p => lively d a e p.2) tolerated.
Proof.
  intros Hl Hu Hst. pose proof Hu as (He & G & M). unfold on_vm_exit. apply wp_bind, (wp_get_entry _ _ _ _ _ He). cbn zeta.
  assert (Hfail : wp (d ← stop_virtual_machine k dv ops d a; mret (0, d)) (fun p : Z * daemon NV W => lively d a e p.2) tolerated).
  { apply wp_bind. eapply wp_mono; [by apply (stop_lively d a e) | intros d1 L1; by apply wp_ret | done]. }
  assert (H0 : lively d a e d) by (by apply lively_refl; try apply event_frame_same).
  destruct (VM_STATE e) eqn:Es; try done.
  - by apply wp_ret.
  - destruct st as [[| |] |]; try done. unfold close_infd. apply wp_bind, wp_bind, (wp_get_entry _ _ _ _ _ He), wp_ret.
    set (d1 := put_vm d a e _ <| d_world := _ |>). set (e1 := e <| ve_vm := ve_vm e <| vm_infd := -1 |> |>).
    assert (U1 : usable d1 a e1) by (split; [apply lookup_insert_eq | done]).
    assert (L1 : lively d a e d1) by (exists e1; split; [done | split; [done | split; [done | split; [congruence | by apply event_frame_same]]]]).
    apply wp_bind, (wp_get_entry _ _ _ _ _ (proj1 U1)). set (d2 := stop_waiting_for _ d1).
    assert (L2 : lively d1 a e1 d2) by (apply drop_lively; [done | apply vm_output_data]).
    assert (L02 : lively d a e d2) by (eapply lively_trans; [congruence | exact L1 | by exists e1]).
    eapply (again_lively _ d2 _ _ e1); [congruence | exact L02 |].
    apply start_lively; [by eapply becomes_listed | split; [apply lookup_insert_eq | done] |]. unfold e1, VM_STATE. cbn.
    unfold VM_STATE in Es. congruence.
  - destruct (Hstart _ G) as (m & _ & Hb & _). unfold reboots. apply wp_bind.
    eapply (wp_mono _ (fun _ => True) _ tolerated); [| intros [] _ | done].
    { destruct st; [| by apply wp_ret]. repeat case_match; try (by apply wp_ret).
      apply wp_bind, (wp_deref _ (m_name m.1)); [exact Hb | by apply wp_ret]. }
    + eapply (again_lively _ d _ _ e); [congruence | exact H0 |]. apply start_lively; [done | done | congruence].
    + apply stopped_lively; [done | congruence].
  - apply stopped_lively; [done | congruence].
  - apply restarted_lively; [done | done | congruence].
Qed.

(** The server stays consistent. *)
Lemma Consistent_lively s a e d :
  Consistent good s -> d_heap (s_d s) !! a = Some e -> lively (s_d s) a e d -> Consistent good (s <| s_d := d |>).
Proof.
  intros [Hsafe Hfr Hinj (L & HL & HV)] He (e' & [Hh Hl] & G & M & Hst & [Hev Hn]).
  assert (Hs' : Safe good (put_entry (s_d s) a e')) by (by eapply Safe_put).
  split; cbn; rewrite ?Hh.
  - destruct Hs'. split; rewrite ?Hh, ?Hl; try done.
    + intros ev b Hin Hcb Hd. destruct (foreign_in _ _ _ ev Hev Hin) as [Hold | Hnew]; [by apply (sf_events ev) |].
      rewrite Hd in Hnew. injection Hnew as ->. rewrite lookup_insert_eq. by eexists.
    + intros b Hb. rewrite Hh. rewrite Hl in Hb. by apply sf_listed.
    + intros b f Hb. destruct (sf_heap b f Hb) as (? & ?). cbn in *. split; [lia | done].
  - intros c Hc. specialize (Hfr c Hc). lia.
  - intros b b' c. rewrite !(alive_insert _ a e) by done. apply Hinj.
  - exists L. split; [done |]. intros b f [[<- <-] | [_ Hb]]%lookup_insert_Some; [| by apply HV].
    destruct (HV a e He) as (c & H1 & H2 & H3). exists c. split; [done | split; [done |]]. destruct H3; auto.
Qed.

Lemma Consistent_usable s a e : Consistent good s -> d_heap (s_d s) !! a = Some e -> usable (s_d s) a e.
Proof. intros Hs He. destruct (sf_heap _ _ (co_safe _ _ Hs) a e He) as (_ & H1 & H2). done. Qed.

Lemma store_install_consistent s a :
  Consistent good s -> is_Some (d_heap (s_d s) !! a) ->
  wp (store_install s a) (fun s' => Consistent good s' /\ s_d s' = s_d s) tolerated.
Proof.
  intros [Hsafe Hfr Hinj (L & HL & HV)] [e He]. destruct (HV a e He) as (c & Hc & [n Hn] & _).
  unfold store_install, conf_ptr. rewrite Hc. apply wp_bind, wp_ret.
  apply wp_bind, (wp_get_node _ _ _ _ _ Hn). apply wp_bind, (wp_get_entry _ _ _ _ _ He). apply wp_ret. split; [| done]. split; try done.
  - intros x. cbn. intros [<- | [_ Hx]]%lookup_insert_is_Some; [by apply Hfr; rewrite Hn | by apply Hfr].
  - exists L. split.
    + destruct HL as (H1 & H2 & H3). split; [done | split; [by apply seg_value | done]].
    + intros b f Hb. destruct (HV b f Hb) as (x & H1 & H2 & H3). exists x. split; [done | split; [| done]].
      cbn. rewrite lookup_insert_is_Some. destruct (decide (c = x)); auto.
Qed.

Lemma timer_call_consistent s a :
  Consistent good s -> is_Some (d_heap (s_d s) !! a) ->
  wp (timer_call k dv ops nmdm_offset s a) (fun p => Consistent good p.2) tolerated.
Proof.
  intros Hs [e He]. pose proof Hs as [Hsafe _ _ (L & _ & HV)]. destruct (HV a e He) as (c & Hc & [n Hn] & _). unfold timer_call, on_daemon.
  apply wp_bind, (wp_vm_conf_of _ _ _ _ _ _ _ He Hc Hn), wp_bind.
  eapply wp_mono; [apply (on_timer_lively (s_d s) a e); [apply Hsafe | by apply Consistent_usable] | intros [rc d] Ld | done].
  apply wp_ret. by eapply Consistent_lively.
Qed.

Lemma exit_call_consistent s a e st :
  Consistent good s -> d_heap (s_d s) !! a = Some e -> VM_STATE e <> REMOVE ->
  wp (exit_call k dv ops nmdm_offset s a st) (fun p => Consistent good p.2) tolerated.
Proof.
  intros Hs He Hst. pose proof Hs as [Hsafe _ _ (L & _ & HV)]. destruct (HV a e He) as (c & Hc & [n Hn] & _). unfold exit_call, on_daemon.
  apply wp_bind, (wp_get_entry _ _ _ _ _ He), wp_bind, (wp_vm_conf_of _ _ _ _ _ _ _ He Hc Hn). rewrite decide_False by done.
  apply wp_bind, wp_bind.
  eapply wp_mono; [apply (on_vm_exit_lively (s_d s) a e); [apply Hsafe | by apply Consistent_usable | done] | intros [rc d] Ld | done].
  apply wp_ret, wp_bind. eapply wp_mono; [apply store_install_consistent | intros s2 [H2 _]; by apply wp_ret | done].
  - by eapply Consistent_lively.
  - destruct (lively_usable _ _ _ _ Ld) as (e' & He' & _). by exists e'.
Qed.

Lemma read_call_consistent s a fd size fatal :
  Consistent good s -> is_Some (d_heap (s_d s) !! a) ->
  wp (on_daemon s (fun d => on_read_vm_output k d a fd size fatal)) (fun p => Consistent good p.2) tolerated.
Proof.
  intros Hs [e He]. unfold on_daemon. apply wp_bind.
  eapply wp_mono; [apply (on_read_lively (s_d s) a e); by apply Consistent_usable | intros [rc d] Ld | done].
  apply wp_ret. by eapply Consistent_lively.
Qed.

End vms.

(** ** Call-backs of VMs and the list of events *)

Section vm_events.
Context {NV W : Type} (k : kernel W) (dv : devices NV W) (ops : vm_method -> vm_ops NV W) (nmdm_offset : Z)
        (x : option event) (B : list Z) (E : Z -> list event).
Implicit Types (d : daemon NV W) (s : server NV W) (a : Z).

Abbreviation I d := (EvInv x B E d).

Lemma ev_on_timer d a : I d -> wp (on_timer k dv ops nmdm_offset d a) (fun p => I p.2) any_fault.
Proof.
  intros Hd. unfold on_timer. apply wp_bind, wp_get_entry_any. intros e He.
  destruct (VM_STATE e); try (eapply wp_bind_keep; [by apply ev_poweroff | intros d1 H1; by apply wp_ret]); [| by apply wp_ret].
  eapply wp_bind_keep; [by apply ev_start | intros [rc d1] H1; by apply wp_ret].
Qed.

(** [x] tells the end of a process, or belongs to no VM. *)
Definition proc_or_free : Prop := forall ev, x = Some ev -> k_filter (ev_kev ev) = EVFILT_PROC \/ ev_data ev = None.

Lemma proc_stays a (v : vm NV) :
  proc_or_free -> stays x (vm_output_and_timers a v) /\ stays x (vm_output a v).
Proof.
  intros Hx. split; intros ev Hev; unfold vm_output_and_timers, vm_output; destruct (Hx ev Hev) as [-> | ->]; [| done | | done];
    rewrite ?(bool_decide_false (EVFILT_PROC = _)) by done; by rewrite ?andb_false_r.
Qed.

Lemma ev_on_vm_exit d a st :
  I d -> proc_or_free -> (forall e, d_heap d !! a = Some e -> VM_STATE e <> REMOVE) ->
  wp (on_vm_exit k dv ops nmdm_offset d a st) (fun p => I p.2) any_fault.
Proof.
  intros Hd Hx Hst. unfold on_vm_exit. apply wp_bind, wp_get_entry_any. intros e He. specialize (Hst e He). cbn zeta.
  assert (Hstop : forall d, I d -> wp (stop_virtual_machine k dv ops d a) (fun d => I d) any_fault).
  { intros d' H'. apply ev_stop; [done |]. intros v. by apply proc_stays. }
  assert (Hclr : wp (d ← stop_virtual_machine k dv ops d a; d ← clear_install d a; mret (0, d)) (fun p : Z * daemon NV W => I p.2) any_fault).
  { eapply wp_bind_keep; [by apply Hstop | intros d1 H1]. unfold clear_install, put_install.
    apply wp_bind, wp_bind, wp_get_entry_any. intros e1 He1. do 2 apply wp_ret. by eapply EvInv_put'. }
  assert (Hrun : forall d, I d -> wp ('(_, d) ← start_virtual_machine k dv ops nmdm_offset d a; mret (0, d)) (fun p => I p.2) any_fault).
  { intros d' H'. eapply wp_bind_keep; [by apply ev_start | intros [rc d1] H1; by apply wp_ret]. }
  assert (Hfail : wp (d ← stop_virtual_machine k dv ops d a; mret (0, d)) (fun p => I p.2) any_fault).
  { eapply wp_bind_keep; [by apply Hstop | intros d1 H1; by apply wp_ret]. }
  destruct (VM_STATE e); try done.
  - by apply wp_ret.
  - destruct st as [[| |] |]; try done. unfold close_infd. apply wp_bind, wp_bind, wp_get_entry_any. intros e0 He0. apply wp_ret.
    apply wp_bind, wp_get_entry_any. intros e1 He1. apply Hrun, (ev_stop_waiting _ _ _ _ _ a); [apply EvInv_world; by eapply EvInv_put' | by exists e1 | |].
    + by apply proc_stays.
    + apply vm_output_data.
  - apply wp_bind_any. intros []; [by apply Hrun | done].
  - eapply wp_bind_keep; [by apply Hstop | intros d1 H1]. eapply wp_bind_keep; [by apply ev_change_state | intros d2 H2].
    apply wp_bind, wp_get_entry_any. intros e2 He2.
    eapply wp_bind_keep; [apply (ev_set_timer x B E); [done | by exists e2] | intros [rc d3] H3; by apply wp_ret].
Qed.

Lemma ev_on_read d a fd size fatal :
  (forall ev, x = Some ev -> ev_data ev = None) -> I d -> wp (on_read_vm_output k d a fd size fatal) (fun p => I p.2) any_fault.
Proof.
  intros Hx Hd. unfold on_read_vm_output. apply wp_bind, wp_get_entry_any. intros e He.
  destruct (write_err_log _ _ _ _ _ _) as [[n v] w]. apply wp_ret. cbn [snd].
  assert (H1 : I (put_vm d a e v <| d_world := w |>)) by (apply EvInv_world; by eapply EvInv_put'). case_match; [| done].
  apply (EvInv_filter _ _ _ (put_vm d a e v <| d_world := w |>)); [done | |].
  { intros ev Hev. by rewrite (Hx ev Hev), bool_decide_false. }
  intros ev b Hb Hev. rewrite Hev.
  destruct (EvInv_alive x B E d a Hd) as [Ha _]; [by exists e |].
  rewrite bool_decide_false; [done |]. intros [= ->]. done.
Qed.

Lemma ev_exit_call s a st :
  EvInv x B E (s_d s) -> proc_or_free ->
  (forall e, d_heap (s_d s) !! a = Some e -> VM_STATE e <> REMOVE) ->
  wp (exit_call k dv ops nmdm_offset s a st) (fun p => EvInv x B E (s_d p.2)) any_fault.
Proof.
  intros Hs Hx Hst. unfold exit_call. apply wp_bind, wp_get_entry_any. intros e He. apply wp_bind_any. intros ce.
  rewrite decide_False by by apply Hst. eapply wp_bind_keep; [by apply ev_on_daemon, ev_on_vm_exit | intros [rc s1] H1].
  unfold store_install. apply wp_bind. do 3 (apply wp_bind_any; intros ?). by do 2 apply wp_ret.
Qed.

Lemma ev_timer_call s a : EvInv x B E (s_d s) -> wp (timer_call k dv ops nmdm_offset s a) (fun p => EvInv x B E (s_d p.2)) any_fault.
Proof. intros Hs. unfold timer_call. apply wp_bind_any. intros ce. by apply ev_on_daemon, ev_on_timer. Qed.

(** What a plugin asks for; its data is no connection. *)
Definition call_data (c : plugin_call) : option Z := match c with PlProcess _ _ data | PlTimer _ _ data => data end.

Definition call_ok (n : Z) (c : plugin_call) : Prop := forall y, call_data c = Some y -> (y ∉ B) /\ y < n.

Lemma ev_run_calls n l : forall s,
  EvInv x B E (s_d s) -> n <= d_next (s_d s) -> Forall (call_ok n) l -> wp (foreach run_call l s) (fun s => EvInv x B E (s_d s)) any_fault.
Proof.
  induction l as [| c l IH]; intros s Hs Hn Hl; [by apply wp_ret |]. apply Forall_cons in Hl as [Hc Hl]. cbn [foreach].
  eapply (wp_bind_keep _ _ (fun s' => EvInv x B E (s_d s') /\ n <= d_next (s_d s'))); [| intros s1 [H1 N1]; by apply IH].
  assert (Hreg : forall d (kev : kevent) cb, I d -> n <= d_next d ->
    wp ('(rc, d) ← register_event0 PLUGIN kev (plugin_cb cb) (call_data c) d; mret (if rc <? 0 then -1 else 0, d))
       (fun p : Z * daemon NV W => I p.2 /\ n <= d_next p.2) any_fault).
  { intros d kev cb Hd Hdn. unfold register_event0. apply wp_bind, wp_bind_any. intros []; cbn [negb]; [| by do 2 apply wp_ret].
    apply wp_bind_any. intros []; do 2 apply wp_ret; [| done]. split; [| cbn; lia]. apply EvInv_insert; [done | done |].
    intros y Hy. destruct (Hc y Hy). split; [done | lia]. }
  unfold run_call, on_daemon. apply wp_bind. eapply (wp_bind_keep _ _ (fun p => I p.2 /\ n <= d_next p.2)).
  - destruct c as [pid cb data | second cb data]; [by apply Hreg |]. unfold plugin_set_timer. case_match; [by apply wp_crash |].
    by apply Hreg; [eapply EvInv_same |].
  - intros [rc d] H. by do 2 apply wp_ret.
Qed.

End vm_events.

(** ** The loop *)

Section theorems.
Context {NV W : Type} (k : kernel W) (dv : devices NV W) (ops : vm_method -> vm_ops NV W) (nmdm_offset : Z)
        (nv : libnv NV) {Hnv : LibnvLaws nv} (cs : com_sys W) (same_ent : plugin_desc NV -> plugin_desc NV -> bool)
        (on_reload_config : plugin_desc NV -> NV -> NV -> NV * NV)
        `{Hlaws : forall m, BackendLaws (m_name m) (ops m)}
        (nvlist_unpack : list ascii -> option NV) (nvlist_pack : response -> option (list ascii)) (fuel : nat)
        (P : vm_conf -> Prop).
Hypothesis on_reload_ok : forall d a b, plugin_ok nv fuel a -> plugin_ok nv fuel b ->
  plugin_ok nv fuel (on_reload_config d a b).1 /\ plugin_ok nv fuel (on_reload_config d a b).2.
Hypothesis P_install : forall c b, P c -> P (c <| vc_install := b |>).
Implicit Types (f : frontend NV W) (l : loop NV W) (ev : event) (an : reactions NV).

(** What is accepted, and what is asked of it besides. *)
Abbreviation good := (granted nv fuel P).
Abbreviation evs f := (d_events (s_d (f_s f))).
Abbreviation no_events := (fun _ : Z => @nil event).

(** The server and the connections are in order, and so is the list of events. *)
Record LInv f : Prop := {
  li_f : FInv good f;
  li_e : EvInv None [] no_events (s_d (f_s f));
}.

(** What is known of the events when [ev] is handled. *)
Abbreviation handling x f := (EvInv x (f_list f) (fun b => events_of b (evs f))).

Lemma li_handling f x : LInv f -> (forall ev, x = Some ev -> ev ∈ evs f) -> handling x f (s_d (f_s f)).
Proof.
  intros [Hf He] Hx. pose proof (EvInv_conns _ good None (f_list f) f Hf He ltac:(done)) as []. by split.
Qed.

(** After a call-back of the server. *)
Lemma LInv_server f x s : LInv f -> Consistent good s -> handling x f (s_d s) -> LInv (f <| f_s := s |>).
Proof.
  intros [[] _] Hs Hh. pose proof Hh as []. split; [split; cbn; try done |].
  - intros b Hb Hv. destruct (ei_bound b Hb) as [_ Hn]. destruct (sf_listed _ _ (co_safe _ _ Hs) b Hv) as [e He]. congruence.
  - intros b Hb. by apply ei_bound.
  - intros b Hb. destruct (fi_events b Hb) as (w & r & E & Hp). exists w, r. by rewrite <- E, <- (ei_conn b Hb).
  - by eapply EvInv_less.
Qed.

(** An event that occurs once belongs to no connection. *)
Lemma oneshot_data f ev b : LInv f -> ev ∈ evs f -> oneshot ev = true -> ev_data ev = Some b -> b ∉ f_list f.
Proof.
  intros [Hf He] Hev Ho Hd Hb. destruct (fi_events _ _ Hf b Hb) as (w & r & E & Hp).
  assert (H : In ev [w; r]).
  { rewrite <- E. apply filter_In. split; [by apply list_elem_of_In | unfold vm_entry_event; by apply bool_decide_eq_true]. }
  pose proof (ei_kind _ _ _ _ He ev Hev) as Hk. destruct Hp as (_ & Hw & _ & Hr & _).
  destruct H as [<- | [<- | []]]; unfold kind_ok in Hk; rewrite ?Hw, ?Hr in Hk; cbn in Hk; destruct Hk; congruence.
Qed.

Lemma remove_inv f ev :
  LInv f -> ev ∈ evs f -> oneshot ev = true -> LInv (on_events f (List.filter (fun y => negb (ev_addr y =? ev_addr ev)))).
Proof.
  intros Hl Hev Ho. pose proof Hl as [Hf He]. set (p := fun y => negb (ev_addr y =? ev_addr ev)).
  assert (Hp : forall y, y ∈ evs f -> y <> ev -> p y = true).
  { intros y Hy N. unfold p. destruct (Z.eqb_spec (ev_addr y) (ev_addr ev)) as [Ha |]; [| done].
    exfalso. apply N. pose proof (ei_nodup _ _ _ _ He) as Hnd.
    apply list_elem_of_lookup in Hy as [i Hi]. apply list_elem_of_lookup in Hev as [j Hj].
    assert (i = j) as <-; [| congruence]. eapply (NoDup_lookup _ i j (ev_addr y)); [exact Hnd | |]; rewrite list_lookup_fmap.
    - by rewrite Hi.
    - by rewrite Hj, Ha. }
  assert (Hconn : forall y b, y ∈ evs f -> b ∈ f_list f -> ev_data y = Some b -> p y = true).
  { intros y b Hy Hb Hd. apply Hp; [done |]. intros ->. by apply (oneshot_data f ev b). }
  split.
  - pose proof Hf as []. split; try done.
    + apply Consistent_events; [done |]. intros y Hy. exists y. split; [| done].
      apply list_elem_of_In, filter_In in Hy as [Hy _]. by apply list_elem_of_In.
    + intros y z Hy. cbn in Hy. apply list_elem_of_In, filter_In in Hy as [Hy _]. by apply fi_data, list_elem_of_In.
    + intros b Hb. destruct (fi_events b Hb) as (w & r & E & Hw). exists w, r. split; [| done]. rewrite <- E. cbn.
      unfold events_of. rewrite filter_twice. apply filter_ext_in. intros y Hy%list_elem_of_In.
      unfold vm_entry_event. destruct (decide (ev_data y = Some b)) as [Hd | Hd].
      * rewrite bool_decide_true by done. by rewrite (Hconn y b).
      * rewrite bool_decide_false by done. by rewrite andb_false_r.
  - apply EvInv_filter; [done | done |]. intros y b Hb. by apply elem_of_nil in Hb.
Qed.

(** What may be assumed of the answers.  The two uses of freed memory are left out: the end of a VM
    that is being removed, and a reload meanwhile. *)
Definition answers_ok f ev an : Prop :=
  match ev_cb ev, ev_data ev with
  | CbVmExit, Some a => forall e, d_heap (s_d (f_s f)) !! a = Some e -> VM_STATE e <> REMOVE
  | CbOther 1, _ =>
      (forall a e, d_heap (s_d (f_s f)) !! a = Some e -> VM_STATE e <> REMOVE) /\
      forall news, an_news an = Some news -> Forall good news
  | CbOther 3, Some b => exists sb, f_socks f !! b = Some sb /\ recv_ok sb (an_recv an) /\ files_ok nv fuel (f_s f) (an_news an)
  | CbOther 4, Some b => is_Some (f_socks f !! b)
  | CbOther (S (S (S (S (S _))))), _ => Forall (call_ok (f_list f) (d_next (s_d (f_s f)))) (an_calls an)
  | _, _ => True
  end.

Definition arrival_ok f (ar : arrival NV) : Prop :=
  match ar with
  | ArEvent x an => exists ev, ev ∈ evs f /\ ev_addr ev = x /\ answers_ok f ev an
  | _ => True
  end.

Lemma no_event ev : None = Some ev -> ev_data ev = None.
Proof. done. Qed.

(** *** A call-back *)

(** The state is in order and an event that occurs once is there still, or a reload gave up. *)
Definition handled ev (p : bool * loop NV W) : Prop :=
  p.1 = true /\ oneshot ev = false \/ LInv (l_f p.2) /\ (oneshot ev = true -> ev ∈ evs (l_f p.2)).

Lemma wp_and_fault {A} (c : C A) (Q Q' : A -> Prop) F : wp c Q F -> wp c Q' any_fault -> wp c (fun a => Q a /\ Q' a) F.
Proof. intros H H' o. specialize (H o). specialize (H' o). destruct (c o); auto. Qed.

Lemma server_case l ev x (g : server NV W -> C (Z * server NV W)) :
  LInv (l_f l) -> (oneshot ev = true -> x = Some ev) ->
  wp (g (f_s (l_f l))) (fun p => Consistent good p.2) tolerated ->
  wp (g (f_s (l_f l))) (fun p => handling x (l_f l) (s_d p.2)) any_fault ->
  wp (with_frontend l (on_server (l_f l) g)) (handled ev) tolerated.
Proof.
  intros Hl Hx H1 H2. unfold with_frontend, on_server. apply wp_bind, wp_bind.
  eapply wp_mono; [apply wp_and_fault; [exact H1 | exact H2] | intros [rc s] [Hs He] | done]. cbn [snd] in *. do 2 apply wp_ret.
  right. split; [by eapply LInv_server |]. intros Ho. by apply (ei_cur _ _ _ _ He), Hx.
Qed.

(** An operation on connections. *)
Lemma frontend_case l ev (c : C (Z * frontend NV W)) :
  oneshot ev = false -> wp c (fun p => FInv good p.2) tolerated ->
  wp c (fun p => EvInv None [] no_events (s_d (f_s p.2))) any_fault -> wp (with_frontend l c) (handled ev) tolerated.
Proof.
  intros Ho H1 H2. unfold with_frontend. apply wp_bind.
  eapply wp_mono; [apply wp_and_fault; [exact H1 | exact H2] | intros [rc f] [Hf He] | done]. apply wp_ret.
  right. split; [by split |]. congruence.
Qed.

(** The VM of an event exists. *)
Lemma event_vm f ev a : LInv f -> ev ∈ evs f -> vm_cb (ev_cb ev) -> ev_data ev = Some a -> is_Some (d_heap (s_d (f_s f)) !! a).
Proof. intros [Hf _]. apply (sf_events _ _ (co_safe _ _ (fi_server _ _ Hf))). Qed.

Lemma good_start ce : good ce -> exists m, startable ce m.
Proof. by intros [[H _] _]. Qed.

Lemma good_install b ce :
  good ce -> good {| ce_conf := ce_conf ce <| vc_install := b |>; ce_pl_data := ce_pl_data ce |}.
Proof. intros [([m Hm] & Hr & Hp) HP]. split; [split; [by exists m | done] | by apply P_install]. Qed.

Lemma run_calls_consistent (cl : list plugin_call) : forall s : server NV W,
  Consistent good s -> wp (foreach run_call cl s) (Consistent good) tolerated.
Proof.
  induction cl as [| c cl IH]; intros s Hs; [by apply wp_ret |]. cbn [foreach]. apply wp_bind.
  eapply (wp_mono _ (Consistent good) _ tolerated); [| apply IH | done].
  assert (Hreg : forall d (kev : kevent) cb data,
    d_heap d = d_heap (s_d s) -> d_vm_list d = d_vm_list (s_d s) -> d_events d = d_events (s_d s) -> d_next d = d_next (s_d s) ->
    wp ('(rc, d) ← register_event0 PLUGIN kev (plugin_cb cb) data d; mret (if rc <? 0 then -1 else 0, d))
       (fun p : Z * daemon NV W => Consistent good (s <| s_d := p.2 |>)) tolerated).
  { intros d kev cb data E1 E2 E3 E4. destruct Hs as [[] Hfr Hinj HL].
    assert (H0 : Consistent good (s <| s_d := d |>)).
    { split; cbn; rewrite ?E1, ?E4; try done. split; unfold listed; rewrite ?E1, ?E2, ?E3, ?E4; done. }
    unfold register_event0. apply wp_bind, wp_bind, wp_malloc. intros []; cbn [negb]; [| by do 2 apply wp_ret].
    apply wp_bind, wp_malloc. intros []; do 2 apply wp_ret; [| done]. cbn. split; cbn; rewrite ?E1; try done.
    - split; unfold listed; cbn; rewrite ?E1, ?E2, ?E3, ?E4; try done.
      + intros ev a [-> | Hev]%elem_of_cons; [done | by apply sf_events].
      + intros a e He. destruct (sf_heap a e He) as [H1 H2]. split; [lia | done].
    - intros c0 Hc0. specialize (Hfr c0 Hc0). lia. }
  unfold run_call, on_daemon. apply wp_bind, wp_bind.
  eapply (wp_mono _ (fun p : Z * daemon NV W => Consistent good (s <| s_d := p.2 |>)) _ tolerated);
    [| intros [rc d] H; by do 2 apply wp_ret | done].
  destruct c as [pid cb data | second cb data]; [by apply Hreg |]. unfold plugin_set_timer. case_match; [by apply wp_crash; left |].
  by apply Hreg.
Qed.

Abbreviation call_back := (loop_call_back k dv ops nmdm_offset nv cs same_ent on_reload_config nvlist_unpack nvlist_pack fuel).

(** *** The call-backs, one by one *)

Lemma vm_case l ev an a :
  LInv (l_f l) -> ev ∈ evs (l_f l) -> answers_ok (l_f l) ev an -> vm_cb (ev_cb ev) -> ev_data ev = Some a ->
  wp (call_back l ev an) (handled ev) tolerated.
Proof.
  intros Hl Hev Hok Hcb Hd. pose proof Hl as [Hf _]. pose proof (fi_server _ _ Hf) as Hs.
  pose proof (event_vm _ ev a Hl Hev Hcb Hd) as Ha. pose proof (ei_kind _ _ _ _ (li_e _ Hl) ev Hev) as Hk.
  assert (H1 : handling (Some ev) (l_f l) (s_d (f_s (l_f l)))) by (apply li_handling; [done | by intros ? [= <-]]).
  unfold loop_call_back, answers_ok, kind_ok in *. rewrite Hd in *.
  destruct (ev_cb ev) eqn:Ecb; [| | | done].
  - destruct Hk as [Ho _]. apply (server_case l ev None); [done | by rewrite Ho | |].
    + apply (read_call_consistent k good); [done | done].
    + apply ev_on_daemon, ev_on_read; [done |]. by apply li_handling.
  - apply (server_case l ev (Some ev)); [done | done | |].
    + apply (timer_call_consistent k dv ops nmdm_offset good good_start); [done | done].
    + by apply ev_timer_call.
  - destruct Hk as [Hk _]. destruct Ha as [e He]. apply (server_case l ev (Some ev)); [done | done | |].
    + apply (exit_call_consistent k dv ops nmdm_offset good good_start (good_install false) _ _ e); [done | done | by apply Hok].
    + apply ev_exit_call; [done | intros ? [= <-]; by left | done].
Qed.

Lemma sighup_case l ev an :
  LInv (l_f l) -> ev ∈ evs (l_f l) -> answers_ok (l_f l) ev an -> ev_cb ev = CbOther 1 ->
  wp (call_back l ev an) (handled ev) tolerated.
Proof.
  intros Hl Hev Hok Hcb. pose proof Hl as [Hf _]. pose proof (fi_server _ _ Hf) as Hs.
  pose proof (ei_kind _ _ _ _ (li_e _ Hl) ev Hev) as Hk. unfold loop_call_back, answers_ok, kind_ok in *. rewrite Hcb in *.
  destruct Hk as [Ho Hd]. destruct Hok as [Hrm Hn]. unfold on_sighup, on_server. apply wp_bind, wp_bind, wp_bind.
  eapply (wp_mono _ (fun p => (p.1 < 0 /\ is_Some (an_news an) \/ Consistent good p.2) /\ handling None (l_f l) (s_d p.2)) _ tolerated); [| | done].
  - apply wp_and_fault.
    + destruct (an_news an) as [news |] eqn:En; [| apply wp_ret; by right].
      eapply wp_mono; [apply (reload_consistent k dv ops nmdm_offset nv same_ent on_reload_config fuel good good_start) | | done];
        [by apply granted_compare | by apply granted_copy | done | done | by apply Hn |].
      intros p [-> | (_ & H & _)]; [left; split; [lia | by eexists] | by right].
    + apply ev_reload; [by apply li_handling | done].
  - intros [rc s] [[[Hrc Hsome] | Hc] He]; cbn [fst snd] in *; do 3 apply wp_ret.
    + left. split; [| done]. cbn. rewrite bool_decide_true by done. lia.
    + destruct ((rc <? 0) && _); [left; done |]. right. split; [by eapply LInv_server | congruence].
Qed.

Lemma call_back_inv l ev an :
  LInv (l_f l) -> ev ∈ evs (l_f l) -> answers_ok (l_f l) ev an -> wp (call_back l ev an) (handled ev) tolerated.
Proof.
  intros Hl Hev Hok. pose proof Hl as [Hf He]. pose proof (ei_kind _ _ _ _ He ev Hev) as Hk.
  destruct (ev_cb ev) as [| | | n] eqn:Hcb.
  1-3: unfold kind_ok in Hk; rewrite Hcb in Hk; destruct Hk as [_ [a Ha]]; apply (vm_case l ev an a); try done; by rewrite Hcb.
  destruct n as [| [| [| [| [| n]]]]]; [| by apply sighup_case | ..]; unfold loop_call_back, answers_ok, kind_ok in *; rewrite Hcb in *.
  - destruct Hk as [Ho _]. apply wp_ret. right. split; [done | by rewrite Ho].
  - destruct Hk as [Ho Hd]. apply frontend_case; [done | | by apply (ev_on_accept None)].
    eapply wp_mono; [by apply on_accept_spec | done | by intros ? []].
  - destruct Hk as [Ho [b Hd]]. rewrite Hd in *. destruct Hok as (sb & Hsb & Hr & Hfo). apply frontend_case; [done | | by eapply (ev_on_recv _ _ _ _ _ _ _ _ _ None no_event)].
    eapply wp_mono; [apply (on_recv_spec k dv ops nmdm_offset nv cs nvlist_unpack nvlist_pack fuel good good_start (good_install true)); done | | done].
    by intros p (_ & H & _).
  - destruct Hk as [Ho [b Hd]]. rewrite Hd in *. destruct Hok as [sb Hsb]. apply frontend_case; [done | |].
    + apply wp_bind. eapply wp_mono; [by apply (on_send_spec good _ b sb) | | done].
      intros [[[rc f'] out] fd] (_ & H & _). by apply wp_ret.
    + eapply wp_bind_keep; [by eapply (ev_on_send None no_event) | intros [[[rc f'] out] fd] H; by apply wp_ret].
  - apply (server_case l ev (Some ev)); [done | done | |].
    + apply wp_bind. eapply wp_mono; [by apply run_calls_consistent; apply Hf | intros s Hs; by apply wp_ret | done].
    + eapply (wp_bind_keep _ _ (fun s => handling (Some ev) (l_f l) (s_d s))); [| intros s Hs; by apply wp_ret].
      eapply ev_run_calls; [apply li_handling; [done | by intros ? [= <-]] | | exact Hok]. lia.
Qed.

(** An event that belongs to nothing, like those of the signals, stays on the list. *)
Lemma stays_server l x (g : server NV W -> C (Z * server NV W)) :
  wp (g (f_s (l_f l))) (fun p => handling (Some x) (l_f l) (s_d p.2)) any_fault ->
  wp (with_frontend l (on_server (l_f l) g)) (fun p => x ∈ evs (l_f p.2)) any_fault.
Proof.
  intros H. unfold with_frontend, on_server. apply wp_bind, wp_bind.
  eapply wp_mono; [exact H | intros [rc s] He | done]. do 2 apply wp_ret. by apply (ei_cur _ _ _ _ He).
Qed.

Lemma stays_frontend l x (c : C (Z * frontend NV W)) :
  wp c (fun p => EvInv (Some x) [] no_events (s_d (f_s p.2))) any_fault -> wp (with_frontend l c) (fun p => x ∈ evs (l_f p.2)) any_fault.
Proof.
  intros H. unfold with_frontend. apply wp_bind. eapply wp_mono; [exact H | intros [rc f] He | done].
  apply wp_ret. by apply (ei_cur _ _ _ _ He).
Qed.

Lemma call_back_keeps l ev an x :
  LInv (l_f l) -> ev ∈ evs (l_f l) -> answers_ok (l_f l) ev an -> x ∈ evs (l_f l) -> ev_data x = None ->
  wp (call_back l ev an) (fun p => x ∈ evs (l_f p.2)) any_fault.
Proof.
  intros Hl Hev Hok Hin Hx. pose proof Hl as [Hf He]. pose proof (ei_kind _ _ _ _ He ev Hev) as Hk.
  assert (Hs : forall y, Some x = Some y -> ev_data y = None) by (by intros y [= <-]).
  assert (Hh : handling (Some x) (l_f l) (s_d (f_s (l_f l)))) by (apply li_handling; [done | by intros ? [= <-]]).
  assert (Hc : EvInv (Some x) [] no_events (s_d (f_s (l_f l)))) by (by eapply EvInv_unconns).
  unfold loop_call_back, answers_ok, kind_ok in *. destruct (ev_cb ev) as [| | | n].
  1-3: destruct Hk as [_ [a Ha]]; rewrite Ha in *; apply stays_server.
  - apply ev_on_daemon, ev_on_read; done.
  - by apply ev_timer_call.
  - apply ev_exit_call; [done | intros y Hy; right; by apply Hs | done].
  - destruct n as [| [| [| [| [| n]]]]].
    + by apply wp_ret.
    + unfold on_sighup, on_server. apply wp_bind, wp_bind, wp_bind.
      eapply wp_mono; [apply (ev_reload _ _ _ _ _ _ _ _ (Some x) (f_list (l_f l)) (fun b => events_of b (evs (l_f l)))); [done |] | | done].
      * intros a y Hy. unfold vm_entry_event. by rewrite (Hs y Hy), bool_decide_false.
      * intros [rc s] H. do 3 apply wp_ret. by apply (ei_cur _ _ _ _ H).
    + apply stays_frontend. by apply (ev_on_accept (Some x)).
    + destruct Hk as [_ [b Hd]]. rewrite Hd in *. apply stays_frontend. by eapply (ev_on_recv _ _ _ _ _ _ _ _ _ (Some x) Hs).
    + destruct Hk as [_ [b Hd]]. rewrite Hd in *. apply stays_frontend.
      eapply wp_bind_keep; [by eapply (ev_on_send (Some x) Hs) | intros [[[rc f'] out] fd] H; by apply wp_ret].
    + apply stays_server. eapply (wp_bind_keep _ _ (fun s => handling (Some x) (l_f l) (s_d s))); [| intros s H; by apply wp_ret].
      eapply ev_run_calls; [exact Hh | | exact Hok]. lia.
Qed.

(** *** An iteration *)

Lemma find_event (l : list event) ev :
  NoDup (ev_addr <$> l) -> ev ∈ l -> List.find (fun y => ev_addr y =? ev_addr ev) l = Some ev.
Proof.
  induction l as [| y l IH]; intros Hnd Hev; [by apply elem_of_nil in Hev |]. cbn in *. apply NoDup_cons in Hnd as [Hy Hnd].
  apply elem_of_cons in Hev as [-> | Hev]; [by rewrite Z.eqb_refl |].
  destruct (Z.eqb_spec (ev_addr y) (ev_addr ev)) as [Ha |]; [| by apply IH].
  exfalso. apply Hy. rewrite Ha. apply list_elem_of_fmap. by exists ev.
Qed.

Abbreviation step := (loop_step k dv ops nmdm_offset nv cs same_ent on_reload_config nvlist_unpack nvlist_pack fuel).

Lemma loop_step_inv l ar :
  LInv (l_f l) -> arrival_ok (l_f l) ar -> wp (step l ar) (fun p => p.1 = HalfReloaded \/ LInv (l_f p.2)) tolerated.
Proof.
  intros Hl Hok. destruct ar as [| now | | x an]; cbn [loop_step]; try (apply wp_ret; by right).
  - apply wp_bind. eapply wp_mono; [apply wp_and_fault; [| apply (ev_close_timeouts None no_events); apply Hl] | | done].
    + eapply wp_mono; [apply (close_timeouts_spec good); apply Hl | | by intros ? []]. intros f' H. exact (proj1 H).
    + intros f' [H1 H2]. apply wp_ret. right. by split.
  - destruct Hok as (ev & Hev & <- & Hok). unfold loop_event. rewrite find_event; [| apply Hl | done]. apply wp_bind, wp_bind.
    eapply wp_mono; [by apply call_back_inv | intros [half l'] Hh | done].
    unfold handled in Hh. cbn [fst snd] in Hh. destruct Hh as [[-> Ho] | [Hl' Ho]]; [rewrite Ho; do 2 apply wp_ret; by left |].
    destruct (oneshot ev) eqn:Eo; [| do 2 apply wp_ret; by right]. specialize (Ho eq_refl).
    replace (existsb _ _) with true; [do 2 apply wp_ret; right; by apply remove_inv |].
    symmetry. apply existsb_exists. exists ev. split; [by apply list_elem_of_In | apply Z.eqb_refl].
Qed.

Lemma loop_step_keeps l ar x :
  LInv (l_f l) -> arrival_ok (l_f l) ar -> x ∈ evs (l_f l) -> ev_data x = None -> oneshot x = false ->
  wp (step l ar) (fun p => x ∈ evs (l_f p.2)) any_fault.
Proof.
  intros Hl Hok Hin Hx Ho. destruct ar as [| now | | y an]; cbn [loop_step]; try (by apply wp_ret).
  - eapply (wp_bind_keep _ _ (fun f => EvInv (Some x) [] no_events (s_d (f_s f)))).
    + apply (ev_close_timeouts (Some x) no_events). eapply EvInv_unconns, li_handling; [exact Hl | by intros ? [= <-]].
    + intros f H. apply wp_ret. by apply (ei_cur _ _ _ _ H).
  - destruct Hok as (ev & Hev & <- & Hok). unfold loop_event. rewrite find_event; [| apply Hl | done].
    apply wp_bind. eapply wp_bind_keep; [by apply (call_back_keeps l ev an x) | intros [half l'] H].
    eapply (wp_mono _ (fun p => x ∈ evs (l_f p.2)) _ any_fault); [| intros [h l2] H2; by apply wp_ret | done].
    destruct (oneshot ev) eqn:Eo; [| by apply wp_ret]. destruct (existsb _ _); [| by apply wp_crash]. apply wp_ret.
    cbn. apply list_elem_of_In, filter_In. split; [by apply list_elem_of_In |].
    destruct (Z.eqb_spec (ev_addr x) (ev_addr ev)) as [Ha |]; [| done]. exfalso.
    assert (x = ev) as ->; [| congruence].
    pose proof (find_event _ _ (ei_nodup _ _ _ _ (li_e _ Hl)) Hin) as F1.
    pose proof (find_event _ _ (ei_nodup _ _ _ _ (li_e _ Hl)) Hev) as F2. rewrite Ha in F1. congruence.
Qed.

(** *** The loop *)

(** The states of the loop at the head of an iteration. *)
Inductive loop_reachable l0 : loop NV W -> Prop :=
  | reach_start : loop_reachable l0 l0
  | reach_step l ar o out l' o' :
      loop_reachable l0 l -> l_sigterm l = 0 -> arrival_ok (l_f l) ar -> step l ar o = Done (out, l') o' -> out = Again ->
      loop_reachable l0 l'.

Lemma loop_reachable_inv l0 l : LInv (l_f l0) -> loop_reachable l0 l -> LInv (l_f l).
Proof.
  intros H0. induction 1 as [| l ar o out l' o' _ IH _ Hok Hs ->]; [done |].
  pose proof (loop_step_inv l ar IH Hok o) as H. rewrite Hs in H. by destruct H as [H |].
Qed.

Lemma loop_reachable_keeps l0 l x :
  LInv (l_f l0) -> loop_reachable l0 l -> x ∈ evs (l_f l0) -> ev_data x = None -> oneshot x = false -> x ∈ evs (l_f l).
Proof.
  intros H0 Hr Hx Hd Ho. induction Hr as [| l ar o out l' o' Hr IH _ Hok Hs ->]; [done |].
  pose proof (loop_step_keeps l ar x (loop_reachable_inv l0 l H0 Hr) Hok IH Hd Ho o) as H. by rewrite Hs in H.
Qed.

Abbreviation run := (loop_run k dv ops nmdm_offset nv cs same_ent on_reload_config nvlist_unpack nvlist_pack fuel).

(** A SIGTERM ends the loop. *)
Lemma sigterm_run l ev an ars o :
  LInv (l_f l) -> l_sigterm l = 0 -> ev ∈ evs (l_f l) -> ev_cb ev = CbOther 0 ->
  run l (ArEvent (ev_addr ev) an :: ars) o = Done (Return 0, {| l_f := l_f l; l_sigterm := 1 |}) o.
Proof.
  intros Hl Hs Hev Hcb. pose proof (ei_kind _ _ _ _ (li_e _ Hl) ev Hev) as Hk.
  unfold kind_ok in Hk. rewrite Hcb in Hk. destruct Hk as [Ho _].
  cbn [loop_run loop_step]. rewrite Hs. cbn [Z.eqb]. unfold loop_event. rewrite find_event; [| apply Hl | done].
  unfold loop_call_back, mbind, C_bind. rewrite Hcb. cbn. rewrite Ho. cbn. unfold on_sigterm.
  destruct ars; cbn; rewrite Hs; reflexivity.
Qed.

End theorems.
