(* ===== verification/Access.v ===== *)
(** * The configurations that the daemon holds, whatever goes wrong (about src/bmd.c, src/server.c)

    A property of all configurations that are read is one of every configuration that
    the daemon has in memory: of those of the VMs and of those on its lists.  No event, command or
    reload changes a configuration except for the mark of an installation.  This holds of every run of the loop,
    also of those that Life.v leaves out because memory is used after it was freed: the lemmas are about the calls that come to
    an end, whatever the state is that they begin in.  It is what access control rests on. *)

From S2P Require Import Prelude CString Vars Conf Global MPool Plugin ParseValue Parser Load Tap Vm Network.
From S2P Require Import NvList SockBuf Daemon ConfList Reload Upkeep Command Frontend Events EventLoop.
From Stdlib Require Import Ascii.

Local Open Scope Z_scope.

(** ** Linked configurations *)

Section nodes.
Context {A : Type} (good : A -> Prop).
Implicit Types (m : lmem A) (a h : Z).

(** Every element has a good value. *)
Definition values m : Prop := forall a n, lm_nodes m !! a = Some n -> good (ln_val n).

Lemma values_get m a (Q : lnode A -> Prop) :
  values m -> (forall n, lm_nodes m !! a = Some n -> good (ln_val n) -> Q n) -> wp (get_node m a) Q any_fault.
Proof. intros Hm HQ. unfold get_node. destruct (lm_nodes m !! a) as [n |] eqn:E; [apply wp_ret, HQ; eauto | by apply wp_crash]. Qed.

Lemma values_put m a n : values m -> good (ln_val n) -> values (put_node m a n).
Proof. intros Hm Hn b x. cbn. intros [[<- <-] | [_ H]]%lookup_insert_Some; [done | by eapply Hm]. Qed.

Lemma values_first m h : wp (LIST_FIRST m h) (fun _ => True) any_fault.
Proof. apply wp_any_fault. Qed.

Lemma values_set_prev m a r : values m -> wp (set_prev m a r) values any_fault.
Proof. intros Hm. unfold set_prev. apply wp_bind, values_get; [done |]. intros n _ Hn. apply wp_ret. by apply values_put. Qed.

Lemma values_write m r p : values m -> wp (write_ref m r p) values any_fault.
Proof.
  intros Hm. destruct r as [h | a]; cbn; [apply wp_bind_any; intros ?; by apply wp_ret |].
  apply wp_bind, values_get; [done |]. intros n _ Hn. apply wp_ret. by apply values_put.
Qed.

Lemma values_insert m h a : values m -> wp (LIST_INSERT_HEAD m h a) values any_fault.
Proof.
  intros Hm. unfold LIST_INSERT_HEAD. apply wp_bind_any. intros first. apply wp_bind, values_get; [done |]. intros n _ Hn. cbn zeta.
  eapply (wp_bind_keep _ _ values); [| intros m1 K1; by apply values_set_prev].
  destruct first; [apply values_set_prev | apply wp_ret]; by apply values_put.
Qed.

Lemma values_remove m a : values m -> wp (LIST_REMOVE m a) values any_fault.
Proof.
  intros Hm. unfold LIST_REMOVE. apply wp_bind, values_get; [done |]. intros n _ Hn.
  eapply (wp_bind_keep _ _ values); [| intros m1 K1; by apply values_write]. destruct (le_next n); [by apply values_set_prev | by apply wp_ret].
Qed.

Lemma values_free m a : values m -> wp (free_node m a) values any_fault.
Proof. intros Hm. unfold free_node. apply wp_bind_any. intros _. apply wp_ret. intros b n. cbn. intros [_ H]%lookup_delete_Some. by eapply Hm. Qed.

Lemma values_free_all m h : values m -> wp (free_all m h) values any_fault.
Proof.
  intros Hm. unfold free_all. apply wp_bind_any. intros first. generalize (S (size (lm_nodes m))). intros fuel. revert m first Hm.
  induction fuel as [| fuel IH]; intros m p Hm; (destruct p as [a |]; [| by apply wp_ret]); cbn [free_from]; [by apply wp_crash |].
  apply wp_bind_any. intros next. eapply wp_bind_keep; [by apply values_free | intros m1 K1; by apply IH].
Qed.

Lemma values_concat m h1 h2 : values m -> wp (LIST_CONCAT m h1 h2) values any_fault.
Proof.
  intros Hm. unfold LIST_CONCAT. apply wp_bind_any. intros first1. apply wp_bind_any. intros first2.
  destruct first1 as [a |], first2 as [b |]; try (by apply wp_ret).
  - apply wp_bind_any. intros z. eapply wp_bind_keep; [by apply values_write | intros m1 K1].
    eapply wp_bind_keep; [by apply values_set_prev | intros m2 K2; by apply wp_ret].
  - eapply wp_bind_keep; [by apply (values_set_prev (put_head m h1 (Some b))) | intros m2 K2; by apply wp_ret].
Qed.

End nodes.

(** ** The operations on VMs *)

Section held.
Context {NV W : Type} (k : kernel W) (dv : devices NV W) (ops : vm_method -> vm_ops NV W) (nmdm_offset : Z)
        `{Hlaws : forall m, BackendLaws (m_name m) (ops m)} (good : vm_conf_entry NV -> Prop)
        (Hstart : forall ce, good ce -> exists m, startable ce m)
        (Hinstall : forall b ce, good ce -> good {| ce_conf := ce_conf ce <| vc_install := b |>; ce_pl_data := ce_pl_data ce |}).
Implicit Types (d : daemon NV W) (a : Z) (e : vm_entry NV).

(** The configuration of every VM is good. *)
Definition held d : Prop := forall a e, d_heap d !! a = Some e -> good (vm_ent_conf (ve_vm e)).

Abbreviation keeps f := (wp f (fun p => held p.2) any_fault).

Lemma held_heap d d' : held d -> d_heap d' = d_heap d -> held d'.
Proof. intros Hd E a e. rewrite E. apply Hd. Qed.

Lemma held_put d a e : held d -> good (vm_ent_conf (ve_vm e)) -> held (put_entry d a e).
Proof. intros Hd He b x. cbn. intros [[<- <-] | [_ H]]%lookup_insert_Some; [done | by eapply Hd]. Qed.

Lemma held_vm d a e v w :
  held d -> good (vm_ent_conf (ve_vm e)) -> vm_ent_conf v = vm_ent_conf (ve_vm e) -> held (put_vm d a e v <| d_world := w |>).
Proof. intros Hd He E. eapply held_heap; [apply (held_put d a (e <| ve_vm := v |>)); [exact Hd | cbn; by rewrite E] | done]. Qed.

Lemma wp_held d a (Q : vm_entry NV -> Prop) :
  held d -> (forall e, d_heap d !! a = Some e -> good (vm_ent_conf (ve_vm e)) -> Q e) -> wp (get_entry d a) Q any_fault.
Proof. intros Hd HQ. apply wp_get_entry_any. intros e He. by apply HQ, (Hd a e). Qed.

(** Nothing but the events changes. *)
Lemma held_register0 d type kev cb data : held d -> keeps (register_event0 type kev cb data d).
Proof.
  intros Hd. unfold register_event0. apply wp_bind_any. intros []; cbn [negb]; [| by apply wp_ret].
  apply wp_bind_any. intros []; by apply wp_ret.
Qed.

Lemma held_register d evs : held d -> keeps (register_events evs d).
Proof.
  intros Hd. unfold register_events. apply wp_bind_any. intros []; cbn [negb]; [| by apply wp_ret].
  apply wp_bind_any. intros []; apply wp_ret; [| done]. cbn [snd]. revert d Hd.
  induction evs as [| [[kev cb] data] evs IH]; intros d Hd; [done |]. cbn. by apply IH.
Qed.

Lemma held_set_timer d a n : held d -> keeps (set_timer d a n).
Proof. intros Hd. unfold set_timer. case_match; [by apply wp_crash | by apply held_register0]. Qed.

Lemma held_wait d a : held d -> keeps (wait_for_both d a).
Proof.
  intros Hd. unfold wait_for_both, wait_for_vm, wait_for_vm_output.
  eapply (wp_bind_keep _ _ (fun p => held p.2)); [apply wp_bind_any; intros ?; by apply held_register0 | intros [rc d1] K1].
  case_match; [by apply wp_ret |].
  eapply (wp_bind_keep _ _ (fun p => held p.2)); [apply wp_bind_any; intros ?; by apply held_register | intros [rc2 d2] K2; by apply wp_ret].
Qed.

Lemma held_change_state d a s : held d -> wp (change_state d a s) held any_fault.
Proof. intros Hd. unfold change_state. apply wp_bind, wp_held; [done |]. intros e _ He. apply wp_ret. by apply held_put. Qed.

Lemma held_call_plugins d a : held d -> wp (call_plugins dv d a) held any_fault.
Proof. intros Hd. unfold call_plugins. apply wp_bind_any. intros e. by apply wp_ret. Qed.

Lemma held_cleanup d a : held d -> wp (cleanup_virtual_machine k ops d a) held any_fault.
Proof.
  intros Hd. unfold cleanup_virtual_machine. apply wp_bind, wp_held; [done |]. intros e _ He. cbn zeta.
  pose proof (remove_taps_like k (d_world d) (ve_vm e)) as [[L1 _] _]. destruct (remove_taps k (d_world d) (ve_vm e)) as [[rc v] w]. cbn in L1.
  unfold method_ops. apply wp_bind, wp_bind_any. intros m. apply wp_ret.
  assert (Hv : vm_ready (vm_get_conf v)) by (unfold vm_get_conf; rewrite L1; by destruct (Hstart _ He) as [? [? _]]).
  apply wp_bind. eapply wp_mono; [by apply (cleanup_law (BackendLaws := Hlaws m.1)) | intros [v2 w2] [[K1 _] _] | done].
  apply wp_ret. apply held_vm; [done | done | cbn in K1; congruence].
Qed.

Lemma held_world d (f : C (Z * W)) : held d -> wp ('(_, w) ← f; mret (d <| d_world := w |>)) held any_fault.
Proof. intros Hd. apply wp_bind_any. intros [rc w]. by apply wp_ret. Qed.

Lemma held_poweroff d a : held d -> wp (VM_POWEROFF ops d a) held any_fault.
Proof. intros Hd. unfold VM_POWEROFF. apply wp_bind_any. intros e. apply wp_bind_any. intros [o nv]. by apply held_world. Qed.

Lemma held_acpi d a : held d -> wp (VM_ACPI_POWEROFF ops d a) held any_fault.
Proof. intros Hd. unfold VM_ACPI_POWEROFF. apply wp_bind_any. intros e. apply wp_bind_any. intros [o nv]. by apply held_world. Qed.

Lemma held_reset d a : held d -> wp (VM_RESET ops d a) held any_fault.
Proof. intros Hd. unfold VM_RESET. apply wp_bind_any. intros e. apply wp_bind_any. intros [o nv]. by apply held_world. Qed.

Lemma held_assign_comport d a : held d -> keeps (assign_comport dv nmdm_offset d a).
Proof.
  intros Hd. unfold assign_comport. apply wp_bind, wp_held; [done |]. intros e _ He.
  destruct (vc_comport (VM_CONF e)); [| by apply wp_ret]. destruct (vm_assigned_comport (ve_vm e)); [by apply wp_ret |].
  case_match; [apply wp_bind_any; intros [c |]; apply wp_ret; [by apply held_put | done] |].
  apply wp_bind_any. intros max. destruct (sys_dev dv _); [| by apply wp_ret]. apply wp_bind_any. intros max2. cbn zeta.
  do 2 (case_match; try (by apply wp_crash)); (apply wp_bind_any; intros [c |]; [| by apply wp_ret]);
    (destruct (sys_stat dv c _) as [[] w]; apply wp_ret; [| done]); by apply (held_put (d <| d_world := w |>)).
Qed.

Lemma held_prepare_taps d a : held d -> keeps (prepare_taps k d a).
Proof.
  intros Hd. unfold prepare_taps. apply wp_bind, wp_held; [done |]. intros e _ He.
  destruct (decide _) as [E | E]; [| by apply wp_ret]. destruct (Hstart _ He) as (m & _ & _ & Hn & _). apply wp_bind.
  eapply wp_mono; [by apply (assign_taps_like k) | intros [[rc v1] w1] [[L1 _] _] | done]. cbn [fst snd] in L1. cbn zeta.
  case_match; [apply wp_ret; by apply held_vm |]. apply wp_bind.
  eapply wp_mono; [apply (activate_taps_same k) | intros [[rc2 v2] w2] Hv2; cbn in Hv2; subst v2 | done].
  destruct (rc2 <? 0).
  - pose proof (remove_taps_like k w2 v1) as [[L3 _] _]. destruct (remove_taps k w2 v1) as [[rc3 v3] w3]. cbn in L3. apply wp_ret. rewrite put_put.
    apply held_vm; [done | done | congruence].
  - apply wp_ret. rewrite put_put. by apply held_vm.
Qed.

(** The method that is chosen fits to the backend. *)
Definition armed d a : Prop :=
  exists e m, d_heap d !! a = Some e /\ ve_method e = Some m /\ vc_backend (ce_conf (vm_ent_conf (ve_vm e))) = Some (m_name m.1).

Lemma held_choose d a : held d -> wp (choose_method d a) (fun p => held p.2 /\ (0 <= p.1 -> armed p.2 a)) any_fault.
Proof.
  intros Hd. unfold choose_method. apply wp_bind, wp_held; [done |]. intros e Hae He. destruct (Hstart _ He) as (m & _ & Hb & _ & Hm). cbn zeta.
  apply wp_bind, (wp_certain _ (Some m)); [done |]. apply wp_ret. split; [by apply held_put |]. intros _.
  exists (e <| ve_method := Some m |>), m. split; [apply lookup_insert_eq | done].
Qed.

(** An entry changes and keeps its method and its configuration. *)
Lemma armed_put d a e e' w :
  armed d a -> d_heap d !! a = Some e -> ve_method e' = ve_method e -> vm_ent_conf (ve_vm e') = vm_ent_conf (ve_vm e) ->
  armed (put_entry d a e' <| d_world := w |>) a.
Proof.
  intros (e0 & m & K0 & Hm & Hb) He Em Ev. assert (e0 = e) as -> by congruence. exists e', m.
  split; [apply lookup_insert_eq | split; [congruence |]]. by rewrite Ev.
Qed.

Lemma armed_comport d a : armed d a -> wp (assign_comport dv nmdm_offset d a) (fun p => armed p.2 a) any_fault.
Proof.
  intros Hd. unfold assign_comport. apply wp_bind, wp_get_entry_any. intros e He.
  assert (Hput : forall v w, vm_ent_conf v = vm_ent_conf (ve_vm e) -> armed (put_vm d a e v <| d_world := w |>) a) by (intros; by eapply armed_put).
  destruct (vc_comport (VM_CONF e)); [| by apply wp_ret]. destruct (vm_assigned_comport (ve_vm e)); [by apply wp_ret |].
  case_match; [apply wp_bind_any; intros [c |]; apply wp_ret; [by apply (Hput _ (d_world d)) | done] |].
  apply wp_bind_any. intros max. destruct (sys_dev dv _); [| by apply wp_ret]. apply wp_bind_any. intros max2. cbn zeta.
  do 2 (case_match; try (by apply wp_crash)); (apply wp_bind_any; intros [c |]; [| by apply wp_ret]);
    (destruct (sys_stat dv c _) as [[] w]; apply wp_ret; [| done]); by apply (Hput _ w).
Qed.

Lemma armed_taps d a : held d -> armed d a -> wp (prepare_taps k d a) (fun p => armed p.2 a) any_fault.
Proof.
  intros Hd Ha. unfold prepare_taps. apply wp_bind, wp_held; [done |]. intros e Hae He.
  destruct (decide _) as [E | E]; [| by apply wp_ret]. destruct (Hstart _ He) as (m & _ & _ & Hn & _). apply wp_bind.
  eapply wp_mono; [by apply (assign_taps_like k) | intros [[rc v1] w1] [[L1 _] _] | done]. cbn [fst snd] in L1. cbn zeta.
  case_match; [apply wp_ret; by eapply armed_put |]. apply wp_bind.
  eapply wp_mono; [apply (activate_taps_same k) | intros [[rc2 v2] w2] Hv2; cbn in Hv2; subst v2 | done].
  destruct (rc2 <? 0).
  - pose proof (remove_taps_like k w2 v1) as [[L3 _] _]. destruct (remove_taps k w2 v1) as [[rc3 v3] w3]. cbn in L3. apply wp_ret. rewrite put_put.
    eapply armed_put; [done | done | done | cbn; congruence].
  - apply wp_ret. rewrite put_put. by eapply armed_put.
Qed.

Lemma held_VM_START d a : held d -> armed d a -> keeps (VM_START ops d a).
Proof.
  intros Hd (e & m & He & Hm & Hb). unfold VM_START. pose proof (Hd a e He) as Hg. apply wp_bind, (wp_get_entry _ _ _ _ _ He).
  apply wp_bind, (wp_method_ops ops e m); [done |]. apply wp_bind. destruct (Hstart _ Hg) as (m' & Hr & _).
  eapply wp_mono; [by apply (start_law (BackendLaws := Hlaws m.1)) | intros [[rc v] w] [[K1 _] _]; apply wp_ret; by apply held_vm | done].
Qed.

Lemma held_after_start d a : held d -> keeps (after_start dv d a).
Proof.
  intros Hd. unfold after_start. apply wp_bind_any. intros e0. eapply (wp_bind_keep _ _ (fun p => held p.2)); [| intros [rc d1] K1].
  { repeat case_match; try (by apply wp_ret). by apply held_set_timer. }
  case_match; [by apply wp_ret |]. apply wp_bind, wp_held; [done |]. intros e _ He. repeat case_match; apply wp_ret; try done.
  by apply held_vm.
Qed.

Lemma held_start d a : held d -> keeps (start_virtual_machine k dv ops nmdm_offset d a).
Proof.
  intros Hd. unfold start_virtual_machine. eapply wp_bind_keep; [by apply held_choose | intros [rc d1] [K1 A1]]. cbn [fst snd] in *.
  destruct (Z.ltb_spec rc 0); [by apply wp_ret |]. specialize (A1 ltac:(done)).
  eapply wp_bind_keep; [apply wp_and; [by apply held_assign_comport | by apply armed_comport] | intros [rc2 d2] [K2 A2]]. cbn [snd] in *.
  case_match; [by apply wp_ret |].
  eapply wp_bind_keep; [apply wp_and; [by apply held_prepare_taps | by apply armed_taps] | intros [rc3 d3] [K3 A3]]. cbn [snd] in *.
  case_match; [by apply wp_ret |]. eapply wp_bind_keep; [by apply held_VM_START | intros [rc4 d4] K4]. cbn [snd] in *.
  case_match; [eapply wp_bind_keep; [by apply held_cleanup | intros d5 K5; by apply wp_ret] |].
  eapply wp_bind_keep; [by apply held_wait | intros [rc5 d5] K5]. cbn [snd] in *. case_match.
  - eapply wp_bind_keep; [by apply held_poweroff | intros d6 K6].
    eapply wp_bind_keep; [by apply held_cleanup | intros d7 K7; by apply wp_ret].
  - eapply wp_bind_keep; [by apply held_call_plugins | intros d6 K6; by apply held_after_start].
Qed.

Lemma held_stop d a : held d -> wp (stop_virtual_machine k dv ops d a) held any_fault.
Proof.
  intros Hd. unfold stop_virtual_machine. apply wp_bind_any. intros e.
  eapply wp_bind_keep; [by apply held_cleanup | intros d1 K1; by apply held_call_plugins].
Qed.

Lemma held_delete d a : held d -> held (d <| d_heap := delete a (d_heap d) |>).
Proof. intros Hd b e. cbn. intros [_ H]%lookup_delete_Some. by eapply Hd. Qed.

Lemma held_free d a : held d -> wp (free_vm_entry d a) held any_fault.
Proof. intros Hd. unfold free_vm_entry. apply wp_bind_any. intros e. apply wp_ret. by apply (held_delete (stop_waiting_for _ d)). Qed.

Lemma held_on_timer d a : held d -> keeps (on_timer k dv ops nmdm_offset d a).
Proof.
  intros Hd. unfold on_timer. apply wp_bind_any. intros e.
  destruct (VM_STATE e); try (eapply wp_bind_keep; [by apply held_poweroff | intros d1 K1; by apply wp_ret]); [| by apply wp_ret].
  eapply wp_bind_keep; [by apply held_start | intros [rc d1] K1; by apply wp_ret].
Qed.

Lemma held_on_vm_exit d a st : held d -> keeps (on_vm_exit k dv ops nmdm_offset d a st).
Proof.
  intros Hd. unfold on_vm_exit. apply wp_bind_any. intros e. cbn zeta.
  assert (Hclr : wp (d ← stop_virtual_machine k dv ops d a; d ← clear_install d a; mret (0, d)) (fun p : Z * daemon NV W => held p.2) any_fault).
  { eapply wp_bind_keep; [by apply held_stop | intros d1 K1]. unfold clear_install, put_install. apply wp_bind, wp_bind, wp_held; [done |].
    intros e1 _ He1. do 2 apply wp_ret. apply held_put; [done |]. by apply Hinstall. }
  assert (Hrun : forall d, held d -> wp ('(_, d) ← start_virtual_machine k dv ops nmdm_offset d a; mret (0, d)) (fun p => held p.2) any_fault).
  { intros d' H'. eapply wp_bind_keep; [by apply held_start | intros [rc d1] K1; by apply wp_ret]. }
  assert (Hfail : wp (d ← stop_virtual_machine k dv ops d a; mret (0, d)) (fun p => held p.2) any_fault).
  { eapply wp_bind_keep; [by apply held_stop | intros d1 K1; by apply wp_ret]. }
  destruct (VM_STATE e); try done.
  - by apply wp_ret.
  - destruct st as [[| |] |]; try done. unfold close_infd. apply wp_bind, wp_bind, wp_held; [done |]. intros e0 _ He0. apply wp_ret.
    apply wp_bind_any. intros e1. apply Hrun, (held_vm d a e0); done.
  - apply wp_bind_any. intros []; [by apply Hrun | done].
  - eapply wp_bind_keep; [by apply held_stop | intros d1 K1]. cbn zeta.
    eapply (wp_bind_keep _ _ held); [by apply held_free | intros d2 K2; by apply wp_ret].
  - eapply wp_bind_keep; [by apply held_stop | intros d1 K1]. eapply wp_bind_keep; [by apply held_change_state | intros d2 K2].
    apply wp_bind_any. intros e2. eapply wp_bind_keep; [by apply held_set_timer | intros [rc d3] K3; by apply wp_ret].
Qed.

Lemma held_on_read d a fd size fatal : held d -> keeps (on_read_vm_output k d a fd size fatal).
Proof.
  intros Hd. unfold on_read_vm_output. apply wp_bind, wp_held; [done |]. intros e _ He.
  destruct (write_err_log_like k (d_world d) fd size fatal (ve_vm e)) as ([Hc _] & _).
  destruct (write_err_log _ _ _ _ _) as [[n v] w]. cbn in Hc. apply wp_ret. assert (K1 : held (put_vm d a e v <| d_world := w |>)) by (by apply held_vm).
  by case_match.
Qed.

Lemma held_create d ce : held d -> good ce -> keeps (create_vm_entry d ce).
Proof.
  intros Hd Hg. unfold create_vm_entry. apply wp_bind_any. intros []; cbn [negb]; [| by apply wp_ret].
  apply wp_bind_any. intros [m |]; apply wp_ret; [| done]. cbn [snd].
  eapply held_heap; [by apply (held_put d (d_next d) {| ve_vm := new_vm ce; ve_method := Some m |}) | done].
Qed.

Lemma held_vm_down d name how ucred : held d -> keeps (vm_down_command ops d name how ucred).
Proof.
  intros Hd. unfold vm_down_command. apply wp_bind_any. intros [a |]; [| by apply wp_ret]. apply wp_bind_any. intros e.
  do 2 (case_match; [by apply wp_ret |]). case_match.
  { eapply wp_bind_keep; [by apply held_acpi | intros d1 K1]. eapply wp_bind_keep; [by apply held_set_timer | intros [rc d2] K2].
    eapply wp_bind_keep; [by apply held_change_state | intros d3 K3; by apply wp_ret]. }
  case_match; [eapply wp_bind_keep; [by apply held_reset | intros d1 K1; by apply wp_ret] |]. case_match; [| by apply wp_ret].
  eapply wp_bind_keep; [by apply held_poweroff | intros d1 K1].
  eapply wp_bind_keep; [by apply held_change_state | intros d3 K3; by apply wp_ret].
Qed.

End held.

(** ** The server *)

Section server.
Context {NV W : Type} (k : kernel W) (dv : devices NV W) (ops : vm_method -> vm_ops NV W) (nmdm_offset : Z)
        (nv : libnv NV) (cs : com_sys W) (same_ent : plugin_desc NV -> plugin_desc NV -> bool)
        (on_reload_config : plugin_desc NV -> NV -> NV -> NV * NV) (fuel : nat)
        `{Hlaws : forall m, BackendLaws (m_name m) (ops m)} (good : vm_conf_entry NV -> Prop)
        (Hstart : forall ce, good ce -> exists m, startable ce m)
        (Hinstall : forall b ce, good ce -> good {| ce_conf := ce_conf ce <| vc_install := b |>; ce_pl_data := ce_pl_data ce |})
        (Hcopy : forall x y pn po, good x -> good y -> copy_plugins same_ent on_reload_config (ce_pl_data x) (ce_pl_data y) = (pn, po) ->
           good {| ce_conf := ce_conf x; ce_pl_data := pn |} /\ good {| ce_conf := ce_conf y; ce_pl_data := po |}).
Implicit Types (s : server NV W) (a c : Z).

(** Every configuration in memory is good: those of the VMs and those of the lists. *)
Definition all_held s : Prop := held good (s_d s) /\ values good (s_mem s).

Abbreviation keeps f := (wp f (fun p => all_held p.2) any_fault).

Lemma all_on_daemon {R} s (f : daemon NV W -> C (R * daemon NV W)) :
  all_held s -> wp (f (s_d s)) (fun p => held good p.2) any_fault -> keeps (on_daemon s f).
Proof. intros [_ Hm] Hf. unfold on_daemon. eapply wp_bind_keep; [exact Hf |]. intros [r d] K. by apply wp_ret. Qed.

Lemma all_on_daemon_ s (f : daemon NV W -> C (daemon NV W)) :
  all_held s -> wp (f (s_d s)) (held good) any_fault -> wp (on_daemon_ s f) all_held any_fault.
Proof. intros [_ Hm] Hf. unfold on_daemon_. eapply wp_bind_keep; [exact Hf |]. intros d K. by apply wp_ret. Qed.

Lemma all_conf_of s a : all_held s -> wp (vm_conf_of s a) good any_fault.
Proof.
  intros [Hd _]. unfold vm_conf_of. apply wp_bind, (wp_held good); [done |]. intros e _ He. do 2 (apply wp_bind_any; intros ?). by apply wp_ret.
Qed.

Lemma all_shut_down s a t st : all_held s -> wp (shut_down ops s a t st) all_held any_fault.
Proof.
  intros Hs. unfold shut_down. eapply wp_bind_keep; [apply all_on_daemon_, held_acpi; [exact Hs | apply Hs] | intros s1 K1].
  eapply wp_bind_keep; [apply all_on_daemon, held_set_timer; [exact K1 | apply K1] | intros [rc s2] K2].
  apply all_on_daemon_, held_change_state; [exact K2 | apply K2].
Qed.

Lemma all_change_state s a st : all_held s -> wp (on_daemon_ s (fun d => change_state d a st)) all_held any_fault.
Proof. intros Hs. apply all_on_daemon_, held_change_state; [done | apply Hs]. Qed.

Lemma all_start s a : all_held s -> keeps (on_daemon s (fun d => start_virtual_machine k dv ops nmdm_offset d a)).
Proof. intros Hs. apply all_on_daemon, (held_start k dv ops nmdm_offset good Hstart); [done | apply Hs]. Qed.

Lemma all_timer s a n : all_held s -> keeps (on_daemon s (fun d => set_timer d a n)).
Proof. intros Hs. apply all_on_daemon, held_set_timer; [done | apply Hs]. Qed.

Lemma all_link_news l : forall s, all_held s -> Forall good l -> wp (link_news s l) all_held any_fault.
Proof.
  induction l as [| ce l IH]; intros s Hs Hl; [by apply wp_ret |]. apply Forall_cons in Hl as [Hce Hl]. cbn [link_news].
  eapply wp_bind_keep; [by apply IH |]. intros s1 [K1 K2]. cbn zeta. eapply wp_bind_keep; [by apply values_insert, values_put |].
  intros mem K3. by apply wp_ret.
Qed.

Lemma all_set_vm_conf s a c : all_held s -> wp (set_vm_conf s a c) all_held any_fault.
Proof.
  intros [Hd Hm]. unfold set_vm_conf. apply wp_bind, (values_get good); [done |]. intros n _ Hn.
  apply wp_bind, (wp_held good); [done |]. intros e _ He. apply wp_ret. split; [| done].
  by apply (held_put good (s_d s) a (_ <| ve_vm := _ |>)).
Qed.

Lemma all_restart s a conf : all_held s -> wp (restart_changed ops s a conf) all_held any_fault.
Proof.
  intros Hs. unfold restart_changed. apply wp_bind_any. intros e.
  destruct (VM_STATE e); try (by apply wp_ret); try (by apply all_shut_down); try (by apply all_change_state).
  eapply wp_bind_keep; [by apply all_timer | intros [rc s1] K1; by apply wp_ret].
Qed.

Lemma all_switch s a c conf : all_held s -> wp (switch_boot k dv ops nmdm_offset s a c conf) all_held any_fault.
Proof.
  intros Hs. unfold switch_boot. apply wp_bind_any. intros e.
  assert (Hgo : wp (s ← set_vm_conf s a c;
      '(_, s) ← on_daemon s (fun d => start_virtual_machine k dv ops nmdm_offset d a); mret s) all_held any_fault).
  { eapply wp_bind_keep; [by apply all_set_vm_conf | intros s1 K1].
    eapply wp_bind_keep; [by apply all_start | intros [rc s2] K2; by apply wp_ret]. }
  destruct (vc_boot conf), (VM_STATE e); try done; try (by apply wp_ret); try (by apply all_shut_down); by apply all_change_state.
Qed.

Lemma all_added s c ce : all_held s -> good ce -> keeps (reload_added k dv ops nmdm_offset s c ce).
Proof.
  intros Hs Hg. unfold reload_added. eapply wp_bind_keep; [apply all_on_daemon; [done | apply held_create; [apply Hs | done]] | intros [[a |] s1] K1].
  2: by apply wp_ret.
  cbn zeta. set (s2 := _ <| s_new := _ |>). assert (K2 : all_held s2) by exact K1.
  eapply (wp_bind_keep _ _ (fun p => all_held p.2)); [| intros [rc s3] K3; by apply wp_ret].
  repeat case_match; [by apply wp_ret | by apply all_timer | by apply all_start].
Qed.

Lemma all_reopen s a conf : all_held s -> wp (reopen_log k dv s a conf) all_held any_fault.
Proof.
  intros Hs. pose proof Hs as [Hd Hm]. unfold reopen_log. apply wp_bind, (wp_held good); [done |]. intros e _ He. apply wp_bind_any. intros old.
  case_match; [by apply wp_ret |]. destruct (sys_open_log _ _ _) as [fd w]. apply wp_ret. split; [| done]. by apply (held_vm good).
Qed.

Lemma all_copy s c a : all_held s -> wp (copy_plugin_data same_ent on_reload_config s c a) all_held any_fault.
Proof.
  intros Hs. pose proof Hs as [Hd Hm]. unfold copy_plugin_data. eapply wp_bind_keep; [by apply all_conf_of | intros old Hold].
  apply wp_bind, (wp_held good); [done |]. intros e _ He. apply wp_bind, (values_get good); [done |]. intros n _ Hn.
  destruct (copy_plugins _ _ _ _) as [pn po] eqn:Ec. destruct (Hcopy _ _ _ _ Hn Hold Ec) as [K1 K2]. apply wp_ret. split.
  - by apply (held_put good (s_d s) a (e <| ve_vm := _ |>)).
  - by apply values_put.
Qed.

Lemma all_known s c a ce :
  all_held s -> wp (reload_known k dv ops nmdm_offset nv same_ent on_reload_config fuel s c a ce) all_held any_fault.
Proof.
  intros Hs. unfold reload_known. cbn zeta. eapply wp_bind_keep; [by apply all_reopen | intros s1 K1].
  eapply wp_bind_keep; [by apply all_copy | intros s2 K2]. cbn zeta. do 3 (apply wp_bind_any; intros ?).
  case_match; [by apply all_restart |]. case_match; [by apply wp_ret | by apply all_switch].
Qed.

Lemma all_each l : forall s, all_held s -> keeps (reload_each k dv ops nmdm_offset nv same_ent on_reload_config fuel s l).
Proof.
  induction l as [| c l IH]; intros s Hs; [by apply wp_ret |]. cbn [reload_each]. pose proof Hs as [_ Hm].
  apply wp_bind, (values_get good); [done |]. intros n _ Hn. do 2 (apply wp_bind_any; intros ?).
  eapply (wp_bind_keep _ _ (fun p => all_held p.2)).
  - case_match; [| by apply all_added]. eapply wp_bind_keep; [by apply all_known | intros s1 K1; by apply wp_ret].
  - intros [rc s1] K1. case_match; [by apply wp_ret | by apply IH].
Qed.

Lemma all_free_vm s a : all_held s -> wp (free_vm s a) all_held any_fault.
Proof.
  intros Hs. unfold free_vm. apply wp_bind_any. intros c.
  eapply wp_bind_keep; [apply all_on_daemon_, held_free; [done | apply Hs] | intros s1 [K1 K2]].
  eapply wp_bind_keep; [by apply values_free | intros mem K3; by apply wp_ret].
Qed.

Lemma all_unlink s a : all_held s -> wp (unlink_conf s a) all_held any_fault.
Proof.
  intros [Hd Hm]. unfold unlink_conf. apply wp_bind_any. intros c. eapply wp_bind_keep; [by apply values_remove | intros mem K; by apply wp_ret].
Qed.

Lemma all_settle s a : all_held s -> wp (settle ops s a) all_held any_fault.
Proof.
  intros Hs. unfold settle. apply wp_bind_any. intros e.
  case_match; [eapply wp_bind_keep; [by apply all_set_vm_conf | intros s1 K1; by apply wp_ret] |].
  destruct (VM_STATE e).
  1: { cbn zeta. eapply wp_bind_keep; [by apply all_unlink | intros s1 K1; by apply all_free_vm]. }
  all: try (apply wp_bind_any; intros ce; eapply wp_bind_keep; [by apply all_shut_down | intros s1 K1; by apply all_unlink]).
  all: eapply wp_bind_keep; [by apply all_change_state | intros s1 K1; by apply all_unlink].
Qed.

Lemma all_reload s news :
  all_held s -> (forall l, news = Some l -> Forall good l) ->
  keeps (reload_virtual_machines k dv ops nmdm_offset nv same_ent on_reload_config fuel s news).
Proof.
  intros Hs Hn. unfold reload_virtual_machines. destruct news as [news |]; [| by apply wp_ret]. cbn zeta.
  eapply wp_bind_keep; [apply all_link_news; [exact Hs | by apply Hn] | intros s1 K1].
  eapply wp_bind_keep; [by apply all_each | intros [rc s2] K2]. case_match; [by apply wp_ret |].
  eapply wp_bind_keep; [apply (wp_foreach _ _ all_held) | intros s3 [K3 K4]]; [done | intros a s' _ H'; by apply all_settle |].
  eapply (wp_bind_keep _ _ all_held); [| intros s4 K5; by apply wp_ret]. unfold replace_list.
  eapply wp_bind_keep; [by apply values_free_all | intros m1 M1].
  eapply wp_bind_keep; [by apply (values_concat good (put_head m1 VM_CONF_LIST None)) | intros m2 M2]. apply wp_ret. split; [| done].
  intros a e. cbn. rewrite lookup_fmap. intros (e0 & He0 & ->)%fmap_Some. exact (K3 a e0 He0).
Qed.

(** *** Commands *)

Lemma all_on_world {R} s (f : W -> C (R * W)) : all_held s -> keeps (on_world s f).
Proof. intros Hs. unfold on_world. apply wp_bind_any. intros [r w]. by apply wp_ret. Qed.

Lemma values_sift l : forall mem name ret,
  values good mem -> wp (sift mem name l ret) (fun p => values good p.2) any_fault.
Proof.
  induction l as [| c l IH]; intros mem name ret Hm; [by apply wp_ret |]. cbn [sift]. do 3 (apply wp_bind_any; intros ?).
  case_match; [by apply IH |]. eapply wp_bind_keep; [by apply values_free | intros m1 M1; by apply IH].
Qed.

Lemma all_search s a news :
  all_held s -> (forall l, news = Some l -> Forall good l) -> keeps (search_and_replace_vm_conf nv fuel s a news).
Proof.
  intros Hs Hn. unfold search_and_replace_vm_conf. apply wp_bind_any. intros old. apply wp_bind_any. intros c_old.
  destruct news as [news |]; [| by apply wp_ret]. cbn zeta.
  eapply wp_bind_keep; [apply all_link_news; [exact Hs | by apply Hn] | intros s1 [K1 K2]].
  eapply wp_bind_keep; [by apply values_sift | intros [ret mem] M1]. cbn [snd] in M1. destruct ret as [c |]; [| by apply wp_ret].
  apply wp_bind_any. intros n. apply wp_bind_any. intros rc. case_match.
  - eapply (wp_bind_keep _ _ all_held); [| intros s2 K3; by apply wp_ret]. unfold replace_conf.
    eapply wp_bind_keep; [by apply (values_remove good (drop_head mem)) | intros m2 M2].
    eapply wp_bind_keep; [by apply values_insert | intros m3 M3]. eapply wp_bind_keep; [by apply values_free | intros m4 M4].
    eapply wp_bind_keep; [by apply all_set_vm_conf | intros s2 K3]. apply wp_bind_any. intros n2. by apply wp_ret.
  - eapply wp_bind_keep; [by apply (values_free good (drop_head mem)) | intros m2 M2; by apply wp_ret].
Qed.

Lemma all_boot s a style news :
  all_held s -> (forall l, news = Some l -> Forall good l) -> keeps (boot_vm k dv ops nmdm_offset nv fuel s a style news).
Proof.
  intros Hs Hn. unfold boot_vm. apply wp_bind_any. intros e. case_match; [by apply wp_ret |].
  eapply wp_bind_keep; [by apply all_search | intros [rc s1] G1]. do 2 (case_match; [by apply wp_ret |]).
  eapply (wp_bind_keep _ _ all_held).
  - case_match; [| by apply wp_ret]. pose proof G1 as [Hd Hm]. unfold mark_install. apply wp_bind_any. intros c.
    apply wp_bind, (values_get good); [done |]. intros n _ Hg. apply wp_bind, (wp_held good); [done |]. intros e1 _ He1. cbn zeta.
    apply wp_ret. split; [apply (held_put good (s_d s1) a (e1 <| ve_vm := _ |>)); [done |] | apply values_put; [done |]]; by apply Hinstall.
  - intros s2 G2. eapply wp_bind_keep; [by apply all_start | intros [rc2 s3] G3; by apply wp_ret].
Qed.

Lemma all_command s req ucred news f :
  f ∈ (command_list k dv ops nmdm_offset nv cs fuel).*2 -> all_held s -> (forall l, news = Some l -> Forall good l) -> keeps (f s req ucred news).
Proof.
  intros Hf Hs Hn. cbn in Hf. rewrite !elem_of_cons, elem_of_nil in Hf.
  assert (Hboot : forall style, keeps (boot0_command k dv ops nmdm_offset nv cs fuel s req style ucred news)).
  { intros style. unfold boot0_command. apply wp_bind_any. intros [a |]; [| by apply wp_ret].
    eapply wp_bind_keep; [by apply all_boot | intros [[r |] s1] K1]; [by apply wp_ret |].
    apply wp_bind_any. intros [p |]; [| by apply wp_ret].
    eapply wp_bind_keep; [by apply all_on_world | intros [fd s2] K2; by apply wp_ret]. }
  assert (Hdown : forall how, keeps (down_response ops nv s req how ucred)).
  { intros how. unfold down_response. apply wp_bind_any. intros name.
    eapply wp_bind_keep; [apply all_on_daemon, held_vm_down; [done | apply Hs] | intros [r s1] K1; by apply wp_ret]. }
  assert (Hlist : keeps (list_command cs s ucred)).
  { unfold list_command. apply wp_bind_any. intros [| r l]; [by apply wp_ret |]. apply wp_bind_any. intros ok. by apply wp_ret. }
  assert (Hcom : keeps (showcomport_command nv cs s req ucred)).
  { unfold showcomport_command. apply wp_bind_any. intros [a |]; [| by apply wp_ret]. apply wp_bind_any. intros p.
    apply wp_bind_any. intros e. cbn zeta. case_match; [| by apply wp_ret].
    eapply wp_bind_keep; [by apply all_on_world | intros [z s1] K1].
    eapply wp_bind_keep; [by apply all_on_world | intros [fd s2] K2; by apply wp_ret]. }
  assert (Hvga : keeps (showvgaport_command nv s req ucred)).
  { unfold showvgaport_command. apply wp_bind_any. intros [a |]; [| by apply wp_ret]. do 2 (apply wp_bind_any; intros ?). by apply wp_ret. }
  destruct_or! Hf; subst f; try done; first [apply Hboot | apply Hdown | apply Hcom].
Qed.

Context (nvlist_unpack : list ascii -> option NV) (nvlist_pack : response -> option (list ascii)).

Lemma all_recv_command s sb news :
  all_held s -> (forall l, news = Some l -> Forall good l) ->
  keeps (recv_command k dv ops nmdm_offset nv cs nvlist_unpack nvlist_pack fuel s sb news).
Proof.
  intros Hs Hn. unfold recv_command. apply wp_bind_any. intros bytes. destruct (nvlist_unpack bytes) as [req |]; [| by apply wp_ret].
  apply wp_bind_any. intros cmd. destruct (get_command_function _ _ _ _ _ _ _ _) as [f |] eqn:Ef; [| by apply wp_ret].
  eapply wp_bind_keep; [apply (all_command s req (b_peer sb) news f); [| done | done] | intros [res s1] K1].
  - unfold get_command_function in Ef. apply fmap_Some in Ef as ((c & f') & Hc & ->).
    apply bsearch_loop_sound in Hc as [Hc _]. apply list_elem_of_fmap. exists (c, f'). split; [done | by apply list_elem_of_In].
  - case_match. by apply wp_ret.
Qed.

(** ** The loop *)

Implicit Types (f : frontend NV W) (an : reactions NV).

Abbreviation stays c := (wp c (fun p => all_held (f_s (p.2))) any_fault).

Lemma all_wait_flags f b r w : all_held (f_s f) -> stays (set_sock_buf_wait_flags f b r w).
Proof. intros Hs. unfold set_sock_buf_wait_flags. repeat case_match; [by apply wp_ret |]. apply wp_bind_any. intros []; by apply wp_ret. Qed.

Lemma all_destroy f b : all_held (f_s f) -> wp (destroy_sock_buf f b) (fun f' => all_held (f_s f')) any_fault.
Proof. intros Hs. unfold destroy_sock_buf. apply wp_bind_any. intros sb. by apply wp_ret. Qed.

Lemma all_on_recv f b now ev news :
  all_held (f_s f) -> (forall l, news = Some l -> Forall good l) ->
  stays (on_recv_sock_buf k dv ops nmdm_offset nv cs nvlist_unpack nvlist_pack fuel f b now ev news).
Proof.
  intros Hs Hn. unfold on_recv_sock_buf. apply wp_bind_any. intros sb. apply wp_bind_any. intros [rc sb1]. cbn zeta. case_match.
  - eapply wp_bind_keep; [by apply all_recv_command | intros [[rc2 sb2] s2] K2]. cbn [snd] in K2. case_match; [| by apply wp_ret].
    eapply wp_bind_keep; [by apply all_wait_flags | intros [z f3] K3; by apply wp_ret].
  - case_match; [by apply wp_ret |]. eapply wp_bind_keep; [by apply (all_destroy (stop_waiting_for_sock _ _)) | intros f2 K2; by apply wp_ret].
Qed.

Lemma all_on_send f b now ev : all_held (f_s f) -> wp (on_send_sock_buf f b now ev) (fun '(_, f', _, _) => all_held (f_s f')) any_fault.
Proof.
  intros Hs. unfold on_send_sock_buf. apply wp_bind_any. intros sb. apply wp_bind_any. intros [[[rc sb1] out] fd]. cbn zeta. case_match.
  - eapply wp_bind_keep; [by apply all_wait_flags | intros [z f3] K3; by apply wp_ret].
  - case_match; [by apply wp_ret |]. eapply wp_bind_keep; [by apply (all_destroy (stop_waiting_for_sock _ _)) | intros f2 K2; by apply wp_ret].
Qed.

Lemma all_on_accept f conn now cred : all_held (f_s f) -> stays (on_accept_cmd_sock f conn now cred).
Proof.
  intros Hs. unfold on_accept_cmd_sock. case_match; [by apply wp_ret |].
  eapply (wp_bind_keep _ _ (fun p => all_held (f_s p.2))).
  { unfold new_sock_buf. apply wp_bind_any. intros [[sb |] o]; by apply wp_ret. }
  intros [[b |] f1] K1; [| by apply wp_ret]. eapply (wp_bind_keep _ _ (fun p => all_held (f_s p.2))).
  - unfold wait_for_sock_buf. apply wp_bind_any. intros sb. cbn zeta.
    eapply wp_bind_keep; [apply all_on_daemon, held_register; [exact K1 | apply K1] | intros [rc s2] K2; by apply wp_ret].
  - intros [rc f2] K2. case_match; [| by apply wp_ret]. eapply wp_bind_keep; [by apply all_destroy | intros f3 K3; by apply wp_ret].
Qed.

Lemma all_timeouts f timeout now : all_held (f_s f) -> wp (close_timeouts f timeout now) (fun f' => all_held (f_s f')) any_fault.
Proof. intros Hs. unfold close_timeouts. apply (wp_foreach _ _ (fun f' => all_held (f_s f'))); [done |]. intros b f' _ H'. by apply all_destroy. Qed.

Lemma all_run_calls cl : forall s, all_held s -> wp (foreach run_call cl s) all_held any_fault.
Proof.
  induction cl as [| c cl IH]; intros s Hs; [by apply wp_ret |]. cbn [foreach]. eapply (wp_bind_keep _ _ all_held); [| apply IH].
  unfold run_call. eapply (wp_bind_keep _ _ (fun p => all_held p.2)); [| intros [rc s1] K1; by apply wp_ret]. apply all_on_daemon; [done |].
  assert (Hreg : forall d (kev : kevent) cb data, held good d ->
    wp ('(rc, d) ← register_event0 PLUGIN kev (plugin_cb cb) data d; mret (if rc <? 0 then -1 else 0, d))
       (fun p : Z * daemon NV W => held good p.2) any_fault).
  { intros d kev cb data Hd. eapply wp_bind_keep; [by apply held_register0 | intros [rc d1] K1; by apply wp_ret]. }
  destruct c as [pid cb data | second cb data]; [apply Hreg, Hs |]. unfold plugin_set_timer. case_match; [by apply wp_crash |]. apply Hreg, Hs.
Qed.

Lemma all_store s a : all_held s -> wp (store_install s a) all_held any_fault.
Proof.
  intros Hs. pose proof Hs as [Hd Hm]. unfold store_install. apply wp_bind_any. intros c. apply wp_bind, (values_get good); [done |]. intros n _ Hn.
  apply wp_bind_any. intros e. apply wp_ret. split; [done |]. apply values_put; [done |]. by apply Hinstall.
Qed.

Lemma all_exit s a st : all_held s -> keeps (exit_call k dv ops nmdm_offset s a st).
Proof.
  intros Hs. unfold exit_call. apply wp_bind_any. intros e. apply wp_bind_any. intros ce. case_decide.
  - eapply wp_bind_keep; [apply all_on_daemon_, (held_stop k dv ops good Hstart); [done | apply Hs] | intros s1 K1]. cbn zeta.
    eapply (wp_bind_keep _ _ all_held); [by apply all_free_vm | intros s2 K2; by apply wp_ret].
  - eapply wp_bind_keep; [apply all_on_daemon, (held_on_vm_exit k dv ops nmdm_offset good Hstart Hinstall); [done | apply Hs] | intros [rc s1] K1].
    eapply wp_bind_keep; [by apply all_store | intros s2 K2; by apply wp_ret].
Qed.

Lemma all_server (l : loop NV W) (g : server NV W -> C (Z * server NV W)) :
  keeps (g (f_s (l_f l))) -> wp (with_frontend l (on_server (l_f l) g)) (fun p => all_held (f_s (l_f p.2))) any_fault.
Proof.
  intros Hg. unfold with_frontend, on_server. apply wp_bind. eapply wp_bind_keep; [exact Hg | intros [rc s] K]. by do 2 apply wp_ret.
Qed.

Lemma all_frontend (l : loop NV W) (c : C (Z * frontend NV W)) : stays c -> wp (with_frontend l c) (fun p => all_held (f_s (l_f p.2))) any_fault.
Proof. intros Hc. unfold with_frontend. eapply wp_bind_keep; [exact Hc | intros [rc f] K]. by apply wp_ret. Qed.

(** The configurations that are read while the event is handled are good; of the rest nothing is asked. *)
Definition news_ok (ar : arrival NV) : Prop :=
  match ar with ArEvent _ an => forall news, an_news an = Some news -> Forall good news | _ => True end.

Abbreviation step := (loop_step k dv ops nmdm_offset nv cs same_ent on_reload_config nvlist_unpack nvlist_pack fuel).

Lemma all_step (l : loop NV W) ar : all_held (f_s (l_f l)) -> news_ok ar -> wp (step l ar) (fun p => all_held (f_s (l_f p.2))) any_fault.
Proof.
  intros Hl Hn. destruct ar as [| now | | x an]; cbn [loop_step]; try (by apply wp_ret).
  { eapply wp_bind_keep; [by apply all_timeouts | intros f K; by apply wp_ret]. }
  cbn in Hn. unfold loop_event. destruct (List.find _ _) as [ev |]; [| by apply wp_bind, wp_crash].
  eapply (wp_bind_keep _ _ (fun p => all_held (f_s (l_f p.2)))); [| intros [half l1] K1; by apply wp_ret].
  eapply (wp_bind_keep _ _ (fun p => all_held (f_s (l_f p.2)))).
  - unfold loop_call_back. destruct (ev_cb ev) as [| | | n].
    1-3: destruct (ev_data ev) as [a |]; [apply all_server | by apply wp_crash].
    + apply all_on_daemon, held_on_read; [done | apply Hl].
    + unfold timer_call. apply wp_bind_any. intros ce. apply all_on_daemon, (held_on_timer k dv ops nmdm_offset good Hstart); [done | apply Hl].
    + by apply all_exit.
    + destruct n as [| [| [| [| [| n]]]]].
      * by apply wp_ret.
      * unfold on_sighup, on_server. apply wp_bind, wp_bind. eapply wp_bind_keep; [by apply all_reload | intros [rc s] K]. by do 3 apply wp_ret.
      * apply all_frontend. by apply all_on_accept.
      * destruct (ev_data ev) as [b |]; [| by apply wp_crash]. apply all_frontend. by apply all_on_recv.
      * destruct (ev_data ev) as [b |]; [| by apply wp_crash]. apply all_frontend.
        eapply wp_bind_keep; [by apply all_on_send | intros [[[rc f'] out] fd] K; by apply wp_ret].
      * destruct (ev_data ev); apply all_server; (eapply wp_bind_keep; [by apply all_run_calls | intros s K; by apply wp_ret]).
  - intros [half l1] K1. cbn [snd] in K1. repeat case_match; try (by apply wp_crash); by apply wp_ret.
Qed.

(** Any run of the loop, whatever arrives and whatever state it is in. *)
Inductive loop_any (l0 : loop NV W) : loop NV W -> Prop :=
  | any_start : loop_any l0 l0
  | any_step l ar o out l' o' : loop_any l0 l -> news_ok ar -> step l ar o = Done (out, l') o' -> loop_any l0 l'.

Lemma loop_any_held (l0 l : loop NV W) : all_held (f_s (l_f l0)) -> loop_any l0 l -> all_held (f_s (l_f l)).
Proof.
  intros K0. induction 1 as [| l ar o out l' o' _ IH Hn Hs]; [done |]. pose proof (all_step l ar IH Hn o) as K. by rewrite Hs in K.
Qed.

End server.

(** ** A refused command *)

Section refused.
Context {NV W : Type} (k : kernel W) (dv : devices NV W) (ops : vm_method -> vm_ops NV W) (nmdm_offset : Z)
        (nv : libnv NV) (cs : com_sys W) (fuel : nat).
Implicit Types (s : server NV W).

(** No VM of this name in memory may be controlled by the peer. *)
Definition none_for (name : string) (ucred : xucred) s : Prop :=
  forall a e, d_heap (s_d s) !! a = Some e -> vc_name (VM_CONF e) = Some name -> check_owner (VM_CONF e) ucred <> 0.

Lemma find_vm_none s req ucred :
  none_for (nv_get_string nv req "name") ucred s -> wp (find_vm nv s req ucred) (fun r => r = None) any_fault.
Proof.
  intros Hs. unfold find_vm, nvlist_get_string.
  eapply (wp_bind_keep _ _ (fun name => name = nv_get_string nv req "name")); [case_match; [by apply wp_ret | by apply wp_crash] | intros name ->].
  generalize (nv_get_string nv req "name") Hs. intros name Hn.
  eapply (wp_bind_keep _ _ (fun r => forall a, r = Some a -> exists e, d_heap (s_d s) !! a = Some e /\ vc_name (VM_CONF e) = Some name)).
  - induction (d_vm_list (s_d s)) as [| a l IH]; [by apply wp_ret |]. cbn [lookup_live]. unfold vm_conf_of. apply wp_bind, wp_bind, wp_get_entry_any.
    intros e He. do 2 (apply wp_bind_any; intros ?). apply wp_ret. apply wp_bind. unfold deref.
    destruct (vc_name (ce_conf (vm_ent_conf (ve_vm e)))) as [x |] eqn:Ex; [apply wp_ret | by apply wp_crash].
    destruct (Z.eqb_spec (strcmp x name) 0) as [E | E]; [| exact IH]. apply wp_ret. intros b [= <-]. exists e. split; [done |].
    apply strcmp_eq0 in E as ->. exact Ex.
  - intros [a |] Ha; [| by apply wp_ret]. destruct (Ha a eq_refl) as (e & He & Hnm). unfold vm_conf_of.
    apply wp_bind, wp_bind, wp_get_entry_any. intros e' He'. assert (e' = e) as -> by congruence. do 2 (apply wp_bind_any; intros ?). apply wp_ret, wp_ret.
    destruct (Z.eqb_spec (check_owner (ce_conf (vm_ent_conf (ve_vm e))) ucred) 0) as [E0 | E0]; [| done]. by destruct (Hn a e He Hnm).
Qed.

Lemma vm_down_none s name how ucred :
  none_for name ucred s ->
  wp (vm_down_command ops (s_d s) (Some name) how ucred) (fun p => p = (Some "VM not found", s_d s)) any_fault.
Proof.
  intros Hn. unfold vm_down_command, lookup_vm_by_name.
  eapply (wp_bind_keep _ _ (fun r => forall a, r = Some a -> exists e, d_heap (s_d s) !! a = Some e /\ vc_name (VM_CONF e) = Some name)).
  - induction (d_vm_list (s_d s)) as [| a l IH]; [by apply wp_ret |]. cbn [lookup_in]. apply wp_bind, wp_get_entry_any.
    intros e He. apply wp_bind. unfold deref. destruct (vc_name (VM_CONF e)) as [x |] eqn:Ex; [apply wp_ret | by apply wp_crash].
    destruct (Z.eqb_spec (strcmp x name) 0) as [E | E]; [| exact IH]. apply wp_ret. intros b [= <-]. exists e. split; [done |].
    apply strcmp_eq0 in E as ->. exact Ex.
  - intros [a |] Ha; [| by apply wp_ret]. destruct (Ha a eq_refl) as (e & He & Hnm). apply wp_bind, wp_get_entry_any. intros e' He'.
    assert (e' = e) as -> by congruence. destruct (Z.eqb_spec (check_owner (VM_CONF e) ucred) 0) as [E0 | E0]; [by destruct (Hn a e He Hnm) |].
    by apply wp_ret.
Qed.

(** A command that returns has refused, and nothing has changed. *)
Lemma command_none s req ucred news cmd f :
  none_for (nv_get_string nv req "name") ucred s ->
  (cmd, f) ∈ command_list k dv ops nmdm_offset nv cs fuel -> cmd <> "list" ->
  wp (f s req ucred news) (fun p => p = (verdict (Some "VM not found"), s)) any_fault.
Proof.
  intros Hn Hf Hl. pose proof (find_vm_none s req ucred Hn) as Hfind.
  assert (Hdown : forall how, wp (down_response ops nv s req how ucred) (fun p => p = (verdict (Some "VM not found"), s)) any_fault).
  { intros how. unfold down_response, nvlist_get_string.
    eapply (wp_bind_keep _ _ (fun name => name = nv_get_string nv req "name")); [case_match; [by apply wp_ret | by apply wp_crash] | intros name ->].
    unfold on_daemon. apply wp_bind. eapply wp_bind_keep; [by apply vm_down_none | intros [r d] [= -> ->]]. do 2 apply wp_ret. by destruct s. }
  unfold command_list in Hf. rewrite !elem_of_cons, elem_of_nil in Hf.
  destruct_or! Hf; injection Hf as -> ->; try done; try apply Hdown.
  all: unfold boot_command, install_command, boot0_command, showcomport_command, showvgaport_command;
    (eapply wp_bind_keep; [exact Hfind | intros r ->; by apply wp_ret]).
Qed.

End refused.
