(* ===== verification/Life.v ===== *)
(** * The life of the daemon (src/bmd.c 472-480, 844-858, 904-912, 1175-1206, 1403-1442, 1500-1587)

    From its start to its end: the configurations are loaded and a VM is made for each of them, the
    command socket is watched, the event loop runs, the VMs are stopped and
    everything is freed.  The state is that of EventLoop.v; the theorems close its circle:
    the state after the start is one in which the loop is safe, whatever the configurations
    are, and every state that the loop can reach is one from which the daemon ends
    without freeing anything twice.  A property [P] of all configurations that are read is one of
    the configuration of every VM.  Access control needs none of the conditions of these theorems: it follows from Access.v
    for every run of the loop. *)

From S2P Require Import Prelude CString Vars Conf Global MPool Plugin ParseValue Parser Load Tap Vm Network.
From S2P Require Import NvList SockBuf Daemon ConfList Reload Upkeep Command Frontend Options Events EventLoop Access.
From Stdlib Require Import Ascii.

Local Open Scope Z_scope.

Section life.
Context {NV W : Type} (k : kernel W) (dv : devices NV W) (ops : vm_method -> vm_ops NV W) (nmdm_offset : Z)
        (nv : libnv NV) (cs : com_sys W) (same_ent : plugin_desc NV -> plugin_desc NV -> bool)
        (on_reload_config : plugin_desc NV -> NV -> NV -> NV * NV)
        (nvlist_unpack : list ascii -> option NV) (nvlist_pack : response -> option (list ascii)) (fuel : nat).
Implicit Types (d : daemon NV W) (s : server NV W) (f : frontend NV W) (l : loop NV W).

(** ** The start *)

Definition boot_state (w : W) : server NV W := {|
  s_d := idle w; s_mem := {| lm_nodes := ∅; lm_heads := {[VM_CONF_LIST := None]} |}; s_conf := ∅; s_new := ∅ |}.

(** What [load_config_file] leaves in [vm_conf_list]. *)
Fixpoint load_list s (confs : list (vm_conf_entry NV)) : C (server NV W) :=
  match confs with
  | [] => mret s
  | ce :: confs' =>
      s ← load_list s confs';
      let c := d_next (s_d s) in
      let mem := put_node (s_mem s) c {| ln_val := ce; le_next := None; le_prev := AtHead VM_CONF_LIST |} in
      mem ← LIST_INSERT_HEAD mem VM_CONF_LIST c;
      mret (s <| s_mem := mem |> <| s_d := s_d s <| d_next := c + 1 |> |>)
  end.

(** The loop of [start_virtual_machines] over [vm_conf_list]. *)
Fixpoint start_each s (cl : list Z) : C (Z * server NV W) :=
  match cl with
  | [] => mret (0, s)
  | c :: cl' =>
      n ← get_node (s_mem s) c;
      '(r, s) ← on_daemon s (fun d => create_vm_entry d (ln_val n));
      match r with
      | None => mret (-1, s)
      | Some a =>
          let s := s <| s_conf := <[a := c]> (s_conf s) |> in
          let conf := ce_conf (ln_val n) in
          '(_, s) ← (if decide (vc_boot conf = NO) then mret (0, s)
                     else if 0 <? vc_boot_delay conf then on_daemon s (fun d => set_timer d a (vc_boot_delay conf))
                     else on_daemon s (fun d => start_virtual_machine k dv ops nmdm_offset d a));
          start_each s cl'
      end
  end.

Definition SIGHUP : Z := 1.
Definition SIGINT : Z := 2.

(** [sigev] with the call-backs. *)
Definition signal_event (n : Z) (cb : nat) : kevent * event_call_back * option Z :=
  ({| k_ident := n; k_filter := EVFILT_SIGNAL; k_flags := EV_ADD; k_data := 0 |}, CbOther cb, None).

Definition start_server s (cl : list Z) : C (Z * server NV W) :=
  '(rc, s) ← on_daemon s (register_events [signal_event SIGTERM 0; signal_event SIGINT 0; signal_event SIGHUP 1]);
  if rc <? 0 then mret (-1, s) else start_each s cl.

(** Up to the first iteration of the event loop, with the command socket of [event_loop]; -1 when there is no
    iteration. *)
Definition daemon_start (confs : list (vm_conf_entry NV)) (cmd_sock : Z) (w : W) : C (Z * loop NV W) :=
  s ← load_list (boot_state w) confs;
  '(rc, s) ← start_server s (rev (seqZ 0 (Z.of_nat (length confs))));
  let f := {| f_s := s; f_socks := ∅; f_list := [] |} in
  if rc <? 0 then mret (-1, {| l_f := f; l_sigterm := 0 |})
  else '(rc, f) ← wait_for_cmd_sock f cmd_sock; mret (rc, {| l_f := f; l_sigterm := 0 |}).

(** ** The end *)

(** The loop of [stop_virtual_machines], which waits without a time limit: the end of any process
    that the daemon waits for counts.  1 while it still waits. *)
Fixpoint await_ends l (count : Z) (ars : list (arrival NV)) : C (Z * loop NV W) :=
  if 0 <? count then
    match ars with
    | [] => mret (1, l)
    | ArFail :: _ => mret (-1, l)
    | (ArNone _ | ArUnexpected) :: ars' => await_ends l count ars'
    | ArEvent x an :: ars' =>
        match List.find (fun ev => ev_addr ev =? x) (d_events (s_d (f_s (l_f l)))) with
        | None => crash UseAfterFree
        | Some ev =>
            let ends := match ev_type ev with EVENT => bool_decide (k_filter (ev_kev ev) = EVFILT_PROC) | PLUGIN => false end in
            '(_, l) ← loop_event k dv ops nmdm_offset nv cs same_ent on_reload_config nvlist_unpack nvlist_pack fuel l x an;
            await_ends l (if ends then count - 1 else count) ars'
        end
    end
  else mret (0, l).

Definition stop_server l (ars : list (arrival NV)) : C (Z * loop NV W) :=
  let s := f_s (l_f l) in
  '(count, s) ← on_daemon s (fun d => stop_each ops d (d_vm_list d) 0);
  await_ends (l <| l_f := l_f l <| f_s := s |> |>) count ars.

(** Each entry goes with its configuration; the list is emptied at the end. *)
Definition free_vm_list s : C (server NV W) :=
  s ← foreach free_vm (d_vm_list (s_d s)) s;
  mret (s <| s_d := s_d s <| d_vm_list := [] |> |>).

Definition free_events s : server NV W := s <| s_d := s_d s <| d_events := [] |> |>.

(** What [main] does after the loop; [None] while it still waits. *)
Definition daemon_end l (ars : list (arrival NV)) : C (option (server NV W)) :=
  '(rc, l) ← stop_server l ars;
  if rc =? 1 then mret None
  else s ← free_vm_list (f_s (l_f l)); mret (Some (free_events s)).

End life.

Section theorems.
Context {NV W : Type} (k : kernel W) (dv : devices NV W) (ops : vm_method -> vm_ops NV W) (nmdm_offset : Z)
        (nv : libnv NV) {Hnv : LibnvLaws nv} (cs : com_sys W) (same_ent : plugin_desc NV -> plugin_desc NV -> bool)
        (on_reload_config : plugin_desc NV -> NV -> NV -> NV * NV)
        `{Hlaws : forall m, BackendLaws (m_name m) (ops m)}
        (nvlist_unpack : list ascii -> option NV) (nvlist_pack : response -> option (list ascii)) (fuel : nat)
        (P : vm_conf -> Prop).
Hypothesis on_reload_ok : forall d a b, plugin_ok nv fuel a -> plugin_ok nv fuel b ->
  plugin_ok nv fuel (on_reload_config d a b).1 /\ plugin_ok nv fuel (on_reload_config d a b).2.
Hypothesis P_install : forall c b, P c -> P (c <| vc_install := b |>).
Implicit Types (d : daemon NV W) (s : server NV W) (f : frontend NV W) (l : loop NV W).

Abbreviation good := (granted nv fuel P).
Abbreviation no_events := (fun _ : Z => @nil event).

(** ** The start is safe *)

(** [L] is [vm_conf_list]; each VM has a configuration of it, and those of [rest] have no VM yet. *)
Record Booted (L rest : list Z) s : Prop := {
  bo_safe : Safe good (s_d s);
  bo_fresh : forall c, is_Some (lm_nodes (s_mem s) !! c) -> c < d_next (s_d s);
  bo_inj : forall a b c, is_Some (d_heap (s_d s) !! a) -> is_Some (d_heap (s_d s) !! b) ->
    s_conf s !! a = Some c -> s_conf s !! b = Some c -> a = b;
  bo_list : is_list (s_mem s) VM_CONF_LIST L;
  bo_conf : forall a, is_Some (d_heap (s_d s) !! a) -> exists c, s_conf s !! a = Some c /\ c ∈ L /\ (c ∉ rest);
  bo_vals : forall c n, lm_nodes (s_mem s) !! c = Some n -> good (ln_val n);
  bo_rest : forall c, c ∈ rest -> c ∈ L;
}.

Lemma Booted_consistent L rest s : Booted L rest s -> Consistent good s.
Proof.
  intros []. split; try done. exists L. split; [done |]. intros a e He. destruct (bo_conf0 a) as (c & H1 & H2 & _); [by rewrite He |].
  exists c. split; [done | split; [| by left]]. eapply seg_in; [apply bo_list0 | done].
Qed.

Lemma boot_state_booted w : Booted [] [] (boot_state w).
Proof.
  assert (H0 : forall a, ~ is_Some (d_heap (s_d (boot_state (NV := NV) w)) !! a)).
  { intros a [e He]. cbn in He. by rewrite lookup_empty in He. }
  split.
  - split.
    + intros ev a Hev. by apply elem_of_nil in Hev.
    + intros a Ha. by apply elem_of_nil in Ha.
    + intros a Ha. by destruct (H0 a).
    + constructor.
    + intros a e He. destruct (H0 a). by rewrite He.
  - intros c [n Hn]. cbn in Hn. by rewrite lookup_empty in Hn.
  - intros a b c Ha. by destruct (H0 a).
  - split; [done | split; [done | constructor]].
  - intros a Ha. by destruct (H0 a).
  - intros c n Hn. cbn in Hn. by rewrite lookup_empty in Hn.
  - intros c Hc. by apply elem_of_nil in Hc.
Qed.

(** One more configuration. *)
Lemma load_one L s ce :
  Booted L L s -> d_heap (s_d s) = ∅ -> good ce ->
  let c := d_next (s_d s) in
  let mem := put_node (s_mem s) c {| ln_val := ce; le_next := None; le_prev := AtHead VM_CONF_LIST |} in
  exists mem', (forall o, LIST_INSERT_HEAD mem VM_CONF_LIST c o = Done mem' o) /\
    Booted (c :: L) (c :: L) (s <| s_mem := mem' |> <| s_d := s_d s <| d_next := c + 1 |> |>).
Proof.
  intros [] Hh Hg c mem.
  assert (Hfr : lm_nodes (s_mem s) !! c = None).
  { destruct (lm_nodes (s_mem s) !! c) eqn:E; [| done]. pose proof (bo_fresh0 c) as H. rewrite E in H.
    specialize (H ltac:(by eexists)). unfold c in H. lia. }
  destruct bo_list0 as (H1 & H2 & H3).
  assert (Hc : c ∉ L) by (intros Hc; eapply seg_in in Hc; [| exact H2]; rewrite Hfr in Hc; by destruct Hc).
  assert (HL : is_list mem VM_CONF_LIST L).
  { split; [done | split; [| done]]. eapply seg_frame; [| exact H2]. intros x Hx. cbn. apply lookup_insert_ne. by intros <-. }
  destruct (LIST_INSERT_HEAD_spec mem VM_CONF_LIST L c _ HL (lookup_insert_eq _ _ _) Hc) as (mem' & E & Hl & (R1 & R2 & R3)).
  exists mem'. split; [done |].
  assert (H0 : forall a, ~ is_Some (d_heap (s_d s) !! a)) by (intros a [e He]; by rewrite Hh, lookup_empty in He).
  split; try done.
  - destruct bo_safe0. split; try done. intros a e He. destruct (H0 a). by exists e.
  - intros x. cbn [s_mem s_d d_next]. rewrite (value_alive mem mem') by done. cbn. intros [<- | [_ H]]%lookup_insert_is_Some; [lia |].
    specialize (bo_fresh0 x H). lia.
  - intros a Ha. by destruct (H0 a).
  - intros x n Hn. cbn in Hn. pose proof (R2 x) as HV. unfold value_at in HV. rewrite Hn in HV. cbn in HV.
    destruct (decide (x = c)) as [-> | Nx]; [rewrite lookup_insert_eq in HV; by injection HV as -> |].
    rewrite lookup_insert_ne in HV by done.
    destruct (lm_nodes (s_mem s) !! x) as [n' |] eqn:E'; [| done]. injection HV as ->. by apply (bo_vals0 x n').
Qed.

Lemma load_list_booted w confs :
  Forall good confs ->
  wp (load_list (boot_state w) confs)
     (fun s => let L := rev (seqZ 0 (Z.of_nat (length confs))) in
        Booted L L s /\ d_heap (s_d s) = ∅ /\ d_next (s_d s) = Z.of_nat (length confs) /\
        d_events (s_d s) = []) tolerated.
Proof.
  intros Hl. induction Hl as [| ce confs Hg _ IH]; [apply wp_ret; split; [apply boot_state_booted | done] |].
  cbn [load_list]. apply wp_bind. eapply wp_mono; [exact IH | intros s1 (H1 & E1 & D1 & V1) | done].
  destruct (load_one _ s1 ce H1 E1 Hg) as (mem & E & H2). apply wp_bind, (wp_certain _ mem); [done |]. apply wp_ret. cbn zeta.
  cbn [length]. rewrite seqZ_S, rev_app_distr. cbn [rev app]. rewrite D1 in H2 |- *.
  split; [exact H2 | split; [done | split; [cbn; lia | done]]].
Qed.

Lemma Booted_lively L rest s a e d :
  Booted L rest s -> d_heap (s_d s) !! a = Some e -> lively good (s_d s) a e d -> Booted L rest (s <| s_d := d |>).
Proof.
  intros Hb He Hd. pose proof (Consistent_lively good s a e d (Booted_consistent _ _ _ Hb) He Hd) as [Hsafe Hfr Hinj _].
  destruct Hb, Hd as (e' & [Hh _] & _). split; try done. intros b. cbn. rewrite Hh, (alive_insert _ a e) by done. apply bo_conf0.
Qed.

(** The VM of the first configuration that has none. *)
Lemma Booted_create L c rest s ce m :
  Booted L (c :: rest) s -> NoDup (c :: rest) -> good ce ->
  Booted L rest (s <| s_d := created (s_d s) ce m |> <| s_conf := <[d_next (s_d s) := c]> (s_conf s) |>).
Proof.
  intros Hb [Hc Hnd]%NoDup_cons Hg. pose proof Hb as []. pose proof bo_safe0 as []. set (a := d_next (s_d s)).
  assert (Hfr : d_heap (s_d s) !! a = None).
  { destruct (d_heap (s_d s) !! a) as [e |] eqn:E; [| done]. destruct (sf_heap a e E) as [H _]. unfold a in H. lia. }
  assert (Hin : forall b, is_Some (d_heap (created (s_d s) ce m) !! b) <-> b = a \/ b <> a /\ is_Some (d_heap (s_d s) !! b)).
  { intros b. cbn. rewrite lookup_insert_is_Some. fold a. split; [intros [<- | []]; auto | intros [-> | []]; auto]. }
  assert (Hne : forall b x, is_Some (d_heap (s_d s) !! b) -> s_conf s !! b = Some x -> x <> c).
  { intros b x Hx Hs ->. destruct (bo_conf0 b Hx) as (y & H1 & _ & H2). apply H2. rewrite H1 in Hs. injection Hs as ->. by left. }
  split; try done.
  - split.
    + intros ev b Hev Hcb Hd. apply Hin. destruct (sf_events ev b Hev Hcb Hd) as [e He]. right.
      split; [intros ->; congruence | by rewrite He].
    + intros b [-> | Hx]%elem_of_cons; apply Hin; [by left |]. destruct (sf_listed b Hx) as [e He].
      right. split; [intros ->; congruence | by rewrite He].
    + intros b [-> | [_ Hx]]%Hin; [by left | right; by apply sf_alive].
    + apply NoDup_cons. split; [| done]. intros [e He]%sf_listed. unfold a in Hfr. congruence.
    + intros b e. cbn. intros [[<- <-] | [_ Hx]]%lookup_insert_Some; [split; [lia | split; [by eexists | done]] |].
      destruct (sf_heap b e Hx) as [H1 H2]. split; [lia | done].
  - intros x Hx. specialize (bo_fresh0 x Hx). cbn. lia.
  - intros b b' x Hx%Hin Hx'%Hin. cbn. fold a.
    intros [[<- <-] | [N1 H1]]%lookup_insert_Some [[<- E2] | [N2 H2]]%lookup_insert_Some; try done.
    + destruct Hx' as [-> | [_ Hx']]; [done |]. by destruct (Hne b' c Hx' H2).
    + subst x. destruct Hx as [-> | [_ Hx]]; [done |]. by destruct (Hne b c Hx H1).
    + destruct Hx as [-> | [_ Hx]]; [done |]. destruct Hx' as [-> | [_ Hx']]; [done |]. by apply (bo_inj0 b b' x).
  - intros b [-> | [Nb Hx]]%Hin; cbn; fold a.
    + exists c. rewrite lookup_insert_eq. split; [done | split; [| done]]. apply bo_rest0. by left.
    + rewrite lookup_insert_ne by done. destruct (bo_conf0 b Hx) as (x & H1 & H2 & H3). exists x. split; [done | split; [done |]].
      intros Hr. apply H3. by right.
  - intros x Hx. apply bo_rest0. by right.
Qed.

Lemma start_each_booted L cl : forall s,
  Booted L cl s -> NoDup cl -> wp (start_each k dv ops nmdm_offset s cl) (fun p => exists rest, Booted L rest p.2) tolerated.
Proof.
  induction cl as [| c cl IH]; intros s Hb Hnd; [apply wp_ret; by exists [] |]. cbn [start_each].
  destruct (seg_in (s_mem s) _ _ _ c (proj1 (proj2 (bo_list _ _ _ Hb)))) as [n Hn]; [by apply (bo_rest _ _ _ Hb); left |].
  apply wp_bind, (wp_get_node _ _ _ _ _ Hn). pose proof (bo_vals _ _ _ Hb c n Hn) as Hg.
  destruct (good_start nv fuel P _ Hg) as [m Hm]. unfold on_daemon at 1. apply wp_bind, wp_bind.
  eapply wp_mono; [by apply (create_vm_entry_cases (s_d s) (ln_val n) m) | | done].
  intros p [-> | ->]; apply wp_ret; [apply wp_ret; exists (c :: cl); by destruct s |]. cbn zeta.
  pose proof (Booted_create _ _ _ _ _ m Hb Hnd Hg) as H1. set (s1 := _ <| s_conf := _ |>) in H1 |- *.
  set (a := d_next (s_d s)). assert (He : d_heap (s_d s1) !! a = Some {| ve_vm := new_vm (ln_val n); ve_method := Some m |}) by apply lookup_insert_eq.
  assert (Hu : usable good (s_d s1) a {| ve_vm := new_vm (ln_val n); ve_method := Some m |}) by (split; [done | split; [done | by eexists]]).
  apply NoDup_cons in Hnd as [_ Hnd]. apply wp_bind. eapply (wp_mono _ (fun p => Booted L cl p.2) _ tolerated); [| | done].
  2: { intros [rc s2] H2. by apply IH. }
  destruct (decide _); [by apply wp_ret |]. unfold on_daemon. destruct (0 <? _); apply wp_bind.
  - eapply wp_mono; [by apply (set_timer_step (s_d s1) a) | intros [rc d] (e' & St) | done]. apply wp_ret.
    eapply Booted_lively; [done | exact He |]. by eapply step_lively; [| exact St |].
  - eapply wp_mono; [apply (start_lively k dv ops nmdm_offset good (good_start nv fuel P) (s_d s1) a); [apply H1 | exact Hu | done] | | done].
    intros [rc d] Hd. apply wp_ret. by eapply Booted_lively.
Qed.

Lemma start_server_booted L s :
  Booted L L s -> NoDup L -> wp (start_server k dv ops nmdm_offset s L) (fun p => exists rest, Booted L rest p.2) tolerated.
Proof.
  intros Hb Hnd. unfold start_server, on_daemon, register_events. apply wp_bind, wp_bind, wp_bind.
  eapply wp_mono; [apply (malloc_all_any _ tolerated) | intros [] _ | done]; cbn [negb]; [| do 3 apply wp_ret; exists L; by destruct s].
  apply wp_bind, wp_malloc. intros []; do 2 apply wp_ret; [| apply wp_ret; exists L; by destruct s]. cbn [Z.ltb Z.compare].
  apply start_each_booted; [| done]. destruct Hb as [[] ? ? ? ? ? ?]. split; try done; cbn.
  - split; try done.
    + intros ev a. cbn. rewrite !elem_of_cons. intros [-> | [-> | [-> | Hev]]]; [done .. |]. by apply sf_events.
    + intros a e He. destruct (sf_heap a e He) as [H1 H2]. split; [cbn; lia | done].
  - intros c Hc. specialize (bo_fresh0 c Hc). lia.
Qed.

(** The events of the start. *)
Lemma ev_start_each x cl : forall s,
  EvInv x [] no_events (s_d s) -> wp (start_each k dv ops nmdm_offset s cl) (fun p => EvInv x [] no_events (s_d p.2)) any_fault.
Proof.
  induction cl as [| c cl IH]; intros s Hs; [by apply wp_ret |]. cbn [start_each]. apply wp_bind_any. intros n.
  apply wp_bind. unfold on_daemon at 1. eapply wp_bind_keep; [apply (ev_create x [] no_events); exact Hs |].
  intros [r d] [H1 Ha]; apply wp_ret. cbn [fst snd] in *. destruct r as [a |]; [| by apply wp_ret]. specialize (Ha a eq_refl). cbn zeta.
  eapply (wp_bind_keep _ _ (fun p => EvInv x [] no_events (s_d p.2))); [| intros [rc s2] H2; by apply IH].
  repeat case_match; [by apply wp_ret | by apply ev_on_daemon, ev_set_timer | by apply ev_on_daemon, ev_start].
Qed.

Lemma ev_signals s :
  EvInv None [] no_events (s_d s) ->
  wp (on_daemon s (register_events [signal_event SIGTERM 0; signal_event SIGINT 0; signal_event SIGHUP 1]))
     (fun p => EvInv None [] no_events (s_d p.2)) any_fault.
Proof.
  intros Hs. apply (ev_on_daemon None [] no_events), ev_register_events; [exact Hs | |]; unfold signal_event.
  - intros kev cb data addr. rewrite !elem_of_cons, elem_of_nil. intros [[= -> -> ->] | [[= -> -> ->] | [[= -> -> ->] | []]]]; done.
  - intros kev cb a. rewrite !elem_of_cons, elem_of_nil. by intros [[=] | [[=] | [[=] | []]]].
Qed.

Lemma ev_start_server s cl :
  EvInv None [] no_events (s_d s) -> wp (start_server k dv ops nmdm_offset s cl) (fun p => EvInv None [] no_events (s_d p.2)) any_fault.
Proof.
  intros Hs. unfold start_server. eapply wp_bind_keep; [by apply ev_signals | intros [rc s1] H1].
  cbn in H1. case_match; [by apply wp_ret | by apply ev_start_each].
Qed.

(** Before there is any event or VM. *)
Lemma EvInv_empty d : d_events d = [] -> d_heap d = ∅ -> EvInv None [] no_events d.
Proof.
  intros Hv Hh. split; try done; try (intros ev; rewrite Hv; by intros ?%elem_of_nil); try (by intros b ?%elem_of_nil).
  - rewrite Hv. constructor.
  - intros ev a. rewrite Hv. by intros ?%elem_of_nil.
  - intros a [e Hx]. by rewrite Hh, lookup_empty in Hx.
Qed.

Lemma no_connections s : Consistent good s -> EvInv None [] no_events (s_d s) -> LInv nv fuel P {| f_s := s; f_socks := ∅; f_list := [] |}.
Proof.
  intros Hs He. split; [split; cbn; try done | done].
  - constructor.
  - intros b. rewrite lookup_empty, elem_of_nil. split; [by intros [] | done].
  - intros b Hb. by apply elem_of_nil in Hb.
  - intros b Hb. by apply elem_of_nil in Hb.
  - apply He.
  - intros b Hb. by apply elem_of_nil in Hb.
Qed.

(** The command socket is watched. *)
Lemma wait_cmd_sock_inv f sock : LInv nv fuel P f -> wp (wait_for_cmd_sock f sock) (fun p => LInv nv fuel P p.2) tolerated.
Proof.
  intros Hl. pose proof Hl as [Hf He].
  eapply wp_mono; [apply (wp_and_fault _ (fun p => FInv good p.2)); [| apply (ev_wait_for_cmd_sock None no_events); exact He] | | done].
  2: { intros p [H1 H2]. by split. }
  unfold wait_for_cmd_sock, on_daemon, register_event0. apply wp_bind, wp_bind, wp_bind, wp_malloc.
  intros []; cbn [negb]; [| do 3 apply wp_ret; by destruct f as [[] ? ?]].
  apply wp_bind, wp_malloc. intros []; do 3 apply wp_ret; [| by destruct f as [[] ? ?]]. cbn.
  destruct Hf as [[[] Hfr Hinj HL] ? ? ? ? ? ? ?]. split; cbn; try done.
  - split; try done.
    + split; try done; cbn.
      * intros ev a [-> | Hev]%elem_of_cons; [done | by apply sf_events].
      * intros a e Hae. destruct (sf_heap a e Hae) as [H1 H2]. split; [lia | done].
    + intros c Hc. specialize (Hfr c Hc). cbn. lia.
  - intros b Hb. specialize (fi_fresh b Hb). lia.
  - intros ev x [-> | Hev]%elem_of_cons Hx; [done |]. specialize (fi_data ev x Hev Hx). lia.
Qed.

Abbreviation start := (daemon_start k dv ops nmdm_offset).

Lemma daemon_start_inv confs sock w : Forall good confs -> wp (start confs sock w) (fun p => LInv nv fuel P (l_f p.2)) tolerated.
Proof.
  intros Hc. unfold daemon_start. apply wp_bind. eapply wp_mono; [by apply load_list_booted | intros s (Hb & Hh & Hn & Hv) | done]. cbn zeta in Hb.
  pose proof (EvInv_empty _ Hv Hh) as He.
  assert (Hnd : NoDup (rev (seqZ 0 (Z.of_nat (length confs))))).
  { apply NoDup_ListNoDup, List.NoDup_rev, NoDup_ListNoDup, NoDup_seqZ. }
  apply wp_bind. eapply wp_mono; [apply wp_and_fault; [by apply start_server_booted | by apply ev_start_server] | | done].
  intros [rc s1] [[rest H1] H2]. cbn [snd] in *. pose proof (no_connections s1 (Booted_consistent _ _ _ H1) H2) as Hl.
  case_match; [by apply wp_ret |]. apply wp_bind. eapply wp_mono; [by apply wait_cmd_sock_inv | intros [rc2 f2] H3; by apply wp_ret | done].
Qed.

Abbreviation step := (loop_step k dv ops nmdm_offset nv cs same_ent on_reload_config nvlist_unpack nvlist_pack fuel).
Abbreviation reach := (loop_reachable k dv ops nmdm_offset nv cs same_ent on_reload_config nvlist_unpack nvlist_pack fuel P).

(** [C2] The daemon as a whole is memory safe, under the conditions below.  It starts with configurations that were
    accepted, whatever they are; then any sequence of events of any kind occurs (ends of processes, timers, output of VMs, signals and reloads,
    connections, requests, answers, time-outs, plugins), whichever allocation fails.  In every state of [loop_reachable] the next event is
    handled without use of freed memory, without freeing anything twice and without following a NULL pointer: the VM of the event exists, no
    configuration in use is freed, and an event that occurs once is still on the list when it is removed.  The faults that remain are those of
    [tolerated]: a number that does not fit into an [int], the end of the process when [fork] fails or a request has no command, and a tap
    whose name cannot be allocated.  What holds of all configurations that are read, [P], goes on to hold of those of the VMs.

    Assumed of the kernel: [kevent] gives back events of the list only, and one of a connection only while its descriptor is open (the
    events of a connection that was closed for a time-out stay on the list); what is received fits into the buffer ([recv_ok]).  Assumed of
    plugins: the data of their events is no connection ([call_ok]), and they keep their lists well-formed ([on_reload_ok]).  Assumed of the backends
    ([BackendLaws]): they return, with no other fault than [ProcessExit], and do not touch the configuration; for bhyve this rests on inspections
    that end without a fault ([InspectLaws]), and a backend must not follow [pl_conf] after a reload ([reload_dangles_pl_conf]).
    Left out, because the code does use freed memory there: the end of a VM that is being removed and a reload meanwhile
    ([reload_while_removing_faults]), and a boot after the files have changed; and what follows a reload that ran out of memory half-way. *)
Theorem daemon_safe confs sock w o rc l0 o' l ar :
  Forall good confs -> daemon_start k dv ops nmdm_offset confs sock w o = Done (rc, l0) o' -> reach l0 l -> arrival_ok nv fuel P (l_f l) ar ->
  wp (step l ar) (fun p => p.1 = HalfReloaded \/ LInv nv fuel P (l_f p.2)) tolerated.
Proof.
  intros Hc Hs Hr Hok. pose proof (daemon_start_inv confs sock w Hc o) as H0. rewrite Hs in H0.
  apply loop_step_inv; try done. by eapply loop_reachable_inv.
Qed.




(** ** The end is safe *)

Lemma stop_each_consistent s (vms : list Z) : forall d n,
  Consistent good (s <| s_d := d |>) -> (forall a, a ∈ vms -> is_Some (d_heap d !! a)) ->
  wp (stop_each ops d vms n) (fun p => Consistent good (s <| s_d := p.2 |>)) tolerated.
Proof.
  induction vms as [| a vms IH]; intros d n Hd Hv; [by apply wp_ret |]. cbn [stop_each].
  destruct (Hv a) as [e He]; [by left |]. apply wp_bind, (wp_get_entry _ _ _ _ _ He).
  assert (Hv' : forall b, b ∈ vms -> is_Some (d_heap d !! b)) by (intros b Hb; apply Hv; by right).
  pose proof (Consistent_usable good _ a e Hd He) as Hu. pose proof Hu as (_ & _ & [m Hm]).
  assert (Hstop : VM_STATE e <> REMOVE ->
    wp (d ← VM_ACPI_POWEROFF ops d a; '(_, d) ← set_timer d a (vc_stop_timeout (VM_CONF e)); stop_each ops d vms (n + 1))
       (fun p => Consistent good (s <| s_d := p.2 |>)) tolerated).
  { intros Er. apply wp_bind. eapply wp_mono; [by apply (VM_ACPI_POWEROFF_step ops d a e m) | intros d1 S1 | done].
    apply wp_bind. eapply wp_mono; [apply (set_timer_step d1 a e); by eapply step_lookup | intros [rc d2] (e2 & S2) | done].
    pose proof (step_trans _ _ _ _ _ _ _ S1 S2) as S3. cbn [snd] in S3. pose proof S3 as ([Hh _] & _).
    apply IH; [| intros b Hb; rewrite Hh, (alive_insert _ a e) by done; by apply Hv'].
    change (s <| s_d := d2 |>) with ((s <| s_d := d |>) <| s_d := d2 |>).
    eapply (Consistent_lively good _ a e); [done | done |]. by eapply step_lively; [| exact S3 |]. }
  destruct (VM_STATE e); try (by apply IH); by apply Hstop.
Qed.

Lemma ev_stop_each x B E (vms : list Z) : forall d n,
  EvInv x B E d -> wp (stop_each ops d vms n) (fun p => EvInv x B E p.2) any_fault.
Proof.
  induction vms as [| a vms IH]; intros d n Hd; [by apply wp_ret |]. cbn [stop_each]. apply wp_bind, wp_get_entry_any. intros e He.
  assert (Hstop : wp (d ← VM_ACPI_POWEROFF ops d a; '(_, d) ← set_timer d a (vc_stop_timeout (VM_CONF e)); stop_each ops d vms (n + 1))
       (fun p => EvInv x B E p.2) any_fault).
  { eapply wp_bind_keep; [by apply (ev_acpi_poweroff ops x B E) | intros d1 [H1 Hh]].
    eapply wp_bind_keep; [apply (ev_set_timer x B E); [done | rewrite Hh; by exists e] | intros [rc d2] H2; by apply IH]. }
  destruct (VM_STATE e); try done; by apply IH.
Qed.

Lemma stop_each_inv l :
  LInv nv fuel P (l_f l) ->
  wp (on_daemon (f_s (l_f l)) (fun d => stop_each ops d (d_vm_list d) 0)) (fun p => LInv nv fuel P (l_f l <| f_s := p.2 |>)) tolerated.
Proof.
  intros Hl. pose proof Hl as [Hf _]. set (s := f_s (l_f l)). pose proof (fi_server _ _ Hf) as Hs.
  eapply (wp_mono _ (fun p => Consistent good p.2 /\
    EvInv None (f_list (l_f l)) (fun b => events_of b (d_events (s_d (f_s (l_f l))))) (s_d p.2)) _ tolerated);
    [apply wp_and_fault | intros [n s'] [H1 H2]; by eapply LInv_server | done].
  - unfold on_daemon. apply wp_bind. eapply wp_mono; [apply (stop_each_consistent s) | intros [n d] H; by apply wp_ret | done].
    + unfold s. by destruct (f_s (l_f l)).
    + apply (sf_listed _ _ (co_safe _ _ Hs)).
  - apply ev_on_daemon, ev_stop_each. by eapply li_handling.
Qed.

Abbreviation event := (loop_event k dv ops nmdm_offset nv cs same_ent on_reload_config nvlist_unpack nvlist_pack fuel).

(** What arrives while the daemon waits for its VMs: each may be assumed in its state. *)
Fixpoint arrivals_ok l (ars : list (arrival NV)) : Prop :=
  match ars with
  | [] => True
  | ArEvent x an :: ars' =>
      arrival_ok nv fuel P (l_f l) (ArEvent x an) /\
      forall o half l' o', event l x an o = Done (half, l') o' -> half = false /\ arrivals_ok l' ars'
  | _ :: ars' => arrivals_ok l ars'
  end.

(** Those after the VMs were asked to stop. *)
Definition arrivals_ok_after l (ars : list (arrival NV)) : Prop :=
  forall o n s o', on_daemon (f_s (l_f l)) (fun d => stop_each ops d (d_vm_list d) 0) o = Done (n, s) o' ->
  arrivals_ok (l <| l_f := l_f l <| f_s := s |> |>) ars.

Abbreviation await := (await_ends k dv ops nmdm_offset nv cs same_ent on_reload_config nvlist_unpack nvlist_pack fuel).

Lemma await_inv (ars : list (arrival NV)) : forall l n,
  LInv nv fuel P (l_f l) -> arrivals_ok l ars -> wp (await l n ars) (fun p => LInv nv fuel P (l_f p.2)) tolerated.
Proof.
  induction ars as [| ar ars IH]; intros l n Hl Hok; cbn [await_ends]; (destruct (0 <? n); [| by apply wp_ret]); [by apply wp_ret |].
  destruct ar as [| now | | x an]; [by apply wp_ret | by apply IH | by apply IH |]. destruct Hok as [Hok Hnext].
  pose proof (loop_step_inv k dv ops nmdm_offset nv cs same_ent on_reload_config nvlist_unpack nvlist_pack fuel P on_reload_ok P_install l
                (ArEvent x an) Hl Hok) as Hs.
  destruct Hok as (ev & Hev & <- & _). rewrite find_event; [| apply Hl | done]. cbn zeta. apply wp_bind.
  eapply (wp_mono _ (fun p => (p.1 = true \/ LInv nv fuel P (l_f p.2)) /\ exists o o', event l (ev_addr ev) an o = Done p o') _ tolerated).
  - apply wp_run. intros o. specialize (Hs o). cbn [loop_step] in Hs. unfold mbind, C_bind in Hs.
    destruct (event l (ev_addr ev) an o) as [[half l'] o' | fl]; [| exact Hs]. cbn in Hs |- *. destruct half; [by left | right].
    by destruct Hs.
  - intros [half l'] [H1 (o & o' & Ho)]. destruct (Hnext _ _ _ _ Ho) as [-> Hok']. apply IH; [| done]. by destruct H1.
  - done.
Qed.

(** The VMs of [s0] that are left, each with a configuration of its own; those of the others are freed. *)
Record Leaving s0 (rest : list Z) s : Prop := {
  lv_alive : forall a, is_Some (d_heap (s_d s) !! a) <-> a ∈ rest;
  lv_same : forall a, a ∈ rest -> s_conf s !! a = s_conf s0 !! a;
  lv_gone : forall a c, a ∈ d_vm_list (s_d s0) -> s_conf s0 !! a = Some c -> (a ∉ rest) -> lm_nodes (s_mem s) !! c = None;
  lv_conf : forall a, a ∈ rest -> exists c, s_conf s !! a = Some c /\ is_Some (lm_nodes (s_mem s) !! c);
  lv_inj : forall a b c, a ∈ rest -> b ∈ rest -> s_conf s !! a = Some c -> s_conf s !! b = Some c -> a = b;
}.

Lemma free_leaving s0 a rest s :
  NoDup (a :: rest) -> Leaving s0 (a :: rest) s -> wp (free_vm s a) (Leaving s0 rest) tolerated.
Proof.
  intros [Ha Hnd]%NoDup_cons []. destruct (lv_conf0 a) as (c & Hc & [n Hn]); [by left |].
  destruct (proj2 (lv_alive0 a)) as [e He]; [by left |].
  unfold free_vm, conf_ptr, on_daemon_, free_vm_entry, free_node. rewrite Hc. apply wp_bind, wp_ret.
  apply wp_bind, wp_bind, wp_bind, (wp_get_entry _ _ _ _ _ He), wp_ret, wp_ret.
  apply wp_bind, wp_bind, (wp_get_node _ _ _ _ _ Hn), wp_ret, wp_ret.
  assert (Hne : forall b, b ∈ rest -> b <> a) by (intros b Hb ->; done).
  split; cbn.
  - intros b. rewrite lookup_delete_is_Some, lv_alive0, elem_of_cons. split; [intros [N [-> | H]]; done |].
    intros Hb. split; [intros <-; done | by right].
  - intros b Hb. rewrite lookup_delete_ne by (intros <-; by apply (Hne a)). apply lv_same0. by right.
  - intros b x Hb Hx Hr. destruct (decide (b = a)) as [-> | Nb].
    + rewrite <- lv_same0, Hc in Hx by (by left). injection Hx as <-. apply lookup_delete_eq.
    + apply lookup_delete_None. right. eapply lv_gone0; [exact Hb | exact Hx |]. by intros [-> | ?]%elem_of_cons.
  - intros b Hb. destruct (lv_conf0 b) as (x & H1 & H2); [by right |]. exists x.
    rewrite lookup_delete_ne by (intros <-; by apply (Hne a)). split; [done |]. rewrite lookup_delete_ne; [done |].
    intros <-. apply (Hne b Hb). eapply lv_inj0; [by right | by left | exact H1 | exact Hc].
  - intros b b' x Hb Hb' [_ H1]%lookup_delete_Some [_ H2]%lookup_delete_Some. eapply lv_inj0; [by right | by right | exact H1 | exact H2].
Qed.

Lemma free_all_leaving s0 rest : forall s,
  NoDup rest -> Leaving s0 rest s -> wp (foreach free_vm rest s) (Leaving s0 []) tolerated.
Proof.
  induction rest as [| a rest IH]; intros s Hnd Hs; [by apply wp_ret |]. cbn [foreach]. apply wp_bind.
  eapply wp_mono; [by apply (free_leaving s0 a rest s) | intros s1 H1 | done]. apply IH; [by apply NoDup_cons in Hnd as [_ Hnd] | done].
Qed.

Lemma free_vm_list_safe s :
  Consistent good s ->
  wp (free_vm_list s)
     (fun s' => d_heap (s_d s') = ∅ /\ d_vm_list (s_d s') = [] /\
        forall a c, a ∈ d_vm_list (s_d s) -> s_conf s !! a = Some c -> lm_nodes (s_mem s') !! c = None) tolerated.
Proof.
  intros [[] _ Hinj (L & _ & HV)]. unfold free_vm_list. apply wp_bind.
  eapply wp_mono; [apply (free_all_leaving s); [done |] | intros s' [Ha _ Hg _ _]; apply wp_ret; split; [| split; [done |]] | done].
  - split.
    + intros a. split; [apply sf_alive | apply sf_listed].
    + done.
    + by intros a c Ha _ [].
    + intros a [e He]%sf_listed. destruct (HV a e He) as (c & H1 & H2 & _). by exists c.
    + intros a b c H1%sf_listed H2%sf_listed. by apply Hinj.
  - cbn. apply map_empty. intros a. apply eq_None_not_Some. rewrite Ha. apply not_elem_of_nil.
  - intros a c Hin Hc. apply (Hg a c Hin Hc), not_elem_of_nil.
Qed.

Abbreviation waiting := (stop_server k dv ops nmdm_offset nv cs same_ent on_reload_config nvlist_unpack nvlist_pack fuel).

Lemma stop_server_inv l ars :
  LInv nv fuel P (l_f l) -> arrivals_ok_after l ars -> wp (waiting l ars) (fun p => LInv nv fuel P (l_f p.2)) tolerated.
Proof.
  intros Hl Hok. unfold stop_server. cbn zeta. apply wp_bind.
  eapply wp_mono; [apply wp_run; by apply stop_each_inv | intros [n s] [H1 (o1 & o2 & Ho)] | done].
  apply await_inv; [exact H1 | by eapply Hok].
Qed.

Abbreviation finish := (daemon_end k dv ops nmdm_offset nv cs same_ent on_reload_config nvlist_unpack nvlist_pack fuel).

(** [C11] The daemon ends cleanly.  From every state that the event loop reaches (as in [loop_reachable]) the VMs are asked
    to stop and the daemon waits.  When the wait is over, every VM that was still there is freed with its configuration, nothing is freed
    twice or used after it was freed, and no VM and no event is left.  It is assumed of what arrives during the wait what
    [arrivals_ok] says of each event: [kevent] reports events of the list only, no reload gives up half-way, and neither does a VM end
    that is being removed nor a reload come while there is one, which are
    uses of freed memory in the code.  The methods of the backend must not follow [pl_conf] when it is stale ([BackendLaws]); the remaining faults are those of [tolerated]. *)
Theorem daemon_ends_clean confs sock w o rc l0 o' l ars :
  Forall good confs -> daemon_start k dv ops nmdm_offset confs sock w o = Done (rc, l0) o' -> reach l0 l -> arrivals_ok_after l ars ->
  wp (finish l ars)
     (fun r => forall s, r = Some s ->
        d_heap (s_d s) = ∅ /\ d_vm_list (s_d s) = [] /\ d_events (s_d s) = [] /\
        exists o1 rc1 l1 o2, waiting l ars o1 = Done (rc1, l1) o2 /\ rc1 <> 1 /\
          forall a c, a ∈ d_vm_list (s_d (f_s (l_f l1))) -> s_conf (f_s (l_f l1)) !! a = Some c -> lm_nodes (s_mem s) !! c = None) tolerated.
Proof.
  intros Hc Hs Hr Hok. pose proof (daemon_start_inv confs sock w Hc o) as H0. rewrite Hs in H0.
  assert (Hl : LInv nv fuel P (l_f l)) by (by eapply loop_reachable_inv). unfold daemon_end. apply wp_bind.
  eapply wp_mono; [apply wp_run; by apply stop_server_inv | intros [rc2 l2] [H2 (o1 & o2 & Ho)] | done]. cbn [snd] in H2.
  destruct (Z.eqb_spec rc2 1) as [| Hrc]; [by apply wp_ret |]. apply wp_bind.
  eapply wp_mono; [apply free_vm_list_safe; apply (li_f _ _ _ _ H2) | intros s2 (H3 & H4 & H5); apply wp_ret | done].
  intros ? [= <-]. do 3 (split; [done |]). by exists o1, rc2, l2, o2.
Qed.

(** Every VM of a state that is reached has a configuration of which [P] holds. *)
Lemma reached_granted confs sock w o rc l0 o' l :
  Forall good confs -> daemon_start k dv ops nmdm_offset confs sock w o = Done (rc, l0) o' -> reach l0 l ->
  readable (f_s (l_f l)) /\ forall a e, d_heap (s_d (f_s (l_f l))) !! a = Some e -> P (VM_CONF e).
Proof.
  intros Hc Hs Hr. pose proof (daemon_start_inv confs sock w Hc o) as H0. rewrite Hs in H0.
  assert (Hl : LInv nv fuel P (l_f l)) by (by eapply loop_reachable_inv).
  pose proof (fi_server _ _ (li_f _ _ _ _ Hl)) as Hco. split; [by apply (Consistent_readable good (good_start nv fuel P)) |].
  intros a e He. by destruct (sf_heap _ _ (co_safe _ _ Hco) a e He) as (_ & _ & [_ H]).
Qed.

End theorems.

(** ** Access control over the whole life *)

(** The configuration is not one of [name] that [ucred] may control. *)
Definition not_for (name : string) (ucred : xucred) (c : vm_conf) : Prop := vc_name c = Some name -> check_owner c ucred <> 0.

Section access.
Context {NV W : Type} (k : kernel W) (dv : devices NV W) (ops : vm_method -> vm_ops NV W) (nmdm_offset : Z)
        (nv : libnv NV) {Hnv : LibnvLaws nv} (cs : com_sys W) (same_ent : plugin_desc NV -> plugin_desc NV -> bool)
        (on_reload_config : plugin_desc NV -> NV -> NV -> NV * NV)
        `{Hlaws : forall m, BackendLaws (m_name m) (ops m)}
        (nvlist_unpack : list ascii -> option NV) (nvlist_pack : response -> option (list ascii)) (fuel : nat).
Hypothesis on_reload_ok : forall d a b, plugin_ok nv fuel a -> plugin_ok nv fuel b ->
  plugin_ok nv fuel (on_reload_config d a b).1 /\ plugin_ok nv fuel (on_reload_config d a b).2.

Abbreviation good P := (granted nv fuel P).

(** The start reads configurations and makes VMs of them. *)
Lemma held_load_list P confs (w : W) :
  Forall (good P) confs -> wp (load_list (boot_state w) confs) (all_held (good P)) any_fault.
Proof.
  induction confs as [| ce confs IH]; intros Hc.
  { apply wp_ret. split; [intros a e | intros a n]; cbn; by rewrite lookup_empty. }
  apply Forall_cons in Hc as [Hce Hc]. cbn [load_list]. eapply wp_bind_keep; [by apply IH | intros s [H1 H2]]. cbn zeta.
  eapply wp_bind_keep; [by apply values_insert, values_put | intros mem H3; by apply wp_ret].
Qed.

Lemma held_start_each P cl : forall s,
  all_held (good P) s -> wp (start_each k dv ops nmdm_offset s cl) (fun p => all_held (good P) p.2) any_fault.
Proof.
  induction cl as [| c cl IH]; intros s Hs; [by apply wp_ret |]. cbn [start_each]. pose proof Hs as [Hd Hm].
  apply wp_bind, (values_get (good P)); [done |]. intros n _ Hn.
  eapply wp_bind_keep; [apply all_on_daemon; [done | by apply held_create] | intros [[a |] s1] K1]; [| by apply wp_ret]. cbn zeta.
  set (s2 := s1 <| s_conf := _ |>). assert (K2 : all_held (good P) s2) by exact K1.
  eapply (wp_bind_keep _ _ (fun p => all_held (good P) p.2)); [| intros [rc s3] K3; by apply IH].
  repeat case_match; [by apply wp_ret | by apply all_timer | apply (all_start k dv ops nmdm_offset (good P) (good_start nv fuel P)); done].
Qed.

Lemma held_daemon_start P confs sock w :
  Forall (good P) confs ->
  wp (daemon_start k dv ops nmdm_offset confs sock w) (fun p => all_held (good P) (f_s (l_f p.2))) any_fault.
Proof.
  intros Hc. unfold daemon_start, start_server. eapply wp_bind_keep; [by apply held_load_list | intros s Hs].
  eapply (wp_bind_keep _ _ (fun p => all_held (good P) p.2)); [| intros [rc s1] H1].
  { eapply wp_bind_keep; [apply all_on_daemon, held_register; [done | apply Hs] | intros [rc s1] H1].
    case_match; [by apply wp_ret | by apply held_start_each]. }
  cbn zeta. case_match; [by apply wp_ret |]. unfold wait_for_cmd_sock.
  eapply (wp_bind_keep _ _ (fun p => all_held (good P) (f_s p.2))); [| intros [rc2 f2] H2; by apply wp_ret].
  eapply wp_bind_keep; [apply all_on_daemon, held_register0; [done | apply H1] | intros [rc2 s2] H2; by apply wp_ret].
Qed.

Abbreviation any_run P := (loop_any k dv ops nmdm_offset nv cs same_ent on_reload_config fuel (good P) nvlist_unpack nvlist_pack).

(** [C4] Access control holds over the whole life of the daemon.  When neither a
    configuration that the daemon starts with nor one that a reload or the boot of a VM reads later lets a user control a VM
    of some name, then, whatever events and requests came before, a command of this user that names
    the VM and returns has answered "VM not found" and has changed nothing.  Nothing is left out: the runs include reloads while a VM is removed, boots after
    the files have changed, and what follows a reload that gave up, as far as they go on; where the daemon
    uses freed memory, its run ends in the model.  In the states of [loop_reachable],
    which leave these cases out, the command does return. *)
Theorem stranger_never_controls name ucred confs sock w o1 rc l0 o2 l req news cmd f :
  Forall (good (not_for name ucred)) confs ->
  daemon_start k dv ops nmdm_offset confs sock w o1 = Done (rc, l0) o2 -> any_run (not_for name ucred) l0 l ->
  nv_get_string nv req "name" = name -> (cmd, f) ∈ command_list k dv ops nmdm_offset nv cs fuel -> cmd <> "list" ->
  wp (f (f_s (l_f l)) req ucred news) (fun p => p = (verdict (Some "VM not found"), f_s (l_f l))) any_fault /\
  (loop_reachable k dv ops nmdm_offset nv cs same_ent on_reload_config nvlist_unpack nvlist_pack fuel (not_for name ucred) l0 l ->
   nv_exists_type nv req "name" NV_TYPE_STRING = true ->
   forall o, f (f_s (l_f l)) req ucred news o = Done (verdict (Some "VM not found"), f_s (l_f l)) o).
Proof.
  intros Hc Hs Hr Hn Hf Hl. set (P := not_for name ucred). pose proof (held_daemon_start P confs sock w Hc o1) as H0. rewrite Hs in H0.
  assert (HP : forall c b, P c -> P (c <| vc_install := b |>)) by (intros c b H; exact H).
  split.
  - eapply (command_none k dv ops nmdm_offset nv cs fuel); [| exact Hf | exact Hl]. intros a e He. rewrite Hn.
    refine (proj2 (proj1 (loop_any_held k dv ops nmdm_offset nv cs same_ent on_reload_config fuel (good P) (good_start nv fuel P) _ _
              nvlist_unpack nvlist_pack l0 l H0 Hr) a e He)).
    + intros b ce [([m Hm] & Hx & Hp) Hpp]. split; [split; [by exists m | done] | exact Hpp].
    + intros x y pn po. by apply granted_copy.
  - intros Hreach Hx o.
    destruct (reached_granted k dv ops nmdm_offset nv cs same_ent on_reload_config nvlist_unpack nvlist_pack fuel
                P on_reload_ok HP confs sock w o1 rc l0 o2 l Hc Hs Hreach) as [Hrd Hp].
    apply (refused_answer k dv ops nmdm_offset nv cs fuel _ req ucred news cmd); try done.
    intros a e _ He. rewrite Hn. by apply (Hp a e).
Qed.

End access.

(** ** A small daemon *)

Definition demo_answers (status : wait_status) : reactions unit := {|
  an_reply := {| an_status := status; an_size := 0; an_fatal := false |}; an_now := 1000; an_conn := 9; an_cred := Some root_peer;
  an_recv := RError; an_send := SError; an_news := None; an_calls := [] |}.

Definition demo_life (confs : list (vm_conf_entry unit)) : loop unit Z :=
  match daemon_start demo_kernel demo_devices demo_ops 0 confs 7 100 [] with
  | Done (_, l) _ => l
  | Crash _ => {| l_f := demo_idle; l_sigterm := 1 |}
  end.

Abbreviation demo_step := (loop_step demo_kernel demo_devices demo_ops 0 demo_libnv demo_com (fun _ _ => true) (fun _ x y => (x, y))
  (fun _ => Some tt) demo_pack 1).

(** A user who is neither the owner of the VM nor in its group. *)
Abbreviation demo_grant := (not_for "one" stranger).

Lemma demo_grant_install c b : demo_grant c -> demo_grant (c <| vc_install := b |>).
Proof. done. Qed.

Lemma demo_one_good : Forall (granted demo_libnv 1 demo_grant) [demo_vm "one"].
Proof. apply Forall_cons. split; [| by apply Forall_nil]. split; [apply demo_reloadable | done]. Qed.

(** Its events tell a signal and the end of the process. *)
Definition demo_signal : event := {| ev_addr := 1; ev_type := EVENT; ev_cb := CbOther 0; ev_data := None;
  ev_kev := {| k_ident := 15; k_filter := EVFILT_SIGNAL; k_flags := EV_ADD; k_data := 0 |} |}.

Definition demo_exit : event := {| ev_addr := 5; ev_type := EVENT; ev_cb := CbVmExit; ev_data := Some 4;
  ev_kev := {| k_ident := 106; k_filter := EVFILT_PROC; k_flags := Z.lor EV_ADD EV_ONESHOT; k_data := 0 |} |}.

Lemma demo_events ev : ev = demo_signal \/ ev = demo_exit -> ev ∈ d_events (s_d (f_s (l_f (demo_life [demo_vm "one"])))).
Proof.
  intros [-> | ->]; apply list_elem_of_lookup; [exists 6%nat | exists 3%nat]; vm_compute; reflexivity.
Qed.

Lemma demo_started :
  daemon_start demo_kernel demo_devices demo_ops 0 [demo_vm "one"] 7 100 [] = Done (0, demo_life [demo_vm "one"]) [].
Proof. vm_compute. reflexivity. Qed.

Lemma demo_arrival : arrival_ok demo_libnv 1 demo_grant (l_f (demo_life [demo_vm "one"])) (ArEvent 5 (demo_answers (WExited 0))).
Proof.
  exists demo_exit. split; [apply demo_events; by right | split; [reflexivity |]].
  intros e He. vm_compute in He. injection He as <-. done.
Qed.

Lemma demo_reload_ok (d : plugin_desc unit) a b :
  plugin_ok demo_libnv 1 a -> plugin_ok demo_libnv 1 b -> plugin_ok demo_libnv 1 (a, b).1 /\ plugin_ok demo_libnv 1 (a, b).2.
Proof. done. Qed.

(** VM "one" runs and its process ends. *)
Lemma daemon_safe_witness :
  wp (demo_step (demo_life [demo_vm "one"]) (ArEvent 5 (demo_answers (WExited 0))))
     (fun p => p.1 = HalfReloaded \/ LInv demo_libnv 1 demo_grant (l_f p.2)) tolerated.
Proof.
  exact (daemon_safe demo_kernel demo_devices demo_ops 0 demo_libnv demo_com (fun _ _ => true) (fun _ x y => (x, y))
           (fun _ => Some tt) demo_pack 1 demo_grant demo_reload_ok demo_grant_install [demo_vm "one"] 7 100 [] 0 (demo_life [demo_vm "one"]) []
           (demo_life [demo_vm "one"]) (ArEvent 5 (demo_answers (WExited 0))) demo_one_good demo_started (reach_start _ _ _ _ _ _ _ _ _ _ _ _ _)
           demo_arrival).
Defined.




(** A daemon whose VM is off ends at once. *)
Lemma demo_off_good : Forall (granted demo_libnv 1 demo_grant) [demo_off_vm].
Proof. apply Forall_cons. split; [| by apply Forall_nil]. split; [apply reloadable_boot, demo_reloadable | done]. Qed.

Lemma demo_off_started :
  daemon_start demo_kernel demo_devices demo_ops 0 [demo_off_vm] 7 100 [] = Done (0, demo_life [demo_off_vm]) [].
Proof. vm_compute. reflexivity. Qed.

Definition demo_rest : option (server unit Z) :=
  match daemon_end demo_kernel demo_devices demo_ops 0 demo_libnv demo_com (fun _ _ => true) (fun _ x y => (x, y)) (fun _ => Some tt)
          demo_pack 1 (demo_life [demo_off_vm]) [] [] with
  | Done r _ => r
  | Crash _ => None
  end.

Lemma demo_end_run :
  daemon_end demo_kernel demo_devices demo_ops 0 demo_libnv demo_com (fun _ _ => true) (fun _ x y => (x, y)) (fun _ => Some tt)
    demo_pack 1 (demo_life [demo_off_vm]) [] [] = Done demo_rest [] /\ is_Some demo_rest.
Proof. split; [vm_compute; reflexivity |]. vm_compute. by eexists. Qed.

Lemma daemon_ends_clean_witness :
  is_Some demo_rest /\
  forall s, demo_rest = Some s -> d_heap (s_d s) = ∅ /\ d_vm_list (s_d s) = [] /\ d_events (s_d s) = [] /\
    exists o1 rc1 l1 o2,
      stop_server demo_kernel demo_devices demo_ops 0 demo_libnv demo_com (fun _ _ => true) (fun _ x y => (x, y)) (fun _ => Some tt)
        demo_pack 1 (demo_life [demo_off_vm]) [] o1 = Done (rc1, l1) o2 /\ rc1 <> 1 /\
      forall a c, a ∈ d_vm_list (s_d (f_s (l_f l1))) -> s_conf (f_s (l_f l1)) !! a = Some c -> lm_nodes (s_mem s) !! c = None.
Proof.
  split; [apply demo_end_run |].
  exact (wp_done _ _ _ _ _ _
           (daemon_ends_clean demo_kernel demo_devices demo_ops 0 demo_libnv demo_com (fun _ _ => true) (fun _ x y => (x, y))
              (fun _ => Some tt) demo_pack 1 demo_grant demo_reload_ok demo_grant_install [demo_off_vm] 7 100 [] 0 (demo_life [demo_off_vm]) []
              (demo_life [demo_off_vm]) [] demo_off_good demo_off_started (reach_start _ _ _ _ _ _ _ _ _ _ _ _ _) (fun _ _ _ _ _ => I))
           (proj1 demo_end_run)).
Defined.

(** ** A stranger *)

(** Lists with one entry, the name of the VM. *)
Definition demo_named : libnv unit := {|
  nv_next := fun _ => [("name", NV_TYPE_STRING)]; nv_error := fun _ => 0;
  nv_exists_type := fun _ key t => bool_decide (key = "name") && (t =? NV_TYPE_STRING);
  nv_get_bool := fun _ _ => false; nv_get_number := fun _ _ => 0; nv_get_string := fun _ _ => "one";
  nv_get_nvlist := fun _ _ => tt; nv_get_descriptor := fun _ _ => 0; nv_get_binary := fun _ _ => "";
  nv_get_bool_array := fun _ _ => []; nv_get_number_array := fun _ _ => []; nv_get_string_array := fun _ _ => [];
  nv_get_nvlist_array := fun _ _ => []; nv_get_descriptor_array := fun _ _ => [] |}.

#[export] Instance demo_named_laws : LibnvLaws demo_named.
Proof.
  refine {| nv_depth := fun _ => 0%nat |}.
  - intros a k t. cbn. rewrite andb_true_iff, bool_decide_eq_true, Z.eqb_eq. split; [intros [-> ->]; by left |].
    by intros [[= <- <-] | []].
  - intros a k t [[= <- <-] | []]. done.
  - intros a k t x [[= <- <-] | []] Hx. done.
  - done.
Defined.

Lemma demo_named_good name : granted demo_named 1 demo_grant (demo_vm name).
Proof.
  destruct (demo_reloadable name) as (H1 & H2 & _). split; [split; [done | split; [done |]]; repeat constructor |].
  intros [= ->]. done.
Qed.

Abbreviation demo_named_step := (loop_step demo_kernel demo_devices demo_ops 0 demo_named demo_com (fun _ _ => true) (fun _ x y => (x, y))
  (fun _ => Some tt) demo_pack 1).

(** A reload that adds a VM "two" and gives up, because there is no memory for it. *)
Definition demo_reload : arrival unit :=
  ArEvent 3 {| an_reply := {| an_status := WExited 0; an_size := 0; an_fatal := false |}; an_now := 1000; an_conn := 9; an_cred := Some root_peer;
               an_recv := RError; an_send := SError; an_news := Some [demo_vm "two"]; an_calls := [] |}.

Definition demo_half : turn * loop unit Z :=
  match demo_named_step (demo_life [demo_vm "one"]) demo_reload [false] with
  | Done p _ => p
  | Crash _ => (Again, demo_life [])
  end.

(** The state after the process of the VM has ended, too. *)
Definition demo_later : turn * loop unit Z :=
  match demo_named_step demo_half.2 (ArEvent 5 (demo_answers (WExited 0))) [] with
  | Done p _ => p
  | Crash _ => (Return (-1), demo_life [])
  end.

Example demo_turns : (demo_half.1, demo_later.1) = (HalfReloaded, Again).
Proof. vm_compute. reflexivity. Qed.

Lemma demo_reached :
  loop_any demo_kernel demo_devices demo_ops 0 demo_named demo_com (fun _ _ => true) (fun _ x y => (x, y)) 1
    (granted demo_named 1 demo_grant) (fun _ => Some tt) demo_pack (demo_life [demo_vm "one"]) demo_later.2.
Proof.
  apply (any_step _ _ _ _ _ _ _ _ _ _ _ _ _ demo_half.2 (ArEvent 5 (demo_answers (WExited 0))) [] demo_later.1 _ []);
    [| by intros news | vm_compute; reflexivity].
  apply (any_step _ _ _ _ _ _ _ _ _ _ _ _ _ (demo_life [demo_vm "one"]) demo_reload [false] demo_half.1 _ []);
    [apply any_start | | vm_compute; reflexivity].
  intros news [= <-]. apply Forall_singleton, demo_named_good.
Qed.

(** After the reload and the end of the VM, a stranger still cannot switch it off. *)
Lemma stranger_never_controls_witness :
  poweroff_command demo_ops demo_named (f_s (l_f demo_later.2)) tt stranger None [] =
  Done (verdict (Some "VM not found"), f_s (l_f demo_later.2)) [].
Proof.
  assert (Hr : exists r, poweroff_command demo_ops demo_named (f_s (l_f demo_later.2)) tt stranger None [] = Done r []) by (eexists; vm_compute; reflexivity).
  destruct Hr as [r Hr].
  destruct (stranger_never_controls demo_kernel demo_devices demo_ops 0 demo_named demo_com (fun _ _ => true) (fun _ x y => (x, y))
              (fun _ => Some tt) demo_pack 1 (fun _ _ _ H1 H2 => conj H1 H2) "one" stranger [demo_vm "one"] 7 100 [] 0
              (demo_life [demo_vm "one"]) [] demo_later.2 tt None "poweroff" (poweroff_command demo_ops demo_named)) as [H _].
  - apply Forall_singleton, demo_named_good.
  - exact demo_started.
  - exact demo_reached.
  - reflexivity.
  - unfold command_list. rewrite !elem_of_cons. tauto.
  - done.
  - specialize (H []). rewrite Hr in H. by rewrite Hr, H.
Defined.
