(* ===== verification/ErrLog.v ===== *)
(** * Opening the log file of a VM (src/bmd.c 251-417)

    The log file of a VM belongs to its owner, so the daemon does not open it itself: a child process takes the
    identity of the owner, opens the file and passes the descriptor back through a pair of sockets.  The two
    processes run side by side: the child sends the descriptor and waits for an
    acknowledgement before it ends, the parent receives, acknowledges and waits for the child.

    Each process is a function from the state of both to the next state, [None] while it has to
    wait; an execution is any interleaving of their steps.  What the system answers is the record
    [log_sys].  Interrupted calls are repeated by the code and have no step of their own.  Opening
    takes no time here: a file that blocks its opener, such as a FIFO, blocks child and parent.

    The child changes its user and its group and nothing else: the supplementary groups of the daemon stay. *)

From S2P Require Import Prelude CString Vars Conf ParseValue.

Local Open Scope Z_scope.

(** ** Data *)

Definition GID_NOBODY : Z := 65534.

(** Who a process runs as: its user, its group and its supplementary groups. *)
Record creds := { cr_u : Z; cr_g : Z; cr_groups : list Z }.

(** [ls_groups] are the supplementary groups of the daemon; [ls_cmsg_ok] is false when the control message does not arrive with its message. *)
Record log_sys := {
  ls_groups : list Z;
  ls_getpwuid : Z -> option passwd;
  ls_setgid_ok : bool;
  ls_setuid_ok : bool;
  ls_open : creds -> string -> Z;
  ls_regular : Z -> bool;
  ls_send_calloc : bool;
  ls_sendmsg_ok : bool;
  ls_recv_calloc : bool;
  ls_recvmsg_ok : bool;
  ls_cmsg_ok : bool;
  ls_ack_ok : bool;
}.

(** What the child is about to do. *)
Inductive child_state :=
  | ChOpen
  | ChSend (fd : Z)
  | ChAck
  | ChExit.

(** What the parent is about to do. *)
Inductive parent_state :=
  | PaRecv
  | PaAck (fd : Z)
  | PaWait (fd : Z)
  | PaDone (fd : Z)
  | PaFault.                          (* a NULL pointer was followed *)

(** The sockets: [Some fd] is a message with a descriptor, [None] one that tells that there is none. *)
Record log_state := {
  lo_child : child_state;
  lo_parent : parent_state;
  lo_msgs : list (option Z);
  lo_acks : nat;
}.

#[export] Instance eta_log_state : Eta log_state := fun st =>
  {| lo_child := lo_child st; lo_parent := lo_parent st; lo_msgs := lo_msgs st; lo_acks := lo_acks st |}.

Section log.
Context (sys : log_sys) (conf : vm_conf) (path : string).
Implicit Types (st : log_state).

(** *** The child *)

(** The group of the VM, or the one that the owner has. *)
Definition log_group : Z :=
  if vc_group conf =? -1
  then match ls_getpwuid sys (to_uint (vc_owner conf)) with Some pwd => pw_gid pwd | None => GID_NOBODY end
  else vc_group conf.

(** The daemon runs as root. *)
Definition root_creds : creds := {| cr_u := 0; cr_g := 0; cr_groups := ls_groups sys |}.

(** The results of [setgid] and [setuid] are not looked at, and nobody calls [setgroups]. *)
Definition drop_privileges (c : creds) : creds :=
  if 0 <? vc_owner conf then
    {| cr_u := if ls_setuid_ok sys then to_uint (vc_owner conf) else cr_u c;
       cr_g := if ls_setgid_ok sys then to_uint log_group else cr_g c;
       cr_groups := cr_groups c |}
  else c.

(** Only a regular file is passed on. *)
Definition open_log : Z :=
  let fd := ls_open sys (drop_privileges root_creds) path in
  if (0 <=? fd) && negb (ls_regular sys fd) then -1 else fd.

(** What [send_fd] puts into the socket. *)
Definition send_fd (fd : Z) : list (option Z) :=
  if fd <? 0 then (if ls_sendmsg_ok sys then [None] else [])
  else if ls_send_calloc sys && ls_sendmsg_ok sys then [Some fd] else [].

(** It returns when there is an acknowledgement. *)
Definition recv_ack (acks : nat) : option nat := match acks with O => None | S n => Some n end.

Definition child_step st : option log_state :=
  match lo_child st with
  | ChOpen => Some (st <| lo_child := ChSend open_log |>)
  | ChSend fd => Some (st <| lo_child := ChAck |> <| lo_msgs := lo_msgs st ++ send_fd fd |>)
  | ChAck => match recv_ack (lo_acks st) with
             | None => None
             | Some n => Some (st <| lo_child := ChExit |> <| lo_acks := n |>)
             end
  | ChExit => None
  end.

(** *** The parent *)

(** It can receive at all: there is memory for the control message, and [recvmsg] does not fail. *)
Definition can_recv : bool := ls_recv_calloc sys && ls_recvmsg_ok sys.

(** How [recv_fd] ends, if it does not wait: with a descriptor, or by following the NULL that [CMSG_FIRSTHDR] gives for no control message. *)
Inductive recv_end :=
  | RvWait
  | RvFault
  | RvFd (fd : Z) (ms : list (option Z)).

(** [recv_fd]: the descriptor of the message, -1 when there is none, on failure, or when the child has closed its socket; it waits otherwise. *)
Definition recv_fd st : recv_end :=
  if negb can_recv then RvFd (-1) (lo_msgs st)
  else match lo_msgs st with
       | Some fd :: ms => if ls_cmsg_ok sys then RvFd fd ms else RvFault
       | None :: ms => RvFd (-1) ms
       | [] => match lo_child st with ChExit => RvFd (-1) [] | _ => RvWait end
       end.

Definition send_ack (acks : nat) : nat := if ls_ack_ok sys then S acks else acks.

Definition parent_step st : option log_state :=
  match lo_parent st with
  | PaRecv => match recv_fd st with
              | RvFd fd ms => Some (st <| lo_parent := PaAck fd |> <| lo_msgs := ms |>)
              | RvFault => Some (st <| lo_parent := PaFault |>)
              | RvWait => None
              end
  | PaAck fd => Some (st <| lo_parent := PaWait fd |> <| lo_acks := send_ack (lo_acks st) |>)
  | PaWait fd => match lo_child st with
                 | ChExit => Some (st <| lo_parent := PaDone fd |>)
                 | _ => None
                 end
  | PaDone _ | PaFault => None
  end.

(** ** Executions *)

Definition log_start : log_state := {| lo_child := ChOpen; lo_parent := PaRecv; lo_msgs := []; lo_acks := 0 |}.

Definition log_step st st' : Prop := child_step st = Some st' \/ parent_step st = Some st'.

(** Any interleaving: [true] is a step of the child; a process that has to wait does not move. *)
Fixpoint log_run (sched : list bool) st : log_state :=
  match sched with
  | [] => st
  | who :: sched' => log_run sched' (default st (if who then child_step st else parent_step st))
  end.

(** What [open_err_logfile] returns when it returns. *)
Definition log_result st : option Z := match lo_parent st with PaDone fd => Some fd | _ => None end.

End log.

(** [open_err_logfile]; [pair] and [fork] tell whether there are sockets and a child.  [None] when it never returns. *)
Definition open_err_logfile (sys : log_sys) (pair fork : bool) (conf : vm_conf) (path : string) : option Z :=
  if negb pair || negb fork then Some (-1)
  else log_result (log_run sys conf path (concat (replicate 4 [true; false])) log_start).

(** ** Theorems *)

Section theorems.
Context (sys : log_sys) (conf : vm_conf) (path : string).
Implicit Types (st : log_state).

Abbreviation run := (log_run sys conf path).
Abbreviation logfd := (open_log sys conf path).

(** An invariant of both processes is one of every execution. *)
Lemma log_run_inv (P : log_state -> Prop) sched st :
  (forall st st', P st -> log_step sys conf path st st' -> P st') -> P st -> P (run sched st).
Proof.
  intros Hstep. revert st. induction sched as [| who sched IH]; intros st Hst; [done |]. cbn. apply IH.
  destruct who.
  - destruct (child_step sys conf path st) eqn:E; [| done]. eapply Hstep; [done | by left].
  - destruct (parent_step sys st) eqn:E; [| done]. eapply Hstep; [done | by right].
Qed.

(** No process has any other descriptor. *)
Definition descriptor_ok (fd : Z) : Prop := fd = -1 \/ 0 <= fd /\ fd = logfd.

Record log_safe st : Prop := {
  sa_child : forall fd, lo_child st = ChSend fd -> fd = logfd;
  sa_parent : forall fd, lo_parent st = PaAck fd \/ lo_parent st = PaWait fd \/ lo_parent st = PaDone fd -> descriptor_ok fd;
  sa_msgs : forall fd, Some fd ∈ lo_msgs st -> 0 <= fd /\ fd = logfd;
}.

Lemma send_fd_ok fd x : Some x ∈ send_fd sys fd -> 0 <= x /\ x = fd.
Proof.
  unfold send_fd. repeat case_match; rewrite ?elem_of_nil, ?list_elem_of_singleton; try done. intros [= ->]. lia.
Qed.

Lemma log_safe_step st st' : log_safe st -> log_step sys conf path st st' -> log_safe st'.
Proof.
  intros [] [Hc | Hp].
  - unfold child_step in Hc. destruct (lo_child st) as [| fd | |] eqn:E; [| | unfold recv_ack in Hc; destruct (lo_acks st); [done |] | done];
      injection Hc as <-; split; cbn; try done.
    + by intros fd [= <-].
    + intros x [Hx | Hx]%elem_of_app; [by apply sa_msgs0 |]. apply send_fd_ok in Hx as [H1 ->]. by rewrite <- (sa_child0 fd).
  - unfold parent_step in Hp. destruct (lo_parent st) as [| fd | fd | fd |] eqn:E; [| | destruct (lo_child st) eqn:Ec | done | done]; try done.
    + destruct (recv_fd sys st) as [| | fd ms] eqn:Er; [done | injection Hp as <-; by split; cbn; [| intros x [? | [? | ?]] |] |].
      injection Hp as <-. unfold recv_fd in Er.
      assert (Hfd : descriptor_ok fd /\ forall x, Some x ∈ ms -> Some x ∈ lo_msgs st).
      { destruct (negb _); [injection Er as <- <-; split; [by left | done] |].
        destruct (lo_msgs st) as [| [y |] l]; [destruct (lo_child st) | destruct (ls_cmsg_ok sys) |]; try done; injection Er as <- <-.
        - split; [by left | done].
        - split; [right; apply sa_msgs0; by left | intros x Hx; by right].
        - split; [by left | intros x Hx; by right]. }
      destruct Hfd as [H1 H2]. split; cbn; [done | | intros x Hx; by apply sa_msgs0, H2].
      intros x [[= <-] | [? | ?]]; done.
    + injection Hp as <-. split; cbn; try done. intros x [? | [[= <-] | ?]]; try done. apply sa_parent0. by left.
    + injection Hp as <-. split; cbn; [by rewrite Ec | | done]. intros x [? | [? | [= <-]]]; try done. apply sa_parent0. by right; left.
Qed.

Lemma log_start_safe : log_safe log_start.
Proof. split; cbn; [done | by intros fd [? | [? | ?]] | intros fd Hx; by apply elem_of_nil in Hx]. Qed.

(** [C13] Who a log file is opened as, for a VM that does not belong to root.  Whatever the order in which the two processes
    run and whatever fails, the descriptor that [open_err_logfile] returns, if any, is one of a regular
    file that was opened as the VM's owner and with the VM's group, or the owner's group when the VM has none; provided that [setuid] and
    [setgid] succeed, which the code does not verify.  The supplementary groups are those of the daemon, however: the code drops
    none of them, so the file may be one that the owner could not have opened ([log_of_operator]). *)
Theorem err_log_as_owner sched fd :
  0 < vc_owner conf -> is_uint (vc_owner conf) -> is_uint (log_group sys conf) ->
  ls_setuid_ok sys = true -> ls_setgid_ok sys = true ->
  log_result (run sched log_start) = Some fd -> 0 <= fd ->
  ls_regular sys fd = true /\
  fd = ls_open sys {| cr_u := vc_owner conf; cr_g := log_group sys conf; cr_groups := ls_groups sys |} path.
Proof.
  intros Ho Hou Hgu Hu Hg Hr Hfd. pose proof (log_run_inv log_safe sched log_start log_safe_step log_start_safe) as [_ Hp _].
  unfold log_result in Hr. destruct (lo_parent _) as [| | | x |] eqn:E; try done. injection Hr as ->.
  destruct (Hp fd) as [-> | [_ Hl]]; [by right; right | lia |]. revert Hl Hfd. unfold open_log, drop_privileges.
  replace (0 <? vc_owner conf) with true by lia. unfold to_uint, wrap_u. rewrite !Z.mod_small by done. rewrite Hu, Hg. cbn [root_creds cr_groups].
  cbn zeta. destruct (ls_regular sys (ls_open _ _ _)) eqn:Er; [| destruct (0 <=? _) eqn:El; cbn; lia].
  rewrite andb_false_r. intros -> _. done.
Qed.

(** A message without its control message ends the daemon. *)
Lemma no_cmsg_faults st fd ms :
  can_recv sys = true -> ls_cmsg_ok sys = false -> lo_parent st = PaRecv -> lo_msgs st = Some fd :: ms ->
  parent_step sys st = Some (st <| lo_parent := PaFault |>).
Proof. intros Hr Hc Hp Hm. unfold parent_step, recv_fd. by rewrite Hp, Hr, Hm, Hc. Qed.

(** *** Both processes come to an end *)

(** Messages, with their control messages, and acknowledgements get through. *)
Definition all_sent : Prop := ls_send_calloc sys = true /\ ls_sendmsg_ok sys = true /\ ls_cmsg_ok sys = true /\ ls_ack_ok sys = true.

Definition message : option Z := if logfd <? 0 then None else Some logfd.

Definition received_fd : Z := if can_recv sys then (if logfd <? 0 then -1 else logfd) else -1.

(** The states of both processes: the parent waits for the message, or has given up before; afterwards it acknowledges once. *)
Inductive on_course : log_state -> Prop :=
  | oc_open : on_course {| lo_child := ChOpen; lo_parent := PaRecv; lo_msgs := []; lo_acks := 0 |}
  | oc_send : on_course {| lo_child := ChSend logfd; lo_parent := PaRecv; lo_msgs := []; lo_acks := 0 |}
  | oc_sent : on_course {| lo_child := ChAck; lo_parent := PaRecv; lo_msgs := [message]; lo_acks := 0 |}
  | oc_early c m p a :
      can_recv sys = false -> c = ChOpen /\ m = [] \/ c = ChSend logfd /\ m = [] \/ c = ChAck /\ m = [message] ->
      p = PaAck (-1) /\ a = O \/ p = PaWait (-1) /\ a = 1%nat ->
      on_course {| lo_child := c; lo_parent := p; lo_msgs := m; lo_acks := a |}
  | oc_recv m p a :
      p = PaAck received_fd /\ a = O \/ p = PaWait received_fd /\ a = 1%nat ->
      on_course {| lo_child := ChAck; lo_parent := p; lo_msgs := m; lo_acks := a |}
  | oc_exit m : on_course {| lo_child := ChExit; lo_parent := PaWait received_fd; lo_msgs := m; lo_acks := 0 |}
  | oc_done m : on_course {| lo_child := ChExit; lo_parent := PaDone received_fd; lo_msgs := m; lo_acks := 0 |}.

Lemma send_message : all_sent -> send_fd sys logfd = [message].
Proof. intros (H1 & H2 & _). unfold send_fd, message. rewrite H1, H2. by destruct (logfd <? 0). Qed.

(** The early parent has given up. *)
Lemma received_early : can_recv sys = false -> received_fd = -1.
Proof. intros H. unfold received_fd. by rewrite H. Qed.

Lemma recv_message :
  ls_cmsg_ok sys = true ->
  recv_fd sys {| lo_child := ChAck; lo_parent := PaRecv; lo_msgs := [message]; lo_acks := 0 |} =
  RvFd received_fd (if can_recv sys then [] else [message]).
Proof. intros Hc. unfold recv_fd, message, received_fd. rewrite Hc. cbn. destruct (can_recv sys), (logfd <? 0); reflexivity. Qed.

Lemma on_course_child st st' : all_sent -> on_course st -> child_step sys conf path st = Some st' -> on_course st'.
Proof.
  intros Hh Hst Hs. pose proof (send_message Hh) as Hm.
  destruct Hst as [| | | c m p a Hc Hcm Hp | m p a Hp | m | m]; cbn in Hs; try done.
  - injection Hs as <-. apply oc_send.
  - injection Hs as <-. cbn. rewrite Hm. apply oc_sent.
  - destruct Hcm as [[-> ->] | [[-> ->] | [-> ->]]]; cbn in Hs.
    + injection Hs as <-. apply oc_early; [done | by right; left | done].
    + injection Hs as <-. cbn. rewrite Hm. apply oc_early; [done | by right; right | done].
    + destruct Hp as [[-> ->] | [-> ->]]; cbn in Hs; [done |]. injection Hs as <-. rewrite <- received_early by done. apply oc_exit.
  - destruct Hp as [[-> ->] | [-> ->]]; cbn in Hs; [done |]. injection Hs as <-. apply oc_exit.
Qed.

Lemma on_course_parent st st' : all_sent -> on_course st -> parent_step sys st = Some st' -> on_course st'.
Proof.
  intros (_ & _ & Hc' & Ha) Hst Hs.
  destruct Hst as [| | | c m p a Hc Hcm Hp | m p a Hp | m | m]; unfold parent_step in Hs; cbn -[recv_fd] in Hs; try done.
  - unfold recv_fd in Hs. cbn in Hs. destruct (can_recv sys) eqn:Er; [done |]. injection Hs as <-. apply oc_early; auto.
  - unfold recv_fd in Hs. cbn in Hs. destruct (can_recv sys) eqn:Er; [done |]. injection Hs as <-. apply oc_early; auto.
  - rewrite recv_message in Hs by done. injection Hs as <-. apply oc_recv. by left.
  - destruct Hp as [[-> ->] | [-> ->]]; cbn in Hs.
    + unfold send_ack in Hs. rewrite Ha in Hs. injection Hs as <-. apply oc_early; auto.
    + destruct Hcm as [[-> ->] | [[-> ->] | [-> ->]]]; done.
  - destruct Hp as [[-> ->] | [-> ->]]; cbn in Hs; [| done]. unfold send_ack in Hs. rewrite Ha in Hs. injection Hs as <-. apply oc_recv. by right.
  - injection Hs as <-. apply oc_done.
Qed.

(** From every such state both processes end. *)
Lemma on_course_ends st :
  all_sent -> on_course st -> log_result (run (concat (replicate 4 [true; false])) st) = Some received_fd.
Proof.
  intros Hh Hst. pose proof (send_message Hh) as Hm. destruct Hh as (_ & _ & Hc' & Ha). unfold message, received_fd in *.
  destruct Hst as [| | | c m p a Hc Hcm Hp | m p a Hp | m | m];
    try (destruct Hcm as [[-> ->] | [[-> ->] | [-> ->]]]); try (destruct Hp as [[-> ->] | [-> ->]]);
    unfold message, received_fd; destruct (can_recv sys) eqn:Er; try discriminate Hc;
    destruct (logfd <? 0) eqn:El; cbn -[send_fd open_log can_recv];
    repeat (rewrite ?Hm, ?Ha, ?Er, ?Hc'; unfold recv_fd, send_ack; cbn -[send_fd open_log can_recv]); reflexivity.
Qed.

(** [C14] No deadlock: when messages get through, the two processes never wait for each other for ever.  However they were interleaved so
    far, after four more turns of each [open_err_logfile] has returned, and always with the same result, the
    descriptor that the child opened or -1. *)
Theorem err_log_terminates sched :
  all_sent ->
  log_result (run (sched ++ concat (replicate 4 [true; false])) log_start) = Some received_fd /\
  open_err_logfile sys true true conf path = Some received_fd.
Proof.
  intros Hh. split; [| apply on_course_ends; [done | apply oc_open]]. assert (Happ : forall l1 l2 st, run (l1 ++ l2) st = run l2 (run l1 st)).
  { induction l1 as [| who l1 IH]; intros l2 st; [done |]. apply IH. }
  rewrite Happ. apply on_course_ends; [done |]. apply (log_run_inv on_course); [| apply oc_open].
  intros st st' Hst [Hs | Hs]; [by eapply on_course_child | by eapply on_course_parent].
Qed.

(** [C40] A deadlock: when the child has opened the file but cannot allocate the message, it sends nothing and waits for the
    acknowledgement of a message that the daemon waits for: the daemon hangs, however the processes are interleaved. *)
Theorem err_log_deadlock sched :
  ls_send_calloc sys = false -> can_recv sys = true -> 0 <= logfd -> log_result (run sched log_start) = None.
Proof.
  intros Hc Hr Hfd.
  set (P := fun st => lo_parent st = PaRecv /\ lo_msgs st = [] /\ lo_acks st = O /\
              (lo_child st = ChOpen \/ lo_child st = ChSend logfd \/ lo_child st = ChAck)).
  assert (H : P (run sched log_start)).
  { apply (log_run_inv P); [| by split_and!; auto]. intros st st' (H1 & H2 & H3 & H4) [Hs | Hs].
    - unfold child_step in Hs. destruct H4 as [H4 | [H4 | H4]]; rewrite H4 in Hs; [injection Hs as <- .. | by rewrite H3 in Hs].
      + unfold P. cbn. split_and!; auto.
      + unfold P. cbn. rewrite H2. unfold send_fd. replace (logfd <? 0) with false by lia. rewrite Hc. cbn. split_and!; auto.
    - unfold parent_step, recv_fd in Hs. rewrite H1, Hr, H2 in Hs. cbn in Hs.
      destruct H4 as [H4 | [H4 | H4]]; by rewrite H4 in Hs. }
  destruct H as (H & _). unfold log_result. by rewrite H.
Qed.

End theorems.

(** ** A small system *)

(** User 1001 may open one file. *)
Definition demo_log_sys (calloc : bool) : log_sys := {|
  ls_groups := [0; 5]; ls_getpwuid := fun _ => None; ls_setgid_ok := true; ls_setuid_ok := true;
  ls_open := fun c _ => if cr_u c =? 1001 then 5 else -1; ls_regular := fun _ => true;
  ls_send_calloc := calloc; ls_sendmsg_ok := true; ls_recv_calloc := true; ls_recvmsg_ok := true; ls_cmsg_ok := true;
  ls_ack_ok := true |}.

Definition demo_owned : vm_conf := zero_vm_conf <| vc_owner := 1001 |> <| vc_group := -1 |>.

Lemma err_log_as_owner_witness :
  ls_regular (demo_log_sys true) 5 = true /\
  5 = ls_open (demo_log_sys true) {| cr_u := vc_owner demo_owned; cr_g := log_group (demo_log_sys true) demo_owned; cr_groups := [0; 5] |} "/var/log/one".
Proof.
  apply (err_log_as_owner (demo_log_sys true) demo_owned "/var/log/one" [true; true; false; false; true; false] 5);
    try reflexivity; vm_compute; first [discriminate | split; (reflexivity || discriminate)].
Defined.

(** A file that only the group 5 may write: neither user 1001 nor the group of the VM is in it, and the VM gets the file as its log. *)
Example log_of_operator :
  let sys := {| ls_groups := [0; 5]; ls_getpwuid := fun _ => None; ls_setgid_ok := true; ls_setuid_ok := true;
    ls_open := fun c _ => if bool_decide (5 ∈ cr_g c :: cr_groups c) then 7 else -1; ls_regular := fun _ => true;
    ls_send_calloc := true; ls_sendmsg_ok := true; ls_recv_calloc := true; ls_recvmsg_ok := true; ls_cmsg_ok := true; ls_ack_ok := true |} in
  open_err_logfile sys true true demo_owned "/var/log/operator" = Some 7 /\
  ls_open sys {| cr_u := 1001; cr_g := log_group sys demo_owned; cr_groups := [] |} "/var/log/operator" = -1.
Proof. split; vm_compute; reflexivity. Qed.

(** The parent runs first and waits. *)
Lemma err_log_terminates_witness :
  log_result (log_run (demo_log_sys true) demo_owned "/var/log/one" ([false; false; true] ++ concat (replicate 4 [true; false])) log_start) = Some 5 /\
  open_err_logfile (demo_log_sys true) true true demo_owned "/var/log/one" = Some 5.
Proof. apply (err_log_terminates (demo_log_sys true) demo_owned "/var/log/one" [false; false; true]). by split_and!. Defined.

Lemma err_log_deadlock_witness :
  log_result (log_run (demo_log_sys false) demo_owned "/var/log/one" [true; true; false; true; false] log_start) = None.
Proof.
  apply (err_log_deadlock (demo_log_sys false) demo_owned "/var/log/one" [true; true; false; true; false]); try reflexivity. vm_compute. discriminate.
Defined.
